(* ===== verification/_CoqProject ===== *)
-Q . S2P
Prelude.v
Arch.v
Spinlock.v
Segment.v
Kalloc.v
Sleeplock.v
BlockLayer.v
Bio.v
BioSpec.v
Volatile.v
Acpi.v
Pci.v
Fslog.v
FslogCrash.v
FslogSpec.v
LogOnBio.v
FsLayout.v
Sd.v
SdSpec.v
Fs.v
FsDir.v
FsSpec.v
FsFile.v
Icache.v
FsOnBio.v
FsGrow.v
FsDirSpec.v
FsPath.v
FsDurable.v
FsFree.v
FsCrash.v
FsDirOnBio.v
Pipe.v
FileTable.v
Proc.v
ProcSpec.v
Sched.v
SleeplockSpec.v
Kmem.v
Vm.v
VmSpec.v
UserMem.v
Exec.v
ExecSpec.v
Ioapic.v
Xapic.v
Uart.v
Trap.v
TrapSpec.v
Malloc.v
Cga.v
Kbd.v
Console.v
ConsoleSpec.v
Sysfile.v
SysfileSpec.v
SysfileError.v
FirstProc.v
Ustring.v
Machine.v
Entry.v
EntrySpec.v
SyscallPath.v
Switch.v
Dprintf.v
Cpu.v
Smp.v
Xtask.v
Initcode.v
SysTrap.v
