(* ===== verification/Prelude.v ===== *)
(** * rxv64: a verification library of the kernel and the user library

    rxv64 is a small Unix-like kernel for x86-64 (src/kernel/src), with a user
    library (src/ulib/src) and definitions both share (src/syslib/src).  This
    library models its components as executable definitions and proves what
    makes them correct.

    ** How the program is modelled

    A function that changes state is a computation [M S A] over a record [S]
    of the component's state (below): it returns a value and a state, or
    panics with a message, or does not return.  A panic stands for a failed
    assertion, [expect] or [unwrap], an index out of range, and an overflow of
    a plain arithmetic operator; the wrapping operators are written out with
    [wrap].  [Result] is [result], and Rust's [?] is the notation
    [x <-? m ;; k].  Machine integers are [Z] with their ranges, arrays and
    slices are lists indexed by [Z] ([l.[i]], [l.[i <- x]]), memory is a finite
    map from addresses to pages of bytes.

    A lock is held for the whole of a definition: each definition is one
    atomic section ([Spinlock] shows that the bodies of a lock do run so).  A
    call that has to wait either does not return, where only one process
    is considered (the block layer, the log, the file system), or returns
    [Sleep] with what it goes on with (pipes, the console, the clock, system
    calls).  Where interleavings matter the component is a
    step relation over such sections (processes, pipes, the file table,
    transactions, the page allocator's clients, the disk queue, system calls).
    A device is a state with registers that are read and written (the class
    [Volatile.Mmio]); the drivers are written against it.  Assembly is a list of
    instructions of [Machine], and a theorem about it runs them; where control
    passes from one piece of it to another, the pieces lie at addresses and
    the machine goes on with the one [rip] points to.

    ** The parts, and what is proved of them

    - Processor and memory layout: [Arch] (param.rs, page rounding of
      x86_64.rs, interrupt nesting) and [Segment]
      (descriptors, gates, task state, STAR).  Interrupt disabling nests;
      every gate decodes to its handler; STAR and the descriptor table agree;
      the interrupt stacks' tops lie outside their page.  [Cpu]: the per-CPU
      structure and the instructions x86_64.rs wraps, with set-up, the choice
      of the running process and sleeping on the time-stamp counter.
    - Machine code: [Machine], the instructions the assembly uses, over any
      domain of values ([Dom]): 64-bit numbers, or symbolic values, with a
      simulation between the two, so that a piece of code is run once
      symbolically for all states.  [Entry] has the code of the trap and
      system call entries (x86_64.rs, syscall.rs) and of the user library's
      stubs; [EntrySpec]: a trap is transparent to what it interrupts;
      [SyscallPath]: a system call and its return; [Switch]: the context
      switch (swtch.S), the stacks of new processes (proc.rs) and their first
      run, through the model of forkret in [Sched]; [Dprintf]: the assembly of
      dprintf (ulib's sysx86_64.rs) passes the arguments.
    - Start-up: [Smp] (smp.rs, and mpenter of main.rs): every other processor
      is started with its own number and page, and signals only when it is
      ready.  [Initcode] (initcode.rs): the first program executes [/init].
    - Build tool: [Xtask] (src/xtask): no command after one that failed, and
      the image booted is the one built.
    - Spinlocks: [Spinlock] (spinlock.rs), its accesses to memory interleaved
      on any number of processors: the body of a lock is atomic, which is what
      the other files take for granted.
    - Physical pages: [Kalloc] (kalloc.rs), the free list threaded through the
      pages, which refines a stack and never hands out a page in use; [Kmem]
      (kmem.rs), the boot loader's memory map, which reads back what it
      encodes.
    - Virtual memory: [Vm] (vm.rs) on the page allocator's memory, and
      [VmSpec]: the tables form a tree of distinct pages; mapping a page
      changes the translation of that page only; growing a process maps every
      new page to a page of its own.  [UserMem]: what a process reads in its
      memory, and that copying out to it writes exactly the data.
    - Programs: [Exec] (exec.rs) over page tables, the file system and the
      process, and [ExecSpec]: the stack a program starts on.
    - Traps and the clock: [Trap] (trap.rs) over the process table and any
      [exit]; [TrapSpec]: sleeping on the clock ends in time; [SysTrap]: with
      the [exit] of [Sysfile], a fault in user mode ends its process, by
      closing its files and putting its directory back, and nothing else.
    - Sleep locks: [Sleeplock] (sleeplock.rs) as a lone process sees a call,
      and [SleeplockSpec], its sections on the process table under any
      schedule: one holder, nobody asleep on a free lock, and the lone
      process's view is what the sections come to.
    - Block layer: [BlockLayer] states what a buffer cache promises, as the
      class [BlockOps] with the laws [BlockLaws] over an abstract device
      [Dev]; [Bio] (bio.rs, and the transfer of sd.rs as its caller sees it)
      implements the cache with its doubly linked list, and [BioSpec] proves
      that it satisfies the laws and its queue and replacement policy.  The
      transfer there is the driver's contract: that the drive is there, and
      that the block number fits its commands, are [Sd]'s and [SdSpec]'s.
    - Disk: [Sd] (sd.rs) over a controller's registers, and [SdSpec]: its
      commands are the transfers [Bio] counts on, served in order, each waking
      its process.
    - Buses, firmware and interrupt controllers: [Volatile] (volatile.rs),
      [Acpi] (acpi.rs), whose tables read back and whose walk ends unless an
      entry has length zero, [Pci] (pci.rs), where every function has a page
      of its own, [Ioapic] (ioapic.rs), which masks what is not enabled,
      [Xapic] (xapic.rs), [Uart] (uart.rs), which sends exactly the text.
    - Log: [Fslog] (fslog.rs) over any block layer; [FslogCrash]: a crash
      after any prefix of the writes of a commit recovers to all or nothing;
      [FslogSpec]: transactions are durable, reservations never overflow the
      log, and a log filled to its end is refused at recovery; [LogOnBio]
      puts it on the buffer cache and holds the witnesses.
    - File system: [FsLayout] (fs.rs: on-disk structures and paths), [Fs]
      (blocks, inodes, contents), [FsDir] (directories, path lookup, the file
      interface), over any block layer and the log.  [FsSpec] (block
      allocation), [FsFile] (reading and overwriting files), [Icache] (the
      inode cache); [FsGrow]: a write past the end splices its bytes into the
      file's contents, allocating blocks, and touches nothing of another file;
      [FsDirSpec]: a directory is a finite map from names to inode numbers,
      in which [dir_lookup] looks up and [dir_link] inserts; [FsPath]:
      [namei] is the walk over those maps and leaks no reference; [FsDurable]:
      a transaction of [write] fits its reservation and reaches the disk;
      [FsCrash]: a crash anywhere in a [write], and in the boots that follow,
      leaves a whole number of its transactions done and nothing else changed,
      and the first process comes up; [FsFree]: the last
      [put] of a file without links frees exactly its blocks.  They cover
      direct and indirect blocks up to the largest file, but for freeing:
      truncation stores in the indirect block without logging it, and
      [FsFree] treats files without one.  [FsOnBio] and
      [FsDirOnBio] put the whole stack on the buffer cache and hold the
      witnesses.
    - Processes: [Proc] (proc.rs) and [ProcSpec], the table under any schedule
      on any number of processors: one processor per running process, no
      zombie lost, no wakeup lost.  [Sched]: the process table's spinlock, the
      processor's interrupt state and the assertions of [sched] around it;
      waiting, exiting, yielding and sleeping all reach the switch with those
      assertions true.
    - Open files and pipes: [FileTable] (file.rs), whose counts are the
      numbers of references, and [Pipe] (pipe.rs), a queue under any
      interleaving, with its slab allocator.
    - System calls: [Sysfile] (sysfile.rs, syscall.rs, and the parts of
      proc.rs that use files and memory) composes processes, files, the file
      system, pipes, the console, user memory and the clock; [SysfileSpec]:
      over every run the count of a file is the number of its descriptors;
      [SysfileError]: [open] without a free descriptor panics; [FirstProc]:
      the first process brings up the file system and starts in its root.
    - Console: [Cga] (cga.rs), which never leaves the screen; [Kbd] (kbd.rs),
      whose modifiers never stick; [Console] (console.rs) and [ConsoleSpec],
      the line discipline as a queue and a line under edit.
    - User library: [Malloc] (ulib's malloc.rs): freeing is ordered insertion
      with coalescing (an example shows that growing can miss the block it
      makes).  [Ustring] (its
      lib.rs and rvdprintf.rs): printed numbers read back; [memmove] copies
      upwards only.

    The notations, tactics, hint database and lemmas all files share are in
    this file.

    ** Fuel

    Loops that do not recurse on data take fuel, and running out of it is
    [Diverge], so that a theorem that a call returns shows the fuel to be
    enough: the walk of a list of buffers takes one step per buffer; a file
    read or write one step per block it touches; [copy_out] one per byte; the
    memory map one entry per byte at most; the allocator's search one turn of
    the free list ([Malloc.free_inserts]); a character on the display three
    nested calls ([Cga.cga_stays_on_screen]); killing a line one step per byte
    of the buffer ([ConsoleSpec.kill_ok]); the walk of a capability list one
    step per address it can visit ([Pci.cap_fuel_enough]); the interrupt
    table one entry per byte ([Acpi.madt_init_terminates]).  Polling loops run
    as often as the source says; sending a byte on the serial line has no
    bound there and takes one as fuel ([Uart.write_str_sends]), and so does
    waiting for the time-stamp counter ([Cpu.nanosleep_waits]).

    ** Not modelled

    The boot assembly (entry.S, 16- and 32-bit code) and the order of
    initialisation on the boot processor (main.rs), the kernel's formatted
    output, the parsing of the build tool's command line (clap), the unit
    tests and the C programs.  A call of a Rust function from assembly is one
    step that a theorem's hypothesis describes.  The manifest lists each part
    with its reason. *)
From stdpp Require Import base list gmap strings.
From Stdlib Require Import ZArith Lia.

#[global] Open Scope Z_scope.

(** ** Outcomes, results and the state monad

    A Rust function of the kernel either returns, or panics (a failed
    [assert!], [expect], [unwrap], an out-of-range index, an arithmetic
    overflow under the default debug profile), or does not return.  Its
    fallible result is a [Result<T, &'static str>]. *)
Inductive outcome (A : Type) : Type :=
| Ret (a : A)
| Panic (msg : string)
| Diverge.
Arguments Ret {A} a.
Arguments Panic {A} msg.
Arguments Diverge {A}.

Inductive result (A : Type) : Type :=
| Ok (a : A)
| Err (msg : string).
Arguments Ok {A} a.
Arguments Err {A} msg.

(** Rust's [Option::ok_or] and [Result::map_or]. *)
Definition ok_or {A} (o : option A) (msg : string) : result A :=
  match o with Some a => Ok a | None => Err msg end.

Definition map_or {A B} (r : result A) (d : B) (f : A -> B) : B :=
  match r with Ok a => f a | Err _ => d end.

Definition is_ok {A} (r : result A) : bool :=
  match r with Ok _ => true | Err _ => false end.

(** What one atomic section of a blocking call comes to: its result, or the
    arguments it goes on with after sleeping. *)
Inductive progress (A B : Type) : Type :=
| Done (a : A)
| Sleep (rest : B).
Arguments Done {A B} a.
Arguments Sleep {A B} rest.

Definition M (S A : Type) : Type := S -> outcome (A * S).

#[global] Instance M_ret S : MRet (M S) := fun A a s => Ret (a, s).
#[global] Instance M_bind S : MBind (M S) := fun A B f m s =>
  match m s with
  | Ret (a, s') => f a s'
  | Panic e => Panic e
  | Diverge => Diverge
  end.

Definition panic {S A} (msg : string) : M S A := fun _ => Panic msg.
Definition diverge {S A} : M S A := fun _ => Diverge.
Definition gets {S A} (f : S -> A) : M S A := fun s => Ret (f s, s).
Definition modify {S} (f : S -> S) : M S unit := fun s => Ret (tt, f s).
Definition assert_ {S} (b : bool) (msg : string) : M S unit :=
  if b then mret tt else panic msg.
Definition expect {S A} (o : option A) (msg : string) : M S A :=
  match o with Some a => mret a | None => panic msg end.
Definition expect_ok {S A} (r : result A) (msg : string) : M S A :=
  match r with Ok a => mret a | Err _ => panic msg end.

(** Rust's [?]: return the error, or go on with the value. *)
Definition try_ {S A B} (m : M S (result A)) (f : A -> M S (result B)) : M S (result B) :=
  m ≫= fun r => match r with Ok a => f a | Err e => mret (Err e) end.

Declare Scope rs_scope.
Delimit Scope rs_scope with rs.
#[global] Open Scope rs_scope.

Notation "x '<-?' m ';;' k" := (try_ m (fun x => k))
  (at level 100, m at next level, right associativity) : rs_scope.

(** ** Machine integers

    A w-bit unsigned integer is a [Z] in [0, 2^w).  The wrapping operations
    reduce modulo [2^w]; the plain operators panic on overflow under the
    default profile. *)
Definition wrap (w x : Z) : Z := x mod 2 ^ w.
Definition uN (w x : Z) : Prop := 0 <= x < 2 ^ w.
Definition add_ovf (w a b : Z) : outcome Z :=
  if a + b <? 2 ^ w then Ret (a + b) else Panic "attempt to add with overflow".
Definition sub_ovf (a b : Z) : outcome Z :=
  if b <=? a then Ret (a - b) else Panic "attempt to subtract with overflow".

Definition lift {S A} (o : outcome A) : M S A := fun s =>
  match o with Ret a => Ret (a, s) | Panic e => Panic e | Diverge => Diverge end.

Definition USIZE_MAX : Z := 2 ^ 64 - 1.

(** ** Slices and arrays indexed by machine integers *)
Definition zlen {A} (l : list A) : Z := Z.of_nat (length l).

(** [l[i]]: [None] stands for the index panic. *)
Definition znth {A} (l : list A) (i : Z) : option A :=
  if (0 <=? i) && (i <? zlen l) then l !! Z.to_nat i else None.

(** [l[i] = x], a no-op out of range (guarded by the index check). *)
Definition zset {A} (l : list A) (i : Z) (x : A) : list A :=
  if (0 <=? i) && (i <? zlen l) then <[Z.to_nat i := x]> l else l.

Notation "l .[ i ]" := (znth l i) (at level 1, left associativity, format "l .[ i ]") : rs_scope.
Notation "l .[ i <- x ]" := (zset l i x)
  (at level 1, left associativity, format "l .[ i  <-  x ]") : rs_scope.

(** [&l[a..b]] when [a <= b <= len]. *)
Definition zslice {A} (l : list A) (a b : Z) : list A :=
  take (Z.to_nat (b - a)) (drop (Z.to_nat a) l).

(** [dst[off..off+src.len()].copy_from_slice(src)]. *)
Definition zsplice {A} (dst : list A) (off : Z) (src : list A) : list A :=
  take (Z.to_nat off) dst ++ src ++ drop (Z.to_nat off + length src) dst.

Definition zrep {A} (n : Z) (x : A) : list A := replicate (Z.to_nat n) x.

(** [iter().position(p)]. *)
Fixpoint position {A} (p : A -> bool) (l : list A) : option nat :=
  match l with
  | [] => None
  | x :: l' => if p x then Some O else S <$> position p l'
  end.

(** [(start..end).step_by(step)] as a list. *)
Definition step_range (start stop step : Z) : list Z :=
  if start <? stop
  then (fun k : nat => start + Z.of_nat k * step)
         <$> seq 0 (Z.to_nat ((stop - start + step - 1) / step))
  else [].

Definition zrange (start stop : Z) : list Z := step_range start stop 1.

(** Little-endian encoding ([to_ne_bytes] and [from_ne_bytes] on x86-64). *)
Fixpoint le_bytes (n : nat) (x : Z) : list Z :=
  match n with
  | O => []
  | S n' => x mod 256 :: le_bytes n' (x / 256)
  end.

Fixpoint from_le (bs : list Z) : Z :=
  match bs with
  | [] => 0
  | b :: bs' => b + 256 * from_le bs'
  end.

Definition is_byte (b : Z) : Prop := 0 <= b < 256.

(** A w-bit bitwise complement. *)
Definition lnotw (w x : Z) : Z := Z.lxor x (2 ^ w - 1).

(** ** Tactics and hint databases *)
Create HintDb rs discriminated.
Create Rewrite HintDb rs.

(** Case analysis on the boolean tests and matches of an executed body. *)
Ltac case_bool :=
  match goal with
  | |- context [if ?b then _ else _] => destruct b eqn:?
  | H : context [if ?b then _ else _] |- _ => destruct b eqn:?
  end.

Ltac case_match_in H :=
  match type of H with
  | context [match ?x with _ => _ end] => destruct x eqn:?
  end.

Ltac bool_to_prop :=
  repeat match goal with
  | H : (_ && _) = true |- _ => apply andb_true_iff in H; destruct H
  | H : (_ && _) = false |- _ => apply andb_false_iff in H
  | H : (_ || _) = false |- _ => apply orb_false_iff in H; destruct H
  | H : (_ || _) = true |- _ => apply orb_true_iff in H
  | H : negb _ = true |- _ => apply negb_true_iff in H
  | H : negb _ = false |- _ => apply negb_false_iff in H
  | H : (_ <=? _) = true |- _ => apply Z.leb_le in H
  | H : (_ <=? _) = false |- _ => apply Z.leb_gt in H
  | H : (_ <? _) = true |- _ => apply Z.ltb_lt in H
  | H : (_ <? _) = false |- _ => apply Z.ltb_ge in H
  | H : (_ =? _) = true |- _ => apply Z.eqb_eq in H
  | H : (_ =? _) = false |- _ => apply Z.eqb_neq in H
  end.

(** Run a monadic body: unfold the monad's operations. *)
Ltac run :=
  unfold assert_, expect, expect_ok, try_ in *;
  unfold mbind, M_bind, mret, M_ret, gets, modify, panic, diverge, lift in *; cbn beta iota in *.

(** ** Stepping through monadic code *)
Lemma bind_run {S A B} (m : M S A) (f : A -> M S B) s a s' :
  m s = Ret (a, s') -> (m ≫= f) s = f a s'.
Proof. intros H. unfold mbind, M_bind. by rewrite H. Qed.

Section steps.
Context {S A B : Type}.

Lemma try_run (m : M S (result A)) (f : A -> M S (result B)) s a s' :
  m s = Ret (Ok a, s') -> try_ m f s = f a s'.
Proof. intros H. unfold try_. by rewrite (bind_run _ _ _ _ _ H). Qed.

Lemma try_err (m : M S (result A)) (f : A -> M S (result B)) s e s' :
  m s = Ret (Err e, s') -> try_ m f s = Ret (Err e, s').
Proof. intros H. unfold try_. by rewrite (bind_run _ _ _ _ _ H). Qed.

Lemma bind_gets (g : S -> A) (f : A -> M S B) s : (gets g ≫= f) s = f (g s) s.
Proof. done. Qed.

Lemma bind_modify (g : S -> S) (f : unit -> M S B) s : (modify g ≫= f) s = f tt (g s).
Proof. done. Qed.

Lemma bind_mret (a : A) (f : A -> M S B) s : ((mret a : M S A) ≫= f) s = f a s.
Proof. done. Qed.

Lemma bind_assert b msg (f : unit -> M S B) s :
  b = true -> ((assert_ b msg : M S unit) ≫= f) s = f tt s.
Proof. by intros ->. Qed.

Lemma bind_lift (o : outcome A) (f : A -> M S B) s a :
  o = Ret a -> ((lift o : M S A) ≫= f) s = f a s.
Proof. by intros ->. Qed.

Lemma bind_panic (m : M S A) (f : A -> M S B) s e : m s = Panic e -> (m ≫= f) s = Panic e.
Proof. intros H. unfold mbind, M_bind. by rewrite H. Qed.
End steps.

(** One step of a body: a state access, or a call whose run is known. *)
Ltac mstep :=
  first [ rewrite bind_gets | rewrite bind_modify | rewrite bind_mret
        | rewrite bind_assert by (reflexivity || assumption)
        | erewrite bind_lift by (reflexivity || eassumption)
        | erewrite bind_run by eassumption
        | erewrite try_run by eassumption ].
Ltac msteps := repeat mstep.

(** ** Generic lemmas *)
Section lists.
Context {A : Type}.
Implicit Types (l : list A) (x : A) (i : Z).

Lemma zlen_nonneg l : 0 <= zlen l.
Proof. unfold zlen. lia. Qed.

Lemma zlen_app l1 l2 : zlen (l1 ++ l2) = zlen l1 + zlen l2.
Proof. unfold zlen. rewrite length_app. lia. Qed.

Lemma zlen_cons x l : zlen (x :: l) = 1 + zlen l.
Proof. unfold zlen. cbn. lia. Qed.

Lemma zlen_rep n x : 0 <= n -> zlen (zrep n x) = n.
Proof. intros. unfold zlen, zrep. rewrite length_replicate. lia. Qed.

Lemma znth_lookup l i : 0 <= i < zlen l -> znth l i = l !! Z.to_nat i.
Proof.
  intros [H1 H2]. unfold znth.
  rewrite (proj2 (Z.leb_le _ _) H1), (proj2 (Z.ltb_lt _ _) H2). done.
Qed.

Lemma znth_of_nat l (n : nat) : znth l (Z.of_nat n) = l !! n.
Proof.
  unfold znth. destruct (_ && _) eqn:E.
  - by rewrite Nat2Z.id.
  - symmetry. apply lookup_ge_None_2. apply andb_false_iff in E. unfold zlen in E.
    destruct E as [E|E]; [apply Z.leb_gt in E | apply Z.ltb_ge in E]; lia.
Qed.

Lemma znth_Some l i x : znth l i = Some x -> 0 <= i < zlen l /\ l !! Z.to_nat i = Some x.
Proof. unfold znth. intros. case_bool; bool_to_prop; [split; [lia|done]|done]. Qed.

Lemma znth_range l i x : znth l i = Some x -> 0 <= i < zlen l.
Proof. intros H. by destruct (znth_Some _ _ _ H). Qed.

Lemma znth_lt l i : 0 <= i < zlen l -> exists x, znth l i = Some x.
Proof.
  intros H. rewrite znth_lookup by done.
  destruct (l !! Z.to_nat i) eqn:E; [eauto|].
  apply lookup_ge_None in E. unfold zlen in H. lia.
Qed.

Lemma znth_ge l i : zlen l <= i -> znth l i = None.
Proof. intros. unfold znth. case_bool; bool_to_prop; [lia|done]. Qed.

Lemma zlen_zset l i x : zlen (zset l i x) = zlen l.
Proof. unfold zset, zlen. case_bool; [|done]. by rewrite length_insert. Qed.

Lemma znth_zset_eq l i x : 0 <= i < zlen l -> znth (zset l i x) i = Some x.
Proof.
  intros H. rewrite znth_lookup by (by rewrite zlen_zset).
  unfold zset. destruct (_ && _) eqn:E.
  - apply list_lookup_insert_eq. unfold zlen in H. lia.
  - apply andb_false_iff in E as [E|E]; bool_to_prop; lia.
Qed.

Lemma znth_zset_ne l i j x : i <> j -> znth (zset l i x) j = znth l j.
Proof.
  intros H. unfold znth. rewrite zlen_zset. case_bool; [|done].
  unfold zset. case_bool; [|done]. bool_to_prop.
  apply list_lookup_insert_ne. lia.
Qed.

Lemma znth_zset l i j x :
  0 <= i < zlen l -> znth (zset l i x) j = if decide (i = j) then Some x else znth l j.
Proof. intros. case_decide; [subst; by apply znth_zset_eq | by apply znth_zset_ne]. Qed.

Lemma zset_id l i x : znth l i = Some x -> zset l i x = l.
Proof.
  intros H. unfold zset. case_bool; [|done].
  apply znth_Some in H as [_ H]. by apply list_insert_id.
Qed.

Lemma zset_zset l i x y : zset (zset l i x) i y = zset l i y.
Proof.
  unfold zset at 1. rewrite zlen_zset. unfold zset.
  case_bool; [|done]. apply list_insert_insert_eq.
Qed.

Lemma znth_ext l1 l2 :
  zlen l1 = zlen l2 -> (forall i, 0 <= i < zlen l1 -> znth l1 i = znth l2 i) -> l1 = l2.
Proof.
  intros Hlen H. apply list_eq. intros n.
  destruct (decide (n < length l1)%nat) as [Hn|Hn].
  - rewrite <-!znth_of_nat. apply H. unfold zlen. lia.
  - rewrite !lookup_ge_None_2; [done| |lia]. unfold zlen in Hlen. lia.
Qed.

Lemma znth_app_l l1 l2 i : i < zlen l1 -> znth (l1 ++ l2) i = znth l1 i.
Proof.
  intros H. unfold znth. rewrite zlen_app. pose proof (zlen_nonneg l2).
  destruct (0 <=? i) eqn:E; [|done]. cbn. bool_to_prop.
  rewrite (proj2 (Z.ltb_lt i (zlen l1)) H), (proj2 (Z.ltb_lt i (zlen l1 + zlen l2))) by lia.
  apply lookup_app_l. unfold zlen in H. lia.
Qed.

Lemma znth_app_r l1 l2 i : zlen l1 <= i -> znth (l1 ++ l2) i = znth l2 (i - zlen l1).
Proof.
  intros H. pose proof (zlen_nonneg l1). pose proof (zlen_nonneg l2).
  destruct (decide (i < zlen l1 + zlen l2)).
  - rewrite !znth_lookup by (rewrite ?zlen_app; lia).
    rewrite lookup_app_r by (unfold zlen in *; lia). f_equal. unfold zlen in *. lia.
  - rewrite !znth_ge; [done| |rewrite zlen_app]; lia.
Qed.

Lemma znth_take l n i : 0 <= i < n -> znth (take (Z.to_nat n) l) i = znth l i.
Proof.
  intros H. destruct (decide (i < zlen l)).
  - rewrite !znth_lookup; [apply lookup_take_lt; lia|lia|].
    unfold zlen in *. rewrite length_take. lia.
  - rewrite !znth_ge; [done|lia|]. unfold zlen in *. rewrite length_take. lia.
Qed.

Lemma znth_drop l n i : 0 <= n -> 0 <= i -> znth (drop (Z.to_nat n) l) i = znth l (n + i).
Proof.
  intros Hn Hi. destruct (decide (n + i < zlen l)).
  - rewrite !znth_lookup; [rewrite lookup_drop; f_equal; lia|lia|].
    unfold zlen in *. rewrite length_drop. lia.
  - rewrite !znth_ge; [done|lia|]. unfold zlen in *. rewrite length_drop. lia.
Qed.

Lemma znth_rep n x i : 0 <= i < n -> znth (zrep n x) i = Some x.
Proof.
  intros H. rewrite znth_lookup by (rewrite zlen_rep; lia).
  apply lookup_replicate_2. lia.
Qed.

Lemma zlen_zsplice l off src :
  0 <= off -> off + zlen src <= zlen l -> zlen (zsplice l off src) = zlen l.
Proof.
  intros. unfold zsplice. rewrite !zlen_app. unfold zlen in *.
  rewrite length_take, length_drop. lia.
Qed.

Lemma znth_zsplice_in l off src i :
  0 <= off -> off + zlen src <= zlen l -> off <= i < off + zlen src ->
  znth (zsplice l off src) i = znth src (i - off).
Proof.
  intros H1 H2 H3. unfold zsplice.
  assert (zlen (take (Z.to_nat off) l) = off) as E.
  { unfold zlen in *. rewrite length_take. lia. }
  rewrite znth_app_r by lia. rewrite E. rewrite znth_app_l by lia. done.
Qed.

Lemma znth_zsplice_out l off src i :
  0 <= off -> off + zlen src <= zlen l -> i < off \/ off + zlen src <= i ->
  znth (zsplice l off src) i = znth l i.
Proof.
  intros H1 H2 H3. unfold zsplice. pose proof (zlen_nonneg src).
  assert (zlen (take (Z.to_nat off) l) = off) as E.
  { unfold zlen in *. rewrite length_take. lia. }
  destruct (decide (i < 0)); [unfold znth; rewrite (proj2 (Z.leb_gt 0 i)) by lia; done|].
  destruct H3.
  - rewrite znth_app_l by lia. apply znth_take. lia.
  - rewrite app_assoc, znth_app_r by (rewrite zlen_app; lia).
    rewrite zlen_app, E.
    replace (Z.to_nat off + length src)%nat with (Z.to_nat (off + zlen src)) by (unfold zlen; lia).
    rewrite znth_drop by lia. f_equal. lia.
Qed.

(** Splicing at or before the end may extend the list. *)
Lemma zlen_zsplice_grow l off src :
  0 <= off <= zlen l -> zlen (zsplice l off src) = Z.max (zlen l) (off + zlen src).
Proof.
  intros. unfold zsplice. rewrite !zlen_app. unfold zlen in *.
  rewrite length_take, length_drop. lia.
Qed.

Lemma znth_zsplice_grow l off src i :
  0 <= off <= zlen l ->
  znth (zsplice l off src) i =
    if bool_decide (off <= i < off + zlen src) then znth src (i - off) else znth l i.
Proof.
  intros H1. pose proof (zlen_nonneg src).
  assert (zlen (take (Z.to_nat off) l) = off) as E by (unfold zlen in *; rewrite length_take; lia).
  unfold zsplice. case_bool_decide.
  - rewrite znth_app_r, E, znth_app_l by lia. done.
  - destruct (decide (i < 0)); [unfold znth; rewrite (proj2 (Z.leb_gt 0 i)) by lia; done|].
    destruct (decide (i < off)); [rewrite znth_app_l by lia; apply znth_take; lia|].
    rewrite app_assoc, znth_app_r by (rewrite zlen_app; lia). rewrite zlen_app, E.
    replace (Z.to_nat off + length src)%nat with (Z.to_nat (off + zlen src)) by (unfold zlen; lia).
    rewrite znth_drop by lia. f_equal. lia.
Qed.

(** Splicing in two parts, one after the other. *)
Lemma zsplice_zsplice l off src1 src2 :
  0 <= off <= zlen l -> zsplice (zsplice l off src1) (off + zlen src1) src2 = zsplice l off (src1 ++ src2).
Proof.
  intros Ho. pose proof (zlen_nonneg src1). pose proof (zlen_nonneg src2).
  apply znth_ext; [rewrite !zlen_zsplice_grow, zlen_app; rewrite ?zlen_zsplice_grow; lia|]. intros i _.
  rewrite !znth_zsplice_grow, zlen_app by (rewrite ?zlen_zsplice_grow; lia).
  repeat case_bool_decide; try lia; try done.
  - rewrite znth_app_r by lia. f_equal. lia.
  - by rewrite znth_app_l by lia.
Qed.

Lemma zlen_zslice l a b : 0 <= a <= b -> b <= zlen l -> zlen (zslice l a b) = b - a.
Proof. intros. unfold zslice, zlen in *. rewrite length_take, length_drop. lia. Qed.

Lemma znth_zslice l a b i :
  0 <= a -> 0 <= i < b - a -> znth (zslice l a b) i = znth l (a + i).
Proof. intros. unfold zslice. rewrite znth_take, znth_drop by lia. done. Qed.

Lemma zslice_zsplice l off src :
  0 <= off -> off + zlen src <= zlen l ->
  zslice (zsplice l off src) off (off + zlen src) = src.
Proof.
  intros H1 H2. pose proof (zlen_nonneg src).
  assert (zlen (zslice (zsplice l off src) off (off + zlen src)) = zlen src) as E.
  { rewrite zlen_zslice; rewrite ?zlen_zsplice; lia. }
  apply znth_ext; [done|]. intros i Hi.
  rewrite znth_zslice, znth_zsplice_in by lia. f_equal. lia.
Qed.

Lemma zslice_zsplice_out l off src a b :
  0 <= off -> off + zlen src <= zlen l -> 0 <= a <= b -> b <= zlen l -> b <= off \/ off + zlen src <= a ->
  zslice (zsplice l off src) a b = zslice l a b.
Proof.
  intros H1 H2 H3 H4 H5. pose proof (zlen_nonneg src).
  assert (zlen (zslice (zsplice l off src) a b) = b - a) as E by (rewrite zlen_zslice; rewrite ?zlen_zsplice; lia).
  apply znth_ext; [rewrite E, zlen_zslice; lia|]. intros i Hi.
  rewrite !znth_zslice by lia. apply znth_zsplice_out; lia.
Qed.

Lemma znth_fmap {B} (f : A -> B) l i : znth (f <$> l) i = f <$> znth l i.
Proof.
  unfold znth, zlen. rewrite length_fmap. case_bool; [|done]. apply list_lookup_fmap.
Qed.

Lemma zset_fmap {B} (f : A -> B) l i x : f <$> zset l i x = zset (f <$> l) i (f x).
Proof. unfold zset, zlen. rewrite length_fmap. case_bool; [|done]. apply list_fmap_insert. Qed.

Lemma zlen_fmap {B} (f : A -> B) l : zlen (f <$> l) = zlen l.
Proof. unfold zlen. by rewrite length_fmap. Qed.

Lemma position_Some (p : A -> bool) l n :
  position p l = Some n ->
  (exists x, l !! n = Some x /\ p x = true) /\
  (forall m y, (m < n)%nat -> l !! m = Some y -> p y = false).
Proof.
  revert n. induction l as [|a l IH]; intros n H; cbn in H; [done|].
  destruct (p a) eqn:E.
  - simplify_eq. split; [by exists a|]. lia.
  - destruct (position p l) as [k|]; simplify_eq/=.
    destruct (IH _ eq_refl) as [H1 H2]. split; [done|].
    intros [|m] y Hm Hy; cbn in Hy; [congruence|]. apply (H2 m); [lia|done].
Qed.

Lemma position_None (p : A -> bool) l : position p l = None -> Forall (fun x => p x = false) l.
Proof.
  induction l as [|a l IH]; cbn; [constructor|].
  destruct (p a) eqn:E; [done|]. destruct (position p l); [done|]. auto.
Qed.
End lists.

#[export] Hint Rewrite @zlen_app @zlen_cons @zlen_zset : rs.

(** ** Little-endian round trips *)
Lemma length_le_bytes n x : length (le_bytes n x) = n.
Proof. revert x. induction n; intros; cbn; [done|]. by rewrite IHn. Qed.

Lemma zlen_le_bytes n x : zlen (le_bytes n x) = Z.of_nat n.
Proof. unfold zlen. by rewrite length_le_bytes. Qed.

Lemma le_bytes_bytes n x : Forall is_byte (le_bytes n x).
Proof.
  revert x. induction n; intros; cbn; constructor; [|done].
  apply Z.mod_pos_bound. lia.
Qed.

Lemma from_le_le_bytes n x : 0 <= x < 256 ^ Z.of_nat n -> from_le (le_bytes n x) = x.
Proof.
  revert x. induction n as [|n IH]; intros x H; cbn [le_bytes from_le].
  - cbn in H. lia.
  - rewrite Nat2Z.inj_succ, Z.pow_succ_r in H by lia.
    rewrite IH.
    + pose proof (Z.div_mod x 256). lia.
    + split; [apply Z.div_pos; lia|]. apply Z.div_lt_upper_bound; lia.
Qed.

Lemma le_bytes_from_le bs : Forall is_byte bs -> le_bytes (length bs) (from_le bs) = bs.
Proof.
  induction 1 as [|b bs Hb _ IH]; cbn [length le_bytes from_le]; [done|].
  unfold is_byte in Hb.
  replace (b + 256 * from_le bs) with (from_le bs * 256 + b) by lia.
  rewrite Z.div_add_l, (Z.div_small b) by lia. rewrite Z.add_0_r, IH.
  rewrite Z.add_comm, Z.mod_add by lia. by rewrite Z.mod_small by lia.
Qed.

Lemma from_le_bound bs : Forall is_byte bs -> 0 <= from_le bs < 256 ^ Z.of_nat (length bs).
Proof.
  induction 1 as [|b bs Hb _ IH]; cbn [length from_le]; [cbn; lia|].
  unfold is_byte in Hb. rewrite Nat2Z.inj_succ, Z.pow_succ_r by lia. lia.
Qed.

(** ** Bits *)
Lemma land_ones_mod x n : 0 <= n -> Z.land x (2 ^ n - 1) = x mod 2 ^ n.
Proof. intros. rewrite <-Z.land_ones by done. by rewrite Z.ones_equiv, <-Z.sub_1_r. Qed.

Lemma testbit_pow2 n i : 0 <= n -> Z.testbit (2 ^ n) i = (i =? n).
Proof.
  intros. destruct (i =? n) eqn:E; bool_to_prop; subst.
  - by apply Z.pow2_bits_true.
  - apply Z.pow2_bits_false. congruence.
Qed.

(** [x & (1 << n)] is zero exactly when bit [n] is clear. *)
Lemma land_pow2 x n : 0 <= n -> Z.land x (2 ^ n) = if Z.testbit x n then 2 ^ n else 0.
Proof.
  intros Hn. apply Z.bits_inj. intros i.
  rewrite Z.land_spec, testbit_pow2 by done.
  destruct (Z.testbit x n) eqn:E; rewrite ?testbit_pow2, ?Z.bits_0 by done;
    destruct (i =? n) eqn:E'; bool_to_prop; subst; rewrite ?E, ?andb_false_r; done.
Qed.

Lemma lor_pow2_spec x n i :
  0 <= n -> Z.testbit (Z.lor x (2 ^ n)) i = (Z.testbit x i || (i =? n)).
Proof. intros. by rewrite Z.lor_spec, testbit_pow2. Qed.

Lemma ldiff_pow2_spec x n i :
  0 <= n -> Z.testbit (Z.ldiff x (2 ^ n)) i = (Z.testbit x i && negb (i =? n)).
Proof. intros. by rewrite Z.ldiff_spec, testbit_pow2. Qed.

(** A w-bit complement masks like [Z.ldiff]. *)
Lemma land_lnotw w x m : 0 <= w -> uN w x -> Z.land x (lnotw w m) = Z.ldiff x m.
Proof.
  intros Hw Hx. apply Z.bits_inj. intros i. unfold lnotw.
  rewrite Z.land_spec, Z.ldiff_spec, Z.lxor_spec.
  destruct (decide (i < 0)); [by rewrite !Z.testbit_neg_r by lia|].
  replace (2 ^ w - 1) with (Z.ones w) by (rewrite Z.ones_equiv; lia).
  destruct (decide (i < w)).
  - rewrite Z.ones_spec_low by lia. by destruct (Z.testbit m i).
  - replace (Z.testbit x i) with false; [done|].
    symmetry. rewrite <-(Z.mod_small x (2 ^ w)) by done.
    apply Z.mod_pow2_bits_high. lia.
Qed.

Lemma bits_bound w x : 0 <= w -> 0 <= x -> (forall i, w <= i -> Z.testbit x i = false) -> uN w x.
Proof.
  intros Hw Hx H. split; [done|].
  destruct (decide (x = 0)) as [->|]; [apply Z.pow_pos_nonneg; lia|].
  apply Z.log2_lt_pow2; [lia|].
  destruct (decide (Z.log2 x < w)); [done|].
  specialize (H (Z.log2 x) ltac:(lia)). rewrite Z.bit_log2 in H by lia. done.
Qed.

Lemma uN_testbit_high w x i : 0 <= w -> uN w x -> w <= i -> Z.testbit x i = false.
Proof. intros. rewrite <-(Z.mod_small x (2 ^ w)) by done. apply Z.mod_pow2_bits_high. lia. Qed.

Lemma uN_lor w a b : 0 <= w -> uN w a -> uN w b -> uN w (Z.lor a b).
Proof.
  intros Hw Ha Hb. apply bits_bound; [done|apply Z.lor_nonneg; split; apply Ha || apply Hb|].
  intros i Hi. by rewrite Z.lor_spec, !(uN_testbit_high w) by done.
Qed.

(** A word from its two halves. *)
Lemma halves_join v : uN 64 v -> Z.lor (Z.shiftl (wrap 32 (Z.shiftr v 32)) 32) (wrap 32 v) = v.
Proof.
  intros Hv. apply Z.bits_inj'. intros i Hi. unfold wrap.
  rewrite Z.lor_spec, Z.shiftl_spec by lia. destruct (decide (i < 32)).
  - rewrite (Z.testbit_neg_r _ (i - 32)), Z.mod_pow2_bits_low by lia. done.
  - rewrite (Z.mod_pow2_bits_high _ 32 i), orb_false_r by lia. destruct (decide (i - 32 < 32)).
    + rewrite Z.mod_pow2_bits_low, Z.shiftr_spec by lia. f_equal. lia.
    + rewrite Z.mod_pow2_bits_high by lia. symmetry. apply (uN_testbit_high 64); [lia|done|lia].
Qed.

(** A list with a repetition has it at two positions. *)
Lemma not_NoDup_lookup {A} `{EqDecision A} (l : list A) : ~ NoDup l ->
  exists i j x, (i < j)%nat /\ l !! i = Some x /\ l !! j = Some x.
Proof.
  induction l as [|x l IH]; intros Hd; [exfalso; apply Hd; constructor|].
  destruct (decide (x ∈ l)) as [[j Hj]%list_elem_of_lookup_1|Hn].
  - exists 0%nat, (S j), x. split; [lia|]. done.
  - destruct IH as (i & j & y & Hij & Hi & Hj); [|by exists (S i), (S j), y; split; [lia|]].
    intros Hnd. apply Hd. by constructor.
Qed.

(** ** Computations that come to an end *)
Definition ends {S A} (m : M S A) : Prop := forall s, m s <> Diverge.

Lemma ends_bind {S A B} (m : M S A) (f : A -> M S B) : ends m -> (forall a, ends (f a)) -> ends (m ≫= f).
Proof. intros Hm Hf s. unfold mbind, M_bind. specialize (Hm s). destruct (m s) as [[a s']|e|]; [apply Hf|done|done]. Qed.
Lemma ends_ret {S A} (a : A) : ends (mret a : M S A).
Proof. by intros s. Qed.
Lemma ends_gets {S A} (f : S -> A) : ends (gets f).
Proof. by intros s. Qed.
Lemma ends_modify {S} (f : S -> S) : ends (modify f).
Proof. by intros s. Qed.
Lemma ends_panic {S A} e : ends (panic e : M S A).
Proof. by intros s. Qed.
Lemma ends_assert {S} b e : ends (assert_ b e : M S unit).
Proof. by destruct b. Qed.
Lemma ends_expect {S A} (o : option A) e : ends (expect o e : M S A).
Proof. by destruct o. Qed.
Lemma ends_lift {S A} (o : outcome A) : o <> Diverge -> ends (lift o : M S A).
Proof. intros H s. by destruct o. Qed.
#[export] Hint Resolve ends_ret ends_gets ends_modify ends_panic ends_assert ends_expect : rs.

(** Every step of a body ends. *)
Ltac solve_ends :=
  repeat first [solve [auto with rs] | apply ends_bind; [|intros ?] | case_match
               | apply ends_lift; by repeat case_match].

(** ** Ranges *)
Lemma elem_of_zrange a b x : x ∈ zrange a b <-> a <= x < b.
Proof.
  unfold zrange, step_range. rewrite Z.div_1_r. case_bool; bool_to_prop.
  - rewrite list_elem_of_fmap. split.
    + intros (k & -> & Hk). apply elem_of_seq in Hk. lia.
    + intros. exists (Z.to_nat (x - a)). split; [lia|]. apply elem_of_seq. lia.
  - split; [by intros ?%not_elem_of_nil|lia].
Qed.

Lemma zrange_cons x y : x < y -> zrange x y = x :: zrange (x + 1) y.
Proof.
  intros Hxy. unfold zrange, step_range. rewrite !Z.div_1_r, (proj2 (Z.ltb_lt x y) Hxy).
  replace (Z.to_nat (y - x + 1 - 1)) with (Datatypes.S (Z.to_nat (y - (x + 1)))) by lia.
  cbn [seq fmap list_fmap]. f_equal; [lia|].
  destruct (Z.ltb_spec (x + 1) y) as [H|H].
  - rewrite <-fmap_S_seq, <-list_fmap_compose.
    replace (Z.to_nat (y - (x + 1) + 1 - 1)) with (Z.to_nat (y - (x + 1))) by lia.
    apply list_fmap_ext. intros i k _. cbn. lia.
  - replace (Z.to_nat (y - (x + 1))) with 0%nat by lia. done.
Qed.

Lemma zrange_nil x y : y <= x -> zrange x y = [].
Proof. intros H. unfold zrange, step_range. by rewrite (proj2 (Z.ltb_ge x y)). Qed.

(** Reading a list back from a function of its indices. *)
Lemma zrange_NoDup a b : NoDup (zrange a b).
Proof.
  unfold zrange, step_range. case_bool; [|constructor].
  apply NoDup_fmap_2; [intros x y; lia|apply NoDup_seq].
Qed.

Lemma zlen_zrange a b : a <= b -> zlen (zrange a b) = b - a.
Proof.
  intros Hab. unfold zlen, zrange, step_range. destruct (Z.ltb_spec a b); [|cbn; lia].
  rewrite length_fmap, length_seq, Z.div_1_r. lia.
Qed.

Lemma znth_zrange a b k : 0 <= k < b - a -> (zrange a b).[k] = Some (a + k).
Proof.
  intros Hk. rewrite znth_lookup by (rewrite zlen_zrange; lia). unfold zrange, step_range.
  rewrite (proj2 (Z.ltb_lt a b)) by lia. rewrite list_lookup_fmap, lookup_seq_lt by (rewrite Z.div_1_r; lia).
  cbn. f_equal. lia.
Qed.

Lemma mapM_zrange_from {A} (f : Z -> option A) (l : list A) : forall a,
  (forall i, 0 <= i < zlen l -> f (a + i) = l.[i]) -> mapM f (zrange a (a + zlen l)) = Some l.
Proof.
  induction l as [|x l IH]; intros a Hf; [rewrite zrange_nil; [done|change (zlen []) with 0; lia]|].
  pose proof (zlen_nonneg l). rewrite zlen_cons in *. rewrite zrange_cons by lia. cbn [mapM].
  specialize (Hf 0 ltac:(lia)) as H0. rewrite Z.add_0_r in H0. rewrite H0. cbn -[mapM].
  replace (a + (1 + zlen l)) with (a + 1 + zlen l) by lia. rewrite IH; [done|].
  intros i Hi. replace (a + 1 + i) with (a + (1 + i)) by lia. rewrite Hf by lia.
  change (x :: l) with ([x] ++ l). rewrite znth_app_r by (change (zlen [x]) with 1; lia).
  f_equal. change (zlen [x]) with 1. lia.
Qed.

Lemma mapM_zrange {A} (f : Z -> option A) (l : list A) :
  (forall i, 0 <= i < zlen l -> f i = l.[i]) -> mapM f (zrange 0 (zlen l)) = Some l.
Proof. intros H. rewrite <-(Z.add_0_l (zlen l)). by apply mapM_zrange_from. Qed.

(** Reading back a list after one update, and the element [position] finds. *)
Lemma position_znth {A} (p : A -> bool) (l : list A) n :
  position p l = Some n -> exists x, l.[Z.of_nat n] = Some x /\ p x = true.
Proof. intros E. apply position_Some in E as [(x & Hx & Hp) _]. exists x. by rewrite znth_of_nat. Qed.

Lemma position_znth_None {A} (f : A -> bool) (l : list A) k x :
  position f l = None -> l.[k] = Some x -> f x = false.
Proof.
  intros H Hk. apply znth_Some in Hk as [_ Hk]. revert H. generalize dependent (Z.to_nat k).
  induction l as [|y l IH]; intros n Hk H; [done|]. cbn in H. destruct (f y) eqn:E; [done|].
  destruct (position f l); [done|]. destruct n; [by injection Hk as ->|by eapply IH].
Qed.

Lemma znth_zset_inv {A} (l : list A) k x j z :
  0 <= k < zlen l -> l.[k <- x].[j] = Some z -> (j = k /\ z = x) \/ (j <> k /\ l.[j] = Some z).
Proof. intros Hk Hj. rewrite znth_zset in Hj by done. case_decide; simplify_eq; auto. Qed.

Lemma znth_set_inv {A} (l : list A) k x y j z :
  l.[k] = Some y -> l.[k <- x].[j] = Some z -> (j = k /\ z = x) \/ (j <> k /\ l.[j] = Some z).
Proof.
  intros Hk Hj. pose proof (znth_range _ _ _ Hk). rewrite znth_zset in Hj by done.
  case_decide; simplify_eq; auto.
Qed.

Lemma znth_set_eq {A} (l : list A) k x y : l.[k] = Some y -> l.[k <- x].[k] = Some x.
Proof. intros Hk. apply znth_zset_eq. by eapply znth_range. Qed.
