(* ===== verification/Arch.v ===== *)
(** Constants of [param.rs], the address arithmetic of [kmem.rs] and the
    processor-level data structures of [x86_64.rs]: page rounding, byte
    readers, the per-CPU interrupt-disable counter and the trap frame tests. *)
From stdpp Require Import base list gmap strings.
From Stdlib Require Import ZArith Lia.
From S2P Require Import Prelude.

(** ** param.rs *)
Definition KERNBASE : Z := 0xFFFF800000000000.
Definition USERSTACK : Z := 0x00007FFFFFFFC000.
Definition USEREND : Z := 0x0000800000000000.
Definition NPROC : Z := 256.
Definition NCPUMAX : Z := 256.
Definition NPCICFGMAX : Z := 256.
Definition NOFILE : Z := 64.
Definition NFILE : Z := 1024.
Definition NINODE : Z := 1024.
Definition ROOTDEV : Z := 1.
Definition MAXARG : Z := 32.
Definition MAXOPBLOCKS : Z := 64.
Definition LOGSIZE : Z := MAXOPBLOCKS * 8 - 1.
Definition NBUF : Z := MAXOPBLOCKS * 8.

(** ** Pages *)
Definition PAGE_SIZE : Z := 4096.

Definition page_round_down (value : Z) : Z := Z.land value (lnotw 64 (PAGE_SIZE - 1)).

Definition page_round_up (value : Z) : outcome Z :=
  add_ovf 64 ((PAGE_SIZE - value mod PAGE_SIZE) mod PAGE_SIZE) value.

(** ** kmem.rs addresses *)
Definition phys_to_addr (p : Z) : outcome Z := add_ovf 64 p KERNBASE.
Definition addr_to_phys (a : Z) : outcome Z := sub_ovf a KERNBASE.

(** ** Byte readers; the assertion is on the slice length. *)
Definition read_u16 (bs : list Z) : outcome Z :=
  if zlen bs =? 2 then Ret (from_le bs) else Panic "assertion failed: bs.len() == 2".
Definition read_u32 (bs : list Z) : outcome Z :=
  if zlen bs =? 4 then Ret (from_le bs) else Panic "assertion failed: bs.len() == 4".
Definition read_u64 (bs : list Z) : outcome Z :=
  if zlen bs =? 8 then Ret (from_le bs) else Panic "assertion failed: bs.len() == 8".

(** ** The per-CPU interrupt state: RFLAGS.IF, [ncli], [saved_intr_status]. *)
Record CPU := mkCPU { intr_en : bool; ncli : Z; saved_intr_status : bool }.

Definition push_intr_disable : M CPU unit :=
  enabled ← gets intr_en;
  modify (fun c => mkCPU false (ncli c) (saved_intr_status c));;
  n ← gets ncli;
  (if n =? 0 then modify (fun c => mkCPU (intr_en c) (ncli c) enabled) else mret tt);;
  n' ← lift (add_ovf 32 n 1);
  modify (fun c => mkCPU (intr_en c) n' (saved_intr_status c)).

Definition pop_intr_disable : M CPU unit :=
  en ← gets intr_en;
  assert_ (negb en) "pop while interrupts are enabled";;
  n ← gets ncli;
  assert_ (negb (n =? 0)) "pop_intr_disable ncli = 0";;
  modify (fun c => mkCPU (intr_en c) (ncli c - 1) (saved_intr_status c));;
  c ← gets id;
  if (ncli c =? 0) && saved_intr_status c
  then modify (fun c => mkCPU true (ncli c) (saved_intr_status c))
  else mret tt.

(** [without_intrs] of spinlock.rs. *)
Definition without_intrs {A} (thunk : M CPU A) : M CPU A :=
  push_intr_disable;;
  r ← thunk;
  pop_intr_disable;;
  mret r.

(** ** Trap frames *)
Definition TrapFrame_is_user (cs : Z) : bool := Z.land cs 3 =? 3.
Definition sfmask : Z := Z.lor (Z.lor (Z.shiftl 1 8) (Z.shiftl 1 9)) (Z.shiftl 1 10).

(** ** Page rounding *)
Lemma page_round_down_eq v : uN 64 v -> page_round_down v = v - v mod PAGE_SIZE.
Proof.
  intros H. unfold page_round_down. rewrite land_lnotw by (done || lia).
  change (PAGE_SIZE - 1) with (Z.ones 12). rewrite Z.ldiff_ones_r by lia.
  rewrite Z.shiftl_mul_pow2, Z.shiftr_div_pow2 by lia.
  change PAGE_SIZE with (2 ^ 12). pose proof (Z.div_mod v (2 ^ 12)). lia.
Qed.

Lemma page_round_up_eq v :
  0 <= v <= 2 ^ 64 - PAGE_SIZE ->
  page_round_up v = Ret ((v + PAGE_SIZE - 1) / PAGE_SIZE * PAGE_SIZE).
Proof.
  intros H. unfold page_round_up, add_ovf. unfold PAGE_SIZE in *.
  assert (E : (4096 - v mod 4096) mod 4096 + v = (v + 4096 - 1) / 4096 * 4096).
  { pose proof (Z.div_mod v 4096). pose proof (Z.mod_pos_bound v 4096).
    destruct (decide (v mod 4096 = 0)) as [E|E].
    - rewrite E. change ((4096 - 0) mod 4096) with 0.
      replace (v + 4096 - 1) with (v / 4096 * 4096 + 4095) by lia.
      rewrite Z.div_add_l by lia. change (4095 / 4096) with 0. lia.
    - rewrite (Z.mod_small (4096 - _)) by lia.
      replace (v + 4096 - 1) with ((v / 4096 + 1) * 4096 + (v mod 4096 - 1)) by lia.
      rewrite Z.div_add_l, (Z.div_small (v mod 4096 - 1)) by lia. lia. }
  rewrite E. rewrite (proj2 (Z.ltb_lt _ _)); [done|].
  pose proof (Z.div_mod (v + 4096 - 1) 4096). pose proof (Z.mod_pos_bound (v + 4096 - 1) 4096).
  assert ((v + 4096 - 1) / 4096 <= (2 ^ 64 - 1) / 4096) by (apply Z.div_le_mono; lia).
  change ((2 ^ 64 - 1) / 4096) with (2 ^ 52 - 1) in *. lia.
Qed.

Lemma page_round_up_aligned v r : page_round_up v = Ret r -> r mod PAGE_SIZE = 0.
Proof.
  unfold page_round_up, add_ovf. intros. case_bool; simplify_eq.
  unfold PAGE_SIZE. rewrite Z.add_mod_idemp_l by lia.
  replace (4096 - v mod 4096 + v) with (4096 * 1 + (v - v mod 4096)) by lia.
  rewrite Z.add_comm, Z.mul_comm, Z.mod_add, Zminus_mod_idemp_r by lia.
  by rewrite Z.sub_diag.
Qed.

Lemma page_round_up_bounds v r : 0 <= v -> page_round_up v = Ret r -> v <= r < v + PAGE_SIZE.
Proof.
  unfold page_round_up, add_ovf. intros. case_bool; simplify_eq.
  pose proof (Z.mod_pos_bound (PAGE_SIZE - v mod PAGE_SIZE) PAGE_SIZE).
  unfold PAGE_SIZE in *. lia.
Qed.

(** ** Interrupt nesting *)
Fixpoint iterM {S} (n : nat) (m : M S unit) : M S unit :=
  match n with O => mret tt | S n' => m;; iterM n' m end.

(** Interrupts are off whenever the counter is positive. *)
Definition cpu_ok (c : CPU) : Prop := 0 <= ncli c /\ (0 < ncli c -> intr_en c = false).

Lemma push_intr_disable_run c :
  0 <= ncli c < 2 ^ 32 - 1 ->
  push_intr_disable c =
    Ret (tt, mkCPU false (ncli c + 1) (if ncli c =? 0 then intr_en c else saved_intr_status c)).
Proof.
  intros H. unfold push_intr_disable, add_ovf. run. cbn.
  destruct (ncli c =? 0) eqn:E; cbn; rewrite (proj2 (Z.ltb_lt _ _)) by (cbn; lia); done.
Qed.

Lemma pop_intr_disable_run c :
  intr_en c = false -> 0 < ncli c ->
  pop_intr_disable c =
    Ret (tt, mkCPU ((ncli c =? 1) && saved_intr_status c) (ncli c - 1) (saved_intr_status c)).
Proof.
  intros He Hn. unfold pop_intr_disable. run. rewrite He. cbn.
  rewrite (proj2 (Z.eqb_neq (ncli c) 0)) by lia. cbn.
  replace (ncli c - 1 =? 0) with (ncli c =? 1) by (destruct (Z.eqb_spec (ncli c) 1), (Z.eqb_spec (ncli c - 1) 0); lia).
  destruct ((ncli c =? 1) && saved_intr_status c) eqn:E; rewrite ?E, ?He; done.
Qed.

Lemma push_n_run n c :
  cpu_ok c -> ncli c + Z.of_nat n < 2 ^ 32 -> (0 < n)%nat ->
  iterM n push_intr_disable c =
    Ret (tt, mkCPU false (ncli c + Z.of_nat n)
               (if ncli c =? 0 then intr_en c else saved_intr_status c)).
Proof.
  revert c. induction n as [|n IH]; intros c [H0 H1] Hb Hn; [lia|].
  cbn [iterM]. run. rewrite push_intr_disable_run by lia.
  destruct n as [|n]; [cbn; do 3 f_equal; lia|].
  rewrite IH; [|split; cbn; [lia|done]|cbn; lia|lia]. cbn [ncli intr_en saved_intr_status].
  rewrite (proj2 (Z.eqb_neq (ncli c + 1) 0)) by lia. do 3 f_equal; lia.
Qed.

Lemma pop_n_run n c :
  intr_en c = false -> Z.of_nat n <= ncli c -> (0 < n)%nat ->
  iterM n pop_intr_disable c =
    Ret (tt, mkCPU ((ncli c =? Z.of_nat n) && saved_intr_status c) (ncli c - Z.of_nat n)
               (saved_intr_status c)).
Proof.
  revert c. induction n as [|n IH]; intros c He Hb Hn; [lia|].
  cbn [iterM]. run. rewrite pop_intr_disable_run by (done || lia).
  destruct n as [|n]; [cbn; do 3 f_equal; lia|].
  rewrite (proj2 (Z.eqb_neq (ncli c) 1)) by lia. cbn [andb].
  rewrite IH; [|done|cbn; lia|lia]. cbn [ncli intr_en saved_intr_status].
  do 3 f_equal; [|lia]. f_equal. destruct (Z.eqb_spec (ncli c - 1) (Z.of_nat (S n))),
    (Z.eqb_spec (ncli c) (Z.of_nat (S (S n)))); lia.
Qed.

(** ** Properties *)

(** interrupt nesting.  Disabling interrupts [n] times and popping [n]
    times neither panics nor overflows, and gives back the interrupt flag and
    the nesting depth the processor had before the first push; between the
    two, interrupts are off. *)
Theorem intr_disable_nests n c :
  cpu_ok c -> ncli c + Z.of_nat n < 2 ^ 32 -> (0 < n)%nat ->
  exists c1 c2,
    iterM n push_intr_disable c = Ret (tt, c1) /\ intr_en c1 = false /\
    ncli c1 = ncli c + Z.of_nat n /\
    iterM n pop_intr_disable c1 = Ret (tt, c2) /\
    intr_en c2 = intr_en c /\ ncli c2 = ncli c.
Proof.
  intros Hok Hb Hn. eexists _, _. rewrite push_n_run by done.
  split; [done|]. split; [done|]. split; [done|].
  rewrite pop_n_run by (cbn; done || (destruct Hok; cbn; lia)). cbn [ncli intr_en saved_intr_status].
  split; [done|]. split; [|cbn; lia]. cbn.
  destruct Hok as [H0 H1].
  destruct (Z.eqb_spec (ncli c) 0) as [E|E].
  - rewrite E, Z.add_0_l, Z.eqb_refl. done.
  - rewrite (proj2 (Z.eqb_neq (ncli c + Z.of_nat n) (Z.of_nat n))) by lia.
    symmetry. apply H1. lia.
Qed.

Lemma intr_disable_nests_witness :
  let c := mkCPU true 0 false in
  cpu_ok c /\ exists c1 c2,
    iterM 3 push_intr_disable c = Ret (tt, c1) /\ intr_en c1 = false /\
    ncli c1 = ncli c + Z.of_nat 3 /\
    iterM 3 pop_intr_disable c1 = Ret (tt, c2) /\
    intr_en c2 = intr_en c /\ ncli c2 = ncli c.
Proof.
  split; [split; cbn; [lia|lia]|].
  apply (intr_disable_nests 3 (mkCPU true 0 false)); [split; cbn; lia|cbn; lia|lia].
Defined.

