(* ===== verification/Spinlock.v ===== *)
(** Spinlocks, [spinlock.rs], on several processors at once: [acquire],
    [release] and [with_lock] as the memory accesses they make, one at a time
    and interleaved in any order, with the interrupt state of each processor.
    What is shown is what the other files take for granted when they treat
    the body of a lock as one step. *)
From stdpp Require Import base list gmap strings relations.
From Stdlib Require Import ZArith Lia.
From S2P Require Import Prelude.
From S2P Require Import Arch.

Section spinlock.
Context {D : Type}.

(** ** The lock and the processors *)

(** The [SpinMutex]: the lock word, the processor that holds it, the data. *)
Record SpinMutex := mkSpinMutex { locked : Z; cpu : Z; data : D }.
Definition SpinMutex_new (d : D) : SpinMutex := mkSpinMutex 0 (-1) d.

(** A closure run under the lock, as the accesses to the data it makes. *)
Definition Thunk : Type := list (D -> D).
Definition run_thunk (t : Thunk) (d : D) : D := foldl (fun x f => f x) d t.

(** Where a processor is in [with_lock thunk]. *)
Inductive Pc :=
| Idle
| Acquire (t : Thunk)       (* before [push_intr_disable] *)
| AcqLocked (t : Thunk)     (* [holding] reads [locked] *)
| AcqCpu (t : Thunk)        (* [holding] reads [cpu] *)
| Spin (t : Thunk)          (* [xswap] of the lock word *)
| SetCpu (t : Thunk)        (* before [cpu] is set *)
| Crit (past rest : Thunk)  (* in the closure *)
| RelLocked                 (* [holding] in [release] *)
| RelCpu
| ClearCpu                  (* before [cpu] is reset *)
| Unlock                    (* before the [xswap] that unlocks *)
| PopIntr.                  (* before [pop_intr_disable] *)

(** [past_sections] records the closures that have run, in order. *)
Record Machine := mkMachine { mutex : SpinMutex; cpus : list (CPU * Pc); past_sections : list Thunk }.
Notation T := (M Machine).

Definition put_cpus (l : list (CPU * Pc)) (s : Machine) : Machine := mkMachine (mutex s) l (past_sections s).
Definition put_mutex (m : SpinMutex) (s : Machine) : Machine := mkMachine m (cpus s) (past_sections s).

Definition cpu_at (me : Z) : T (CPU * Pc) := s ← gets id; expect (cpus s).[me] "no such cpu".
(** A step on the interrupt state of [me]. *)
Definition on_cpu (me : Z) (m : M CPU unit) : T unit :=
  c ← cpu_at me;
  r ← lift (m (fst c));
  modify (fun s => put_cpus (cpus s).[me <- (snd r, snd c)] s).
Definition goto (me : Z) (pc : Pc) : T unit :=
  c ← cpu_at me; modify (fun s => put_cpus (cpus s).[me <- (fst c, pc)] s).

(** ** Accesses to the mutex *)
Definition read_locked : T Z := gets (fun s => locked (mutex s)).
Definition read_cpu : T Z := gets (fun s => cpu (mutex s)).
Definition write_cpu (c : Z) : T unit :=
  modify (fun s => put_mutex (mkSpinMutex (locked (mutex s)) c (data (mutex s))) s).
Definition xswap (v : Z) : T Z :=
  old ← read_locked;
  modify (fun s => put_mutex (mkSpinMutex v (cpu (mutex s)) (data (mutex s))) s);;
  mret old.

(** [holding], as its two reads: the first goes on to [next] if the lock is
    taken and to [free] if not, the second gives the answer. *)
Definition holding_locked (me : Z) (next : Pc) (free : T unit) : T unit :=
  on_cpu me push_intr_disable;;
  l ← read_locked;
  if negb (l =? 0) then goto me next else on_cpu me pop_intr_disable;; free.
Definition holding_cpu (me : Z) : T bool :=
  c ← read_cpu; on_cpu me pop_intr_disable;; mret (c =? me).

(** ** One step of processor [me] *)
Definition acquire_step (me : Z) (pc : Pc) : T unit :=
  match pc with
  | Acquire t => on_cpu me push_intr_disable;; goto me (AcqLocked t)
  | AcqLocked t => holding_locked me (AcqCpu t) (goto me (Spin t))
  | AcqCpu t => h ← holding_cpu me; assert_ (negb h) "nested lock";; goto me (Spin t)
  | Spin t => old ← xswap 1; if negb (old =? 0) then mret tt else goto me (SetCpu t)
  | SetCpu t => write_cpu me;; goto me (Crit [] t)
  | _ => mret tt
  end.

Definition thunk_step (me : Z) (past rest : Thunk) : T unit :=
  match rest with
  | f :: rest' =>
    modify (fun s => put_mutex (mkSpinMutex (locked (mutex s)) (cpu (mutex s)) (f (data (mutex s)))) s);;
    goto me (Crit (past ++ [f]) rest')
  | [] =>
    modify (fun s => mkMachine (mutex s) (cpus s) (past_sections s ++ [past]));;
    goto me RelLocked
  end.

Definition release_step (me : Z) (pc : Pc) : T unit :=
  match pc with
  | RelLocked => holding_locked me RelCpu (panic "unlocking unheld lock")
  | RelCpu => h ← holding_cpu me; assert_ h "unlocking unheld lock";; goto me ClearCpu
  | ClearCpu => write_cpu (-1);; goto me Unlock
  | Unlock => xswap 0;; goto me PopIntr
  | PopIntr => on_cpu me pop_intr_disable;; goto me Idle
  | _ => mret tt
  end.

Definition with_lock_step (me : Z) : T unit :=
  c ← cpu_at me;
  match snd c with
  | Crit past rest => thunk_step me past rest
  | Acquire _ | AcqLocked _ | AcqCpu _ | Spin _ | SetCpu _ => acquire_step me (snd c)
  | pc => release_step me pc
  end.

(** An idle processor calls [with_lock]. *)
Definition call (me : Z) (t : Thunk) : T unit :=
  c ← cpu_at me;
  match snd c with Idle => goto me (Acquire t) | _ => mret tt end.

Inductive step : Machine -> Machine -> Prop :=
| step_with_lock me s s' : with_lock_step me s = Ret (tt, s') -> step s s'
| step_call_lock me t s s' : call me t s = Ret (tt, s') -> step s s'.

(** ** The invariant *)
Definition depth (pc : Pc) : Z :=
  match pc with Idle | Acquire _ => 0 | AcqCpu _ | RelCpu => 2 | _ => 1 end.
Definition holds_lock (pc : Pc) : bool :=
  match pc with SetCpu _ | Crit _ _ | RelLocked | RelCpu | ClearCpu | Unlock => true | _ => false end.
(** Whether [cpu] names the holder. *)
Definition named (pc : Pc) : bool :=
  match pc with Crit _ _ | RelLocked | RelCpu | ClearCpu => true | _ => false end.
Definition progress_of (pc : Pc) : Thunk := match pc with Crit past _ => past | _ => [] end.
(** The data after a sequence of whole sections. *)
Definition run_sections (ts : list Thunk) (d : D) : D := foldl (fun x t => run_thunk t x) d ts.

(** A processor that started with [c0] and has disabled interrupts [n] times. *)
Definition intr_ok (c0 c : CPU) (n : Z) : Prop :=
  ncli c = ncli c0 + n /\ intr_en c = (if n =? 0 then intr_en c0 else false) /\
  (0 < n -> ncli c0 = 0 -> saved_intr_status c = intr_en c0).

(** [o] is the one processor that holds the lock, with its place in the code. *)
Definition owner_is (l : list (CPU * Pc)) (o : option (Z * Pc)) : Prop :=
  forall i pc, o = Some (i, pc) <-> holds_lock pc = true /\ exists c, l.[i] = Some (c, pc).

Definition mutex_ok (d0 : D) (m : SpinMutex) (ts : list Thunk) (o : option (Z * Pc)) : Prop :=
  locked m = (if o then 1 else 0) /\
  cpu m = match o with Some (i, pc) => if named pc then i else -1 | None => -1 end /\
  data m = run_thunk (match o with Some (_, pc) => progress_of pc | None => [] end) (run_sections ts d0).

(** The counter of a processor has room for the two levels of disabling: that
    of [acquire] and, inside it, that of [holding]. *)
Definition cpu_fit (c : CPU) : Prop := cpu_ok c /\ ncli c + 2 < 2 ^ 32.

Record spin_inv (l0 : list CPU) (d0 : D) (s : Machine) : Prop := {
  inv_cpus : forall i c pc, (cpus s).[i] = Some (c, pc) ->
    exists c0, l0.[i] = Some c0 /\ cpu_fit c0 /\ intr_ok c0 c (depth pc);
  inv_len : zlen (cpus s) = zlen l0;
  inv_owner : exists o, owner_is (cpus s) o /\ mutex_ok d0 (mutex s) (past_sections s) o }.

(** ** Interrupts *)
Lemma push_ok c0 c n :
  cpu_fit c0 -> intr_ok c0 c n -> 0 <= n <= 1 ->
  exists c', push_intr_disable c = Ret (tt, c') /\ intr_ok c0 c' (n + 1).
Proof.
  intros [[H0 H1] H2] (E1 & E2 & E3) Hn. eexists. rewrite push_intr_disable_run by lia.
  split; [done|]. split; [cbn; lia|]. rewrite (proj2 (Z.eqb_neq (n + 1) 0)) by lia. split; [done|].
  intros _ Hz. cbn. destruct (Z.eqb_spec (ncli c) 0); [|apply E3; lia].
  rewrite E2. rewrite (proj2 (Z.eqb_eq n 0)) by lia. done.
Qed.

Lemma pop_ok c0 c n :
  cpu_fit c0 -> intr_ok c0 c n -> 0 < n ->
  exists c', pop_intr_disable c = Ret (tt, c') /\ intr_ok c0 c' (n - 1).
Proof.
  intros [[H0 H1] H2] (E1 & E2 & E3) Hn. rewrite (proj2 (Z.eqb_neq n 0)) in E2 by lia.
  eexists. rewrite pop_intr_disable_run by (done || lia).
  split; [done|]. split; [cbn; lia|]. cbn [intr_en saved_intr_status]. split; [|intros; apply E3; lia].
  destruct (Z.eqb_spec (n - 1) 0), (Z.eqb_spec (ncli c) 1); cbn; [apply E3; lia| |lia|done].
  symmetry. apply H1. lia.
Qed.

(** ** The holder *)
Lemma owner_unique l o i c pc : owner_is l o -> l.[i] = Some (c, pc) -> holds_lock pc = true -> o = Some (i, pc).
Proof. intros H ??. apply H. eauto. Qed.

(** Moving one processor changes the holder only if it takes or drops the lock. *)
Lemma owner_set l o me c pc c' pc' :
  owner_is l o -> l.[me] = Some (c, pc) ->
  (holds_lock pc' = true -> o = None \/ holds_lock pc = true) ->
  owner_is l.[me <- (c', pc')]
    (if holds_lock pc' then Some (me, pc') else if holds_lock pc then None else o).
Proof.
  intros Ho Hme Ht i q. pose proof (znth_range _ _ _ Hme) as Hr.
  rewrite znth_zset by done. destruct (decide (me = i)) as [->|Hi].
  - destruct (holds_lock pc') eqn:E'; [split; [intros [= <-]; eauto|intros (? & ? & [= _ <-]); done]|].
    split; [|intros (? & ? & [= _ <-]); congruence].
    destruct (holds_lock pc) eqn:E; [done|]. intros Hq. apply Ho in Hq as (Hq & x & Hx). congruence.
  - destruct (holds_lock pc) eqn:E.
    + pose proof (owner_unique _ _ _ _ _ Ho Hme E) as ->.
      split; [destruct (holds_lock pc'); congruence|]. intros H%Ho. congruence.
    + destruct (holds_lock pc') eqn:E'; [|apply Ho].
      destruct (Ht eq_refl) as [->|?]; [|done]. split; [congruence|]. intros H%Ho. done.
Qed.

(** One processor of a machine that satisfies the invariant. *)
Lemma spin_move l0 d0 s me c0 c pc c' pc' m' ts' o :
  spin_inv l0 d0 s -> (cpus s).[me] = Some (c, pc) -> l0.[me] = Some c0 ->
  owner_is (cpus s) o -> cpu_fit c0 -> intr_ok c0 c' (depth pc') ->
  (holds_lock pc' = true -> o = None \/ holds_lock pc = true) ->
  mutex_ok d0 m' ts' (if holds_lock pc' then Some (me, pc') else if holds_lock pc then None else o) ->
  spin_inv l0 d0 (mkMachine m' (cpus s).[me <- (c', pc')] ts').
Proof.
  intros Hi Hme H0 Ho Hf Hc Ht Hm. split; cbn.
  - intros i ci pci. rewrite znth_zset by (by eapply znth_range). case_decide; [|apply (inv_cpus _ _ _ Hi)].
    subst. intros [= <- <-]. eauto.
  - rewrite zlen_zset. apply (inv_len _ _ _ Hi).
  - eexists. split; [by eapply owner_set|done].
Qed.

(** ** Runs of the steps' parts *)
Lemma cpu_at_run me s c : (cpus s).[me] = Some c -> cpu_at me s = Ret (c, s).
Proof. intros H. unfold cpu_at. run. unfold id. by rewrite H. Qed.

Lemma on_cpu_run me m s c pc c' :
  (cpus s).[me] = Some (c, pc) -> m c = Ret (tt, c') ->
  on_cpu me m s = Ret (tt, put_cpus (cpus s).[me <- (c', pc)] s).
Proof. intros H E. unfold on_cpu. rewrite (bind_run _ _ _ _ _ (cpu_at_run _ _ _ H)). run. cbn. by rewrite E. Qed.

Lemma goto_run me pc' s c pc :
  (cpus s).[me] = Some (c, pc) -> goto me pc' s = Ret (tt, put_cpus (cpus s).[me <- (c, pc')] s).
Proof. intros H. unfold goto. by rewrite (bind_run _ _ _ _ _ (cpu_at_run _ _ _ H)). Qed.

(** A change of the interrupt state, then of the place. *)
Lemma on_cpu_goto me m pc' s c pc c' :
  (cpus s).[me] = Some (c, pc) -> m c = Ret (tt, c') ->
  (on_cpu me m;; goto me pc') s = Ret (tt, put_cpus (cpus s).[me <- (c', pc')] s).
Proof.
  intros H E. rewrite (bind_run _ _ _ _ _ (on_cpu_run _ _ _ _ _ _ H E)).
  erewrite goto_run by (apply znth_zset_eq; by eapply znth_range).
  unfold put_cpus. cbn. by rewrite zset_zset.
Qed.

Lemma holding_locked_run me next free s c pc c' c'' :
  (cpus s).[me] = Some (c, pc) -> push_intr_disable c = Ret (tt, c') -> pop_intr_disable c' = Ret (tt, c'') ->
  holding_locked me next free s =
    if locked (mutex s) =? 0 then free (put_cpus (cpus s).[me <- (c'', pc)] s)
    else Ret (tt, put_cpus (cpus s).[me <- (c', next)] s).
Proof.
  intros H E1 E2. unfold holding_locked. rewrite (bind_run _ _ _ _ _ (on_cpu_run _ _ _ _ _ _ H E1)).
  assert (Hz : (cpus s).[me <- (c', pc)].[me] = Some (c', pc)) by (apply znth_zset_eq; by eapply znth_range).
  unfold read_locked. rewrite bind_gets. cbn. destruct (locked (mutex s) =? 0); cbn [negb].
  - erewrite bind_run by (by eapply on_cpu_run). unfold put_cpus. cbn. by rewrite zset_zset.
  - erewrite goto_run by done. unfold put_cpus. cbn. by rewrite zset_zset.
Qed.

Lemma holding_cpu_run me s c pc c' :
  (cpus s).[me] = Some (c, pc) -> pop_intr_disable c = Ret (tt, c') ->
  holding_cpu me s = Ret (cpu (mutex s) =? me, put_cpus (cpus s).[me <- (c', pc)] s).
Proof.
  intros H E. unfold holding_cpu, read_cpu. rewrite bind_gets.
  by rewrite (bind_run _ _ _ _ _ (on_cpu_run _ _ _ _ _ _ H E)).
Qed.

(** ** Every step keeps the invariant and returns *)
Section inv.
Context (l0 : list CPU) (d0 : D) (s : Machine) (me : Z).
Hypothesis Hinv : spin_inv l0 d0 s.

Definition step_ok (m : T unit) : Prop := exists s', m s = Ret (tt, s') /\ spin_inv l0 d0 s'.

Lemma acquire_ok c pc :
  (cpus s).[me] = Some (c, pc) ->
  match pc with Acquire _ | AcqLocked _ | AcqCpu _ | Spin _ | SetCpu _ => True | _ => False end ->
  step_ok (acquire_step me pc).
Proof.
  intros Hme Hpc. destruct (inv_cpus _ _ _ Hinv _ _ _ Hme) as (c0 & H0 & Hf & Hc).
  destruct (inv_owner _ _ _ Hinv) as (o & Ho & Hm). pose proof (znth_range _ _ _ Hme) as Hr.
  unfold step_ok. destruct pc; try done; cbn [acquire_step depth] in *.
  - destruct (push_ok _ _ _ Hf Hc ltac:(lia)) as (c' & E & Hc').
    erewrite on_cpu_goto by done. eexists. split; [done|]. eapply (spin_move _ _ s); done.
  - destruct (push_ok _ _ _ Hf Hc ltac:(lia)) as (c' & E & Hc').
    destruct (pop_ok _ _ _ Hf Hc' ltac:(lia)) as (c'' & E' & Hc'').
    erewrite holding_locked_run by done. destruct (locked (mutex s) =? 0).
    + erewrite goto_run by (by apply znth_zset_eq). eexists. split; [done|].
      unfold put_cpus. cbn. rewrite zset_zset. eapply (spin_move _ _ s); done.
    + eexists. split; [done|]. eapply (spin_move _ _ s); done.
  - destruct (pop_ok _ _ _ Hf Hc ltac:(lia)) as (c' & E & Hc').
    erewrite bind_run by (by eapply holding_cpu_run).
    rewrite bind_assert.
    + erewrite goto_run by (by apply znth_zset_eq). eexists. split; [done|].
      unfold put_cpus. cbn. rewrite zset_zset. eapply (spin_move _ _ s); done.
    + destruct Hm as (_ & -> & _). destruct o as [[i q]|].
      * destruct (proj1 (Ho i q) eq_refl) as (Hq & ci & Hi). destruct (named q); [|lia].
        apply negb_true_iff, Z.eqb_neq. intros ->. by simplify_eq.
      * lia.
  - destruct Hm as (El & Ec & Ed). unfold xswap, read_locked. run. rewrite El.
    destruct o as [[i q]|]; cbn [negb Z.eqb].
    + eexists. split; [done|]. destruct s as [[lk cp dt] cs ts]. cbn in *. by subst lk.
    + erewrite goto_run by done. eexists. split; [done|]. eapply (spin_move _ _ s); [done..|by left|by repeat split].
  - destruct Hm as (El & Ec & Ed). unfold write_cpu. rewrite bind_modify.
    pose proof (owner_unique _ _ _ _ _ Ho Hme eq_refl) as ->.
    erewrite goto_run by done. eexists. split; [done|]. eapply (spin_move _ _ s); [done..|by right|by repeat split].
Qed.

Lemma thunk_ok c past rest :
  (cpus s).[me] = Some (c, Crit past rest) -> step_ok (thunk_step me past rest).
Proof.
  intros Hme. destruct (inv_cpus _ _ _ Hinv _ _ _ Hme) as (c0 & H0 & Hf & Hc).
  destruct (inv_owner _ _ _ Hinv) as (o & Ho & (El & Ec & Ed)).
  pose proof (owner_unique _ _ _ _ _ Ho Hme eq_refl) as ->. unfold step_ok.
  destruct rest as [|f rest]; cbn [thunk_step]; rewrite bind_modify.
  - erewrite goto_run by done. eexists. split; [done|]. eapply (spin_move _ _ s); [done..|by right|].
    split; cbn; [done|]. split; [done|]. unfold run_sections. by rewrite foldl_app.
  - erewrite goto_run by done. eexists. split; [done|]. eapply (spin_move _ _ s); [done..|by right|].
    split; cbn; [done|]. split; [done|]. unfold run_thunk. rewrite foldl_app. cbn. by rewrite Ed.
Qed.

Lemma release_ok c pc :
  (cpus s).[me] = Some (c, pc) ->
  match pc with RelLocked | RelCpu | ClearCpu | Unlock | PopIntr | Idle => True | _ => False end ->
  step_ok (release_step me pc).
Proof.
  intros Hme Hpc. destruct (inv_cpus _ _ _ Hinv _ _ _ Hme) as (c0 & H0 & Hf & Hc).
  destruct (inv_owner _ _ _ Hinv) as (o & Ho & Hm). pose proof (znth_range _ _ _ Hme) as Hr.
  destruct Hm as (El & Ec & Ed). unfold step_ok.
  destruct pc; try done; cbn [release_step depth] in *;
    try (pose proof (owner_unique _ _ _ _ _ Ho Hme eq_refl) as ->).
  - by exists s.
  - destruct (push_ok _ _ _ Hf Hc ltac:(lia)) as (c' & E & Hc').
    destruct (pop_ok _ _ _ Hf Hc' ltac:(lia)) as (c'' & E' & Hc'').
    erewrite holding_locked_run by done. rewrite El. eexists. split; [done|].
    eapply (spin_move _ _ s); [done..|by right|by repeat split].
  - destruct (pop_ok _ _ _ Hf Hc ltac:(lia)) as (c' & E & Hc').
    erewrite bind_run by (by eapply holding_cpu_run). rewrite bind_assert by (rewrite Ec; apply Z.eqb_refl).
    erewrite goto_run by (by apply znth_zset_eq). eexists. split; [done|].
    unfold put_cpus. cbn. rewrite zset_zset. eapply (spin_move _ _ s); [done..|by right|by repeat split].
  - unfold write_cpu. rewrite bind_modify. erewrite goto_run by done. eexists. split; [done|].
    eapply (spin_move _ _ s); [done..|by right|by repeat split].
  - unfold xswap, read_locked. run. erewrite goto_run by done. eexists. split; [done|].
    eapply (spin_move _ _ s); done.
  - destruct (pop_ok _ _ _ Hf Hc ltac:(lia)) as (c' & E & Hc').
    erewrite on_cpu_goto by done. eexists. split; [done|]. eapply (spin_move _ _ s); done.
Qed.

Lemma with_lock_ok : 0 <= me < zlen l0 -> step_ok (with_lock_step me).
Proof.
  intros Hr. rewrite <-(inv_len _ _ _ Hinv) in Hr. destruct (znth_lt _ _ Hr) as [[c pc] Hme].
  unfold step_ok, with_lock_step. rewrite (bind_run _ _ _ _ _ (cpu_at_run _ _ _ Hme)). cbn [snd].
  destruct pc; first [by eapply acquire_ok | by eapply thunk_ok | by eapply release_ok].
Qed.

Lemma call_ok t c pc : (cpus s).[me] = Some (c, pc) -> step_ok (call me t).
Proof.
  intros Hme. destruct (inv_cpus _ _ _ Hinv _ _ _ Hme) as (c0 & H0 & Hf & Hc).
  destruct (inv_owner _ _ _ Hinv) as (o & Ho & Hm).
  unfold step_ok, call. rewrite (bind_run _ _ _ _ _ (cpu_at_run _ _ _ Hme)). cbn [snd].
  destruct pc; eauto. erewrite goto_run by done. eexists. split; [done|]. eapply (spin_move _ _ s); done.
Qed.
End inv.

Lemma step_keeps_inv l0 d0 s s' : spin_inv l0 d0 s -> step s s' -> spin_inv l0 d0 s'.
Proof.
  intros Hi Hst. destruct Hst as [me s s' E|me t s s' E].
  - destruct ((cpus s).[me]) as [c|] eqn:Hme.
    + destruct (with_lock_ok _ _ _ me Hi) as (s2 & E2 & H2); [|by rewrite E in E2; simplify_eq].
      rewrite <-(inv_len _ _ _ Hi). by eapply znth_range.
    + unfold with_lock_step, cpu_at in E. run. unfold id in E. by rewrite Hme in E.
  - destruct ((cpus s).[me]) as [[c pc]|] eqn:Hme.
    + destruct (call_ok _ _ _ me Hi t _ _ Hme) as (s2 & E2 & H2). by rewrite E in E2; simplify_eq.
    + unfold call, cpu_at in E. run. unfold id in E. by rewrite Hme in E.
Qed.

(** The processors before any of them has called [with_lock]. *)
Definition start (l0 : list CPU) (d0 : D) : Machine :=
  mkMachine (SpinMutex_new d0) ((fun c => (c, Idle)) <$> l0) [].

Lemma start_inv l0 d0 : Forall cpu_fit l0 -> spin_inv l0 d0 (start l0 d0).
Proof.
  intros Hf. split.
  - intros i c pc. cbn. rewrite znth_fmap. destruct (l0.[i]) as [c0|] eqn:E; cbn; [|done].
    intros [= <- <-]. exists c0. split; [done|]. split.
    + apply znth_Some in E as [_ E]. by eapply Forall_lookup_1.
    + split; [cbn; lia|]. split; [done|]. cbn. lia.
  - unfold zlen. cbn. by rewrite length_fmap.
  - exists None. split; [|done]. intros i pc. split; [done|]. intros (Hh & c & Hc). exfalso.
    cbn in Hc. rewrite znth_fmap in Hc. destruct (l0.[i]); cbn in Hc; simplify_eq.
Qed.

Lemma spin_reachable l0 d0 s : Forall cpu_fit l0 -> rtc step (start l0 d0) s -> spin_inv l0 d0 s.
Proof.
  intros Hf Hs. apply (start_inv _ d0) in Hf. revert Hf.
  induction Hs; eauto using step_keeps_inv.
Qed.

(** ** Properties *)

(** C17: sections of a lock are atomic.  Any number of processors
    call [with_lock] on one mutex, and their memory accesses interleave in
    any order.  Then no processor panics, neither by the assertions of
    [acquire], [release] and the interrupt counter nor by its overflow; at
    most one processor is past [acquire] and not yet out of [release]; while
    nobody is, the lock word is clear, the owner is reset, and the data is
    that left by the closures run one after another; a processor in its
    closure is the owner, has interrupts off, and sees the data so left and
    its own accesses, nothing else; and an idle processor has the interrupt flag and nesting it
    started with. *)
Theorem spinlock_sections_atomic l0 d0 s :
  Forall cpu_fit l0 -> rtc step (start l0 d0) s ->
  (forall i, 0 <= i < zlen l0 -> exists s', with_lock_step i s = Ret (tt, s')) /\
  (forall i j ci cj pi pj, (cpus s).[i] = Some (ci, pi) -> (cpus s).[j] = Some (cj, pj) ->
     holds_lock pi = true -> holds_lock pj = true -> i = j) /\
  ((forall i c pc, (cpus s).[i] = Some (c, pc) -> holds_lock pc = false) ->
     mutex s = mkSpinMutex 0 (-1) (run_sections (past_sections s) d0)) /\
  (forall i c past rest, (cpus s).[i] = Some (c, Crit past rest) ->
     intr_en c = false /\
     mutex s = mkSpinMutex 1 i (run_thunk past (run_sections (past_sections s) d0))) /\
  (forall i c c0, (cpus s).[i] = Some (c, Idle) -> l0.[i] = Some c0 ->
     intr_en c = intr_en c0 /\ ncli c = ncli c0).
Proof.
  intros Hf Hs. pose proof (spin_reachable _ _ _ Hf Hs) as Hi.
  destruct (inv_owner _ _ _ Hi) as (o & Ho & (El & Ec & Ed)).
  split; [intros i Hr; destruct (with_lock_ok _ _ _ i Hi Hr) as (s' & ? & _); eauto|].
  split; [intros i j ci cj pi pj H1 H2 E1 E2|split; [intros Hn|split; [intros i c past rest Hc|intros i c c0 Hc H0]]].
  - pose proof (owner_unique _ _ _ _ _ Ho H1 E1). pose proof (owner_unique _ _ _ _ _ Ho H2 E2). congruence.
  - destruct o as [[i pc]|]; [|destruct (mutex s); cbn in *; congruence].
    destruct (proj1 (Ho i pc) eq_refl) as (Hh & c & Hc). by rewrite (Hn _ _ _ Hc) in Hh.
  - destruct (inv_cpus _ _ _ Hi _ _ _ Hc) as (c0 & _ & _ & _ & E & _). split; [done|].
    pose proof (owner_unique _ _ _ _ _ Ho Hc eq_refl) as ->. destruct (mutex s); cbn in El, Ec, Ed |- *. by subst.
  - destruct (inv_cpus _ _ _ Hi _ _ _ Hc) as (c1 & E1 & _ & E2 & E3 & _). simplify_eq. cbn in *. split; [done|lia].
Qed.
End spinlock.

(** ** The same operations by one processor alone

    What a caller sees between whose accesses no other processor's fall: a lock
    that is taken makes [acquire] spin for ever. *)
Section alone.
Context {D : Type} (me : Z).
Notation T := (M (CPU * @SpinMutex D)).

Definition on_intr {A} (m : M CPU A) : T A := fun s =>
  match m (fst s) with Ret (a, c) => Ret (a, (c, snd s)) | Panic e => Panic e | Diverge => Diverge end.
Definition holding : T bool :=
  on_intr push_intr_disable;;
  r ← gets (fun s => negb (locked (snd s) =? 0) && (cpu (snd s) =? me));
  on_intr pop_intr_disable;;
  mret r.
Definition acquire : T unit :=
  on_intr push_intr_disable;;
  h ← holding;
  assert_ (negb h) "nested lock";;
  l ← gets (fun s => locked (snd s));
  if negb (l =? 0) then diverge
  else modify (fun s => (fst s, mkSpinMutex 1 me (data (snd s)))).
Definition release : T unit :=
  h ← holding;
  assert_ h "unlocking unheld lock";;
  modify (fun s => (fst s, mkSpinMutex 0 (-1) (data (snd s))));;
  on_intr pop_intr_disable.

Lemma spin_holding_run c m : cpu_fit c ->
  holding (c, m) = Ret (negb (locked m =? 0) && (cpu m =? me),
    (mkCPU (intr_en c) (ncli c) (if ncli c =? 0 then intr_en c else saved_intr_status c), m)).
Proof.
  intros [[H0 H1] H2]. unfold holding. set (c1 := mkCPU false (ncli c + 1) (if ncli c =? 0 then intr_en c else saved_intr_status c)).
  rewrite (bind_run _ _ _ tt (c1, m)) by (unfold on_intr; cbn [fst snd]; by rewrite push_intr_disable_run by lia).
  rewrite bind_gets. cbn [snd]. erewrite bind_run by (unfold on_intr; cbn [fst snd]; rewrite pop_intr_disable_run by (done || cbn; lia); done).
  unfold mret, M_ret. cbn. do 4 f_equal; [|lia].
  replace (ncli c + 1 =? 1) with (ncli c =? 0) by (destruct (Z.eqb_spec (ncli c) 0), (Z.eqb_spec (ncli c + 1) 1); lia).
  destruct (Z.eqb_spec (ncli c) 0); [done|]. symmetry. apply H1. lia.
Qed.

Lemma acquire_run c i d : cpu_ok c -> ncli c + 3 < 2 ^ 32 ->
  acquire (c, mkSpinMutex 0 i d) =
    Ret (tt, (mkCPU false (ncli c + 1) (if ncli c =? 0 then intr_en c else saved_intr_status c), mkSpinMutex 1 me d)).
Proof.
  intros [H0 H1] H2. unfold acquire. set (c1 := mkCPU false (ncli c + 1) (if ncli c =? 0 then intr_en c else saved_intr_status c)).
  rewrite (bind_run _ _ _ tt (c1, mkSpinMutex 0 i d)) by (unfold on_intr; cbn [fst snd]; by rewrite push_intr_disable_run by lia).
  rewrite (bind_run _ _ _ _ _ (spin_holding_run c1 _ ltac:(split; [split|]; cbn; [lia|done|lia]))). cbn [locked]. rewrite bind_assert by done.
  rewrite bind_gets. cbn. rewrite (proj2 (Z.eqb_neq (ncli c + 1) 0)) by lia. done.
Qed.

Lemma release_run c d : intr_en c = false -> 0 < ncli c -> ncli c + 2 < 2 ^ 32 ->
  release (c, mkSpinMutex 1 me d) =
    Ret (tt, (mkCPU ((ncli c =? 1) && saved_intr_status c) (ncli c - 1) (saved_intr_status c), mkSpinMutex 0 (-1) d)).
Proof.
  intros He Hn Hf. unfold release. rewrite (bind_run _ _ _ _ _ (spin_holding_run c _ ltac:(split; [split|]; [lia|done|lia]))).
  cbn [locked cpu]. rewrite bind_assert by (by rewrite Z.eqb_refl). rewrite bind_modify. unfold on_intr. cbn [fst snd data].
  rewrite (proj2 (Z.eqb_neq (ncli c) 0)) by lia. by rewrite pop_intr_disable_run.
Qed.
End alone.

(** A schedule: the calls and the steps of the processors, in their order. *)
Fixpoint schedule {D} (acts : list (Z * option Thunk)) (s : @Machine D) : outcome Machine :=
  match acts with
  | [] => Ret s
  | (me, a) :: acts' =>
    match (match a with Some t => call me t | None => with_lock_step me end) s with
    | Ret (_, s') => schedule acts' s'
    | Panic e => Panic e
    | Diverge => Diverge
    end
  end.

Lemma schedule_steps {D} acts (s s' : @Machine D) : schedule acts s = Ret s' -> rtc step s s'.
Proof.
  revert s. induction acts as [|[me a] acts IH]; intros s; cbn; [intros [= <-]; apply rtc_refl|].
  destruct a as [t|]; [destruct (call me t s) as [[[] s1]| |] eqn:E|destruct (with_lock_step me s) as [[[] s1]| |] eqn:E];
    try done; intros H%IH; (eapply rtc_l; [|exact H]); [by eapply step_call_lock|by eapply step_with_lock].
Qed.

(** Two processors add two to a counter in two accesses: the first is halfway
    when the second spins on the lock. *)
Definition spin_cpus : list CPU := [mkCPU true 0 false; mkCPU false 3 true].
Definition spin_demo : outcome Machine :=
  schedule ([(0, Some [Z.succ; Z.succ]); (1, Some [Z.succ; Z.succ])] ++
            ((fun me => (me, None)) <$> [0; 0; 0; 1; 1; 1; 0; 1; 0; 1])) (start spin_cpus 5).

Lemma spinlock_sections_atomic_witness :
  Forall cpu_fit spin_cpus /\ exists s c c', spin_demo = Ret s /\
    cpus s = [(c, Crit [Z.succ] [Z.succ]); (c', Spin [Z.succ; Z.succ])] /\
    intr_en c = false /\ mutex s = mkSpinMutex 1 0 6.
Proof.
  assert (Hf : Forall cpu_fit spin_cpus) by (repeat constructor; cbn; lia). split; [exact Hf|].
  assert (E : exists s, spin_demo = Ret s) by (eexists; vm_compute; reflexivity).
  destruct E as [s E]. pose proof (schedule_steps _ _ _ E) as Hs.
  pose proof (spinlock_sections_atomic spin_cpus 5 s Hf Hs) as (_ & _ & _ & H & _).
  clear Hs. exists s. vm_compute in E. injection E as <-.
  eexists _, _. split; [vm_compute; reflexivity|]. split; [reflexivity|].
  apply (H 0 _ [Z.succ] [Z.succ]). reflexivity.
Defined.
