(* ===== verification/Segment.v ===== *)
(** The [segment] module of [x86_64.rs]: GDT and TSS descriptors, interrupt
    gates, the STAR word and the interrupt stacks, with the descriptors
    decoded the way the processor reads them. *)
From stdpp Require Import base list gmap strings.
From Stdlib Require Import ZArith Lia.
From S2P Require Import Prelude.
From S2P Require Import Arch.

(** ** Small interrupt stacks.  [(self as *mut SmallStack).add(SMALL_STACK_SIZE)]
    advances by that many [SmallStack]s, not bytes. *)
Definition SMALL_STACK_SIZE : Z := 512.
Definition SmallStack_size : Z := 512.
Definition top_as_u64 (self : Z) : Z := wrap 64 (self + SMALL_STACK_SIZE * SmallStack_size).

(** ** Segment descriptors *)
Definition SYSTEM : Z := Z.shiftl 0 (12 + 32).
Definition CODEDATA : Z := Z.shiftl 1 (12 + 32).
Definition PRESENT : Z := Z.shiftl 1 (15 + 32).
Definition LONG : Z := Z.shiftl 1 (21 + 32).
Definition TYPE_CODE : Z := Z.shiftl 8 (8 + 32).
Definition TYPE_DATA : Z := Z.shiftl 0 (8 + 32).
Definition TYPE_WRITE : Z := Z.shiftl 2 (8 + 32).
Definition TYPE_READ : Z := Z.shiftl 2 (8 + 32).
Definition TYPE_TASK_AVAIL : Z := Z.shiftl 9 (8 + 32).
Definition TYPE_INTR_GATE : Z := Z.shiftl 14 (8 + 32).
Definition DPL_KERN : Z := Z.shiftl 0 (13 + 32).
Definition DPL_USER : Z := Z.shiftl 3 (13 + 32).

Definition lors (l : list Z) : Z := foldl Z.lor 0 l.

Definition null_desc : Z := 0.
Definition ktext64 : Z := lors [TYPE_READ; TYPE_CODE; CODEDATA; PRESENT; LONG; DPL_KERN].
Definition kdata64 : Z := lors [TYPE_WRITE; TYPE_DATA; CODEDATA; PRESENT; DPL_KERN].
Definition utext64 : Z := lors [TYPE_READ; TYPE_CODE; CODEDATA; PRESENT; LONG; DPL_USER].
Definition udata64 : Z := lors [TYPE_WRITE; TYPE_DATA; CODEDATA; PRESENT; DPL_USER].

(** [size_of::<TaskState>()], a packed structure. *)
Definition TaskState_size : Z := 4 + 3 * 8 + 2 * 4 + 7 * 8 + 2 * 4 + 2 * 2.

Definition task64 (base : Z) : Z * Z :=
  let base0_upper :=
    Z.shiftl (Z.lor (Z.land base 0xFF000000) (Z.shiftr (Z.land base 0x00FF0000) 16)) 32 in
  let base0_lower := Z.shiftl (Z.land base 0xFFFF) 16 in
  let base0 := Z.lor base0_upper base0_lower in
  let limit := TaskState_size - 1 in
  let lower := lors [limit; base0; SYSTEM; PRESENT; TYPE_TASK_AVAIL; DPL_KERN] in
  let upper := Z.shiftr base 32 in
  (lower, upper).

(** The fields of [TaskState] that are not reserved. *)
Record TaskState := mkTaskState {
  rsp0 : Z; ist1 : Z; ist2 : Z; ist3 : Z; io_map_base : Z }.

Definition TaskState_new (nmi_stack db_stack dbl_flt_stack : Z) : TaskState :=
  mkTaskState 0 (top_as_u64 nmi_stack) (top_as_u64 db_stack) (top_as_u64 dbl_flt_stack)
    TaskState_size.

Definition set_rsp0 (ts : TaskState) (sp : Z) : TaskState :=
  mkTaskState sp (ist1 ts) (ist2 ts) (ist3 ts) (io_map_base ts).

(** The task state [CPU::init] builds in the per-CPU page at address [page]. *)
Definition CPU_init_ts (page : Z) : TaskState :=
  TaskState_new (wrap 64 (page + 1024)) (wrap 64 (page + (1024 + 512))) (wrap 64 (page + 2048)).

(** The GDT as the words of the structure, null, ktext, kdata, udata, utext,
    unused, and the two words of the task descriptor. *)
Definition GDT_new (task : Z) : list Z :=
  [null_desc; ktext64; kdata64; udata64; utext64; null_desc; (task64 task).1; (task64 task).2].

Inductive IntrStack := RSP0 | NMI | DB | DFault.
Definition IntrStack_val (s : IntrStack) : Z :=
  match s with RSP0 => 0 | NMI => 1 | DB => 2 | DFault => 3 end.

Definition KTEXT_SEL : Z := Z.shiftl 1 3.
Definition UDATA_SEL : Z := Z.shiftl 3 3.
Definition UTEXT_SEL : Z := Z.shiftl 4 3.
Definition TASK_SEL : Z := Z.shiftl 6 3.

Definition intr64 (offset : Z) (stack : IntrStack) : Z * Z :=
  let lower0_offset := Z.land offset 0x0000FFFF in
  let lower0 := Z.lor (Z.shiftl KTEXT_SEL 16) lower0_offset in
  let lower1_offset := Z.shiftl (Z.land offset 0xFFFF0000) 32 in
  let lower1 := Z.lor (Z.shiftl (IntrStack_val stack) 32) lower1_offset in
  let lower := lors [lower1; lower0; PRESENT; TYPE_INTR_GATE; DPL_KERN] in
  let upper := Z.shiftr offset 32 in
  (lower, upper).

Definition make_gate (thunk vecnum : Z) : Z * Z :=
  if vecnum =? 1 then intr64 thunk DB
  else if vecnum =? 2 then intr64 thunk NMI
  else if vecnum =? 8 then intr64 thunk DFault
  else intr64 thunk RSP0.

Definition star : Z :=
  let RPL_USER := 3 in
  Z.lor (Z.shiftl (Z.lor (UTEXT_SEL - 16) RPL_USER) 48) (Z.shiftl KTEXT_SEL 32).

(** ** Descriptor decoding, as the processor reads the 16-byte descriptors *)
Definition bits (x lo n : Z) : Z := Z.land (Z.shiftr x lo) (Z.ones n).

Definition task_desc_base (d : Z * Z) : Z :=
  lors [bits d.1 16 16; Z.shiftl (bits d.1 32 8) 16; Z.shiftl (bits d.1 56 8) 24;
        Z.shiftl (bits d.2 0 32) 32].
Definition task_desc_limit (d : Z * Z) : Z := Z.lor (bits d.1 0 16) (Z.shiftl (bits d.1 48 4) 16).
Definition gate_offset (d : Z * Z) : Z :=
  lors [bits d.1 0 16; Z.shiftl (bits d.1 48 16) 16; Z.shiftl (bits d.2 0 32) 32].
Definition gate_selector (d : Z * Z) : Z := bits d.1 16 16.
Definition gate_ist (d : Z * Z) : Z := bits d.1 32 3.
Definition desc_type (d : Z * Z) : Z := bits d.1 40 4.
Definition desc_dpl (d : Z * Z) : Z := bits d.1 45 2.
Definition desc_present (d : Z * Z) : Z := bits d.1 47 1.

Lemma enum64 (P : Z -> Prop) :
  Forall P (Z.of_nat <$> seq 0 64) -> forall i, 0 <= i < 64 -> P i.
Proof.
  intros H i Hi. rewrite Forall_forall in H. apply H.
  apply list_elem_of_fmap. exists (Z.to_nat i). rewrite elem_of_seq. lia.
Qed.

Lemma bits_eq64 a b :
  uN 64 a -> uN 64 b ->
  Forall (fun i => Z.testbit a i = Z.testbit b i) (Z.of_nat <$> seq 0 64) -> a = b.
Proof.
  intros Ha Hb H. apply Z.bits_inj'. intros i Hi.
  destruct (decide (i < 64)).
  - revert i Hi l. intros i Hi l. by apply (enum64 (fun i => Z.testbit a i = Z.testbit b i)).
  - by rewrite !(uN_testbit_high 64) by (done || lia).
Qed.

(** Compute [Z.testbit] of a word built from shifted and masked fields, at a
    literal position. *)
Ltac testbit_step :=
  first [rewrite Z.lor_spec | rewrite Z.land_spec | rewrite Z.shiftl_spec by lia
        | rewrite Z.shiftr_spec by lia ].

Ltac testbit_reduce :=
  repeat testbit_step;
  repeat match goal with
  | |- context [Z.testbit ?b (?x + ?y)] =>
      let v := eval vm_compute in (x + y) in change (x + y) with v
  | |- context [Z.testbit ?b (?x - ?y)] =>
      let v := eval vm_compute in (x - y) in change (x - y) with v
  end.

Ltac testbit_close :=
  cbn; rewrite ?andb_true_r, ?andb_false_r, ?orb_false_r; reflexivity.

Ltac testbit_field := testbit_reduce; testbit_close.

Lemma uN_bits_shift w x lo n s : 0 <= lo -> 0 <= n -> 0 <= s -> n + s <= w -> uN w (Z.shiftl (bits x lo n) s).
Proof.
  intros. unfold bits. rewrite Z.land_ones, Z.shiftl_mul_pow2 by lia.
  pose proof (Z.mod_pos_bound (Z.shiftr x lo) (2 ^ n) ltac:(apply Z.pow_pos_nonneg; lia)).
  pose proof (Z.pow_pos_nonneg 2 s ltac:(lia) ltac:(lia)).
  split; [nia|].
  assert (2 ^ n * 2 ^ s <= 2 ^ w) by (rewrite <-Z.pow_add_r by lia; apply Z.pow_le_mono_r; lia).
  nia.
Qed.

Lemma uN_bits w x lo n : 0 <= lo -> 0 <= n <= w -> uN w (bits x lo n).
Proof.
  intros. rewrite <-(Z.shiftl_0_r (bits x lo n)). apply uN_bits_shift; lia.
Qed.

Lemma task_desc_base_u64 d : uN 64 (task_desc_base d).
Proof.
  unfold task_desc_base, lors. cbn [foldl].
  repeat apply uN_lor; try lia; try (apply uN_bits_shift; lia); try (apply uN_bits; lia).
  all: unfold uN; lia.
Qed.

Lemma gate_offset_u64 d : uN 64 (gate_offset d).
Proof.
  unfold gate_offset, lors. cbn [foldl].
  repeat apply uN_lor; try lia; try (apply uN_bits_shift; lia); try (apply uN_bits; lia).
  all: unfold uN; lia.
Qed.

Lemma task64_base base : uN 64 base -> task_desc_base (task64 base) = base.
Proof.
  intros H. apply bits_eq64; [apply task_desc_base_u64|done|].
  unfold task_desc_base, task64, lors, bits. cbn [foldl fst snd].
  cbn [seq fmap list_fmap].
  repeat (constructor; [testbit_field|]). constructor.
Qed.

Lemma intr64_offset offset stack : uN 64 offset -> gate_offset (intr64 offset stack) = offset.
Proof.
  intros H. apply bits_eq64; [apply gate_offset_u64|done|].
  unfold gate_offset, intr64, lors, bits. cbn [foldl fst snd].
  cbn [seq fmap list_fmap].
  assert (Hst : forall k, k < 0 \/ 2 <= k -> Z.testbit (IntrStack_val stack) k = false).
  { intros k [Hk|Hk]; [by apply Z.testbit_neg_r|].
    apply (uN_testbit_high 2); [lia| |lia]. destruct stack; unfold uN; cbn; lia. }
  repeat (constructor; [testbit_reduce; repeat rewrite Hst by lia; testbit_close|]). constructor.
Qed.

(** Fields of up to 16 bits that do not depend on the encoded address. *)
Lemma bits_const x lo n v :
  0 <= lo -> 0 <= n -> uN n v ->
  (forall i, 0 <= i < n -> Z.testbit x (i + lo) = Z.testbit v i) -> bits x lo n = v.
Proof.
  intros Hlo Hn Hv H. apply Z.bits_inj'. intros i Hi. unfold bits.
  rewrite Z.land_spec, Z.shiftr_spec by lia.
  destruct (decide (i < n)).
  - rewrite Z.ones_spec_low, H by lia. apply andb_true_r.
  - rewrite Z.ones_spec_high by lia. rewrite andb_false_r. symmetry. by apply (uN_testbit_high n); [lia| |lia].
Qed.

Ltac enum_bits :=
  apply bits_const; [lia|lia|unfold uN; cbn; lia|];
  let i := fresh "i" in let Hi := fresh in intros i Hi;
  repeat match goal with
  | H : ?a <= i < ?b |- _ =>
      let a' := eval vm_compute in (a + 1) in
      destruct (decide (i = a)) as [->|];
      [clear H; testbit_field | assert (a' <= i < b) by lia; clear H];
      try (exfalso; lia)
  end.

Lemma intr64_selector offset stack : gate_selector (intr64 offset stack) = KTEXT_SEL.
Proof.
  unfold gate_selector, intr64, lors. cbn [fst snd foldl].
  change KTEXT_SEL with 8. destruct stack; cbn [IntrStack_val]; enum_bits.
Qed.

Lemma intr64_ist offset stack : gate_ist (intr64 offset stack) = IntrStack_val stack.
Proof.
  unfold gate_ist, intr64, lors. cbn [fst snd foldl].
  destruct stack; cbn [IntrStack_val]; enum_bits.
Qed.

Lemma intr64_type offset stack :
  desc_type (intr64 offset stack) = 14 /\ desc_present (intr64 offset stack) = 1 /\
  desc_dpl (intr64 offset stack) = 0.
Proof.
  unfold desc_type, desc_present, desc_dpl, intr64, lors. cbn [fst snd foldl].
  destruct stack; cbn [IntrStack_val]; (split; [|split]); enum_bits.
Qed.

(** ** Properties *)

(** interrupt gates.  The gate [make_gate] builds for a handler decodes,
    field by field as the processor reads it, to the handler's address, the
    kernel text selector, a present ring-0 interrupt gate, and the interrupt
    stack the vector is assigned (1: debug, 2: NMI, 8: double fault). *)
Theorem make_gate_decodes thunk vecnum :
  uN 64 thunk ->
  let d := make_gate thunk vecnum in
  gate_offset d = thunk /\ gate_selector d = KTEXT_SEL /\ desc_type d = 14 /\
  desc_present d = 1 /\ desc_dpl d = 0 /\
  gate_ist d = (if vecnum =? 1 then 2 else if vecnum =? 2 then 1 else if vecnum =? 8 then 3 else 0).
Proof.
  intros H. cbv zeta. unfold make_gate.
  repeat (case_match;
    [rewrite intr64_offset, intr64_selector, intr64_ist by done;
     destruct (intr64_type thunk DB) as (?&?&?), (intr64_type thunk NMI) as (?&?&?),
       (intr64_type thunk DFault) as (?&?&?); done|]).
  rewrite intr64_offset, intr64_selector, intr64_ist by done.
  destruct (intr64_type thunk RSP0) as (?&?&?); done.
Qed.

Lemma make_gate_decodes_witness :
  uN 64 0xFFFF800000101234 /\ gate_offset (make_gate 0xFFFF800000101234 8) = 0xFFFF800000101234.
Proof.
  assert (uN 64 0xFFFF800000101234) as H by (unfold uN; lia).
  split; [exact H|]. apply (make_gate_decodes 0xFFFF800000101234 8 H).
Defined.

(** the system-call selectors.  SYSRETQ loads CS with the user text
    selector and SS with the user data selector, both with RPL 3, from the
    STAR word the kernel programs; SYSCALL loads CS with the kernel text
    selector; and the GDT entries the selectors index are the descriptors of
    that name, the task selector giving back the task-state address. *)
Theorem star_and_gdt_agree task :
  uN 64 task ->
  let g := GDT_new task in
  bits star 48 16 + 16 = Z.lor UTEXT_SEL 3 /\ bits star 48 16 + 8 = Z.lor UDATA_SEL 3 /\
  bits star 32 16 = KTEXT_SEL /\
  g.[KTEXT_SEL / 8] = Some ktext64 /\ g.[UTEXT_SEL / 8] = Some utext64 /\
  g.[UDATA_SEL / 8] = Some udata64 /\
  exists lo hi, g.[TASK_SEL / 8] = Some lo /\ g.[TASK_SEL / 8 + 1] = Some hi /\
    task_desc_base (lo, hi) = task.
Proof.
  intros H. cbv zeta. do 6 (split; [reflexivity|]).
  exists (task64 task).1, (task64 task).2. split; [reflexivity|]. split; [reflexivity|].
  rewrite <-surjective_pairing. by apply task64_base.
Qed.

Lemma star_and_gdt_agree_witness :
  uN 64 0xFFFF800000200000 /\
  exists lo hi, (GDT_new 0xFFFF800000200000).[TASK_SEL / 8] = Some lo /\
    (GDT_new 0xFFFF800000200000).[TASK_SEL / 8 + 1] = Some hi /\
    task_desc_base (lo, hi) = 0xFFFF800000200000.
Proof.
  assert (uN 64 0xFFFF800000200000) as H by (unfold uN; lia).
  split; [exact H|]. apply (star_and_gdt_agree _ H).
Defined.

(** The interrupt stacks overshoot: the three interrupt stack tops [CPU::init]
    puts in the task state lie far beyond the per-CPU page that holds the
    stacks (256 KiB past their bases, where the end of a 512-byte stack is 512
    bytes past its base). *)
Lemma interrupt_stack_tops_outside_page page :
  0 <= page -> page + PAGE_SIZE + 2 ^ 18 < 2 ^ 64 ->
  let ts := CPU_init_ts page in
  page + PAGE_SIZE < ist1 ts /\ page + PAGE_SIZE < ist2 ts /\ page + PAGE_SIZE < ist3 ts /\
  ist1 ts - (page + 1024) = 512 * SmallStack_size.
Proof.
  intros H1 H2. unfold CPU_init_ts, TaskState_new, top_as_u64, wrap. cbn [ist1 ist2 ist3].
  unfold PAGE_SIZE, SMALL_STACK_SIZE, SmallStack_size in *.
  rewrite !(Z.mod_small (page + _)) by lia. rewrite !Z.mod_small by lia. lia.
Qed.
