(* ===== verification/Kalloc.v ===== *)
(** The physical page allocator, [kalloc.rs]: an intrusive LIFO list of free
    pages threaded through the pages themselves, its abstract specification
    as a stack of page addresses, and the refinement between the two. *)
From stdpp Require Import base list gmap strings.
From Stdlib Require Import ZArith Lia.
From S2P Require Import Prelude.
From S2P Require Import Arch.

(** ** State: [FREE_LIST.next] and the contents of the pages by address *)
Record FreeList := mkFreeList { next : option Z; pages : gmap Z (list Z) }.

(** [Page::clear] and [Page::scribble] fill the page. *)
Definition page_clear : list Z := zrep PAGE_SIZE 0.
Definition page_scribble : list Z := zrep PAGE_SIZE 0xAA.

(** [Option<NonNull<FreeList>>]: a null pointer is [None]. *)
Definition ptr_word (p : option Z) : Z := default 0 p.
Definition word_ptr (w : Z) : option Z := if w =? 0 then None else Some w.

(** The first word of a page holds [FreeList.next] while the page is free. *)
Definition write_next (pg : list Z) (p : option Z) : list Z :=
  zsplice pg 0 (le_bytes 8 (ptr_word p)).
Definition read_next (pg : list Z) : option Z := word_ptr (from_le (zslice pg 0 8)).

(** ** Operations *)
Definition put (page : Z) : M FreeList unit :=
  assert_ (page mod PAGE_SIZE =? 0) "freeing unaligned page";;
  modify (fun fl => mkFreeList (next fl) (<[page := page_scribble]> (pages fl)));;
  modify (fun fl => mkFreeList (next fl)
    (<[page := write_next page_scribble (next fl)]> (pages fl)));;
  modify (fun fl => mkFreeList (word_ptr page) (pages fl)).

Definition get : M FreeList (option Z) := fun fl =>
  match next fl with
  | None => Ret (None, fl)
  | Some a =>
    match pages fl !! a with
    | None => Panic "dangling free list"
    | Some pg =>
      Ret (Some a, mkFreeList (read_next pg) (<[a := page_clear]> (pages fl)))
    end
  end.

Fixpoint free_pages (ps : list Z) : M FreeList unit :=
  match ps with
  | [] => mret tt
  | p :: ps' => put p;; free_pages ps'
  end.

Definition free (page : Z) : M FreeList unit := put page.
Definition alloc : M FreeList (option Z) := get.

(** ** Representation: the chain of free pages from a head pointer *)
Inductive chain (mem : gmap Z (list Z)) : option Z -> list Z -> Prop :=
| chain_nil : chain mem None []
| chain_cons a pg l :
    mem !! a = Some pg -> 0 < a < 2 ^ 64 -> a mod PAGE_SIZE = 0 -> zlen pg = PAGE_SIZE ->
    chain mem (read_next pg) l -> chain mem (Some a) (a :: l).

Definition fl_rep (fl : FreeList) (l : list Z) : Prop := chain (pages fl) (next fl) l /\ NoDup l.

#[local] Lemma zlen_scribble : zlen page_scribble = PAGE_SIZE.
Proof. by apply zlen_rep. Qed.

#[local] Lemma read_write_next p :
  match p with Some a => 0 < a < 2 ^ 64 | None => True end ->
  read_next (write_next page_scribble p) = p.
Proof.
  intros H. unfold read_next, write_next.
  pose proof zlen_scribble as Hl. pose proof (zlen_le_bytes 8 (ptr_word p)) as H8.
  change (Z.of_nat 8) with 8 in H8.
  rewrite <-H8 at 1. rewrite <-(Z.add_0_l (zlen _)), zslice_zsplice;
    [|lia|rewrite H8, Hl; unfold PAGE_SIZE; lia].
  rewrite from_le_le_bytes by (destruct p; cbn; lia).
  destruct p as [a|]; cbn; [|done]. unfold word_ptr. by rewrite (proj2 (Z.eqb_neq a 0)) by lia.
Qed.

Lemma chain_insert mem h l a pg : a ∉ l -> chain mem h l -> chain (<[a := pg]> mem) h l.
Proof.
  intros Hn Hc. induction Hc as [|b pg' l Hb Hr Ha Hlen Hc IH]; [constructor|].
  apply not_elem_of_cons in Hn as [Hne Hn].
  eapply chain_cons; eauto. by rewrite lookup_insert_ne.
Qed.

Lemma chain_head mem h l : chain mem h l -> match h with Some a => 0 < a < 2 ^ 64 | None => True end.
Proof. by destruct 1. Qed.

(** [put] pushes: on an aligned page that is not free, it returns and the page
    is the new head. *)
Lemma put_refines fl l a :
  fl_rep fl l -> a ∉ l -> 0 < a < 2 ^ 64 -> a mod PAGE_SIZE = 0 ->
  exists fl', put a fl = Ret (tt, fl') /\ fl_rep fl' (a :: l) /\
    forall b, b <> a -> pages fl' !! b = pages fl !! b.
Proof.
  intros [Hc Hd] Hn Ha Hal. unfold put. run. rewrite Hal. cbn.
  eexists. split; [done|]. split; [split; [|by constructor]|].
  - cbn. unfold word_ptr. rewrite (proj2 (Z.eqb_neq a 0)) by lia.
    eapply chain_cons; [by rewrite lookup_insert_eq|done|done| |].
    + unfold write_next. rewrite zlen_zsplice; rewrite ?zlen_le_bytes, ?zlen_scribble; unfold PAGE_SIZE; lia.
    + rewrite read_write_next by (by eapply chain_head).
      by apply chain_insert, chain_insert.
  - intros b Hb. cbn. by rewrite !lookup_insert_ne.
Qed.

(** [get] pops: the head page, zero filled, or [None] when nothing is free. *)
Lemma get_refines fl l :
  fl_rep fl l ->
  match l with
  | [] => get fl = Ret (None, fl)
  | a :: l' => exists fl', get fl = Ret (Some a, fl') /\ fl_rep fl' l' /\
      pages fl' !! a = Some page_clear /\ forall b, b <> a -> pages fl' !! b = pages fl !! b
  end.
Proof.
  intros [Hc Hd]. unfold get. inversion Hc as [|a pg l' Hpg Hr Hal Hlen Hc']; subst; [done|].
  rewrite Hpg. eexists. split; [done|]. apply NoDup_cons in Hd as [Hn Hd].
  split; [split; [by apply chain_insert|done]|]. split; [apply lookup_insert_eq|].
  intros b Hb. cbn. by rewrite lookup_insert_ne.
Qed.

Lemma free_pages_refines ps fl l :
  fl_rep fl l -> NoDup ps -> (forall p, p ∈ ps -> p ∉ l /\ 0 < p < 2 ^ 64 /\ p mod PAGE_SIZE = 0) ->
  exists fl', free_pages ps fl = Ret (tt, fl') /\ fl_rep fl' (reverse ps ++ l).
Proof.
  revert fl l. induction ps as [|p ps IH]; intros fl l Hr Hnd Hps; cbn [free_pages].
  - by exists fl.
  - apply NoDup_cons in Hnd as [Hn Hnd].
    destruct (Hps p) as (H1 & H2 & H3); [set_solver|].
    destruct (put_refines fl l p) as (fl1 & E & Hr1 & _); [done..|].
    destruct (IH fl1 (p :: l)) as (fl2 & E2 & Hr2); [done|done| |].
    { intros q Hq. destruct (Hps q) as (H1' & H2'); [set_solver|]. split; [|done].
      apply not_elem_of_cons. split; [|done]. intros ->. done. }
    exists fl2. run. rewrite E, E2. split; [done|].
    rewrite reverse_cons, <-app_assoc. done.
Qed.

(** ** Clients: interleavings of allocations and frees

    Clients own the pages they were handed; a client frees only what it owns
    (the [&mut Page] is consumed). *)
Inductive step : FreeList * gset Z -> FreeList * gset Z -> Prop :=
| step_alloc fl fl' own a :
    alloc fl = Ret (Some a, fl') -> step (fl, own) (fl', {[a]} ∪ own)
| step_alloc_none fl fl' own :
    alloc fl = Ret (None, fl') -> step (fl, own) (fl', own)
| step_free fl fl' own a :
    a ∈ own -> free a fl = Ret (tt, fl') -> step (fl, own) (fl', own ∖ {[a]})
| step_write fl own a pg :
    a ∈ own -> zlen pg = PAGE_SIZE ->
    step (fl, own) (mkFreeList (next fl) (<[a := pg]> (pages fl)), own).

Definition page_ok (a : Z) : Prop := 0 < a < 2 ^ 64 /\ a mod PAGE_SIZE = 0.

Definition kalloc_inv (st : FreeList * gset Z) : Prop :=
  exists l, fl_rep st.1 l /\ (forall a, a ∈ l -> a ∉ st.2) /\ (forall a, a ∈ st.2 -> page_ok a).

Lemma chain_ok mem h l : chain mem h l -> forall a, a ∈ l -> page_ok a.
Proof. induction 1; [set_solver|]. intros b [->|Hb]%elem_of_cons; [done|auto]. Qed.

Lemma step_inv st st' : kalloc_inv st -> step st st' -> kalloc_inv st'.
Proof.
  intros (l & Hr & Hdis & Hok) Hs. inversion Hs; subst; cbn in *.
  - pose proof (get_refines _ _ Hr) as Hg. unfold alloc in *.
    destruct l as [|b l]; [congruence|]. destruct Hg as (fl1 & E & Hr1 & _).
    rewrite E in H. simplify_eq. exists l. cbn. split; [done|].
    destruct Hr as [Hc Hd]. apply NoDup_cons in Hd as [Hn Hd].
    split; [intros c Hc'; specialize (Hdis c); set_solver|].
    intros c [->%elem_of_singleton|Hc']%elem_of_union; [|auto].
    eapply chain_ok; [done|set_solver].
  - pose proof (get_refines _ _ Hr) as Hg. unfold alloc in *.
    destruct l as [|b l]; [|destruct Hg as (? & ? & _); congruence].
    rewrite Hg in H. simplify_eq. by exists [].
  - destruct (Hok a) as [Ha1 Ha2]; [done|].
    destruct (put_refines fl l a) as (fl1 & E & Hr1 & _); [done|set_solver|done..|].
    unfold free in *. rewrite E in H0. simplify_eq. exists (a :: l). cbn. split; [done|].
    split; [|set_solver]. intros c [->|Hc]%elem_of_cons; [set_solver|].
    specialize (Hdis c). set_solver.
  - exists l. cbn. split; [|done]. destruct Hr as [Hc Hd]. split; [|done]. cbn.
    apply chain_insert; [|done]. specialize (Hdis a). set_solver.
Qed.

(** ** Properties *)

(** C37: allocation safety.  In every state reachable by any interleaving of
    allocations, frees of owned pages and writes to owned pages, a page that
    [alloc] hands out is aligned, zero filled and owned by nobody, and no
    owned page's contents change. *)
Theorem alloc_never_hands_out_owned_page st st' a fl' :
  kalloc_inv st -> rtc step st st' -> alloc st'.1 = Ret (Some a, fl') ->
  a ∉ st'.2 /\ a mod PAGE_SIZE = 0 /\ pages fl' !! a = Some page_clear /\
  (forall b, b ∈ st'.2 -> pages fl' !! b = pages st'.1 !! b).
Proof.
  intros Hi Hs. induction Hs as [st|st1 st2 st3 H12 H23 IH].
  - intros E. destruct Hi as (l & Hr & Hdis & Hok).
    pose proof (get_refines _ _ Hr) as Hg. unfold alloc in *.
    destruct l as [|b l]; [congruence|]. destruct Hg as (fl1 & E1 & Hr1 & Hz & Hsame).
    rewrite E1 in E. simplify_eq. split; [apply Hdis; set_solver|].
    destruct Hr as [Hc _]. split; [by eapply chain_ok; [done|set_solver]|]. split; [done|].
    intros c Hc'. apply Hsame. specialize (Hdis a). set_solver.
  - intros E. apply IH; [by eapply step_inv|done].
Qed.

(** the free list refines a stack.  Freeing distinct aligned pages onto a
    free list that represents the stack [l] and then allocating as many gives
    the pages back last in, first out, without panicking, and leaves the
    representation of [l]. *)
Theorem free_then_alloc_lifo fl l a b :
  fl_rep fl l -> page_ok a -> page_ok b -> a <> b -> a ∉ l -> b ∉ l ->
  exists fl1 fl2 fl3,
    free_pages [a; b] fl = Ret (tt, fl1) /\
    alloc fl1 = Ret (Some b, fl2) /\ alloc fl2 = Ret (Some a, fl3) /\ fl_rep fl3 l.
Proof.
  intros Hr [Ha Ha'] [Hb Hb'] Hne Hal Hbl.
  destruct (free_pages_refines [a; b] fl l) as (fl1 & E1 & Hr1); [done| |set_solver|].
  { apply NoDup_cons. split; [set_solver|]. apply NoDup_singleton. }
  cbn in Hr1. destruct (get_refines _ _ Hr1) as (fl2 & E2 & Hr2 & _).
  destruct (get_refines _ _ Hr2) as (fl3 & E3 & Hr3 & _). by exists fl1, fl2, fl3.
Qed.

(** The empty free list of the boot, for the examples below. *)
Definition fl_boot : FreeList := mkFreeList None ∅.

Lemma fl_boot_rep : fl_rep fl_boot [].
Proof. split; constructor. Qed.

Lemma free_then_alloc_lifo_witness :
  exists fl1 fl2 fl3,
    free_pages [0x5000; 0x6000] fl_boot = Ret (tt, fl1) /\
    alloc fl1 = Ret (Some 0x6000, fl2) /\ alloc fl2 = Ret (Some 0x5000, fl3) /\ fl_rep fl3 [].
Proof.
  apply (free_then_alloc_lifo fl_boot [] 0x5000 0x6000);
    [apply fl_boot_rep|split; [lia|reflexivity]|split; [lia|reflexivity]|lia|set_solver|set_solver].
Defined.

(** Two pages are freed at boot; a client has taken one and written to it when
    the other is handed out. *)
Lemma alloc_never_hands_out_owned_page_witness :
  exists fl1 fl2 fl3, free_pages [0x5000; 0x6000] fl_boot = Ret (tt, fl1) /\ alloc fl1 = Ret (Some 0x6000, fl2) /\
    alloc (mkFreeList (next fl2) (<[0x6000 := zrep PAGE_SIZE 7]> (pages fl2))) = Ret (Some 0x5000, fl3) /\
    pages fl3 !! 0x5000 = Some page_clear /\ pages fl3 !! 0x6000 = Some (zrep PAGE_SIZE 7).
Proof.
  destruct (free_pages_refines [0x5000; 0x6000] fl_boot []) as (fl1 & E1 & Hr1); [apply fl_boot_rep| | |].
  { apply NoDup_cons. split; [set_solver|]. apply NoDup_singleton. }
  { intros p [->|[->|[]%not_elem_of_nil]%elem_of_cons]%elem_of_cons; (split; [set_solver|split; [lia|reflexivity]]). }
  cbn in Hr1.
  destruct (get_refines _ _ Hr1) as (fl2 & E2 & Hr2 & _).
  set (fl2' := mkFreeList (next fl2) (<[0x6000 := zrep PAGE_SIZE 7]> (pages fl2))).
  assert (Hi : kalloc_inv (fl1, ∅)) by (exists [0x6000; 0x5000]; split; [exact Hr1|set_solver]).
  assert (Hs : rtc step (fl1, ∅) (fl2', {[0x6000]} ∪ ∅)).
  { eapply rtc_l; [by apply step_alloc|]. apply rtc_once, step_write; [set_solver|done]. }
  assert (Hr3 : fl_rep fl2' [0x5000]) by (split; [apply chain_insert; [set_solver|apply Hr2]|apply Hr2]).
  destruct (get_refines _ _ Hr3) as (fl3 & E3 & _).
  destruct (alloc_never_hands_out_owned_page _ _ 0x5000 fl3 Hi Hs E3) as (_ & _ & H3 & H4).
  exists fl1, fl2, fl3. split; [exact E1|]. split; [exact E2|]. split; [exact E3|]. split; [exact H3|].
  rewrite H4 by set_solver. apply lookup_insert_eq.
Defined.
