(* ===== verification/Sleeplock.v ===== *)
(** Sleep locks, [sleeplock.rs], as seen by the process that runs: the lock
    word and the owner's pid, and the operations of the calling process.  A
    caller that finds the lock taken sleeps; in the sequential reading used by
    the buffer cache and the file system nobody else runs, so it does not
    return ([Diverge]). *)
From stdpp Require Import base list gmap strings.
From Stdlib Require Import ZArith Lia.
From S2P Require Import Prelude.

Record Sleeplock := mkSleeplock { locked : bool; pid : Z }.

Definition Sleeplock_new : Sleeplock := mkSleeplock false 0.

Definition Sleeplock_holding (mypid : Z) (l : Sleeplock) : bool := pid l =? mypid.

Definition Sleeplock_acquire (mypid : Z) (l : Sleeplock) : outcome Sleeplock :=
  if Sleeplock_holding mypid l then Panic "nested sleep lock"
  else if locked l then Diverge
  else Ret (mkSleeplock true mypid).

Definition Sleeplock_release (mypid : Z) (l : Sleeplock) : outcome Sleeplock :=
  if Sleeplock_holding mypid l then Ret (mkSleeplock false 0)
  else Panic "unlocking unheld sleep lock".
