(* ===== verification/BlockLayer.v ===== *)
(** The interface between the buffer cache and its clients (the log and the
    file system): the operations of a held buffer, an abstract device that
    says what they mean, and the laws a buffer cache promises. *)
From stdpp Require Import base list gmap strings.
From Stdlib Require Import ZArith Lia.
From S2P Require Import Prelude.
From S2P Require Import Arch.

Definition BSIZE : Z := PAGE_SIZE.

(** ** The abstract device

    [view] is what a reader of block [n] sees, cached or not; [media] is what
    the disk holds, so what survives a crash; [dirty] are the blocks whose
    cached copy is pinned until it is written; [held] maps the buffers this
    process holds to their block numbers; [wlog] lists the disk writes. *)
Record Dev := mkDev {
  view : Z -> list Z;
  media : Z -> list Z;
  dirty : gset Z;
  held : gmap Z Z;
  wlog : list (Z * list Z) }.

Definition fupd (f : Z -> list Z) (n : Z) (d : list Z) : Z -> list Z :=
  fun m => if m =? n then d else f m.

Definition dev_hold (h n : Z) (a : Dev) : Dev :=
  mkDev (view a) (media a) (dirty a) (<[h := n]> (held a)) (wlog a).
Definition dev_drop (h : Z) (a : Dev) : Dev :=
  mkDev (view a) (media a) (dirty a) (delete h (held a)) (wlog a).
Definition dev_set (n : Z) (d : list Z) (a : Dev) : Dev :=
  mkDev (fupd (view a) n d) (media a) (dirty a) (held a) (wlog a).
Definition dev_flush (n : Z) (a : Dev) : Dev :=
  mkDev (view a) (fupd (media a) n (view a n)) (dirty a ∖ {[n]}) (held a)
    (wlog a ++ [(n, view a n)]).
Definition dev_pin (n : Z) (a : Dev) : Dev :=
  mkDev (view a) (media a) ({[n]} ∪ dirty a) (held a) (wlog a).

(** The disk and its history have not changed. *)
Definition disk_kept (a a' : Dev) : Prop := media a' = media a /\ wlog a' = wlog a.
#[export] Instance disk_kept_preorder : PreOrder disk_kept.
Proof. split; [done|]. intros a1 a2 a3 [H1 H2] [H3 H4]. split; congruence. Qed.

(** ** Operations on buffers, by handle *)
Class BlockOps (S : Type) := {
  bread : Z -> Z -> M S (result Z);
  brelse : Z -> M S unit;
  bdata : Z -> M S (list Z);
  bset : Z -> list Z -> M S unit;
  bwrite : Z -> M S unit;
  bblockno : Z -> M S Z;
  bis_locked : Z -> M S bool;
  bpin : Z -> M S unit }.

(** [bio::with_block]. *)
Definition bwith {S A} `{BlockOps S} (dev n : Z) (thunk : Z -> M S A) : M S (result A) :=
  h <-? bread dev n ;;
  r ← thunk h;
  brelse h;;
  mret (Ok r).

(** ** Laws

    [rep s a] says that the layer's state [s] presents the device [a];
    [medium] and [written] read the disk and its write history off [s]. *)
Class BlockLaws (S : Type) `{BlockOps S} := {
  rep : S -> Dev -> Prop;
  capacity : Z;
  medium : S -> Z -> list Z;
  written : S -> list (Z * list Z);
  rep_medium s a n : rep s a -> media a n = medium s n;
  rep_written s a : rep s a -> wlog a = written s;
  bread_law s a n :
    rep s a -> 0 <= n -> (forall h, held a !! h <> Some n) ->
    n ∈ dirty a \/ Z.of_nat (size (dirty a)) + Z.of_nat (size (held a)) < capacity ->
    exists h s', bread ROOTDEV n s = Ret (Ok h, s') /\ held a !! h = None /\
      rep s' (dev_hold h n a);
  brelse_law s a h n :
    rep s a -> held a !! h = Some n -> n ∈ dirty a \/ view a n = media a n ->
    exists s', brelse h s = Ret (tt, s') /\ rep s' (dev_drop h a);
  bdata_law s a h n : rep s a -> held a !! h = Some n -> bdata h s = Ret (view a n, s);
  bset_law s a h n d :
    rep s a -> held a !! h = Some n -> zlen d = BSIZE ->
    exists s', bset h d s = Ret (tt, s') /\ rep s' (dev_set n d a);
  bwrite_law s a h n :
    rep s a -> held a !! h = Some n ->
    exists s', bwrite h s = Ret (tt, s') /\ rep s' (dev_flush n a);
  bblockno_law s a h n : rep s a -> held a !! h = Some n -> bblockno h s = Ret (n, s);
  bis_locked_law s a h n : rep s a -> held a !! h = Some n -> bis_locked h s = Ret (true, s);
  bpin_law s a h n :
    rep s a -> held a !! h = Some n ->
    exists s', bpin h s = Ret (tt, s') /\ rep s' (dev_pin n a);
  rep_len s a n : rep s a -> zlen (view a n) = BSIZE;
  rep_clean s a n :
    rep s a -> n ∉ dirty a -> (forall h, held a !! h <> Some n) -> view a n = media a n }.

(** ** A block layer inside a larger state *)
Definition zoom {S T A} (get : T -> S) (put : S -> T -> T) (m : M S A) : M T A := fun t =>
  match m (get t) with
  | Ret (a, s) => Ret (a, put s t)
  | Panic e => Panic e
  | Diverge => Diverge
  end.

Lemma zoom_run {S T A} (get : T -> S) (put : S -> T -> T) (m : M S A) t a s :
  m (get t) = Ret (a, s) -> zoom get put m t = Ret (a, put s t).
Proof. intros H. unfold zoom. by rewrite H. Qed.

Definition zoom_ops {S T} `{BlockOps S} (get : T -> S) (put : S -> T -> T) : BlockOps T := {|
  bread d n := zoom get put (bread d n);
  brelse h := zoom get put (brelse h);
  bdata h := zoom get put (bdata h);
  bset h d := zoom get put (bset h d);
  bwrite h := zoom get put (bwrite h);
  bblockno h := zoom get put (bblockno h);
  bis_locked h := zoom get put (bis_locked h);
  bpin h := zoom get put (bpin h) |}.

(** ** Disk writes, in order *)
Definition apply_writes (d : Z -> list Z) (tr : list (Z * list Z)) : Z -> list Z :=
  fold_left (fun f w => fupd f (fst w) (snd w)) tr d.

Definition after_write (a : Dev) (w : Z * list Z) : Dev :=
  mkDev (fupd (view a) (fst w) (snd w)) (fupd (media a) (fst w) (snd w))
    (dirty a ∖ {[fst w]}) (held a) (wlog a ++ [w]).

Lemma fupd_eq f n d : fupd f n d n = d.
Proof. unfold fupd. by rewrite Z.eqb_refl. Qed.
Lemma fupd_ne f n m d : m <> n -> fupd f n d m = f m.
Proof. intros. unfold fupd. by rewrite (proj2 (Z.eqb_neq m n)). Qed.

Lemma apply_writes_app d t1 t2 : apply_writes d (t1 ++ t2) = apply_writes (apply_writes d t1) t2.
Proof. apply fold_left_app. Qed.

Lemma apply_writes_cons d m x tr : apply_writes d ((m, x) :: tr) = apply_writes (fupd d m x) tr.
Proof. done. Qed.

Lemma apply_writes_ext d d' tr n :
  (forall m, d m = d' m) -> apply_writes d tr n = apply_writes d' tr n.
Proof.
  revert d d'. induction tr as [|[m x] tr IH]; intros d d' He; [apply He|].
  rewrite !apply_writes_cons. apply IH. intros k. unfold fupd. by destruct (k =? m).
Qed.

Lemma apply_writes_snoc d m x tr : apply_writes d (tr ++ [(m, x)]) = fupd (apply_writes d tr) m x.
Proof. by rewrite apply_writes_app. Qed.

Lemma apply_writes_other d tr n : n ∉ tr.*1 -> apply_writes d tr n = d n.
Proof.
  revert d. induction tr as [|[m x] tr IH]; intros d Hn; [done|].
  cbn in Hn. apply not_elem_of_cons in Hn as [Hne Hn]. rewrite apply_writes_cons, IH by done. by apply fupd_ne.
Qed.

(** What a trace leaves in a block was there before or is in the trace. *)
Lemma apply_writes_cases d tr n : apply_writes d tr n = d n \/ (n, apply_writes d tr n) ∈ tr.
Proof.
  revert d. induction tr as [|[m x] tr IH]; intros d; [by left|]. rewrite apply_writes_cons.
  destruct (IH (fupd d m x)) as [E|Hin]; [|right; set_solver]. rewrite E. unfold fupd.
  destruct (Z.eqb_spec n m) as [->|]; [right; set_solver|by left].
Qed.

(** A block written exactly once by the trace ends with what was written. *)
Lemma apply_writes_in d tr n x :
  (n, x) ∈ tr -> (forall y, (n, y) ∈ tr -> y = x) -> apply_writes d tr n = x.
Proof.
  revert d. induction tr as [|[m z] tr IH]; intros d Hin Hu; [by apply not_elem_of_nil in Hin|].
  rewrite apply_writes_cons. destruct (decide (n ∈ tr.*1)) as [Hn|Hn].
  - apply list_elem_of_fmap in Hn as ([n' y] & -> & Hy). cbn in *.
    assert (y = x) as <- by (apply Hu; set_solver). apply IH; [done|]. intros y' Hy'. apply Hu. set_solver.
  - rewrite apply_writes_other by done. apply elem_of_cons in Hin as [[= -> ->]|Hin].
    + apply fupd_eq.
    + exfalso. apply Hn. apply list_elem_of_fmap. by exists (n, x).
Qed.

Lemma media_after_writes a tr :
  media (fold_left after_write tr a) = apply_writes (media a) tr.
Proof. revert a. induction tr as [|w tr IH]; intros a; [done|]. cbn [fold_left]. by rewrite IH. Qed.
Lemma view_after_writes a tr :
  view (fold_left after_write tr a) = apply_writes (view a) tr.
Proof. revert a. induction tr as [|w tr IH]; intros a; [done|]. cbn. by rewrite IH. Qed.
Lemma held_after_writes a tr : held (fold_left after_write tr a) = held a.
Proof. revert a. induction tr as [|w tr IH]; intros a; [done|]. cbn. by rewrite IH. Qed.
Lemma wlog_after_writes a tr : wlog (fold_left after_write tr a) = wlog a ++ tr.
Proof.
  revert a. induction tr as [|w tr IH]; intros a; cbn; [by rewrite app_nil_r|].
  rewrite IH. cbn. by rewrite <-app_assoc.
Qed.
Lemma dirty_after_writes a tr n :
  n ∈ dirty (fold_left after_write tr a) <-> n ∈ dirty a /\ n ∉ tr.*1.
Proof.
  revert a. induction tr as [|[m x] tr IH]; intros a; cbn.
  - split; [|tauto]. intros. split; [done|apply not_elem_of_nil].
  - rewrite IH. cbn. rewrite elem_of_difference, elem_of_singleton, not_elem_of_cons. tauto.
Qed.
