(* ===== verification/Bio.v ===== *)
(** The buffer cache, [bio.rs]: buffers linked in a doubly linked LRU list by
    array indices, block lookup and recycling, release, and the disk request
    of [sd::rdwr] as seen by the process that issues it. *)
From stdpp Require Import base list gmap strings.
From Stdlib Require Import ZArith Lia.
From S2P Require Import Prelude.
From S2P Require Import Arch.
From S2P Require Import BlockLayer.
From S2P Require Import Sleeplock.

(** ** Data *)
Definition EMPTY : Z := 0.
Definition VALID : Z := 2.
Definition DIRTY : Z := 4.
Definition flags_contains (f x : Z) : bool := Z.land f x =? x.

Definition LIST_NONE : Z := USIZE_MAX.

(** [Buf] with its [BufMeta]; [data] is the page the buffer points to. *)
Record Buf := mkBuf {
  lock : Sleeplock; flags : Z; dev : Z; blockno : Z;
  ref_cnt : Z; self_ptr : Z; prev : Z; next : Z;
  qnext : Z; data : list Z }.

Definition Buf_new : Buf :=
  mkBuf Sleeplock_new EMPTY 0 0 0 LIST_NONE LIST_NONE LIST_NONE LIST_NONE [].

Record BCache := mkBCache { head : Z; tail : Z; bufs : list Buf }.

Definition BCache_new : BCache := mkBCache 0 0 (zrep NBUF Buf_new).

(** The cache, the pid of the running process, the disk contents by block
    number, and the blocks written to the disk so far, oldest first. *)
Record Bio := mkBio {
  cache : BCache; mypid : Z; disk : Z -> list Z; writes : list (Z * list Z) }.

Definition set_lock (l : Sleeplock) (b : Buf) : Buf :=
  mkBuf l (flags b) (dev b) (blockno b) (ref_cnt b) (self_ptr b) (prev b) (next b) (qnext b) (data b).
Definition set_flags (f : Z) (b : Buf) : Buf :=
  mkBuf (lock b) f (dev b) (blockno b) (ref_cnt b) (self_ptr b) (prev b) (next b) (qnext b) (data b).
Definition set_id (d n : Z) (b : Buf) : Buf :=
  mkBuf (lock b) (flags b) d n (ref_cnt b) (self_ptr b) (prev b) (next b) (qnext b) (data b).
Definition set_ref (r : Z) (b : Buf) : Buf :=
  mkBuf (lock b) (flags b) (dev b) (blockno b) r (self_ptr b) (prev b) (next b) (qnext b) (data b).
Definition set_self (p : Z) (b : Buf) : Buf :=
  mkBuf (lock b) (flags b) (dev b) (blockno b) (ref_cnt b) p (prev b) (next b) (qnext b) (data b).
Definition set_prev (p : Z) (b : Buf) : Buf :=
  mkBuf (lock b) (flags b) (dev b) (blockno b) (ref_cnt b) (self_ptr b) p (next b) (qnext b) (data b).
Definition set_next (n : Z) (b : Buf) : Buf :=
  mkBuf (lock b) (flags b) (dev b) (blockno b) (ref_cnt b) (self_ptr b) (prev b) n (qnext b) (data b).
Definition set_qnext (n : Z) (b : Buf) : Buf :=
  mkBuf (lock b) (flags b) (dev b) (blockno b) (ref_cnt b) (self_ptr b) (prev b) (next b) n (data b).
Definition set_data (d : list Z) (b : Buf) : Buf :=
  mkBuf (lock b) (flags b) (dev b) (blockno b) (ref_cnt b) (self_ptr b) (prev b) (next b) (qnext b) d.

Definition with_bufs (bs : list Buf) (c : BCache) : BCache := mkBCache (head c) (tail c) bs.
Definition with_cache (c : BCache) (s : Bio) : Bio := mkBio c (mypid s) (disk s) (writes s).

(** [cache.bufs[p]], with the index check. *)
Definition buf_at (p : Z) : M Bio Buf :=
  s ← gets id; expect (bufs (cache s)).[p] "index out of bounds".

(** Update one buffer in place. *)
Definition upd_bufs (p : Z) (f : Buf -> Buf) (bs : list Buf) : list Buf :=
  match bs.[p] with Some b => bs.[p <- f b] | None => bs end.
Definition upd (p : Z) (f : Buf -> Buf) : M Bio unit :=
  buf_at p;;
  modify (fun s => with_cache (with_bufs (upd_bufs p f (bufs (cache s))) (cache s)) s).

(** ** The LRU walks of [bget] *)
Fixpoint find_cached (fuel : nat) (bs : list Buf) (p d n : Z) : outcome (option Z) :=
  match fuel with
  | O => Diverge
  | S fuel' =>
    if p =? LIST_NONE then Ret None
    else match bs.[p] with
         | None => Panic "index out of bounds"
         | Some b =>
           if (dev b =? d) && (blockno b =? n) then Ret (Some p)
           else find_cached fuel' bs (next b) d n
         end
  end.

Fixpoint find_victim (fuel : nat) (bs : list Buf) (p : Z) : outcome (option Z) :=
  match fuel with
  | O => Diverge
  | S fuel' =>
    if p =? LIST_NONE then Ret None
    else match bs.[p] with
         | None => Panic "index out of bounds"
         | Some b =>
           if (ref_cnt b =? 0) && negb (flags_contains (flags b) DIRTY) then Ret (Some p)
           else find_victim fuel' bs (prev b)
         end
  end.

Definition inc_ref (p : Z) : M Bio unit :=
  b ← buf_at p;
  r ← lift (add_ovf 32 (ref_cnt b) 1);
  upd p (set_ref r).

Definition dec_ref (p : Z) : M Bio Z :=
  b ← buf_at p;
  r ← lift (sub_ovf (ref_cnt b) 1);
  upd p (set_ref r);;
  mret r.

Definition buf_acquire (p : Z) : M Bio unit :=
  b ← buf_at p; me ← gets mypid;
  l ← lift (Sleeplock_acquire me (lock b));
  upd p (set_lock l).

Definition is_locked (p : Z) : M Bio bool :=
  b ← buf_at p; me ← gets mypid; mret (Sleeplock_holding me (lock b)).

Definition bget_locate (d n : Z) : M Bio (result Z) :=
  c ← gets cache;
  hit ← lift (find_cached (S (length (bufs c))) (bufs c) (head c) d n);
  match hit with
  | Some p => inc_ref p;; mret (Ok p)
  | None =>
    victim ← lift (find_victim (S (length (bufs c))) (bufs c) (tail c));
    match victim with
    | Some p =>
      upd p (set_id d n);;
      inc_ref p;;
      upd p (set_flags EMPTY);;
      mret (Ok p)
    | None => mret (Err "bget: no buffers")
    end
  end.

Definition bget (d n : Z) : M Bio (result Z) :=
  p <-? bget_locate d n ;;
  buf_acquire p;;
  mret (Ok p).

(** ** The disk request, to completion: the drive transfers the block (a write
    when DIRTY, else a read), the interrupt marks the buffer VALID and wakes
    the caller.

    This is the contract of the driver.  [Sd] models the driver itself, with
    its panics for a missing drive and for a block number whose offset in
    bytes does not fit 64 bits, and the controller's 48-bit sector numbers;
    [SdSpec] shows that it meets the contract for block numbers below 2^45. *)
Definition transfer (p : Z) : M Bio unit :=
  b ← buf_at p;
  (if flags_contains (flags b) DIRTY
   then modify (fun s => mkBio (cache s) (mypid s)
          (fun n => if n =? blockno b then data b else disk s n)
          (writes s ++ [(blockno b, data b)]))
   else s ← gets id; upd p (set_data (disk s (blockno b))));;
  upd p (set_flags VALID).

Definition rdwr (p : Z) : M Bio unit :=
  l ← is_locked p;
  assert_ l "sd::rdwr: buf not locked";;
  b ← buf_at p;
  assert_ (negb (flags b =? VALID)) "sd::rdwr: nothing to do";;
  transfer p.

Definition Buf_read (p : Z) : M Bio unit :=
  b ← buf_at p;
  if negb (flags_contains (flags b) VALID) then rdwr p else mret tt.

Definition Buf_write (p : Z) : M Bio unit :=
  l ← is_locked p;
  assert_ l "assertion failed: self.is_locked()";;
  b ← buf_at p;
  upd p (set_flags (Z.lor (flags b) DIRTY));;
  rdwr p.

Definition read (d n : Z) : M Bio (result Z) :=
  p <-? bget d n ;;
  Buf_read p;;
  mret (Ok p).

(** ** Release: unlock, drop the reference, and move an unreferenced buffer to
    the head of the list. *)
Definition unlink (p : Z) (m : Buf) : M Bio unit :=
  (if negb (next m =? LIST_NONE)
   then assert_ (negb (next m =? p)) "already borrowed";; upd (next m) (set_prev (prev m))
   else mret tt);;
  (if negb (prev m =? LIST_NONE)
   then assert_ (negb (prev m =? p)) "already borrowed";; upd (prev m) (set_next (next m))
   else mret tt).

Definition push_front (p : Z) (m : Buf) (hd : Z) : M Bio unit :=
  h ← buf_at hd;
  upd p (set_prev LIST_NONE);;
  upd hd (set_prev (self_ptr m));;
  upd p (set_next (self_ptr h));;
  modify (fun s => with_cache (mkBCache (self_ptr m) (tail (cache s)) (bufs (cache s))) s).

Definition relse_move (p : Z) : M Bio unit :=
  m ← buf_at p;
  c ← gets cache;
  if head c =? self_ptr m then mret tt else
  modify (fun s => if tail (cache s) =? self_ptr m
                   then with_cache (mkBCache (head (cache s)) (prev m) (bufs (cache s))) s
                   else s);;
  unlink p m;;
  push_front p m (head c).

Definition relse (p : Z) : M Bio unit :=
  l ← is_locked p;
  assert_ l "assertion failed: self.lock.holding()";;
  b ← buf_at p; me ← gets mypid;
  l' ← lift (Sleeplock_release me (lock b));
  upd p (set_lock l');;
  r ← dec_ref p;
  if r =? 0 then relse_move p else mret tt.

Definition with_block {A} (d n : Z) (thunk : Z -> M Bio A) : M Bio (result A) :=
  p <-? read d n ;;
  r ← thunk p;
  relse p;;
  mret (Ok r).

(** ** Initialisation: link the buffers in array order and give each a page. *)
Definition init_buf (len k : Z) (page : list Z) (b : Buf) : Buf :=
  let b := if k + 1 <? len then set_next (k + 1) b else b in
  let b := set_self k b in
  let b := if 0 <? k then set_prev (k - 1) b else b in
  set_data page b.

(** [init] with pages from the allocator, all zero filled. *)
Definition init (page : list Z) (c : BCache) : outcome BCache :=
  let len := zlen (bufs c) in
  if 1 <? len
  then Ret (mkBCache 0 (len - 1)
              (imap (fun k b => init_buf len (Z.of_nat k) page b) (bufs c)))
  else Panic "insufficient number of buffers".

(** ** The list structure, on the link fields alone *)
Record Link := mkLink { lk_self : Z; lk_prev : Z; lk_next : Z }.
Definition link (b : Buf) : Link := mkLink (self_ptr b) (prev b) (next b).

(** [seg L prv l nxt]: the indices [l] form a doubly linked segment whose
    first element's [prev] is [prv] and whose last element's [next] is [nxt]. *)
Fixpoint seg (L : list Link) (prv : Z) (l : list Z) (nxt : Z) : Prop :=
  match l with
  | [] => True
  | p :: l' =>
    L.[p] = Some (mkLink p prv (List.hd nxt l')) /\ seg L p l' nxt
  end.

Definition dll (L : list Link) (hd tl : Z) (l : list Z) : Prop :=
  seg L LIST_NONE l LIST_NONE /\ hd = List.hd LIST_NONE l /\ tl = List.last l LIST_NONE /\
  NoDup l /\ (forall i, i ∈ l <-> 0 <= i < zlen L) /\ zlen L < LIST_NONE /\ l <> [].

Lemma last_default {A} (q : A) l d d' : List.last (q :: l) d = List.last (q :: l) d'.
Proof. revert q. induction l as [|a l IH]; intros q; [done|]. apply (IH a). Qed.

Lemma seg_app L prv l1 l2 nxt :
  seg L prv (l1 ++ l2) nxt <->
  seg L prv l1 (List.hd nxt l2) /\ seg L (List.last l1 prv) l2 nxt.
Proof.
  revert prv. induction l1 as [|p l1 IH]; intros prv; [cbn; tauto|].
  destruct l1 as [|q l1]; [cbn; tauto|].
  change (seg L prv ((p :: q :: l1) ++ l2) nxt) with
    (L.[p] = Some (mkLink p prv q) /\ seg L p ((q :: l1) ++ l2) nxt).
  rewrite IH. change (List.last (p :: q :: l1) prv) with (List.last (q :: l1) prv).
  rewrite (last_default q l1 p prv). cbn. tauto.
Qed.

Lemma seg_frame L prv l nxt p x : p ∉ l -> seg L prv l nxt -> seg L.[p <- x] prv l nxt.
Proof.
  revert prv. induction l as [|q l IH]; intros prv Hn; cbn; [done|].
  apply not_elem_of_cons in Hn as [Hne Hn]. intros [H1 H2]. split; [|auto].
  by rewrite znth_zset_ne.
Qed.

(** Redirecting the pointers at the two ends of a segment. *)
Lemma seg_set_first L prv prv' p l nxt :
  p ∉ l -> seg L prv (p :: l) nxt ->
  seg L.[p <- mkLink p prv' (List.hd nxt l)] prv' (p :: l) nxt.
Proof.
  intros Hn [H1 H2]. cbn. split; [|by apply seg_frame].
  apply znth_Some in H1 as [? _]. by rewrite znth_zset_eq.
Qed.

Lemma seg_last L prv l q nxt :
  seg L prv (l ++ [q]) nxt -> L.[q] = Some (mkLink q (List.last l prv) nxt).
Proof. rewrite seg_app. cbn. tauto. Qed.

Lemma seg_set_last L prv l q nxt nxt' :
  q ∉ l -> seg L prv (l ++ [q]) nxt ->
  seg L.[q <- mkLink q (List.last l prv) nxt'] prv (l ++ [q]) nxt'.
Proof.
  intros Hn H. apply seg_app in H as [H1 H2]. apply seg_app. split; [by apply seg_frame|].
  cbn in *. destruct H2 as [H2 _]. split; [|done].
  apply znth_Some in H2 as [? _]. by rewrite znth_zset_eq.
Qed.

Lemma seg_lookup L prv l1 p l2 nxt :
  seg L prv (l1 ++ p :: l2) nxt ->
  L.[p] = Some (mkLink p (List.last l1 prv) (List.hd nxt l2)).
Proof. rewrite seg_app. cbn. tauto. Qed.

Lemma seg_range L prv l nxt p : seg L prv l nxt -> p ∈ l -> 0 <= p < zlen L.
Proof.
  revert prv. induction l as [|q l IH]; intros prv; cbn; [set_solver|].
  intros [H1 H2] [->|Hp]%elem_of_cons; [apply znth_Some in H1; tauto|eauto].
Qed.

Lemma last_elem {A} (l : list A) d : l <> [] -> List.last l d ∈ l.
Proof.
  intros H. destruct (exists_last H) as (l' & x & ->).
  rewrite List.last_last. set_solver.
Qed.

Lemma last_app_ne {A} (l1 l2 : list A) d : l2 <> [] -> List.last (l1 ++ l2) d = List.last l2 d.
Proof.
  intros H. destruct (exists_last H) as (l' & x & ->). by rewrite app_assoc, !List.last_last.
Qed.

Lemma hd_app {A} (l1 l2 : list A) d : List.hd d (l1 ++ l2) = List.hd (List.hd d l2) l1.
Proof. by destruct l1. Qed.

Lemma hd_elem {A} (l : list A) d : l <> [] -> List.hd d l ∈ l.
Proof. destruct l; [done|]. set_solver. Qed.

(** ** The contents, on the fields other than the links *)
Record Core := mkCore {
  c_lock : Sleeplock; c_flags : Z; c_dev : Z; c_blockno : Z; c_ref : Z; c_data : list Z }.
Definition core (b : Buf) : Core :=
  mkCore (lock b) (flags b) (dev b) (blockno b) (ref_cnt b) (data b).

Definition links (s : Bio) : list Link := link <$> bufs (cache s).
Definition cores (s : Bio) : list Core := core <$> bufs (cache s).

(** What an update of one buffer leaves alone. *)
Definition same_env (s s' : Bio) : Prop :=
  head (cache s') = head (cache s) /\ tail (cache s') = tail (cache s) /\
  mypid s' = mypid s /\ disk s' = disk s /\ writes s' = writes s.

Lemma same_env_refl s : same_env s s.
Proof. by repeat split. Qed.

Lemma same_env_trans s1 s2 s3 : same_env s1 s2 -> same_env s2 s3 -> same_env s1 s3.
Proof. unfold same_env. intuition congruence. Qed.

Lemma links_Some s p k :
  (links s).[p] = Some k -> exists b, (bufs (cache s)).[p] = Some b /\ link b = k.
Proof. unfold links. rewrite znth_fmap. intros (b & H1 & H2)%fmap_Some. eauto. Qed.

Lemma cores_Some s p c :
  (cores s).[p] = Some c -> exists b, (bufs (cache s)).[p] = Some b /\ core b = c.
Proof. unfold cores. rewrite znth_fmap. intros (b & H1 & H2)%fmap_Some. eauto. Qed.

Lemma cores_bufs s p b : (bufs (cache s)).[p] = Some b -> (cores s).[p] = Some (core b).
Proof. intros H. unfold cores. by rewrite znth_fmap, H. Qed.

Lemma links_bufs s p b : (bufs (cache s)).[p] = Some b -> (links s).[p] = Some (link b).
Proof. intros H. unfold links. by rewrite znth_fmap, H. Qed.

Lemma zlen_links s : zlen (links s) = zlen (bufs (cache s)).
Proof. apply zlen_fmap. Qed.
Lemma zlen_cores s : zlen (cores s) = zlen (bufs (cache s)).
Proof. apply zlen_fmap. Qed.

Lemma buf_at_run s p b : (bufs (cache s)).[p] = Some b -> buf_at p s = Ret (b, s).
Proof. intros H. unfold buf_at. run. cbn. by rewrite H. Qed.

Lemma upd_run s p b f :
  (bufs (cache s)).[p] = Some b ->
  exists s', upd p f s = Ret (tt, s') /\ same_env s s' /\
    links s' = (links s).[p <- link (f b)] /\ cores s' = (cores s).[p <- core (f b)] /\
    bufs (cache s') = (bufs (cache s)).[p <- f b].
Proof.
  intros H. unfold upd. run. rewrite (buf_at_run _ _ _ H).
  eexists. split; [done|]. unfold upd_bufs. rewrite H.
  split; [by repeat split|]. unfold links, cores. cbn. by rewrite <-!zset_fmap.
Qed.

Lemma upd_link_run s p k f g :
  (links s).[p] = Some k -> (forall b, core (f b) = core b /\ link (f b) = g (link b)) ->
  exists s', upd p f s = Ret (tt, s') /\ same_env s s' /\
    links s' = (links s).[p <- g k] /\ cores s' = cores s.
Proof.
  intros (b & Hb & Hk)%links_Some Hf. destruct (Hf b) as [Hc Hl].
  destruct (upd_run s p b f Hb) as (s' & E & He & HL & HK & _). exists s'.
  split; [done|]. split; [done|]. rewrite HL, HK, Hl, Hc, Hk.
  split; [done|]. apply zset_id. by apply cores_bufs.
Qed.

Lemma upd_core_run s p b f :
  (bufs (cache s)).[p] = Some b -> link (f b) = link b ->
  exists s', upd p f s = Ret (tt, s') /\ same_env s s' /\ links s' = links s /\
    cores s' = (cores s).[p <- core (f b)] /\ (bufs (cache s')).[p] = Some (f b).
Proof.
  intros Hb Hf. destruct (upd_run s p b f Hb) as (s' & E & He & HL & HK & HB). exists s'.
  split; [done|]. split; [done|]. rewrite HL, HK, HB, Hf. split; [|split; [done|]].
  - apply zset_id. by apply links_bufs.
  - apply znth_zset_eq. by eapply znth_range.
Qed.

Lemma dll_in_range L h t l p : dll L h t l -> p ∈ l -> 0 <= p < LIST_NONE.
Proof. intros (Hs & _ & _ & _ & _ & Hlt & _) Hp. pose proof (seg_range _ _ _ _ _ Hs Hp). lia. Qed.


Lemma upd_prev_run s p k v :
  (links s).[p] = Some k ->
  exists s', upd p (set_prev v) s = Ret (tt, s') /\ same_env s s' /\
    links s' = (links s).[p <- mkLink (lk_self k) v (lk_next k)] /\ cores s' = cores s.
Proof. intros H. by apply (upd_link_run s p k _ (fun k => mkLink (lk_self k) v (lk_next k))). Qed.

Lemma upd_next_run s p k v :
  (links s).[p] = Some k ->
  exists s', upd p (set_next v) s = Ret (tt, s') /\ same_env s s' /\
    links s' = (links s).[p <- mkLink (lk_self k) (lk_prev k) v] /\ cores s' = cores s.
Proof. intros H. by apply (upd_link_run s p k _ (fun k => mkLink (lk_self k) (lk_prev k) v)). Qed.

Lemma unlink_run s l1 p l2 m :
  seg (links s) LIST_NONE (l1 ++ p :: l2) LIST_NONE -> NoDup (l1 ++ p :: l2) -> l1 <> [] ->
  (forall i, i ∈ l1 ++ p :: l2 -> i < LIST_NONE) ->
  prev m = List.last l1 LIST_NONE -> next m = List.hd LIST_NONE l2 ->
  exists s', unlink p m s = Ret (tt, s') /\ same_env s s' /\ cores s' = cores s /\
    zlen (links s') = zlen (links s) /\
    seg (links s') LIST_NONE (l1 ++ l2) LIST_NONE /\ (links s').[p] = (links s).[p].
Proof.
  intros Hseg Hnd Hne Hlt Hprev Hnext.
  destruct (exists_last Hne) as (l0 & q & ->). rewrite List.last_last in Hprev.
  rewrite <-app_assoc in Hnd. apply NoDup_app in Hnd as (Hnd0 & Hd0 & Hnd).
  cbn in Hnd. apply NoDup_cons in Hnd as [Hq Hnd]. apply NoDup_cons in Hnd as [Hp Hnd].
  assert (q ∉ l0) as Hq0 by (intros ?; eapply (Hd0 q); set_solver).
  assert (q <> p /\ q ∉ l2) as [Hqp Hq2] by set_solver.
  assert (q < LIST_NONE) as Hqlt by (apply Hlt; set_solver).
  apply seg_app in Hseg as [H1 H2]. cbn in H2. destruct H2 as [Hpl H2]. rewrite List.last_last in *.
  assert (exists s1, (if negb (next m =? LIST_NONE)
     then assert_ (negb (next m =? p)) "already borrowed";; upd (next m) (set_prev (prev m))
     else mret tt) s = Ret (tt, s1) /\ same_env s s1 /\ cores s1 = cores s /\
     zlen (links s1) = zlen (links s) /\ seg (links s1) LIST_NONE (l0 ++ [q]) p /\
     (links s1).[p] = (links s).[p] /\ seg (links s1) q l2 LIST_NONE) as (s1 & E1 & Env1 & C1 & Z1 & G1 & P1 & G2).
  { rewrite Hnext. destruct l2 as [|n l2]; cbn [List.hd].
    - rewrite Z.eqb_refl. cbn. exists s. split; [done|]. by repeat split.
    - assert (n < LIST_NONE) by (apply Hlt; set_solver).
      rewrite (proj2 (Z.eqb_neq n LIST_NONE)) by lia. cbn [negb]. run.
      rewrite (proj2 (Z.eqb_neq n p)) by set_solver. cbn [negb].
      pose proof H2 as [Hn _].
      destruct (upd_prev_run s n _ (prev m) Hn) as (s1 & E & Env & HL & HC).
      exists s1. split; [exact E|]. split; [done|]. split; [done|]. rewrite HL, Hprev. cbn [lk_self lk_next].
      split; [apply zlen_zset|]. split; [apply seg_frame; set_solver|].
      split; [apply znth_zset_ne; set_solver|].
      apply NoDup_cons in Hnd as [Hn2 _]. by eapply seg_set_first. }
  unfold unlink. run. rewrite E1, Hprev.
  rewrite (proj2 (Z.eqb_neq q LIST_NONE)) by lia. cbn [negb].
  rewrite (proj2 (Z.eqb_neq q p)) by done. cbn [negb].
  pose proof (seg_last _ _ _ _ _ G1) as Hql.
  destruct (upd_next_run s1 q _ (next m) Hql) as (s2 & E & Env & HL & HC).
  exists s2. split; [exact E|]. split; [by eapply same_env_trans|]. split; [congruence|].
  rewrite HL. cbn [lk_self lk_prev]. split; [by rewrite zlen_zset|]. split.
  - apply seg_app. rewrite List.last_last, Hnext.
    split; [by eapply seg_set_last|]. by apply seg_frame.
  - by rewrite znth_zset_ne.
Qed.

Lemma push_front_run s p m h r n :
  seg (links s) LIST_NONE (h :: r) LIST_NONE -> NoDup (p :: h :: r) ->
  (links s).[p] = Some n -> lk_self n = p -> self_ptr m = p ->
  exists s', push_front p m h s = Ret (tt, s') /\ cores s' = cores s /\
    zlen (links s') = zlen (links s) /\
    head (cache s') = p /\ tail (cache s') = tail (cache s) /\ mypid s' = mypid s /\
    disk s' = disk s /\ writes s' = writes s /\
    seg (links s') LIST_NONE (p :: h :: r) LIST_NONE.
Proof.
  intros Hs Hnd Hp Hself Hm. pose proof Hs as [Hh Hr].
  apply NoDup_cons in Hnd as [Hpn Hnd]. apply NoDup_cons in Hnd as [Hhn Hnd].
  assert (h <> p) as Hhp by set_solver.
  destruct (links_Some _ _ _ Hh) as (hb & Hhb & Hhl).
  destruct (upd_prev_run s p _ LIST_NONE Hp) as (s1 & E1 & Env1 & L1 & C1).
  assert ((links s1).[h] = Some (mkLink h LIST_NONE (List.hd LIST_NONE r))) as Hh1.
  { rewrite L1. by rewrite znth_zset_ne. }
  destruct (upd_prev_run s1 h _ (self_ptr m) Hh1) as (s2 & E2 & Env2 & L2 & C2).
  cbn [lk_self lk_next] in L2. rewrite Hm in *.
  assert (0 <= p < zlen (links s)) as Hpr by (by eapply znth_range).
  assert ((links s2).[p] = Some (mkLink p LIST_NONE (lk_next n))) as Hp2.
  { rewrite L2, L1, Hself, znth_zset_ne by done. by apply znth_zset_eq. }
  destruct (upd_next_run s2 p _ (self_ptr hb) Hp2) as (s3 & E3 & Env3 & L3 & C3).
  cbn [lk_self lk_prev] in L3.
  unfold push_front. run. rewrite (buf_at_run _ _ _ Hhb), E1, Hm, E2, E3.
  assert (self_ptr hb = h) as Hhs by (by injection Hhl).
  destruct Env1 as (?&?&?&?&?), Env2 as (?&?&?&?&?), Env3 as (?&?&?&?&?).
  eexists. split; [done|]. unfold cores, links in *. cbn.
  split; [congruence|]. split; [rewrite L3, L2, L1, !zlen_zset; done|].
  do 5 (split; [congruence|]).
  rewrite L3, Hhs. split; [apply znth_zset_eq; rewrite L2, L1, !zlen_zset; done|].
  apply (seg_frame _ p (h :: r)); [done|]. rewrite L2.
  eapply seg_set_first; [done|]. rewrite L1. by apply (seg_frame _ _ (h :: r)).
Qed.

Lemma dll_split L h t l1 p l2 :
  dll L h t (l1 ++ p :: l2) -> L.[p] = Some (mkLink p (List.last l1 LIST_NONE) (List.hd LIST_NONE l2)).
Proof. intros (Hs & _). by apply seg_lookup in Hs. Qed.

(** [relse]'s list surgery: the buffer becomes the most recently used one and
    the order of the others is kept. *)
Lemma relse_move_run s l1 p l2 :
  dll (links s) (head (cache s)) (tail (cache s)) (l1 ++ p :: l2) ->
  exists s', relse_move p s = Ret (tt, s') /\ cores s' = cores s /\
    mypid s' = mypid s /\ disk s' = disk s /\ writes s' = writes s /\
    dll (links s') (head (cache s')) (tail (cache s')) (p :: l1 ++ l2).
Proof.
  intros Hd. pose proof (dll_split _ _ _ _ _ _ Hd) as Hp.
  destruct (links_Some _ _ _ Hp) as (m & Hm & Hml). injection Hml as Hms Hmp Hmn.
  pose proof (fun i => dll_in_range _ _ _ _ i Hd) as Hrange.
  pose proof Hd as (Hseg & Hh & Ht & Hnd & Hall & Hlt & _).
  unfold relse_move. run. rewrite (buf_at_run _ _ _ Hm), Hms.
  destruct l1 as [|h l1'].
  { cbn in Hh. rewrite Hh, Z.eqb_refl. exists s. split; [done|].
    do 4 (split; [done|]). exact Hd. }
  set (l1 := h :: l1') in *. cbn [List.hd app l1] in Hh. rewrite Hh.
  assert (h <> p) as Hhp by (unfold l1 in Hnd; intros ->; apply NoDup_cons in Hnd as [? _]; set_solver).
  rewrite (proj2 (Z.eqb_neq h p)) by done.
  set (s0 := if tail (cache s) =? p
             then with_cache (mkBCache (head (cache s)) (prev m) (bufs (cache s))) s else s).
  fold s0.
  assert (links s0 = links s /\ cores s0 = cores s /\ mypid s0 = mypid s /\ disk s0 = disk s /\
    writes s0 = writes s) as (L0 & C0 & M0 & D0 & W0) by (unfold s0; by destruct (_ =? _)).
  destruct (unlink_run s0 l1 p l2 m) as (s1 & E1 & Env1 & C1 & Z1 & G1 & P1);
    [by rewrite L0|done|done|intros i Hi; by apply Hrange|done|done|].
  rewrite E1. destruct Env1 as (Eh1&T1&Em1&Ed1&Ew1).
  assert (NoDup (p :: l1 ++ l2)) as Hnd' by (by rewrite Permutation_middle).
  destruct (push_front_run s1 p m h (l1' ++ l2) (mkLink p (List.last l1 LIST_NONE) (List.hd LIST_NONE l2)))
    as (s2 & E2 & C2 & Z2 & H2 & T2 & M2 & D2 & W2 & G2);
    [exact G1|exact Hnd'|by rewrite P1, L0|done|done|].
  exists s2. split; [exact E2|]. do 4 (split; [congruence|]).
  split; [exact G2|]. split; [by rewrite H2|]. split.
  { rewrite T2, T1. unfold s0. destruct l2 as [|n l2].
    - rewrite last_app_ne in Ht by done. cbn in Ht. rewrite Ht, Z.eqb_refl, app_nil_r. cbn [with_cache cache tail].
      rewrite Hmp. unfold l1. cbn. apply last_default.
    - assert (tail (cache s) = List.last (n :: l2) LIST_NONE) as Ht'.
      { rewrite Ht. rewrite last_app_ne by done. done. }
      rewrite (proj2 (Z.eqb_neq _ _)).
      + rewrite Ht'. change (p :: l1 ++ n :: l2) with ((p :: l1) ++ n :: l2). by rewrite last_app_ne.
      + rewrite Ht'. apply NoDup_cons in Hnd' as [Hn _]. intros Heq. apply Hn.
        rewrite <-Heq. apply elem_of_app. right. by apply last_elem. }
  split; [done|]. split; [|split; [by rewrite Z2, Z1, L0|done]].
  intros i. rewrite Z2, Z1, L0, <-Hall. set_solver.
Qed.

(** ** Lookup in the LRU list *)
Definition matchb (bs : list Buf) (d n p : Z) : bool :=
  match bs.[p] with Some b => (dev b =? d) && (blockno b =? n) | None => false end.
Definition victimb (bs : list Buf) (p : Z) : bool :=
  match bs.[p] with
  | Some b => (ref_cnt b =? 0) && negb (flags_contains (flags b) DIRTY)
  | None => false
  end.

Lemma find_cached_run bs d n l prv fuel :
  seg (link <$> bs) prv l LIST_NONE -> (length l < fuel)%nat -> zlen bs < LIST_NONE ->
  find_cached fuel bs (List.hd LIST_NONE l) d n = Ret (List.find (matchb bs d n) l).
Proof.
  revert prv fuel. induction l as [|p l IH]; intros prv [|fuel] Hs Hf Hl; cbn in Hf; try lia; cbn.
  - done.
  - destruct Hs as [Hp Hs]. rewrite znth_fmap in Hp. apply fmap_Some in Hp as (b & Hb & Hlk).
    pose proof (znth_range _ _ _ Hb).
    rewrite (proj2 (Z.eqb_neq p LIST_NONE)) by lia. unfold matchb at 1. rewrite Hb.
    case_match; [done|]. injection Hlk as _ _ Hn. rewrite <-Hn. by eapply IH; [|lia|].
Qed.

Lemma find_victim_run bs l nxt fuel :
  seg (link <$> bs) LIST_NONE l nxt -> (length l < fuel)%nat -> zlen bs < LIST_NONE ->
  find_victim fuel bs (List.last l LIST_NONE) = Ret (List.find (victimb bs) (rev l)).
Proof.
  revert nxt fuel. induction l as [|p l IH] using rev_ind; intros nxt [|fuel] Hs Hf Hl; cbn in Hf; try lia.
  - done.
  - rewrite length_app in Hf. cbn in Hf. apply seg_app in Hs as [Hs Hp]. cbn in Hs, Hp.
    destruct Hp as [Hp _]. rewrite znth_fmap in Hp. apply fmap_Some in Hp as (b & Hb & Hlk).
    pose proof (znth_range _ _ _ Hb). rewrite List.last_last, rev_app_distr. cbn.
    rewrite (proj2 (Z.eqb_neq p LIST_NONE)) by lia. unfold victimb at 1. rewrite Hb.
    case_match; [done|]. injection Hlk as _ Hpv _. rewrite <-Hpv. by eapply IH; [|lia|].
Qed.

Lemma dll_length L h t l : dll L h t l -> (length l <= length L)%nat.
Proof.
  intros (Hs & _ & _ & Hnd & Hall & Hlt & _).
  assert (l ⊆+ zrange 0 (zlen L)) as Hsub.
  { apply NoDup_submseteq; [done|]. intros i Hi. apply elem_of_zrange. by apply Hall. }
  apply submseteq_length in Hsub. unfold zrange, step_range in Hsub. rewrite Z.div_1_r in Hsub.
  case_bool; [rewrite length_fmap, length_seq in Hsub|cbn in Hsub]; unfold zlen in *; lia.
Qed.

Lemma find_cached_dll bs h t l d n :
  dll (link <$> bs) h t l ->
  find_cached (S (length bs)) bs h d n = Ret (List.find (matchb bs d n) l).
Proof.
  intros Hd. pose proof (dll_length _ _ _ _ Hd) as Hle. rewrite length_fmap in Hle.
  destruct Hd as (Hs & -> & _ & _ & _ & Hlt & _). rewrite zlen_fmap in Hlt.
  eapply find_cached_run; [done|lia|done].
Qed.

Lemma find_victim_dll bs h t l :
  dll (link <$> bs) h t l ->
  find_victim (S (length bs)) bs t = Ret (List.find (victimb bs) (rev l)).
Proof.
  intros Hd. pose proof (dll_length _ _ _ _ Hd) as Hle. rewrite length_fmap in Hle.
  destruct Hd as (Hs & _ & -> & _ & _ & Hlt & _). rewrite zlen_fmap in Hlt.
  eapply find_victim_run; [done|lia|done].
Qed.

(** ** The representation of the abstract device *)
Definition PINNED : Z := Z.lor VALID DIRTY.

(** The buffer caches block [n], with contents. *)
Definition caches (c : Core) (n : Z) : Prop :=
  c_dev c = ROOTDEV /\ c_blockno c = n /\ (c_flags c = VALID \/ c_flags c = PINNED).

(** What a reader of block [n] sees. *)
Definition sees (K : list Core) (d : Z -> list Z) (n : Z) (x : list Z) : Prop :=
  (exists i c, K.[i] = Some c /\ caches c n /\ c_data c = x) \/
  ((forall i c, K.[i] = Some c -> ~ caches c n) /\ x = d n).

(** A buffer at rest or held by process [me]. *)
Definition core_ok (me : Z) (d : Z -> list Z) (c : Core) : Prop :=
  zlen (c_data c) = BSIZE /\
  ((c_ref c = 0 /\ c_lock c = Sleeplock_new /\
    (c_flags c = EMPTY \/
     c_dev c = ROOTDEV /\ c_flags c = VALID /\ c_data c = d (c_blockno c) \/
     c_dev c = ROOTDEV /\ c_flags c = PINNED)) \/
   (c_ref c = 1 /\ c_lock c = mkSleeplock true me /\ c_dev c = ROOTDEV /\
    (c_flags c = VALID \/ c_flags c = PINNED))).

(** No two buffers hold the same block of the device. *)
Definition uniq (K : list Core) : Prop :=
  forall i j ci cj, K.[i] = Some ci -> K.[j] = Some cj ->
    c_dev ci = ROOTDEV -> c_dev cj = ROOTDEV -> c_blockno ci = c_blockno cj -> i = j.

Record contents (K : list Core) (me : Z) (d : Z -> list Z) (a : Dev) : Prop := {
  ct_uniq : uniq K;
  ct_ok : forall i c, K.[i] = Some c -> core_ok me d c;
  ct_view : forall n, sees K d n (view a n);
  ct_media : forall n, media a n = d n;
  ct_len : forall n, zlen (d n) = BSIZE;
  ct_dirty : forall n, n ∈ dirty a <->
    exists i c, K.[i] = Some c /\ c_blockno c = n /\ c_flags c = PINNED;
  ct_held : forall h n, held a !! h = Some n <->
    exists c, K.[h] = Some c /\ c_ref c = 1 /\ c_blockno c = n }.

Definition linked (s : Bio) : Prop :=
  exists l, dll (links s) (head (cache s)) (tail (cache s)) l.

Definition bio_rep (s : Bio) (a : Dev) : Prop :=
  linked s /\ mypid s <> 0 /\ contents (cores s) (mypid s) (disk s) a /\ wlog a = writes s.

(** Changes that only touch [links], at most. *)
Lemma sees_set K d n x i c' :
  0 <= i < zlen K -> ~ caches c' n ->
  (forall c, K.[i] = Some c -> ~ caches c n) -> sees K d n x -> sees K.[i <- c'] d n x.
Proof.
  intros Hi Hc' Hc [(j & c & Hj & Hm & Hx)|[Hno ->]].
  - left. exists j, c. split; [|done]. rewrite znth_zset_ne; [done|].
    intros ->. by eapply Hc.
  - right. split; [|done]. intros j c Hj. destruct (decide (i = j)) as [<-|Hne].
    + rewrite znth_zset_eq in Hj by done. by simplify_eq.
    + rewrite znth_zset_ne in Hj by done. by eapply Hno.
Qed.

Lemma sees_here K d n i c' x :
  0 <= i < zlen K -> caches c' n -> c_data c' = x -> sees K.[i <- c'] d n x.
Proof. intros. left. exists i, c'. split; [|done]. by apply znth_zset_eq. Qed.

Lemma sees_det K d n x y : uniq K -> sees K d n x -> sees K d n y -> x = y.
Proof.
  intros Hu [(i & c & Hi & Hm & <-)|[Hno ->]] [(j & c' & Hj & Hm' & <-)|[Hno' ->]]; try done.
  - destruct Hm as (H1 & H2 & _), Hm' as (H3 & H4 & _).
    rewrite (Hu i j c c') in Hi by congruence. congruence.
  - exfalso. by eapply Hno'.
  - exfalso. by eapply Hno.
Qed.

Lemma caches_id c n m : caches c n -> caches c m -> n = m.
Proof. intros (_ & <- & _) (_ & <- & _). done. Qed.

Lemma uniq_set K i c c' :
  uniq K -> K.[i] = Some c ->
  (c_dev c' = c_dev c /\ c_blockno c' = c_blockno c) \/
  (forall j cj, j <> i -> K.[j] = Some cj -> c_dev cj = ROOTDEV -> c_blockno cj <> c_blockno c') ->
  uniq K.[i <- c'].
Proof.
  intros Hu Hi Hc j k cj ck Hj Hk Dj Dk Hb. pose proof (znth_range _ _ _ Hi) as Hr.
  rewrite znth_zset in Hj, Hk by done.
  destruct (decide (i = j)) as [<-|Hij], (decide (i = k)) as [<-|Hik]; simplify_eq; try done.
  - destruct Hc as [[H1 H2]|Hc]; [|by destruct (Hc k ck)].
    apply (Hu i k c ck); congruence.
  - destruct Hc as [[H1 H2]|Hc]; [|by destruct (Hc j cj)].
    apply (Hu j i cj c); congruence.
  - by eapply Hu.
Qed.

Lemma VALID_ne_PINNED : VALID <> PINNED. Proof. done. Qed.
Lemma EMPTY_ne_PINNED : EMPTY <> PINNED. Proof. done. Qed.
Lemma EMPTY_ne_VALID : EMPTY <> VALID. Proof. done. Qed.
#[local] Hint Resolve VALID_ne_PINNED EMPTY_ne_PINNED EMPTY_ne_VALID : core.

Ltac flag_absurd :=
  exfalso; first [ apply VALID_ne_PINNED; congruence | apply EMPTY_ne_PINNED; congruence
                 | apply EMPTY_ne_VALID; congruence ].

(** Lookup in a list with one buffer replaced. *)
Ltac at_index i j :=
  destruct (decide (i = j)) as [<-|?];
  [rewrite ?znth_zset_eq in * by done | rewrite ?znth_zset_ne in * by done].

Section contents.
Context (K : list Core) (me : Z) (d : Z -> list Z) (a : Dev).
Context (HC : contents K me d a).

Lemma ct_sees_cached i c n : K.[i] = Some c -> caches c n -> view a n = c_data c.
Proof.
  intros Hi Hm. eapply sees_det; [apply HC|apply HC|]. left. by exists i, c.
Qed.

(** A block nobody holds and nobody pinned reads as the disk has it. *)
Lemma ct_clean n :
  n ∉ dirty a -> (forall h, held a !! h <> Some n) -> view a n = media a n.
Proof.
  intros Hd Hh. rewrite (ct_media _ _ _ _ HC).
  destruct (ct_view _ _ _ _ HC n) as [(i & c & Hi & Hm & <-)|[_ ->]]; [|done].
  destruct (ct_ok _ _ _ _ HC i c Hi) as [_ [(_ & _ & Hf)|(Hr & _)]].
  - pose proof Hm as (_ & Hn & _). destruct Hf as [Hf|[(_ & _ & ->)|(_ & Hf)]].
    + destruct Hm as (_ & _ & [Hv|Hv]); flag_absurd.
    + by rewrite Hn.
    + exfalso. apply Hd. apply (ct_dirty _ _ _ _ HC). eauto.
  - exfalso. destruct Hm as (_ & Hn & _). apply (Hh i). apply (ct_held _ _ _ _ HC). eauto.
Qed.

(** Taking a buffer: a hit on block [n], or a clean victim refilled from the disk. *)
Lemma ct_acquire p c n f x :
  K.[p] = Some c -> c_ref c = 0 -> (forall h, held a !! h <> Some n) -> zlen x = BSIZE ->
  (c_dev c = ROOTDEV /\ c_blockno c = n /\ c_flags c = f /\ (f = VALID \/ f = PINNED) /\ x = c_data c) \/
  (c_flags c <> PINNED /\ f = VALID /\ x = d n /\
   forall j cj, j <> p -> K.[j] = Some cj -> c_dev cj = ROOTDEV -> c_blockno cj <> n) ->
  let c' := mkCore (mkSleeplock true me) f ROOTDEV n 1 x in
  contents K.[p <- c'] me d (dev_hold p n a).
Proof.
  intros Hp Href Hnh Hx Hcase c'. pose proof (znth_range _ _ _ Hp) as Hr.
  assert (caches c' n) as Hc'.
  { repeat split. cbn. destruct Hcase as [(_ & _ & _ & ? & _)|(_ & -> & _)]; auto. }
  assert (Hxn : view a n = x).
  { destruct Hcase as [(H1 & H2 & H3 & H4 & ->)|(H1 & _ & -> & Hoth)].
    - eapply ct_sees_cached; [done|]. split; [done|]. split; [done|]. by rewrite H3.
    - rewrite <-(ct_media _ _ _ _ HC). apply ct_clean; [|done].
      rewrite (ct_dirty _ _ _ _ HC). intros (i & ci & Hi & Hn & Hf).
      assert (i = p) as -> by (destruct (decide (i = p)); [done|]; exfalso; eapply Hoth; [done|done| |done];
        destruct (ct_ok _ _ _ _ HC i ci Hi) as [_ [(_ & _ & [?|[(?&?&?)|(?&?)]])|(_ & _ & ? & _)]]; try done; flag_absurd).
      congruence. }
  split.
  - eapply uniq_set; [apply HC|done|]. destruct Hcase as [(?&?&_)|(_&_&_&?)]; [left|right]; cbn; eauto.
  - intros i ci Hi. at_index p i; [|by eapply (ct_ok _ _ _ _ HC)]. simplify_eq.
    split; [done|]. right. cbn. repeat split; try done. by destruct Hc' as (_&_&?).
  - intros m. cbn. destruct (decide (m = n)) as [->|Hm]; [by apply sees_here|].
    assert (~ caches c' m) by (intros Hcm; by apply Hm, (caches_id c')).
    destruct (decide (caches c m)) as [Hcm|Hcm]; [|apply sees_set; [done|done|naive_solver|apply HC]].
    right. destruct Hcase as [(H1 & H2 & _)|(H1 & -> & -> & _)].
    { exfalso. apply Hm. destruct Hcm as (_ & <- & _). done. }
    split.
    + intros i ci Hi. at_index p i; [by simplify_eq|]. intros Hci.
      destruct Hcm as (D1 & B1 & _), Hci as (D2 & B2 & _).
      assert (p = i); [|done]. eapply (ct_uniq _ _ _ _ HC); [done..|congruence].
    + rewrite (ct_sees_cached _ _ _ Hp Hcm).
      pose proof (ct_ok _ _ _ _ HC _ _ Hp) as [_ [(_&_&[Hf|[(_&_&->)|(_&Hf)]])|(?&_)]]; [..|lia].
      * destruct Hcm as (_&_&[Hv|Hv]); flag_absurd.
      * by destruct Hcm as (_ & -> & _).
      * done.
  - apply HC.
  - apply HC.
  - intros m. cbn. rewrite (ct_dirty _ _ _ _ HC). split.
    + intros (i & ci & Hi & Hb & Hf). destruct (decide (p = i)) as [<-|].
      * destruct Hcase as [(H1 & H2 & H3 & _)|(H1 & _)]; [|congruence].
        exists p, c'. rewrite znth_zset_eq by done. split; [done|]. cbn. split; congruence.
      * exists i, ci. by rewrite znth_zset_ne.
    + intros (i & ci & Hi & Hb & Hf). at_index p i; [|eauto]. simplify_eq. cbn in Hf.
      destruct Hcase as [(H1 & H2 & H3 & _)|(H1 & -> & _)]; [|flag_absurd].
      exists p, c. cbn. split; [done|]. split; congruence.
  - intros h m. cbn. rewrite lookup_insert. case_decide as E.
    + subst h. rewrite znth_zset_eq by done. split; [intros; simplify_eq; eauto|].
      intros (ci & ? & _ & ?). by simplify_eq/=.
    + rewrite znth_zset_ne by done. apply HC.
Qed.

(** Giving a buffer back. *)
Lemma ct_release p c n :
  K.[p] = Some c -> c_ref c = 1 -> c_blockno c = n ->
  n ∈ dirty a \/ view a n = media a n ->
  contents K.[p <- mkCore Sleeplock_new (c_flags c) (c_dev c) n 0 (c_data c)] me d (dev_drop p a).
Proof.
  intros Hp Hr Hn Hcl. pose proof (znth_range _ _ _ Hp) as Hrg.
  set (c' := mkCore _ _ _ _ _ _).
  assert (caches c n) as Hcn.
  { pose proof (ct_ok _ _ _ _ HC _ _ Hp) as [_ [(?&_)|(_&_&?&?)]]; [lia|]. done. }
  assert (forall m, caches c' m <-> caches c m) as Heq by (intros m; unfold caches; cbn; by rewrite Hn).
  split.
  - eapply uniq_set; [apply HC|done|]. left. by split; [|cbn].
  - intros i ci Hi. at_index p i; [|by eapply (ct_ok _ _ _ _ HC)]. simplify_eq.
    split; [cbn; eapply (ct_ok _ _ _ _ HC); done|]. left. cbn. split; [done|]. split; [done|]. right.
    pose proof Hcn as (Hd & _ & [Hf|Hf]); [left|right; done]. split; [done|]. split; [done|].
    destruct Hcl as [Hin|Hv].
    + apply (ct_dirty _ _ _ _ HC) in Hin as (j & cj & Hj & Hb & Hfj).
      assert (j = p) as ->; [|simplify_eq; flag_absurd].
      eapply (ct_uniq _ _ _ _ HC); [done|done| |done|done].
      destruct (ct_ok _ _ _ _ HC j cj Hj) as [_ [(_&_&[?|[(?&?&?)|(?&?)]])|(_&_&?&_)]]; try done; flag_absurd.
    + rewrite <-(ct_media _ _ _ _ HC), <-Hv. symmetry. by eapply ct_sees_cached.
  - intros m. cbn. destruct (decide (caches c m)) as [Hcm|Hcm].
    + apply sees_here; [done|by apply Heq|]. cbn. symmetry. by eapply ct_sees_cached.
    + apply sees_set; [done|by rewrite Heq|naive_solver|apply HC].
  - apply HC.
  - apply HC.
  - intros m. cbn. rewrite (ct_dirty _ _ _ _ HC). split.
    + intros (i & ci & Hi & Hb & Hf). destruct (decide (p = i)) as [<-|].
      * exists p, c'. rewrite znth_zset_eq by done. simplify_eq. by cbn.
      * exists i, ci. by rewrite znth_zset_ne.
    + intros (i & ci & Hi & Hb & Hf). at_index p i; [|eauto]. simplify_eq. exists p, c. by cbn in *.
  - intros h m. cbn. rewrite lookup_delete. case_decide as E.
    + subst h. rewrite znth_zset_eq by done. split; [done|]. by intros (ci & ? & ? & _); simplify_eq.
    + rewrite znth_zset_ne by done. apply HC.
Qed.

(** Storing into a held buffer. *)
Lemma ct_setdata p c n x :
  K.[p] = Some c -> c_ref c = 1 -> c_blockno c = n -> zlen x = BSIZE ->
  contents K.[p <- mkCore (c_lock c) (c_flags c) (c_dev c) n (c_ref c) x] me d (dev_set n x a).
Proof.
  intros Hp Hr Hn Hx. pose proof (znth_range _ _ _ Hp) as Hrg. set (c' := mkCore _ _ _ _ _ _).
  pose proof (ct_ok _ _ _ _ HC _ _ Hp) as [_ [(?&_)|(_ & Hlk & Hdv & Hfl)]]; [lia|].
  split.
  - eapply uniq_set; [apply HC|done|]. by left.
  - intros i ci Hi. at_index p i; [|by eapply (ct_ok _ _ _ _ HC)]. simplify_eq. split; [done|]. right. by cbn.
  - intros m. cbn. unfold fupd. destruct (Z.eqb_spec m n) as [->|Hm]; [by apply sees_here|].
    apply sees_set; [done| | |apply HC].
    + by intros (_ & Hb & _).
    + intros c0 Hc0 (_ & Hb & _). simplify_eq.
  - apply HC.
  - apply HC.
  - intros m. cbn. rewrite (ct_dirty _ _ _ _ HC). split.
    + intros (i & ci & Hi & Hb & Hf). destruct (decide (p = i)) as [<-|].
      * exists p, c'. rewrite znth_zset_eq by done. simplify_eq. by cbn.
      * exists i, ci. by rewrite znth_zset_ne.
    + intros (i & ci & Hi & Hb & Hf). at_index p i; [|eauto]. simplify_eq. exists p, c. by cbn in *.
  - intros h m. cbn. rewrite (ct_held _ _ _ _ HC). at_index p h; [|done].
    split; intros (ci & ? & ? & ?); simplify_eq; [by exists c'|by exists c].
Qed.

(** Pinning a held buffer. *)
Lemma ct_pin p c n :
  K.[p] = Some c -> c_ref c = 1 -> c_blockno c = n ->
  contents K.[p <- mkCore (c_lock c) PINNED (c_dev c) n (c_ref c) (c_data c)] me d (dev_pin n a).
Proof.
  intros Hp Hr Hn. pose proof (znth_range _ _ _ Hp) as Hrg. set (c' := mkCore _ _ _ _ _ _).
  pose proof (ct_ok _ _ _ _ HC _ _ Hp) as [Hlen [(?&_)|(_ & Hlk & Hdv & Hfl)]]; [lia|].
  assert (caches c n) as Hcn by done.
  split.
  - eapply uniq_set; [apply HC|done|]. by left.
  - intros i ci Hi. at_index p i; [|by eapply (ct_ok _ _ _ _ HC)]. simplify_eq. split; [done|]. right.
    cbn. repeat split; auto.
  - intros m. cbn. destruct (decide (m = n)) as [->|Hm].
    + apply sees_here; [done|by repeat split; auto|]. cbn. symmetry. by eapply ct_sees_cached.
    + apply sees_set; [done| | |apply HC]; [by intros (_ & Hb & _)|].
      intros c0 Hc0 (_ & Hb & _). simplify_eq.
  - apply HC.
  - apply HC.
  - intros m. cbn. rewrite elem_of_union, elem_of_singleton, (ct_dirty _ _ _ _ HC). split.
    + intros [->|(i & ci & Hi & Hb & Hf)].
      * exists p, c'. by rewrite znth_zset_eq.
      * destruct (decide (p = i)) as [<-|].
        -- exists p, c'. rewrite znth_zset_eq by done. by simplify_eq.
        -- exists i, ci. by rewrite znth_zset_ne.
    + intros (i & ci & Hi & Hb & Hf). at_index p i; [simplify_eq; by left|]. right. eauto.
  - intros h m. cbn. rewrite (ct_held _ _ _ _ HC). at_index p h; [|done].
    split; intros (ci & ? & ? & ?); simplify_eq; [by exists c'|by exists c].
Qed.

(** Writing a held buffer to the disk. *)
Lemma ct_flush p c n :
  K.[p] = Some c -> c_ref c = 1 -> c_blockno c = n ->
  contents K.[p <- mkCore (c_lock c) VALID (c_dev c) n (c_ref c) (c_data c)] me
    (fupd d n (c_data c)) (dev_flush n a).
Proof.
  intros Hp Hr Hn. pose proof (znth_range _ _ _ Hp) as Hrg. set (c' := mkCore _ _ _ _ _ _).
  pose proof (ct_ok _ _ _ _ HC _ _ Hp) as [Hlen [(?&_)|(_ & Hlk & Hdv & Hfl)]]; [lia|].
  assert (caches c n) as Hcn by done.
  assert (Hother : forall i ci, p <> i -> K.[i] = Some ci -> c_dev ci = ROOTDEV -> c_blockno ci <> n).
  { intros i ci Hi Hci Hdi Hb. apply Hi. eapply (ct_uniq _ _ _ _ HC); [done..|congruence]. }
  assert (Hv : view a n = c_data c) by (by eapply ct_sees_cached).
  split.
  - eapply uniq_set; [apply HC|done|]. by left.
  - intros i ci Hi. at_index p i.
    + simplify_eq. split; [done|]. right. cbn. repeat split; auto.
    + destruct (ct_ok _ _ _ _ HC _ _ Hi) as [Hl Hk]. split; [done|].
      destruct Hk as [(H1 & H2 & [H3|[(H3 & H4 & H5)|(H3 & H4)]])|Hk]; [left|left|left|by right].
      * by repeat split; auto.
      * split; [done|]. split; [done|]. right. left. split; [done|]. split; [done|].
        unfold fupd. rewrite (proj2 (Z.eqb_neq _ _)); [done|]. by eapply Hother.
      * by repeat split; auto.
  - intros m. cbn. destruct (decide (m = n)) as [->|Hm].
    + apply sees_here; [done|by repeat split; auto|]. by cbn.
    + assert (sees K (fupd d n (c_data c)) m (view a m)) as Hs.
      { destruct (ct_view _ _ _ _ HC m) as [Hs|[Hno Heq]]; [by left|right]. split; [done|].
        unfold fupd. by rewrite (proj2 (Z.eqb_neq m n)). }
      apply sees_set; [done| | |done]; [by intros (_ & Hb & _)|].
      intros c0 Hc0 (_ & Hb & _). simplify_eq.
  - intros m. cbn. rewrite Hv. unfold fupd. case_match; [done|]. apply HC.
  - intros m. unfold fupd. case_match; [done|]. apply HC.
  - intros m. cbn. rewrite elem_of_difference, not_elem_of_singleton, (ct_dirty _ _ _ _ HC). split.
    + intros ((i & ci & Hi & Hb & Hf) & Hm). exists i, ci. rewrite znth_zset_ne; [done|].
      intros <-. by simplify_eq.
    + intros (i & ci & Hi & Hb & Hf). at_index p i; [simplify_eq; flag_absurd|]. split; [eauto|].
      rewrite <-Hb. eapply Hother; [done|done|].
      destruct (ct_ok _ _ _ _ HC _ _ Hi) as [_ [(_&_&[?|[(?&?&?)|(?&?)]])|(_&_&?&_)]]; try done; flag_absurd.
  - intros h m. cbn. rewrite (ct_held _ _ _ _ HC). at_index p h; [|done].
    split; intros (ci & ? & ? & ?); simplify_eq; [by exists c'|by exists c].
Qed.
End contents.

(** ** Running the operations *)
Lemma linked_links s s' :
  links s' = links s -> same_env s s' -> linked s -> linked s'.
Proof. intros HL (Hh & Ht & _) [l Hl]. exists l. by rewrite HL, Hh, Ht. Qed.

Lemma upd_core_chain s s0 p b f :
  (bufs (cache s)).[p] = Some b -> link (f b) = link b ->
  links s = links s0 -> same_env s0 s -> cores s = (cores s0).[p <- core b] ->
  exists s', upd p f s = Ret (tt, s') /\ links s' = links s0 /\ same_env s0 s' /\
    cores s' = (cores s0).[p <- core (f b)] /\ (bufs (cache s')).[p] = Some (f b).
Proof.
  intros Hb Hf HL He HC. destruct (upd_core_run s p b f Hb Hf) as (s' & E & He' & HL' & HC' & Hb').
  exists s'. split; [done|]. split; [congruence|]. split; [by eapply same_env_trans|].
  split; [|done]. by rewrite HC', HC, zset_zset.
Qed.

Lemma flags_VALID : flags_contains VALID VALID = true. Proof. done. Qed.
Lemma flags_PINNED : flags_contains PINNED VALID = true. Proof. done. Qed.

(** Lock the buffer and fill it if it holds nothing. *)
Lemma finish_read s0 s p b n :
  (bufs (cache s)).[p] = Some b -> ref_cnt b = 1 -> dev b = ROOTDEV -> blockno b = n ->
  lock b = Sleeplock_new -> mypid s0 <> 0 ->
  links s = links s0 -> same_env s0 s -> cores s = (cores s0).[p <- core b] ->
  flags b = EMPTY \/ flags b = VALID \/ flags b = PINNED ->
  exists s', (buf_acquire p;; Buf_read p;; mret (Ok p)) s = Ret (Ok p, s') /\
    links s' = links s0 /\ same_env s0 s' /\
    cores s' = (cores s0).[p <- mkCore (mkSleeplock true (mypid s0))
      (if flags b =? EMPTY then VALID else flags b) ROOTDEV n 1
      (if flags b =? EMPTY then disk s0 n else data b)].
Proof.
  intros Hb Hr Hdv Hn Hlk Hme HL He HK Hfl.
  assert (mypid s = mypid s0) as Hpid by (by destruct He as (_&_&?&_)).
  destruct (upd_core_chain s s0 p b (set_lock (mkSleeplock true (mypid s0)))) as (s1 & E1 & L1 & V1 & K1 & B1);
    [done..|].
  assert (buf_acquire p s = Ret (tt, s1)) as EA.
  { unfold buf_acquire. run. rewrite (buf_at_run _ _ _ Hb), Hlk. unfold Sleeplock_acquire, Sleeplock_holding.
    rewrite Hpid. cbn [pid locked Sleeplock_new]. rewrite (proj2 (Z.eqb_neq 0 (mypid s0))) by lia. exact E1. }
  rewrite (bind_run _ _ _ _ _ EA). set (b1 := set_lock _ b) in *.
  assert (flags b1 = flags b /\ data b1 = data b) as [Hf1 Hd1] by done.
  pose proof (buf_at_run _ _ _ B1) as A1.
  enough (exists s', Buf_read p s1 = Ret (tt, s') /\ links s' = links s0 /\ same_env s0 s' /\
    cores s' = (cores s0).[p <- mkCore (mkSleeplock true (mypid s0))
      (if flags b =? EMPTY then VALID else flags b) ROOTDEV n 1
      (if flags b =? EMPTY then disk s0 n else data b)]) as (s' & ER & H1 & H2 & H3).
  { exists s'. rewrite (bind_run _ _ _ _ _ ER). done. }
  unfold Buf_read. rewrite (bind_run _ _ _ _ _ A1), Hf1.
  destruct Hfl as [Hfl|Hfl].
  - rewrite Hfl. cbn [flags_contains negb]. change (flags_contains EMPTY VALID) with false. cbn [negb].
    destruct (upd_core_chain s1 s0 p b1 (set_data (disk s0 n))) as (s2 & E2 & L2 & V2 & K2 & B2); [done..|].
    destruct (upd_core_chain s2 s0 p _ (set_flags VALID) B2) as (s3 & E3 & L3 & V3 & K3 & B3); [done..|].
    assert (is_locked p s1 = Ret (true, s1)) as AL.
    { unfold is_locked. msteps. unfold Sleeplock_holding. cbn. destruct V1 as (_&_&->&_). by rewrite Z.eqb_refl. }
    unfold rdwr. msteps. rewrite Hf1, Hfl. cbn [negb]. msteps.
    unfold transfer. rewrite (bind_run _ _ _ _ _ A1), Hf1, Hfl.
    change (flags_contains EMPTY DIRTY) with false. cbv iota.
    assert (disk s1 (blockno b1) = disk s0 n) as Hdk.
    { destruct V1 as (_&_&_&->&_). by rewrite <-Hn. }
    rewrite (bind_run _ _ _ tt s2) by (rewrite bind_gets; unfold id; rewrite Hdk; exact E2).
    exists s3. split; [done|]. split; [done|]. split; [done|].
    rewrite K3. unfold core, b1; cbn. by rewrite Hr, Hdv, Hn.
  - assert (flags_contains (flags b) VALID = true) as -> by (by destruct Hfl as [-> | ->]).
    cbn [negb]. exists s1. split; [done|]. split; [done|]. split; [done|].
    rewrite K1. assert (flags b =? EMPTY = false) as -> by (by destruct Hfl as [-> | ->]).
    unfold core, b1; cbn. by rewrite Hr, Hdv, Hn.
Qed.

(** ** Room for one more buffer *)
Lemma NoDup_size (l : list Z) (X : gset Z) :
  NoDup l -> (forall x, x ∈ l -> x ∈ X) -> (length l <= size X)%nat.
Proof.
  intros Hnd Hsub. rewrite <-(size_list_to_set (C := gset Z) l) by done.
  apply subseteq_size. intros x. rewrite elem_of_list_to_set. auto.
Qed.

Lemma zrange_length a b : a <= b -> Z.of_nat (length (zrange a b)) = b - a.
Proof. apply zlen_zrange. Qed.

Lemma ct_all_busy K me d a :
  contents K me d a ->
  (forall i c, K.[i] = Some c -> c_ref c <> 0 \/ c_flags c = PINNED) ->
  zlen K <= Z.of_nat (size (dirty a)) + Z.of_nat (size (held a)).
Proof.
  intros HC Hbusy.
  set (H := dom (held a)). set (I := zrange 0 (zlen K)).
  set (blk := fun i => match K.[i] with Some c => c_blockno c | None => 0 end).
  assert (HI : forall i, i ∈ I -> exists c, K.[i] = Some c).
  { intros i Hi%elem_of_zrange. by apply znth_lt. }
  pose proof (zrange_NoDup 0 (zlen K)) as Hnd. fold I in Hnd.
  assert (length (filter (fun i => i ∈ H) I) <= size H)%nat as H1.
  { apply NoDup_size; [by apply NoDup_filter|]. intros x Hx%list_elem_of_filter. tauto. }
  assert (Hpin : forall i, i ∈ filter (fun i => i ∉ H) I -> exists c, K.[i] = Some c /\ c_flags c = PINNED /\ c_dev c = ROOTDEV).
  { intros i [Hi HiI]%list_elem_of_filter. destruct (HI i HiI) as [c Hc].
    exists c. split; [done|].
    destruct (ct_ok _ _ _ _ HC i c Hc) as [_ [(Hr & _ & Hf)|(Hr & _)]].
    - destruct (Hbusy i c Hc) as [?|Hp]; [done|]. split; [done|].
      destruct Hf as [Hf|[(?&Hf&_)|(?&_)]]; [flag_absurd|flag_absurd|done].
    - exfalso. apply Hi. unfold H. apply elem_of_dom. exists (c_blockno c).
      apply (ct_held _ _ _ _ HC). eauto. }
  assert (length (blk <$> filter (fun i => i ∉ H) I) <= size (dirty a))%nat as H2.
  { apply NoDup_size.
    - apply NoDup_fmap_2_strong; [|by apply NoDup_filter].
      intros x y Hx Hy Hb. destruct (Hpin x Hx) as (cx & Kx & _ & Dx), (Hpin y Hy) as (cy & Ky & _ & Dy).
      unfold blk in Hb. rewrite Kx, Ky in Hb. by eapply (ct_uniq _ _ _ _ HC).
    - intros n (i & -> & Hi)%list_elem_of_fmap. destruct (Hpin i Hi) as (c & Kc & Fc & _).
      apply (ct_dirty _ _ _ _ HC). exists i, c. unfold blk. by rewrite Kc. }
  rewrite length_fmap in H2.
  assert (length I = length (filter (fun i => i ∈ H) I) + length (filter (fun i => i ∉ H) I))%nat as Hsum.
  { clear. induction I as [|i I IH]; [done|]. rewrite !filter_cons. repeat case_decide; cbn; try done; lia. }
  pose proof (zrange_length 0 (zlen K) (zlen_nonneg K)) as HL. fold I in HL.
  assert (size H = size (held a)) by apply size_dom. lia.
Qed.

Lemma find_None_all {A} (f : A -> bool) l x : List.find f l = None -> x ∈ l -> f x = false.
Proof. intros H Hx. apply (List.find_none f l H). by apply list_elem_of_In. Qed.

Lemma contents_flags s a p b :
  contents (cores s) (mypid s) (disk s) a -> (bufs (cache s)).[p] = Some b ->
  flags b = EMPTY \/ flags b = VALID \/ flags b = PINNED.
Proof.
  intros HC Hb. destruct (ct_ok _ _ _ _ HC p (core b) (cores_bufs _ _ _ Hb)) as [_ Hk]. cbn in Hk. naive_solver.
Qed.

Lemma contents_free s a p b n :
  contents (cores s) (mypid s) (disk s) a -> (bufs (cache s)).[p] = Some b ->
  ref_cnt b = 0 \/ (blockno b = n /\ forall h, held a !! h <> Some n) ->
  ref_cnt b = 0 /\ lock b = Sleeplock_new.
Proof.
  intros HC Hb Hcase. pose proof (cores_bufs _ _ _ Hb) as Hc.
  destruct (ct_ok _ _ _ _ HC p (core b) Hc) as [_ [(Hr & Hl & _)|(Hr & _)]]; [done|].
  cbn in Hr. destruct Hcase as [?|[Hn Hh]]; [lia|]. exfalso. apply (Hh p).
  apply (ct_held _ _ _ _ HC). eauto.
Qed.

(** ** [bget] and [read] *)
Lemma inc_ref_run s p b :
  (bufs (cache s)).[p] = Some b -> ref_cnt b = 0 ->
  exists s', inc_ref p s = Ret (tt, s') /\ same_env s s' /\ links s' = links s /\
    cores s' = (cores s).[p <- core (set_ref 1 b)] /\ (bufs (cache s')).[p] = Some (set_ref 1 b).
Proof.
  intros Hb Hr. pose proof (buf_at_run _ _ _ Hb) as A.
  destruct (upd_core_run s p b (set_ref 1) Hb eq_refl) as (s' & E & H). exists s'.
  split; [|exact H]. unfold inc_ref. rewrite (bind_run _ _ _ _ _ A), Hr. exact E.
Qed.

Lemma read_locate s d n p s1 :
  bget_locate d n s = Ret (Ok p, s1) ->
  read d n s = (buf_acquire p;; Buf_read p;; mret (Ok p)) s1.
Proof.
  intros E. unfold read, bget, try_, mbind, M_bind. rewrite E.
  by destruct (buf_acquire p s1) as [[[] s2]|e|].
Qed.

(** The buffer found for block [n] before it is locked. *)
Lemma bget_locate_run s a n :
  bio_rep s a -> (forall h, held a !! h <> Some n) ->
  n ∈ dirty a \/ Z.of_nat (size (dirty a)) + Z.of_nat (size (held a)) < zlen (bufs (cache s)) ->
  exists p c b s1, bget_locate ROOTDEV n s = Ret (Ok p, s1) /\
    (cores s).[p] = Some c /\ c_ref c = 0 /\ c_lock c = Sleeplock_new /\
    (bufs (cache s1)).[p] = Some b /\ ref_cnt b = 1 /\ dev b = ROOTDEV /\ blockno b = n /\
    lock b = Sleeplock_new /\ links s1 = links s /\ same_env s s1 /\
    cores s1 = (cores s).[p <- core b] /\
    ((c_dev c = ROOTDEV /\ c_blockno c = n /\ flags b = c_flags c /\ data b = c_data c) \/
     (flags b = EMPTY /\ c_flags c <> PINNED)) /\
    (flags b = EMPTY ->
     forall j cj, j <> p -> (cores s).[j] = Some cj -> c_dev cj = ROOTDEV -> c_blockno cj <> n).
Proof.
  intros ([l Hl] & Hme & HC & _) Hnh Hroom.
  pose proof (find_cached_dll _ _ _ _ ROOTDEV n Hl) as Ef.
  assert (Hin : forall i b, (bufs (cache s)).[i] = Some b -> i ∈ l).
  { intros i b Hb. destruct Hl as (_&_&_&_&Hall&_). apply Hall. rewrite zlen_links. by eapply znth_range. }
  unfold bget_locate. rewrite bind_gets. rewrite (bind_lift _ _ _ _ Ef).
  destruct (List.find (matchb (bufs (cache s)) ROOTDEV n) l) as [p|] eqn:Efind.
  - apply List.find_some in Efind as [Hp Hm]. unfold matchb in Hm.
    destruct (bufs (cache s)).[p] as [b|] eqn:Hb; [|done]. bool_to_prop.
    destruct (contents_free s a p b n HC Hb) as [Hr Hlk]; [by right|].
    destruct (inc_ref_run s p b Hb Hr) as (s1 & E1 & V1 & L1 & K1 & B1).
    exists p, (core b), (set_ref 1 b), s1. split; [by rewrite (bind_run _ _ _ _ _ E1)|].
    split; [by apply cores_bufs|]. do 10 (split; [done|]). split; [left; done|].
    intros _ j cj Hj Hcj Hdj Hbj. apply Hj.
    eapply (ct_uniq _ _ _ _ HC); [done|by apply cores_bufs|done|done|]. cbn. congruence.
  - pose proof (find_victim_dll _ _ _ _ Hl) as Ev. rewrite (bind_lift _ _ _ _ Ev).
    assert (Hother : forall j cj, (cores s).[j] = Some cj -> c_dev cj = ROOTDEV -> c_blockno cj <> n).
    { intros j cj Hcj Hdj Hbj. apply cores_Some in Hcj as (bj & Hbj' & <-).
      pose proof (find_None_all _ _ j Efind (Hin _ _ Hbj')) as Hf. unfold matchb in Hf.
      rewrite Hbj' in Hf. cbn in *. rewrite Hdj, Hbj in Hf. rewrite !Z.eqb_refl in Hf. done. }
    destruct (List.find (victimb (bufs (cache s))) (rev l)) as [p|] eqn:Efv.
    + apply List.find_some in Efv as [Hp Hm]. unfold victimb in Hm.
      destruct (bufs (cache s)).[p] as [b|] eqn:Hb; [|done]. bool_to_prop.
      destruct (contents_free s a p b n HC Hb) as [Hr Hlk]; [by left|].
      destruct (upd_core_run s p b (set_id ROOTDEV n) Hb eq_refl) as (s1 & E1 & V1 & L1 & K1 & B1).
      destruct (inc_ref_run s1 p _ B1 Hr) as (s2 & E2 & V2 & L2 & K2 & B2).
      destruct (upd_core_run s2 p _ (set_flags EMPTY) B2 eq_refl) as (s3 & E3 & V3 & L3 & K3 & B3).
      eexists p, (core b), _, s3.
      split; [by rewrite (bind_run _ _ _ _ _ E1), (bind_run _ _ _ _ _ E2), (bind_run _ _ _ _ _ E3)|].
      split; [by apply cores_bufs|]. split; [done|]. split; [done|]. split; [exact B3|].
      do 4 (split; [done|]). split; [congruence|].
      split; [by eapply same_env_trans; [|eapply same_env_trans]|].
      split; [by rewrite K3, K2, K1, !zset_zset|]. split.
      * right. split; [done|]. cbn. intros Hpin. rewrite Hpin in *. done.
      * intros _ j cj _. apply Hother.
    + exfalso. assert (Hbusy : forall i c, (cores s).[i] = Some c -> c_ref c <> 0 \/ c_flags c = PINNED).
      { intros i c Hc. apply cores_Some in Hc as (b & Hb & <-). cbn.
        assert (i ∈ rev l) as Hi by (apply list_elem_of_In, in_rev; rewrite rev_involutive;
          by eapply list_elem_of_In, Hin).
        pose proof (find_None_all _ _ i Efv Hi) as Hf. unfold victimb in Hf. rewrite Hb in Hf.
        apply andb_false_iff in Hf as [Hf|Hf]; bool_to_prop; [by left|right].
        destruct (contents_flags _ _ _ _ HC Hb) as [H|[H|H]]; [by rewrite H in Hf..|done]. }
      destruct Hroom as [Hd|Hroom].
      * apply (ct_dirty _ _ _ _ HC) in Hd as (i & c & Hc & Hb & Hf). eapply Hother; [done| |done].
        destruct (ct_ok _ _ _ _ HC i c Hc) as [_ [(_&_&[?|[(?&?&?)|(?&?)]])|(_&_&?&_)]]; try done; flag_absurd.
      * pose proof (ct_all_busy _ _ _ _ HC Hbusy) as Hle. rewrite zlen_cores in Hle. lia.
Qed.

Lemma read_law s a n :
  bio_rep s a -> (forall h, held a !! h <> Some n) ->
  n ∈ dirty a \/ Z.of_nat (size (dirty a)) + Z.of_nat (size (held a)) < zlen (bufs (cache s)) ->
  exists h s', read ROOTDEV n s = Ret (Ok h, s') /\ held a !! h = None /\
    zlen (bufs (cache s')) = zlen (bufs (cache s)) /\ bio_rep s' (dev_hold h n a).
Proof.
  intros Hrep Hnh Hroom.
  destruct (bget_locate_run s a n Hrep Hnh Hroom)
    as (p & c & b & s1 & E & Hc & Hr & Hlk & B1 & R1 & D1 & N1 & K1 & L1 & V1 & C1 & Hcase & Hoth).
  destruct Hrep as (Hl & Hme & HC & Hw).
  destruct (ct_ok _ _ _ _ HC p c Hc) as [Hlen Hk].
  assert (Hfl : flags b = EMPTY \/ flags b = VALID \/ flags b = PINNED).
  { destruct Hcase as [(_ & _ & -> & _)|[-> _]]; [|by left]. naive_solver. }
  destruct (finish_read s s1 p b n B1 R1 D1 N1 K1 Hme L1 V1 C1 Hfl) as (s2 & E2 & L2 & V2 & C2).
  exists p, s2. split; [by rewrite (read_locate _ _ _ _ _ E)|].
  split.
  { destruct (held a !! p) as [m|] eqn:Hh; [|done]. exfalso.
    apply (ct_held _ _ _ _ HC) in Hh as (c' & Hc' & Hr' & _). simplify_eq. lia. }
  split; [by rewrite <-!zlen_cores, C2, zlen_zset|].
  split; [by eapply linked_links|].
  destruct V2 as (_&_&Hpid&Hdisk&Hwr). rewrite Hpid, Hdisk, Hwr. split; [done|]. split; [|done].
  rewrite C2. eapply ct_acquire; [done|done|done|done| |].
  - case_match; [apply HC|]. destruct Hcase as [(_&_&_&->)|[HE _]]; [done|by rewrite HE in *].
  - destruct (Z.eqb_spec (flags b) EMPTY) as [HE|HE].
    + right. split; [|split; [done|split; [done|by apply Hoth]]].
      destruct Hcase as [(_&_&H&_)|[_ ?]]; [|done]. rewrite <-H, HE. auto.
    + left. destruct Hcase as [(?&?&?&?)|[? _]]; [|done]. repeat split; try done.
      destruct Hfl; done.
Qed.

Lemma held_buf s a h n :
  bio_rep s a -> held a !! h = Some n ->
  exists b, (bufs (cache s)).[h] = Some b /\ ref_cnt b = 1 /\ blockno b = n /\ dev b = ROOTDEV /\
    lock b = mkSleeplock true (mypid s) /\ (flags b = VALID \/ flags b = PINNED) /\
    data b = view a n /\ caches (core b) n.
Proof.
  intros (_ & _ & HC & _) Hh. pose proof Hh as Hh'.
  apply (ct_held _ _ _ _ HC) in Hh as (c & Hc & Hr & Hb).
  destruct (cores_Some _ _ _ Hc) as (b & Hbuf & <-). cbn in *.
  destruct (ct_ok _ _ _ _ HC h _ Hc) as [_ [(?&_)|(_ & Hl & Hd & Hf)]]; cbn in *; [lia|].
  assert (caches (core b) n) as Hca by done.
  exists b. do 6 (split; [done|]). split; [|done]. symmetry. by apply (ct_sees_cached _ _ _ _ HC h (core b)).
Qed.

Lemma is_locked_run s h b :
  (bufs (cache s)).[h] = Some b -> lock b = mkSleeplock true (mypid s) ->
  is_locked h s = Ret (true, s).
Proof.
  intros Hb Hl. unfold is_locked. rewrite (bind_run _ _ _ _ _ (buf_at_run _ _ _ Hb)), bind_gets.
  unfold Sleeplock_holding. rewrite Hl. cbn. by rewrite Z.eqb_refl.
Qed.

(** ** The operations by handle *)
Definition buf_data (p : Z) : M Bio (list Z) := b ← buf_at p; mret (data b).
Definition buf_store (p : Z) (d : list Z) : M Bio unit := upd p (set_data d).
Definition buf_blockno (p : Z) : M Bio Z := b ← buf_at p; mret (blockno b).
(** [bp.set_flags(bp.flags() | DIRTY)], as [fslog::write] does. *)
Definition buf_pin (p : Z) : M Bio unit :=
  b ← buf_at p; upd p (set_flags (Z.lor (flags b) DIRTY)).

#[export] Instance bio_ops : BlockOps Bio := {|
  bread := read; brelse := relse; bdata := buf_data; bset := buf_store;
  bwrite := Buf_write; bblockno := buf_blockno; bis_locked := is_locked; bpin := buf_pin |}.

Lemma store_law s a h n d :
  bio_rep s a -> held a !! h = Some n -> zlen d = BSIZE ->
  exists s', buf_store h d s = Ret (tt, s') /\ zlen (bufs (cache s')) = zlen (bufs (cache s)) /\
    bio_rep s' (dev_set n d a).
Proof.
  intros Hrep Hh Hd. destruct (held_buf _ _ _ _ Hrep Hh) as (b & Hb & Hr & Hn & _).
  destruct (upd_core_run s h b (set_data d) Hb eq_refl) as (s' & E & V & L & K & _).
  exists s'. split; [exact E|]. split; [by rewrite <-!zlen_cores, K, zlen_zset|].
  destruct Hrep as (Hl & Hme & HC & Hw). split; [by eapply linked_links|].
  destruct V as (_&_&->&->&->). split; [done|]. split; [|done].
  rewrite K. pose proof (ct_setdata _ _ _ _ HC h (core b) n d (cores_bufs _ _ _ Hb) Hr Hn Hd) as H.
  cbn in H. rewrite <-Hn in *. exact H.
Qed.

Lemma pin_law s a h n :
  bio_rep s a -> held a !! h = Some n ->
  exists s', buf_pin h s = Ret (tt, s') /\ zlen (bufs (cache s')) = zlen (bufs (cache s)) /\
    bio_rep s' (dev_pin n a).
Proof.
  intros Hrep Hh. destruct (held_buf _ _ _ _ Hrep Hh) as (b & Hb & Hr & Hn & _ & _ & Hf & _).
  assert (Z.lor (flags b) DIRTY = PINNED) as Hp by (by destruct Hf as [-> | ->]).
  destruct (upd_core_run s h b (set_flags PINNED) Hb eq_refl) as (s' & E & V & L & K & _).
  exists s'. split; [unfold buf_pin; by rewrite (bind_run _ _ _ _ _ (buf_at_run _ _ _ Hb)), Hp|].
  split; [by rewrite <-!zlen_cores, K, zlen_zset|].
  destruct Hrep as (Hl & Hme & HC & Hw). split; [by eapply linked_links|].
  destruct V as (_&_&->&->&->). split; [done|]. split; [|done].
  rewrite K. pose proof (ct_pin _ _ _ _ HC h (core b) n (cores_bufs _ _ _ Hb) Hr Hn) as H.
  cbn in H. rewrite <-Hn in *. exact H.
Qed.

Lemma write_law s a h n :
  bio_rep s a -> held a !! h = Some n ->
  exists s', Buf_write h s = Ret (tt, s') /\ zlen (bufs (cache s')) = zlen (bufs (cache s)) /\
    bio_rep s' (dev_flush n a).
Proof.
  intros Hrep Hh. destruct (held_buf _ _ _ _ Hrep Hh) as (b & Hb & Hr & Hn & _ & Hl & Hf & Hdt & _).
  assert (Z.lor (flags b) DIRTY = PINNED) as Hp by (by destruct Hf as [-> | ->]).
  destruct (upd_core_run s h b (set_flags PINNED) Hb eq_refl) as (s1 & E1 & V1 & L1 & K1 & B1).
  set (s2 := mkBio (cache s1) (mypid s1)
    (fun m => if m =? n then data b else disk s1 m) (writes s1 ++ [(n, data b)])).
  assert (B2 : (bufs (cache s2)).[h] = Some (set_flags PINNED b)) by exact B1.
  destruct (upd_core_run s2 h _ (set_flags VALID) B2 eq_refl) as (s3 & E3 & V3 & L3 & K3 & B3).
  exists s3. split.
  { unfold Buf_write. rewrite (bind_run _ _ _ _ _ (is_locked_run _ _ _ Hb Hl)), bind_assert by done.
    rewrite (bind_run _ _ _ _ _ (buf_at_run _ _ _ Hb)), Hp, (bind_run _ _ _ _ _ E1).
    assert (lock (set_flags PINNED b) = mkSleeplock true (mypid s1)) as Hl1.
    { cbn. destruct V1 as (_&_&->&_). done. }
    unfold rdwr. rewrite (bind_run _ _ _ _ _ (is_locked_run _ _ _ B1 Hl1)), bind_assert by done.
    rewrite (bind_run _ _ _ _ _ (buf_at_run _ _ _ B1)), bind_assert by done.
    unfold transfer. rewrite (bind_run _ _ _ _ _ (buf_at_run _ _ _ B1)).
    change (flags_contains (flags (set_flags PINNED b)) DIRTY) with true. cbv iota.
    rewrite bind_modify. cbn [blockno set_flags data]. rewrite Hn. exact E3. }
  assert (cores s3 = (cores s).[h <- core (set_flags VALID (set_flags PINNED b))]) as HK.
  { rewrite K3. change (cores s2) with (cores s1). by rewrite K1, zset_zset. }
  split; [by rewrite <-!zlen_cores, HK, zlen_zset|].
  destruct Hrep as (Hlk & Hme & HC & Hw). split.
  { eapply linked_links; [exact L3|done|]. change (linked s2) with (linked s1).
    destruct Hlk as [l Hlk]. exists l. destruct V1 as (Vh & Vt & _). cbn. change (links s2) with (links s1).
    by rewrite L1, Vh, Vt. }
  destruct V1 as (_&_&P1&Dk1&W1), V3 as (_&_&P3&Dk3&W3).
  assert (mypid s3 = mypid s) as -> by (rewrite P3; exact P1). split; [done|].
  rewrite W3, Dk3, HK. unfold s2. cbn [disk writes]. rewrite Dk1, W1, Hdt. cbn [wlog dev_flush].
  split; [|by rewrite Hw].
  pose proof (ct_flush _ _ _ _ HC h (core b) n (cores_bufs _ _ _ Hb) Hr Hn) as H.
  cbn in H. rewrite <-Hdt. unfold fupd in H. rewrite <-Hn in *. exact H.
Qed.

Lemma relse_law s a h n :
  bio_rep s a -> held a !! h = Some n -> n ∈ dirty a \/ view a n = media a n ->
  exists s', relse h s = Ret (tt, s') /\ zlen (bufs (cache s')) = zlen (bufs (cache s)) /\
    bio_rep s' (dev_drop h a).
Proof.
  intros Hrep Hh Hcl. destruct (held_buf _ _ _ _ Hrep Hh) as (b & Hb & Hr & Hn & _ & Hl & Hf & Hdt & _).
  destruct (upd_core_run s h b (set_lock Sleeplock_new) Hb eq_refl) as (s1 & E1 & V1 & L1 & K1 & B1).
  destruct (upd_core_run s1 h _ (set_ref 0) B1 eq_refl) as (s2 & E2 & V2 & L2 & K2 & B2).
  destruct Hrep as ([l Hlk] & Hme & HC & Hw).
  assert (Hin : h ∈ l).
  { destruct Hlk as (_&_&_&_&Hall&_). apply Hall. rewrite zlen_links. by eapply znth_range. }
  apply list_elem_of_split in Hin as (l1 & l2 & ->).
  assert (dll (links s2) (head (cache s2)) (tail (cache s2)) (l1 ++ h :: l2)) as Hd2.
  { destruct V1 as (Vh1 & Vt1 & _), V2 as (Vh2 & Vt2 & _). rewrite L2, L1, Vh2, Vh1, Vt2, Vt1. exact Hlk. }
  destruct (relse_move_run s2 l1 h l2 Hd2) as (s3 & E3 & K3 & P3 & Dk3 & W3 & Hd3).
  exists s3. split.
  { unfold relse. rewrite (bind_run _ _ _ _ _ (is_locked_run _ _ _ Hb Hl)), bind_assert by done.
    rewrite (bind_run _ _ _ _ _ (buf_at_run _ _ _ Hb)), bind_gets.
    rewrite (bind_lift _ _ _ Sleeplock_new); last first.
    { unfold Sleeplock_release, Sleeplock_holding. rewrite Hl. cbn. by rewrite Z.eqb_refl. }
    rewrite (bind_run _ _ _ _ _ E1).
    assert (dec_ref h s1 = Ret (0, s2)) as Ed.
    { unfold dec_ref. rewrite (bind_run _ _ _ _ _ (buf_at_run _ _ _ B1)).
      cbn [ref_cnt set_lock]. rewrite Hr. rewrite (bind_lift _ _ _ 0) by done.
      by rewrite (bind_run _ _ _ _ _ E2). }
    by rewrite (bind_run _ _ _ _ _ Ed). }
  assert (cores s3 = (cores s).[h <- core (set_ref 0 (set_lock Sleeplock_new b))]) as HK.
  { by rewrite K3, K2, K1, zset_zset. }
  split; [by rewrite <-!zlen_cores, HK, zlen_zset|].
  destruct V1 as (_&_&P1&Dk1&W1), V2 as (_&_&P2&Dk2&W2).
  split; [by exists (h :: l1 ++ l2)|]. rewrite P3, P2, P1, W3, W2, W1, Dk3, Dk2, Dk1.
  split; [done|]. split; [|done]. rewrite HK.
  pose proof (ct_release _ _ _ _ HC h (core b) n (cores_bufs _ _ _ Hb) Hr Hn Hcl) as H.
  cbn in H. rewrite <-Hn in *. exact H.
Qed.

(** ** The cache keeps the interface's promises *)
Definition bio_rep_n (len : Z) (s : Bio) (a : Dev) : Prop :=
  bio_rep s a /\ zlen (bufs (cache s)) = len.

#[export, refine] Instance bio_laws : BlockLaws Bio := {|
  rep := bio_rep_n NBUF; capacity := NBUF; medium := disk; written := writes |}.
Proof.
  - intros s a n [(_ & _ & HC & _) _]. apply (ct_media _ _ _ _ HC).
  - by intros s a [(_ & _ & _ & Hw) _].
  - intros s a n [Hr Hz] _ Hh Hroom. rewrite <-Hz in Hroom.
    destruct (read_law s a n Hr Hh Hroom) as (h & s' & E & Hn & Hl & Hr').
    exists h, s'. split; [exact E|]. split; [done|]. split; [done|congruence].
  - intros s a h n [Hr Hz] Hh Hcl. destruct (relse_law s a h n Hr Hh Hcl) as (s' & E & Hl & Hr').
    exists s'. split; [exact E|]. split; [done|congruence].
  - intros s a h n [Hr Hz] Hh. destruct (held_buf _ _ _ _ Hr Hh) as (b & Hb & _ & _ & _ & _ & _ & Hd & _).
    cbn. unfold buf_data. by rewrite (bind_run _ _ _ _ _ (buf_at_run _ _ _ Hb)), Hd.
  - intros s a h n d [Hr Hz] Hh Hd. destruct (store_law s a h n d Hr Hh Hd) as (s' & E & Hl & Hr').
    exists s'. split; [exact E|]. split; [done|congruence].
  - intros s a h n [Hr Hz] Hh. destruct (write_law s a h n Hr Hh) as (s' & E & Hl & Hr').
    exists s'. split; [exact E|]. split; [done|congruence].
  - intros s a h n [Hr Hz] Hh. destruct (held_buf _ _ _ _ Hr Hh) as (b & Hb & _ & Hn & _).
    cbn. unfold buf_blockno. by rewrite (bind_run _ _ _ _ _ (buf_at_run _ _ _ Hb)), Hn.
  - intros s a h n [Hr Hz] Hh. destruct (held_buf _ _ _ _ Hr Hh) as (b & Hb & _ & _ & _ & Hl & _).
    by apply (is_locked_run _ _ b).
  - intros s a h n [Hr Hz] Hh. destruct (pin_law s a h n Hr Hh) as (s' & E & Hl & Hr').
    exists s'. split; [exact E|]. split; [done|congruence].
  - intros s a n [(_ & _ & HC & _) _].
    destruct (ct_view _ _ _ _ HC n) as [(i & c & Hi & _ & <-)|[_ ->]]; [|apply HC].
    by apply (ct_ok _ _ _ _ HC i c).
  - intros s a n [(_ & _ & HC & _) _]. apply (ct_clean _ _ _ _ HC).
Defined.

(** ** Initialisation *)
Lemma seg_seq L len (k m : nat) :
  Z.of_nat (k + m) = len -> len < LIST_NONE ->
  (forall i, 0 <= i < len -> L.[i] = Some (mkLink i (if 0 <? i then i - 1 else LIST_NONE)
                                       (if i + 1 <? len then i + 1 else LIST_NONE))) ->
  seg L (if (0 <? Z.of_nat k) then Z.of_nat k - 1 else LIST_NONE) (Z.of_nat <$> seq k m) LIST_NONE.
Proof.
  intros Hkm Hlen HL. revert k Hkm. induction m as [|m IH]; intros k Hkm; [done|].
  cbn. split.
  - rewrite HL by lia. do 2 f_equal. destruct m as [|m]; cbn.
    + rewrite (proj2 (Z.ltb_ge (Z.of_nat k + 1) len)) by lia. done.
    + rewrite (proj2 (Z.ltb_lt (Z.of_nat k + 1) len)) by lia. lia.
  - specialize (IH (S k) ltac:(lia)).
    rewrite (proj2 (Z.ltb_lt 0 (Z.of_nat (S k)))) in IH by lia.
    replace (Z.of_nat (S k) - 1) with (Z.of_nat k) in IH by lia. exact IH.
Qed.

Lemma seg_dll L len :
  zlen L = len -> 1 < len < LIST_NONE ->
  (forall i, 0 <= i < len -> L.[i] = Some (mkLink i (if 0 <? i then i - 1 else LIST_NONE)
                                       (if i + 1 <? len then i + 1 else LIST_NONE))) ->
  dll L 0 (len - 1) (Z.of_nat <$> seq 0 (Z.to_nat len)).
Proof.
  intros HlL Hlen HL. split; [apply (seg_seq L len 0); [lia|lia|done]|].
  assert (exists n, Z.to_nat len = S n /\ len = Z.of_nat n + 1) as (n & Hn & Hn') by (exists (Z.to_nat (len - 1)); lia).
  split; [by rewrite Hn|]. split.
  { rewrite Hn, seq_S, fmap_app. cbn. rewrite List.last_last. lia. }
  split; [apply NoDup_fmap_2; [intros x y; lia|apply NoDup_seq]|].
  split; [|split; [lia|by rewrite Hn]].
  intros i. rewrite list_elem_of_fmap, HlL. split.
  - intros (k & -> & Hk%elem_of_seq). lia.
  - intros. exists (Z.to_nat i). rewrite elem_of_seq. lia.
Qed.

Lemma init_buf_lookup len page l i :
  (imap (fun k b => init_buf len (Z.of_nat k) page b) l).[i] =
  (fun b => init_buf len i page b) <$> l.[i].
Proof.
  unfold znth, zlen. rewrite length_imap. case_match eqn:E; [|done]. bool_to_prop.
  rewrite list_lookup_imap. destruct (l !! Z.to_nat i); cbn; [|done]. by rewrite Z2Nat.id.
Qed.

(** A fresh cache over the disk [d] represents [d] with nothing held or pinned. *)
Lemma init_represents page pid0 d :
  zlen page = BSIZE -> pid0 <> 0 -> (forall n, zlen (d n) = BSIZE) ->
  exists c, init page BCache_new = Ret c /\
    rep (mkBio c pid0 d []) (mkDev d d ∅ ∅ []).
Proof.
  intros Hpage Hpid Hd. unfold init. assert (zlen (bufs BCache_new) = NBUF) as Hlen by done.
  rewrite Hlen. change (1 <? NBUF) with true. cbv iota. eexists. split; [done|].
  set (bs := imap _ _).
  assert (HB : forall i, 0 <= i < NBUF -> bs.[i] = Some (init_buf NBUF i page Buf_new)).
  { intros i Hi. unfold bs. rewrite init_buf_lookup. cbn [bufs BCache_new]. by rewrite znth_rep. }
  assert (zlen bs = NBUF) as Hbs by (unfold bs, zlen; by rewrite length_imap).
  assert (Hcore : forall i c, (core <$> bs).[i] = Some c ->
    c = mkCore Sleeplock_new EMPTY 0 0 0 page).
  { intros i c Hc. pose proof (znth_range _ _ _ Hc) as Hi. rewrite zlen_fmap, Hbs in Hi.
    rewrite znth_fmap, HB in Hc by done. cbn in Hc. simplify_eq. unfold init_buf, core.
    by destruct (i + 1 <? NBUF), (0 <? i). }
  split; [|exact Hbs]. split; [|split; [done|split; [|done]]].
  - exists (Z.of_nat <$> seq 0 (Z.to_nat NBUF)). unfold links. cbn [cache bufs head tail].
    apply (seg_dll _ NBUF); [by rewrite zlen_fmap|done|].
    intros i Hi. rewrite znth_fmap, HB by done. cbn. unfold init_buf, link.
    by destruct (i + 1 <? NBUF), (0 <? i).
  - unfold cores. cbn [cache bufs mypid disk]. split.
    + intros i j ci cj Hi Hj Hdi. by rewrite (Hcore _ _ Hi) in Hdi.
    + intros i c Hc. rewrite (Hcore _ _ Hc). split; [done|]. left. by repeat split; left.
    + intros n. right. split; [|done]. intros i c Hc (Hdc & _). by rewrite (Hcore _ _ Hc) in Hdc.
    + done.
    + done.
    + intros n. split; [by intros ?%not_elem_of_empty|]. intros (i & c & Hc & _ & Hf). by rewrite (Hcore _ _ Hc) in Hf.
    + intros h n. split; [done|]. intros (c & Hc & Hr & _). by rewrite (Hcore _ _ Hc) in Hr.
Qed.
