(* ===== verification/BioSpec.v ===== *)
(** What the buffer cache and the disk queue promise: every operation on a
    buffer refines the abstract device, release and recycling follow least
    recently used order, and disk requests are served first in, first out. *)
From stdpp Require Import base list gmap strings.
From Stdlib Require Import ZArith Lia.
From S2P Require Import Prelude.
From S2P Require Import Arch.
From S2P Require Import Sleeplock.
From S2P Require Import BlockLayer.
From S2P Require Import Bio.

(** ** The disk queue: [bio::enqueue], [bio::dequeue] on the [qnext] links *)
Fixpoint queue_last (fuel : nat) (bs : list Buf) (p : Z) : outcome Z :=
  match fuel with
  | O => Diverge
  | S fuel' =>
    match bs.[p] with
    | None => Panic "index out of bounds"
    | Some b => if qnext b =? LIST_NONE then Ret p else queue_last fuel' bs (qnext b)
    end
  end.

Definition enqueue (hd : option Z) (p : Z) : M Bio (option Z) :=
  upd p (set_qnext LIST_NONE);;
  match hd with
  | Some h =>
    b ← buf_at p;
    bs ← gets (fun s => bufs (cache s));
    t ← lift (queue_last (S (length bs)) bs h);
    upd t (set_qnext (self_ptr b));;
    mret (Some h)
  | None => mret (Some p)
  end.

Definition dequeue (hd : option Z) : M Bio (option (Z * option Z)) :=
  match hd with
  | Some h =>
    b ← buf_at h;
    if negb (qnext b =? LIST_NONE)
    then buf_at (qnext b);; mret (Some (h, Some (qnext b)))
    else mret (Some (h, None))
  | None => mret None
  end.

(** The queued buffers, in order, threaded through [qnext]. *)
Fixpoint qseg (bs : list Buf) (l : list Z) : Prop :=
  match l with
  | [] => True
  | p :: l' => (exists b, bs.[p] = Some b /\ qnext b = List.hd LIST_NONE l') /\ qseg bs l'
  end.
Definition queue_is (bs : list Buf) (hd : option Z) (l : list Z) : Prop :=
  hd = List.hd_error l /\ qseg bs l /\ NoDup l /\ zlen bs < LIST_NONE.

Lemma qseg_frame bs l p x : p ∉ l -> qseg bs l -> qseg bs.[p <- x] l.
Proof.
  induction l as [|q l IH]; intros Hn; [done|]. apply not_elem_of_cons in Hn as [Hne Hn].
  intros [(b & Hb & Hq) H2]. split; [|auto]. exists b. by rewrite znth_zset_ne.
Qed.


Lemma qseg_range bs l p : qseg bs l -> p ∈ l -> 0 <= p < zlen bs.
Proof.
  induction l as [|q l IH]; [by intros _ ?%not_elem_of_nil|].
  intros [(b & Hb & _) H] [->|Hp]%elem_of_cons; [by eapply znth_range|auto].
Qed.

Lemma queue_last_run bs l q fuel :
  qseg bs (l ++ [q]) -> zlen bs < LIST_NONE -> (length l < fuel)%nat ->
  queue_last fuel bs (List.hd q l) = Ret q.
Proof.
  revert fuel. induction l as [|p l IH]; intros [|fuel] Hs Hl Hf; cbn in Hf; try lia.
  - destruct Hs as [(b & Hb & Hq) _]. cbn in *. by rewrite Hb, Hq.
  - destruct Hs as [(b & Hb & Hq) Hs]. cbn. rewrite Hb, Hq.
    assert (List.hd LIST_NONE (l ++ [q]) = List.hd q l) as E by (by destruct l).
    rewrite E. assert (List.hd q l ∈ l ++ [q]) as Hin by (destruct l; set_solver).
    pose proof (qseg_range _ _ _ Hs Hin).
    rewrite (proj2 (Z.eqb_neq _ LIST_NONE)) by lia. apply IH; [done|done|lia].
Qed.

Lemma qseg_snoc bs l q p b :
  qseg bs (l ++ [q]) -> NoDup (l ++ [q]) -> bs.[q] = Some b -> bs.[p] <> None ->
  p ∉ l ++ [q] -> (forall b', bs.[p] = Some b' -> qnext b' = LIST_NONE) ->
  qseg bs.[q <- set_qnext p b] ((l ++ [q]) ++ [p]).
Proof.
  intros Hs Hnd Hq Hp Hni Hpq. pose proof (znth_range _ _ _ Hq).
  induction l as [|a l IH]; cbn in *.
  - split; [exists (set_qnext p b); by rewrite znth_zset_eq|]. split; [|done].
    destruct bs.[p] as [b'|] eqn:E; [|done]. exists b'.
    rewrite znth_zset_ne by set_solver. auto.
  - destruct Hs as [(x & Hx & Ex) Hs]. apply NoDup_cons in Hnd as [Ha Hnd]. split.
    + exists x. rewrite znth_zset_ne by set_solver. split; [done|]. rewrite Ex.
      by destruct l.
    + apply IH; [done|done|set_solver].
Qed.

Lemma NoDup_snoc (l : list Z) p : NoDup l -> p ∉ l -> NoDup (l ++ [p]).
Proof.
  intros. apply NoDup_app. split; [done|]. split; [set_solver|apply NoDup_singleton].
Qed.

Lemma upd_qnext_run s p b v :
  (bufs (cache s)).[p] = Some b ->
  exists s', upd p (set_qnext v) s = Ret (tt, s') /\ same_env s s' /\ links s' = links s /\
    cores s' = cores s /\ bufs (cache s') = (bufs (cache s)).[p <- set_qnext v b].
Proof.
  intros Hb. destruct (upd_run s p b (set_qnext v) Hb) as (s' & E & V & L & K & B).
  exists s'. split; [done|]. split; [done|]. rewrite L, K.
  split; [exact (zset_id _ _ _ (links_bufs _ _ _ Hb))|].
  split; [exact (zset_id _ _ _ (cores_bufs _ _ _ Hb))|done].
Qed.

(** [enqueue] appends: the order of the buffers already queued is kept. *)
Lemma enqueue_run s hd l p b :
  queue_is (bufs (cache s)) hd l -> (bufs (cache s)).[p] = Some b -> self_ptr b = p -> p ∉ l ->
  exists s', enqueue hd p s = Ret (List.hd_error (l ++ [p]), s') /\
    queue_is (bufs (cache s')) (List.hd_error (l ++ [p])) (l ++ [p]) /\
    links s' = links s /\ cores s' = cores s /\ same_env s s'.
Proof.
  intros (-> & Hs & Hnd & Hlen) Hb Hself Hp. pose proof (znth_range _ _ _ Hb) as Hr.
  destruct (upd_qnext_run s p b LIST_NONE Hb) as (s1 & E1 & V1 & L1 & K1 & B1).
  assert (zlen (bufs (cache s1)) < LIST_NONE) as Hlen1 by (by rewrite B1, zlen_zset).
  assert (Hb1 : (bufs (cache s1)).[p] = Some (set_qnext LIST_NONE b)) by (by rewrite B1, znth_zset_eq).
  assert (Hs1 : qseg (bufs (cache s1)) l) by (rewrite B1; by apply qseg_frame).
  unfold enqueue. rewrite (bind_run _ _ _ _ _ E1).
  destruct l as [|q l _] using rev_ind.
  - exists s1. split; [done|]. split; [|done]. split; [done|].
    split; [split; [by eexists|done]|]. split; [apply NoDup_singleton|done].
  - assert (exists bq, (bufs (cache s1)).[q] = Some bq) as [bq Hq].
    { apply znth_lt. eapply qseg_range; [done|set_solver]. }
    destruct (upd_qnext_run s1 q bq p Hq) as (s2 & E2 & V2 & L2 & K2 & B2).
    assert (List.hd_error (l ++ [q]) = Some (List.hd q l)) as Eh by (by destruct l).
    assert (List.hd_error ((l ++ [q]) ++ [p]) = Some (List.hd q l)) as Eh' by (by destruct l).
    rewrite Eh, Eh'. exists s2. split; [|split].
    + rewrite (bind_run _ _ _ _ _ (buf_at_run _ _ _ Hb1)), bind_gets.
      rewrite (bind_lift _ _ _ q); last first.
      { apply queue_last_run; [done|done|].
        pose proof (submseteq_length l (zrange 0 (zlen (bufs (cache s1))))) as Hsub.
        rewrite <-(Nat2Z.id (length (zrange _ _))), zrange_length in Hsub by apply zlen_nonneg.
        rewrite Z.sub_0_r in Hsub. unfold zlen in Hsub at 2. rewrite Nat2Z.id in Hsub.
        apply Nat.lt_succ_r, Hsub, NoDup_submseteq; [by apply NoDup_app in Hnd as [? _]|].
        intros i Hi. apply elem_of_zrange. eapply qseg_range; [done|set_solver]. }
      cbn [self_ptr set_qnext]. rewrite Hself. by rewrite (bind_run _ _ _ _ _ E2).
    + rewrite B2. split; [done|]. split; [|split; [by apply NoDup_snoc|by rewrite zlen_zset]].
      apply qseg_snoc; [done|done|done|by rewrite Hb1|done|]. rewrite Hb1. by intros ? [= <-].
    + rewrite L2, L1, K2, K1. split; [done|]. split; [done|by eapply same_env_trans].
Qed.

(** [dequeue] takes the oldest and returns the rest of the queue. *)
Lemma dequeue_run s l :
  queue_is (bufs (cache s)) (List.hd_error l) l ->
  dequeue (List.hd_error l) s =
    Ret (match l with [] => None | p :: l' => Some (p, List.hd_error l') end, s).
Proof.
  intros (_ & Hs & Hnd & Hlen). destruct l as [|p l]; [done|].
  destruct Hs as [(b & Hb & Hq) Hs]. cbn. rewrite (bind_run _ _ _ _ _ (buf_at_run _ _ _ Hb)), Hq.
  destruct l as [|p' l]; cbn; [done|].
  destruct Hs as [(b' & Hb' & _) _]. pose proof (znth_range _ _ _ Hb').
  rewrite (proj2 (Z.eqb_neq p' LIST_NONE)) by lia. cbn.
  by rewrite (bind_run _ _ _ _ _ (buf_at_run _ _ _ Hb')).
Qed.

Lemma queue_tail bs p l : queue_is bs (Some p) (p :: l) -> queue_is bs (List.hd_error l) l.
Proof. intros (_ & [_ Hs] & Hnd & Hl). apply NoDup_cons in Hnd as [_ Hnd]. done. Qed.

(** The disk queue is first in, first out: [enqueue] of a buffer on the
    queue [l] succeeds, changes only queue links and leaves [l ++ [p]]; then
    [dequeue] returns the head of that queue, and what is left of it is again
    a queue, its tail, which is where the next [dequeue] starts. *)
Theorem disk_queue_fifo s hd l p b :
  queue_is (bufs (cache s)) hd l -> (bufs (cache s)).[p] = Some b -> self_ptr b = p -> p ∉ l ->
  exists s' q l', enqueue hd p s = Ret (Some q, s') /\ l ++ [p] = q :: l' /\
    links s' = links s /\ cores s' = cores s /\ disk s' = disk s /\ writes s' = writes s /\
    queue_is (bufs (cache s')) (Some q) (l ++ [p]) /\
    dequeue (Some q) s' = Ret (Some (q, List.hd_error l'), s') /\
    queue_is (bufs (cache s')) (List.hd_error l') l'.
Proof.
  intros Hq Hb Hself Hp. destruct (enqueue_run s hd l p b Hq Hb Hself Hp) as (s' & E & Hq' & L & K & V).
  destruct (l ++ [p]) as [|q l'] eqn:El; [by destruct l|]. exists s', q, l'.
  destruct V as (_ & _ & _ & ? & ?). do 7 (split; [done|]).
  split; [apply (dequeue_run s' (q :: l') Hq')|by eapply queue_tail].
Qed.

(** A cache of three buffers, linked 0, 1, 2, over a disk whose blocks are
    cut to two bytes. *)
Definition three_bufs : BCache :=
  mkBCache 0 2 ((fun k => init_buf 3 k [0; 0] Buf_new) <$> [0; 1; 2]).
Definition three : Bio := mkBio three_bufs 1 (fun n => [n; 0]) [].

Lemma three_dll : dll (links three) (head (cache three)) (tail (cache three)) [0; 1; 2].
Proof.
  apply (seg_dll _ 3); [done|done|]. intros i Hi.
  assert (i = 0 \/ i = 1 \/ i = 2) as [-> | [-> | ->]] by lia; done.
Qed.

Lemma disk_queue_fifo_witness :
  exists s', (s ← enqueue None 2; t ← enqueue s 0; dequeue t) three = Ret (Some (2, Some 0), s').
Proof.
  assert (Hq0 : queue_is (bufs (cache three)) None []) by (split; [done|split; [done|split; [apply NoDup_nil_2|done]]]).
  destruct (disk_queue_fifo three None [] 2 _ Hq0 eq_refl eq_refl (not_elem_of_nil 2))
    as (s1 & q & l' & E1 & [= <- <-] & L1 & _ & _ & _ & Hq1 & _).
  assert (exists b, (bufs (cache s1)).[0] = Some b /\ self_ptr b = 0) as (b & Hb & Hself).
  { assert ((links s1).[0] = Some (mkLink 0 LIST_NONE 1)) as H by (by rewrite L1).
    apply links_Some in H as (b & Hb & H). exists b. by injection H. }
  destruct (disk_queue_fifo s1 (Some 2) [2] 0 b Hq1 Hb Hself ltac:(set_solver))
    as (s2 & q & l' & E2 & [= <- <-] & _ & _ & _ & _ & _ & Hd & _).
  exists s2. rewrite (bind_run _ _ _ _ _ E1), (bind_run _ _ _ _ _ E2). exact Hd.
Defined.

(** ** Least recently used order *)
Lemma find_all_None {A} (f : A -> bool) l : (forall x, x ∈ l -> f x = false) -> List.find f l = None.
Proof.
  induction l as [|a l IH]; intros H; [done|]. cbn. rewrite H by set_solver. apply IH. set_solver.
Qed.

Lemma find_app_None {A} (f : A -> bool) l1 l2 :
  (forall x, x ∈ l1 -> f x = false) -> List.find f (l1 ++ l2) = List.find f l2.
Proof.
  induction l1 as [|a l IH]; intros H; [done|]. cbn. rewrite H by set_solver. apply IH. set_solver.
Qed.

(** Releasing the last reference to a buffer held by the caller unlocks
    it and makes it the most recently used one: the list [l1 ++ p :: l2]
    becomes [p :: l1 ++ l2], the order of all others kept, both link
    directions and both ends consistent, and no buffer's contents change
    besides the lock and the count of [p]. *)
Theorem relse_moves_to_front s l1 p l2 b :
  dll (links s) (head (cache s)) (tail (cache s)) (l1 ++ p :: l2) ->
  (bufs (cache s)).[p] = Some b -> lock b = mkSleeplock true (mypid s) -> ref_cnt b = 1 ->
  exists s', relse p s = Ret (tt, s') /\
    dll (links s') (head (cache s')) (tail (cache s')) (p :: l1 ++ l2) /\
    cores s' = (cores s).[p <- core (set_ref 0 (set_lock Sleeplock_new b))] /\
    disk s' = disk s /\ writes s' = writes s.
Proof.
  intros Hd Hb Hl Hr.
  destruct (upd_core_run s p b (set_lock Sleeplock_new) Hb eq_refl) as (s1 & E1 & V1 & L1 & K1 & B1).
  destruct (upd_core_run s1 p _ (set_ref 0) B1 eq_refl) as (s2 & E2 & V2 & L2 & K2 & B2).
  pose proof (same_env_trans _ _ _ V1 V2) as (Vh & Vt & _ & Vd & Vw).
  destruct (relse_move_run s2 l1 p l2) as (s3 & E3 & K3 & _ & D3 & W3 & Hd3).
  { by rewrite L2, L1, Vh, Vt. }
  exists s3. split; [|rewrite K3, K2, K1, zset_zset, D3, W3; done].
  unfold relse. rewrite (bind_run _ _ _ _ _ (is_locked_run _ _ _ Hb Hl)), bind_assert by done.
  rewrite (bind_run _ _ _ _ _ (buf_at_run _ _ _ Hb)), bind_gets.
  rewrite (bind_lift _ _ _ Sleeplock_new); last first.
  { unfold Sleeplock_release, Sleeplock_holding. rewrite Hl. cbn. by rewrite Z.eqb_refl. }
  rewrite (bind_run _ _ _ _ _ E1). unfold dec_ref.
  unfold mbind at 1, M_bind at 1. rewrite (bind_run _ _ _ _ _ (buf_at_run _ _ _ B1)).
  cbn [ref_cnt set_lock]. rewrite Hr, (bind_lift _ _ _ 0), (bind_run _ _ _ _ _ E2) by done. exact E3.
Qed.

Lemma relse_moves_to_front_witness :
  exists s1 s2, bread ROOTDEV 7 three = Ret (Ok 2, s1) /\ relse 2 s1 = Ret (tt, s2) /\
    dll (links s2) (head (cache s2)) (tail (cache s2)) [2; 0; 1].
Proof.
  destruct (bread ROOTDEV 7 three) as [[[p|] s1]|e|] eqn:E; try (vm_compute in E; discriminate).
  assert (p = 2) as -> by (vm_compute in E; congruence).
  assert (exists b, (bufs (cache s1)).[2] = Some b /\ lock b = mkSleeplock true 1 /\ ref_cnt b = 1 /\
    mypid s1 = 1 /\ links s1 = links three /\ head (cache s1) = 0 /\ tail (cache s1) = 2)
    as (b & Hb & Hl & Hr & Hm & HL & Hh & Ht).
  { vm_compute in E. injection E as <-. eexists. by repeat split. }
  destruct (relse_moves_to_front s1 [0; 1] 2 [] b) as (s2 & E2 & Hd & _);
    [rewrite HL, Hh, Ht; exact three_dll|done|by rewrite Hm|done|].
  exists s1, s2. done.
Defined.

(** A recycled buffer, as [bget] leaves it before taking its lock. *)
Definition recycled (d n : Z) (b : Buf) : Buf := set_flags EMPTY (set_ref 1 (set_id d n b)).

(** On a miss, [bget] recycles the least recently used buffer that is
    neither referenced nor dirty: every buffer behind it in the list is in
    use, it gets the new identity with no valid contents, and the list and
    every other buffer stay as they are.  A buffer pinned by the log is
    never recycled. *)
Theorem bget_recycles_lru s l1 p l2 b d n :
  dll (links s) (head (cache s)) (tail (cache s)) (l1 ++ p :: l2) ->
  (forall q, q ∈ l1 ++ p :: l2 -> matchb (bufs (cache s)) d n q = false) ->
  (forall q, q ∈ l2 -> victimb (bufs (cache s)) q = false) ->
  (bufs (cache s)).[p] = Some b -> ref_cnt b = 0 -> flags_contains (flags b) DIRTY = false ->
  exists s', bget_locate d n s = Ret (Ok p, s') /\ links s' = links s /\
    cores s' = (cores s).[p <- core (recycled d n b)] /\ same_env s s'.
Proof.
  intros Hd Hmiss Hbusy Hb Hr Hf.
  destruct (upd_core_run s p b (set_id d n) Hb eq_refl) as (s1 & E1 & V1 & L1 & K1 & B1).
  destruct (inc_ref_run s1 p _ B1 Hr) as (s2 & E2 & V2 & L2 & K2 & B2).
  destruct (upd_core_run s2 p _ (set_flags EMPTY) B2 eq_refl) as (s3 & E3 & V3 & L3 & K3 & B3).
  exists s3. split; [|split; [congruence|split]].
  - unfold bget_locate. rewrite bind_gets, (bind_lift _ _ _ _ (find_cached_dll _ _ _ _ d n Hd)).
    assert (List.find (matchb (bufs (cache s)) d n) (l1 ++ p :: l2) = None) as ->.
    { apply find_all_None. intros q Hq. by apply Hmiss. }
    rewrite (bind_lift _ _ _ _ (find_victim_dll _ _ _ _ Hd)).
    rewrite rev_app_distr. cbn [rev]. rewrite <-app_assoc.
    rewrite find_app_None by (intros q Hq; apply Hbusy; by apply list_elem_of_In, in_rev, list_elem_of_In).
    cbn [app List.find]. unfold victimb at 1. rewrite Hb, Hr, Hf. cbn [Z.eqb negb andb].
    by rewrite (bind_run _ _ _ _ _ E1), (bind_run _ _ _ _ _ E2), (bind_run _ _ _ _ _ E3).
  - by rewrite K3, K2, K1, !zset_zset.
  - by eapply same_env_trans; [|eapply same_env_trans].
Qed.

Lemma bget_recycles_lru_witness :
  exists s1 s2, bread ROOTDEV 7 three = Ret (Ok 2, s1) /\ bget_locate ROOTDEV 8 s1 = Ret (Ok 1, s2).
Proof.
  destruct (bread ROOTDEV 7 three) as [[[p|] s1]|e|] eqn:E; try (vm_compute in E; discriminate).
  assert (p = 2) as -> by (vm_compute in E; congruence).
  destruct (bget_recycles_lru s1 [0] 1 [2] (init_buf 3 1 [0; 0] Buf_new) ROOTDEV 8) as (s2 & E2 & _);
    [..|by exists s1, s2]; vm_compute in E; injection E as <-; try done.
  - exact three_dll.
  - intros q Hq. assert (q = 0 \/ q = 1 \/ q = 2) as [-> | [-> | ->]] by set_solver; done.
  - intros q ->%list_elem_of_singleton. done.
Defined.

(** When the block is not cached and every buffer is referenced or pinned
    dirty, [bio::read] fails with "bget: no buffers" and changes nothing. *)
Theorem read_fails_when_all_busy s l d n :
  dll (links s) (head (cache s)) (tail (cache s)) l ->
  (forall p b, (bufs (cache s)).[p] = Some b ->
     ((dev b =? d) && (blockno b =? n)) = false /\
     (ref_cnt b <> 0 \/ flags_contains (flags b) DIRTY = true)) ->
  read d n s = Ret (Err "bget: no buffers", s).
Proof.
  intros Hd H. unfold read, bget. apply try_err, try_err.
  unfold bget_locate. rewrite bind_gets, (bind_lift _ _ _ _ (find_cached_dll _ _ _ _ d n Hd)).
  rewrite find_all_None; last first.
  { intros p _. unfold matchb. destruct (bufs (cache s)).[p] as [b|] eqn:E; [|done]. apply (H p b E). }
  rewrite (bind_lift _ _ _ _ (find_victim_dll _ _ _ _ Hd)), find_all_None; [done|].
  intros p _. unfold victimb. destruct (bufs (cache s)).[p] as [b|] eqn:E; [|done].
  destruct (H p b E) as [_ [Hr| ->]]; [|apply andb_false_r].
  by rewrite (proj2 (Z.eqb_neq _ _) Hr).
Qed.

Lemma read_fails_when_all_busy_witness :
  exists s, (read ROOTDEV 4;; read ROOTDEV 5;; read ROOTDEV 6) three = Ret (Ok 0, s) /\
    read ROOTDEV 7 s = Ret (Err "bget: no buffers", s).
Proof.
  destruct ((read ROOTDEV 4;; read ROOTDEV 5;; read ROOTDEV 6) three) as [[[p|] s]|e|] eqn:E;
    try (vm_compute in E; discriminate).
  exists s. split; [vm_compute in E; congruence|].
  apply (read_fails_when_all_busy s [0; 1; 2]); vm_compute in E; injection E as <- <-.
  - exact three_dll.
  - intros p b Hp. pose proof (znth_range _ _ _ Hp) as Hr. cbn in Hr. unfold zlen in Hr. cbn in Hr.
    assert (p = 0 \/ p = 1 \/ p = 2) as [-> | [-> | ->]] by lia;
      injection Hp as <-; split; [done|left; done|done|left; done|done|left; done].
Defined.

(** ** Refinement of the abstract device *)
Inductive bop : Type :=
| OpRead (n : Z) | OpRelse (h : Z) | OpData (h : Z) | OpStore (h : Z) (d : list Z)
| OpWrite (h : Z) | OpPin (h : Z).

Inductive obs : Type := ONone | OHandle (r : result Z) | OData (d : list Z).

Definition run_bop {S} `{BlockOps S} (o : bop) : M S obs :=
  match o with
  | OpRead n => r ← bread ROOTDEV n; mret (OHandle r)
  | OpRelse h => brelse h;; mret ONone
  | OpData h => d ← bdata h; mret (OData d)
  | OpStore h d => bset h d;; mret ONone
  | OpWrite h => bwrite h;; mret ONone
  | OpPin h => bpin h;; mret ONone
  end.

(** What a client must respect: it does not read a block it already holds,
    leaves room in the cache, names buffers it holds, and does not release a
    changed buffer that is neither written nor pinned. *)
Definition op_ready (cap : Z) (a : Dev) (o : bop) : Prop :=
  match o with
  | OpRead n =>
    0 <= n /\ (forall h, held a !! h <> Some n) /\
    (n ∈ dirty a \/ Z.of_nat (size (dirty a)) + Z.of_nat (size (held a)) < cap)
  | OpRelse h => exists n, held a !! h = Some n /\ (n ∈ dirty a \/ view a n = media a n)
  | OpStore h d => is_Some (held a !! h) /\ zlen d = BSIZE
  | OpData h | OpWrite h | OpPin h => is_Some (held a !! h)
  end.

Inductive dev_step (a : Dev) : bop -> obs -> Dev -> Prop :=
| ds_read n h : held a !! h = None -> dev_step a (OpRead n) (OHandle (Ok h)) (dev_hold h n a)
| ds_relse h : dev_step a (OpRelse h) ONone (dev_drop h a)
| ds_data h n : held a !! h = Some n -> dev_step a (OpData h) (OData (view a n)) a
| ds_store h n d : held a !! h = Some n -> dev_step a (OpStore h d) ONone (dev_set n d a)
| ds_write h n : held a !! h = Some n -> dev_step a (OpWrite h) ONone (dev_flush n a)
| ds_pin h n : held a !! h = Some n -> dev_step a (OpPin h) ONone (dev_pin n a).

(** C3: The buffer cache refines the abstract device: from a cache state that
    represents a device, every operation a client may issue returns (no
    panic, no sleep), its observable result is one the device allows (a
    fresh handle, the current contents of the block), and the new cache
    state represents the stepped device.  So no block is ever cached twice,
    a read sees the last store whether or not the block was recycled in
    between, and the disk holds exactly what was written through. *)
Theorem bio_refines_device (s : Bio) a o :
  rep s a -> op_ready NBUF a o ->
  exists ob s' a', run_bop o s = Ret (ob, s') /\ dev_step a o ob a' /\ rep s' a'.
Proof.
  intros Hr Ho. destruct o as [n|h|h|h d|h|h]; cbn [op_ready] in Ho; unfold run_bop.
  - destruct Ho as (H0 & H1 & H2). destruct (bread_law s a n Hr H0 H1 H2) as (h & s' & E & Hn & Hr').
    eexists _, s', _. rewrite (bind_run _ _ _ _ _ E). split; [done|]. by split; [constructor|].
  - destruct Ho as (n & H1 & H2). destruct (brelse_law s a h n Hr H1 H2) as (s' & E & Hr').
    eexists _, s', _. rewrite (bind_run _ _ _ _ _ E). split; [done|]. by split; [constructor|].
  - destruct Ho as [n Hn]. eexists _, s, a. rewrite (bind_run _ _ _ _ _ (bdata_law s a h n Hr Hn)).
    split; [done|]. by split; [constructor|].
  - destruct Ho as [[n Hn] Hd]. destruct (bset_law s a h n d Hr Hn Hd) as (s' & E & Hr').
    eexists _, s', _. rewrite (bind_run _ _ _ _ _ E). split; [done|]. by split; [econstructor|].
  - destruct Ho as [n Hn]. destruct (bwrite_law s a h n Hr Hn) as (s' & E & Hr').
    eexists _, s', _. rewrite (bind_run _ _ _ _ _ E). split; [done|]. by split; [econstructor|].
  - destruct Ho as [n Hn]. destruct (bpin_law s a h n Hr Hn) as (s' & E & Hr').
    eexists _, s', _. rewrite (bind_run _ _ _ _ _ E). split; [done|]. by split; [econstructor|].
Qed.

(** [init]'s cache represents the disk, and reading a block from it works. *)
Lemma bio_refines_device_witness :
  exists c h s, init (zrep BSIZE 0) BCache_new = Ret c /\
    run_bop (OpRead 5) (mkBio c 1 (fun _ => zrep BSIZE 0) []) = Ret (OHandle (Ok h), s).
Proof.
  destruct (init_represents (zrep BSIZE 0) 1 (fun _ => zrep BSIZE 0)) as (c & Ec & Hr);
    [by apply zlen_rep|done|intros; by apply zlen_rep|].
  destruct (bio_refines_device _ _ (OpRead 5) Hr) as (ob & s & a' & E & Hs & _).
  { split; [lia|]. split; [done|]. right. vm_compute. reflexivity. }
  inversion Hs; subst. exists c, h, s. done.
Defined.
