(* ===== verification/Volatile.v ===== *)
(** Device registers and [volatile.rs]: what a driver may assume of a device
    is that registers can be read and written; a read may change the device. *)
From stdpp Require Import base list gmap strings.
From Stdlib Require Import ZArith Lia.
From S2P Require Import Prelude.

(** [R] names the registers, [D] is the state of the device. *)
Class Mmio (R D : Type) := {
  mmio_read : R -> D -> Z * D;
  mmio_write : R -> Z -> D -> D }.

Section volatile.
Context {R D : Type} `{Mmio R D}.

Definition vread (r : R) : M D Z := fun d => Ret (mmio_read r d).
Definition vwrite (r : R) (v : Z) : M D unit := modify (mmio_write r v).

(** [volatile::bit], on registers of 32 bits. *)
Definition bit_set (r : R) (v : Z) : M D unit := tmp ← vread r; vwrite r (Z.lor tmp v).
Definition bit_clear (r : R) (v : Z) : M D unit := tmp ← vread r; vwrite r (Z.land tmp (lnotw 32 v)).

(** A loop that polls at most [n] times, and what it gives up with. *)
Fixpoint poll {A} (n : nat) (body : M D (option A)) (otherwise : M D A) : M D A :=
  match n with
  | O => otherwise
  | S n' => r ← body; match r with Some a => mret a | None => poll n' body otherwise end
  end.

Lemma bind_vread {A} (r : R) (f : Z -> M D A) d : (vread r ≫= f) d = f (mmio_read r d).1 (mmio_read r d).2.
Proof. unfold vread, mbind, M_bind. by destruct (mmio_read r d). Qed.
Lemma bind_vwrite {A} (r : R) v (f : unit -> M D A) d : (vwrite r v ≫= f) d = f tt (mmio_write r v d).
Proof. done. Qed.

Lemma poll_first {A} n (body : M D (option A)) (otherwise : M D A) d a d' :
  (0 < n)%nat -> body d = Ret (Some a, d') -> poll n body otherwise d = Ret (a, d').
Proof. intros Hn Hb. destruct n as [|n]; [lia|]. cbn. by rewrite (bind_run _ _ _ _ _ Hb). Qed.

Lemma poll_ends {A} n (body : M D (option A)) (otherwise : M D A) : ends body -> ends otherwise -> ends (poll n body otherwise).
Proof. intros Hb Hg. induction n as [|n IH]; [done|]. cbn. apply ends_bind; [done|]. intros [a|]; [by auto with rs|done]. Qed.
End volatile.

(** Registers that keep what is written to them. *)
#[export] Instance ram_mmio {R} `{Countable R} : Mmio R (gmap R Z) := {|
  mmio_read r d := (default 0 (d !! r), d);
  mmio_write r v d := <[r := v]> d |}.
