(* ===== verification/Acpi.v ===== *)
(** Firmware tables, [acpi.rs]: finding the root pointer, checksums, and the
    tables of processors, interrupt controllers and PCI segments.  Memory is
    a function from physical addresses to bytes; the state is what the tables
    gave. *)
From stdpp Require Import base list gmap strings.
From Stdlib Require Import ZArith Lia.
From S2P Require Import Prelude.
From S2P Require Import Arch.

(** ** State *)
Record IOAPICT := mkIOAPICT { ioa_id : Z; global_intr_base : Z; ioa_phys_addr : Z }.

(** [pci::Config]. *)
Record Config := mkConfig { cfg_phys_addr : Z; segment_group : Z; start_bus : Z; end_bus : Z }.

(** The first [NCPUS] of [CPUS], and so on. *)
Record Acpi := mkAcpi { cpus : list Z; ioapics : list IOAPICT; pci_configs : list Config }.
Definition Acpi_empty : Acpi := mkAcpi [] [] [].

#[local] Notation A := (M Acpi).

(** Appending to an array of [max] elements by its count. *)
Definition array_push {B} (max : Z) (l : list B) (x : B) : A (list B) :=
  if zlen l <? max then mret (l ++ [x]) else panic "index out of bounds".

(** [&l[a..b]] and [l[i]] with their checks. *)
Definition slice {S} (l : list Z) (a b : Z) : M S (list Z) :=
  if (a <=? b) && (b <=? zlen l) then mret (zslice l a b) else panic "range end index out of range for slice".
Definition at_ {S} (l : list Z) (i : Z) : M S Z := expect l.[i] "index out of bounds".

Definition checksum (table : list Z) : Z := foldl (fun sum x => wrap 8 (sum + x)) 0 table.

(** ** Multiple APIC description table *)
Definition ENABLED : Z := 1.

Definition add_cpu (apic_id : Z) : A unit :=
  s ← gets id;
  if existsb (fun id => apic_id =? id) (cpus s) then mret tt
  else c ← array_push NCPUMAX (cpus s) apic_id; modify (fun s => mkAcpi c (ioapics s) (pci_configs s)).

(** [init_lapic] and [init_lsapic] differ in the type they assert. *)
Definition init_cpu (typ : Z) (data : list Z) : A unit :=
  t ← at_ data 0;
  assert_ (t =? typ) "assertion `left == right` failed";;
  n ← at_ data 1;
  assert_ (n =? zlen data) "assertion `left == right` failed";;
  apic_id ← at_ data 3;
  bs ← slice data 4 8;
  flags ← lift (read_u32 bs);
  if Z.land flags ENABLED =? ENABLED then add_cpu apic_id else mret tt.
Definition init_lapic : list Z -> A unit := init_cpu 0.
Definition init_lsapic : list Z -> A unit := init_cpu 7.

Definition init_ioapic (data : list Z) : A unit :=
  t ← at_ data 0;
  assert_ (t =? 1) "assertion `left == right` failed";;
  n ← at_ data 1;
  assert_ (n =? zlen data) "assertion `left == right` failed";;
  ident ← at_ data 2;
  b4 ← slice data 4 8;
  pa ← lift (read_u32 b4);
  b8 ← slice data 8 12;
  base ← lift (read_u32 b8);
  s ← gets id;
  l ← array_push NCPUMAX (ioapics s) (mkIOAPICT ident base pa);
  modify (fun s => mkAcpi (cpus s) l (pci_configs s)).

Definition madt_entry (typ : Z) (data : list Z) : A unit :=
  if typ =? 0 then init_lapic data
  else if typ =? 1 then init_ioapic data
  else if typ =? 7 then init_lsapic data
  else mret tt.

(** An entry of length zero leaves [start] where it is; every other one
    consumes a byte, so a step per byte is enough fuel otherwise. *)
Fixpoint madt_loop (fuel : nat) (raw : list Z) (start : Z) : A unit :=
  if start <? zlen raw then
    match fuel with
    | O => diverge
    | S fuel' =>
      assert_ (start + 1 <? zlen raw) "assertion failed: start + 1 < raw_tbl.len()";;
      typ ← at_ raw start;
      len ← at_ raw (start + 1);
      assert_ (start + len <=? zlen raw) "assertion failed: start + len <= raw_tbl.len()";;
      data ← slice raw start (start + len);
      madt_entry typ data;;
      madt_loop fuel' raw (start + len)
    end
  else mret tt.
Definition madt_init (raw : list Z) : A unit := madt_loop (length raw) raw 8.

(** ** PCI configuration table *)
Fixpoint mcfg_loop (fuel : nat) (raw : list Z) (start : Z) : A unit :=
  if start <? zlen raw then
    match fuel with
    | O => diverge
    | S fuel' =>
      assert_ (start + 16 <=? zlen raw) "assertion failed: start + 16 <= raw_tbl.len()";;
      data ← slice raw start (start + 16);
      b0 ← slice data 0 8;
      base ← lift (read_u64 b0);
      b8 ← slice data 8 10;
      seg ← lift (read_u16 b8);
      sb ← at_ data 10;
      eb ← at_ data 11;
      s ← gets id;
      l ← array_push NPCICFGMAX (pci_configs s) (mkConfig base seg sb eb);
      modify (fun s => mkAcpi (cpus s) (ioapics s) l);;
      mcfg_loop fuel' raw (start + 16)
    end
  else mret tt.
Definition mcfg_init (raw : list Z) : A unit := mcfg_loop (length raw) raw 8.

(** ** Description tables in memory *)
Section tables.
Context (mem : Z -> Z).

Definition bytes_at (pa n : Z) : list Z := (fun k => mem (pa + k)) <$> zrange 0 n.

Definition TABLE_SIZE : Z := 36.
(** [Table::len], at offset 4, and [Table::signature]. *)
Definition table_len (pa : Z) : Z := from_le (bytes_at (pa + 4) 4).
Definition signature (pa : Z) : list Z := bytes_at pa 4.
Definition as_bytes (pa : Z) : list Z := bytes_at pa (table_len pa).
Definition table_data (pa : Z) : A (list Z) := slice (as_bytes pa) TABLE_SIZE (table_len pa).

Definition Table_new (pa : Z) : A unit :=
  lift (phys_to_addr pa);;
  assert_ (checksum (as_bytes pa) =? 0) "corrupt ACPI table".

Inductive ACPIVersion := V1 | V2.
Record SDT := mkSDT { tables : list Z; acpi_version : ACPIVersion }.

Definition SDT_new (pa : Z) (v : ACPIVersion) : A SDT :=
  Table_new pa;;
  d ← table_data pa;
  mret (mkSDT d v).

Definition ptr_size (s : SDT) : Z := match acpi_version s with V1 => 4 | V2 => 8 end.
Definition as_phys_addr (s : SDT) (raw : list Z) : A Z :=
  lift (match acpi_version s with V1 => read_u32 raw | V2 => read_u64 raw end).

(** [chunks(n)]: pieces of [n], the last one perhaps shorter. *)
Fixpoint chunks (fuel : nat) (n : Z) (l : list Z) : list (list Z) :=
  match fuel, l with
  | S fuel', _ :: _ => take (Z.to_nat n) l :: chunks fuel' n (drop (Z.to_nat n) l)
  | _, _ => []
  end.

Definition APIC : list Z := [65; 80; 73; 67].
Definition MCFG : list Z := [77; 67; 70; 71].

Fixpoint sdt_loop (s : SDT) (ptrs : list (list Z)) : A unit :=
  match ptrs with
  | [] => mret tt
  | raw :: ptrs' =>
    pa ← as_phys_addr s raw;
    lift (phys_to_addr pa);;
    (if bool_decide (signature pa = APIC) then d ← table_data pa; madt_init d
     else if bool_decide (signature pa = MCFG) then d ← table_data pa; mcfg_init d
     else mret tt);;
    sdt_loop s ptrs'
  end.
Definition SDT_init (s : SDT) : A unit := sdt_loop s (chunks (length (tables s)) (ptr_size s) (tables s)).

(** ** The root pointer *)
Definition RSDP_KEY : list Z := [82; 83; 68; 32; 80; 84; 82; 32].

(** [windows(8).position(..)]: the first place the key is found. *)
Fixpoint find_key (region : list Z) : option Z :=
  match region with
  | [] => None
  | _ :: rest =>
    if bool_decide (take 8 region = RSDP_KEY) then Some 0
    else k ← find_key rest; Some (1 + k)
  end.
Definition find (region : list Z) : A (list Z) :=
  off ← expect (find_key region) "ACPI rquired"; mret (drop (Z.to_nat off) region).

Definition firmware_region : list Z := bytes_at 0xE0000 (0xFFFFF + 1 - 0xE0000).

Definition is_acpi_v1 (raw : list Z) : bool := bool_decide (raw.[15] = Some 0).

Definition RSDP_init : A SDT :=
  region ← find firmware_region;
  raw ← slice region 0 20;
  assert_ (checksum raw =? 0) "corrupt RSDPv1";;
  if is_acpi_v1 raw then
    b ← slice raw 16 20;
    pa ← lift (read_u32 b);
    SDT_new pa V1
  else
    raw ← slice region 0 36;
    b ← slice raw 20 24;
    len ← lift (read_u32 b);
    assert_ (len =? 36) "short RSDPv2";;
    assert_ (checksum raw =? 0) "corrupt RSDPv2";;
    b ← slice raw 24 32;
    pa ← lift (read_u64 b);
    SDT_new pa V2.

Definition init : A unit := s ← RSDP_init; SDT_init s.
End tables.

(** ** Reading a table of entries

    The entries of a multiple APIC table, as the firmware writes them. *)
Inductive Entry :=
| Lapic (acpi_id apic_id flags : Z)
| Ioapic (id reserved pa base : Z)
| Other (typ : Z) (payload : list Z).

Definition encode (e : Entry) : list Z :=
  match e with
  | Lapic u a f => [0; 8; u; a] ++ le_bytes 4 f
  | Ioapic i r pa b => [1; 12; i; r] ++ le_bytes 4 pa ++ le_bytes 4 b
  | Other t p => t :: 2 + zlen p :: p
  end.

Definition entry_ok (e : Entry) : Prop :=
  match e with
  | Lapic _ _ f => uN 32 f
  | Ioapic _ _ pa b => uN 32 pa /\ uN 32 b
  | Other t p => t ≠ 0 /\ t ≠ 1 /\ t ≠ 7 /\ 2 + zlen p < 256
  end.

(** What an entry adds: an enabled processor that is not known, or an
    interrupt controller. *)
Definition effect (s : Acpi) (e : Entry) : Acpi :=
  match e with
  | Lapic _ a f =>
    if Z.testbit f 0 && negb (bool_decide (a ∈ cpus s)) then mkAcpi (cpus s ++ [a]) (ioapics s) (pci_configs s) else s
  | Ioapic i _ pa b => mkAcpi (cpus s) (ioapics s ++ [mkIOAPICT i b pa]) (pci_configs s)
  | Other _ _ => s
  end.

Lemma read_u32_le x : uN 32 x -> read_u32 (le_bytes 4 x) = Ret x.
Proof.
  intros H. unfold read_u32. rewrite zlen_le_bytes. change (Z.of_nat 4 =? 4) with true. cbv iota.
  by rewrite from_le_le_bytes by (cbn; unfold uN in H; lia).
Qed.

Lemma existsb_elem a (l : list Z) : existsb (fun id => a =? id) l = bool_decide (a ∈ l).
Proof.
  induction l as [|x l IH]; [done|]. cbn. rewrite IH. destruct (Z.eqb_spec a x) as [->|Hne]; cbn.
  - symmetry. apply bool_decide_eq_true. set_solver.
  - apply bool_decide_ext. set_solver.
Qed.

Lemma slice_run {S} (l : list Z) a b (s : S) : 0 <= a <= b -> b <= zlen l -> slice l a b s = Ret (zslice l a b, s).
Proof. intros. unfold slice. by rewrite (proj2 (Z.leb_le a b)), (proj2 (Z.leb_le b (zlen l))) by lia. Qed.

Lemma at_run {S} (l : list Z) i x (s : S) : l.[i] = Some x -> at_ l i s = Ret (x, s).
Proof. intros H. unfold at_. by rewrite H. Qed.

(** The shared start of the two entry readers. *)
Ltac run_field := erewrite bind_run by (apply at_run; reflexivity).
Ltac run_assert := rewrite bind_assert by reflexivity.

Lemma init_lapic_run u a f s :
  uN 32 f -> zlen (cpus s) < NCPUMAX -> init_lapic (encode (Lapic u a f)) s = Ret (tt, effect s (Lapic u a f)).
Proof.
  intros Hf Hn. unfold init_lapic, init_cpu. run_field. run_assert. run_field. run_assert. run_field.
  erewrite bind_run by (apply slice_run; [lia|]; vm_compute; congruence).
  replace (zslice _ 4 8) with (le_bytes 4 f) by reflexivity.
  erewrite bind_lift by (by apply read_u32_le).
  change ENABLED with (2 ^ 0). rewrite land_pow2 by lia. cbn [effect]. destruct (Z.testbit f 0); [|done]. cbn [andb].
  change (2 ^ 0 =? 2 ^ 0) with true. cbv iota. unfold add_cpu. rewrite bind_gets, existsb_elem. cbn [id].
  destruct (bool_decide (a ∈ cpus s)); [done|]. unfold array_push. by rewrite (proj2 (Z.ltb_lt _ _)).
Qed.

Lemma init_ioapic_run i r pa b s :
  uN 32 pa -> uN 32 b -> zlen (ioapics s) < NCPUMAX ->
  init_ioapic (encode (Ioapic i r pa b)) s = Ret (tt, effect s (Ioapic i r pa b)).
Proof.
  intros Hpa Hb Hn. unfold init_ioapic. run_field. run_assert. run_field. run_assert. run_field.
  erewrite bind_run by (apply slice_run; [lia|]; vm_compute; congruence).
  replace (zslice _ 4 8) with (le_bytes 4 pa) by reflexivity.
  erewrite bind_lift by (by apply read_u32_le).
  erewrite bind_run by (apply slice_run; [lia|]; vm_compute; congruence).
  replace (zslice _ 8 12) with (le_bytes 4 b) by reflexivity.
  erewrite bind_lift by (by apply read_u32_le). rewrite bind_gets. cbn [id].
  unfold array_push. by rewrite (proj2 (Z.ltb_lt _ _)).
Qed.

Lemma zlen_madt_entry e : entry_ok e -> 2 <= zlen (encode e) < 256 /\
  exists t rest, encode e = t :: zlen (encode e) :: rest.
Proof.
  destruct e as [u a f|i r pa b|t p]; intros He; cbn [encode].
  - split; [vm_compute; split; congruence|]. by eexists _, _.
  - split; [vm_compute; split; congruence|]. by eexists _, _.
  - pose proof (zlen_nonneg p). rewrite !zlen_cons. split; [destruct He; lia|]. eexists _, _. f_equal. f_equal. lia.
Qed.

Lemma madt_entry_run e s :
  entry_ok e -> zlen (cpus s) < NCPUMAX -> zlen (ioapics s) < NCPUMAX ->
  exists t, (encode e).[0] = Some t /\ madt_entry t (encode e) s = Ret (tt, effect s e).
Proof.
  destruct e as [u a f|i r pa b|t p]; intros He Hc Hi.
  - exists 0. split; [done|]. by apply init_lapic_run.
  - exists 1. split; [done|]. destruct He. by apply init_ioapic_run.
  - exists t. split; [done|]. destruct He as (H0 & H1 & H7 & _). unfold madt_entry.
    by rewrite (proj2 (Z.eqb_neq t 0)), (proj2 (Z.eqb_neq t 1)), (proj2 (Z.eqb_neq t 7)).
Qed.

Lemma effect_bounds s e :
  zlen (cpus (effect s e)) <= zlen (cpus s) + 1 /\ zlen (ioapics (effect s e)) <= zlen (ioapics s) + 1 /\
  (NoDup (cpus s) -> NoDup (cpus (effect s e))).
Proof.
  destruct e as [u a f|i r pa b|t p]; cbn [effect]; [destruct (_ && _) eqn:E| |];
    cbn [cpus ioapics]; rewrite ?zlen_app; change (zlen [_]) with 1; (split; [lia|split; [lia|]]); try done.
  intros Hn. apply NoDup_app. split; [done|]. split; [|apply NoDup_singleton].
  intros x Hx ->%list_elem_of_singleton. apply andb_true_iff in E as [_ E%negb_true_iff].
  by rewrite bool_decide_eq_false in E.
Qed.

Lemma madt_loop_run es : forall fuel pre s,
  Forall entry_ok es -> zlen (cpus s) + zlen es <= NCPUMAX -> zlen (ioapics s) + zlen es <= NCPUMAX ->
  (length es <= fuel)%nat ->
  madt_loop fuel (pre ++ mjoin (encode <$> es)) (zlen pre) s = Ret (tt, foldl effect s es).
Proof.
  induction es as [|e es IH]; intros fuel pre s Hok Hc Hi Hf.
  { change (mjoin (encode <$> [])) with (@nil Z). rewrite app_nil_r. destruct fuel; cbn [madt_loop]; by rewrite Z.ltb_irrefl. }
  apply Forall_cons in Hok as [He Hes]. rewrite !zlen_cons in *. pose proof (zlen_nonneg es).
  destruct fuel as [|fuel]; [cbn in Hf; lia|]. change (mjoin (encode <$> e :: es)) with (encode e ++ mjoin (encode <$> es)).
  destruct (zlen_madt_entry e He) as (Hlen & t' & rest & Eenc). destruct (madt_entry_run e s He) as (t & Ht & Hrun); [lia|lia|].
  cbn [madt_loop]. set (tail := mjoin (encode <$> es)) in *. pose proof (zlen_nonneg tail). pose proof (zlen_nonneg pre).
  assert (Hraw : zlen (pre ++ encode e ++ tail) = zlen pre + zlen (encode e) + zlen tail) by (rewrite !zlen_app; lia).
  rewrite Hraw, (proj2 (Z.ltb_lt _ _)) by lia. rewrite bind_assert by lia.
  erewrite bind_run by (apply at_run; rewrite znth_app_r, Z.sub_diag, znth_app_l by lia; exact Ht).
  assert (Hl1 : (encode e).[1] = Some (zlen (encode e))) by (rewrite znth_lookup by lia; by rewrite Eenc at 1).
  erewrite bind_run by (apply at_run; rewrite znth_app_r, znth_app_l by lia;
    replace (zlen pre + 1 - zlen pre) with 1 by lia; exact Hl1).
  rewrite bind_assert by lia. erewrite bind_run by (apply slice_run; lia).
  assert (Hsl : zslice (pre ++ encode e ++ tail) (zlen pre) (zlen pre + zlen (encode e)) = encode e).
  { unfold zslice, zlen. rewrite Nat2Z.id, drop_app_length. replace (Z.to_nat _) with (length (encode e)) by lia. apply take_app_length. }
  rewrite Hsl, (bind_run _ _ _ _ _ Hrun). rewrite app_assoc. destruct (effect_bounds s e) as (B1 & B2 & _).
  rewrite <-zlen_app. cbn in Hf. rewrite IH by (done || lia). done.
Qed.



(** ** Entries of length zero *)
Lemma ends_madt_entry t data : ends (madt_entry t data).
Proof.
  unfold madt_entry, init_lapic, init_lsapic, init_cpu, init_ioapic, add_cpu, at_, slice, array_push, read_u32. solve_ends.
Qed.

Lemma madt_entry_empty t s : t ∈ [0; 1; 7] -> exists e, madt_entry t [] s = Panic e.
Proof. rewrite !elem_of_cons, elem_of_nil. intros [->|[->|[->|[]]]]; by eexists. Qed.

(** Where the entries begin: the first after eight bytes, each next one after
    the length in the second byte of the one before. *)
Inductive entry_at (raw : list Z) : Z -> Prop :=
| entry_first : entry_at raw 8
| entry_next k len : entry_at raw k -> raw.[k + 1] = Some len -> entry_at raw (k + len).

(** A table without entries of length zero, those apart that the kernel
    reads, which panic. *)
Definition no_empty_entry (raw : list Z) : Prop :=
  forall k t, entry_at raw k -> raw.[k] = Some t -> raw.[k + 1] = Some 0 -> t ∈ [0; 1; 7].

Lemma madt_loop_ends fuel : forall raw start s,
  no_empty_entry raw -> Forall is_byte raw -> entry_at raw start -> 0 <= start -> zlen raw - start <= Z.of_nat fuel ->
  madt_loop fuel raw start s <> Diverge.
Proof.
  induction fuel as [|fuel IH]; intros raw start s Hz Hb He Hs Hf; cbn [madt_loop].
  { rewrite (proj2 (Z.ltb_ge _ _)) by lia. done. }
  destruct (Z.ltb_spec start (zlen raw)); [|done].
  destruct (Z.ltb_spec (start + 1) (zlen raw)); [|done]. rewrite bind_assert by done.
  destruct (znth_lt raw start) as [t Ht]; [lia|]. destruct (znth_lt raw (start + 1)) as [len Hlen]; [lia|].
  rewrite (bind_run _ _ _ _ _ (at_run _ _ _ _ Ht)), (bind_run _ _ _ _ _ (at_run _ _ _ _ Hlen)).
  destruct (Z.leb_spec (start + len) (zlen raw)); [|done]. rewrite bind_assert by done.
  assert (0 <= len).
  { apply znth_Some in Hlen as [_ Hlen]. rewrite Forall_forall in Hb. apply Hb. by eapply list_elem_of_lookup_2. }
  erewrite bind_run by (apply slice_run; lia).
  destruct (decide (len = 0)) as [->|Hne].
  - pose proof (Hz start t He Ht Hlen) as Hin.
    unfold zslice. replace (start + 0 - start) with 0 by lia. cbn [Z.to_nat take].
    destruct (madt_entry_empty t s Hin) as [e E]. by rewrite (bind_panic _ _ _ _ E).
  - pose proof (ends_madt_entry t (zslice raw start (start + len)) s) as Hend.
    destruct (madt_entry t _ s) as [[[] s']|e|] eqn:E; [|by rewrite (bind_panic _ _ _ _ E)|done].
    rewrite (bind_run _ _ _ _ _ E). apply IH; try done; [by apply entry_next|lia|lia].
Qed.

(** C36: When [madt::init] comes to an end.  On every table of which no entry,
    of those its walk comes to, has length zero it returns or panics (entries
    of the three types that the kernel reads may have length zero: they
    panic); when the walk comes to an entry of another type and of length
    zero, it never ends, however long it runs. *)
Theorem madt_init_terminates :
  (forall raw s, Forall is_byte raw -> no_empty_entry raw -> madt_init raw s <> Diverge) /\
  (forall raw k t s fuel, raw.[k] = Some t -> t ∉ [0; 1; 7] -> raw.[k + 1] = Some 0 -> madt_loop fuel raw k s = Diverge).
Proof.
  split.
  - intros raw s Hb Hz. apply madt_loop_ends; try done; [constructor|unfold zlen; lia].
  - intros raw k t s fuel Ht Hn Hlen. pose proof (znth_range _ _ _ Ht) as Hr. pose proof (znth_range _ _ _ Hlen) as Hr'. apply not_elem_of_cons in Hn as [H0 Hn].
    apply not_elem_of_cons in Hn as [H1 Hn]. apply not_elem_of_cons in Hn as [H7 _].
    induction fuel as [|fuel IH]; cbn [madt_loop]; rewrite (proj2 (Z.ltb_lt _ _)) by lia; [done|].
    rewrite bind_assert by lia. rewrite (bind_run _ _ _ _ _ (at_run _ _ _ _ Ht)), (bind_run _ _ _ _ _ (at_run _ _ _ _ Hlen)).
    rewrite bind_assert by lia. erewrite bind_run by (apply slice_run; lia).
    unfold madt_entry. rewrite (proj2 (Z.eqb_neq t 0)), (proj2 (Z.eqb_neq t 1)), (proj2 (Z.eqb_neq t 7)) by done.
    rewrite bind_mret, Z.add_0_r. exact IH.
Qed.

(** A processor, an I/O APIC and an interrupt override. *)
Definition demo_madt : list Z :=
  zrep 8 0 ++ [0; 8; 0; 0; 1; 0; 0; 0] ++ [1; 12; 2; 0; 0; 0; 192; 254; 0; 0; 0; 0] ++ [2; 10; 0; 0; 2; 0; 0; 0; 0; 0].
Lemma demo_entries k : entry_at demo_madt k -> k ∈ [8; 16; 28; 38].
Proof.
  induction 1 as [|k len _ IH Hlen]; [set_solver|]. rewrite !elem_of_cons, elem_of_nil in IH.
  destruct IH as [->|[->|[->|[->|[]]]]]; vm_compute in Hlen; try discriminate; injection Hlen as <-; set_solver.
Qed.

Lemma madt_init_terminates_witness :
  madt_init demo_madt Acpi_empty <> Diverge /\ madt_loop 100 (zrep 8 0 ++ [2; 2; 2; 0]) 10 Acpi_empty = Diverge.
Proof.
  split.
  - apply (proj1 madt_init_terminates).
    + repeat constructor; vm_compute; congruence.
    + intros k t Hk%demo_entries Ht E. rewrite !elem_of_cons, elem_of_nil in Hk.
      destruct Hk as [->|[->|[->|[->|[]]]]]; discriminate E.
  - apply ((proj2 madt_init_terminates) (zrep 8 0 ++ [2; 2; 2; 0]) 10 2); [reflexivity|set_solver|reflexivity].
Defined.
