(* ===== verification/Pci.v ===== *)
(** The PCI bus, [pci.rs]: configuration addresses, the scan for the disk
    controller, base address registers and message-signalled interrupts. *)
From stdpp Require Import base list gmap strings.
From Stdlib Require Import ZArith Lia.
From S2P Require Import Prelude.
From S2P Require Import Arch.
From S2P Require Import Volatile.
From S2P Require Import Acpi.

(** A device is one of 32 and a function one of 8. *)
Definition DEVICES : list Z := zrange 0 32.
Definition FUNCTIONS : list Z := zrange 0 8.

(** [Config::func_addr]. *)
Definition func_addr (c : Config) (bus device function : Z) : outcome Z :=
  match sub_ovf bus (start_bus c) with
  | Ret b =>
    match add_ovf 64 (cfg_phys_addr c) (Z.shiftl b 20) with
    | Ret a => Ret (Z.lor (Z.lor a (Z.shiftl device 15)) (Z.shiftl function 12))
    | o => o
    end
  | o => o
  end.

Section pci.
(** A register is named by its width in bytes and its address. *)
Context {D : Type} `{Mmio (Z * Z) D}.

(** ** A function's configuration space, by the address of its page *)
Definition Conf_new (base : Z) : M D Z :=
  assert_ (base mod PAGE_SIZE =? 0) "assertion `left == right` failed";; mret base.
Definition conf_addr (base off : Z) : M D Z :=
  assert_ (off <? PAGE_SIZE) "assertion failed: offset < arch::PAGE_SIZE";;
  lift (add_ovf 64 base off).
Definition conf_read (width base off : Z) : M D Z := a ← conf_addr base off; vread (width, a).
Definition conf_write (width base off v : Z) : M D unit := a ← conf_addr base off; vwrite (width, a) v.

Definition COMMAND_OFF : Z := 4.
Definition set_command (base bit : Z) : M D unit :=
  cmd ← conf_read 2 base COMMAND_OFF;
  conf_write 2 base COMMAND_OFF (Z.lor cmd bit).
Definition enable_bus_master (base : Z) : M D unit := set_command base (Z.shiftl 1 2).
Definition enable_mem (base : Z) : M D unit := set_command base (Z.shiftl 1 1).
Definition disable_intr (base : Z) : M D unit := set_command base (Z.shiftl 1 10).

(** The list of capabilities is threaded through bytes; a list that does not
    end is never left, so more steps than there are bytes stand for that. *)
Fixpoint cap_loop (fuel : nat) (base ptr : Z) : M D (option Z) :=
  match fuel with
  | O => diverge
  | S fuel' =>
    if ptr =? 0 then mret None else
    typ ← conf_read 1 base ptr;
    if typ =? 5 then mret (Some ptr) else
    ptr' ← conf_read 1 base (ptr + 1);
    cap_loop fuel' base ptr'
  end.
Definition CAP_LIST : Z := Z.shiftl 1 4.
Definition find_msi_cap (base : Z) : M D (option Z) :=
  status ← conf_read 2 base 6;
  assert_ (Z.land status CAP_LIST =? CAP_LIST) "no cap list for MSI";;
  ptr ← conf_read 1 base 0x34;
  cap_loop 257 base ptr.

Definition INTR0 : Z := 32.
Definition setup_msi (base cpu intr : Z) : M D unit :=
  o ← find_msi_cap base;
  ptr ← expect o "found MSI capability";
  ctl ← conf_read 2 base (ptr + 2);
  assert_ (negb (Z.land ctl (Z.shiftl 1 7) =? 0)) "MSI capability is not 64-bit capable";;
  enable_bus_master base;;
  disable_intr base;;
  v ← lift (add_ovf 32 INTR0 intr);
  conf_write 4 base (ptr + 4) (Z.lor (Z.shiftl 0x0FEE 20) (Z.land cpu 0xFF));;
  conf_write 2 base (ptr + 12) (Z.land (v mod 2 ^ 16) 0xFF);;
  conf_write 2 base (ptr + 2) (Z.lor ctl 1).

(** [map_dev] is [map_phys_dev_range] of the kernel's page table, and [sd_init]
    what [sd.rs] does with the controller. *)
Context (map_dev : Z -> Z -> M D (result unit)) (sd_init : Z -> Z -> M D unit).

(** [mapabar]: the base address register at [pa], sized by writing ones. *)
Definition mapabar (pa : Z) : M D (option Z) :=
  addr ← lift (phys_to_addr pa);
  bar ← vread (4, addr);
  if (bar =? 0) || (Z.land bar 1 =? 1) then mret None else
  vwrite (4, addr) (2 ^ 32 - 1);;
  bits ← vread (4, addr);
  vwrite (4, addr) bar;;
  size ← lift (add_ovf 32 (lnotw 32 (Z.land bits (lnotw 32 0xF))) 1);
  stop ← lift (add_ovf 32 bar size);
  r ← map_dev bar stop;
  expect_ok r "mapped a BAR";;
  mret (Some bar).

(** ** The scan *)
Definition ABAR_OFFSET : Z := 0x24.
Definition found_ahci (conf pa : Z) : M D unit :=
  enable_mem conf;;
  bar ← lift (add_ovf 64 pa ABAR_OFFSET);
  o ← mapabar bar;
  abar ← expect o "called `Option::unwrap()` on a `None` value";
  sd_init conf abar.

Definition is_ahci (vendor_id device_id class_rev : Z) : bool :=
  (vendor_id =? 0x8086) && (device_id =? 0x2922) && (Z.shiftr class_rev 24 mod 256 =? 1) &&
  (Z.shiftr class_rev 16 mod 256 =? 6) && (Z.shiftr class_rev 8 mod 256 =? 1).

Fixpoint scan_functions (c : Config) (bus dev : Z) (funcs : list Z) : M D unit :=
  match funcs with
  | [] => mret tt
  | func :: funcs' =>
    pa ← lift (func_addr c bus dev func);
    addr ← lift (phys_to_addr pa);
    conf ← Conf_new addr;
    vendor_id ← conf_read 2 conf 0;
    if vendor_id =? 0xFFFF then mret tt else
    device_id ← conf_read 2 conf 2;
    class_rev ← conf_read 4 conf 8;
    typ ← conf_read 1 conf (12 + 2);
    if negb (Z.land typ 0x7F =? 0) then mret tt else
    (if is_ahci vendor_id device_id class_rev then found_ahci conf pa else mret tt);;
    scan_functions c bus dev funcs'
  end.

Fixpoint scan_devices (c : Config) (bus : Z) (devs : list Z) : M D unit :=
  match devs with
  | [] => mret tt
  | dev :: devs' => scan_functions c bus dev FUNCTIONS;; scan_devices c bus devs'
  end.
Fixpoint scan_buses (c : Config) (buses : list Z) : M D unit :=
  match buses with
  | [] => mret tt
  | bus :: buses' => scan_devices c bus DEVICES;; scan_buses c buses'
  end.
Fixpoint pci_init (configs : list Config) : M D unit :=
  match configs with
  | [] => mret tt
  | c :: configs' => scan_buses c (zrange (start_bus c) (end_bus c));; pci_init configs'
  end.
End pci.

(** ** Configuration addresses *)
Lemma lor_disjoint_add a x n : 0 <= n -> a mod 2 ^ n = 0 -> 0 <= x < 2 ^ n -> Z.lor a x = a + x.
Proof.
  intros Hn Ha Hx. symmetry. rewrite <-Z.lxor_lor, Z.add_nocarry_lxor; try done;
    apply Z.bits_inj'; intros i Hi; rewrite Z.land_spec, Z.bits_0; destruct (decide (i < n));
    try (rewrite (uN_testbit_high n x i) by (done || lia); apply andb_false_r);
    by rewrite <-(Z.mod_pow2_bits_low a n i), Ha, Z.bits_0 by lia.
Qed.

(** The functions a segment has. *)
Definition in_segment (c : Config) (bus dev func : Z) : Prop :=
  start_bus c <= bus <= end_bus c /\ 0 <= dev < 32 /\ 0 <= func < 8.

Lemma func_addr_eq c bus dev func :
  cfg_phys_addr c mod 2 ^ 20 = 0 -> 0 <= cfg_phys_addr c -> cfg_phys_addr c + (end_bus c - start_bus c + 1) * 2 ^ 20 <= 2 ^ 64 ->
  in_segment c bus dev func ->
  func_addr c bus dev func = Ret (cfg_phys_addr c + (bus - start_bus c) * 2 ^ 20 + dev * 2 ^ 15 + func * 2 ^ 12).
Proof.
  intros Hal H0 Hfit (Hb & Hd & Hf). unfold func_addr, sub_ovf. rewrite (proj2 (Z.leb_le _ _)) by lia.
  unfold add_ovf. rewrite !Z.shiftl_mul_pow2 by lia. rewrite (proj2 (Z.ltb_lt _ _)) by lia. f_equal.
  assert (E : (cfg_phys_addr c + (bus - start_bus c) * 2 ^ 20) mod 2 ^ 20 = 0) by (by rewrite Z.mod_add).
  rewrite (lor_disjoint_add _ (dev * 2 ^ 15) 20); [|lia|done|lia].
  apply (lor_disjoint_add _ _ 15); [lia| |lia].
  rewrite Z.mod_add by lia. apply Z.mod_divide; [lia|]. apply Z.mod_divide in E; [|lia].
  eapply Z.divide_trans; [|exact E]. by exists (2 ^ 5).
Qed.

(** Every function of a PCI segment has a page of its own.  In a segment
    whose base is aligned to a bus, [func_addr] returns for every bus, device
    and function of the segment an address inside the segment's window that
    is a multiple of the page size (so [Conf::new] accepts it), and different
    functions have different addresses. *)
Theorem func_addr_pages c bus dev func :
  cfg_phys_addr c mod 2 ^ 20 = 0 -> 0 <= cfg_phys_addr c ->
  cfg_phys_addr c + (end_bus c - start_bus c + 1) * 2 ^ 20 <= 2 ^ 64 -> in_segment c bus dev func ->
  exists a, func_addr c bus dev func = Ret a /\ a mod PAGE_SIZE = 0 /\
    cfg_phys_addr c <= a < cfg_phys_addr c + (end_bus c - start_bus c + 1) * 2 ^ 20 /\
    forall bus' dev' func', in_segment c bus' dev' func' -> func_addr c bus' dev' func' = Ret a ->
      (bus', dev', func') = (bus, dev, func).
Proof.
  intros Hal H0 Hfit Hin. eexists. split; [by apply func_addr_eq|]. destruct Hin as (Hb & Hd & Hf). split; [|split].
  - apply Z.mod_divide; [done|]. apply Z.mod_divide in Hal as [q ->]; [|lia]. unfold PAGE_SIZE.
    exists (q * 2 ^ 8 + (bus - start_bus c) * 2 ^ 8 + dev * 2 ^ 3 + func). lia.
  - lia.
  - intros bus' dev' func' Hin' E. rewrite func_addr_eq in E by done. injection E as E.
    destruct Hin' as (Hb' & Hd' & Hf'). change (2 ^ 20) with 1048576 in E. change (2 ^ 15) with 32768 in E. change (2 ^ 12) with 4096 in E.
    assert (bus' = bus) as -> by lia. assert (dev' = dev) as -> by lia. assert (func' = func) as -> by lia. done.
Qed.

(** The disk controller of the usual machine, device 31 function 2. *)
Lemma func_addr_pages_witness : func_addr (mkConfig 0xB0000000 0 0 255) 0 31 2 = Ret 0xB00FA000.
Proof.
  destruct (func_addr_pages (mkConfig 0xB0000000 0 0 255) 0 31 2) as (a & E & _);
    [reflexivity|vm_compute; congruence|vm_compute; congruence|vm_compute; repeat split; congruence|].
  rewrite E. vm_compute in E. exact (eq_sym E).
Defined.

(** ** Capability lists

    On a space whose reads change nothing, a walk that takes more steps than
    there are offsets repeats itself, so the fuel of [find_msi_cap] runs out
    only where the walk never ends. *)
Section caps.
Context {D : Type} `{Mmio (Z * Z) D} (d : D) (base : Z).
Context (byte : Z -> Z).
Hypothesis Hread : forall off, 0 <= off <= 256 -> conf_read 1 base off d = Ret (byte off, d).
Hypothesis Hbyte : forall off, is_byte (byte off).

Definition next_cap (ptr : Z) : Z := byte (ptr + 1).
Definition stops (ptr : Z) : bool := (ptr =? 0) || (byte ptr =? 5).

Lemma cap_loop_S fuel ptr : is_byte ptr ->
  cap_loop (S fuel) base ptr d =
  if stops ptr then Ret (if ptr =? 0 then None else Some ptr, d) else cap_loop fuel base (next_cap ptr) d.
Proof.
  intros Hp. cbn [cap_loop]. unfold stops, is_byte in *. destruct (ptr =? 0) eqn:E; [done|]. cbn [orb].
  rewrite (bind_run _ _ _ _ _ (Hread ptr ltac:(lia))). destruct (byte ptr =? 5); [done|].
  by rewrite (bind_run _ _ _ _ _ (Hread (ptr + 1) ltac:(lia))).
Qed.

Fixpoint caps (n : nat) (ptr : Z) : list Z :=
  match n with O => [] | S n' => ptr :: caps n' (next_cap ptr) end.

Lemma caps_bytes n : forall ptr, is_byte ptr -> Forall is_byte (caps n ptr).
Proof. induction n as [|n IH]; intros ptr Hp; constructor; [done|]. apply IH, Hbyte. Qed.

Lemma length_caps n : forall ptr, length (caps n ptr) = n.
Proof. induction n as [|n IH]; intros ptr; cbn; [done|]. by rewrite IH. Qed.

Lemma caps_lookup n : forall ptr i, (i < n)%nat -> caps n ptr !! i = Some (Nat.iter i next_cap ptr).
Proof.
  induction n as [|n IH]; intros ptr i Hi; [lia|]. destruct i as [|i]; [done|]. cbn [caps lookup list_lookup].
  rewrite IH by lia. f_equal. rewrite <-Nat.iter_succ_r. done.
Qed.

(** A walk ends at the first offset that stops it. *)
Lemma cap_loop_stop i : forall fuel ptr, is_byte ptr -> (i < fuel)%nat ->
  stops (Nat.iter i next_cap ptr) = true -> cap_loop fuel base ptr d <> Diverge.
Proof.
  induction i as [|i IH]; intros [|fuel] ptr Hp Hf Hs; [lia| |lia|]; rewrite cap_loop_S by done.
  - cbn in Hs. by rewrite Hs.
  - destruct (stops ptr); [done|]. apply IH; [apply Hbyte|lia|]. by rewrite <-Nat.iter_succ_r.
Qed.

Lemma cap_loop_run_on fuel : forall ptr, is_byte ptr ->
  (forall i, stops (Nat.iter i next_cap ptr) = false) -> cap_loop fuel base ptr d = Diverge.
Proof.
  induction fuel as [|fuel IH]; intros ptr Hp Hs; [done|]. rewrite cap_loop_S by done. pose proof (Hs O) as H0. cbn in H0. rewrite H0.
  apply IH; [apply Hbyte|]. intros i. rewrite <-Nat.iter_succ_r. apply Hs.
Qed.

Lemma iter_periodic i j ptr : (i < j)%nat -> Nat.iter i next_cap ptr = Nat.iter j next_cap ptr ->
  forall n, exists m, (m < j)%nat /\ Nat.iter n next_cap ptr = Nat.iter m next_cap ptr.
Proof.
  intros Hij E n. induction n as [|n (m & Hm & IH)]; [exists O; split; [lia|done]|].
  rewrite Nat.iter_succ, IH, <-Nat.iter_succ. destruct (decide (S m < j)%nat); [by exists (S m)|].
  exists i. split; [done|]. by replace (S m) with j by lia.
Qed.

(** Some offset repeats within 257 steps. *)
Lemma caps_repeat ptr : is_byte ptr -> exists i j, (i < j < 257)%nat /\ Nat.iter i next_cap ptr = Nat.iter j next_cap ptr.
Proof.
  intros Hp. destruct (decide (NoDup (caps 257 ptr))) as [Hnd|Hd].
  - exfalso. pose proof (caps_bytes 257 ptr Hp) as Hb. rewrite Forall_forall in Hb.
    assert (Hsub : caps 257 ptr ⊆+ zrange 0 256).
    { apply NoDup_submseteq; [done|]. intros x Hx. apply elem_of_zrange. by apply Hb. }
    apply submseteq_length in Hsub. rewrite length_caps in Hsub. change (length (zrange 0 256)) with 256%nat in Hsub. lia.
  - destruct (not_NoDup_lookup _ Hd) as (i & j & x & Hij & Hi & Hj).
    assert (Hlen : (j < 257)%nat) by (rewrite <-(length_caps 257 ptr); by eapply lookup_lt_Some).
    exists i, j. split; [lia|]. rewrite caps_lookup in Hi, Hj by lia. congruence.
Qed.

(** With the fuel of [find_msi_cap] the walk ends, or it never does. *)
Lemma cap_fuel_enough ptr : is_byte ptr ->
  cap_loop 257 base ptr d <> Diverge \/ forall fuel, cap_loop fuel base ptr d = Diverge.
Proof.
  intros Hp. destruct (caps_repeat ptr Hp) as (i & j & Hij & E).
  destruct (decide (Exists (fun k => stops (Nat.iter k next_cap ptr) = true) (seq 0 j))) as [Hs|Hs].
  - left. apply Exists_exists in Hs as (k & Hk%elem_of_seq & Hs). apply (cap_loop_stop k); [done|lia|done].
  - right. intros fuel. apply cap_loop_run_on; [done|]. intros n.
    destruct (iter_periodic i j ptr ltac:(lia) E n) as (m & Hm & ->).
    destruct (stops (Nat.iter m next_cap ptr)) eqn:Es; [|done]. exfalso. apply Hs, Exists_exists.
    exists m. split; [apply elem_of_seq; lia|done].
Qed.
End caps.
