(* ===== verification/Fslog.v ===== *)
(** The write-ahead log, [fslog.rs], over any block layer: the in-memory log,
    the on-disk header, commit, recovery, and the transactions of file system
    calls. *)
From stdpp Require Import base list gmap strings fin_sets.
From Stdlib Require Import ZArith Lia.
From S2P Require Import Prelude.
From S2P Require Import Arch.
From S2P Require Import BlockLayer.

(** ** Data *)
Record Log := mkLog { ldev : Z; lstart : Z; lsize : Z; llen : Z; lblocks : list Z }.
Definition Log_new : Log := mkLog 0 0 0 0 (zrep LOGSIZE 0).

Record LogState := mkLogState { outstanding : Z; committing : bool }.
Definition LogState_new : LogState := mkLogState 0 false.

(** The block layer with [LOG] and [LOG_STATE]. *)
Record Logged (S : Type) := mkLogged { bl : S; lg : Log; st : LogState }.
Arguments mkLogged {S} bl lg st.
Arguments bl {S} l.
Arguments lg {S} l.
Arguments st {S} l.

Definition put_bl {S} (b : S) (t : Logged S) : Logged S := mkLogged b (lg t) (st t).
#[export] Instance logged_ops {S} `{BlockOps S} : BlockOps (Logged S) := zoom_ops bl put_bl.

Definition set_log {S} (l : Log) (t : Logged S) : Logged S := mkLogged (bl t) l (st t).
Definition set_st {S} (x : LogState) (t : Logged S) : Logged S := mkLogged (bl t) (lg t) x.

(** ** [impl Log] *)
Definition set_metadata (dev start size : Z) (l : Log) : Log :=
  mkLog dev start size (llen l) (lblocks l).

Definition header (l : Log) : list Z := zslice (lblocks l) 0 (llen l).

Definition insert (blockno : Z) (l : Log) : outcome Log :=
  if bool_decide (blockno ∈ header l) then Ret l
  else if llen l <? zlen (lblocks l)
       then Ret (mkLog (ldev l) (lstart l) (lsize l) (llen l + 1) (lblocks l).[llen l <- blockno])
       else Panic "index out of bounds".

Definition clear (l : Log) : Log := mkLog (ldev l) (lstart l) (lsize l) 0 (lblocks l).

Definition is_empty (l : Log) : bool := llen l =? 0.

(** [len >= size - 1 || len >= LOGSIZE]; the subtraction panics on an unset
    [size]. *)
Definition is_full (l : Log) : outcome bool :=
  match sub_ovf (lsize l) 1 with
  | Ret s1 => Ret ((s1 <=? llen l) || (LOGSIZE <=? llen l))
  | Panic e => Panic e
  | Diverge => Diverge
  end.

(** The header block as an array of 64-bit words. *)
Definition get_word (blk : list Z) (k : Z) : Z := from_le (zslice blk (8 * k) (8 * k + 8)).
Definition put_word (k x : Z) (blk : list Z) : list Z := zsplice blk (8 * k) (le_bytes 8 x).
Fixpoint put_words (k : Z) (ws : list Z) (blk : list Z) : list Z :=
  match ws with
  | [] => blk
  | w :: ws' => put_words (k + 1) ws' (put_word k w blk)
  end.

Section log.
Context {S : Type} `{BlockOps S}.
Notation L := (M (Logged S)).

Fixpoint insert_all (bs : list Z) (l : Log) : outcome Log :=
  match bs with
  | [] => Ret l
  | b :: bs' =>
    match insert b l with
    | Ret l' => insert_all bs' l'
    | Panic e => Panic e
    | Diverge => Diverge
    end
  end.

(** The size check of [read]: [len >= LOGSIZE || len >= size - 1]. *)
Definition header_too_large (len size : Z) : outcome bool :=
  if LOGSIZE <=? len then Ret true
  else match sub_ovf size 1 with
       | Ret s1 => Ret (s1 <=? len)
       | Panic e => Panic e
       | Diverge => Diverge
       end.

Definition unwrap {A} (m : L (result A)) : L A := r ← m; expect_ok r "unwrap on an Err value".

Definition Log_read : L unit :=
  l ← gets lg;
  unwrap (bwith (ldev l) (lstart l) (fun hb =>
    blk ← bdata hb;
    let len := get_word blk 0 in
    lift (add_ovf 64 len 1);;
    big ← lift (header_too_large len (lsize l));
    if (big : bool) then panic "corrupt log too large" else
    l' ← lift (insert_all (get_word blk <$> zrange 1 (len + 1)) (clear l));
    modify (set_log l'))).

Definition Log_write : L unit :=
  l ← gets lg;
  unwrap (bwith (ldev l) (lstart l) (fun hb =>
    blk ← bdata hb;
    bset hb (put_words 1 (header l) (put_word 0 (llen l) blk));;
    bwrite hb)).

(** One round of [sync] and of [commit]: copy a home block to its log block,
    and back. *)
Definition sync_one (l : Log) (tail blockno : Z) : L unit :=
  unwrap (bwith (ldev l) (lstart l + tail + 1) (fun to =>
    unwrap (bwith (ldev l) blockno (fun from =>
      src ← bdata from;
      bset to src;;
      bwrite to)))).

Definition commit_one (l : Log) (tail blockno : Z) : L unit :=
  unwrap (bwith (ldev l) (lstart l + tail + 1) (fun from =>
    unwrap (bwith (ldev l) blockno (fun to =>
      src ← bdata from;
      bset to src;;
      bwrite to)))).

Fixpoint for_each (f : Z -> Z -> L unit) (tail : Z) (bs : list Z) : L unit :=
  match bs with
  | [] => mret tt
  | b :: bs' => f tail b;; for_each f (tail + 1) bs'
  end.

Definition Log_sync : L unit := l ← gets lg; for_each (sync_one l) 0 (header l).
Definition Log_commit : L unit := l ← gets lg; for_each (commit_one l) 0 (header l).

(** ** Transactions *)
Definition op_commit : L unit :=
  l ← gets lg;
  if negb (is_empty l) then
    Log_sync;;
    Log_write;;
    Log_commit;;
    modify (fun t => set_log (clear (lg t)) t);;
    Log_write
  else mret tt.

(** [begin] when it does not have to wait; the loop sleeps, so in the
    sequential reading does not return, while a commit runs or the log may
    run out. *)
Definition op_ready_to_begin (l : Log) (x : LogState) : bool :=
  negb (committing x) && (llen l + (outstanding x + 1) * MAXOPBLOCKS <=? LOGSIZE).

(** The sections of [begin] and [end] under the lock of the state; [end]'s
    first says whether this call commits, its second follows the commit. *)
Definition begin_section (x : LogState) : LogState := mkLogState (outstanding x + 1) (committing x).
Definition end_section (x : LogState) : outcome (bool * LogState) :=
  if committing x then Panic "op end during commit" else
  match sub_ovf (outstanding x) 1 with
  | Ret n => Ret (if n =? 0 then (true, mkLogState n true) else (false, mkLogState n false))
  | Panic e => Panic e
  | Diverge => Diverge
  end.
Definition commit_done (x : LogState) : LogState := mkLogState (outstanding x) false.

Definition op_begin : L unit :=
  t ← gets id;
  if op_ready_to_begin (lg t) (st t)
  then modify (set_st (begin_section (st t)))
  else diverge.

Definition op_end : L unit :=
  x ← gets st;
  r ← lift (end_section x);
  modify (set_st (snd r));;
  if fst r : bool then
    op_commit;;
    modify (fun t => set_st (commit_done (st t)) t)
  else mret tt.

Definition with_op {A} (thunk : L A) : L A :=
  op_begin;;
  r ← thunk;
  op_end;;
  mret r.

Definition recover : L unit :=
  Log_read;;
  Log_commit;;
  modify (fun t => set_log (clear (lg t)) t);;
  Log_write.

(** [init], with the two fields of the superblock it uses. *)
Definition log_init (dev log_start nlog : Z) : L unit :=
  modify (fun t => set_log (set_metadata dev log_start nlog (lg t)) t);;
  recover.

(** [fslog::write]. *)
Definition log_write (bp : Z) : L unit :=
  locked ← bis_locked bp;
  assert_ locked "assertion failed: bp.is_locked()";;
  t ← gets id;
  full ← lift (is_full (lg t));
  if (full : bool) then panic "transaction too big" else
  if outstanding (st t) <? 1 then panic "logged write outside of transaction" else
  n ← bblockno bp;
  l ← lift (insert n (lg t));
  modify (set_log l);;
  bpin bp.
End log.

(** ** Running block accesses *)
Lemma dev_write_through a h n d :
  held a !! h = None ->
  dev_drop h (dev_flush n (dev_set n d (dev_hold h n a))) = after_write a (n, d).
Proof.
  intros Hh. unfold dev_drop, dev_flush, dev_set, dev_hold, after_write. cbn.
  rewrite fupd_eq. f_equal. by apply delete_insert_id.
Qed.

Lemma dev_copy_out a hx hy x y d :
  held a !! hx = None -> held (dev_hold hx x a) !! hy = None ->
  dev_drop hx (dev_drop hy (dev_flush x (dev_set x d (dev_hold hy y (dev_hold hx x a))))) =
  after_write a (x, d).
Proof.
  intros Hx Hy. unfold dev_drop, dev_flush, dev_set, dev_hold, after_write in *. cbn in *.
  rewrite fupd_eq. f_equal. rewrite (delete_insert_id _ hy) by done. by apply delete_insert_id.
Qed.

Lemma dev_copy_in a hx hy x y d :
  held a !! hx = None -> held (dev_hold hx x a) !! hy = None ->
  dev_drop hx (dev_drop hy (dev_flush y (dev_set y d (dev_hold hy y (dev_hold hx x a))))) =
  after_write a (y, d).
Proof.
  intros Hx Hy. unfold dev_drop, dev_flush, dev_set, dev_hold, after_write in *. cbn in *.
  rewrite fupd_eq. f_equal. rewrite (delete_insert_id _ hy) by done. by apply delete_insert_id.
Qed.

Section running.
Context {S : Type} `{BL : BlockLaws S}.
Implicit Types (t : Logged S) (a : Dev).

Definition has_room (a : Dev) (n : Z) : Prop :=
  n ∈ dirty a \/ Z.of_nat (size (dirty a)) + Z.of_nat (size (held a)) < capacity.

Lemma put_bl_put b b' t : put_bl b (put_bl b' t) = put_bl b t.
Proof. done. Qed.

Lemma lbread t a n :
  rep (bl t) a -> 0 <= n -> (forall h, held a !! h <> Some n) -> has_room a n ->
  exists h b, bread ROOTDEV n t = Ret (Ok h, put_bl b t) /\ held a !! h = None /\
    rep b (dev_hold h n a).
Proof.
  intros Hr Hn Hh Hroom. destruct (bread_law _ _ n Hr Hn Hh Hroom) as (h & s' & E & H1 & H2).
  exists h, s'. split; [by apply zoom_run|done].
Qed.

Lemma lbrelse t a h n :
  rep (bl t) a -> held a !! h = Some n -> n ∈ dirty a \/ view a n = media a n ->
  exists b, brelse h t = Ret (tt, put_bl b t) /\ rep b (dev_drop h a).
Proof.
  intros Hr Hh Hc. destruct (brelse_law _ _ h n Hr Hh Hc) as (s' & E & H1).
  exists s'. split; [by apply zoom_run|done].
Qed.

Lemma lbdata t a h n : rep (bl t) a -> held a !! h = Some n -> bdata h t = Ret (view a n, t).
Proof.
  intros Hr Hh. pose proof (bdata_law _ _ h n Hr Hh) as E.
  cbn. rewrite (zoom_run _ _ _ _ _ _ E). by destruct t.
Qed.

Lemma lbset t a h n d :
  rep (bl t) a -> held a !! h = Some n -> zlen d = BSIZE ->
  exists b, bset h d t = Ret (tt, put_bl b t) /\ rep b (dev_set n d a).
Proof.
  intros Hr Hh Hd. destruct (bset_law _ _ h n d Hr Hh Hd) as (s' & E & H1).
  exists s'. split; [by apply zoom_run|done].
Qed.

Lemma lbwrite t a h n :
  rep (bl t) a -> held a !! h = Some n ->
  exists b, bwrite h t = Ret (tt, put_bl b t) /\ rep b (dev_flush n a).
Proof.
  intros Hr Hh. destruct (bwrite_law _ _ h n Hr Hh) as (s' & E & H1).
  exists s'. split; [by apply zoom_run|done].
Qed.

Lemma unwrap_run {A} (m : M (Logged S) (result A)) t x t' :
  m t = Ret (Ok x, t') -> unwrap m t = Ret (x, t').
Proof. intros E. unfold unwrap. by rewrite (bind_run _ _ _ _ _ E). Qed.

Lemma bwith_run {A} (n : Z) (thunk : Z -> M (Logged S) A) t h t1 x t2 t3 :
  bread ROOTDEV n t = Ret (Ok h, t1) -> thunk h t1 = Ret (x, t2) -> brelse h t2 = Ret (tt, t3) ->
  bwith ROOTDEV n thunk t = Ret (Ok x, t3).
Proof.
  intros E1 E2 E3. unfold bwith. rewrite (try_run _ _ _ _ _ E1), (bind_run _ _ _ _ _ E2).
  by rewrite (bind_run _ _ _ _ _ E3).
Qed.

Lemma held_fresh a (h : Z) n : held a = ∅ -> held a !! h <> Some n.
Proof. intros ->. by rewrite lookup_empty. Qed.

(** Rewriting one block through the cache. *)
Lemma rewrite_block_run t a n (f : list Z -> list Z) :
  rep (bl t) a -> held a = ∅ -> 0 <= n -> has_room a n -> zlen (f (view a n)) = BSIZE ->
  exists b, unwrap (bwith ROOTDEV n (fun hb => blk ← bdata hb; bset hb (f blk);; bwrite hb)) t
      = Ret (tt, put_bl b t) /\ rep b (after_write a (n, f (view a n))).
Proof.
  intros Hr Hh Hn Hroom Hlen.
  destruct (lbread t a n Hr Hn (fun h => held_fresh a h n Hh) Hroom) as (h & b1 & E1 & Hh1 & R1).
  assert (Hk1 : held (dev_hold h n a) !! h = Some n) by apply lookup_insert_eq.
  destruct (lbset (put_bl b1 t) _ h n _ R1 Hk1 Hlen) as (b2 & E2 & R2).
  destruct (lbwrite (put_bl b2 t) _ h n R2 Hk1) as (b3 & E3 & R3).
  destruct (lbrelse (put_bl b3 t) _ h n R3 Hk1) as (b4 & E4 & R4).
  { right. cbn. by rewrite !fupd_eq. }
  rewrite dev_write_through in R4 by done.
  exists b4. split; [|done]. apply unwrap_run. eapply bwith_run; [exact E1| |exact E4].
  rewrite (bind_run _ _ _ _ _ (lbdata (put_bl b1 t) _ h n R1 Hk1)).
  rewrite (bind_run _ _ _ _ _ E2). exact E3.
Qed.

(** Both buffers of a copy, held: [x] first, then [y]. *)
Lemma two_reads t a x y :
  rep (bl t) a -> held a = ∅ -> 0 <= x -> 0 <= y -> x <> y -> has_room a x ->
  y ∈ dirty a \/ Z.of_nat (size (dirty a)) + 1 < capacity ->
  exists hx hy b1 b2,
    bread ROOTDEV x t = Ret (Ok hx, put_bl b1 t) /\
    bread ROOTDEV y (put_bl b1 t) = Ret (Ok hy, put_bl b2 t) /\
    held a !! hx = None /\ held (dev_hold hx x a) !! hy = None /\
    rep b2 (dev_hold hy y (dev_hold hx x a)) /\
    held (dev_hold hy y (dev_hold hx x a)) !! hx = Some x /\
    held (dev_hold hy y (dev_hold hx x a)) !! hy = Some y /\ hx <> hy.
Proof.
  intros Hr Hh Hx Hy Hxy Hroom Hroom2.
  destruct (lbread t a x Hr Hx (fun h => held_fresh a h x Hh) Hroom) as (hx & b1 & E1 & Hh1 & R1).
  assert (forall h, held (dev_hold hx x a) !! h <> Some y) as Hny.
  { intros h. cbn. destruct (decide (hx = h)) as [->|]; [rewrite lookup_insert_eq; congruence|].
    rewrite lookup_insert_ne, Hh by done. done. }
  assert (has_room (dev_hold hx x a) y) as Hry.
  { destruct Hroom2 as [|Hs]; [by left|right]. cbn. rewrite Hh, map_size_insert_None by done.
    by rewrite map_size_empty. }
  destruct (lbread (put_bl b1 t) _ y R1 Hy Hny Hry) as (hy & b2 & E2 & Hh2 & R2).
  assert (hx <> hy) as Hne by (intros ->; cbn in Hh2; by rewrite lookup_insert_eq in Hh2).
  exists hx, hy, b1, b2. do 5 (split; [done|]). split; [|split; [apply lookup_insert_eq|done]].
  cbn. rewrite lookup_insert_ne by done. apply lookup_insert_eq.
Qed.

(** Copying a home block to the log, and a log block home. *)
Lemma sync_one_run l t a k y :
  rep (bl t) a -> held a = ∅ -> ldev l = ROOTDEV ->
  let x := lstart l + k + 1 in
  0 <= x -> 0 <= y -> x <> y -> has_room a x -> y ∈ dirty a ->
  exists b, sync_one l k y t = Ret (tt, put_bl b t) /\ rep b (after_write a (x, view a y)).
Proof.
  intros Hr Hh Hd x Hx Hy Hxy Hroom Hdy.
  destruct (two_reads t a x y) as (hx & hy & b1 & b2 & E1 & E2 & Hh1 & Hh2 & R2 & Hkx & Hky & Hne);
    try done; [by left|].
  destruct (lbset (put_bl b2 t) _ hx x (view a y) R2 Hkx (rep_len _ _ y Hr)) as (b3 & E3 & R3).
  destruct (lbwrite (put_bl b3 t) _ hx x R3 Hkx) as (b4 & E4 & R4).
  destruct (lbrelse (put_bl b4 t) _ hy y R4 Hky) as (b5 & E5 & R5); [left; cbn; set_solver|].
  destruct (lbrelse (put_bl b5 t) _ hx x R5) as (b6 & E6 & R6).
  { cbn. by rewrite lookup_delete_ne, lookup_insert_ne, lookup_insert_eq by done. }
  { right. cbn. by rewrite !fupd_eq. }
  rewrite dev_copy_out in R6 by done.
  exists b6. split; [|done]. unfold sync_one. rewrite Hd. apply unwrap_run.
  eapply bwith_run; [exact E1| |exact E6]. apply unwrap_run. eapply bwith_run; [exact E2| |exact E5].
  rewrite (bind_run _ _ _ _ _ (lbdata (put_bl b2 t) _ hy y R2 Hky)).
  rewrite (bind_run _ _ _ _ _ E3). exact E4.
Qed.

Lemma commit_one_run l t a k y :
  rep (bl t) a -> held a = ∅ -> ldev l = ROOTDEV ->
  let x := lstart l + k + 1 in
  0 <= x -> 0 <= y -> x <> y -> x ∉ dirty a -> has_room a x ->
  y ∈ dirty a \/ Z.of_nat (size (dirty a)) + 1 < capacity ->
  exists b, commit_one l k y t = Ret (tt, put_bl b t) /\ rep b (after_write a (y, view a x)).
Proof.
  intros Hr Hh Hd x Hx Hy Hxy Hcl Hroom Hroom2.
  destruct (two_reads t a x y) as (hx & hy & b1 & b2 & E1 & E2 & Hh1 & Hh2 & R2 & Hkx & Hky & Hne); try done.
  destruct (lbset (put_bl b2 t) _ hy y (view a x) R2 Hky (rep_len _ _ x Hr)) as (b3 & E3 & R3).
  destruct (lbwrite (put_bl b3 t) _ hy y R3 Hky) as (b4 & E4 & R4).
  destruct (lbrelse (put_bl b4 t) _ hy y R4 Hky) as (b5 & E5 & R5).
  { right. cbn. by rewrite !fupd_eq. }
  destruct (lbrelse (put_bl b5 t) _ hx x R5) as (b6 & E6 & R6).
  { cbn. by rewrite lookup_delete_ne, lookup_insert_ne, lookup_insert_eq by done. }
  { right. cbn. rewrite !fupd_ne by done.
    apply (rep_clean _ _ _ Hr Hcl). intros h. by apply held_fresh. }
  rewrite dev_copy_in in R6 by done.
  exists b6. split; [|done]. unfold commit_one. rewrite Hd. apply unwrap_run.
  eapply bwith_run; [exact E1| |exact E6]. apply unwrap_run. eapply bwith_run; [exact E2| |exact E5].
  rewrite (bind_run _ _ _ _ _ (lbdata (put_bl b2 t) _ hx x R2 Hkx)).
  rewrite (bind_run _ _ _ _ _ E3). exact E4.
Qed.
End running.

(** ** The write traces of [sync] and [commit] *)
Fixpoint out_trace (x : Z) (bs : list Z) (v : Z -> list Z) : list (Z * list Z) :=
  match bs with [] => [] | b :: bs' => (x, v b) :: out_trace (x + 1) bs' v end.
Fixpoint in_trace (x : Z) (bs : list Z) (v : Z -> list Z) : list (Z * list Z) :=
  match bs with [] => [] | b :: bs' => (b, v x) :: in_trace (x + 1) bs' v end.

Lemma out_trace_ext x bs v v' :
  (forall b, b ∈ bs -> v b = v' b) -> out_trace x bs v = out_trace x bs v'.
Proof.
  revert x. induction bs as [|b bs IH]; intros x Hv; [done|]. cbn.
  rewrite Hv by set_solver. f_equal. apply IH. set_solver.
Qed.

Lemma in_trace_ext x bs v v' :
  (forall i, x <= i < x + zlen bs -> v i = v' i) -> in_trace x bs v = in_trace x bs v'.
Proof.
  revert x. induction bs as [|b bs IH]; intros x Hv; [done|]. rewrite zlen_cons in Hv.
  pose proof (zlen_nonneg bs). cbn. rewrite Hv by lia. f_equal. apply IH. intros. apply Hv. lia.
Qed.

Lemma out_trace_fst x bs v n : n ∈ (out_trace x bs v).*1 <-> x <= n < x + zlen bs.
Proof.
  revert x. induction bs as [|b bs IH]; intros x; cbn [out_trace fmap list_fmap].
  - split; [by intros ?%not_elem_of_nil|]. unfold zlen. cbn. lia.
  - rewrite elem_of_cons, IH, zlen_cons. cbn. pose proof (zlen_nonneg bs). lia.
Qed.

Lemma in_trace_fst x bs v : (in_trace x bs v).*1 = bs.
Proof. revert x. induction bs as [|b bs IH]; intros x; [done|]. cbn. f_equal. apply IH. Qed.

Section loops.
Context {S : Type} `{BL : BlockLaws S}.
Implicit Types (t : Logged S) (a : Dev).

(** Block numbers that do not meet the range of [n] log blocks at [x]. *)
Definition clear_of (x n b : Z) : Prop := 0 <= b /\ (b < x \/ x + n <= b).

Lemma size_after_write a w : (size (dirty (after_write a w)) <= size (dirty a))%nat.
Proof. apply subseteq_size. cbn. set_solver. Qed.

Lemma sync_loop l k bs t a :
  rep (bl t) a -> held a = ∅ -> ldev l = ROOTDEV ->
  let x := lstart l + k + 1 in
  0 <= x -> Z.of_nat (size (dirty a)) < capacity ->
  (forall b, b ∈ bs -> clear_of x (zlen bs) b /\ b ∈ dirty a) ->
  exists b, for_each (sync_one l) k bs t = Ret (tt, put_bl b t) /\
    rep b (fold_left after_write (out_trace x bs (view a)) a).
Proof.
  revert k t a. induction bs as [|y bs IH]; intros k t a Hr Hh Hd x Hx Hcap Hbs.
  - exists (bl t). by destruct t.
  - destruct (Hbs y) as [[Hy Hxy] Hdy]; [set_solver|]. rewrite zlen_cons in *.
    pose proof (zlen_nonneg bs).
    destruct (sync_one_run l t a k y) as (b1 & E1 & R1); try done; [lia|right; by rewrite Hh, map_size_empty, Z.add_0_r|].
    fold x in R1. set (a1 := after_write a (x, view a y)) in *.
    pose proof (size_after_write a (x, view a y)) as Hsz. fold a1 in Hsz.
    destruct (IH (k + 1) (put_bl b1 t) a1) as (b2 & E2 & R2); try done; [lia|lia| |].
    { intros b Hb. destruct (Hbs b) as [[Hb0 Hb1] Hb2]; [set_solver|].
      split; [split; lia|]. cbn. assert (b <> x) by lia. set_solver. }
    exists b2. split; [cbn [for_each]; by rewrite (bind_run _ _ _ _ _ E1)|].
    cbn [out_trace fold_left]. fold a1. replace (lstart l + (k + 1) + 1) with (x + 1) in R2 by lia.
    rewrite (out_trace_ext _ _ (view a) (view a1)); [done|].
    intros b Hb. destruct (Hbs b) as [[Hb0 Hb1] Hb2]; [set_solver|]. cbn. rewrite fupd_ne by lia. done.
Qed.

Lemma commit_loop l k bs t a :
  rep (bl t) a -> held a = ∅ -> ldev l = ROOTDEV ->
  let x := lstart l + k + 1 in
  0 <= x -> Z.of_nat (size (dirty a)) < capacity -> NoDup bs ->
  (forall b, b ∈ bs -> clear_of x (zlen bs) b /\
     (b ∈ dirty a \/ Z.of_nat (size (dirty a)) + 1 < capacity)) ->
  (forall i, x <= i < x + zlen bs -> i ∉ dirty a) ->
  exists b, for_each (commit_one l) k bs t = Ret (tt, put_bl b t) /\
    rep b (fold_left after_write (in_trace x bs (view a)) a).
Proof.
  revert k t a. induction bs as [|y bs IH]; intros k t a Hr Hh Hd x Hx Hcap Hnd Hbs Hcl.
  - exists (bl t). by destruct t.
  - destruct (Hbs y) as [[Hy Hxy] Hdy]; [set_solver|]. rewrite zlen_cons in *.
    pose proof (zlen_nonneg bs). apply NoDup_cons in Hnd as [Hny Hnd].
    destruct (commit_one_run l t a k y) as (b1 & E1 & R1); try done;
      [lia|apply Hcl; lia|right; by rewrite Hh, map_size_empty, Z.add_0_r|].
    fold x in R1. set (a1 := after_write a (y, view a x)) in *.
    pose proof (size_after_write a (y, view a x)) as Hsz. fold a1 in Hsz.
    destruct (IH (k + 1) (put_bl b1 t) a1) as (b2 & E2 & R2); try done; [lia|lia| | |].
    { intros b Hb. destruct (Hbs b) as [[Hb0 Hb1] Hb2]; [set_solver|].
      split; [split; lia|]. destruct Hb2; [left|right; lia]. cbn.
      assert (b <> y) by (by intros ->). set_solver. }
    { intros i Hi. cbn. specialize (Hcl i ltac:(lia)). set_solver. }
    exists b2. split; [cbn [for_each]; by rewrite (bind_run _ _ _ _ _ E1)|].
    cbn [in_trace fold_left]. fold a1. replace (lstart l + (k + 1) + 1) with (x + 1) in R2 by lia.
    rewrite (in_trace_ext _ _ (view a) (view a1)); [done|].
    intros i Hi. cbn. rewrite fupd_ne by lia. done.
Qed.
End loops.

(** ** The header block *)
Lemma zlen_put_word k x blk :
  0 <= k -> 8 * k + 8 <= zlen blk -> zlen (put_word k x blk) = zlen blk.
Proof. intros. apply zlen_zsplice; rewrite ?zlen_le_bytes; lia. Qed.

Lemma get_put_word k x blk :
  0 <= k -> 8 * k + 8 <= zlen blk -> uN 64 x -> get_word (put_word k x blk) k = x.
Proof.
  intros Hk Hl Hx. unfold get_word, put_word.
  replace (8 * k + 8) with (8 * k + zlen (le_bytes 8 x)) by (rewrite zlen_le_bytes; lia).
  rewrite zslice_zsplice by (rewrite ?zlen_le_bytes; lia). by apply from_le_le_bytes.
Qed.

Lemma get_put_word_ne k k' x blk :
  0 <= k -> 0 <= k' -> k <> k' -> 8 * k + 8 <= zlen blk -> 8 * k' + 8 <= zlen blk ->
  get_word (put_word k x blk) k' = get_word blk k'.
Proof.
  intros Hk Hk' Hne Hl Hl'. unfold get_word. f_equal. apply zslice_zsplice_out; rewrite ?zlen_le_bytes; lia.
Qed.

Lemma zlen_put_words k ws blk :
  0 <= k -> 8 * (k + zlen ws) <= zlen blk -> zlen (put_words k ws blk) = zlen blk.
Proof.
  revert k blk. induction ws as [|w ws IH]; intros k blk Hk Hl; [done|].
  rewrite zlen_cons in Hl. pose proof (zlen_nonneg ws). cbn.
  rewrite IH; rewrite ?zlen_put_word; lia.
Qed.

Lemma get_put_words_lt k j ws blk :
  0 <= j < k -> 8 * (k + zlen ws) <= zlen blk -> get_word (put_words k ws blk) j = get_word blk j.
Proof.
  revert k blk. induction ws as [|w ws IH]; intros k blk Hk Hl; [done|].
  rewrite zlen_cons in Hl. pose proof (zlen_nonneg ws). cbn.
  rewrite IH; rewrite ?zlen_put_word; try lia. apply get_put_word_ne; lia.
Qed.

Lemma get_put_words k ws blk :
  0 <= k -> 8 * (k + zlen ws) <= zlen blk -> Forall (uN 64) ws ->
  get_word (put_words k ws blk) <$> zrange k (k + zlen ws) = ws.
Proof.
  revert k blk. induction ws as [|w ws IH]; intros k blk Hk Hl Hu.
  - rewrite Z.add_0_r. unfold zrange, step_range. by rewrite Z.ltb_irrefl.
  - rewrite zlen_cons in *. pose proof (zlen_nonneg ws). inversion Hu; subst.
    rewrite zrange_cons by lia. cbn [fmap list_fmap put_words]. f_equal.
    + rewrite get_put_words_lt by (rewrite ?zlen_put_word; lia). apply get_put_word; [lia|lia|done].
    + replace (k + (1 + zlen ws)) with (k + 1 + zlen ws) by lia.
      apply IH; [lia|rewrite zlen_put_word; lia|done].
Qed.

(** The header block written for entries [bs] over the old contents. *)
Definition hdr_block (bs : list Z) (blk : list Z) : list Z :=
  put_words 1 bs (put_word 0 (zlen bs) blk).

Definition hdr_is (blk : list Z) (bs : list Z) : Prop :=
  get_word blk 0 = zlen bs /\ get_word blk <$> zrange 1 (zlen bs + 1) = bs.

Lemma hdr_block_ok bs blk :
  zlen blk = BSIZE -> zlen bs <= LOGSIZE -> Forall (uN 64) bs ->
  zlen (hdr_block bs blk) = BSIZE /\ hdr_is (hdr_block bs blk) bs.
Proof.
  intros Hb Hl Hu. pose proof (zlen_nonneg bs).
  assert (BSIZE = 4096) as HB by done. assert (LOGSIZE = 511) as HL by done.
  assert (zlen (put_word 0 (zlen bs) blk) = zlen blk) as Hz by (apply zlen_put_word; lia).
  unfold hdr_block. split; [rewrite zlen_put_words; lia|]. split.
  - rewrite get_put_words_lt by lia. apply get_put_word; [lia|lia|]. unfold uN. lia.
  - rewrite (Z.add_comm (zlen bs) 1). apply get_put_words; [lia|lia|done].
Qed.

Lemma hdr_is_det blk bs bs' : hdr_is blk bs -> hdr_is blk bs' -> bs = bs'.
Proof. intros [H1 H2] [H3 H4]. rewrite H1 in H3. rewrite <-H2, <-H4. by rewrite H3. Qed.

(** ** The in-memory log *)
Definition wf_log (l : Log) : Prop :=
  zlen (lblocks l) = LOGSIZE /\ 0 <= llen l <= LOGSIZE.

Lemma zlen_header l : wf_log l -> zlen (header l) = llen l.
Proof. intros [H1 H2]. unfold header. rewrite zlen_zslice; lia. Qed.

Lemma insert_run l b :
  wf_log l -> b ∉ header l -> llen l < LOGSIZE ->
  exists l', insert b l = Ret l' /\ wf_log l' /\ header l' = header l ++ [b] /\
    llen l' = llen l + 1 /\ ldev l' = ldev l /\ lstart l' = lstart l /\ lsize l' = lsize l.
Proof.
  intros [H1 H2] Hb Hlt. unfold insert. rewrite bool_decide_eq_false_2 by done.
  rewrite H1, (proj2 (Z.ltb_lt _ _) Hlt). eexists. split; [done|]. cbn.
  split; [split; cbn; rewrite ?zlen_zset; lia|]. split; [|done].
  unfold header. cbn. apply znth_ext.
  - rewrite zlen_app, !zlen_zslice; rewrite ?zlen_zset; try lia. unfold zlen. cbn. lia.
  - intros i Hi. rewrite zlen_zslice in Hi by (rewrite ?zlen_zset; lia).
    rewrite znth_zslice by lia. destruct (decide (i < llen l)).
    + rewrite znth_app_l by (rewrite zlen_zslice; lia). rewrite znth_zslice by lia.
      by rewrite znth_zset_ne by lia.
    + rewrite znth_app_r by (rewrite zlen_zslice; lia). rewrite zlen_zslice by lia.
      replace i with (llen l) by lia. rewrite Z.sub_0_r, Z.sub_diag, Z.add_0_l.
      rewrite znth_zset_eq by lia. done.
Qed.

Lemma insert_all_run bs l :
  wf_log l -> NoDup (header l ++ bs) -> llen l + zlen bs <= LOGSIZE ->
  exists l', insert_all bs l = Ret l' /\ wf_log l' /\ header l' = header l ++ bs /\
    ldev l' = ldev l /\ lstart l' = lstart l /\ lsize l' = lsize l.
Proof.
  revert l. induction bs as [|b bs IH]; intros l Hw Hnd Hl.
  - exists l. by rewrite app_nil_r.
  - rewrite zlen_cons in Hl. pose proof (zlen_nonneg bs).
    apply NoDup_app in Hnd as Hnd'. destruct Hnd' as (_ & Hd & _).
    destruct (insert_run l b Hw) as (l1 & E & Hw1 & Hh1 & Hl1 & D1 & S1 & Z1);
      [intros Hb; apply (Hd b Hb); set_solver|lia|].
    rewrite cons_middle, app_assoc, <-Hh1 in Hnd.
    destruct (IH l1 Hw1 Hnd) as (l2 & E2 & Hw2 & Hh2 & D2 & S2 & Z2); [lia|].
    exists l2. cbn. rewrite E, Hh2, Hh1, <-app_assoc. do 3 (split; [done|]). by rewrite D2, S2, Z2.
Qed.

(** ** Commit and recovery, run to completion *)
Definition log_at (l : Log) (start size : Z) : Prop :=
  ldev l = ROOTDEV /\ lstart l = start /\ lsize l = size.

(** A block number outside the log's [size] blocks at [start]. *)
Definition outside (start size n : Z) : Prop := 0 <= n /\ (n < start \/ start + size <= n).

(** Entries the log may hold. *)
Definition entries_ok (start size : Z) (bs : list Z) : Prop :=
  0 <= start /\ 0 < size /\ NoDup bs /\ Forall (uN 64) bs /\ zlen bs <= LOGSIZE /\ zlen bs <= size - 1 /\
  (forall b, b ∈ bs -> outside start size b).

Lemma in_trace_out_trace x bs v f :
  (forall b, b ∈ bs -> b < x \/ x + zlen bs <= b) ->
  in_trace x bs (apply_writes f (out_trace x bs v)) = (fun b => (b, v b)) <$> bs.
Proof.
  revert x f. induction bs as [|b bs IH]; intros x f Hb; [done|].
  rewrite zlen_cons in Hb. pose proof (zlen_nonneg bs).
  cbn [in_trace out_trace fmap list_fmap]. rewrite apply_writes_cons. f_equal.
  - f_equal. rewrite apply_writes_other; [apply fupd_eq|]. rewrite out_trace_fst. lia.
  - apply IH. intros y Hy. specialize (Hb y ltac:(set_solver)). lia.
Qed.

Definition commit_trace (start : Z) (bs : list Z) (v : Z -> list Z) : list (Z * list Z) :=
  out_trace (start + 1) bs v ++ [(start, hdr_block bs (v start))] ++
  ((fun b => (b, v b)) <$> bs) ++ [(start, hdr_block [] (hdr_block bs (v start)))].

Definition recover_trace (start : Z) (bs : list Z) (d : Z -> list Z) : list (Z * list Z) :=
  in_trace (start + 1) bs d ++ [(start, hdr_block [] (d start))].

Section run.
Context {S : Type} `{BL : BlockLaws S}.
Hypothesis room : LOGSIZE < capacity.
Implicit Types (t : Logged S) (a : Dev).

Lemma Log_write_run t a start size :
  rep (bl t) a -> held a = ∅ -> Z.of_nat (base.size (dirty a)) < capacity ->
  wf_log (lg t) -> log_at (lg t) start size -> 0 <= start -> Forall (uN 64) (header (lg t)) ->
  exists b, Log_write t = Ret (tt, put_bl b t) /\
    rep b (after_write a (start, hdr_block (header (lg t)) (view a start))).
Proof.
  intros Hr Hh Hcap Hw (Hd & Hs & Hz) Hst Hu.
  pose proof (zlen_header _ Hw) as Hl. destruct Hw as [_ Hw2].
  destruct (hdr_block_ok (header (lg t)) (view a start)) as [Hlen _]; [by apply rep_len with (bl t)|lia|done|].
  destruct (rewrite_block_run t a start (fun blk => put_words 1 (header (lg t)) (put_word 0 (llen (lg t)) blk)))
    as (b & E & R); try done.
  - right. by rewrite Hh, map_size_empty, Z.add_0_r.
  - unfold hdr_block in Hlen. by rewrite Hl in Hlen.
  - exists b. unfold Log_write. rewrite bind_gets, Hd, Hs. split; [exact E|].
    unfold hdr_block. by rewrite Hl.
Qed.

Lemma size_after_writes a tr : (base.size (dirty (fold_left after_write tr a)) <= base.size (dirty a))%nat.
Proof. apply subseteq_size. intros n Hn. by apply dirty_after_writes in Hn as [? _]. Qed.

(** A transaction's log, ready to be committed: its entries are exactly the
    pinned blocks. *)
Record committable (t : Logged S) (a : Dev) (start size : Z) (bs : list Z) : Prop := {
  cm_rep : rep (bl t) a;
  cm_held : held a = ∅;
  cm_wf : wf_log (lg t);
  cm_at : log_at (lg t) start size;
  cm_header : header (lg t) = bs;
  cm_entries : entries_ok start size bs;
  cm_dirty : forall b, b ∈ dirty a <-> b ∈ bs }.

Lemma dirty_size a bs : (forall b, b ∈ dirty a <-> b ∈ bs) -> NoDup bs ->
  base.size (dirty a) = length bs.
Proof.
  intros Hd Hnd. assert (dirty a = list_to_set bs) as -> by set_solver. by apply size_list_to_set.
Qed.

Lemma op_commit_run t a start size bs :
  committable t a start size bs -> bs <> [] ->
  exists b, op_commit t = Ret (tt, mkLogged b (clear (lg t)) (st t)) /\
    rep b (fold_left after_write (commit_trace start bs (view a)) a).
Proof.
  intros [Hr Hh Hw Hat Hhd (Hst & Hsz & Hnd & Hu & Hl1 & Hl2 & Hout) Hdirty] Hne.
  pose proof (dirty_size a bs Hdirty Hnd) as Hsize.
  pose proof (zlen_header _ Hw) as Hlen. rewrite Hhd in Hlen.
  assert (Z.of_nat (base.size (dirty a)) < capacity) as Hcap by (rewrite Hsize; unfold zlen in *; lia).
  assert (Hclear : forall b, b ∈ bs -> clear_of (start + 1) (zlen bs) b).
  { intros b Hb. destruct (Hout b Hb). split; lia. }
  destruct Hat as (Hd & Hs & Hz).
  (* the log blocks *)
  destruct (sync_loop (lg t) 0 bs t a) as (b1 & E1 & R1); try done; [lia| |].
  { rewrite Hs, Z.add_0_r. intros b Hb. split; [by apply Hclear|by apply Hdirty]. }
  rewrite Hs, Z.add_0_r in R1. set (a1 := fold_left _ _ a) in R1.
  pose proof (size_after_writes a (out_trace (start + 1) bs (view a))) as Hs1. fold a1 in Hs1.
  (* the header *)
  destruct (Log_write_run (put_bl b1 t) a1 start size) as (b2 & E2 & R2); try done;
    [unfold a1; by rewrite held_after_writes|lia|cbn; by rewrite Hhd|].
  cbn [lg put_bl] in R2. rewrite Hhd in R2.
  assert (view a1 start = view a start) as Hv1.
  { unfold a1. rewrite view_after_writes. apply apply_writes_other. rewrite out_trace_fst. lia. }
  rewrite Hv1 in R2. set (a2 := after_write a1 _) in R2.
  pose proof (size_after_write a1 (start, hdr_block bs (view a start))) as Hs2. fold a2 in Hs2.
  (* the home blocks *)
  destruct (commit_loop (lg t) 0 bs (put_bl b2 t) a2) as (b3 & E3 & R3); try done;
    [unfold a2; cbn; unfold a1; by rewrite held_after_writes|lia|lia| | |].
  { rewrite Hs, Z.add_0_r. intros b Hb. split; [by apply Hclear|]. left. unfold a2. cbn.
    pose proof (Hout b Hb) as [? ?]. apply elem_of_difference. split; [|set_solver by lia].
    apply dirty_after_writes. split; [by apply Hdirty|]. rewrite out_trace_fst. lia. }
  { rewrite Hs, Z.add_0_r. intros i Hi Hin. unfold a2 in Hin. cbn in Hin.
    apply elem_of_difference in Hin as [Hin _]. apply dirty_after_writes in Hin as [_ Hin].
    apply Hin, out_trace_fst. lia. }
  rewrite Hs, Z.add_0_r in R3. rewrite (in_trace_ext _ _ _ (view a1)) in R3.
  2:{ intros i Hi. unfold a2. cbn. by rewrite fupd_ne by lia. }
  unfold a1 in R3 at 1. rewrite view_after_writes, in_trace_out_trace in R3
    by (intros b Hb; destruct (Hclear b Hb); lia).
  set (a3 := fold_left _ _ a2) in R3.
  (* the cleared header *)
  assert (Hs3 : (base.size (dirty a3) <= base.size (dirty a2))%nat) by apply size_after_writes.
  assert (header (clear (lg t)) = []) as Hh0 by done.
  destruct (Log_write_run (mkLogged b3 (clear (lg t)) (st t)) a3 start size) as (b4 & E4 & R4); try done.
  { unfold a3. rewrite held_after_writes. unfold a2. cbn. unfold a1. by rewrite held_after_writes. }
  { lia. }
  { destruct Hw. split; cbn; lia. }
  exists b4. split.
  - unfold op_commit. rewrite bind_gets. unfold is_empty.
    rewrite (proj2 (Z.eqb_neq _ _)) by (rewrite <-Hlen; destruct bs; [done|rewrite zlen_cons; pose proof (zlen_nonneg bs); lia]).
    cbn [negb]. unfold Log_sync, Log_commit.
    erewrite bind_run by (rewrite bind_gets, Hhd; exact E1).
    rewrite (bind_run _ _ _ _ _ E2). erewrite bind_run by (rewrite bind_gets; cbn [lg put_bl]; rewrite Hhd; exact E3).
    rewrite bind_modify. exact E4.
  - cbn [lg] in R4. rewrite Hh0 in R4. unfold commit_trace. rewrite !fold_left_app.
    fold a1. cbn [fold_left]. fold a2. fold a3.
    assert (view a3 start = hdr_block bs (view a start)) as Hv3.
    { unfold a3. rewrite view_after_writes, apply_writes_other; [apply fupd_eq|].
      rewrite <-list_fmap_compose. unfold compose. cbn. rewrite list_fmap_id.
      intros Hin. destruct (Hout _ Hin). lia. }
    by rewrite Hv3 in R4.
Qed.

Lemma dev_drop_hold a h n : held a !! h = None -> dev_drop h (dev_hold h n a) = a.
Proof. intros Hh. destruct a. unfold dev_drop, dev_hold. cbn in *. f_equal. by apply delete_insert_id. Qed.

Lemma header_fits (len size : Z) :
  0 <= len -> len < LOGSIZE -> len < size - 1 -> header_too_large len size = Ret false.
Proof.
  intros H0 H1 H2. unfold header_too_large, sub_ovf. rewrite (proj2 (Z.leb_gt _ _) H1).
  rewrite (proj2 (Z.leb_le 1 size)) by lia. by rewrite (proj2 (Z.leb_gt _ _) H2).
Qed.

Lemma Log_read_run t a start size bs :
  rep (bl t) a -> held a = ∅ -> dirty a = ∅ -> wf_log (lg t) -> log_at (lg t) start size ->
  0 <= start -> hdr_is (view a start) bs -> NoDup bs -> zlen bs < LOGSIZE -> zlen bs < size - 1 ->
  exists b l', Log_read t = Ret (tt, mkLogged b l' (st t)) /\ rep b a /\
    header l' = bs /\ wf_log l' /\ log_at l' start size.
Proof.
  intros Hr Hh Hdy Hw (Hd & Hs & Hz) Hst [Hn Hws] Hnd Hl1 Hl2.
  pose proof (zlen_nonneg bs). assert (LOGSIZE = 511) as HL by done.
  destruct (lbread t a start Hr Hst (fun h => held_fresh a h start Hh)) as (h & b1 & E1 & Hh1 & R1).
  { right. rewrite Hh, Hdy, map_size_empty, size_empty. lia. }
  assert (Hk : held (dev_hold h start a) !! h = Some start) by apply lookup_insert_eq.
  destruct (insert_all_run bs (clear (lg t))) as (l' & E2 & Hw' & Hh' & D' & S' & Z').
  { destruct Hw. split; cbn; lia. }
  { done. }
  { cbn. lia. }
  destruct (lbrelse (mkLogged b1 l' (st t)) _ h start R1 Hk) as (b2 & E3 & R3).
  { right. cbn. apply (rep_clean _ _ _ Hr); [by rewrite Hdy|]. intros h'. by apply held_fresh. }
  rewrite dev_drop_hold in R3 by done.
  exists b2, l'. split; [|split; [done|split; [done|split; [done|by unfold log_at; rewrite D', S', Z']]]].
  unfold Log_read. rewrite bind_gets, Hd, Hs. apply unwrap_run.
  eapply bwith_run; [exact E1| |exact E3].
  rewrite (bind_run _ _ _ _ _ (lbdata (put_bl b1 t) _ h start R1 Hk)).
  cbn [view dev_hold]. rewrite Hn, Hws.
  rewrite (bind_lift _ _ _ (zlen bs + 1)); last first.
  { unfold add_ovf. rewrite (proj2 (Z.ltb_lt _ _)); [done|]. lia. }
  rewrite Hz, (bind_lift _ _ _ _ (header_fits (zlen bs) size ltac:(lia) Hl1 Hl2)).
  by rewrite (bind_lift _ _ _ _ E2).
Qed.

(** A device as the boot finds it. *)
Definition fresh_dev (d : Z -> list Z) : Dev := mkDev d d ∅ ∅ [].

Lemma log_init_run (s : S) d start size bs :
  rep s (fresh_dev d) -> entries_ok start size bs -> hdr_is (d start) bs ->
  zlen bs < LOGSIZE -> zlen bs < size - 1 ->
  exists t, log_init ROOTDEV start size (mkLogged s Log_new LogState_new) = Ret (tt, t) /\
    rep (bl t) (fold_left after_write (recover_trace start bs d) (fresh_dev d)) /\
    header (lg t) = [] /\ wf_log (lg t) /\ log_at (lg t) start size /\ st t = LogState_new.
Proof.
  intros Hr (Hst & Hsz & Hnd & Hu & _ & _ & Hout) Hhdr Hl1 Hl2.
  assert (LOGSIZE = 511) as HL by done. pose proof (zlen_nonneg bs).
  set (t0 := mkLogged s (set_metadata ROOTDEV start size Log_new) LogState_new).
  destruct (Log_read_run t0 (fresh_dev d) start size bs) as (b1 & l1 & E1 & R1 & Hh1 & Hw1 & Hat1); try done.
  pose proof Hat1 as (Hd1 & Hs1 & Hz1).
  destruct (commit_loop l1 0 bs (mkLogged b1 l1 LogState_new) (fresh_dev d)) as (b2 & E2 & R2); try done.
  { lia. }
  { cbn. rewrite size_empty. lia. }
  { intros b Hb. destruct (Hout b Hb). split; [split; lia|]. right. cbn. rewrite size_empty. lia. }
  rewrite Hs1, Z.add_0_r in R2. cbn [view fresh_dev] in R2. set (a2 := fold_left _ _ _) in R2.
  destruct (Log_write_run (mkLogged b2 (clear l1) LogState_new) a2 start size) as (b3 & E3 & R3); try done.
  { unfold a2. by rewrite held_after_writes. }
  { pose proof (size_after_writes (fresh_dev d) (in_trace (start + 1) bs d)) as Hle. fold a2 in Hle.
    cbn in Hle. rewrite size_empty in Hle. lia. }
  { destruct Hw1. split; cbn; lia. }
  exists (put_bl b3 (mkLogged b2 (clear l1) LogState_new)). split.
  - unfold log_init. rewrite bind_modify. unfold recover. rewrite (bind_run _ _ _ _ _ E1).
    unfold Log_commit. erewrite bind_run by (rewrite bind_gets; cbn [lg]; rewrite Hh1; exact E2).
    rewrite bind_modify. exact E3.
  - split; [|split; [done|split; [destruct Hw1; split; cbn; lia|done]]].
    cbn [bl put_bl]. unfold recover_trace. rewrite fold_left_app. fold a2. cbn [fold_left].
    cbn [lg] in R3. assert (header (clear l1) = []) as Hh0 by done. rewrite Hh0 in R3.
    assert (view a2 start = d start) as Hv; [|by rewrite Hv in R3].
    unfold a2. rewrite view_after_writes, apply_writes_other; [done|].
    rewrite in_trace_fst. intros Hin. destruct (Hout _ Hin). lia.
Qed.
End run.
