(* ===== verification/FslogCrash.v ===== *)
(** Crash atomicity of the log: a crash after any prefix of the disk writes
    of a commit, followed by any number of recoveries that crash in turn,
    leaves either all of the transaction or none of it. *)
From stdpp Require Import base list gmap strings fin_sets.
From Stdlib Require Import ZArith Lia.
From S2P Require Import Prelude.
From S2P Require Import Arch.
From S2P Require Import BlockLayer.
From S2P Require Import Fslog.

(** ** Disks on the way to a target state *)
Section settles.
Context (start size : Z) (bs : list Z).

Definition home_eq (d tgt : Z -> list Z) : Prop := forall n, outside start size n -> d n = tgt n.

(** The log is empty and the home blocks are those of [tgt]. *)
Definition quiet (d tgt : Z -> list Z) : Prop := hdr_is (d start) [] /\ home_eq d tgt.

(** The log holds a committed copy of what [tgt] has at the blocks [bs]. *)
Definition committed (d tgt : Z -> list Z) : Prop :=
  hdr_is (d start) bs /\
  (forall (i : nat) b, bs !! i = Some b -> d (start + 1 + Z.of_nat i) = tgt b) /\
  (forall n, outside start size n -> n ∉ bs -> d n = tgt n).

Definition settles (d tgt : Z -> list Z) : Prop := quiet d tgt \/ committed d tgt.

Lemma in_trace_eq x d tgt :
  (forall (i : nat) b, bs !! i = Some b -> d (x + Z.of_nat i) = tgt b) ->
  in_trace x bs d = (fun b => (b, tgt b)) <$> bs.
Proof.
  revert x. induction bs as [|b l IH]; intros x Hx; [done|]. cbn. f_equal.
  - f_equal. specialize (Hx 0%nat b eq_refl). by rewrite Z.add_0_r in Hx.
  - apply IH. intros i y Hi. specialize (Hx (S i) y Hi). rewrite <-Hx. f_equal. lia.
Qed.

Lemma fmap_pair_fst (v : Z -> list Z) l : ((fun b => (b, v b)) <$> l).*1 = l.
Proof. rewrite <-list_fmap_compose. apply list_fmap_id. Qed.

Lemma take_pairs (v : Z -> list Z) k l :
  take k ((fun b => (b, v b)) <$> l) = (fun b => (b, v b)) <$> take k l.
Proof. symmetry. apply fmap_take. Qed.

Lemma quiet_ext d d' tgt : (forall n, d' n = d n) -> quiet d tgt -> quiet d' tgt.
Proof. intros He [H1 H2]. split; [by rewrite He|]. intros n Hn. rewrite He. by apply H2. Qed.

Lemma out_trace_lookup x v (i : nat) b :
  bs !! i = Some b -> (x + Z.of_nat i, v b) ∈ out_trace x bs v.
Proof.
  revert x i. induction bs as [|c l IH]; intros x i; [done|]. destruct i as [|i]; cbn.
  - intros [= ->]. rewrite Z.add_0_r. set_solver.
  - intros Hi. apply elem_of_cons. right. replace (x + Z.of_nat (S i)) with (x + 1 + Z.of_nat i) by lia.
    by apply IH.
Qed.

Lemma out_trace_functional x v (i : nat) b y :
  bs !! i = Some b -> (x + Z.of_nat i, y) ∈ out_trace x bs v -> y = v b.
Proof.
  revert x i. induction bs as [|c l IH]; intros x i; [done|]. cbn.
  intros Hi [[= Hx ->]|Hin]%elem_of_cons.
  - destruct i; [|lia]. by injection Hi as ->.
  - destruct i as [|i].
    + exfalso. assert (x ∈ (out_trace (x + 1) l v).*1) as H.
      { apply list_elem_of_fmap. exists (x + Z.of_nat 0, y). split; [cbn; lia|done]. }
      apply out_trace_fst in H. lia.
    + apply (IH (x + 1) i); [done|]. by replace (x + 1 + Z.of_nat i) with (x + Z.of_nat (S i)) by lia.
Qed.

Context (Hbs : entries_ok start size bs).

Lemma entry_outside b : b ∈ bs -> outside start size b.
Proof. destruct Hbs as (_&_&_&_&_&_&H). apply H. Qed.

Lemma start_not_entry l : l ⊆ bs -> start ∉ l.
Proof.
  intros Hl Hin. destruct (entry_outside start (Hl _ Hin)). destruct Hbs as (?&?&_). lia.
Qed.

(** Installing some of the entries keeps a committed disk committed. *)
Lemma committed_install d tgt l :
  l ⊆ bs -> committed d tgt -> committed (apply_writes d ((fun b => (b, tgt b)) <$> l)) tgt.
Proof.
  intros Hl (H1 & H2 & H3). destruct Hbs as (Hst & _ & _ & _ & _ & Hlen & Hout). split; [|split].
  - rewrite apply_writes_other; [done|]. rewrite fmap_pair_fst. by apply start_not_entry.
  - intros i b Hi. rewrite apply_writes_other; [by apply H2|]. rewrite fmap_pair_fst.
    intros Hin. destruct (Hout _ (Hl _ Hin)) as [? ?]. apply lookup_lt_Some in Hi. unfold zlen in *. lia.
  - intros n Hn Hni. rewrite apply_writes_other; [by apply H3|]. rewrite fmap_pair_fst. set_solver.
Qed.

Lemma pairs_functional (v : Z -> list Z) (l : list Z) n y : (n, y) ∈ ((fun b => (b, v b)) <$> l) -> y = v n.
Proof. intros (b & [= -> ->] & _)%list_elem_of_fmap. done. Qed.

(** Installing all of them and clearing the header reaches the target. *)
Lemma committed_done d tgt blk :
  committed d tgt -> hdr_is blk [] ->
  quiet (apply_writes d (((fun b => (b, tgt b)) <$> bs) ++ [(start, blk)])) tgt.
Proof.
  intros (H1 & H2 & H3) Hblk. rewrite apply_writes_snoc. split.
  - by rewrite fupd_eq.
  - intros n Hn. cbn. rewrite fupd_ne by (destruct Hbs, Hn; lia).
    destruct (decide (n ∈ bs)) as [Hin|Hin].
    + apply apply_writes_in; [apply list_elem_of_fmap; eauto|]. apply pairs_functional.
    + rewrite apply_writes_other; [by apply H3|]. by rewrite fmap_pair_fst.
Qed.

Lemma quiet_rewrite_header d tgt blk : quiet d tgt -> hdr_is blk [] -> quiet (fupd d start blk) tgt.
Proof.
  intros [H1 H2] Hb. split; [by rewrite fupd_eq|]. intros n Hn.
  rewrite fupd_ne; [by apply H2|]. destruct Hbs, Hn. lia.
Qed.

(** ** Recovery, cut short or run to the end *)
Lemma recover_prefix_settles d tgt hb k :
  zlen (d start) = BSIZE -> settles d tgt -> hdr_is (d start) hb -> (hb = [] \/ hb = bs) ->
  settles (apply_writes d (take k (recover_trace start hb d))) tgt.
Proof.
  intros Hlen Hset Hh Hcase.
  destruct (hdr_block_ok [] (d start) Hlen) as [_ He]; [done|constructor|].
  destruct Hset as [Hqd|Hc].
  - rewrite (hdr_is_det _ _ _ Hh (proj1 Hqd)). left. unfold recover_trace. cbn [in_trace app].
    destruct k as [|k]; [done|]. cbn [take]. rewrite take_nil. by apply quiet_rewrite_header.
  - rewrite (hdr_is_det _ _ _ Hh (proj1 Hc)). unfold recover_trace.
    rewrite (in_trace_eq _ d tgt) by apply Hc.
    destruct (decide (k <= length bs)%nat).
    + right. rewrite take_app_le by (by rewrite length_fmap). rewrite take_pairs.
      apply committed_install; [apply subseteq_take|done].
    + left. rewrite take_ge by (rewrite length_app, length_fmap; cbn; lia). by apply committed_done.
Qed.

Lemma recover_done_quiet d tgt hb :
  zlen (d start) = BSIZE -> settles d tgt -> hdr_is (d start) hb ->
  quiet (apply_writes d (recover_trace start hb d)) tgt.
Proof.
  intros Hlen Hset Hh.
  destruct (hdr_block_ok [] (d start) Hlen) as [_ He]; [done|constructor|].
  destruct Hset as [Hqd|Hc].
  - rewrite (hdr_is_det _ _ _ Hh (proj1 Hqd)). by apply quiet_rewrite_header.
  - rewrite (hdr_is_det _ _ _ Hh (proj1 Hc)). unfold recover_trace.
    rewrite (in_trace_eq _ d tgt) by apply Hc. by apply committed_done.
Qed.

(** What recovery writes at a home block is what the target has there. *)
Lemma recover_prefix_home d tgt hb k n :
  settles d tgt -> hdr_is (d start) hb -> outside start size n ->
  let d' := apply_writes d (take k (recover_trace start hb d)) in d' n = d n \/ d' n = tgt n.
Proof.
  intros Hset Hh Hn d'. destruct (apply_writes_cases d (take k (recover_trace start hb d)) n) as [E|Hin]; [by left|right].
  fold d' in Hin. generalize dependent (d' n). intros y Hin. apply subseteq_take in Hin. unfold recover_trace in Hin. apply elem_of_app in Hin as [Hin|Hin]; last first.
  { apply list_elem_of_singleton in Hin as [= E _]. destruct Hbs, Hn. lia. }
  destruct Hset as [[H1 _]|(H1 & H2 & _)]; pose proof (hdr_is_det _ _ _ Hh H1) as ->.
  - by apply not_elem_of_nil in Hin.
  - rewrite (in_trace_eq _ d tgt) in Hin by done. by apply pairs_functional in Hin.
Qed.

Lemma settles_header d tgt : settles d tgt -> exists hb, hdr_is (d start) hb /\ (hb = [] \/ hb = bs).
Proof. intros [[H _]|[H _]]; eauto. Qed.

Lemma entries_ok_nil : entries_ok start size [].
Proof.
  destruct Hbs as (? & ? & _). split; [done|]. split; [done|].
  split; [apply NoDup_nil_2|]. split; [constructor|]. split; [done|].
  split; [unfold zlen; cbn; lia|]. by intros b ?%not_elem_of_nil.
Qed.

Context (old new : Z -> list Z).
Context (Hsame : forall n, outside start size n -> n ∉ bs -> old n = new n).
Context (Hempty : hdr_is (old start) []) (Hnew : zlen (new start) = BSIZE).

Lemma after_sync_quiet tr :
  (forall n, n ∈ tr.*1 -> start < n < start + size) -> quiet (apply_writes old tr) old.
Proof.
  intros Htr. split.
  - rewrite apply_writes_other; [done|]. intros Hin. specialize (Htr _ Hin). lia.
  - intros n Hn. apply apply_writes_other. intros Hin. specialize (Htr _ Hin). destruct Hn. lia.
Qed.

Lemma after_header_committed :
  committed (apply_writes old (out_trace (start + 1) bs new ++ [(start, hdr_block bs (new start))])) new.
Proof.
  destruct Hbs as (Hst & Hsz & Hnd & Hu & Hl1 & Hl2 & Hout). rewrite apply_writes_snoc.
  destruct (hdr_block_ok bs (new start) Hnew Hl1 Hu) as [_ Hh]. split; [by rewrite fupd_eq|]. split.
  - intros i b Hi. cbn. rewrite fupd_ne by lia.
    apply apply_writes_in; [by apply out_trace_lookup|]. intros y. by apply out_trace_functional.
  - intros n Hn Hni. destruct Hn as [Hn0 Hn1]. cbn. rewrite fupd_ne by lia. rewrite apply_writes_other.
    + by apply Hsame.
    + rewrite out_trace_fst. lia.
Qed.

Lemma commit_done_quiet : quiet (apply_writes old (commit_trace start bs new)) new.
Proof.
  unfold commit_trace. rewrite app_assoc, apply_writes_app.
  apply committed_done; [apply after_header_committed|]. destruct Hbs as (_&_&_&Hu&Hl1&_).
  apply hdr_block_ok; [|done|constructor]. by apply hdr_block_ok.
Qed.

(** Wherever a commit is cut, the disk settles on the old or the new state. *)
Lemma commit_prefix_settles k :
  let d := apply_writes old (take k (commit_trace start bs new)) in
  settles d old \/ settles d new.
Proof.
  cbn. destruct Hbs as (Hst & Hsz & Hnd & Hu & Hl1 & Hl2 & Hout).
  set (T1 := out_trace (start + 1) bs new). set (h1 := (start, hdr_block bs (new start))).
  destruct (decide (k <= length T1)%nat) as [Hk|Hk].
  - left. left. unfold commit_trace. fold T1. rewrite take_app_le by done.
    apply after_sync_quiet. intros n Hn.
    assert (n ∈ T1.*1) as Hn1 by (rewrite fmap_take in Hn; by eapply subseteq_take).
    apply out_trace_fst in Hn1. lia.
  - right. unfold commit_trace. fold T1 h1. rewrite app_assoc, take_app, take_ge
      by (rewrite length_app; cbn; lia).
    rewrite apply_writes_app. rewrite length_app. cbn [length].
    pose proof after_header_committed as Hc. fold T1 h1 in Hc.
    set (d1 := apply_writes old (T1 ++ [h1])) in *. set (k' := (k - _)%nat).
    destruct (decide (k' <= length bs)%nat).
    + right. rewrite take_app_le by (by rewrite length_fmap). rewrite take_pairs.
      apply committed_install; [apply subseteq_take|done].
    + left. rewrite take_ge by (rewrite length_app, length_fmap; cbn; lia).
      apply committed_done; [done|]. apply hdr_block_ok; [|done|constructor].
      by apply hdr_block_ok.
Qed.
(** A home block holds the old or the new contents throughout. *)
Lemma commit_prefix_home k n :
  outside start size n ->
  let d := apply_writes old (take k (commit_trace start bs new)) in d n = old n \/ d n = new n.
Proof.
  intros Hn d. destruct (apply_writes_cases old (take k (commit_trace start bs new)) n) as [E|Hin]; [by left|right].
  apply subseteq_take in Hin. destruct Hbs as (Hst & Hsz & _ & _ & _ & Hl & _), Hn as [Hn0 Hn1]. unfold commit_trace in Hin.
  apply elem_of_app in Hin as [Hin|[Hin%list_elem_of_singleton|[Hin|Hin%list_elem_of_singleton]%elem_of_app]%elem_of_app].
  - apply (list_elem_of_fmap_2 fst), out_trace_fst in Hin. cbn in Hin. lia.
  - injection Hin as E _. lia.
  - by apply pairs_functional in Hin.
  - injection Hin as E _. lia.
Qed.
End settles.

(** ** Disks that a boot repairs *)

(** Booting the disk [d] brings its home blocks to those of [tgt]. *)
Definition recoverable (start size : Z) (d tgt : Z -> list Z) : Prop :=
  exists bs, entries_ok start size bs /\ zlen bs < LOGSIZE /\ zlen bs < size - 1 /\ settles start size bs d tgt.

(** A disk on which a transaction from [old] to [new] was cut short. *)
Definition interrupted (start size : Z) (old new d : Z -> list Z) : Prop :=
  (recoverable start size d old \/ recoverable start size d new) /\
  forall n, outside start size n -> d n = old n \/ d n = new n.

Lemma recoverable_ext start size d d' tgt tgt' :
  (forall n, d' n = d n) -> (forall n, outside start size n -> tgt' n = tgt n) ->
  recoverable start size d tgt -> recoverable start size d' tgt'.
Proof.
  intros Hd Ht (bs & Hbs & H1 & H2 & Hset). exists bs. do 3 (split; [done|]).
  destruct Hset as [[Hh Hq]|(Hh & Hc & Hq)]; [left|right].
  - split; [by rewrite Hd|]. intros n Hn. rewrite Hd, Ht by done. by apply Hq.
  - split; [by rewrite Hd|]. split.
    + intros i b Hi. rewrite Hd, Ht; [by apply Hc|]. apply (entry_outside start size bs Hbs). by eapply list_elem_of_lookup_2.
    + intros n Hn Hni. rewrite Hd, Ht by done. by apply Hq.
Qed.

Lemma interrupted_ext start size old old' new new' d d' :
  (forall n, d' n = d n) -> (forall n, outside start size n -> old' n = old n) ->
  (forall n, outside start size n -> new' n = new n) ->
  interrupted start size old new d -> interrupted start size old' new' d'.
Proof.
  intros Hd Ho Hn [Hr Hv]. split.
  - destruct Hr; [left|right]; by eapply recoverable_ext.
  - intros n Hout. rewrite Hd, Ho, Hn by done. by apply Hv.
Qed.

(** ** Booting after a crash *)
Section recovery.
Context {S : Type} `{BL : BlockLaws S}.
Hypothesis room : LOGSIZE < capacity.

(** [recovers start size d d']: booting the disk [d], possibly crashing in
    the middle of recovery and booting again any number of times, ends with
    the disk [d']. *)
Inductive recovers (start size : Z) : (Z -> list Z) -> (Z -> list Z) -> Prop :=
| rec_done d s t :
    rep s (fresh_dev d) ->
    log_init ROOTDEV start size (mkLogged s Log_new LogState_new) = Ret (tt, t) ->
    recovers start size d (medium (bl t))
| rec_crash d s t k d' :
    rep s (fresh_dev d) ->
    log_init ROOTDEV start size (mkLogged s Log_new LogState_new) = Ret (tt, t) ->
    recovers start size (apply_writes d (take k (written (bl t)))) d' ->
    recovers start size d d'.

Context (start size : Z) (bs : list Z) (Hbs : entries_ok start size bs).
Context (Hfit1 : zlen bs < LOGSIZE) (Hfit2 : zlen bs < size - 1).

(** On a disk that settles, recovery returns and performs its trace. *)
Lemma settles_boots (s : S) d tgt :
  rep s (fresh_dev d) -> settles start size bs d tgt ->
  exists t hb, log_init ROOTDEV start size (mkLogged s Log_new LogState_new) = Ret (tt, t) /\
    hdr_is (d start) hb /\ (hb = [] \/ hb = bs) /\
    written (bl t) = recover_trace start hb d /\
    (forall n, medium (bl t) n = apply_writes d (recover_trace start hb d) n).
Proof.
  intros Hr Hset. pose proof (zlen_nonneg bs).
  destruct (settles_header _ _ _ _ _ Hset) as (hb & Hh & Hcase).
  destruct (log_init_run room s d start size hb) as (t & E & R & _); try done.
  - destruct Hcase as [-> | ->]; [by eapply entries_ok_nil|done].
  - by destruct Hcase as [-> | ->].
  - destruct Hcase as [-> | ->]; [unfold zlen; cbn; lia|done].
  - exists t, hb. do 3 (split; [done|]). split.
    + by rewrite <-(rep_written _ _ R), wlog_after_writes.
    + intros n. by rewrite <-(rep_medium _ _ n R), media_after_writes.
Qed.

Lemma settles_recovers d d' tgt :
  recovers start size d d' -> settles start size bs d tgt -> quiet start size d' tgt.
Proof.
  intros Hrec. induction Hrec as [d s t Hr E|d s t k d' Hr E _ IH]; intros Hset;
    destruct (settles_boots s d tgt Hr Hset) as (t' & hb & E' & Hh & Hcase & Hwr & Hmed);
    rewrite E in E'; injection E' as <-; pose proof (rep_len _ _ start Hr) as Hlen; cbn in Hlen.
  - eapply quiet_ext; [exact Hmed|]. by eapply recover_done_quiet.
  - apply IH. rewrite Hwr. by apply recover_prefix_settles.
Qed.
End recovery.

Section atomicity.
Context {S : Type} `{BL : BlockLaws S}.

(** C1: Commit is atomic with respect to crashes.  Let a transaction have the
    pinned blocks [bs] as its entries, at least one, fewer than [LOGSIZE] and
    fewer than [size - 1] (a log that is full to that mark does not boot).
    When it commits, [op::commit] returns and the home blocks on disk are what the transaction's readers saw.  If instead
    the machine stops after the first [k] disk writes of the commit, for any
    [k], then booting returns, and however often recovery itself is cut
    short and restarted, the disk that results has an empty log and, at
    every block outside the log, either the contents from before the commit
    or, for all of them at once, those of the transaction. *)
Theorem commit_crash_atomic (t : Logged S) a start size bs :
  LOGSIZE < capacity -> committable t a start size bs -> bs <> [] ->
  hdr_is (medium (bl t) start) [] -> zlen bs < LOGSIZE -> zlen bs < size - 1 ->
  exists t' tr, op_commit t = Ret (tt, t') /\ header (lg t') = [] /\
    written (bl t') = written (bl t) ++ tr /\
    home_eq start size (medium (bl t')) (view a) /\
    forall k, let d := apply_writes (medium (bl t)) (take k tr) in
      (forall s, rep s (fresh_dev d) ->
         exists t2, log_init ROOTDEV start size (mkLogged s Log_new LogState_new) = Ret (tt, t2)) /\
      (forall d', recovers start size d d' ->
         hdr_is (d' start) [] /\
         (home_eq start size d' (medium (bl t)) \/ home_eq start size d' (view a))).
Proof.
  intros room Hc Hne Hhdr Hf1 Hf2. destruct (op_commit_run room t a start size bs Hc Hne) as (b & E & R).
  pose proof Hc as [Hr Hh _ _ _ Hbs Hdirty].
  assert (Hsame : forall n, outside start size n -> n ∉ bs -> medium (bl t) n = view a n).
  { intros n Hn Hni. rewrite <-(rep_medium _ _ n Hr). symmetry. apply (rep_clean _ _ _ Hr).
    - by rewrite Hdirty.
    - intros h. by apply held_fresh. }
  pose proof (rep_len _ _ start Hr) as Hlen.
  assert (Hmed : forall n, medium b n = apply_writes (medium (bl t)) (commit_trace start bs (view a)) n).
  { intros n. rewrite <-(rep_medium _ _ n R), media_after_writes.
    apply apply_writes_ext. intros m. apply (rep_medium _ _ m Hr). }
  eexists _, _. split; [exact E|]. split; [done|]. split.
  { cbn [bl]. rewrite <-(rep_written _ _ R), wlog_after_writes. by rewrite (rep_written _ _ Hr). }
  split.
  { intros n Hn. cbn [bl]. rewrite Hmed. destruct (commit_done_quiet start size bs Hbs _ _ Hsame Hlen) as [_ Hq].
    by apply Hq. }
  intros k d. pose proof (commit_prefix_settles start size bs Hbs _ _ Hsame Hhdr Hlen k) as Hset.
  fold d in Hset. split.
  - intros s Hs. destruct Hset as [Hset|Hset];
      destruct (settles_boots room start size bs Hbs Hf1 Hf2 s d _ Hs Hset) as (t2 & _ & E2 & _); eauto.
  - intros d' Hd'. destruct Hset as [Hset|Hset];
      destruct (settles_recovers room start size bs Hbs Hf1 Hf2 d d' _ Hd' Hset); auto.
Qed.
End atomicity.
