(* ===== verification/FslogSpec.v ===== *)
(** Transactions over the log: logged writes, the invariant that ties the log
    to the pinned blocks, transactions run to completion, and the budget that
    keeps concurrent transactions within the log. *)
From stdpp Require Import base list gmap strings fin_sets.
From Stdlib Require Import ZArith Lia.
From S2P Require Import Prelude.
From S2P Require Import Arch.
From S2P Require Import BlockLayer.
From S2P Require Import Fslog.
From S2P Require Import FslogCrash.

(** What [log_write] of block [n] does to the header. *)
Definition absorb (n : Z) (bs : list Z) : list Z := if bool_decide (n ∈ bs) then bs else bs ++ [n].

Lemma elem_of_absorb n bs b : b ∈ absorb n bs <-> b ∈ bs \/ b = n.
Proof. unfold absorb. case_bool_decide; set_solver. Qed.

Lemma absorb_NoDup n bs : NoDup bs -> NoDup (absorb n bs).
Proof.
  intros H. unfold absorb. case_bool_decide; [done|]. apply NoDup_app.
  split; [done|]. split; [set_solver|apply NoDup_singleton].
Qed.

Lemma zlen_absorb n bs : zlen bs <= zlen (absorb n bs) <= zlen bs + 1.
Proof. unfold absorb. case_bool_decide; rewrite ?zlen_app; unfold zlen; cbn; lia. Qed.

(** A logged store to one block, as the file system performs it. *)
Definition log_store {S} `{BlockOps S} (n : Z) (d : list Z) : M (Logged S) unit :=
  unwrap (bwith ROOTDEV n (fun bp => bset bp d;; log_write bp)).

Fixpoint log_stores {S} `{BlockOps S} (us : list (Z * list Z)) : M (Logged S) unit :=
  match us with
  | [] => mret tt
  | (n, d) :: us' => log_store n d;; log_stores us'
  end.

Section txn.
Context {S : Type} `{BL : BlockLaws S}.
Implicit Types (t : Logged S) (a : Dev).

Lemma insert_absorb l n :
  wf_log l -> llen l < LOGSIZE ->
  exists l', insert n l = Ret l' /\ wf_log l' /\ header l' = absorb n (header l) /\
    ldev l' = ldev l /\ lstart l' = lstart l /\ lsize l' = lsize l.
Proof.
  intros Hw Hl. unfold absorb. case_bool_decide as Hn.
  - exists l. unfold insert. by rewrite bool_decide_eq_true_2.
  - destruct (insert_run l n Hw Hn Hl) as (l' & ? & ? & ? & _ & ?). by exists l'.
Qed.

Lemma is_full_run l : 1 <= lsize l -> llen l < lsize l - 1 -> llen l < LOGSIZE -> is_full l = Ret false.
Proof.
  intros H0 H1 H2. unfold is_full, sub_ovf. rewrite (proj2 (Z.leb_le 1 _)) by done.
  rewrite (proj2 (Z.leb_gt _ _) H1), (proj2 (Z.leb_gt _ _) H2). done.
Qed.

(** [fslog::write] on a held buffer, inside a transaction with room. *)
Lemma log_write_run t a h n start size :
  rep (bl t) a -> held a !! h = Some n -> wf_log (lg t) -> log_at (lg t) start size ->
  llen (lg t) < LOGSIZE -> llen (lg t) < size - 1 -> 1 <= outstanding (st t) ->
  exists b l', log_write h t = Ret (tt, mkLogged b l' (st t)) /\ rep b (dev_pin n a) /\
    wf_log l' /\ header l' = absorb n (header (lg t)) /\ log_at l' start size.
Proof.
  intros Hr Hh Hw (Hd & Hs & Hz) Hl1 Hl2 Hout. destruct Hw as [Hw1 Hw2].
  destruct (insert_absorb (lg t) n (conj Hw1 Hw2) Hl1) as (l' & E & Hw' & Hh' & D' & S' & Z').
  destruct (bpin_law _ _ h n Hr Hh) as (b & Eb & R).
  exists b, l'. split; [|unfold log_at; rewrite D', S', Z'; done].
  unfold log_write.
  erewrite bind_run by (apply zoom_run, (bis_locked_law _ _ h n Hr Hh)).
  rewrite bind_assert, bind_gets by done.
  rewrite (bind_lift _ _ _ false) by (apply is_full_run; cbn; lia).
  cbn [id st put_bl]. rewrite (proj2 (Z.ltb_ge _ _) Hout).
  erewrite bind_run by (apply zoom_run, (bblockno_law _ _ h n Hr Hh)).
  cbn [lg put_bl]. rewrite (bind_lift _ _ _ _ E), bind_modify.
  by apply (zoom_run bl put_bl _ (mkLogged (bl t) l' (st t)) _ _ Eb).
Qed.

(** Between logged stores nothing is held and the pinned blocks are the log's
    entries; the disk is untouched since the transaction began. *)
Record in_txn (t : Logged S) (a : Dev) (start size : Z) : Prop := {
  it_cm : committable t a start size (header (lg t));
  it_out : 1 <= outstanding (st t);
  it_idle : committing (st t) = false }.

Lemma dev_store_pin a h n d :
  held a !! h = None ->
  dev_drop h (dev_pin n (dev_set n d (dev_hold h n a))) =
  mkDev (fupd (view a) n d) (media a) ({[n]} ∪ dirty a) (held a) (wlog a).
Proof.
  intros Hh. unfold dev_drop, dev_pin, dev_set, dev_hold. cbn. f_equal. by apply delete_insert_id.
Qed.

Definition after_store (a : Dev) (u : Z * list Z) : Dev :=
  mkDev (fupd (view a) (fst u) (snd u)) (media a) ({[fst u]} ∪ dirty a) (held a) (wlog a).

Lemma log_store_run t a n d start size :
  LOGSIZE < capacity -> in_txn t a start size -> outside start size n -> uN 64 n ->
  zlen d = BSIZE -> llen (lg t) < LOGSIZE -> llen (lg t) < size - 1 ->
  exists t', log_store n d t = Ret (tt, t') /\ in_txn t' (after_store a (n, d)) start size /\
    header (lg t') = absorb n (header (lg t)) /\ st t' = st t.
Proof.
  intros room [[Hr Hh Hw Hat _ (Hst & Hsz & Hnd & Hu & Hl1 & Hl2 & Hout) Hdirty] Ho Hi] Hn Hun Hd Hf1 Hf2.
  pose proof (zlen_header _ Hw) as Hlen.
  destruct (lbread t a n Hr (proj1 Hn) (fun h => held_fresh a h n Hh)) as (h & b1 & E1 & Hh1 & R1).
  { right. rewrite Hh, map_size_empty, (dirty_size room a _ Hdirty Hnd). unfold zlen in *. lia. }
  assert (Hk : held (dev_hold h n a) !! h = Some n) by apply lookup_insert_eq.
  destruct (lbset (put_bl b1 t) _ h n d R1 Hk Hd) as (b2 & E2 & R2).
  destruct (log_write_run (put_bl b2 t) _ h n start size R2 Hk Hw Hat Hf1 Hf2 Ho)
    as (b3 & l' & E3 & R3 & Hw' & Hh' & Hat').
  destruct (lbrelse (mkLogged b3 l' (st t)) _ h n R3 Hk) as (b4 & E4 & R4); [left; cbn; set_solver|].
  rewrite dev_store_pin in R4 by done. cbn [lg put_bl] in Hh'.
  pose proof (zlen_absorb n (header (lg t))) as Hza.
  exists (mkLogged b4 l' (st t)). split; [|split; [split; [split|done|done]|done]]; try done.
  - unfold log_store. apply unwrap_run. eapply bwith_run; [exact E1| |exact E4].
    rewrite (bind_run _ _ _ _ _ E2). exact E3.
  - cbn [lg]. rewrite Hh'. split; [done|]. split; [done|]. split; [by apply absorb_NoDup|].
    split; [|split; [lia|split; [lia|]]].
    + rewrite Forall_forall in Hu |- *. intros b [Hb|Hb]%elem_of_absorb; [by apply Hu|by subst].
    + intros b [Hb|Hb]%elem_of_absorb; [by apply Hout|by subst].
  - intros b. cbn [lg]. rewrite Hh', elem_of_absorb, <-Hdirty. cbn. set_solver.
Qed.

Lemma log_stores_run us t a start size :
  LOGSIZE < capacity -> in_txn t a start size ->
  (forall n d, (n, d) ∈ us -> outside start size n /\ uN 64 n /\ zlen d = BSIZE) ->
  llen (lg t) + zlen us <= LOGSIZE -> llen (lg t) + zlen us <= size - 1 ->
  exists t', log_stores us t = Ret (tt, t') /\ in_txn t' (fold_left after_store us a) start size /\
    llen (lg t') <= llen (lg t) + zlen us /\ st t' = st t /\
    (forall b, b ∈ header (lg t') <-> b ∈ header (lg t) \/ b ∈ us.*1).
Proof.
  intros room. revert t a. induction us as [|[n d] us IH]; intros t a Ht Hus Hl1 Hl2.
  - exists t. split; [done|]. split; [done|]. unfold zlen. cbn. split; [lia|]. split; [done|].
    intros b. split; [by left|]. by intros [?|?%not_elem_of_nil].
  - rewrite zlen_cons in *. pose proof (zlen_nonneg us).
    destruct (Hus n d) as (Hn & Hu & Hd); [set_solver|].
    destruct (log_store_run t a n d start size room Ht Hn Hu Hd) as (t1 & E1 & Ht1 & Hh1 & Hs1); [lia|lia|].
    pose proof (zlen_absorb n (header (lg t))) as Hza. rewrite <-Hh1 in Hza.
    rewrite (zlen_header _ (cm_wf _ _ _ _ _ (it_cm _ _ _ _ Ht))) in Hza.
    rewrite (zlen_header _ (cm_wf _ _ _ _ _ (it_cm _ _ _ _ Ht1))) in Hza.
    destruct (IH t1 _ Ht1) as (t2 & E2 & Ht2 & Hl & Hs2 & Hb2); [intros; apply Hus; set_solver|lia|lia|].
    exists t2. split; [cbn [log_stores]; by rewrite (bind_run _ _ _ _ _ E1)|]. split; [done|].
    split; [lia|]. split; [congruence|]. intros b. rewrite Hb2, Hh1, elem_of_absorb. cbn. set_solver.
Qed.

Lemma view_after_stores us a : view (fold_left after_store us a) = apply_writes (view a) us.
Proof. revert a. induction us as [|u us IH]; intros a; [done|]. cbn [fold_left]. by rewrite IH. Qed.

Lemma media_after_stores us a : media (fold_left after_store us a) = media a.
Proof. revert a. induction us as [|u us IH]; intros a; [done|]. cbn [fold_left]. by rewrite IH. Qed.

(** No transaction is open, the log is empty, and the disk is up to date. *)
Record idle (t : Logged S) (a : Dev) (start size : Z) : Prop := {
  id_cm : committable t a start size [];
  id_log : llen (lg t) = 0;
  id_st : st t = LogState_new }.

Lemma header_nil l : wf_log l -> header l = [] -> llen l = 0.
Proof. intros Hw Hh. rewrite <-(zlen_header _ Hw), Hh. done. Qed.

Lemma begin_run t a start size :
  idle t a start size -> op_begin t = Ret (tt, set_st (mkLogState 1 false) t) /\
    in_txn (set_st (mkLogState 1 false) t) a start size.
Proof.
  intros [Hc Hl Hs]. split.
  - unfold op_begin. rewrite bind_gets. unfold op_ready_to_begin. cbn [id]. rewrite Hl, Hs. done.
  - pose proof Hc as [? ? ? ? Hh ? ?]. split; [|done|done]. split; cbn; try done; by rewrite Hh.
Qed.


Lemma commit_home start size bs old v :
  entries_ok start size bs -> zlen (v start) = BSIZE ->
  (forall n, outside start size n -> n ∉ bs -> old n = v n) ->
  home_eq start size (apply_writes old (commit_trace start bs v)) v.
Proof. intros Hbs Hlen Hsame. by destruct (commit_done_quiet start size bs Hbs old v Hsame Hlen). Qed.

Lemma commit_trace_covers start bs v b : b ∈ bs -> b ∈ (commit_trace start bs v).*1.
Proof. intros Hb. unfold commit_trace. rewrite !fmap_app, fmap_pair_fst. set_solver. Qed.

(** [op::commit] leaves an idle log behind. *)
Lemma commit_idles t a start size bs b :
  committable t a start size bs ->
  rep b (fold_left after_write (commit_trace start bs (view a)) a) ->
  idle (mkLogged b (clear (lg t)) LogState_new)
    (fold_left after_write (commit_trace start bs (view a)) a) start size.
Proof.
  intros [Hr Hh [Hw1 Hw2] Hat Hhd Hbs Hdirty] R. split; [split|done|done]; try done.
  - by rewrite held_after_writes.
  - by apply (entries_ok_nil start size bs).
  - intros n. rewrite dirty_after_writes, Hdirty. split; [|by intros ?%not_elem_of_nil].
    intros [Hn Hni]. exfalso. by apply Hni, commit_trace_covers.
Qed.

(** C6: A transaction that stores to at most [MAXOPBLOCKS] blocks outside
    the log runs to completion from an idle log: it does not panic or wait,
    the log is idle again, every block outside the log reads as the last
    store to it, and the disk agrees with what is read. *)
Theorem with_op_durable us t a start size :
  LOGSIZE < capacity -> MAXOPBLOCKS < size -> idle t a start size ->
  zlen us <= MAXOPBLOCKS -> us <> [] ->
  (forall n d, (n, d) ∈ us -> outside start size n /\ uN 64 n /\ zlen d = BSIZE) ->
  exists t' a', with_op (log_stores us) t = Ret (tt, t') /\ idle t' a' start size /\
    forall n, outside start size n ->
      view a' n = apply_writes (view a) us n /\ medium (bl t') n = apply_writes (view a) us n.
Proof.
  intros room Hsz Hidle Hlen Hne Hus. destruct (begin_run _ _ _ _ Hidle) as [E0 T0].
  assert (LOGSIZE = 511 /\ MAXOPBLOCKS = 64) as [HL HM] by done.
  pose proof (id_log _ _ _ _ Hidle) as Hl0.
  destruct (log_stores_run us _ _ _ _ room T0 Hus) as (t1 & E1 & T1 & Hl1 & Hs1 & Hh1); [cbn; lia|cbn; lia|].
  pose proof T1 as [Hc1 Ho1 Hi1].
  assert (header (lg t1) <> []) as Hne1.
  { destruct us as [|[n d] us]; [done|]. intros Heq.
    assert (n ∈ header (lg t1)) as Hin by (apply Hh1; right; cbn; set_solver).
    rewrite Heq in Hin. by apply not_elem_of_nil in Hin. }
  set (a1 := fold_left after_store us a) in *. set (t2 := set_st (mkLogState 0 true) t1).
  assert (committable t2 a1 start size (header (lg t1))) as Hc2 by (by destruct Hc1).
  destruct (op_commit_run room t2 _ _ _ _ Hc2 Hne1) as (b3 & E3 & R3).
  pose proof Hc2 as [Hr2 Hh2 _ _ _ Hbs Hdirty]. pose proof (rep_len _ _ start Hr2) as Hlen2.
  eexists _, _. split; [|split; [exact (commit_idles _ _ _ _ _ _ Hc2 R3)|]].
  - unfold with_op. rewrite (bind_run _ _ _ _ _ E0), (bind_run _ _ _ _ _ E1).
    unfold op_end. unfold mbind at 1, M_bind at 1. rewrite bind_gets, Hs1.
    rewrite (bind_lift _ _ _ (true, mkLogState 0 true)) by done. cbn [fst snd]. rewrite bind_modify. by rewrite (bind_run _ _ _ _ _ E3).
  - intros n Hn. cbn [bl]. rewrite <-(rep_medium _ _ n R3), view_after_writes, media_after_writes.
    assert (view a1 = apply_writes (view a) us) as <- by apply view_after_stores.
    split; [by apply (commit_home start size)|]. apply (commit_home start size); try done.
    intros m Hm Hmi. symmetry. apply (rep_clean _ _ _ Hr2); [by rewrite Hdirty|].
    intros h. by apply held_fresh.
Qed.

(** C25: The log admits one entry too many for recovery.  [fslog::write]
    accepts a block when the log holds [size - 2] entries, so a transaction
    may commit [size - 1] of them; but a disk whose header holds a committed
    log of [size - 1] entries makes the boot panic instead of replaying it. *)
Theorem full_log_not_recovered (s : S) d start size bs l n :
  rep s (fresh_dev d) -> entries_ok start size bs -> 0 < capacity ->
  hdr_is (d start) bs -> zlen bs = size - 1 ->
  wf_log l -> lsize l = size -> llen l = size - 2 -> n ∉ header l ->
  is_full l = Ret false /\
  (exists l', insert n l = Ret l' /\ llen l' = size - 1) /\
  log_init ROOTDEV start size (mkLogged s Log_new LogState_new) = Panic "corrupt log too large".
Proof.
  intros Hr (Hst & Hsz & _ & _ & Hl1 & Hl2 & _) Hcap [Hh0 _] Hlen Hw Hls Hll Hn.
  pose proof (zlen_nonneg bs). assert (LOGSIZE = 511) as HL by done. pose proof Hw as [_ Hw2].
  split; [apply is_full_run; lia|]. split.
  { destruct (insert_run l n Hw Hn) as (l' & E & _ & _ & Hl' & _); [lia|]. exists l'. split; [done|lia]. }
  set (t0 := mkLogged s (set_metadata ROOTDEV start size Log_new) LogState_new).
  destruct (lbread t0 (fresh_dev d) start Hr Hst) as (h & b1 & E1 & Hh1 & R1).
  { intros h. by apply held_fresh. }
  { right. cbn [dirty held fresh_dev]. rewrite size_empty, map_size_empty. lia. }
  unfold log_init, recover. rewrite bind_modify. apply bind_panic.
  unfold Log_read. rewrite bind_gets. unfold unwrap. apply bind_panic.
  unfold bwith. rewrite (try_run _ _ _ _ _ E1). apply bind_panic.
  rewrite (bind_run _ _ _ _ _ (lbdata (put_bl b1 t0) _ h start R1 (lookup_insert_eq _ _ _))).
  cbn [view dev_hold fresh_dev]. rewrite Hh0.
  rewrite (bind_lift _ _ _ (zlen bs + 1)) by (unfold add_ovf; rewrite (proj2 (Z.ltb_lt _ _)); [done|lia]).
  rewrite (bind_lift _ _ _ true); [done|]. unfold header_too_large.
  destruct (LOGSIZE <=? zlen bs); [done|]. unfold sub_ovf.
  cbn [lsize set_metadata lg set_log].
  rewrite (proj2 (Z.leb_le 1 size)), (proj2 (Z.leb_le (size - 1) (zlen bs))) by lia. done.
Qed.
End txn.

(** ** Concurrent transactions: the budget of [begin] *)
Section budget.
Context (size : Z).

(** A system call in progress, with the number of log entries it has added. *)
Record LogSys := mkLogSys { ls_log : Log; ls_state : LogState; ls_ops : list Z }.

(** The steps processes take on the shared log: [begin] when it does not
    wait, a logged write of one of the open calls (each adds at most
    [MAXOPBLOCKS] entries), the first section of [end] of any of them, and,
    when that was the last, the commit, which empties the log. *)
Inductive log_step : LogSys -> LogSys -> Prop :=
| step_begin l x ops :
    op_ready_to_begin l x = true ->
    log_step (mkLogSys l x ops) (mkLogSys l (begin_section x) (0 :: ops))
| step_write l l' x ops1 k ops2 n :
    committing x = false -> k < MAXOPBLOCKS -> insert n l = Ret l' ->
    log_step (mkLogSys l x (ops1 ++ k :: ops2))
             (mkLogSys l' x (ops1 ++ (k + (llen l' - llen l)) :: ops2))
| step_end l x ops1 k ops2 commits x' :
    end_section x = Ret (commits, x') ->
    log_step (mkLogSys l x (ops1 ++ k :: ops2)) (mkLogSys l x' (ops1 ++ ops2))
| step_commit l x ops :
    committing x = true ->
    log_step (mkLogSys l x ops) (mkLogSys (clear l) (commit_done x) ops).

Fixpoint reserve (ops : list Z) : Z :=
  match ops with [] => 0 | k :: ops' => (MAXOPBLOCKS - k) + reserve ops' end.

Record budget_inv (y : LogSys) : Prop := {
  bi_wf : wf_log (ls_log y);
  bi_count : outstanding (ls_state y) = zlen (ls_ops y);
  bi_used : Forall (fun k => 0 <= k <= MAXOPBLOCKS) (ls_ops y);
  bi_budget : llen (ls_log y) + reserve (ls_ops y) <= LOGSIZE;
  bi_commit : committing (ls_state y) = true -> ls_ops y = [] }.

Lemma reserve_app o1 o2 : reserve (o1 ++ o2) = reserve o1 + reserve o2.
Proof. induction o1 as [|k o1 IH]; cbn [reserve app] in *; [done|]. rewrite IH. lia. Qed.

Lemma reserve_bound ops :
  Forall (fun k => 0 <= k <= MAXOPBLOCKS) ops -> 0 <= reserve ops <= zlen ops * MAXOPBLOCKS.
Proof.
  induction 1 as [|k ops Hk _ IH]; [done|]. rewrite zlen_cons. cbn [reserve]. lia.
Qed.

Lemma insert_len l l' n :
  wf_log l -> insert n l = Ret l' -> wf_log l' /\ llen l <= llen l' <= llen l + 1.
Proof.
  intros [H1 H2] E. unfold insert in E. case_bool_decide; simplify_eq; [split; [done|lia]|].
  case_match; simplify_eq. bool_to_prop. split; [split; cbn; rewrite ?zlen_zset; lia|cbn; lia].
Qed.

(** What [end] leaves: one call less, and a commit if there is no other. *)
Lemma end_section_ret x c x' :
  end_section x = Ret (c, x') -> outstanding x' = outstanding x - 1 /\ committing x' = (outstanding x - 1 =? 0).
Proof.
  unfold end_section, sub_ovf. destruct (committing x); [done|]. destruct (1 <=? outstanding x); [|done].
  destruct (outstanding x - 1 =? 0) eqn:E; intros [= <- <-]; by rewrite ?E.
Qed.

Lemma budget_step y y' : budget_inv y -> log_step y y' -> budget_inv y'.
Proof.
  intros [Hw Hc Hu Hb Hi] Hstep. destruct Hstep as
    [l x ops Hready|l l' x ops1 k ops2 n Hcm Hk E|l x ops1 k ops2 commits x' E|l x ops Hcm]; cbn in *.
  - unfold op_ready_to_begin in Hready. bool_to_prop.
    pose proof (reserve_bound _ Hu). split; cbn; try done.
    + rewrite zlen_cons. lia.
    + constructor; [unfold MAXOPBLOCKS; lia|done].
    + unfold MAXOPBLOCKS in *. lia.
    + congruence.
  - destruct (insert_len _ _ _ Hw E) as [Hw' Hl].
    apply Forall_app in Hu as [Hu1 Hu2]. inversion Hu2; subst. rewrite reserve_app in Hb. cbn in Hb.
    split; cbn; try done.
    + rewrite zlen_app, zlen_cons in *. lia.
    + apply Forall_app. split; [done|]. constructor; [lia|done].
    + rewrite reserve_app. cbn. lia.
    + congruence.
  - apply Forall_app in Hu as [Hu1 Hu2]. inversion Hu2; subst. rewrite reserve_app in Hb. cbn in Hb.
    destruct (end_section_ret _ _ _ E) as [Ho' Hcm']. rewrite zlen_app, zlen_cons in Hc. split; cbn; try done.
    + rewrite zlen_app. lia.
    + by apply Forall_app.
    + rewrite reserve_app. lia.
    + rewrite Hcm'. intros Hz%Z.eqb_eq. pose proof (zlen_nonneg ops1). pose proof (zlen_nonneg ops2).
      assert (ops1 = [] /\ ops2 = []) as [-> ->]; [|done]. split; apply nil_length_inv; unfold zlen in *; lia.
  - destruct Hw as [Hw1 Hw2]. rewrite (Hi Hcm) in *. split; cbn; try done; split; cbn; lia.
Qed.

Definition log_sys_init (start : Z) : LogSys :=
  mkLogSys (set_metadata ROOTDEV start size Log_new) LogState_new [].

Lemma budget_init start : budget_inv (log_sys_init start).
Proof. by split. Qed.

Lemma budget_reachable start y : rtc log_step (log_sys_init start) y -> budget_inv y.
Proof.
  revert y. apply (rtc_ind_r (R := log_step) budget_inv); [apply budget_init|].
  intros y1 y2 _ Hs IH. by eapply budget_step.
Qed.

Lemma lsize_step y y' : log_step y y' -> lsize (ls_log y') = lsize (ls_log y).
Proof.
  intros [| l l' x ops1 k ops2 n _ _ E | |]; try done. cbn. unfold insert in E.
  case_bool_decide; simplify_eq; [done|]. case_match; by simplify_eq.
Qed.

Lemma lsize_reachable start y : rtc log_step (log_sys_init start) y -> lsize (ls_log y) = size.
Proof.
  revert y. apply (rtc_ind_r (R := log_step) (fun y => lsize (ls_log y) = size)); [done|].
  intros y1 y2 _ Hs IH. by rewrite (lsize_step _ _ Hs).
Qed.

(** C24: However calls begin, write and end, a call that has added fewer than
    its [MAXOPBLOCKS] entries can always log one more block: with [nlog] at
    least [LOGSIZE + 1] blocks on disk the log is never full under it, so
    "transaction too big" cannot happen and the entry fits the array; and
    nobody is inside a transaction while a commit runs. *)
Theorem budget_never_overflows start y k ops1 ops2 n :
  LOGSIZE < size -> rtc log_step (log_sys_init start) y ->
  ls_ops y = ops1 ++ k :: ops2 -> k < MAXOPBLOCKS ->
  is_full (ls_log y) = Ret false /\ committing (ls_state y) = false /\
  1 <= outstanding (ls_state y) /\
  exists l', insert n (ls_log y) = Ret l' /\ llen l' <= LOGSIZE.
Proof.
  intros Hsz Hr Hops Hk. pose proof (budget_reachable _ _ Hr) as [Hw Hc Hu Hb Hi].
  pose proof (lsize_reachable _ _ Hr) as Hls. rewrite Hops in *.
  rewrite reserve_app in Hb. cbn in Hb. apply Forall_app in Hu as [Hu1 Hu2]. inversion Hu2; subst.
  pose proof (reserve_bound _ Hu1). pose proof (reserve_bound ops2 ltac:(done)).
  rewrite zlen_app, zlen_cons in Hc. pose proof (zlen_nonneg ops1). pose proof (zlen_nonneg ops2).
  assert (0 <= LOGSIZE) by done.
  split; [apply is_full_run; lia|]. split.
  { destruct (committing (ls_state y)); [|done]. specialize (Hi eq_refl). by destruct ops1. }
  split; [lia|]. destruct (insert_absorb (ls_log y) n Hw) as (l' & E & Hw' & _); [lia|].
  exists l'. split; [done|apply Hw'].
Qed.
End budget.

Lemma budget_never_overflows_witness :
  exists y l', rtc (log_step) (log_sys_init 512 2) y /\ ls_ops y = [0; 0] /\
    insert 700 (ls_log y) = Ret l' /\ llen l' <= LOGSIZE.
Proof.
  set (y := mkLogSys (set_metadata ROOTDEV 2 512 Log_new) (mkLogState 2 false) [0; 0]).
  assert (Hr : rtc log_step (log_sys_init 512 2) y).
  { eapply rtc_l; [by apply step_begin|]. eapply rtc_l; [by apply step_begin|]. apply rtc_refl. }
  destruct (budget_never_overflows 512 2 y 0 [] [0] 700) as (_ & _ & _ & l' & E & Hl); try done.
  exists y, l'. done.
Defined.
