(* ===== verification/LogOnBio.v ===== *)
(** The log running on the buffer cache: concrete instances of the theorems on
    the log, from the state [bio::init] leaves behind. *)
From stdpp Require Import base list gmap strings fin_sets.
From Stdlib Require Import ZArith Lia.
From S2P Require Import Prelude.
From S2P Require Import Arch.
From S2P Require Import BlockLayer.
From S2P Require Import Bio.
From S2P Require Import Fslog.
From S2P Require Import FslogCrash.
From S2P Require Import FslogSpec.

(** A log of [size] blocks at block 2 of the disk [d], before any call. *)
Definition boot_log (s : Bio) (size : Z) : Logged Bio :=
  mkLogged s (set_metadata ROOTDEV 2 size Log_new) LogState_new.

Definition blank : Z -> list Z := fun _ => zrep BSIZE 0.

Lemma blank_bio : exists s : Bio, rep s (fresh_dev blank).
Proof.
  destruct (init_represents (zrep BSIZE 0) 1 blank) as (c & _ & Hr);
    [by apply zlen_rep|done|intros; by apply zlen_rep|]. by eexists.
Qed.

Lemma boot_idle s : rep s (fresh_dev blank) -> idle (boot_log s 511) (fresh_dev blank) 2 511.
Proof.
  intros Hr. split; [split|done|done]; try done.
  - split; [done|]. split; [done|]. split; [apply NoDup_nil_2|]. split; [constructor|].
    split; [done|]. split; [done|]. by intros b ?%not_elem_of_nil.
  - intros b. split; [by intros ?%not_elem_of_empty|by intros ?%not_elem_of_nil].
Qed.

Lemma nbuf_room : LOGSIZE < capacity (S := Bio).
Proof. done. Qed.

Definition one_store : list (Z * list Z) := [(600, zrep BSIZE 1)].
Lemma one_store_ok n d : (n, d) ∈ one_store -> outside 2 511 n /\ uN 64 n /\ zlen d = BSIZE.
Proof.
  intros [= -> ->]%list_elem_of_singleton. split; [split; lia|]. split; [split; [lia|done]|]. by apply zlen_rep.
Qed.

Lemma with_op_durable_witness :
  exists t t' : Logged Bio, with_op (log_stores one_store) t = Ret (tt, t') /\
    medium (bl t') 600 = zrep BSIZE 1.
Proof.
  destruct blank_bio as [s Hr].
  destruct (with_op_durable one_store (boot_log s 511) (fresh_dev blank) 2 511)
    as (t' & a' & E & _ & H); [done|done|by apply boot_idle|done|done|exact one_store_ok|].
  exists (boot_log s 511), t'. split; [exact E|].
  destruct (H 600) as [_ ->]; [split; lia|]. reflexivity.
Defined.

Lemma commit_crash_atomic_witness :
  exists (t t' : Logged Bio) tr, op_commit t = Ret (tt, t') /\ written (bl t') = written (bl t) ++ tr /\
    forall k d', recovers (S := Bio) 2 511 (apply_writes (medium (bl t)) (take k tr)) d' ->
      d' 600 = zrep BSIZE 0 \/ d' 600 = zrep BSIZE 1.
Proof.
  destruct blank_bio as [s Hr]. destruct (begin_run _ _ _ _ (boot_idle s Hr)) as [_ T0].
  destruct (log_store_run _ _ 600 (zrep BSIZE 1) 2 511 nbuf_room T0) as (t1 & _ & [Hc _ _] & Hh & _);
    [split; lia|split; [lia|done]|by apply zlen_rep|done|done|].
  assert (header (lg t1) = [600]) as Hh1 by exact Hh. rewrite Hh1 in Hc.
  assert (Hm : forall n, medium (bl t1) n = zrep BSIZE 0).
  { intros n. by rewrite <-(rep_medium _ _ n (cm_rep _ _ _ _ _ Hc)). }
  destruct (commit_crash_atomic t1 _ 2 511 [600] nbuf_room Hc) as (t' & tr & E & _ & Hw & _ & Hk);
    [done|rewrite Hm; split; vm_compute; reflexivity|done|done|].
  exists t1, t', tr. split; [exact E|]. split; [exact Hw|]. intros k d' Hd'.
  destruct (Hk k) as [_ Hrec]. destruct (Hrec d' Hd') as [_ [He|He]]; rewrite He by (split; lia).
  - left. apply Hm.
  - right. reflexivity.
Defined.

(** A disk whose log area of three blocks holds two committed entries. *)
Definition full_disk : Z -> list Z := fun n => if n =? 2 then hdr_block [600; 601] (zrep BSIZE 0) else zrep BSIZE 0.

Lemma full_log_not_recovered_witness :
  exists s : Bio,
    log_init ROOTDEV 2 3 (mkLogged s Log_new LogState_new) = Panic "corrupt log too large".
Proof.
  destruct (hdr_block_ok [600; 601] (zrep BSIZE 0)) as [Hlen Hh];
    [by apply zlen_rep|done|repeat constructor; done|].
  destruct (init_represents (zrep BSIZE 0) 1 full_disk) as (c & _ & Hr);
    [by apply zlen_rep|done|intros n; unfold full_disk; destruct (n =? 2); [exact Hlen|by apply zlen_rep]|].
  exists (mkBio c 1 full_disk []).
  assert (Hl : exists l, insert 600 (set_metadata ROOTDEV 2 3 Log_new) = Ret l /\ wf_log l /\
    header l = [600] /\ llen l = 1 /\ lsize l = 3).
  { destruct (insert_run (set_metadata ROOTDEV 2 3 Log_new) 600) as (l & ? & ? & ? & ? & ? & ? & ?);
      [by split|by apply not_elem_of_nil|done|]. by exists l. }
  destruct Hl as (l & _ & Hw & Hhd & Hll & Hls).
  eapply (full_log_not_recovered _ full_disk 2 3 [600; 601] l 601); try done.
  - split; [done|]. split; [done|]. split; [repeat constructor; set_solver|].
    split; [repeat constructor; done|]. split; [done|]. split; [done|].
    intros b Hb. assert (b = 600 \/ b = 601) as [-> | ->] by set_solver; split; lia.
  - rewrite Hhd. set_solver.
Defined.
