(* ===== verification/FsLayout.v ===== *)
(** On-disk structures and path names of the file system, [fs.rs]: the
    superblock, disk inodes, directory entries, and the parsing of paths. *)
From stdpp Require Import base list gmap strings.
From Stdlib Require Import ZArith Lia.
From S2P Require Import Prelude.
From S2P Require Import Arch.
From S2P Require Import BlockLayer.

(** ** Superblock *)
Definition ROOTINO : Z := 1.

Record Superblock := mkSuperblock {
  sb_size : Z; nblocks : Z; ninodes : Z; nlog : Z; log_start : Z; inode_start : Z; bmap_start : Z }.
Definition Superblock_new : Superblock := mkSuperblock 0 0 0 0 0 0 0.

Definition NDIRECT : Z := 12.
Definition NINDIRECT : Z := BSIZE / 8.
Definition MAXFILE : Z := NDIRECT + NINDIRECT.

(** [size_of::<DInode>()], [IPB] and [BPB]. *)
Definition DINODE_SIZE : Z := 128.
Definition IPB : Z := BSIZE / DINODE_SIZE.
Definition BPB : Z := BSIZE * 8.

Definition iblock (sb : Superblock) (inum : Z) : outcome Z := add_ovf 64 (inum / IPB) (inode_start sb).
Definition bblock (sb : Superblock) (b : Z) : outcome Z := add_ovf 64 (b / BPB) (bmap_start sb).

(** A field of [n] bytes at [off]. *)
Definition field (n : nat) (off : Z) (blk : list Z) : Z := from_le (zslice blk off (off + Z.of_nat n)).

Definition Superblock_decode (blk : list Z) : Superblock :=
  mkSuperblock (field 8 0 blk) (field 8 8 blk) (field 8 16 blk) (field 8 24 blk) (field 8 32 blk)
    (field 8 40 blk) (field 8 48 blk).

(** ** Disk inodes *)
Record DInode := mkDInode {
  di_typ : Z; di_major : Z; di_minor : Z; di_nlink : Z; di_size : Z; di_addrs : list Z }.
Definition DInode_new : DInode := mkDInode 0 0 0 0 0 (zrep (NDIRECT + 1) 0).

Definition DInode_encode (d : DInode) : list Z :=
  le_bytes 4 (di_typ d) ++ le_bytes 4 (di_major d) ++ le_bytes 4 (di_minor d) ++
  le_bytes 4 (di_nlink d) ++ le_bytes 8 (di_size d) ++ mjoin (le_bytes 8 <$> di_addrs d).

Definition DInode_decode (bs : list Z) : DInode :=
  mkDInode (field 4 0 bs) (field 4 4 bs) (field 4 8 bs) (field 4 12 bs) (field 8 16 bs)
    ((fun k => field 8 (24 + 8 * k) bs) <$> zrange 0 (NDIRECT + 1)).

(** [buf_to_dinode]: the slot of inode [inum] in its block. *)
Definition dinode_off (inum : Z) : Z := (inum mod IPB) * DINODE_SIZE.
Definition get_dinode (blk : list Z) (inum : Z) : DInode :=
  DInode_decode (zslice blk (dinode_off inum) (dinode_off inum + DINODE_SIZE)).
Definition put_dinode (blk : list Z) (inum : Z) (d : DInode) : list Z :=
  zsplice blk (dinode_off inum) (DInode_encode d).

(** ** File types *)
Inductive FileType := FtUnused | FtDir | FtFile | FtDev.
#[export] Instance FileType_eq_dec : EqDecision FileType.
Proof. solve_decision. Defined.

Definition FileType_val (t : FileType) : Z :=
  match t with FtUnused => 0 | FtDir => 1 | FtFile => 2 | FtDev => 3 end.

(** [Inode::typ]'s match. *)
Definition FileType_of (v : Z) : outcome FileType :=
  if v =? 0 then Ret FtUnused else if v =? 1 then Ret FtDir else if v =? 2 then Ret FtFile
  else if v =? 3 then Ret FtDev else Panic "bad inode file type".

Inductive CreateType := CFile | CDir | CDev (major minor : Z).
Definition CreateType_into (c : CreateType) : FileType :=
  match c with CFile => FtFile | CDir => FtDir | CDev _ _ => FtDev end.

(** ** Directory entries *)
Definition DIRSIZ : Z := 24.
Definition DIRENT_SIZE : Z := 32.

Record Dirent := mkDirent { d_inum : Z; d_name : list Z }.

Definition Dirent_decode (bs : list Z) : Dirent := mkDirent (field 8 0 bs) (zslice bs 8 32).

(** [Dirent::name]: up to the first NUL. *)
Definition Dirent_name (d : Dirent) : list Z :=
  match position (Z.eqb 0) (d_name d) with
  | Some nul => take nul (d_name d)
  | None => d_name d
  end.

(** The entry [dir_link] writes. *)
Definition dirent_bytes (name : list Z) (inum : Z) : list Z :=
  let len := Z.min DIRSIZ (zlen name) in
  zsplice (zsplice (zrep DIRENT_SIZE 0) 0 (le_bytes 8 inum)) 8 (take (Z.to_nat len) name).

(** ** Paths, as byte strings; 47 is the slash *)
Definition SLASH : Z := 47.

Definition skip_elem (path : list Z) : option (list Z * list Z) :=
  match position (fun p => negb (p =? SLASH)) path with
  | None => None
  | Some start =>
    let path := drop start path in
    let end_ := default (length path) (position (Z.eqb SLASH) path) in
    let name := take (Nat.min end_ (Z.to_nat DIRSIZ)) path in
    let path := drop end_ path in
    let next_start := default (length path) (position (fun b => negb (b =? SLASH)) path) in
    Some (name, drop next_start path)
  end.

(** [iter().rposition(p)]. *)
Definition rposition {A} (p : A -> bool) (l : list A) : option nat :=
  match position p (reverse l) with
  | Some k => Some (length l - 1 - k)%nat
  | None => None
  end.

Definition split_name (path : list Z) : list Z * list Z :=
  match rposition (Z.eqb SLASH) path with
  | Some pos => (take pos path, drop (S pos) path)
  | None => ([], path)
  end.

(** ** Parsing paths *)
Definition slashes (l : list Z) : Prop := Forall (fun c => c = SLASH) l.
Definition no_slash (l : list Z) : Prop := Forall (fun c => c <> SLASH) l.

(** Cutting a list at the first element that satisfies [p]. *)
Lemma position_cut {A} (p : A -> bool) l :
  Forall (fun x => p x = false) (take (default (length l) (position p l)) l) /\
  match drop (default (length l) (position p l)) l with
  | [] => True
  | x :: _ => p x = true
  end.
Proof.
  induction l as [|a l [IH1 IH2]]; [split; [constructor|done]|]. cbn.
  destruct (p a) eqn:Ea; [split; [constructor|done]|].
  destruct (position p l) as [k|]; cbn in *; (split; [constructor; [done|exact IH1]|exact IH2]).
Qed.

Lemma Forall_slashes l : Forall (fun x => negb (x =? SLASH) = false) l <-> slashes l.
Proof. unfold slashes. rewrite !Forall_forall. setoid_rewrite negb_false_iff. setoid_rewrite Z.eqb_eq. done. Qed.

Lemma Forall_no_slash l : Forall (fun x => (SLASH =? x) = false) l <-> no_slash l.
Proof.
  unfold no_slash. rewrite !Forall_forall. setoid_rewrite Z.eqb_neq.
  split; intros Hl x Hx Heq; by apply (Hl x Hx).
Qed.

(** How [skip_elem] splits a path: leading slashes, an element, slashes, rest. *)
Definition splits (path s1 elem s2 rest : list Z) : Prop :=
  path = s1 ++ elem ++ s2 ++ rest /\ slashes s1 /\ no_slash elem /\ elem <> [] /\
  slashes s2 /\ (rest <> [] -> s2 <> []) /\
  match rest with [] => True | c :: _ => c <> SLASH end.

Lemma skip_elem_Some path name rest :
  skip_elem path = Some (name, rest) ->
  exists s1 elem s2, splits path s1 elem s2 rest /\ name = take (Z.to_nat DIRSIZ) elem.
Proof.
  unfold skip_elem. destruct (position _ path) as [start|] eqn:E1; [|done].
  pose proof (position_cut (fun p => negb (p =? SLASH)) path) as [H1 H2]. rewrite E1 in H1, H2. cbn in H1, H2.
  set (path1 := drop start path) in *.
  pose proof (position_cut (Z.eqb SLASH) path1) as [H3 H4].
  set (e := default (length path1) (position (Z.eqb SLASH) path1)) in *.
  set (path2 := drop e path1) in *.
  pose proof (position_cut (fun b => negb (b =? SLASH)) path2) as [H5 H6].
  set (n2 := default (length path2) (position (fun b => negb (b =? SLASH)) path2)) in *.
  intros [= <- <-].
  exists (take start path), (take e path1), (take n2 path2). split.
  - split; [unfold path2, path1; by rewrite !take_drop|].
    rewrite Forall_slashes in H1, H5. rewrite Forall_no_slash in H3. do 2 (split; [done|]).
    split; [|split; [done|split]].
    + intros Ht. assert (path1 = path2) as Hp by (by rewrite <-(take_drop e path1), Ht).
      rewrite <-Hp in H4. apply position_Some in E1 as [(x & Hx & _) _]. apply lookup_lt_Some in Hx.
      assert (length path1 = (length path - start)%nat) as Hl by apply length_drop.
      destruct path1 as [|c p1]; [cbn in Hl; lia|]. bool_to_prop. lia.
    + intros Hr Hs. assert (path2 = drop n2 path2) as Hp by (by rewrite <-(take_drop n2 path2) at 1; rewrite Hs).
      rewrite <-Hp in H6, Hr. destruct path2 as [|c p2]; [done|]. bool_to_prop. lia.
    + destruct (drop n2 path2); [done|]. bool_to_prop. lia.
  - by rewrite take_take, Nat.min_comm.
Qed.

Lemma skip_elem_None path : skip_elem path = None <-> slashes path.
Proof.
  unfold skip_elem. rewrite <-Forall_slashes.
  destruct (position (fun p => negb (p =? SLASH)) path) as [k|] eqn:E; split; try done.
  - intros H. apply position_Some in E as [(x & Hx & Hp) _].
    rewrite Forall_lookup in H. rewrite (H k x Hx) in Hp. done.
  - intros _. by apply position_None in E.
Qed.


(** [skip_elem] takes one path element: it returns nothing exactly for a
    path of slashes, and otherwise splits the path into leading slashes, a
    nonempty element without slashes, the slashes after it, and a rest that
    does not begin with one; the name is the element cut to [DIRSIZ] bytes
    and the rest is shorter than the path, so a walk over it ends. *)
Theorem skip_elem_spec path :
  match skip_elem path with
  | None => slashes path
  | Some (name, rest) =>
    (length rest < length path)%nat /\
    exists s1 elem s2, splits path s1 elem s2 rest /\ name = take (Z.to_nat DIRSIZ) elem /\ name <> []
  end.
Proof.
  destruct (skip_elem path) as [[name rest]|] eqn:E; [|by apply skip_elem_None].
  apply skip_elem_Some in E as (s1 & elem & s2 & Hs & ->). pose proof Hs as (-> & _ & _ & Hne & _).
  split.
  - rewrite !length_app. destruct elem; [done|]. cbn. lia.
  - exists s1, elem, s2. split; [done|]. split; [done|]. by destruct elem.
Qed.

(** [split_name] cuts a path at its last slash: the file part has no
    slash, and path, directory and file fit together. *)
Theorem split_name_spec path :
  let (dir, file) := split_name path in
  no_slash file /\ (path = dir ++ SLASH :: file \/ dir = [] /\ file = path).
Proof.
  unfold split_name, rposition. destruct (position (Z.eqb SLASH) (reverse path)) as [k|] eqn:E.
  - apply position_Some in E as [(x & Hx & Hp) Hlt]. apply Z.eqb_eq in Hp as <-.
    pose proof (lookup_lt_Some _ _ _ Hx) as Hk. rewrite length_reverse in Hk.
    set (pos := (length path - 1 - k)%nat).
    assert (forall j, (j < length path)%nat -> path !! j = reverse path !! (length path - 1 - j)%nat) as Hrev.
    { intros j Hj. rewrite reverse_lookup by lia. f_equal. lia. }
    split.
    + apply Forall_lookup. intros i y Hy. rewrite lookup_drop in Hy.
      pose proof (lookup_lt_Some _ _ _ Hy) as Hl. rewrite Hrev in Hy by lia.
      specialize (Hlt (length path - 1 - (S pos + i))%nat y ltac:(unfold pos in *; lia) Hy). lia.
    + left. rewrite <-(take_drop pos path) at 1. f_equal. apply drop_S. rewrite Hrev by (unfold pos; lia).
      rewrite <-Hx. f_equal. unfold pos. lia.
  - apply position_None in E. split; [|by right]. apply Forall_no_slash.
    apply Forall_forall. intros x Hx. rewrite Forall_forall in E. apply E.
    by apply elem_of_reverse.
Qed.

(** ** Encodings *)
Lemma zslice_app_l {A} (l1 l2 : list A) b :
  0 <= b <= zlen l1 -> zslice (l1 ++ l2) 0 b = zslice l1 0 b.
Proof.
  intros Hb. unfold zslice, zlen in *. rewrite !drop_0, take_app_le by lia. done.
Qed.

Lemma zslice_app_r {A} (l1 l2 : list A) a b :
  zlen l1 <= a -> zslice (l1 ++ l2) a b = zslice l2 (a - zlen l1) (b - zlen l1).
Proof.
  intros Ha. unfold zslice, zlen in *. rewrite drop_app_ge by lia. f_equal; [lia|]. f_equal. lia.
Qed.

Lemma zslice_full {A} (l : list A) b : b = zlen l -> zslice l 0 b = l.
Proof. intros ->. unfold zslice, zlen. rewrite drop_0, Z.sub_0_r, Nat2Z.id. by apply take_ge. Qed.

(** The field at the head of an encoding, and the ones behind it. *)
Lemma field_head n x rest : 0 <= x < 256 ^ Z.of_nat n -> field n 0 (le_bytes n x ++ rest) = x.
Proof.
  intros Hx. unfold field. rewrite Z.add_0_l.
  rewrite zslice_app_l by (rewrite zlen_le_bytes; lia).
  rewrite zslice_full by (by rewrite zlen_le_bytes). by apply from_le_le_bytes.
Qed.

Lemma field_skip n off l1 l2 :
  zlen l1 <= off -> field n off (l1 ++ l2) = field n (off - zlen l1) l2.
Proof. intros. unfold field. rewrite zslice_app_r by done. do 2 f_equal. lia. Qed.

Lemma zlen_mjoin8 l : zlen (mjoin (le_bytes 8 <$> l)) = 8 * zlen l.
Proof.
  induction l as [|x l IH]; [done|]. cbn [fmap list_fmap mjoin list_join].
  change (zlen (le_bytes 8 x ++ mjoin (le_bytes 8 <$> l)) = 8 * zlen (x :: l)).
  rewrite zlen_app, zlen_le_bytes, IH, zlen_cons. lia.
Qed.

Lemma fields8 l (k : nat) x :
  Forall (uN 64) l -> l !! k = Some x -> field 8 (8 * Z.of_nat k) (mjoin (le_bytes 8 <$> l)) = x.
Proof.
  intros Hu. revert k. induction Hu as [|y l Hy _ IH]; intros k Hk; [done|].
  cbn [fmap list_fmap mjoin list_join].
  change (field 8 (8 * Z.of_nat k) (le_bytes 8 y ++ mjoin (le_bytes 8 <$> l)) = x).
  destruct k as [|k]; cbn in Hk.
  - injection Hk as ->. by apply field_head.
  - rewrite field_skip by (rewrite zlen_le_bytes; lia). rewrite zlen_le_bytes.
    rewrite <-(IH k Hk). f_equal. lia.
Qed.

(** Disk inodes whose fields fit their widths. *)
Definition dinode_ok (d : DInode) : Prop :=
  uN 32 (di_typ d) /\ uN 32 (di_major d) /\ uN 32 (di_minor d) /\ uN 32 (di_nlink d) /\
  uN 64 (di_size d) /\ zlen (di_addrs d) = NDIRECT + 1 /\ Forall (uN 64) (di_addrs d).

Lemma zlen_DInode_encode d : zlen (di_addrs d) = NDIRECT + 1 -> zlen (DInode_encode d) = DINODE_SIZE.
Proof.
  intros Hl. unfold DInode_encode. rewrite !zlen_app, !zlen_le_bytes, zlen_mjoin8, Hl. done.
Qed.

Lemma DInode_decode_encode d : dinode_ok d -> DInode_decode (DInode_encode d) = d.
Proof.
  intros (H1 & H2 & H3 & H4 & H5 & Hl & Hu). destruct d as [t ma mi nl sz addrs].
  cbn [di_typ di_major di_minor di_nlink di_size di_addrs] in *. unfold DInode_decode, DInode_encode. cbn [di_typ di_major di_minor di_nlink di_size di_addrs].
  f_equal.
  - by apply field_head.
  - by rewrite field_skip, zlen_le_bytes, field_head.
  - by rewrite !field_skip, !zlen_le_bytes, field_head by (rewrite ?zlen_le_bytes; done).
  - by rewrite !field_skip, !zlen_le_bytes, field_head by (rewrite ?zlen_le_bytes; done).
  - by rewrite !field_skip, !zlen_le_bytes, field_head by (rewrite ?zlen_le_bytes; done).
  - apply list_eq. intros k. rewrite list_lookup_fmap.
    destruct (decide (k < 13)%nat) as [Hk|Hk].
    + rewrite <-(znth_of_nat (zrange 0 (NDIRECT + 1))).
      assert ((zrange 0 (NDIRECT + 1)).[Z.of_nat k] = Some (Z.of_nat k)) as ->.
      { do 13 (destruct k as [|k]; [done|]). lia. }
      cbn [fmap option_fmap option_map].
      destruct (addrs !! k) as [x|] eqn:Hx.
      * f_equal. rewrite !field_skip; rewrite ?zlen_le_bytes; try lia.
        rewrite <-(fields8 addrs k x Hu Hx). f_equal. lia.
      * apply lookup_ge_None in Hx. unfold zlen in Hl. change (NDIRECT + 1) with 13 in Hl. lia.
    + assert (length (zrange 0 (NDIRECT + 1)) = 13%nat) as Hz by done.
      unfold zlen in Hl. change (NDIRECT + 1) with 13 in Hl.
      rewrite (lookup_ge_None_2 addrs), (lookup_ge_None_2 (zrange _ _)) by lia. done.
Qed.

Lemma dinode_off_range inum : 0 <= dinode_off inum /\ dinode_off inum + DINODE_SIZE <= BSIZE.
Proof.
  unfold dinode_off. assert (IPB = 32 /\ DINODE_SIZE = 128 /\ BSIZE = 4096) as (-> & -> & ->) by done.
  pose proof (Z.mod_pos_bound inum 32). lia.
Qed.

(** Storing a disk inode in its slot and reading the slot back gives the
    same inode, and the other inodes of the block are untouched. *)
Theorem dinode_slot_roundtrip blk inum d :
  zlen blk = BSIZE -> dinode_ok d ->
  zlen (put_dinode blk inum d) = BSIZE /\ get_dinode (put_dinode blk inum d) inum = d /\
  forall inum', inum mod IPB <> inum' mod IPB ->
    get_dinode (put_dinode blk inum d) inum' = get_dinode blk inum'.
Proof.
  intros Hb Hd. pose proof (dinode_off_range inum) as [Ho1 Ho2].
  assert (zlen (DInode_encode d) = DINODE_SIZE) as Hl by (by apply zlen_DInode_encode, Hd).
  unfold put_dinode. split; [rewrite zlen_zsplice; lia|]. split.
  - unfold get_dinode. rewrite <-Hl. rewrite zslice_zsplice by lia. by apply DInode_decode_encode.
  - intros inum' Hne. unfold get_dinode. f_equal. pose proof (dinode_off_range inum') as [Ho3 Ho4].
    assert (0 < DINODE_SIZE) by done. apply zslice_zsplice_out; [lia..|].
    rewrite Hl. unfold dinode_off in *. assert (DINODE_SIZE = 128) as E by done. rewrite E in *. lia.
Qed.

Lemma dinode_slot_roundtrip_witness :
  get_dinode (put_dinode (zrep BSIZE 0) 33 (mkDInode 2 0 0 1 77 (zrep 13 9))) 33 =
    mkDInode 2 0 0 1 77 (zrep 13 9).
Proof.
  destruct (dinode_slot_roundtrip (zrep BSIZE 0) 33 (mkDInode 2 0 0 1 77 (zrep 13 9))) as (_ & H & _).
  - by apply zlen_rep.
  - repeat split; try done. repeat constructor; done.
  - exact H.
Defined.

(** The name an entry shows is what was stored, cut to [DIRSIZ]. *)
Lemma position_app_nul name rest :
  Forall (fun c => c <> 0) name -> position (Z.eqb 0) (name ++ 0 :: rest) = Some (length name).
Proof.
  induction 1 as [|c name Hc _ IH]; [done|]. cbn [app position].
  rewrite (proj2 (Z.eqb_neq 0 c)), IH by lia. done.
Qed.

Lemma position_no_nul name : Forall (fun c => c <> 0) name -> position (Z.eqb 0) name = None.
Proof.
  induction 1 as [|c name Hc _ IH]; [done|]. cbn [position].
  by rewrite (proj2 (Z.eqb_neq 0 c)), IH by lia.
Qed.

Lemma dirent_bytes_app name inum :
  dirent_bytes name inum =
    le_bytes 8 inum ++ take 24 name ++ replicate (24 - length name) 0.
Proof.
  unfold dirent_bytes, zsplice, zrep. pose proof (length_le_bytes 8 inum) as Hl.
  assert (Z.to_nat (Z.min DIRSIZ (zlen name)) = Nat.min 24 (length name)) as -> by (unfold DIRSIZ, zlen; lia).
  assert (take (24 `min` length name) name = take 24 name) as ->.
  { destruct (decide (24 <= length name)%nat); [by rewrite Nat.min_l by lia|].
    rewrite Nat.min_r, !take_ge by lia. done. }
  change (Z.to_nat 0) with 0%nat. change (Z.to_nat 8) with 8%nat. change (Z.to_nat DIRENT_SIZE) with 32%nat.
  rewrite take_0, app_nil_l, Nat.add_0_l, Hl. rewrite drop_replicate.
  rewrite take_app_le by lia. rewrite take_ge by lia. f_equal. f_equal.
  rewrite drop_app_ge by lia. rewrite Hl, drop_replicate, length_take. f_equal. lia.
Qed.

(** A directory entry reads back with its inode number and, for a name
    without NUL bytes, the first [DIRSIZ] bytes of the name: exactly the
    name when it has at most [DIRSIZ] bytes.  A longer name is stored cut,
    so the entry no longer answers to the name it was linked under. *)
Theorem dirent_roundtrip name inum :
  uN 64 inum -> Forall (fun c => c <> 0) name ->
  let d := Dirent_decode (dirent_bytes name inum) in
  zlen (dirent_bytes name inum) = DIRENT_SIZE /\ d_inum d = inum /\
  Dirent_name d = take (Z.to_nat DIRSIZ) name /\
  (Dirent_name d = name <-> zlen name <= DIRSIZ).
Proof.
  intros Hi Hn. cbn zeta. assert (Hname : Dirent_name (Dirent_decode (dirent_bytes name inum)) = take 24 name).
  { unfold Dirent_name, Dirent_decode. cbn [d_name]. rewrite dirent_bytes_app.
    rewrite zslice_app_r by (rewrite zlen_le_bytes; lia). rewrite zlen_le_bytes.
    rewrite zslice_full by (unfold zlen; rewrite length_app, length_take, length_replicate; lia).
    assert (Forall (fun c => c <> 0) (take 24 name)) as Ht by (by apply Forall_take).
    destruct (24 - length name)%nat as [|r] eqn:Er.
    - rewrite app_nil_r, position_no_nul by done. done.
    - cbn [replicate]. rewrite position_app_nul by done. by rewrite take_app_length. }
  split; [|split; [|split; [exact Hname|]]].
  - rewrite dirent_bytes_app. unfold zlen. rewrite !length_app, length_le_bytes, length_take, length_replicate.
    change DIRENT_SIZE with 32. lia.
  - unfold Dirent_decode. cbn [d_inum]. rewrite dirent_bytes_app. by apply field_head.
  - rewrite Hname. unfold zlen. change DIRSIZ with 24. split.
    + intros Heq. apply (f_equal length) in Heq. rewrite length_take in Heq. lia.
    + intros Hl. apply take_ge. lia.
Qed.

Lemma dirent_roundtrip_witness :
  Dirent_name (Dirent_decode (dirent_bytes [97; 46; 99] 7)) = [97; 46; 99] /\
  Dirent_name (Dirent_decode (dirent_bytes (replicate 25 97) 7)) <> replicate 25 97.
Proof.
  split.
  - destruct (dirent_roundtrip [97; 46; 99] 7) as (_ & _ & _ & H); [done|by repeat constructor|].
    by apply H.
  - destruct (dirent_roundtrip (replicate 25 97) 7) as (_ & _ & _ & H); [done|by apply Forall_replicate|].
    intros Heq. apply H in Heq. vm_compute in Heq. done.
Defined.
