(* ===== verification/Sd.v ===== *)
(** The disk driver, [sd.rs]: commands and their frames, a port of the
    controller, the drive, and the queue of requests.  The controller is a
    device whose registers are read and written; the buffers are those of the
    cache. *)
From stdpp Require Import base list gmap strings.
From Stdlib Require Import ZArith Lia.
From S2P Require Import Prelude.
From S2P Require Import Arch.
From S2P Require Import Volatile.
From S2P Require Import Pci.
From S2P Require Import FsLayout.
From S2P Require Import BlockLayer.
From S2P Require Import Sleeplock.
From S2P Require Import Bio.
From S2P Require Import BioSpec.

(** ** Frames: the twenty bytes of a host-to-device register *)
Definition HostToDevReg : Z := 0x27.
Inductive ATACommand := Identify | ReadDMAExt | WriteDMAExt.
Definition ATACommand_val (c : ATACommand) : Z :=
  match c with Identify => 0xEC | ReadDMAExt => 0x25 | WriteDMAExt => 0x35 end.

Definition RegH2D : Type := list Z.
Definition RegH2D_new : RegH2D := (zrep 20 0).[0 <- HostToDevReg].
Definition with_lba (lba : Z) (f : RegH2D) : RegH2D :=
  f.[4 <- lba mod 256].[5 <- Z.shiftr lba 8 mod 256].[6 <- Z.shiftr lba 16 mod 256]
   .[8 <- Z.shiftr lba 24 mod 256].[9 <- Z.shiftr lba 32 mod 256].[10 <- Z.shiftr lba 40 mod 256].
Definition with_device_lba (f : RegH2D) : RegH2D := f.[7 <- Z.shiftl 1 6].
Definition with_cflag (f : RegH2D) : RegH2D := f.[1 <- Z.lor (default 0 f.[1]) 0x80].
Definition with_command (c : ATACommand) (f : RegH2D) : RegH2D := f.[2 <- ATACommand_val c].
Definition with_count (count : Z) (f : RegH2D) : RegH2D :=
  f.[12 <- count mod 256].[13 <- Z.shiftr count 8 mod 256].

Definition SECTOR_SIZE : Z := 512.

(** ** Registers *)
Inductive PortReg := CLB | CLBU | FB | FBU | IS | IE | CMD | TFD | SIG | SSTS | SERR | CI.
Inductive Reg := GHC | HbaIS | PortsImpl | P (k : Z) (r : PortReg).
#[export] Instance PortReg_eq_dec : EqDecision PortReg.
Proof. solve_decision. Defined.
#[export] Instance Reg_eq_dec : EqDecision Reg.
Proof. solve_decision. Defined.

Definition AHCI_ENABLE : Z := Z.shiftl 1 31.
Definition INTR_ENABLE : Z := Z.shiftl 1 1.
(** The bits of [GlobalHBACtl] that have a name; the others are dropped. *)
Definition GHC_BITS : Z := Z.lor (Z.lor 7 INTR_ENABLE) AHCI_ENABLE.
Definition DRQ : Z := Z.shiftl 1 3.
Definition BUSY : Z := Z.shiftl 1 7.

Definition PORT_CMD_CR : Z := Z.shiftl 1 15.
Definition PORT_CMD_FR : Z := Z.shiftl 1 14.
Definition PORT_CMD_FRE : Z := Z.shiftl 1 4.
Definition PORT_CMD_ST : Z := 1.
Definition PORT_BUSY : Z := Z.lor (Z.lor (Z.lor PORT_CMD_CR PORT_CMD_FR) PORT_CMD_FRE) PORT_CMD_ST.

Definition lo32 (x : Z) : Z := x mod 2 ^ 32.
Definition hi32 (x : Z) : Z := Z.shiftr x 32 mod 2 ^ 32.

(** ** A port *)
Section port.
Context {D : Type} `{Mmio Reg D}.

Definition is_present (k : Z) : M D bool :=
  ssts ← vread (P k SSTS);
  mret ((Z.land ssts 0x0F =? 0x03) && (Z.land (Z.shiftr ssts 8) 0x0F =? 0x01)).
Definition is_storage (k : Z) : M D bool := sig ← vread (P k SIG); mret (sig =? 0x101).
Definition is_idle (k : Z) : M D bool := c ← vread (P k CMD); mret (Z.land c PORT_BUSY =? 0).

Definition port_start (k : Z) : M D unit :=
  bit_set (P k CMD) PORT_CMD_FRE;;
  bit_set (P k CMD) PORT_CMD_ST.

Definition port_stop (k : Z) : M D unit :=
  idle ← is_idle k;
  if idle : bool then mret tt else
  bit_clear (P k CMD) (Z.lor PORT_CMD_ST PORT_CMD_FRE);;
  poll (Z.to_nat 500) (i ← is_idle k; mret (if i : bool then Some tt else None)) (mret tt).

Definition clear_sata_error (k : Z) : M D unit := vwrite (P k SERR) 0x30F0FF70.
Definition port_issue (k : Z) : M D unit := bit_set (P k CI) 1.

(** The test is [contains], which holds if both bits are set. *)
Definition tfd_busy (tfd : Z) : bool := Z.land tfd (Z.lor BUSY DRQ) =? Z.lor BUSY DRQ.

Definition port_wait (k : Z) : M D unit :=
  poll (Z.to_nat 1000000)
    (tfd ← vread (P k TFD); mret (if negb (tfd_busy tfd) then Some tt else None))
    (panic "AHCI port hung").

Definition is_wait_done (k : Z) : M D bool :=
  ci ← vread (P k CI);
  tfd ← vread (P k TFD);
  mret (negb (tfd_busy tfd) && (Z.land ci 1 =? 0)).
Definition wait_done (k : Z) : M D bool :=
  poll (Z.to_nat 2000000000) (d ← is_wait_done k; mret (if d : bool then Some true else None)) (mret false).

Definition port_eoi (k : Z) : M D unit := vwrite (P k IS) (2 ^ 32 - 1).
Definition hba_eoi : M D unit := vwrite HbaIS 0.

(** [Port::init]: [header] and [rfis] are the physical addresses of the
    command list and of the received frames. *)
Definition port_init (k header rfis : Z) : M D unit :=
  port_stop k;;
  vwrite (P k CLBU) (hi32 header);;
  vwrite (P k CLB) (lo32 header);;
  vwrite (P k FBU) (hi32 rfis);;
  vwrite (P k FB) (lo32 rfis);;
  vwrite (P k IE) 1;;
  clear_sata_error k;;
  port_start k.
End port.

(** ** The drive: a page the controller reads commands from *)
Record CmdHeader := mkCmdHeader { pwa_cfl : Z; prd_tbl_len : Z; cmd_tbl_base_lo : Z; cmd_tbl_base_hi : Z }.
Record PRDTEntry := mkPRDTEntry { data_phys_addr_lo : Z; data_phys_addr_hi : Z; data_count_i : Z }.
Record Drive := mkDrive {
  cmd_header : CmdHeader; fis : RegH2D; prd0 : PRDTEntry; identity : list Z; sectors : Z;
  port : Z; model : list Z; serial : list Z; drive_page : Z }.

(** Offsets in the page. *)
Definition RCVD_FIS_OFF : Z := 32 * 32.
Definition CMD_TABLE_OFF : Z := 32 * 32 + 256.
Definition IDENTITY_OFF : Z := 32 * 32 + 256 + 256.

Definition CmdHeader_W : Z := Z.shiftl 1 6.
Definition set_num_prds (n : Z) (h : CmdHeader) : CmdHeader :=
  mkCmdHeader (pwa_cfl h) n (cmd_tbl_base_lo h) (cmd_tbl_base_hi h).
Definition set_cfl (nu32s : Z) (h : CmdHeader) : outcome CmdHeader :=
  if (2 <=? nu32s) && (nu32s <=? 16)
  then Ret (mkCmdHeader (Z.lor (pwa_cfl h) nu32s) (prd_tbl_len h) (cmd_tbl_base_lo h) (cmd_tbl_base_hi h))
  else Panic "assertion failed: (2..=16).contains(&nu32s)".
Definition set_read (h : CmdHeader) : CmdHeader :=
  mkCmdHeader (Z.land (pwa_cfl h) (lnotw 8 CmdHeader_W)) (prd_tbl_len h) (cmd_tbl_base_lo h) (cmd_tbl_base_hi h).
Definition set_write (h : CmdHeader) : CmdHeader :=
  mkCmdHeader (Z.lor (pwa_cfl h) CmdHeader_W) (prd_tbl_len h) (cmd_tbl_base_lo h) (cmd_tbl_base_hi h).
Definition header_clear (h : CmdHeader) : CmdHeader := set_num_prds 0 h.

Definition put_header (h : CmdHeader) (d : Drive) : Drive :=
  mkDrive h (fis d) (prd0 d) (identity d) (sectors d) (port d) (model d) (serial d) (drive_page d).
Definition put_fis (f : RegH2D) (d : Drive) : Drive :=
  mkDrive (cmd_header d) f (prd0 d) (identity d) (sectors d) (port d) (model d) (serial d) (drive_page d).
Definition put_prd (e : PRDTEntry) (d : Drive) : Drive :=
  mkDrive (cmd_header d) (fis d) e (identity d) (sectors d) (port d) (model d) (serial d) (drive_page d).

(** [CmdTable::set_prd] for [len] bytes at the kernel address [a]. *)
Definition set_prd (a len : Z) (d : Drive) : outcome Drive :=
  match addr_to_phys a with
  | Ret pa =>
    if Z.land pa 1 =? 0 then Ret (put_prd (mkPRDTEntry (lo32 pa) (hi32 pa) (len - 1)) d)
    else Panic "misaligned prd"
  | Panic e => Panic e
  | Diverge => Diverge
  end.

Definition setup_cmd (write : bool) (f : RegH2D) (d : Drive) : outcome Drive :=
  let d := put_fis f d in
  let h := set_num_prds 1 (cmd_header d) in
  let h := if write then set_write h else set_read h in
  match set_cfl (20 / 4) h with
  | Ret h => Ret (put_header h d)
  | Panic e => Panic e
  | Diverge => Diverge
  end.
Definition setup_read_cmd : RegH2D -> Drive -> outcome Drive := setup_cmd false.
Definition setup_write_cmd : RegH2D -> Drive -> outcome Drive := setup_cmd true.

(** The frame of a transfer of one block. *)
Definition block_fis (c : ATACommand) (offset : Z) : RegH2D :=
  with_count (BSIZE / SECTOR_SIZE) (with_device_lba (with_lba (offset / SECTOR_SIZE) (with_cflag (with_command c RegH2D_new)))).
Definition identify_fis : RegH2D := with_count 1 (with_cflag (with_command Identify RegH2D_new)).

(** ** The driver

    [data_addr p] is the address of the page of buffer [p], [as_chan p] the
    channel processes wait on for it, and [ident] what the drive writes when
    asked to identify itself. *)
Section sd.
Context {D : Type} `{Mmio Reg D}.
Context (data_addr as_chan : Z -> Z) (ident : D -> list Z).

Record Sd := mkSd { sd_bio : Bio; QUEUE : option Z; DRIVE : option Drive; hba : D; woken : list Z }.
Notation T := (M Sd).

Definition on_hba {A} (m : M D A) : T A := fun s =>
  match m (hba s) with
  | Ret (a, d) => Ret (a, mkSd (sd_bio s) (QUEUE s) (DRIVE s) d (woken s))
  | Panic e => Panic e
  | Diverge => Diverge
  end.
Definition on_bio {A} (m : M Bio A) : T A := fun s =>
  match m (sd_bio s) with
  | Ret (a, b) => Ret (a, mkSd b (QUEUE s) (DRIVE s) (hba s) (woken s))
  | Panic e => Panic e
  | Diverge => Diverge
  end.
Definition put_queue (q : option Z) : T unit := modify (fun s => mkSd (sd_bio s) q (DRIVE s) (hba s) (woken s)).
Definition put_drive (d : Drive) : T unit := modify (fun s => mkSd (sd_bio s) (QUEUE s) (Some d) (hba s) (woken s)).
Definition wakeup (chan : Z) : T unit :=
  modify (fun s => mkSd (sd_bio s) (QUEUE s) (DRIVE s) (hba s) (woken s ++ [chan])).
Definition drive (msg : string) : T Drive := o ← gets DRIVE; expect o msg.

Definition issue (d : Drive) : T unit := on_hba (port_wait (port d));; on_hba (port_issue (port d)).
Definition issue_synch (d : Drive) : T unit :=
  on_hba (port_wait (port d));; on_hba (port_issue (port d));; on_hba (wait_done (port d));; mret tt.
Definition eoi (d : Drive) : T unit := on_hba (port_eoi (port d));; on_hba hba_eoi.

(** [read_block] and [write_block] of the page of buffer [p]. *)
Definition block_cmd (write : bool) (p offset : Z) : T unit :=
  d ← drive "no drive";
  d ← lift (setup_cmd write (block_fis (if write then WriteDMAExt else ReadDMAExt) offset) d);
  d ← lift (set_prd (data_addr p) PAGE_SIZE d);
  put_drive d;;
  issue d.

(** [start]. *)
Definition start (p : Z) : T unit :=
  b ← on_bio (buf_at p);
  offset ← lift (if blockno b * BSIZE <? 2 ^ 64 then Ret (blockno b * BSIZE) else Panic "attempt to multiply with overflow");
  block_cmd (flags_contains (flags b) DIRTY) p offset.

(** [rdwr] up to its wait, and the test of the wait. *)
Definition rdwr_submit (p : Z) : T unit :=
  l ← on_bio (is_locked p);
  assert_ l "sd::rdwr: buf not locked";;
  b ← on_bio (buf_at p);
  assert_ (negb (flags b =? VALID)) "sd::rdwr: nothing to do";;
  q ← gets QUEUE;
  (match q with None => start p | Some _ => mret tt end);;
  q' ← on_bio (enqueue q p);
  put_queue q'.
Definition rdwr_waits (p : Z) : T bool :=
  b ← on_bio (buf_at p); mret (negb (Z.land (flags b) (Z.lor VALID DIRTY) =? VALID)).

(** [interrupt], up to the end of the interrupt in the local controller. *)
Definition interrupt : T unit :=
  q ← gets QUEUE;
  o ← on_bio (dequeue q);
  match o with
  | None => put_queue None
  | Some (p, hd) =>
    put_queue hd;;
    on_bio (upd p (set_flags VALID));;
    wakeup (as_chan p);;
    (match hd with Some p' => start p' | None => mret tt end);;
    d ← drive "spurious drive interrupt";
    eoi d
  end.

(** ** Start-up *)

(** [chunks_mut(2).for_each(reverse)]. *)
Fixpoint swap_pairs (l : list Z) : list Z :=
  match l with a :: b :: l' => b :: a :: swap_pairs l' | _ => l end.

(** [Drive::new] on the page [a], cleared by the allocator, for port [k]. *)
Definition drive_new (a k : Z) : T unit :=
  pa ← lift (addr_to_phys a);
  let h := mkCmdHeader 0 0 (lo32 (pa + CMD_TABLE_OFF)) (hi32 (pa + CMD_TABLE_OFF)) in
  let d := mkDrive h (zrep 20 0) (mkPRDTEntry 0 0 0) (zrep SECTOR_SIZE 0) 0 k (zrep 40 0) (zrep 20 0) a in
  on_hba (port_init k pa (pa + RCVD_FIS_OFF));;
  d ← lift (setup_cmd false identify_fis d);
  d ← lift (set_prd (a + IDENTITY_OFF) SECTOR_SIZE d);
  issue_synch d;;
  id ← gets (fun s => ident (hba s));
  let d := put_header (header_clear (cmd_header d)) d in
  eoi d;;
  put_drive (mkDrive (cmd_header d) (fis d) (prd0 d) id (from_le (zslice id 200 208)) k
    (swap_pairs (zslice id 54 94)) (swap_pairs (zslice id 20 40)) a).

(** The first port with a disk gets the drive. *)
Fixpoint find_drive (page : option Z) (pi : Z) (ks : list Z) : T unit :=
  match ks with
  | [] => mret tt
  | k :: ks' =>
    if Z.land pi (Z.shiftl 1 k) =? 0 then find_drive page pi ks' else
    there ← on_hba (is_present k);
    if negb there then find_drive page pi ks' else
    disk ← on_hba (is_storage k);
    if negb disk then find_drive page pi ks' else
    a ← expect page "allocated a per-port ACHI page";
    drive_new a k
  end.

(** [init] after [pci::setup_msi]: [page] is what the page allocator gives. *)
Definition init (page : option Z) : T unit :=
  ghc ← on_hba (vread GHC);
  on_hba (vwrite GHC (Z.lor (Z.land ghc GHC_BITS) AHCI_ENABLE));;
  pi ← on_hba (vread PortsImpl);
  find_drive page pi (zrange 0 32);;
  ghc ← on_hba (vread GHC);
  on_hba (vwrite GHC (Z.lor (Z.land ghc GHC_BITS) INTR_ENABLE)).
End sd.
Arguments Sd : clear implicits.
