(* ===== verification/SdSpec.v ===== *)
(** The disk driver against the controller: what it submits is what the
    controller carries out, requests are served in order, and each completes
    as the transfer the buffer cache counts on. *)
From stdpp Require Import base list gmap strings.
From Stdlib Require Import ZArith Lia.
From S2P Require Import Prelude.
From S2P Require Import Arch.
From S2P Require Import Volatile.
From S2P Require Import BlockLayer.
From S2P Require Import FsLayout.
From S2P Require Import Sleeplock.
From S2P Require Import Bio.
From S2P Require Import BioSpec.
From S2P Require Import Sd.

(** ** The controller

    Registers keep what is written to them, and a command issued on a port is
    carried out from the drive's command table. *)
Record Hba := mkHba { reg : Reg -> Z }.
#[export] Instance hba_mmio : Mmio Reg Hba := {|
  mmio_read r d := (reg d r, d);
  mmio_write r v d := mkHba (fun r' => if decide (r' = r) then v else reg d r') |}.

(** Reading a frame, and the address of the data. *)
Definition fis_byte (f : RegH2D) (i : Z) : Z := default 0 f.[i].
Definition fis_lba (f : RegH2D) : Z := from_le (fis_byte f <$> [4; 5; 6; 8; 9; 10]).
Definition fis_count (f : RegH2D) : Z := from_le (fis_byte f <$> [12; 13]).
Definition fis_command (f : RegH2D) : Z := fis_byte f 2.
Definition prd_addr (e : PRDTEntry) : Z := data_phys_addr_lo e + 2 ^ 32 * data_phys_addr_hi e.

(** A command for one whole block, in the direction its header says. *)
Definition whole_block (d : Drive) : bool :=
  (fis_lba (fis d) mod 8 =? 0) && (fis_count (fis d) =? 8) && (data_count_i (prd0 d) =? PAGE_SIZE - 1) &&
  (prd_tbl_len (cmd_header d) =? 1) && (fis_byte (fis d) 0 =? HostToDevReg) && Z.testbit (fis_byte (fis d) 1) 7.

(** ** Frames *)
Lemma le6 x : 0 <= x < 2 ^ 48 ->
  from_le [x mod 256; Z.shiftr x 8 mod 256; Z.shiftr x 16 mod 256; Z.shiftr x 24 mod 256; Z.shiftr x 32 mod 256; Z.shiftr x 40 mod 256] = x.
Proof.
  intros Hx. rewrite !Z.shiftr_div_pow2 by lia.
  change (2 ^ 8) with 256. change (2 ^ 16) with (256 * 256). change (2 ^ 24) with (256 * 256 * 256).
  change (2 ^ 32) with (256 * 256 * 256 * 256). change (2 ^ 40) with (256 * 256 * 256 * 256 * 256).
  rewrite <-!Z.div_div by lia. exact (from_le_le_bytes 6 x Hx).
Qed.

(** The frame for a block reads back as that block. *)
Lemma block_fis_decodes c n : 0 <= n < 2 ^ 45 ->
  let f := block_fis c (n * BSIZE) in
  fis_lba f = 8 * n /\ fis_count f = 8 /\ fis_command f = ATACommand_val c /\ fis_byte f 0 = HostToDevReg /\
  Z.testbit (fis_byte f 1) 7 = true.
Proof.
  intros Hn f. assert (Hlba : n * BSIZE / SECTOR_SIZE = 8 * n).
  { change BSIZE with (8 * SECTOR_SIZE). rewrite Z.mul_assoc, Z.div_mul by done. lia. }
  unfold f, block_fis. rewrite Hlba. split; [|split; [|split; [|split]]].
  - apply (le6 (8 * n)). lia.
  - reflexivity.
  - reflexivity.
  - reflexivity.
  - reflexivity.
Qed.

Lemma lo_hi_32 x : 0 <= x < 2 ^ 64 -> lo32 x + 2 ^ 32 * hi32 x = x.
Proof.
  intros Hx. unfold lo32, hi32. rewrite Z.shiftr_div_pow2 by lia.
  rewrite (Z.mod_small (x / 2 ^ 32)) by (split; [apply Z.div_pos; lia|apply Z.div_lt_upper_bound; lia]).
  pose proof (Z.div_mod x (2 ^ 32)). lia.
Qed.

Section spec.
Context (data_addr as_chan : Z -> Z).
(** Buffers have pages of their own in the direct map. *)
Hypothesis page_ok : forall p, 0 <= p < NBUF -> KERNBASE <= data_addr p < KERNBASE + 2 ^ 47 /\ (data_addr p - KERNBASE) mod 2 = 0.
Hypothesis page_inj : forall p q, 0 <= p < NBUF -> 0 <= q < NBUF -> data_addr p = data_addr q -> p = q.
Notation Sd := (Sd Hba).
Notation cbufs s := (bufs (cache (sd_bio s))).

(** Carrying out the command of the port, and its end. *)
Definition complete : M Sd unit :=
  d ← drive "no drive";
  h ← gets hba;
  assert_ (Z.testbit (reg h (P (port d) CI)) 0) "no command issued";;
  s ← gets id;
  k ← expect (position (fun q => data_addr q - KERNBASE =? prd_addr (prd0 d)) (zrange 0 (zlen (cbufs s)))) "no such page";
  assert_ (whole_block d) "not a block";;
  b ← on_bio (buf_at (Z.of_nat k));
  let n := fis_lba (fis d) / 8 in
  (if (fis_command (fis d) =? 0x35) && Z.testbit (pwa_cfl (cmd_header d)) 6 then
     on_bio (modify (fun s => mkBio (cache s) (mypid s) (fun m => if m =? n then data b else disk s m)
                                (writes s ++ [(n, data b)])))
   else if (fis_command (fis d) =? 0x25) && negb (Z.testbit (pwa_cfl (cmd_header d)) 6) then
     on_bio (s ← gets id; upd (Z.of_nat k) (set_data (disk s n)))
   else panic "unknown command");;
  on_hba (bit_clear (P (port d) CI) 1).

(** The controller finishes a command and interrupts. *)
Definition serve : M Sd unit := complete;; interrupt data_addr as_chan.

(** ** What has been issued *)
Definition is_dirty (b : Buf) : bool := flags_contains (flags b) DIRTY.
Definition request (d : Drive) (p : Z) (b : Buf) : Prop :=
  fis d = block_fis (if is_dirty b then WriteDMAExt else ReadDMAExt) (blockno b * BSIZE) /\
  prd0 d = mkPRDTEntry (lo32 (data_addr p - KERNBASE)) (hi32 (data_addr p - KERNBASE)) (PAGE_SIZE - 1) /\
  prd_tbl_len (cmd_header d) = 1 /\ Z.testbit (pwa_cfl (cmd_header d)) 6 = is_dirty b.

(** The queue [l]: its first request, if any, is the one issued. *)
Record inv (s : Sd) (l : list Z) : Prop := {
  iv_queue : queue_is (cbufs s) (QUEUE s) l;
  iv_len : zlen (cbufs s) <= NBUF;
  iv_bufs : forall p b, (cbufs s).[p] = Some b -> self_ptr b = p /\ 0 <= blockno b < 2 ^ 45;
  iv_drive : exists d, DRIVE s = Some d /\ tfd_busy (reg (hba s) (P (port d) TFD)) = false /\
    match l with
    | [] => Z.testbit (reg (hba s) (P (port d) CI)) 0 = false
    | p :: _ => Z.testbit (reg (hba s) (P (port d) CI)) 0 = true /\ exists b, (cbufs s).[p] = Some b /\ request d p b
    end }.

Lemma on_bio_run {A} (m : M Bio A) (s : Sd) a b : m (sd_bio s) = Ret (a, b) ->
  on_bio m s = Ret (a, mkSd b (QUEUE s) (DRIVE s) (hba s) (woken s)).
Proof. intros H. unfold on_bio. by rewrite H. Qed.
Lemma on_hba_run {A} (m : M Hba A) (s : Sd) a h : m (hba s) = Ret (a, h) ->
  on_hba m s = Ret (a, mkSd (sd_bio s) (QUEUE s) (DRIVE s) h (woken s)).
Proof. intros H. unfold on_hba. by rewrite H. Qed.

Lemma drive_run (s : Sd) d msg : DRIVE s = Some d -> drive msg s = Ret (d, s).
Proof. intros H. unfold drive. rewrite bind_gets, H. done. Qed.

(** A port that is not busy takes a command at once. *)
Lemma issue_run (s : Sd) d :
  tfd_busy (reg (hba s) (P (port d) TFD)) = false ->
  issue d s = Ret (tt, mkSd (sd_bio s) (QUEUE s) (DRIVE s)
    (mmio_write (P (port d) CI) (Z.lor (reg (hba s) (P (port d) CI)) 1) (hba s)) (woken s)).
Proof.
  intros Ht. unfold issue. erewrite bind_run.
  2:{ apply on_hba_run, poll_first; [lia|]. rewrite bind_vread. cbn. by rewrite Ht. }
  by destruct s.
Qed.

Lemma setup_run w f d : exists h,
  setup_cmd w f d = Ret (put_header h (put_fis f d)) /\ prd_tbl_len h = 1 /\ Z.testbit (pwa_cfl h) 6 = w.
Proof.
  unfold setup_cmd, set_cfl. change ((2 <=? 20 / 4) && (20 / 4 <=? 16)) with true. cbv iota.
  eexists. split; [done|]. split; [by destruct w|].
  destruct w; cbn [pwa_cfl set_write set_read set_num_prds]; rewrite !Z.lor_spec; rewrite ?Z.land_spec.
  - change (Z.testbit CmdHeader_W 6) with true. by rewrite orb_true_r.
  - change (Z.testbit (lnotw 8 CmdHeader_W) 6) with false. by rewrite andb_false_r.
Qed.

Lemma set_prd_run p d : 0 <= p < NBUF ->
  set_prd (data_addr p) PAGE_SIZE d =
  Ret (put_prd (mkPRDTEntry (lo32 (data_addr p - KERNBASE)) (hi32 (data_addr p - KERNBASE)) (PAGE_SIZE - 1)) d).
Proof.
  intros Hp. destruct (page_ok p Hp) as [Hr Hm]. unfold set_prd, addr_to_phys, sub_ovf. rewrite (proj2 (Z.leb_le _ _)) by lia.
  change 1 with (2 ^ 1 - 1) at 1. rewrite land_ones_mod by lia. change (2 ^ 1) with 2. by rewrite Hm.
Qed.

(** [start] issues the request of the buffer. *)
Lemma start_run (s : Sd) p b d :
  (cbufs s).[p] = Some b -> zlen (cbufs s) <= NBUF -> 0 <= blockno b < 2 ^ 45 -> DRIVE s = Some d ->
  tfd_busy (reg (hba s) (P (port d) TFD)) = false ->
  exists d', start data_addr p s = Ret (tt, mkSd (sd_bio s) (QUEUE s) (Some d')
      (mmio_write (P (port d) CI) (Z.lor (reg (hba s) (P (port d) CI)) 1) (hba s)) (woken s)) /\
    port d' = port d /\ request d' p b.
Proof.
  intros Hb HN Hn Hd Ht. unfold start. erewrite bind_run by (apply on_bio_run, buf_at_run; exact Hb).
  rewrite (proj2 (Z.ltb_lt _ _)) by (change BSIZE with 4096; lia). erewrite bind_lift by done.
  unfold block_cmd. erewrite bind_run by (apply drive_run; exact Hd).
  destruct (setup_run (is_dirty b) (block_fis (if is_dirty b then WriteDMAExt else ReadDMAExt) (blockno b * BSIZE)) d)
    as (h & Hs & Hl & Hw). unfold is_dirty in *. erewrite bind_lift by exact Hs.
  erewrite bind_lift by (apply set_prd_run; apply znth_range in Hb; lia). unfold put_drive. rewrite bind_modify. rewrite issue_run by exact Ht.
  cbn [sd_bio QUEUE DRIVE hba woken port put_prd put_header put_fis]. eexists. split; [done|]. split; [done|]. done.
Qed.

Lemma lor1_bit x : Z.testbit (Z.lor x 1) 0 = true.
Proof. by rewrite Z.lor_spec, orb_true_r. Qed.

(** A buffer's request does not depend on queue links. *)
Lemma request_core d p b b' : core b' = core b -> request d p b -> request d p b'.
Proof. unfold request, is_dirty, core. intros [= _ -> _ -> _ _]. done. Qed.

Lemma cores_back s s' p b : cores s' = cores s -> links s' = links s -> (bufs (cache s)).[p] = Some b ->
  exists b', (bufs (cache s')).[p] = Some b' /\ core b' = core b /\ self_ptr b' = self_ptr b.
Proof.
  intros HK HL Hb. pose proof (cores_bufs _ _ _ Hb) as Hc. rewrite <-HK in Hc. unfold cores in Hc.
  rewrite znth_fmap in Hc. apply fmap_Some in Hc as (b' & Hb' & Ec). exists b'. split; [done|]. split; [done|].
  pose proof (links_bufs _ _ _ Hb) as Hl. rewrite <-HL in Hl. unfold links in Hl. rewrite znth_fmap, Hb' in Hl.
  cbn in Hl. by injection Hl.
Qed.
(** ** Submitting *)
Lemma links_len s s' : links s = links s' -> zlen (bufs (cache s)) = zlen (bufs (cache s')).
Proof. intros E. apply (f_equal length) in E. unfold links in E. rewrite !length_fmap in E. unfold zlen. by rewrite E. Qed.

Lemma submit_run (s : Sd) l p b :
  inv s l -> (cbufs s).[p] = Some b -> p ∉ l -> lock b = mkSleeplock true (mypid (sd_bio s)) -> flags b <> VALID ->
  exists s', rdwr_submit data_addr p s = Ret (tt, s') /\ inv s' (l ++ [p]) /\
    cores (sd_bio s') = cores (sd_bio s) /\ same_env (sd_bio s) (sd_bio s') /\ woken s' = woken s.
Proof.
  intros [Hq HN Hbufs (d & Hd & Ht & Hhd)] Hb Hp Hlk Hfl. unfold rdwr_submit.
  erewrite bind_run by (by apply on_bio_run, (is_locked_run _ _ b)). rewrite bind_assert by done.
  erewrite bind_run by (by apply on_bio_run, (buf_at_run _ _ b)).
  rewrite bind_assert by (rewrite (proj2 (Z.eqb_neq _ _)); done). rewrite bind_gets. cbn [QUEUE].
  destruct (Hbufs _ _ Hb) as [Hself Hn].
  destruct (enqueue_run (sd_bio s) (QUEUE s) l p b Hq Hb Hself Hp) as (bio' & He & Hq' & HL & HK & HV).
  assert (Hbufs' : forall q c, (bufs (cache bio')).[q] = Some c -> self_ptr c = q /\ 0 <= blockno c < 2 ^ 45).
  { intros q c Hc. destruct (cores_back bio' (sd_bio s) q c (eq_sym HK) (eq_sym HL) Hc) as (c' & Hc' & Ec & Es).
    destruct (Hbufs _ _ Hc') as [H1 H2]. split; [congruence|]. by injection Ec as _ _ _ <- _ _. }
  assert (HN' : zlen (bufs (cache bio')) <= NBUF) by (rewrite <-(links_len (sd_bio s) bio' (eq_sym HL)); done).
  destruct (QUEUE s) as [h|] eqn:Eq.
  - rewrite bind_mret. erewrite bind_run by (apply on_bio_run; exact He). eexists. split; [done|].
    cbn [sd_bio woken]. split; [|done]. split; cbn [sd_bio QUEUE DRIVE hba]; [done|done|done|].
    exists d. split; [done|]. split; [done|]. destruct l as [|q l]; [by destruct Hq|]. cbn [app].
    destruct Hhd as (H1 & c & Hc & Hr). split; [done|].
    destruct (cores_back (sd_bio s) bio' q c HK HL Hc) as (c' & Hc' & Ec & _). exists c'. split; [done|].
    by apply (request_core _ _ c).
  - assert (l = []) as -> by (destruct Hq as [H _]; by destruct l).
    destruct (start_run (mkSd (sd_bio s) None (DRIVE s) (hba s) (woken s)) p b d Hb HN Hn Hd Ht) as (d' & Hs & Hport & Hr).
    rewrite <-Eq in Hs. destruct s as [bio q dr h w]. cbn [sd_bio QUEUE DRIVE hba woken] in *. subst q.
    rewrite (bind_run _ _ _ _ _ Hs). erewrite bind_run by (apply on_bio_run; exact He). eexists. split; [done|].
    cbn [sd_bio woken]. split; [|done]. split; cbn [sd_bio QUEUE DRIVE hba]; [done|done|done|].
    exists d'. split; [done|]. rewrite Hport. cbn [reg mmio_write hba_mmio].
    rewrite decide_False by congruence. split; [done|]. cbn [app]. rewrite decide_True by done. split; [apply lor1_bit|].
    destruct (cores_back bio bio' p b HK HL Hb) as (c' & Hc' & Ec & _). exists c'. split; [done|]. by apply (request_core _ _ b).
Qed.

(** ** Serving *)
Lemma qseg_upd bs l p b f : bs.[p] = Some b -> qnext (f b) = qnext b -> qseg bs l -> qseg bs.[p <- f b] l.
Proof.
  intros Hb Hf. induction l as [|q l IH]; [done|]. intros [(c & Hc & Eq) H]. split; [|by apply IH].
  destruct (decide (q = p)) as [->|Hne].
  - exists (f b). split; [by apply (znth_set_eq _ _ _ b)|]. by replace c with b in * by congruence; rewrite Hf.
  - exists c. by rewrite znth_zset_ne.
Qed.

Lemma queue_is_upd bs hd l p b f : bs.[p] = Some b -> qnext (f b) = qnext b -> queue_is bs hd l -> queue_is bs.[p <- f b] hd l.
Proof. intros Hb Hf (H1 & H2 & H3 & H4). split; [done|]. split; [by apply qseg_upd|]. split; [done|]. by rewrite zlen_zset. Qed.

(** The page of the request is the page of its buffer. *)
Lemma page_found (bs : list Buf) p b : zlen bs <= NBUF -> bs.[p] = Some b ->
  position (fun q => data_addr q - KERNBASE =? data_addr p - KERNBASE) (zrange 0 (zlen bs)) = Some (Z.to_nat p).
Proof.
  intros HN Hb. apply znth_range in Hb.
  destruct (position _ _) as [k|] eqn:E.
  - apply position_Some in E as [(q & Hq & Ep) _]. f_equal.
    assert (q = p) as -> by (pose proof (proj1 (elem_of_zrange _ _ _) (list_elem_of_lookup_2 _ _ _ Hq)); apply page_inj; lia).
    unfold zrange, step_range in Hq. rewrite (proj2 (Z.ltb_lt _ _)) in Hq by lia. rewrite list_lookup_fmap in Hq.
    apply fmap_Some in Hq as (j & Hj & Ej). apply lookup_seq in Hj. lia.
  - exfalso. apply position_None in E. rewrite Forall_forall in E. specialize (E p). rewrite Z.eqb_refl in E.
    by discriminate E; apply elem_of_zrange.
Qed.

Lemma land_not1_bit x : Z.testbit (Z.land x (lnotw 32 1)) 0 = false.
Proof. rewrite Z.land_spec. change (Z.testbit (lnotw 32 1) 0) with false. apply andb_false_r. Qed.

(** The state the transfer leaves before the buffer is marked. *)
Definition moved (p : Z) (b : Buf) (s : Bio) : Bio :=
  if is_dirty b
  then mkBio (cache s) (mypid s) (fun m => if m =? blockno b then data b else disk s m) (writes s ++ [(blockno b, data b)])
  else with_cache (with_bufs (upd_bufs p (set_data (disk s (blockno b))) (bufs (cache s))) (cache s)) s.

Lemma moved_bufs p b s : (bufs (cache s)).[p] = Some b ->
  exists f, bufs (cache (moved p b s)) = (bufs (cache s)).[p <- f b] /\ qnext (f b) = qnext b /\ self_ptr (f b) = self_ptr b /\
    blockno (f b) = blockno b.
Proof.
  intros Hb. unfold moved. destruct (is_dirty b).
  - exists id. cbn. by rewrite zset_id.
  - exists (set_data (disk s (blockno b))). cbn. unfold upd_bufs. by rewrite Hb.
Qed.

Lemma transfer_moved p b s s' : (bufs (cache s)).[p] = Some b ->
  upd p (set_flags VALID) (moved p b s) = Ret (tt, s') -> transfer p s = Ret (tt, s').
Proof.
  intros Hb Hu. unfold transfer. rewrite (bind_run _ _ _ _ _ (buf_at_run _ _ _ Hb)). unfold moved, is_dirty in Hu.
  destruct (flags_contains (flags b) DIRTY); [by rewrite bind_modify|].
  erewrite bind_run; [exact Hu|]. rewrite bind_gets. unfold upd. by rewrite (bind_run _ _ _ _ _ (buf_at_run _ _ _ Hb)).
Qed.

Lemma complete_run (s : Sd) p l b d :
  inv s (p :: l) -> DRIVE s = Some d -> (cbufs s).[p] = Some b -> request d p b ->
  complete s = Ret (tt, mkSd (moved p b (sd_bio s)) (QUEUE s) (Some d)
    (mmio_write (P (port d) CI) (Z.land (reg (hba s) (P (port d) CI)) (lnotw 32 1)) (hba s)) (woken s)).
Proof.
  intros [Hq HN Hbufs (d0 & Hd0 & Ht & H1 & _)] Hd Hb (Hf & Hprd & Hlen & Hw).
  assert (d0 = d) as -> by congruence. destruct (Hbufs _ _ Hb) as [_ Hn]. destruct (page_ok p) as [Hpg _]; [apply znth_range in Hb; lia|].
  unfold complete. rewrite (bind_run _ _ _ _ _ (drive_run _ _ _ Hd)), bind_gets, bind_assert by done.
  rewrite bind_gets. cbn [id].
  assert (Hpa : prd_addr (prd0 d) = data_addr p - KERNBASE).
  { rewrite Hprd. unfold prd_addr. cbn [data_phys_addr_lo data_phys_addr_hi]. apply lo_hi_32. lia. }
  rewrite Hpa, (page_found _ _ _ HN Hb). cbn [expect]. rewrite bind_mret.
  destruct (block_fis_decodes (if is_dirty b then WriteDMAExt else ReadDMAExt) (blockno b) Hn) as (Elba & Ecnt & Ecmd & Etyp & Ec).
  rewrite <-Hf in Elba, Ecnt, Ecmd, Etyp, Ec.
  assert (Hwb : whole_block d = true).
  { unfold whole_block. rewrite Elba, Ecnt, Etyp, Ec, Hlen, Hprd. cbn [data_count_i].
    rewrite Z.mul_comm, Z.mod_mul by lia. done. }
  rewrite bind_assert by done. rewrite Z2Nat.id by (apply znth_range in Hb; lia).
  erewrite bind_run by (apply on_bio_run, buf_at_run; exact Hb).
  rewrite Elba, Ecmd, Hw. replace (8 * blockno b / 8) with (blockno b) by (rewrite Z.mul_comm, Z.div_mul; lia).
  unfold moved. destruct (is_dirty b); cbn -[on_bio on_hba bit_clear upd lnotw].
  - erewrite bind_run by (by apply on_bio_run). by rewrite Hd.
  - erewrite bind_run.
    2:{ apply on_bio_run. cbn [sd_bio]. rewrite bind_gets. unfold upd. by rewrite (bind_run _ _ _ _ _ (buf_at_run _ _ _ Hb)). }
    by rewrite Hd.
Qed.

Lemma serve_run (s : Sd) p l :
  inv s (p :: l) -> exists s', serve s = Ret (tt, s') /\ inv s' l /\
    transfer p (sd_bio s) = Ret (tt, sd_bio s') /\ woken s' = woken s ++ [as_chan p].
Proof.
  intros Hinv. pose proof Hinv as [Hq HN Hbufs (d & Hd & Ht & H1 & b & Hb & Hr)].
  unfold serve. rewrite (bind_run _ _ _ _ _ (complete_run s p l b d Hinv Hd Hb Hr)).
  set (h1 := mmio_write _ _ _). set (bio1 := moved p b (sd_bio s)).
  destruct (moved_bufs p b (sd_bio s) Hb) as (f & Hbs & Hfq & Hfs & Hfn). fold bio1 in Hbs.
  assert (Hb1 : (bufs (cache bio1)).[p] = Some (f b)) by (rewrite Hbs; by apply (znth_set_eq _ _ _ b)).
  destruct (upd_run bio1 p (f b) (set_flags VALID) Hb1) as (bio2 & Hu & _ & _ & _ & Hbs2).
  assert (Hq1 : queue_is (bufs (cache bio1)) (QUEUE s) (p :: l)) by (rewrite Hbs; by apply queue_is_upd).
  assert (Hq2 : queue_is (bufs (cache bio2)) (Some p) (p :: l)).
  { rewrite Hbs2. apply queue_is_upd; [done|done|]. destruct Hq1 as [Hh Hq1]. cbn in Hh. rewrite Hh in *. by split. }
  pose proof (queue_tail _ _ _ Hq2) as Hql.
  assert (Hbufs2 : forall q c, (bufs (cache bio2)).[q] = Some c -> self_ptr c = q /\ 0 <= blockno c < 2 ^ 45).
  { intros q c Hc. rewrite Hbs2, Hbs, zset_zset in Hc. destruct (decide (q = p)) as [->|Hne].
    - rewrite (znth_set_eq _ _ _ b) in Hc by done. injection Hc as <-. cbn. rewrite Hfs, Hfn. by apply Hbufs.
    - rewrite znth_zset_ne in Hc by done. by apply Hbufs. }
  assert (HN2 : zlen (bufs (cache bio2)) <= NBUF) by by rewrite Hbs2, Hbs, !zlen_zset.
  assert (Hh : QUEUE s = List.hd_error (p :: l)) by apply Hq. unfold interrupt. rewrite bind_gets. cbn [QUEUE].
  erewrite bind_run.
  2:{ apply on_bio_run. cbn [sd_bio]. rewrite Hh. rewrite Hh in Hq1. apply (dequeue_run bio1 (p :: l) Hq1). }
  unfold put_queue. rewrite bind_modify. cbn [sd_bio QUEUE DRIVE hba woken].
  erewrite bind_run by (apply on_bio_run; exact Hu). cbn [sd_bio QUEUE DRIVE hba woken].
  unfold wakeup. rewrite bind_modify. cbn [sd_bio QUEUE DRIVE hba woken].
  pose proof (transfer_moved p b (sd_bio s) bio2 Hb Hu) as Htr.
  assert (Ht1 : tfd_busy (reg h1 (P (port d) TFD)) = false) by (unfold h1; cbn; by rewrite decide_False by congruence).
  assert (Hc1 : Z.testbit (reg h1 (P (port d) CI)) 0 = false) by (unfold h1; cbn -[lnotw]; rewrite decide_True by done; apply land_not1_bit).
  assert (Heoi : forall (s0 : Sd) e, eoi e s0 = Ret (tt, mkSd (sd_bio s0) (QUEUE s0) (DRIVE s0)
     (mmio_write HbaIS 0 (mmio_write (P (port e) IS) (2 ^ 32 - 1) (hba s0))) (woken s0))) by done.
  destruct l as [|p2 l]; cbn [List.hd_error].
  - rewrite bind_mret. erewrite bind_run by (by apply drive_run).
    rewrite Heoi. cbn [sd_bio QUEUE DRIVE hba woken]. eexists. split; [done|]. cbn [sd_bio woken]. split; [|done].
    split; cbn [sd_bio QUEUE DRIVE hba]; [done|done|done|]. exists d. split; [done|]. cbn [reg mmio_write hba_mmio].
    rewrite !decide_False by congruence. done.
  - destruct Hql as (_ & Hseg & _). destruct (proj1 Hseg) as (b2 & Hb2 & _). pose proof (Hbufs2 _ _ Hb2) as [_ Hn2].
    destruct (start_run (mkSd bio2 (Some p2) (Some d) h1 (woken s ++ [as_chan p])) p2 b2 d Hb2 HN2 Hn2 eq_refl Ht1) as (d' & Hs & Hport & Hr2).
    rewrite (bind_run _ _ _ _ _ Hs). cbn [sd_bio QUEUE DRIVE hba woken].
    erewrite bind_run by (by apply drive_run).
    rewrite Heoi. cbn [sd_bio QUEUE DRIVE hba woken]. eexists. split; [done|]. cbn [sd_bio woken]. split; [|done].
    split; cbn [sd_bio QUEUE DRIVE hba]; [exact (queue_tail _ p (p2 :: l) Hq2)|done|done|].
    exists d'. split; [done|]. cbn [reg mmio_write hba_mmio]. rewrite Hport.
    repeat (rewrite decide_False by congruence). split; [done|]. rewrite decide_True by done. split; [apply lor1_bit|].
    by exists b2.
Qed.
(** C4: The driver does what the buffer cache counts on.  In every state in
    which the controller holds the first request of the queue: submitting a
    locked buffer returns, appends it to the queue, and changes no buffer's
    contents; and when the controller carries out its command and interrupts,
    the handler returns, exactly the transfer of the first request has
    happened (the block read into the buffer or written from it, and the buffer
    marked valid), its process is woken, and the controller holds the next
    request. *)
Theorem sd_transfers_refine (s : Sd) l :
  inv s l ->
  (forall p b, (cbufs s).[p] = Some b -> p ∉ l -> lock b = mkSleeplock true (mypid (sd_bio s)) -> flags b <> VALID ->
     exists s', rdwr_submit data_addr p s = Ret (tt, s') /\ inv s' (l ++ [p]) /\
       cores (sd_bio s') = cores (sd_bio s) /\ same_env (sd_bio s) (sd_bio s') /\ woken s' = woken s) /\
  (forall p l', l = p :: l' -> exists s', serve s = Ret (tt, s') /\ inv s' l' /\
     transfer p (sd_bio s) = Ret (tt, sd_bio s') /\ woken s' = woken s ++ [as_chan p]).
Proof. intros H. split; [intros; by eapply submit_run|]. intros p l' ->. by apply serve_run. Qed.

(** ** Runs: processes take turns, submit requests, and the controller
    interrupts

    A state comes with the buffers its queue holds; a process submits a
    buffer it has locked, so one that is not queued. *)
Inductive label := Switch (pid : Z) | Submit (p : Z) | Serve.

Definition switch_to (pid : Z) (s : Sd) : Sd :=
  mkSd (mkBio (cache (sd_bio s)) pid (disk (sd_bio s)) (writes (sd_bio s))) (QUEUE s) (DRIVE s) (hba s) (woken s).

Inductive runs : Sd * list Z -> list label -> Sd * list Z -> Prop :=
| runs_nil s l : runs (s, l) [] (s, l)
| runs_switch s l pid ls r : runs (switch_to pid s, l) ls r -> runs (s, l) (Switch pid :: ls) r
| runs_submit s l p b ls s1 r :
    (cbufs s).[p] = Some b -> p ∉ l -> lock b = mkSleeplock true (mypid (sd_bio s)) -> flags b <> VALID ->
    rdwr_submit data_addr p s = Ret (tt, s1) -> runs (s1, l ++ [p]) ls r -> runs (s, l) (Submit p :: ls) r
| runs_serve s p l ls s1 r : serve s = Ret (tt, s1) -> runs (s1, l) ls r -> runs (s, p :: l) (Serve :: ls) r.

#[export] Instance label_eq_dec : EqDecision label.
Proof. solve_decision. Defined.

Definition submits (ls : list label) : list Z := omap (fun x => match x with Submit p => Some p | _ => None end) ls.
Definition serves (ls : list label) : nat := length (filter (fun x => x = Serve) ls).

Lemma inv_switch s l pid : inv s l -> inv (switch_to pid s) l.
Proof. by intros [H1 H2 H3 H4]. Qed.

(** C5: Every request is served, in its turn.  Over every run of processes
    submitting requests and the controller interrupting, the requests served
    are the first ones of those queued and submitted, in that order, as many
    as there were interrupts, and their processes are woken in that order; so
    a request with [j] others before it is complete after [j + 1] interrupts.
    And while a request is queued the next interrupt is served: the driver
    never stops with work to do. *)
Theorem sd_requests_complete (s : Sd) l ls s' l' :
  inv s l -> runs (s, l) ls (s', l') ->
  (exists served, l ++ submits ls = served ++ l' /\ length served = serves ls /\ woken s' = woken s ++ (as_chan <$> served)) /\
  inv s' l' /\ (l' <> [] -> exists s2, serve s' = Ret (tt, s2)).
Proof.
  intros Hinv Hruns. enough (H : (exists served, l ++ submits ls = served ++ l' /\ length served = serves ls /\
    woken s' = woken s ++ (as_chan <$> served)) /\ inv s' l').
  { split; [apply H|]. split; [apply H|]. intros Hne. destruct l' as [|p l']; [done|].
    destruct (serve_run s' p l' (proj2 H)) as (s2 & Hs & _). by exists s2. }
  remember (s, l) as st eqn:Est. remember (s', l') as st' eqn:Est'. revert s l Est Hinv.
  induction Hruns as [s0 l0|s0 l0 pid ls r Hr IH|s0 l0 p b ls s1 r Hb Hp Hl Hf Hs Hr IH|s0 p l0 ls s1 r Hs Hr IH];
    intros s l [= <- <-] Hinv.
  - injection Est' as <- <-. split; [|done]. exists []. rewrite app_nil_r. by rewrite app_nil_r.
  - destruct (IH Est' _ _ eq_refl (inv_switch _ _ pid Hinv)) as [(sv & H1 & H2 & H3) H4]. split; [|done]. by exists sv.
  - destruct (submit_run s0 l0 p b Hinv Hb Hp Hl Hf) as (s2 & Hs2 & Hi2 & _ & _ & Hw). assert (s2 = s1) as -> by congruence.
    destruct (IH Est' _ _ eq_refl Hi2) as [(sv & H1 & H2 & H3) H4]. split; [|done]. exists sv.
    rewrite <-app_assoc in H1. split; [exact H1|]. split; [exact H2|]. by rewrite H3, Hw.
  - destruct (serve_run s0 p l0 Hinv) as (s2 & Hs2 & Hi2 & _ & Hw). assert (s2 = s1) as -> by congruence.
    destruct (IH Est' _ _ eq_refl Hi2) as [(sv & H1 & H2 & H3) H4]. split; [|done]. exists (p :: sv).
    split; [cbn; by f_equal|]. split; [unfold serves; rewrite filter_cons_True by done; cbn; f_equal; exact H2|]. rewrite H3, Hw, <-app_assoc. done.
Qed.
End spec.

(** ** Two buffers and a disk *)
Module SdDemo.
Definition addr (p : Z) : Z := KERNBASE + (p + 2 ^ 20) * PAGE_SIZE.
Definition chan (p : Z) : Z := 100 + p.
Definition buf (p n f : Z) : Buf := mkBuf (mkSleeplock true 7) f 1 n 1 p LIST_NONE LIST_NONE LIST_NONE [p].
Definition bio : Bio := mkBio (mkBCache 0 0 [buf 0 30 0; buf 1 40 6]) 7 (fun n => [n]) [].
Definition disk_drive : Drive :=
  mkDrive (mkCmdHeader 0 0 0 0) (zrep 20 0) (mkPRDTEntry 0 0 0) [] 0 0 [] [] 0.
Definition s0 : Sd Hba := mkSd bio None (Some disk_drive) (mkHba (fun _ => 0)) [].

Lemma page_addr_inj p q : addr p = addr q -> p = q.
Proof. unfold addr, PAGE_SIZE. lia. Qed.

Lemma s0_inv : inv addr s0 [].
Proof.
  split.
  - split; [done|]. split; [done|]. split; [constructor|]. vm_compute. congruence.
  - vm_compute. congruence.
  - intros p b Hb. pose proof (znth_range _ _ _ Hb) as Hr. change (zlen _) with 2 in Hr.
    assert (p = 0 \/ p = 1) as [->| ->] by lia; vm_compute in Hb; injection Hb as <-; vm_compute; repeat split; congruence.
  - exists disk_drive. split; [done|]. split; done.
Qed.
Lemma addr_ok p : 0 <= p < NBUF -> KERNBASE <= addr p < KERNBASE + 2 ^ 47 /\ (addr p - KERNBASE) mod 2 = 0.
Proof.
  unfold NBUF, MAXOPBLOCKS. intros Hp. unfold addr, PAGE_SIZE. split; [lia|].
  rewrite Z.add_simpl_l. apply Z.mod_divide; [lia|]. exists ((p + 2 ^ 20) * 2048). lia.
Qed.
Lemma page_addr_inj' p q : 0 <= p < NBUF -> 0 <= q < NBUF -> addr p = addr q -> p = q.
Proof. intros _ _. apply page_addr_inj. Qed.

(** Two requests submitted, and one served. *)
Definition ok {A S} (d : S) (o : outcome (A * S)) : S := match o with Ret (_, s) => s | _ => d end.
Lemma ok_run {S} (d : S) (o : outcome (unit * S)) :
  (match o with Ret _ => true | _ => false end) = true -> o = Ret (tt, ok d o).
Proof. by destruct o as [[[] s]| |]. Qed.
Definition s1 : Sd Hba := ok s0 (rdwr_submit addr 1 s0).
Definition s2 : Sd Hba := ok s0 (rdwr_submit addr 0 s1).
Definition s3 : Sd Hba := ok s0 (serve addr chan s2).
End SdDemo.

(** Two processes' requests: a write of block 40 and then a read of block 30. *)
Lemma sd_transfers_refine_witness :
  exists s1 s2, rdwr_submit SdDemo.addr 1 SdDemo.s0 = Ret (tt, s1) /\ inv SdDemo.addr s1 [1] /\
    serve SdDemo.addr SdDemo.chan s1 = Ret (tt, s2) /\ transfer 1 (sd_bio s1) = Ret (tt, sd_bio s2) /\ woken s2 = [101].
Proof.
  destruct (proj1 (sd_transfers_refine SdDemo.addr SdDemo.chan SdDemo.addr_ok SdDemo.page_addr_inj' SdDemo.s0 [] SdDemo.s0_inv)
    1 (SdDemo.buf 1 40 6)) as (s1 & H1 & H2 & _ & _ & Hw); [done|set_solver|done|done|].
  destruct (proj2 (sd_transfers_refine SdDemo.addr SdDemo.chan SdDemo.addr_ok SdDemo.page_addr_inj' s1 [1] H2) 1 [] eq_refl)
    as (s2 & H3 & _ & H4 & H5).
  exists s1, s2. rewrite Hw in H5. do 4 (split; [assumption|]). exact H5.
Defined.

Lemma sd_requests_complete_witness :
  woken SdDemo.s3 = [101] /\ disk (sd_bio SdDemo.s3) 40 = [1] /\
  exists s', serve SdDemo.addr SdDemo.chan SdDemo.s3 = Ret (tt, s').
Proof.
  split; [vm_compute; reflexivity|]. split; [vm_compute; reflexivity|].
  refine (proj2 (proj2 (sd_requests_complete SdDemo.addr SdDemo.chan SdDemo.addr_ok SdDemo.page_addr_inj' SdDemo.s0 []
    [Submit 1; Submit 0; Serve] SdDemo.s3 [0] SdDemo.s0_inv _)) _); [|discriminate].
  apply (runs_submit _ _ _ _ _ (SdDemo.buf 1 40 6) _ SdDemo.s1); [done|set_solver|done|done|apply SdDemo.ok_run; vm_compute; reflexivity|].
  apply (runs_submit _ _ _ _ _ (SdDemo.buf 0 30 0) _ SdDemo.s2); [done|set_solver|done|done|apply SdDemo.ok_run; vm_compute; reflexivity|].
  apply (runs_serve _ _ _ _ _ _ SdDemo.s3); [apply SdDemo.ok_run; vm_compute; reflexivity|]. apply runs_nil.
Defined.
