(* ===== verification/Fs.v ===== *)
(** The file system, [fs.rs], over any block layer: block and inode
    allocation, the inode cache, file contents, directories and path lookup.
    The state is the log, the inode cache, the superblock, and the pid and
    current directory of the running process. *)
From stdpp Require Import base list gmap strings.
From Stdlib Require Import ZArith Lia.
From S2P Require Import Prelude.
From S2P Require Import Arch.
From S2P Require Import Sleeplock.
From S2P Require Import BlockLayer.
From S2P Require Import Fslog.
From S2P Require Import FsLayout.

(** ** State *)
Record Inode := mkInode {
  i_dev : Z; i_inum : Z; i_sb : option Superblock; i_ref : Z;
  i_lock : Sleeplock; i_valid : bool; i_din : DInode }.
Definition Inode_new : Inode := mkInode 0 0 None 0 Sleeplock_new false DInode_new.

Record Fs (S : Type) := mkFs {
  fs_log : Logged S; fs_icache : list Inode; fs_sb : Superblock; fs_me : Z; fs_cwd : Z }.
Arguments mkFs {S} _ _ _ _ _.
Arguments fs_log {S} _.
Arguments fs_icache {S} _.
Arguments fs_sb {S} _.
Arguments fs_me {S} _.
Arguments fs_cwd {S} _.

Definition put_log {S} (l : Logged S) (s : Fs S) : Fs S :=
  mkFs l (fs_icache s) (fs_sb s) (fs_me s) (fs_cwd s).
Definition put_icache {S} (c : list Inode) (s : Fs S) : Fs S :=
  mkFs (fs_log s) c (fs_sb s) (fs_me s) (fs_cwd s).
Definition put_sb {S} (sb : Superblock) (s : Fs S) : Fs S :=
  mkFs (fs_log s) (fs_icache s) sb (fs_me s) (fs_cwd s).

#[export] Instance fs_ops {S} `{BlockOps S} : BlockOps (Fs S) := zoom_ops fs_log put_log.

(** Field updates of an in-memory inode. *)
Definition set_ref (r : Z) (i : Inode) : Inode :=
  mkInode (i_dev i) (i_inum i) (i_sb i) r (i_lock i) (i_valid i) (i_din i).
Definition set_ilock (l : Sleeplock) (i : Inode) : Inode :=
  mkInode (i_dev i) (i_inum i) (i_sb i) (i_ref i) l (i_valid i) (i_din i).
Definition set_valid (v : bool) (i : Inode) : Inode :=
  mkInode (i_dev i) (i_inum i) (i_sb i) (i_ref i) (i_lock i) v (i_din i).
Definition set_din (d : DInode) (i : Inode) : Inode :=
  mkInode (i_dev i) (i_inum i) (i_sb i) (i_ref i) (i_lock i) (i_valid i) d.
Definition set_meta (d n : Z) (sb : Superblock) (i : Inode) : Inode :=
  mkInode d n (Some sb) (i_ref i) (i_lock i) (i_valid i) (i_din i).

Definition with_typ (t : Z) (d : DInode) : DInode :=
  mkDInode t (di_major d) (di_minor d) (di_nlink d) (di_size d) (di_addrs d).
Definition with_dev (ma mi : Z) (d : DInode) : DInode :=
  mkDInode (di_typ d) ma mi (di_nlink d) (di_size d) (di_addrs d).
Definition with_nlink (n : Z) (d : DInode) : DInode :=
  mkDInode (di_typ d) (di_major d) (di_minor d) n (di_size d) (di_addrs d).
Definition with_size (n : Z) (d : DInode) : DInode :=
  mkDInode (di_typ d) (di_major d) (di_minor d) (di_nlink d) n (di_addrs d).
Definition with_addrs (a : list Z) (d : DInode) : DInode :=
  mkDInode (di_typ d) (di_major d) (di_minor d) (di_nlink d) (di_size d) a.

Section fs.
Context {S : Type} `{BlockOps S}.
Notation F := (M (Fs S)).

Definition inode_at (ip : Z) : F Inode :=
  s ← gets id; expect (fs_icache s).[ip] "dangling inode".
Definition upd_inode (ip : Z) (f : Inode -> Inode) : F unit :=
  i ← inode_at ip; modify (fun s => put_icache (fs_icache s).[ip <- f i] s).
Definition superblock_of (ip : Z) (msg : string) : F Superblock :=
  i ← inode_at ip; expect (i_sb i) msg.

(** [fslog::write]. *)
Definition fs_log_write (bp : Z) : F unit := zoom fs_log put_log (log_write bp).
(** [.expect(..)] on the result of [bio::read] and [with_block]. *)
Definition expect_r {A} (m : F (result A)) (msg : string) : F A := r ← m; expect_ok r msg.

(** ** Superblock *)
Definition Superblock_read (dev : Z) : F (result Superblock) :=
  bwith dev ROOTINO (fun bp => blk ← bdata bp; mret (Superblock_decode blk)).
Definition fs_init (dev : Z) : F unit :=
  sb ← expect_r (Superblock_read dev) "superblock read failed"; modify (put_sb sb).

(** ** Blocks *)
Definition bzero (dev blockno : Z) : F unit :=
  bp ← expect_r (bread dev blockno) "block read";
  bset bp (zrep BSIZE 0);;
  fs_log_write bp;;
  brelse bp.

(** The inner loop of [balloc]: the first clear bit of the block, stopping at
    the end of the device. *)
Fixpoint scan_bits (bis : list Z) (data : list Z) (b size : Z) : outcome (option Z) :=
  match bis with
  | [] => Ret None
  | bi :: bis' =>
    if size <=? b + bi then Ret None else
    match data.[bi / 8] with
    | None => Panic "index out of bounds"
    | Some byte =>
      if Z.land byte (Z.shiftl 1 (bi mod 8)) =? 0 then Ret (Some bi)
      else scan_bits bis' data b size
    end
  end.

Definition set_bit (data : list Z) (bi : Z) : list Z :=
  match data.[bi / 8] with
  | Some byte => data.[bi / 8 <- Z.lor byte (Z.shiftl 1 (bi mod 8))]
  | None => data
  end.
Definition clear_bit (data : list Z) (bi : Z) : list Z :=
  match data.[bi / 8] with
  | Some byte => data.[bi / 8 <- Z.land byte (lnotw 8 (Z.shiftl 1 (bi mod 8)))]
  | None => data
  end.

Fixpoint balloc_loop (dev : Z) (sb : Superblock) (bs : list Z) : F (result Z) :=
  match bs with
  | [] => mret (Err "balloc: out of blocks")
  | b :: bs' =>
    bb ← lift (bblock sb b);
    bp <-? bread dev bb ;;
    data ← bdata bp;
    found ← lift (scan_bits (zrange 0 BPB) data b (sb_size sb));
    match found with
    | Some bi =>
      bset bp (set_bit data bi);;
      fs_log_write bp;;
      brelse bp;;
      bzero dev (b + bi);;
      mret (Ok (b + bi))
    | None => brelse bp;; balloc_loop dev sb bs'
    end
  end.
Definition balloc (dev : Z) (sb : Superblock) : F (result Z) :=
  balloc_loop dev sb (step_range 0 (sb_size sb) BPB).

Definition bfree (dev blockno : Z) (sb : Superblock) : F unit :=
  bb ← lift (bblock sb blockno);
  expect_r (bwith dev bb (fun bp =>
    data ← bdata bp;
    let bi := blockno mod BPB in
    let m := Z.shiftl 1 (bi mod 8) in
    byte ← expect data.[bi / 8] "index out of bounds";
    assert_ (m =? Z.land byte m) "freeing free block";;
    bset bp (clear_bit data bi);;
    fs_log_write bp)) "bfree".

(** ** The inode cache *)
Definition iget (dev inum : Z) (sb : Superblock) : F (result Z) :=
  c ← gets fs_icache;
  match position (fun i => (0 <? i_ref i) && (i_dev i =? dev) && (i_inum i =? inum)) c with
  | Some k =>
    i ← inode_at (Z.of_nat k);
    r ← lift (add_ovf 32 (i_ref i) 1);
    upd_inode (Z.of_nat k) (set_ref r);;
    mret (Ok (Z.of_nat k))
  | None =>
    match position (fun i => i_ref i =? 0) c with
    | None => mret (Err "Inode::get: no inodes")
    | Some k =>
      upd_inode (Z.of_nat k) (set_meta dev inum sb);;
      i ← inode_at (Z.of_nat k);
      r ← lift (add_ovf 32 (i_ref i) 1);
      upd_inode (Z.of_nat k) (set_ref r);;
      upd_inode (Z.of_nat k) (set_valid false);;
      mret (Ok (Z.of_nat k))
    end
  end.

Definition dup (ip : Z) : F Z :=
  i ← inode_at ip;
  r ← lift (add_ovf 32 (i_ref i) 1);
  upd_inode ip (set_ref r);;
  mret ip.

Fixpoint ialloc_loop (dev : Z) (typ : FileType) (sb : Superblock) (inums : list Z) : F (result Z) :=
  match inums with
  | [] => mret (Err "ialloc: no inodes")
  | inum :: inums' =>
    ib ← lift (iblock sb inum);
    bp <-? bread dev ib ;;
    blk ← bdata bp;
    if di_typ (get_dinode blk inum) =? 0 then
      bset bp (put_dinode blk inum (with_typ (FileType_val typ) DInode_new));;
      fs_log_write bp;;
      brelse bp;;
      iget dev inum sb
    else
      brelse bp;;
      ialloc_loop dev typ sb inums'
  end.
Definition ialloc (dev : Z) (typ : FileType) (sb : Superblock) : F (result Z) :=
  ialloc_loop dev typ sb (zrange 1 (ninodes sb)).

Definition ityp (ip : Z) : F FileType := i ← inode_at ip; lift (FileType_of (di_typ (i_din i))).
Definition isize (ip : Z) : F Z := i ← inode_at ip; mret (di_size (i_din i)).

Definition upd_din (ip : Z) (f : DInode -> DInode) : F unit :=
  i ← inode_at ip; upd_inode ip (set_din (f (i_din i))).

Definition nlink_inc (ip : Z) : F unit :=
  i ← inode_at ip;
  n ← lift (add_ovf 32 (di_nlink (i_din i)) 1);
  upd_din ip (with_nlink n).
Definition nlink_dec (ip : Z) : F Z :=
  i ← inode_at ip;
  n ← lift (sub_ovf (di_nlink (i_din i)) 1);
  upd_din ip (with_nlink n);;
  mret (di_nlink (i_din i)).

Definition update (ip : Z) : F (result unit) :=
  sb ← superblock_of ip "update requires superblock";
  i ← inode_at ip;
  ib ← lift (iblock sb (i_inum i));
  bwith (i_dev i) ib (fun bp =>
    blk ← bdata bp;
    bset bp (put_dinode blk (i_inum i) (i_din i));;
    fs_log_write bp).

Definition ilock (ip : Z) : F unit :=
  i ← inode_at ip;
  assert_ (0 <? i_ref i) "ilock unref inode";;
  sb ← superblock_of ip "update requires superblock";
  me ← gets fs_me;
  l ← lift (Sleeplock_acquire me (i_lock i));
  upd_inode ip (set_ilock l);;
  if negb (i_valid i) then
    ib ← lift (iblock sb (i_inum i));
    expect_r (bwith (i_dev i) ib (fun bp =>
      blk ← bdata bp;
      upd_din ip (fun _ => get_dinode blk (i_inum i)))) "block read";;
    upd_inode ip (set_valid true);;
    t ← ityp ip;
    assert_ (negb (bool_decide (t = FtUnused))) "ilock: no type"
  else mret tt.

Definition holding (ip : Z) : F bool :=
  i ← inode_at ip; me ← gets fs_me; mret (Sleeplock_holding me (i_lock i)).

Definition irelease (ip : Z) : F unit :=
  i ← inode_at ip; me ← gets fs_me;
  l ← lift (Sleeplock_release me (i_lock i));
  upd_inode ip (set_ilock l).

Definition iunlock (ip : Z) : F unit :=
  h ← holding ip; i ← inode_at ip;
  assert_ (h && (0 <? i_ref i)) "inode unlock";;
  irelease ip.

(** ** File contents *)
Definition bmap (ip bn : Z) : F (result Z) :=
  h ← holding ip;
  assert_ h "bmap on unlocked inode";;
  sb ← superblock_of ip "bmap requires superblock";
  i ← inode_at ip;
  let addrs := di_addrs (i_din i) in
  if bn <? NDIRECT then
    a ← expect addrs.[bn] "index out of bounds";
    if a =? 0 then
      b <-? balloc (i_dev i) sb ;;
      upd_din ip (fun d => with_addrs (di_addrs d).[bn <- b] d);;
      mret (Ok b)
    else mret (Ok a)
  else
    let bn := bn - NDIRECT in
    if bn <? NINDIRECT then
      a ← expect addrs.[NDIRECT] "index out of bounds";
      addr <-? (if a =? 0 then
                  b <-? balloc (i_dev i) sb ;;
                  upd_din ip (fun d => with_addrs (di_addrs d).[NDIRECT <- b] d);;
                  mret (Ok b)
                else mret (Ok a)) ;;
      r <-? bwith (i_dev i) addr (fun bp =>
        blk ← bdata bp;
        if get_word blk bn =? 0 then
          b <-? balloc (i_dev i) sb ;;
          blk' ← bdata bp;
          bset bp (put_word bn b blk');;
          fs_log_write bp;;
          mret (Ok b)
        else mret (Ok (get_word blk bn))) ;;
      mret r
    else mret (Err "bmap: out of range").

(** Free the nonzero addresses at the given word positions of the indirect
    block held by [bp], zeroing each. *)
Fixpoint trunc_indirect (dev : Z) (sb : Superblock) (bp : Z) (ks : list Z) : F unit :=
  match ks with
  | [] => mret tt
  | k :: ks' =>
    blk ← bdata bp;
    (if get_word blk k =? 0 then mret tt
     else bfree dev (get_word blk k) sb;;
          blk' ← bdata bp;
          bset bp (put_word k 0 blk'));;
    trunc_indirect dev sb bp ks'
  end.

Fixpoint trunc_direct (ip dev : Z) (sb : Superblock) (ks : list Z) : F unit :=
  match ks with
  | [] => mret tt
  | k :: ks' =>
    i ← inode_at ip;
    a ← expect (di_addrs (i_din i)).[k] "index out of bounds";
    (if a =? 0 then mret tt
     else bfree dev a sb;;
          upd_din ip (fun d => with_addrs (di_addrs d).[k <- 0] d));;
    trunc_direct ip dev sb ks'
  end.

Definition trunc1 (ip : Z) : F (result unit) :=
  sb ← superblock_of ip "allocated inode sans superblock ref";
  i0 ← inode_at ip;
  trunc_direct ip (i_dev i0) sb (zrange 0 NDIRECT);;
  i ← inode_at ip;
  a ← expect (di_addrs (i_din i)).[NDIRECT] "index out of bounds";
  _u <-? (if a =? 0 then mret (Ok tt)
          else _r <-? bwith (i_dev i) a (fun bp => trunc_indirect (i_dev i) sb bp (zrange 0 NINDIRECT)) ;;
               bfree (i_dev i) a sb;;
               upd_din ip (fun d => with_addrs (di_addrs d).[NDIRECT <- 0] d);;
               mret (Ok tt)) ;;
  upd_din ip (with_size 0);;
  mret (Ok tt).

Definition trunc (ip : Z) : F (result unit) :=
  h ← holding ip;
  assert_ h "truncating unlocked inode";;
  _u <-? trunc1 ip ;;
  update ip.

Definition iput (ip : Z) : F (result unit) :=
  me ← gets fs_me;
  i ← inode_at ip;
  l ← lift (Sleeplock_acquire me (i_lock i));
  upd_inode ip (set_ilock l);;
  _u <-? (if i_valid i && (di_nlink (i_din i) =? 0) && (i_ref i =? 1) then
            _t <-? trunc ip ;;
            upd_din ip (with_typ 0);;
            _w <-? update ip ;;
            upd_inode ip (set_valid false);;
            mret (Ok tt)
          else mret (Ok tt)) ;;
  irelease ip;;
  i' ← inode_at ip;
  r ← lift (sub_ovf (i_ref i') 1);
  upd_inode ip (set_ref r);;
  mret (Ok tt).

Definition unlock_put (ip : Z) : F (result unit) := iunlock ip;; iput ip.

Record Stat := mkStat { st_typ : FileType; st_dev : Z; st_ino : Z; st_nlink : Z; st_size : Z }.
Definition stati (ip : Z) : F Stat :=
  t ← ityp ip; i ← inode_at ip;
  mret (mkStat t (i_dev i) (i_inum i) (di_nlink (i_din i)) (di_size (i_din i))).

(** The copy loops, on the bytes still to transfer: each round moves the part
    that lies in one block.  The fuel bounds the number of blocks touched. *)
Fixpoint readi_loop (fuel : nat) (ip : Z) (off n : Z) (acc : list Z) : F (result (list Z)) :=
  match fuel with
  | O => diverge
  | Datatypes.S fuel' =>
    if n <=? 0 then mret (Ok acc) else
    i ← inode_at ip;
    b <-? bmap ip (off / BSIZE) ;;
    let boff := off mod BSIZE in
    let m := Z.min n (BSIZE - boff) in
    part <-? bwith (i_dev i) b (fun bp => blk ← bdata bp; mret (zslice blk boff (boff + m))) ;;
    readi_loop fuel' ip (off + m) (n - m) (acc ++ part)
  end.

Definition blocks_touched (n : Z) : nat := Datatypes.S (Datatypes.S (Z.to_nat (n / BSIZE + 1))).

(** [readi] into a buffer of [len] bytes: the bytes read, whose number the
    code returns. *)
Definition readi (ip len off : Z) : F (result (list Z)) :=
  sz ← isize ip;
  if sz <? off then mret (Err "offset beyond end of file") else
  if wrap 64 (off + len) <? off then mret (Err "offset and length wrap") else
  let n := Z.min len (sz - off) in
  readi_loop (blocks_touched n) ip off n [].

Fixpoint writei_loop (fuel : nat) (ip : Z) (src : list Z) (off : Z) : F (result Z) :=
  match fuel with
  | O => diverge
  | Datatypes.S fuel' =>
    if zlen src <=? 0 then mret (Ok off) else
    i ← inode_at ip;
    b <-? bmap ip (off / BSIZE) ;;
    let boff := off mod BSIZE in
    let m := Z.min (zlen src) (BSIZE - boff) in
    _u <-? bwith (i_dev i) b (fun bp =>
      blk ← bdata bp;
      bset bp (zsplice blk boff (zslice src 0 m));;
      fs_log_write bp) ;;
    writei_loop fuel' ip (zslice src m (zlen src)) (off + m)
  end.

Definition writei (ip : Z) (src : list Z) (off : Z) : F (result Z) :=
  sz ← isize ip;
  if sz <? off then mret (Err "offset beyond end of file") else
  if wrap 64 (off + zlen src) <? off then mret (Err "offset and length wrap") else
  if MAXFILE * BSIZE <? off + zlen src then mret (Err "write makes file too big") else
  off' <-? writei_loop (blocks_touched (zlen src)) ip src off ;;
  sz' ← isize ip;
  _u <-? (if (0 <? zlen src) && (sz' <? off') then
            upd_din ip (with_size off');;
            update ip
          else mret (Ok tt)) ;;
  mret (Ok (zlen src)).
End fs.
