(* ===== verification/FsDir.v ===== *)
(** Directories, path lookup and file creation, and the file interface of
    inodes: the second half of [fs.rs]. *)
From stdpp Require Import base list gmap strings.
From Stdlib Require Import ZArith Lia.
From S2P Require Import Prelude.
From S2P Require Import Arch.
From S2P Require Import Sleeplock.
From S2P Require Import BlockLayer.
From S2P Require Import Fslog.
From S2P Require Import FsLayout.
From S2P Require Import Fs.

Section dir.
Context {S : Type} `{BlockOps S}.
Notation F := (M (Fs S)).

(** ** Lookup *)
Definition with_putlock {A} (ip : Z) (thunk : F (result A)) : F (result A) :=
  ilock ip;;
  r ← thunk;
  match r with
  | Err e => unlock_put ip;; mret (Err e)
  | Ok a => _u <-? unlock_put ip ;; mret (Ok a)
  end.

Definition with_lock {A} (ip : Z) (thunk : F A) : F A :=
  ilock ip;;
  r ← thunk;
  iunlock ip;;
  mret r.

(** Read the directory entry at [off]. *)
Definition read_entry (dp off : Z) : F (result (list Z)) :=
  bs <-? readi dp DIRENT_SIZE off ;;
  assert_ (zlen bs =? DIRENT_SIZE) "dir_lookup read";;
  mret (Ok bs).

Fixpoint dir_lookup_loop (dp : Z) (name : list Z) (offs : list Z) : F (result (Z * Z)) :=
  match offs with
  | [] => mret (Err "file not found")
  | off :: offs' =>
    bs <-? read_entry dp off ;;
    let entry := Dirent_decode bs in
    if d_inum entry =? 0 then dir_lookup_loop dp name offs' else
    if bool_decide (Dirent_name entry = name) then
      sb ← superblock_of dp "superblockless inode";
      i ← inode_at dp;
      ip <-? iget (i_dev i) (d_inum entry) sb ;;
      mret (Ok (ip, off))
    else dir_lookup_loop dp name offs'
  end.

Definition dir_lookup_offset (dp : Z) (name : list Z) : F (result (Z * Z)) :=
  t ← ityp dp;
  assert_ (bool_decide (t = FtDir)) "dir_lookup not in a directory";;
  sz ← isize dp;
  dir_lookup_loop dp name (step_range 0 sz DIRENT_SIZE).

Definition dir_lookup (dp : Z) (name : list Z) : F (result Z) :=
  r <-? dir_lookup_offset dp name ;; mret (Ok (fst r)).

(** ** Linking *)

(** The offset of the first free entry, or the end of the directory. *)
Fixpoint free_entry (fuel : nat) (dp off : Z) : F (result Z) :=
  match fuel with
  | O => diverge
  | Datatypes.S fuel' =>
    sz ← isize dp;
    if off <? sz then
      bs <-? read_entry dp off ;;
      if field 8 0 bs =? 0 then mret (Ok off)
      else free_entry fuel' dp (off + DIRENT_SIZE)
    else mret (Ok off)
  end.

Definition dir_link (dp : Z) (name : list Z) (inum : Z) : F (result unit) :=
  found ← dir_lookup dp name;
  match found with
  | Ok ip => _u <-? iput ip ;; mret (Err "file already exists")
  | Err _ =>
    sz ← isize dp;
    off <-? free_entry (Datatypes.S (Z.to_nat (sz / DIRENT_SIZE + 1))) dp 0 ;;
    n <-? writei dp (dirent_bytes name inum) off ;;
    assert_ (n =? DIRENT_SIZE) "assertion `left == right` failed";;
    mret (Ok tt)
  end.

Fixpoint all_entries_free (dp : Z) (offs : list Z) : F (result bool) :=
  match offs with
  | [] => mret (Ok true)
  | off :: offs' =>
    bs <-? read_entry dp off ;;
    if negb (d_inum (Dirent_decode bs) =? 0) then mret (Ok false)
    else all_entries_free dp offs'
  end.

Definition is_unlinkable (ip : Z) : F (result bool) :=
  t ← ityp ip;
  if bool_decide (t = FtDir) then
    sz ← isize ip;
    all_entries_free ip (step_range (2 * DIRENT_SIZE) sz DIRENT_SIZE)
  else mret (Ok true).

(** The body [dir_unlink] runs under the lock of the inode it unlinks, with
    the guard on the directory [dp]: the first component says whether that
    guard is still active. *)
Definition dir_unlink_body (dp ip offset : Z) : F (bool * result unit) :=
  i ← inode_at ip;
  assert_ (0 <? di_nlink (i_din i)) "unlink inode < 1 links";;
  u ← is_unlinkable ip;
  match u with
  | Err e => mret (true, Err e)
  | Ok false => mret (true, Err "not linkable")
  | Ok true =>
    n ← expect_r (writei dp (zrep DIRENT_SIZE 0) offset) "unlink: writei";
    assert_ (n =? DIRENT_SIZE) "unlink: writei write";;
    t ← ityp ip;
    w ← (if bool_decide (t = FtDir) then nlink_dec dp;; update dp else mret (Ok tt));
    match w with
    | Err e => mret (true, Err e)
    | Ok _ =>
      p ← unlock_put dp;
      match p with
      | Err e => mret (false, Err e)
      | Ok _ => nlink_dec ip;; r ← update ip; mret (false, r)
      end
    end
  end.

(** [drop] of the guard. *)
Definition drop_guard (active : bool) (ip : Z) : F unit :=
  if active then unlock_put ip;; mret tt else mret tt.

Definition dir_unlink (dp : Z) (name : list Z) : F (result unit) :=
  ilock dp;;
  found ← dir_lookup_offset dp name;
  match found with
  | Err e => drop_guard true dp;; mret (Err e)
  | Ok (ip, offset) =>
    ilock ip;;
    br ← dir_unlink_body dp ip offset;
    r ← (match snd br with
         | Err e => unlock_put ip;; mret (Err e)
         | Ok _ => _u <-? unlock_put ip ;; mret (Ok tt)
         end);
    drop_guard (fst br) dp;;
    mret r
  end.

(** ** Path lookup *)
Definition is_dir (ip : Z) : F (result Z) :=
  t ← ityp ip;
  if negb (bool_decide (t = FtDir)) then mret (Err "not a directory") else mret (Ok ip).

Fixpoint namex_loop (fuel : nat) (ip : Z) (path : list Z) : F (result Z) :=
  match fuel with
  | O => diverge
  | Datatypes.S fuel' =>
    match skip_elem path with
    | None => mret (Ok ip)
    | Some (name, rest) =>
      if zlen name =? 0 then mret (Ok ip) else
      ip' <-? with_putlock ip (_d <-? is_dir ip ;; dir_lookup ip name) ;;
      namex_loop fuel' ip' rest
    end
  end.

Definition namex (path : list Z) : F (result Z) :=
  ip <-? (match path with
          | c :: _ =>
            if c =? SLASH then sb ← gets fs_sb; iget ROOTDEV ROOTINO sb
            else cwd ← gets fs_cwd; ip ← dup cwd; mret (Ok ip)
          | [] => cwd ← gets fs_cwd; ip ← dup cwd; mret (Ok ip)
          end) ;;
  namex_loop (Datatypes.S (length path)) ip path.

Definition namei (path : list Z) : F (result Z) :=
  if zlen path =? 0 then mret (Err "path empty") else namex path.

Definition namei_parent (path : list Z) : F (result (Z * list Z)) :=
  match path with
  | [] => mret (Err "empty path")
  | c :: _ =>
    let (dir0, file) := split_name path in
    let dir := if (zlen dir0 =? 0) && (c =? SLASH) then [SLASH] else dir0 in
    ip <-? namex dir ;;
    ilock ip;;
    t ← ityp ip;
    if negb (bool_decide (t = FtDir)) then unlock_put ip;; mret (Err "not a dir")
    else iunlock ip;; mret (Ok (ip, file))
  end.

(** ** Creation *)
Definition DOT : list Z := [46].
Definition DOTDOT : list Z := [46; 46].

(** The branch of [create] that makes a new inode, up to the drop of the
    guard on [dp]. *)
Definition create_new (dp : Z) (name : list Z) (typ : CreateType) : F (result Z) :=
  d ← inode_at dp;
  sb ← gets fs_sb;
  ip <-? ialloc (i_dev d) (CreateType_into typ) sb ;;
  ilock ip;;
  nlink_inc ip;;
  (match typ with CDev ma mi => upd_din ip (with_dev ma mi) | _ => mret tt end);;
  expect_r (update ip) "create new inode update";;
  i ← inode_at ip;
  (match typ with
   | CDir =>
     nlink_inc dp;;
     expect_r (update dp) "create new dir update";;
     expect_r (dir_link ip DOT (i_inum i)) "create new dir `.` link";;
     d' ← inode_at dp;
     expect_r (dir_link ip DOTDOT (i_inum d')) "create new dir `..` link"
   | _ => mret tt
   end);;
  expect_r (dir_link dp name (i_inum i)) "create new link";;
  mret (Ok ip).

Definition create (path : list Z) (typ : CreateType) : F (result Z) :=
  dn <-? namei_parent path ;;
  let (dp, name) := dn : Z * list Z in
  ilock dp;;
  found ← dir_lookup dp name;
  match found with
  | Ok ip =>
    drop_guard true dp;;
    ilock ip;;
    bad ← (if negb (bool_decide (FtFile = CreateType_into typ)) then mret true
           else t ← ityp ip; mret (negb (bool_decide (t = CreateType_into typ))));
    if (bad : bool) then drop_guard true ip;; mret (Err "create mismatch type")
    else mret (Ok ip)
  | Err _ =>
    r ← create_new dp name typ;
    drop_guard true dp;;
    mret r
  end.

(** ** The file interface of an inode *)
Definition fs_with_op {A} (thunk : F A) : F A :=
  zoom fs_log put_log op_begin;;
  r ← thunk;
  zoom fs_log put_log op_end;;
  mret r.

Definition inode_close (ip : Z) : F unit := fs_with_op (expect_r (iput ip) "close failed").

Definition inode_stat (ip : Z) : F (result Stat) := st ← with_lock ip (stati ip); mret (Ok st).

(** [read] and [write] at file offset [off]: the result and the new offset. *)
Definition inode_read (ip len off : Z) : F (result (list Z) * Z) :=
  with_lock ip (
    r ← readi ip len off;
    match r with
    | Ok bs => mret (Ok bs, off + zlen bs)
    | Err e => mret (Err e, off)
    end).

(** The most one transaction writes: [((MAXOPBLOCKS - 1 - 1 - 2) / 2) * BSIZE]. *)
Definition WRITE_MAX : Z := ((MAXOPBLOCKS - 1 - 1 - 2) / 2) * BSIZE.

Fixpoint inode_write_loop (fuel : nat) (ip : Z) (buf : list Z) (i off : Z) : F (result Z * Z) :=
  match fuel with
  | O => diverge
  | Datatypes.S fuel' =>
    if i <? zlen buf then
      let n := Z.min (zlen buf - i) WRITE_MAX in
      r ← fs_with_op (with_lock ip (writei ip (zslice buf i (i + n)) off));
      match r with
      | Ok w => inode_write_loop fuel' ip buf (i + w) (off + w)
      | Err e => mret (Err e, off)
      end
    else mret (Ok i, off)
  end.

Definition inode_write (ip : Z) (buf : list Z) (off : Z) : F (result Z * Z) :=
  inode_write_loop (Datatypes.S (Z.to_nat (zlen buf / WRITE_MAX + 1))) ip buf 0 off.

(** The file system's part of [firstret], where the first process begins: the
    superblock, the recovery of the log, and the root directory. *)
Definition firstret_fs : F Z :=
  fs_init ROOTDEV;;
  sb ← gets fs_sb;
  zoom fs_log put_log (log_init ROOTDEV (log_start sb) (nlog sb));;
  expect_r (namei [SLASH]) "root filesystem exists".
End dir.
