(* ===== verification/FsSpec.v ===== *)
(** Properties of the file system's blocks and file contents, proved against
    the block layer's interface: block allocation on the free bitmap, and
    reading and overwriting file contents. *)
From stdpp Require Import base list gmap strings fin_sets.
From Stdlib Require Import ZArith Lia.
From S2P Require Import Prelude.
From S2P Require Import Arch.
From S2P Require Import Sleeplock.
From S2P Require Import BlockLayer.
From S2P Require Import Fslog.
From S2P Require Import FslogCrash.
From S2P Require Import FslogSpec.
From S2P Require Import FsLayout.
From S2P Require Import Fs.

Section rules.
Context {S : Type} `{BL : BlockLaws S}.
Implicit Types (s : Fs S) (t : Logged S) (a : Dev).

(** An open transaction: the log's entries are the pinned blocks. *)
Record txn (t : Logged S) (a : Dev) (start size : Z) : Prop := {
  tx_rep : rep (bl t) a;
  tx_wf : wf_log (lg t);
  tx_at : log_at (lg t) start size;
  tx_entries : entries_ok start size (header (lg t));
  tx_dirty : forall b, b ∈ dirty a <-> b ∈ header (lg t);
  tx_out : 1 <= outstanding (st t) }.

(** Room for [k] more entries, with [j] buffers held besides. *)
Definition log_room (t : Logged S) (size k : Z) : Prop :=
  llen (lg t) + k <= LOGSIZE /\ llen (lg t) + k <= size - 1.

Lemma txn_dirty_size t a start size :
  txn t a start size -> Z.of_nat (base.size (dirty a)) = llen (lg t).
Proof.
  intros [Hr Hw _ (_ & _ & Hnd & _) Hd _]. rewrite <-(zlen_header _ Hw). unfold zlen.
  assert (dirty a = list_to_set (header (lg t))) as -> by set_solver. by rewrite size_list_to_set.
Qed.

Lemma txn_put t a a' b start size :
  txn t a start size -> rep b a' -> dirty a' = dirty a -> txn (put_bl b t) a' start size.
Proof. intros [Hr Hw Ha He Hd Ho] Hb Heq. split; try done. intros n. by rewrite Heq, Hd. Qed.

Lemma f_read s a n start size :
  txn (fs_log s) a start size -> 0 <= n -> (forall h, held a !! h <> Some n) ->
  llen (lg (fs_log s)) + Z.of_nat (base.size (held a)) < capacity ->
  exists h l, bread ROOTDEV n s = Ret (Ok h, put_log l s) /\ held a !! h = None /\
    txn l (dev_hold h n a) start size /\ lg l = lg (fs_log s) /\ st l = st (fs_log s).
Proof.
  intros Ht Hn Hh Hroom. pose proof (txn_dirty_size _ _ _ _ Ht) as Hsz.
  destruct (lbread (fs_log s) a n (tx_rep _ _ _ _ Ht) Hn Hh) as (h & b & E & Hf & R); [right; lia|].
  exists h, (put_bl b (fs_log s)). split; [by apply zoom_run|]. split; [done|].
  split; [|done]. by eapply txn_put.
Qed.

(** A buffer that has not been stored to can be released. *)
Lemma f_relse_clean s a h n start size :
  txn (fs_log s) (dev_hold h n a) start size -> held a !! h = None ->
  (forall h', held a !! h' <> Some n) -> n ∈ dirty a \/ view a n = media a n ->
  exists l, brelse h s = Ret (tt, put_log l s) /\ txn l a start size /\
    lg l = lg (fs_log s) /\ st l = st (fs_log s).
Proof.
  intros Ht Hh Hnh Hc.
  destruct (lbrelse (fs_log s) _ h n (tx_rep _ _ _ _ Ht)) as (b & E & R); [apply lookup_insert_eq|done|].
  rewrite dev_drop_hold in R by done.
  exists (put_bl b (fs_log s)). split; [by apply zoom_run|]. split; [|done]. by eapply txn_put.
Qed.

Lemma f_data s a h n start size :
  txn (fs_log s) a start size -> held a !! h = Some n -> bdata h s = Ret (view a n, s).
Proof.
  intros Ht Hh. pose proof (lbdata (fs_log s) a h n (tx_rep _ _ _ _ Ht) Hh) as E.
  cbn in *. unfold zoom at 1. rewrite E. by destruct s.
Qed.

Lemma f_set s a h n d start size :
  txn (fs_log s) a start size -> held a !! h = Some n -> zlen d = BSIZE ->
  exists l, bset h d s = Ret (tt, put_log l s) /\ txn l (dev_set n d a) start size /\
    lg l = lg (fs_log s) /\ st l = st (fs_log s).
Proof.
  intros Ht Hh Hd. destruct (lbset (fs_log s) a h n d (tx_rep _ _ _ _ Ht) Hh Hd) as (b & E & R).
  exists (put_bl b (fs_log s)). split; [by apply zoom_run|]. split; [|done]. by eapply txn_put.
Qed.

Lemma f_log_write s a h n start size :
  txn (fs_log s) a start size -> held a !! h = Some n -> outside start size n -> uN 64 n ->
  log_room (fs_log s) size 1 ->
  exists l, fs_log_write h s = Ret (tt, put_log l s) /\ txn l (dev_pin n a) start size /\
    llen (lg l) <= llen (lg (fs_log s)) + 1 /\ st l = st (fs_log s).
Proof.
  intros Ht Hh Ho Hu [Hr1 Hr2]. pose proof Ht as [Hr Hw Hat (He1 & He2 & Hnd & Hu64 & Hl1 & Hl2 & Hout) Hd Hout1].
  destruct (log_write_run (fs_log s) a h n start size Hr Hh Hw Hat ltac:(lia) ltac:(lia) Hout1)
    as (b & l' & E & R & Hw' & Hh' & Hat').
  pose proof (zlen_absorb n (header (lg (fs_log s)))) as Hza.
  rewrite <-Hh', !zlen_header in Hza by done.
  exists (mkLogged b l' (st (fs_log s))). split; [by apply zoom_run|]. split; [|cbn; split; [lia|done]].
  split; cbn [bl lg st]; try done.
  - rewrite Hh'. split; [done|]. split; [done|]. split; [by apply absorb_NoDup|].
    split; [|split; [rewrite <-Hh', zlen_header by done; lia|split; [rewrite <-Hh', zlen_header by done; lia|]]].
    + rewrite Forall_forall in Hu64 |- *. intros x [Hx| ->]%elem_of_absorb; [by apply Hu64|done].
    + intros x [Hx| ->]%elem_of_absorb; [by apply Hout|done].
  - intros x. rewrite Hh', elem_of_absorb, <-Hd. cbn. set_solver.
Qed.

Lemma f_relse_pinned s a h n start size :
  txn (fs_log s) a start size -> held a !! h = Some n -> n ∈ dirty a ->
  exists l, brelse h s = Ret (tt, put_log l s) /\ txn l (dev_drop h a) start size /\
    lg l = lg (fs_log s) /\ st l = st (fs_log s).
Proof.
  intros Ht Hh Hd. destruct (lbrelse (fs_log s) _ h n (tx_rep _ _ _ _ Ht) Hh (or_introl Hd)) as (b & E & R).
  exists (put_bl b (fs_log s)). split; [by apply zoom_run|]. split; [|done]. by eapply txn_put.
Qed.

Lemma put_log_put l l' s : put_log l (put_log l' s) = put_log l s.
Proof. done. Qed.

Lemma held_dev_hold a h n : held (dev_hold h n a) !! h = Some n.
Proof. apply lookup_insert_eq. Qed.

(** A logged update of one block: read, store, log, release. *)
Lemma f_update s a h n d start size :
  txn (fs_log s) (dev_hold h n a) start size -> held a !! h = None -> zlen d = BSIZE ->
  outside start size n -> uN 64 n -> log_room (fs_log s) size 1 ->
  exists l, (bset h d;; fs_log_write h;; brelse h) s = Ret (tt, put_log l s) /\
    txn l (after_store a (n, d)) start size /\
    llen (lg l) <= llen (lg (fs_log s)) + 1 /\ st l = st (fs_log s).
Proof.
  intros Ht Hh Hd Ho Hu Hroom.
  destruct (f_set s _ h n d _ _ Ht (held_dev_hold a h n) Hd) as (l1 & E1 & T1 & L1 & S1).
  destruct (f_log_write (put_log l1 s) _ h n _ _ T1) as (l2 & E2 & T2 & L2 & S2); try done.
  { apply held_dev_hold. }
  { unfold log_room. cbn. by rewrite L1. }
  destruct (f_relse_pinned (put_log l2 s) _ h n _ _ T2) as (l3 & E3 & T3 & L3 & S3);
    [apply held_dev_hold|cbn; set_solver|].
  rewrite dev_store_pin in T3 by done. exists l3. split.
  - by rewrite (bind_run _ _ _ _ _ E1), (bind_run _ _ _ _ _ E2).
  - split; [done|]. cbn in *. rewrite L3, L1 in *. split; [lia|congruence].
Qed.

Lemma expect_r_run {A} (m : M (Fs S) (result A)) msg s x s' :
  m s = Ret (Ok x, s') -> expect_r m msg s = Ret (x, s').
Proof. intros E. unfold expect_r. by rewrite (bind_run _ _ _ _ _ E). Qed.

Lemma bwith_split {A} n (f : Z -> M (Fs S) A) s h s1 :
  bread ROOTDEV n s = Ret (Ok h, s1) ->
  bwith ROOTDEV n f s = (r ← f h; brelse h;; mret (Ok r)) s1.
Proof. intros E. unfold bwith. by rewrite (try_run _ _ _ _ _ E). Qed.
End rules.

(** ** The free bitmap *)
Definition bit_at (data : list Z) (bi : Z) : bool :=
  match data.[bi / 8] with Some byte => Z.testbit byte (bi mod 8) | None => false end.

(** Block [b] is marked in use. *)
Definition used (sb : Superblock) (v : Z -> list Z) (b : Z) : bool :=
  bit_at (v (b / BPB + bmap_start sb)) (b mod BPB).

Lemma mask_bit byte k : 0 <= k -> (Z.land byte (Z.shiftl 1 k) =? 0) = negb (Z.testbit byte k).
Proof.
  intros Hk. rewrite Z.shiftl_1_l, land_pow2 by done. destruct (Z.testbit byte k); [|done].
  apply Z.eqb_neq. pose proof (Z.pow_pos_nonneg 2 k). lia.
Qed.

(** [scan_bits] from position [k]: the first clear bit below the limits. *)
Lemma scan_bits_run n k data b size :
  zlen data = BSIZE -> 0 <= k -> Z.of_nat n = BPB - k ->
  match scan_bits ((fun j => k + Z.of_nat j) <$> seq 0 n) data b size with
  | Ret (Some bi) => k <= bi < BPB /\ b + bi < size /\ bit_at data bi = false /\
      forall j, k <= j < bi -> bit_at data j = true
  | Ret None => forall j, k <= j < BPB -> b + j < size -> bit_at data j = true
  | _ => False
  end.
Proof.
  intros Hlen. revert k. induction n as [|n IH]; intros k Hk Hn; cbn [seq fmap list_fmap scan_bits].
  - intros j Hj. lia.
  - rewrite Z.add_0_r. destruct (Z.leb_spec size (b + k)) as [Hs|Hs]; [intros j Hj; lia|].
    assert (BSIZE = 4096 /\ BPB = 32768) as [HB HP] by done.
    destruct (znth_lt data (k / 8)) as [byte Hbyte].
    { rewrite Hlen, HB. split; [apply Z.div_pos; lia|]. apply Z.div_lt_upper_bound; lia. }
    rewrite Hbyte, mask_bit by (apply Z.mod_pos_bound; lia).
    assert (bit_at data k = Z.testbit byte (k mod 8)) as Hb by (unfold bit_at; by rewrite Hbyte).
    destruct (Z.testbit byte (k mod 8)) eqn:Ebit; cbn [negb].
    + specialize (IH (k + 1) ltac:(lia) ltac:(lia)).
      replace ((fun j => k + Z.of_nat j) <$> seq 1 n) with ((fun j => k + 1 + Z.of_nat j) <$> seq 0 n).
      2:{ rewrite <-fmap_S_seq, <-list_fmap_compose. apply list_fmap_ext. intros i x _. cbn. lia. }
      destruct (scan_bits _ data b size) as [[bi|]|e|]; [| |done|done].
      * destruct IH as (H1 & H2 & H3 & H4). split; [lia|]. split; [done|]. split; [done|].
        intros j Hj. destruct (decide (j = k)) as [->|]; [done|]. apply H4. lia.
      * intros j Hj Hjs. destruct (decide (j = k)) as [->|]; [done|]. apply IH; lia.
    + split; [lia|]. split; [lia|]. split; [done|]. intros j Hj. lia.
Qed.

Lemma scan_block data b size :
  zlen data = BSIZE ->
  match scan_bits (zrange 0 BPB) data b size with
  | Ret (Some bi) => 0 <= bi < BPB /\ b + bi < size /\ bit_at data bi = false /\
      forall j, 0 <= j < bi -> bit_at data j = true
  | Ret None => forall j, 0 <= j < BPB -> b + j < size -> bit_at data j = true
  | _ => False
  end.
Proof.
  intros Hlen. pose proof (scan_bits_run (Z.to_nat BPB) 0 data b size Hlen ltac:(lia) eq_refl) as H.
  assert (zrange 0 BPB = (fun j => 0 + Z.of_nat j) <$> seq 0 (Z.to_nat BPB)) as ->; [|exact H].
  unfold zrange, step_range. rewrite Z.div_1_r. change (0 <? BPB) with true. cbv iota.
  change (Z.to_nat (BPB - 0 + 1 - 1)) with (Z.to_nat BPB).
  apply list_fmap_ext. intros i x _. lia.
Qed.

Lemma zlen_set_bit data bi : zlen (set_bit data bi) = zlen data.
Proof. unfold set_bit. destruct data.[bi / 8]; [apply zlen_zset|done]. Qed.

Lemma bit_at_set_bit data bi j :
  0 <= bi -> 0 <= j -> bi / 8 < zlen data ->
  bit_at (set_bit data bi) j = (bit_at data j || (j =? bi)).
Proof.
  intros Hbi Hj Hlen. unfold bit_at, set_bit.
  assert (0 <= bi / 8) by (apply Z.div_pos; lia).
  destruct (znth_lt data (bi / 8)) as [byte Hbyte]; [lia|]. rewrite Hbyte.
  destruct (decide (bi / 8 = j / 8)) as [Heq|Hne].
  - rewrite <-Heq, Hbyte, znth_zset_eq by lia. rewrite Z.shiftl_1_l, lor_pow2_spec by (apply Z.mod_pos_bound; lia).
    f_equal. pose proof (Z.div_mod j 8). pose proof (Z.div_mod bi 8).
    destruct (Z.eqb_spec (j mod 8) (bi mod 8)), (Z.eqb_spec j bi); try done; subst; lia.
  - rewrite znth_zset_ne by done. destruct (Z.eqb_spec j bi); [by subst|]. by rewrite orb_false_r.
Qed.

(** ** Block allocation *)
Section balloc.
Context {S : Type} `{BL : BlockLaws S}.
Context (sb : Superblock) (start size : Z).

(** Where the bitmap lies: in range, outside the log. *)
Record bitmap_ok : Prop := {
  bm_size : 0 <= sb_size sb < 2 ^ 63;
  bm_start : 0 <= bmap_start sb < 2 ^ 63;
  bm_out : forall b, 0 <= b < sb_size sb -> outside start size (b / BPB + bmap_start sb) }.

Definition bitmap_block (n : Z) : Prop := exists b, 0 <= b < sb_size sb /\ n = b / BPB + bmap_start sb.

(** The bitmap marks the log and itself as used; nobody holds a free block or
    a bitmap block. *)
Record alloc_ok (a : Dev) : Prop := {
  al_free : forall b, 0 <= b < sb_size sb -> used sb (view a) b = false ->
    outside start size b /\ ~ bitmap_block b /\ (forall h, held a !! h <> Some b);
  al_held : forall n h, bitmap_block n -> held a !! h <> Some n }.

Context (Hbm : bitmap_ok).

Lemma bblock_run b : 0 <= b < sb_size sb -> bblock sb b = Ret (b / BPB + bmap_start sb).
Proof.
  intros Hb. destruct Hbm as [Hs Hst _]. unfold bblock, add_ovf.
  assert (b / BPB <= b) by (apply Z.div_le_upper_bound; [done|]; assert (BPB = 32768) by done; lia).
  rewrite (proj2 (Z.ltb_lt _ _)); [done|]. lia.
Qed.

Lemma bmap_block_range b : 0 <= b < sb_size sb -> uN 64 (b / BPB + bmap_start sb).
Proof.
  intros Hb. destruct Hbm as [Hs Hst _]. assert (BPB = 32768) as HP by done.
  assert (0 <= b / BPB <= b) by (split; [apply Z.div_pos|apply Z.div_le_upper_bound]; lia). unfold uN. lia.
Qed.

Lemma used_split v k bi : 0 <= k -> 0 <= bi < BPB ->
  used sb v (k * BPB + bi) = bit_at (v (k + bmap_start sb)) bi.
Proof.
  intros Hk Hbi. assert (BPB = 32768) as HP by done. unfold used. rewrite (Z.add_comm (k * BPB)).
  rewrite Z.div_add, Z.mod_add by lia. by rewrite Z.div_small, Z.mod_small by lia.
Qed.

(** Zeroing a block in the log. *)
Lemma bzero_run (s : Fs S) a b :
  txn (fs_log s) a start size -> 0 <= b < 2 ^ 64 -> outside start size b ->
  (forall h, held a !! h <> Some b) -> log_room (fs_log s) size 1 ->
  llen (lg (fs_log s)) + Z.of_nat (base.size (held a)) < capacity ->
  exists l, bzero ROOTDEV b s = Ret (tt, put_log l s) /\
    txn l (after_store a (b, zrep BSIZE 0)) start size /\
    llen (lg l) <= llen (lg (fs_log s)) + 1 /\ st l = st (fs_log s).
Proof.
  intros Ht Hb Ho Hh Hroom Hcap.
  destruct (f_read s a b _ _ Ht ltac:(lia) Hh Hcap) as (h & l1 & E1 & Hf & T1 & L1 & S1).
  destruct (f_update (put_log l1 s) a h b (zrep BSIZE 0) _ _ T1 Hf) as (l2 & E2 & T2 & L2 & S2);
    [by apply zlen_rep|done|done|unfold log_room in *; cbn; by rewrite L1|].
  exists l2. split; [|split; [done|cbn in *; rewrite L1, S1 in *; done]].
  unfold bzero. rewrite (bind_run _ _ _ _ _ (expect_r_run _ _ _ _ _ E1)). exact E2.
Qed.

Definition mark (a : Dev) (b : Z) : Dev :=
  let bb := b / BPB + bmap_start sb in
  after_store (after_store a (bb, set_bit (view a bb) (b mod BPB))) (b, zrep BSIZE 0).

Lemma held_after_store a u : held (after_store a u) = held a.
Proof. done. Qed.

(** Allocating the clear bit [bi] of block [k] of the bitmap. *)
Lemma balloc_take (s : Fs S) a h k bi :
  let bb := k + bmap_start sb in let b := k * BPB + bi in
  txn (fs_log s) (dev_hold h bb a) start size -> held a !! h = None -> alloc_ok a ->
  0 <= k -> 0 <= bi < BPB -> b < sb_size sb -> used sb (view a) b = false ->
  log_room (fs_log s) size 2 ->
  llen (lg (fs_log s)) + 1 + Z.of_nat (base.size (held a)) < capacity ->
  exists l, (bset h (set_bit (view a bb) bi);; fs_log_write h;; brelse h;; bzero ROOTDEV b;; mret (Ok b)) s
      = Ret (Ok b, put_log l s) /\
    txn l (mark a b) start size /\ llen (lg l) <= llen (lg (fs_log s)) + 2 /\ st l = st (fs_log s).
Proof.
  intros bb b Ht Hh [Hfree _] Hk Hbi Hb Hu [Hr1 Hr2] Hcap. assert (BPB = 32768) as HP by done.
  assert (0 <= b < sb_size sb) as Hb0 by (unfold b in *; nia).
  assert (b / BPB + bmap_start sb = bb /\ b mod BPB = bi) as [Hbb Hmod].
  { unfold b, bb. rewrite (Z.add_comm (k * BPB)), Z.div_add, Z.mod_add by lia.
    rewrite Z.div_small, Z.mod_small by lia. done. }
  destruct (Hfree b Hb0 Hu) as (Hout & Hnbm & Hnh).
  pose proof (rep_len _ _ bb (tx_rep _ _ _ _ Ht)) as Hlen. cbn [view dev_hold] in Hlen.
  destruct (f_update s a h bb (set_bit (view a bb) bi) _ _ Ht Hh) as (l1 & E1 & T1 & L1 & S1).
  { by rewrite zlen_set_bit. }
  { rewrite <-Hbb. by apply Hbm. }
  { rewrite <-Hbb. by apply bmap_block_range. }
  { split; lia. }
  destruct (bzero_run (put_log l1 s) _ b T1) as (l2 & E2 & T2 & L2 & S2).
  { destruct Hbm. lia. }
  { done. }
  { apply Hnh. }
  { unfold log_room. cbn in *. lia. }
  { cbn [fs_log put_log]. rewrite held_after_store. lia. }
  exists l2. split.
  - revert E1. unfold mbind, M_bind. destruct (bset h _ s) as [[[] s1]|e|]; [|done|done].
    destruct (fs_log_write h s1) as [[[] s2]|e|]; [|done|done]. intros ->. by rewrite E2.
  - split; [|cbn in *; split; [lia|congruence]]. unfold mark. cbn zeta. rewrite Hbb, Hmod. exact T2.
Qed.

Lemma balloc_loop_run n (k0 : nat) (s : Fs S) a :
  txn (fs_log s) a start size -> alloc_ok a -> log_room (fs_log s) size 2 ->
  llen (lg (fs_log s)) + 1 + Z.of_nat (base.size (held a)) < capacity ->
  (forall b, 0 <= b < Z.of_nat k0 * BPB -> b < sb_size sb -> used sb (view a) b = true) ->
  sb_size sb <= Z.of_nat (k0 + n) * BPB ->
  (forall k, (k0 <= k < k0 + n)%nat -> Z.of_nat k * BPB < sb_size sb) ->
  exists l, st l = st (fs_log s) /\
  ((exists b, balloc_loop ROOTDEV sb ((fun k => Z.of_nat k * BPB) <$> seq k0 n) s = Ret (Ok b, put_log l s) /\
      0 <= b < sb_size sb /\ used sb (view a) b = false /\
      (forall b', 0 <= b' < b -> used sb (view a) b' = true) /\
      txn l (mark a b) start size /\ llen (lg l) <= llen (lg (fs_log s)) + 2) \/
   (balloc_loop ROOTDEV sb ((fun k => Z.of_nat k * BPB) <$> seq k0 n) s
      = Ret (Err "balloc: out of blocks", put_log l s) /\
    txn l a start size /\ forall b, 0 <= b < sb_size sb -> used sb (view a) b = true)).
Proof.
  assert (BPB = 32768) as HP by done.
  revert k0 s. induction n as [|n IH]; intros k0 s Ht Hal Hroom Hcap Hused Hend Hk.
  - exists (fs_log s). split; [done|]. right. split; [by destruct s|]. split; [done|].
    intros b Hb. apply Hused; lia.
  - cbn [seq fmap list_fmap balloc_loop]. set (b0 := Z.of_nat k0 * BPB).
    assert (0 <= b0 < sb_size sb) as Hb0 by (unfold b0; specialize (Hk k0 ltac:(lia)); lia).
    rewrite (bind_lift _ _ _ _ (bblock_run b0 Hb0)).
    assert (b0 / BPB = Z.of_nat k0) as Hdiv by (unfold b0; apply Z.div_mul; lia).
    rewrite Hdiv. set (bb := Z.of_nat k0 + bmap_start sb).
    assert (bitmap_block bb) as Hbb by (exists b0; split; [done|]; unfold bb; by rewrite Hdiv).
    destruct (f_read s a bb _ _ Ht) as (h & l1 & E1 & Hf & T1 & L1 & S1).
    { unfold bb. destruct Hbm. lia. }
    { intros h. by apply (al_held _ Hal). }
    { lia. }
    rewrite (try_run _ _ _ _ _ E1).
    rewrite (bind_run _ _ _ _ _ (f_data (put_log l1 s) _ h bb _ _ T1 (held_dev_hold a h bb))).
    cbn [view dev_hold]. pose proof (rep_len _ _ bb (tx_rep _ _ _ _ Ht)) as Hlen.
    pose proof (scan_block (view a bb) b0 (sb_size sb) Hlen) as Hscan.
    destruct (scan_bits (zrange 0 BPB) (view a bb) b0 (sb_size sb)) as [[bi|]|e|] eqn:Escan; [| |done|done].
    + destruct Hscan as (Hbi & Hlt & Hclear & Hbefore). rewrite (bind_lift _ _ _ (Some bi)) by done.
      destruct (balloc_take (put_log l1 s) a h (Z.of_nat k0) bi) as (l2 & E2 & T2 & L2 & S2); try done.
      { lia. }
      { rewrite used_split by lia. done. }
      { unfold log_room in *. cbn. by rewrite L1. }
      { cbn. by rewrite L1. }
      exists l2. split; [by rewrite S2|]. left. exists (b0 + bi). split; [exact E2|].
      split; [lia|]. split; [unfold b0; rewrite used_split by lia; done|]. split.
      * intros b' Hb'. destruct (decide (b' < b0)); [apply Hused; unfold b0 in *; lia|].
        replace b' with (Z.of_nat k0 * BPB + (b' - b0)) by (unfold b0; lia).
        rewrite used_split by lia. apply Hbefore. lia.
      * split; [done|]. cbn in L2. by rewrite L1 in L2.
    + rewrite (bind_lift _ _ _ None) by done.
      destruct (f_relse_clean (put_log l1 s) a h bb _ _ T1 Hf) as (l2 & E2 & T2 & L2 & S2).
      { intros h'. by apply (al_held _ Hal). }
      { destruct (decide (bb ∈ dirty a)); [by left|right].
        apply (rep_clean _ _ _ (tx_rep _ _ _ _ Ht)); [done|]. intros h'. by apply (al_held _ Hal). }
      rewrite (bind_run _ _ _ _ _ E2). cbn in L2, S2.
      destruct (IH (Datatypes.S k0) (put_log l2 s)) as (l3 & S3 & Hres); try done.
      * unfold log_room in *. cbn. by rewrite L2, L1.
      * cbn. by rewrite L2, L1.
      * intros b Hb Hbs. destruct (decide (b < b0)); [apply Hused; unfold b0 in *; lia|].
        replace b with (Z.of_nat k0 * BPB + (b - b0)) by (unfold b0; lia).
        rewrite used_split by (unfold b0 in *; lia). apply Hscan; unfold b0 in *; lia.
      * lia.
      * intros k Hk'. apply Hk. lia.
      * exists l3. cbn in S3, Hres. rewrite S3, S2, S1. split; [done|]. by rewrite L2, L1 in Hres.
Qed.

Lemma div_mod_eq b b' : b / BPB = b' / BPB -> b mod BPB = b' mod BPB -> b = b'.
Proof. assert (BPB = 32768) as HP by done. pose proof (Z.div_mod b BPB). pose proof (Z.div_mod b' BPB). lia. Qed.

Lemma byte_index_lt b (data : list Z) : zlen data = BSIZE -> (b mod BPB) / 8 < zlen data.
Proof.
  intros ->. assert (BPB = 32768 /\ BSIZE = 4096) as [HP HB] by done.
  pose proof (Z.mod_pos_bound b BPB). apply Z.div_lt_upper_bound; lia.
Qed.

Lemma used_mark a b b' :
  (forall n, zlen (view a n) = BSIZE) -> 0 <= b < sb_size sb -> ~ bitmap_block b -> 0 <= b' < sb_size sb ->
  used sb (view (mark a b)) b' = (used sb (view a) b' || (b' =? b)).
Proof.
  intros Hlen Hb Hnb Hb'. unfold used at 1, mark. cbn [view after_store fst snd].
  assert (BPB = 32768) as HP by done.
  rewrite (fupd_ne _ b) by (intros Heq; apply Hnb; by exists b'). unfold fupd.
  destruct (Z.eqb_spec (b' / BPB + bmap_start sb) (b / BPB + bmap_start sb)) as [Heq|Hne].
  - rewrite bit_at_set_bit by (try (apply Z.mod_pos_bound; lia); by apply byte_index_lt).
    unfold used. rewrite Heq. f_equal.
    destruct (Z.eqb_spec (b' mod BPB) (b mod BPB)), (Z.eqb_spec b' b); try done; subst; try done.
    exfalso. apply n. apply div_mod_eq; [lia|done].
  - destruct (Z.eqb_spec b' b); [by subst|]. unfold used. by rewrite orb_false_r.
Qed.

Lemma step_range_blocks :
  exists n, step_range 0 (sb_size sb) BPB = (fun k => Z.of_nat k * BPB) <$> seq 0 n /\
    sb_size sb <= Z.of_nat n * BPB /\
    forall k, (k < n)%nat -> Z.of_nat k * BPB < sb_size sb.
Proof.
  assert (BPB = 32768) as HP by done. destruct Hbm as [Hs _ _]. unfold step_range.
  destruct (Z.ltb_spec 0 (sb_size sb)) as [Hlt|Hle].
  - exists (Z.to_nat ((sb_size sb - 0 + BPB - 1) / BPB)). split; [apply list_fmap_ext; intros; lia|].
    set (q := (sb_size sb - 0 + BPB - 1) / BPB).
    assert (0 <= q) by (apply Z.div_pos; lia).
    pose proof (Z.div_mod (sb_size sb - 0 + BPB - 1) BPB ltac:(lia)) as Hd. fold q in Hd.
    pose proof (Z.mod_pos_bound (sb_size sb - 0 + BPB - 1) BPB ltac:(lia)).
    split; [lia|]. intros k Hk. assert (Z.of_nat k + 1 <= q) by lia. lia.
  - exists 0%nat. split; [done|]. split; [lia|]. intros k Hk. lia.
Qed.

Lemma balloc_run (s : Fs S) a :
  txn (fs_log s) a start size -> alloc_ok a -> log_room (fs_log s) size 2 ->
  llen (lg (fs_log s)) + 1 + Z.of_nat (base.size (held a)) < capacity ->
  exists l, st l = st (fs_log s) /\
  ((exists b, balloc ROOTDEV sb s = Ret (Ok b, put_log l s) /\
      0 <= b < sb_size sb /\ used sb (view a) b = false /\
      (forall b', 0 <= b' < b -> used sb (view a) b' = true) /\
      txn l (mark a b) start size /\ llen (lg l) <= llen (lg (fs_log s)) + 2) \/
   (balloc ROOTDEV sb s = Ret (Err "balloc: out of blocks", put_log l s) /\
    txn l a start size /\ forall b, 0 <= b < sb_size sb -> used sb (view a) b = true)).
Proof.
  intros Ht Hal Hroom Hcap. destruct step_range_blocks as (n & Hrange & Hend & Hk).
  unfold balloc. rewrite Hrange. apply balloc_loop_run; try done.
  - intros b Hb. lia.
  - intros k Hk'. apply Hk. lia.
Qed.

(** C38: [balloc] in a transaction with room for two log entries either
    returns the first block the bitmap marks free, marks exactly that block
    used, fills it with zeros, and changes no other block; or, when no block
    of the device is free, returns the error and changes nothing. *)
Theorem balloc_allocates (s : Fs S) a :
  txn (fs_log s) a start size -> alloc_ok a -> log_room (fs_log s) size 2 ->
  llen (lg (fs_log s)) + 1 + Z.of_nat (base.size (held a)) < capacity ->
  exists l, st l = st (fs_log s) /\
  ((exists b a', balloc ROOTDEV sb s = Ret (Ok b, put_log l s) /\
      0 <= b < sb_size sb /\ used sb (view a) b = false /\
      (forall b', 0 <= b' < b -> used sb (view a) b' = true) /\
      txn l a' start size /\ held a' = held a /\ media a' = media a /\
      view a' b = zrep BSIZE 0 /\
      (forall b', 0 <= b' < sb_size sb -> used sb (view a') b' = (used sb (view a) b' || (b' =? b))) /\
      (forall n, n <> b -> ~ bitmap_block n -> view a' n = view a n)) \/
   (balloc ROOTDEV sb s = Ret (Err "balloc: out of blocks", put_log l s) /\
    txn l a start size /\ forall b, 0 <= b < sb_size sb -> used sb (view a) b = true)).
Proof.
  intros Ht Hal Hroom Hcap. destruct (balloc_run s a Ht Hal Hroom Hcap) as (l & Hst & Hres).
  exists l. split; [done|].
  destruct Hres as [(b & E & Hb & Hu & Hfirst & T & _)|(E & T & Hall)]; [left|by right].
  destruct (al_free _ Hal b Hb Hu) as (Hout & Hnb & _).
  exists b, (mark a b). do 5 (split; [done|]). split; [done|]. split; [done|].
  split; [unfold mark; cbn; apply fupd_eq|]. split.
  - intros b' Hb'. apply used_mark; try done. intros m. by apply (rep_len _ _ m (tx_rep _ _ _ _ Ht)).
  - intros m Hm Hmb. unfold mark. cbn. rewrite fupd_ne by done. apply fupd_ne.
    intros ->. apply Hmb. by exists b.
Qed.

(** ** Freeing *)
Lemma clear_bit_spec byte k j :
  0 <= k < 8 -> 0 <= j < 8 ->
  Z.testbit (Z.land byte (lnotw 8 (Z.shiftl 1 k))) j = (Z.testbit byte j && negb (j =? k)).
Proof.
  intros Hk Hj. unfold lnotw. rewrite Z.land_spec, Z.lxor_spec, Z.shiftl_1_l, testbit_pow2 by lia.
  change (2 ^ 8 - 1) with (Z.ones 8). rewrite Z.ones_spec_low by lia.
  done.
Qed.

Lemma zlen_clear_bit data bi : zlen (clear_bit data bi) = zlen data.
Proof. unfold clear_bit. destruct data.[bi / 8]; [apply zlen_zset|done]. Qed.

Lemma bit_at_clear_bit data bi j :
  0 <= bi -> 0 <= j -> bi / 8 < zlen data ->
  bit_at (clear_bit data bi) j = (bit_at data j && negb (j =? bi)).
Proof.
  intros Hbi Hj Hlen. unfold bit_at, clear_bit.
  assert (0 <= bi / 8) by (apply Z.div_pos; lia).
  destruct (znth_lt data (bi / 8)) as [byte Hbyte]; [lia|]. rewrite Hbyte.
  destruct (decide (bi / 8 = j / 8)) as [Heq|Hne].
  - rewrite <-Heq, Hbyte, znth_zset_eq by lia. rewrite clear_bit_spec by (apply Z.mod_pos_bound; lia).
    do 2 f_equal. pose proof (Z.div_mod j 8). pose proof (Z.div_mod bi 8).
    destruct (Z.eqb_spec (j mod 8) (bi mod 8)), (Z.eqb_spec j bi); try done; subst; lia.
  - rewrite znth_zset_ne by done. destruct (Z.eqb_spec j bi); [by subst|]. by rewrite andb_true_r.
Qed.

Definition unmark (a : Dev) (b : Z) : Dev :=
  let bb := b / BPB + bmap_start sb in after_store a (bb, clear_bit (view a bb) (b mod BPB)).

Lemma used_unmark a b b' :
  (forall n, zlen (view a n) = BSIZE) -> 0 <= b < sb_size sb -> 0 <= b' < sb_size sb ->
  used sb (view (unmark a b)) b' = (used sb (view a) b' && negb (b' =? b)).
Proof.
  intros Hlen Hb Hb'. unfold used at 1, unmark. cbn [view after_store fst snd].
  assert (BPB = 32768) as HP by done. unfold fupd.
  destruct (Z.eqb_spec (b' / BPB + bmap_start sb) (b / BPB + bmap_start sb)) as [Heq|Hne].
  - rewrite bit_at_clear_bit by (try (apply Z.mod_pos_bound; lia); by apply byte_index_lt).
    unfold used. rewrite Heq. do 2 f_equal.
    destruct (Z.eqb_spec (b' mod BPB) (b mod BPB)), (Z.eqb_spec b' b); try done; subst; try done.
    exfalso. apply n. apply div_mod_eq; [lia|done].
  - destruct (Z.eqb_spec b' b); [by subst|]. unfold used. by rewrite andb_true_r.
Qed.

Lemma mask_all byte k : 0 <= k -> (Z.shiftl 1 k =? Z.land byte (Z.shiftl 1 k)) = Z.testbit byte k.
Proof.
  intros Hk. rewrite Z.shiftl_1_l, land_pow2 by done. pose proof (Z.pow_pos_nonneg 2 k).
  destruct (Z.testbit byte k); [apply Z.eqb_refl|]. apply Z.eqb_neq. lia.
Qed.

Lemma bfree_run (s : Fs S) a b :
  txn (fs_log s) a start size -> 0 <= b < sb_size sb ->
  (forall h, held a !! h <> Some (b / BPB + bmap_start sb)) ->
  log_room (fs_log s) size 1 ->
  llen (lg (fs_log s)) + Z.of_nat (base.size (held a)) < capacity ->
  if used sb (view a) b then
    exists l, bfree ROOTDEV b sb s = Ret (tt, put_log l s) /\ txn l (unmark a b) start size /\
      llen (lg l) <= llen (lg (fs_log s)) + 1 /\ st l = st (fs_log s)
  else bfree ROOTDEV b sb s = Panic "freeing free block".
Proof.
  intros Ht Hb Hnh Hroom Hcap. set (bb := b / BPB + bmap_start sb) in *.
  assert (BPB = 32768) as HP by done.
  pose proof (fun n => rep_len _ _ n (tx_rep _ _ _ _ Ht)) as Hlen.
  pose proof (bm_out Hbm b Hb) as Hout. pose proof (bmap_block_range b Hb) as Hu64. fold bb in Hout, Hu64.
  destruct (f_read s a bb _ _ Ht (proj1 Hout) Hnh Hcap) as (h & l1 & E1 & Hf & T1 & L1 & S1).
  pose proof (f_data (put_log l1 s) _ h bb _ _ T1 (held_dev_hold a h bb)) as Ed.
  cbn [view dev_hold] in Ed.
  destruct (znth_lt (view a bb) (b mod BPB / 8)) as [byte Hbyte].
  { split; [apply Z.div_pos; [apply Z.mod_pos_bound; lia|lia]|by apply byte_index_lt]. }
  assert (used sb (view a) b = Z.testbit byte (b mod BPB mod 8)) as Hused
    by (unfold used, bit_at; fold bb; by rewrite Hbyte).
  unfold bfree. rewrite (bind_lift _ _ _ _ (bblock_run b Hb)). fold bb.
  rewrite Hused. destruct (Z.testbit byte (b mod BPB mod 8)) eqn:Ebit.
  - destruct (f_update (put_log l1 s) a h bb (clear_bit (view a bb) (b mod BPB)) _ _ T1 Hf)
      as (l2 & E2 & T2 & L2 & S2); [by rewrite zlen_clear_bit|done|done|unfold log_room in *; cbn; by rewrite L1|].
    exists l2. split; [|split; [exact T2|cbn in *; rewrite L1, S1 in *; done]].
    apply expect_r_run. rewrite (bwith_split _ _ _ _ _ E1).
    unfold mbind at 1, M_bind at 1. rewrite (bind_run _ _ _ _ _ Ed), Hbyte. cbn [expect].
      rewrite bind_mret, mask_all, Ebit, bind_assert by (try (apply Z.mod_pos_bound; lia); done).
      revert E2. unfold mbind, M_bind. destruct (bset h _ _) as [[[] s1]|e|]; [|done|done].
      destruct (fs_log_write h s1) as [[[] s2]|e|]; [|done|done]. by intros ->.
  - unfold expect_r. apply bind_panic. rewrite (bwith_split _ _ _ _ _ E1). apply bind_panic.
    rewrite (bind_run _ _ _ _ _ Ed), Hbyte. cbn [expect].
    rewrite bind_mret, mask_all, Ebit by (apply Z.mod_pos_bound; lia). done.
Qed.

(** [bfree] of a block marked used clears exactly that block's bit in
    the bitmap, inside the transaction; of a block already free it panics. *)
Theorem bfree_frees (s : Fs S) a b :
  txn (fs_log s) a start size -> 0 <= b < sb_size sb ->
  (forall h, held a !! h <> Some (b / BPB + bmap_start sb)) ->
  log_room (fs_log s) size 1 ->
  llen (lg (fs_log s)) + Z.of_nat (base.size (held a)) < capacity ->
  if used sb (view a) b then
    exists l a', bfree ROOTDEV b sb s = Ret (tt, put_log l s) /\ txn l a' start size /\
      held a' = held a /\ media a' = media a /\
      (forall b', 0 <= b' < sb_size sb -> used sb (view a') b' = (used sb (view a) b' && negb (b' =? b))) /\
      (forall n, n <> b / BPB + bmap_start sb -> view a' n = view a n)
  else bfree ROOTDEV b sb s = Panic "freeing free block".
Proof.
  intros Ht Hb Hnh Hroom Hcap. pose proof (bfree_run s a b Ht Hb Hnh Hroom Hcap) as Hrun.
  destruct (used sb (view a) b); [|done]. destruct Hrun as (l & E & T & _).
  exists l, (unmark a b). split; [done|]. split; [done|]. split; [done|]. split; [done|]. split.
  - intros b' Hb'. apply used_unmark; try done. intros n. by apply (rep_len _ _ n (tx_rep _ _ _ _ Ht)).
  - intros n Hn. unfold unmark. cbn. by apply fupd_ne.
Qed.
End balloc.
