(* ===== verification/FsFile.v ===== *)
(** Reading and overwriting file contents: [bmap] on mapped blocks, [readi]
    and [writei], against the abstract contents of a file. *)
From stdpp Require Import base list gmap strings fin_sets.
From Stdlib Require Import ZArith Lia.
From S2P Require Import Prelude.
From S2P Require Import Arch.
From S2P Require Import Sleeplock.
From S2P Require Import BlockLayer.
From S2P Require Import Fslog.
From S2P Require Import FslogSpec.
From S2P Require Import FsLayout.
From S2P Require Import Fs.
From S2P Require Import FsSpec.

Lemma no_wrap x n : 0 <= x < 2 ^ 64 -> 0 <= n < 2 ^ 64 -> x <= wrap 64 (x + n) -> x + n < 2 ^ 64.
Proof.
  intros Hx Hn Hw. destruct (decide (x + n < 2 ^ 64)); [done|]. unfold wrap in Hw.
  replace (x + n) with (x + n - 2 ^ 64 + 1 * 2 ^ 64) in Hw by lia.
  rewrite Z.mod_add, Z.mod_small in Hw by lia. lia.
Qed.

(** ** The abstract contents of a file *)

(** The disk block that holds block [bn] of a file, 0 if there is none. *)
Definition block_of (d : DInode) (v : Z -> list Z) (bn : Z) : Z :=
  if bn <? NDIRECT then default 0 (di_addrs d).[bn]
  else get_word (v (default 0 (di_addrs d).[NDIRECT])) (bn - NDIRECT).

Definition indirect_of (d : DInode) : Z := default 0 (di_addrs d).[NDIRECT].

Definition file_byte (d : DInode) (v : Z -> list Z) (p : Z) : option Z :=
  (v (block_of d v (p / BSIZE))).[p mod BSIZE].

(** The bytes of the file, from its first to its size. *)
Definition contents (d : DInode) (v : Z -> list Z) : list Z :=
  (fun p => default 0 (file_byte d v p)) <$> zrange 0 (di_size d).

Lemma zlen_contents d v : 0 <= di_size d -> zlen (contents d v) = di_size d.
Proof. intros. unfold contents. rewrite zlen_fmap, zlen_zrange; lia. Qed.

Lemma znth_contents d v p :
  0 <= p < di_size d -> (contents d v).[p] = Some (default 0 (file_byte d v p)).
Proof. intros Hp. unfold contents. rewrite znth_fmap, znth_zrange by lia. done. Qed.

Lemma file_byte_full d v p :
  (forall n, zlen (v n) = BSIZE) -> file_byte d v p = Some (default 0 (file_byte d v p)).
Proof.
  intros Hlen. unfold file_byte. destruct (znth_lt (v (block_of d v (p / BSIZE))) (p mod BSIZE)) as [x ->]; [|done].
  rewrite Hlen. by apply Z.mod_pos_bound.
Qed.

(** Blocks [0 .. k) of the file are mapped. *)
Definition mapped (d : DInode) (v : Z -> list Z) (k : Z) : Prop :=
  zlen (di_addrs d) = NDIRECT + 1 /\ k <= MAXFILE /\
  forall bn, 0 <= bn < k -> 0 < block_of d v bn /\ (NDIRECT <= bn -> 0 < indirect_of d).

Section file.
Context {S : Type} `{BL : BlockLaws S}.
Implicit Types (s : Fs S) (a : Dev).

Definition set_bl (b : S) (s : Fs S) : Fs S := put_log (put_bl b (fs_log s)) s.

(** The running process holds the lock of the inode [i] in slot [ip]. *)
Definition locked_at (s : Fs S) (ip : Z) (i : Inode) : Prop :=
  (fs_icache s).[ip] = Some i /\ i_lock i = mkSleeplock true (fs_me s) /\
  is_Some (i_sb i) /\ i_dev i = ROOTDEV.

Lemma inode_at_run s ip i : (fs_icache s).[ip] = Some i -> inode_at ip s = Ret (i, s).
Proof. intros E. unfold inode_at. rewrite bind_gets. cbn [id]. by rewrite E. Qed.

Lemma holding_run s ip i : locked_at s ip i -> holding ip s = Ret (true, s).
Proof.
  intros (E & Hl & _). unfold holding. rewrite (bind_run _ _ _ _ _ (inode_at_run _ _ _ E)), bind_gets.
  unfold Sleeplock_holding. rewrite Hl. cbn. by rewrite Z.eqb_refl.
Qed.

Lemma superblock_run s ip i msg :
  locked_at s ip i -> exists sb, i_sb i = Some sb /\ superblock_of ip msg s = Ret (sb, s).
Proof.
  intros (E & _ & [sb Hsb] & _). exists sb. split; [done|]. unfold superblock_of.
  rewrite (bind_run _ _ _ _ _ (inode_at_run _ _ _ E)), Hsb. done.
Qed.

(** Reading one block and releasing it leaves the device as it was. *)
Lemma with_ro {A} s a n (f : Z -> M (Fs S) A) (x : A) :
  rep (bl (fs_log s)) a -> held a = ∅ -> 0 <= n ->
  Z.of_nat (base.size (dirty a)) < capacity ->
  (forall h s', bdata h s' = Ret (view a n, s') -> f h s' = Ret (x, s')) ->
  exists b, bwith ROOTDEV n f s = Ret (Ok x, set_bl b s) /\ rep b a.
Proof.
  intros Hr Hh Hn Hcap Hf.
  destruct (lbread (fs_log s) a n Hr Hn (fun h => held_fresh a h n Hh)) as (h & b1 & E1 & Hf1 & R1).
  { right. by rewrite Hh, map_size_empty, Z.add_0_r. }
  destruct (lbrelse (put_bl b1 (fs_log s)) _ h n R1 (held_dev_hold a h n)) as (b2 & E2 & R2).
  { cbn. destruct (decide (n ∈ dirty a)); [by left|right].
    apply (rep_clean _ _ _ Hr); [done|]. intros h'. by apply held_fresh. }
  rewrite dev_drop_hold in R2 by done. exists b2. split; [|done].
  rewrite (bwith_split n f s h (set_bl b1 s)) by (exact (zoom_run fs_log put_log (bread ROOTDEV n) s _ _ E1)).
  assert (bdata h (set_bl b1 s) = Ret (view a n, set_bl b1 s)) as Ed.
  { refine (zoom_run fs_log put_log (bdata h) (set_bl b1 s) (view a n) (put_bl b1 (fs_log s)) _).
    exact (lbdata (put_bl b1 (fs_log s)) _ h n R1 (held_dev_hold a h n)). }
  rewrite (bind_run _ _ _ _ _ (Hf _ _ Ed)).
  assert (brelse h (set_bl b1 s) = Ret (tt, set_bl b2 s)) as Er
    by exact (zoom_run fs_log put_log (brelse h) (set_bl b1 s) _ _ E2).
  by rewrite (bind_run _ _ _ _ _ Er).
Qed.

(** [bmap] of a mapped block finds it and changes nothing. *)
Lemma bmap_mapped s a ip i bn k :
  rep (bl (fs_log s)) a -> held a = ∅ -> Z.of_nat (base.size (dirty a)) < capacity ->
  locked_at s ip i -> mapped (i_din i) (view a) k -> 0 <= bn < k ->
  exists b, bmap ip bn s = Ret (Ok (block_of (i_din i) (view a) bn), set_bl b s) /\ rep b a.
Proof.
  intros Hr Hh Hcap Hlk (Hla & Hmax & Hmap) Hbn. destruct (Hmap bn Hbn) as [Hpos Hind].
  destruct (superblock_run s ip i "bmap requires superblock" Hlk) as (sb & _ & Esb).
  pose proof Hlk as (Ei & _ & _ & Hdev). assert (NDIRECT = 12 /\ MAXFILE = NDIRECT + NINDIRECT) as [HN HM] by done.
  unfold bmap. rewrite (bind_run _ _ _ _ _ (holding_run _ _ _ Hlk)), bind_assert by done.
  rewrite (bind_run _ _ _ _ _ Esb), (bind_run _ _ _ _ _ (inode_at_run _ _ _ Ei)).
  unfold block_of in *. destruct (Z.ltb_spec bn NDIRECT) as [Hd|Hd].
  - destruct (znth_lt (di_addrs (i_din i)) bn) as [x Hx]; [lia|]. rewrite Hx in *. cbn in Hpos.
    cbn [expect default]. rewrite bind_mret, (proj2 (Z.eqb_neq x 0)) by lia.
    exists (bl (fs_log s)). split; [|done]. cbn. by destruct s as [[]].
  - destruct (znth_lt (di_addrs (i_din i)) NDIRECT) as [x Hx]; [lia|].
    specialize (Hind Hd). unfold indirect_of in Hind. rewrite Hx in *. cbn in Hpos, Hind.
    rewrite (proj2 (Z.ltb_lt (bn - NDIRECT) NINDIRECT)) by lia.
    cbn [expect default]. rewrite bind_mret, (proj2 (Z.eqb_neq x 0)) by lia.
    rewrite (try_run _ _ _ x s) by done. rewrite Hdev.
    set (w := get_word (view a x) (bn - NDIRECT)) in *.
    match goal with |- context [bwith ROOTDEV x ?f] =>
      destruct (with_ro s a x f (Ok w) Hr Hh ltac:(lia) Hcap) as (b & E & R) end.
    { intros h s' Ed. rewrite (bind_run _ _ _ _ _ Ed). fold w. rewrite (proj2 (Z.eqb_neq w 0)) by lia. done. }
    exists b. split; [|exact R]. by rewrite (try_run _ _ _ _ _ E).
Qed.

Lemma locked_set_bl s b ip i : locked_at s ip i -> locked_at (set_bl b s) ip i.
Proof. done. Qed.

(** The loop of [readi], over the part of the file in [off, off + n). *)
Lemma readi_loop_run fuel s a ip i off n acc :
  rep (bl (fs_log s)) a -> held a = ∅ -> Z.of_nat (base.size (dirty a)) < capacity ->
  locked_at s ip i -> mapped (i_din i) (view a) ((off + n + BSIZE - 1) / BSIZE) ->
  0 <= off -> 0 <= n ->
  (if n =? 0 then 0 else (off mod BSIZE + n + BSIZE - 1) / BSIZE) < Z.of_nat fuel ->
  exists b r, readi_loop fuel ip off n acc s = Ret (Ok (acc ++ r), set_bl b s) /\ rep b a /\
    zlen r = n /\ forall k, 0 <= k < n -> r.[k] = file_byte (i_din i) (view a) (off + k).
Proof.
  assert (BSIZE = 4096) as HB by done.
  intros Hr Hh Hcap Hlk Hmap Hoff Hn Hfuel. revert s off n acc Hr Hlk Hmap Hoff Hn Hfuel.
  induction fuel as [|fuel IH]; intros s off n acc Hr Hlk Hmap Hoff Hn Hfuel.
  { exfalso. destruct (n =? 0); [lia|]. pose proof (Z.mod_pos_bound off BSIZE).
    assert (0 <= (off mod BSIZE + n + BSIZE - 1) / BSIZE) by (apply Z.div_pos; lia). lia. }
  cbn [readi_loop]. destruct (Z.eqb_spec n 0) as [->|Hn0].
  { exists (bl (fs_log s)), []. rewrite app_nil_r. split; [cbn; by destruct s as [[]]|].
    split; [done|]. split; [done|]. intros k Hk. lia. }
  rewrite (proj2 (Z.leb_gt n 0)) by lia.
  rewrite (bind_run _ _ _ _ _ (inode_at_run _ _ _ (proj1 Hlk))).
  pose proof (Z.div_mod off BSIZE ltac:(lia)) as Hdm. pose proof (Z.mod_pos_bound off BSIZE ltac:(lia)) as Hmb.
  set (q := off / BSIZE) in *. set (boff := off mod BSIZE) in *.
  assert (0 <= q) by (apply Z.div_pos; lia).
  assert (q < (off + n + BSIZE - 1) / BSIZE) as Hq.
  { apply Z.lt_le_trans with (q + 1); [lia|]. apply Z.div_le_lower_bound; lia. }
  destruct (bmap_mapped s a ip i q _ Hr Hh Hcap Hlk Hmap ltac:(lia)) as (b1 & E1 & R1).
  rewrite (try_run _ _ _ _ _ E1). set (blk := block_of (i_din i) (view a) q).
  set (m := Z.min n (BSIZE - boff)).
  assert (0 < m <= n /\ boff + m <= BSIZE) as [Hm Hm2] by (unfold m; lia).
  pose proof (proj1 (proj2 (proj2 Hmap) q ltac:(lia))) as Hblk. fold blk in Hblk.
  rewrite (proj2 (proj2 (proj2 Hlk))).
  match goal with |- context [bwith ROOTDEV blk ?f] =>
    destruct (with_ro (set_bl b1 s) a blk f (zslice (view a blk) boff (boff + m)) R1 Hh ltac:(lia) Hcap)
      as (b2 & E2 & R2) end.
  { intros h s' Ed. by rewrite (bind_run _ _ _ _ _ Ed). }
  rewrite (try_run _ _ _ _ _ E2). cbn [set_bl fs_log put_log put_bl] in R2.
  set (part := zslice (view a blk) boff (boff + m)).
  pose proof (rep_len _ _ blk Hr) as Hlen.
  assert (zlen part = m) as Hpl by (unfold part; rewrite zlen_zslice; lia).
  destruct (IH (set_bl b2 s) (off + m) (n - m) (acc ++ part)) as (b3 & r & E3 & R3 & Hl3 & Hr3);
    [exact R2|done| |lia|lia| |].
  { replace (off + m + (n - m) + BSIZE - 1) with (off + n + BSIZE - 1) by lia. exact Hmap. }
  { destruct (Z.eqb_spec (n - m) 0) as [Hz|Hnz].
    - assert (1 <= (boff + n + BSIZE - 1) / BSIZE) by (apply Z.div_le_lower_bound; lia). lia.
    - assert (m = BSIZE - boff) as Hmeq by (unfold m in *; lia).
      replace (off + m) with (0 + (q + 1) * BSIZE) by lia. rewrite Z.mod_add by lia.
      rewrite Z.mod_0_l, Z.add_0_l by lia.
      replace (boff + n + BSIZE - 1) with ((n - m + BSIZE - 1) + 1 * BSIZE) in Hfuel by lia.
      rewrite Z.div_add in Hfuel by lia. lia. }
  exists b3, (part ++ r). rewrite app_assoc. split; [exact E3|]. split; [done|].
  split; [rewrite zlen_app; lia|]. intros k Hk. destruct (decide (k < m)).
  - rewrite znth_app_l by lia. unfold part. rewrite znth_zslice by lia. unfold file_byte.
    replace ((off + k) / BSIZE) with q; [|apply Z.div_unique with (boff + k); lia].
    replace ((off + k) mod BSIZE) with (boff + k); [done|]. apply Z.mod_unique with q; lia.
  - rewrite znth_app_r, Hpl by lia. rewrite Hr3 by lia. f_equal. lia.
Qed.

Lemma isize_run s ip i : (fs_icache s).[ip] = Some i -> isize ip s = Ret (di_size (i_din i), s).
Proof. intros E. unfold isize. by rewrite (bind_run _ _ _ _ _ (inode_at_run _ _ _ E)). Qed.

(** A read that starts within the file returns that part of its contents. *)
Lemma readi_run s a ip i len off :
  rep (bl (fs_log s)) a -> held a = ∅ -> Z.of_nat (base.size (dirty a)) < capacity ->
  locked_at s ip i -> 0 <= off <= di_size (i_din i) -> 0 <= len -> off + len < 2 ^ 64 ->
  mapped (i_din i) (view a) ((di_size (i_din i) + BSIZE - 1) / BSIZE) ->
  exists b, readi ip len off s =
      Ret (Ok (zslice (contents (i_din i) (view a)) off (Z.min (off + len) (di_size (i_din i)))), set_bl b s) /\
    rep b a.
Proof.
  intros Hr Hh Hcap Hlk Hoff Hlen Hwrap Hmap. assert (BSIZE = 4096) as HB by done.
  unfold readi. rewrite (bind_run _ _ _ _ _ (isize_run _ _ _ (proj1 Hlk))). set (sz := di_size (i_din i)) in *.
  rewrite (proj2 (Z.ltb_ge sz off)) by lia.
  rewrite (proj2 (Z.ltb_ge _ off)) by (unfold wrap; rewrite Z.mod_small by lia; lia).
  set (n := Z.min len (sz - off)). assert (0 <= n) by lia.
  pose proof (Z.mod_pos_bound off BSIZE ltac:(lia)).
  destruct (readi_loop_run (blocks_touched n) s a ip i off n [] Hr Hh Hcap Hlk) as (b & r & E & R & Hl & Hb).
  - destruct Hmap as (M1 & M2 & M3). split; [done|].
    assert ((off + n + BSIZE - 1) / BSIZE <= (sz + BSIZE - 1) / BSIZE) by (apply Z.div_le_mono; lia).
    split; [lia|]. intros bn Hbn. apply M3. lia.
  - lia.
  - done.
  - unfold blocks_touched. assert (0 <= n / BSIZE) by (apply Z.div_pos; lia).
    assert ((off mod BSIZE + n + BSIZE - 1) / BSIZE <= n / BSIZE + 2).
    { replace (n / BSIZE + 2) with ((n + 2 * BSIZE) / BSIZE) by (rewrite Z.div_add; lia).
      apply Z.div_le_mono; lia. }
    destruct (n =? 0); lia.
  - exists b. split; [|done]. rewrite E, app_nil_l. do 3 f_equal.
    assert (zlen (contents (i_din i) (view a)) = sz) as Hc by (apply zlen_contents; unfold sz in *; lia).
    apply znth_ext; [rewrite zlen_zslice; lia|]. intros k Hk.
    rewrite Hb, znth_zslice, znth_contents by lia. apply file_byte_full. intros m. by apply (rep_len _ _ m Hr).
Qed.

(** C39: [readi] under the inode's lock returns, for an offset within the
    file, exactly the bytes of the file from the offset on, as many as fit
    the buffer and the file, each from the disk block its position is mapped
    to through the direct and indirect addresses, and changes nothing a
    reader could see; an offset beyond the end, or one that wraps with the
    length, is refused. *)
Theorem readi_reads_file s a ip i len off :
  rep (bl (fs_log s)) a -> held a = ∅ -> Z.of_nat (base.size (dirty a)) < capacity ->
  locked_at s ip i -> 0 <= off -> 0 <= len < 2 ^ 64 ->
  let sz := di_size (i_din i) in
  mapped (i_din i) (view a) ((sz + BSIZE - 1) / BSIZE) ->
  if sz <? off then readi ip len off s = Ret (Err "offset beyond end of file", s)
  else if wrap 64 (off + len) <? off then readi ip len off s = Ret (Err "offset and length wrap", s)
  else exists b r, readi ip len off s = Ret (Ok r, set_bl b s) /\ rep b a /\
    zlen r = Z.min len (sz - off) /\
    forall k, 0 <= k < zlen r -> r.[k] = file_byte (i_din i) (view a) (off + k).
Proof.
  intros Hr Hh Hcap Hlk Hoff Hlen sz Hmap.
  destruct (Z.ltb_spec sz off) as [Hlt|Hle].
  { unfold readi. rewrite (bind_run _ _ _ _ _ (isize_run _ _ _ (proj1 Hlk))). fold sz.
    by rewrite (proj2 (Z.ltb_lt sz off)). }
  destruct (Z.ltb_spec (wrap 64 (off + len)) off) as [Hlt|Hge].
  { unfold readi. rewrite (bind_run _ _ _ _ _ (isize_run _ _ _ (proj1 Hlk))). fold sz.
    by rewrite (proj2 (Z.ltb_ge sz off)), (proj2 (Z.ltb_lt _ off)). }
  assert (off < 2 ^ 64) as Ho64.
  { destruct Hmap as (_ & Hk & _). assert (BSIZE = 4096 /\ MAXFILE = 524) as [HB HM] by done.
    pose proof (Z.div_mod (sz + BSIZE - 1) BSIZE ltac:(lia)). pose proof (Z.mod_pos_bound (sz + BSIZE - 1) BSIZE ltac:(lia)). lia. }
  pose proof (no_wrap off len ltac:(lia) Hlen Hge) as Hw.
  destruct (readi_run s a ip i len off Hr Hh Hcap Hlk ltac:(unfold sz in *; lia) ltac:(lia) Hw Hmap) as (b & E & R).
  fold sz in E. eexists b, _. split; [exact E|]. split; [done|].
  assert (zlen (contents (i_din i) (view a)) = sz) as Hc by (apply zlen_contents; unfold sz in *; lia).
  split; [rewrite zlen_zslice; lia|]. intros k Hk. rewrite zlen_zslice in Hk by lia.
  rewrite znth_zslice, znth_contents by (unfold sz in *; lia). symmetry. apply file_byte_full.
  intros m. by apply (rep_len _ _ m Hr).
Qed.

(** ** Overwriting *)

(** The file's first [k] blocks are mapped to distinct disk blocks outside
    the log, none of them its indirect block. *)
Record laid_out (d : DInode) (v : Z -> list Z) (k start size : Z) : Prop := {
  lo_mapped : mapped d v k;
  lo_inj : forall bn bn', 0 <= bn < k -> 0 <= bn' < k -> block_of d v bn = block_of d v bn' -> bn = bn';
  lo_ind : forall bn, 0 <= bn < k -> block_of d v bn <> indirect_of d;
  lo_out : forall bn, 0 <= bn < k -> outside start size (block_of d v bn) /\ uN 64 (block_of d v bn) }.

Lemma block_of_ext d v v' bn :
  v' (indirect_of d) = v (indirect_of d) -> block_of d v' bn = block_of d v bn.
Proof. intros E. unfold block_of, indirect_of in *. destruct (bn <? NDIRECT); [done|]. by rewrite E. Qed.

Lemma laid_out_ext d v v' k start size :
  v' (indirect_of d) = v (indirect_of d) -> laid_out d v k start size -> laid_out d v' k start size.
Proof.
  intros E [(M1 & M2 & M3) Hi Hd Ho]. pose proof (fun bn => block_of_ext d v v' bn E) as Hb.
  split; [split; [done|split; [done|]]|..]; intros bn; rewrite ?Hb; auto.
  intros bn'. rewrite Hb. auto.
Qed.

(** One block of the file rewritten with [part] at [boff]. *)
Lemma write_block s a n boff part start size :
  txn (fs_log s) a start size -> held a = ∅ -> outside start size n -> uN 64 n ->
  log_room (fs_log s) size 1 -> llen (lg (fs_log s)) < capacity ->
  0 <= boff -> boff + zlen part <= BSIZE ->
  exists l, bwith ROOTDEV n (fun bp =>
      blk ← bdata bp; bset bp (zsplice blk boff part);; fs_log_write bp) s = Ret (Ok tt, put_log l s) /\
    txn l (after_store a (n, zsplice (view a n) boff part)) start size /\
    llen (lg l) <= llen (lg (fs_log s)) + 1 /\ st l = st (fs_log s).
Proof.
  intros Ht Hh Ho Hu Hroom Hcap Hb1 Hb2.
  destruct (f_read s a n _ _ Ht (proj1 Ho)) as (h & l1 & E1 & Hf & T1 & L1 & S1).
  { intros h. rewrite Hh. by rewrite lookup_empty. }
  { rewrite Hh, map_size_empty. lia. }
  pose proof (rep_len _ _ n (tx_rep _ _ _ _ Ht)) as Hlen.
  destruct (f_update (put_log l1 s) a h n (zsplice (view a n) boff part) _ _ T1 Hf) as (l2 & E2 & T2 & L2 & S2);
    [rewrite zlen_zsplice; lia|done|done|unfold log_room in *; cbn; by rewrite L1|].
  exists l2. split; [|split; [done|cbn in *; rewrite L1, S1 in *; done]].
  rewrite (bwith_split _ _ _ _ _ E1). unfold mbind at 1, M_bind at 1.
  rewrite (bind_run _ _ _ _ _ (f_data (put_log l1 s) _ h n _ _ T1 (held_dev_hold a h n))).
  revert E2. cbn [view dev_hold]. unfold mbind, M_bind. destruct (bset h _ _) as [[[] s1]|e|]; [|done|done].
  destruct (fs_log_write h s1) as [[[] s2]|e|]; [|done|done]. by intros ->.
Qed.

(** Bytes of the file after a store to one of its blocks. *)
Lemma file_byte_store d v k start size q boff part p :
  laid_out d v k start size -> (forall n, zlen (v n) = BSIZE) -> 0 <= q < k -> 0 <= p < k * BSIZE ->
  0 <= boff -> boff + zlen part <= BSIZE ->
  let v' := fupd v (block_of d v q) (zsplice (v (block_of d v q)) boff part) in
  file_byte d v' p =
    if bool_decide (q * BSIZE + boff <= p < q * BSIZE + boff + zlen part)
    then part.[p - (q * BSIZE + boff)] else file_byte d v p.
Proof.
  intros Hlo Hlen Hq Hp Hb1 Hb2 v'. assert (BSIZE = 4096) as HB by done.
  pose proof (Z.div_mod p BSIZE ltac:(lia)) as Hdm. pose proof (Z.mod_pos_bound p BSIZE ltac:(lia)) as Hmb.
  assert (0 <= p / BSIZE < k) as Hpq by (split; [apply Z.div_pos|apply Z.div_lt_upper_bound]; lia).
  assert (v' (indirect_of d) = v (indirect_of d)) as Hind.
  { unfold v'. apply fupd_ne. intros E. by apply (lo_ind _ _ _ _ _ Hlo q Hq). }
  unfold file_byte. rewrite (block_of_ext d v v' _ Hind). unfold v' at 1.
  destruct (decide (p / BSIZE = q)) as [Heq|Hne].
  - rewrite Heq, fupd_eq. case_bool_decide.
    + rewrite znth_zsplice_in; rewrite ?Hlen; try lia. f_equal. lia.
    + rewrite znth_zsplice_out; rewrite ?Hlen; lia || done.
  - rewrite fupd_ne by (intros E; apply Hne; by apply (lo_inj _ _ _ _ _ Hlo)).
    rewrite bool_decide_eq_false_2; [done|]. intros H'. apply Hne.
    symmetry. apply Z.div_unique with (p - q * BSIZE); lia.
Qed.

Definition spanned (off n : Z) : Z := if n =? 0 then 0 else (off mod BSIZE + n + BSIZE - 1) / BSIZE.

Lemma spanned_step off n m :
  0 <= off -> 0 < n -> m = Z.min n (BSIZE - off mod BSIZE) ->
  spanned (off + m) (n - m) + 1 <= spanned off n.
Proof.
  intros Hoff Hn ->. assert (BSIZE = 4096) as HB by done. unfold spanned.
  rewrite (proj2 (Z.eqb_neq n 0)) by lia.
  pose proof (Z.div_mod off BSIZE ltac:(lia)) as Hdm. pose proof (Z.mod_pos_bound off BSIZE ltac:(lia)).
  set (boff := off mod BSIZE) in *. set (m := Z.min n (BSIZE - boff)).
  destruct (Z.eqb_spec (n - m) 0) as [Hz|Hnz].
  - assert (1 <= (boff + n + BSIZE - 1) / BSIZE) by (apply Z.div_le_lower_bound; lia). lia.
  - assert (m = BSIZE - boff) as Hmeq by (unfold m in *; lia).
    replace (off + m) with (0 + (off / BSIZE + 1) * BSIZE) by lia. rewrite Z.mod_add by lia.
    rewrite Z.mod_0_l, Z.add_0_l by lia.
    replace (boff + n + BSIZE - 1) with ((n - m + BSIZE - 1) + 1 * BSIZE) by lia.
    rewrite Z.div_add by lia. lia.
Qed.

Lemma writei_loop_run fuel s a ip i src off k start size :
  txn (fs_log s) a start size -> held a = ∅ -> LOGSIZE < capacity ->
  locked_at s ip i -> laid_out (i_din i) (view a) k start size ->
  0 <= off -> off + zlen src <= k * BSIZE ->
  log_room (fs_log s) size (spanned off (zlen src)) -> spanned off (zlen src) < Z.of_nat fuel ->
  exists l a', writei_loop fuel ip src off s = Ret (Ok (off + zlen src), put_log l s) /\
    txn l a' start size /\ held a' = ∅ /\ media a' = media a /\ st l = st (fs_log s) /\
    laid_out (i_din i) (view a') k start size /\
    (forall n, (forall bn, 0 <= bn < k -> n <> block_of (i_din i) (view a) bn) -> view a' n = view a n) /\
    forall p, 0 <= p < k * BSIZE -> file_byte (i_din i) (view a') p =
      if bool_decide (off <= p < off + zlen src) then src.[p - off] else file_byte (i_din i) (view a) p.
Proof.
  assert (BSIZE = 4096) as HB by done. assert (LOGSIZE = 511) as HL by done.
  intros Ht Hh Hcap Hlk Hlo Hoff Hend Hroom Hfuel. revert s a src off Ht Hh Hlk Hlo Hoff Hend Hroom Hfuel.
  induction fuel as [|fuel IH]; intros s a src off Ht Hh Hlk Hlo Hoff Hend Hroom Hfuel.
  { exfalso. unfold spanned in Hfuel. pose proof (zlen_nonneg src). destruct (zlen src =? 0); [lia|].
    pose proof (Z.mod_pos_bound off BSIZE).
    assert (0 <= (off mod BSIZE + zlen src + BSIZE - 1) / BSIZE) by (apply Z.div_pos; lia). lia. }
  cbn [writei_loop]. pose proof (zlen_nonneg src) as Hz. destruct (Z.leb_spec (zlen src) 0) as [Hn0|Hn0].
  { assert (zlen src = 0) as Hs0 by lia. exists (fs_log s), a. rewrite Hs0, Z.add_0_r.
    split; [by destruct s|]. do 6 (split; [done|]). intros p Hp.
    rewrite bool_decide_eq_false_2 by lia. done. }
  pose proof (txn_dirty_size _ _ _ _ Ht) as Hdsz. destruct Hroom as [Hr1 Hr2].
  pose proof (spanned_step off (zlen src) _ Hoff Hn0 eq_refl) as Hstep.
  rewrite (bind_run _ _ _ _ _ (inode_at_run _ _ _ (proj1 Hlk))).
  pose proof (Z.div_mod off BSIZE ltac:(lia)) as Hdm. pose proof (Z.mod_pos_bound off BSIZE ltac:(lia)) as Hmb.
  set (q := off / BSIZE) in *. set (boff := off mod BSIZE) in *.
  assert (0 <= q < k) as Hq by (split; [apply Z.div_pos|apply Z.div_lt_upper_bound]; lia).
  set (m := Z.min (zlen src) (BSIZE - boff)) in *.
  assert (0 <= spanned (off + m) (zlen src - m)) as Hsp0.
  { unfold spanned. destruct (_ =? 0); [lia|]. apply Z.div_pos; [|lia].
    pose proof (Z.mod_pos_bound (off + m) BSIZE). lia. }
  assert (0 < m <= zlen src /\ boff + m <= BSIZE) as [Hm Hm2] by (unfold m; lia).
  destruct (bmap_mapped s a ip i q k (tx_rep _ _ _ _ Ht) Hh ltac:(lia) Hlk (lo_mapped _ _ _ _ _ Hlo) Hq)
    as (b1 & E1 & R1).
  rewrite (try_run _ _ _ _ _ E1). set (blk := block_of (i_din i) (view a) q) in *.
  rewrite (proj2 (proj2 (proj2 Hlk))).
  assert (txn (fs_log (set_bl b1 s)) a start size) as T1 by (by eapply txn_put).
  destruct (lo_out _ _ _ _ _ Hlo q Hq) as [Hout Hu]. fold blk in Hout, Hu.
  assert (zlen (zslice src 0 m) = m) as Hpl by (rewrite zlen_zslice; lia).
  destruct (write_block (set_bl b1 s) a blk boff (zslice src 0 m) start size T1 Hh Hout Hu)
    as (l2 & E2 & T2 & L2 & S2); [split; cbn; lia|cbn; lia|lia|lia|].
  rewrite (try_run _ _ _ _ _ E2). set (a2 := after_store a _) in T2.
  pose proof (fun n => rep_len _ _ n (tx_rep _ _ _ _ Ht)) as Hlen.
  assert (view a2 (indirect_of (i_din i)) = view a (indirect_of (i_din i))) as Hind.
  { cbn. apply fupd_ne. intros E. by apply (lo_ind _ _ _ _ _ Hlo q Hq). }
  assert (zlen (zslice src m (zlen src)) = zlen src - m) as Hrest by (rewrite zlen_zslice; lia).
  destruct (IH (put_log l2 s) a2 (zslice src m (zlen src)) (off + m)) as (l3 & a3 & E3 & T3 & Hh3 & Hmd & S3 & Hlo3 & Hoth & Hb3).
  { exact T2. } { exact Hh. } { done. } { by eapply laid_out_ext. } { lia. } { rewrite Hrest. lia. }
  { rewrite Hrest. unfold log_room. cbn in *. lia. } { rewrite Hrest. lia. }
  rewrite Hrest in E3, Hb3. exists l3, a3. split; [etrans; [exact E3|]; do 3 f_equal; lia|].
  do 3 (split; [done|]). split; [cbn in *; congruence|]. split; [done|]. split.
  - intros n Hn. rewrite Hoth; [cbn; apply fupd_ne, Hn, Hq|].
    intros bn Hbn. rewrite (block_of_ext _ _ _ _ Hind). by apply Hn.
  - intros p Hp. rewrite (Hb3 p Hp). unfold a2. cbn [view after_store fst snd].
    rewrite (file_byte_store _ _ _ _ _ _ _ _ _ Hlo Hlen Hq Hp) by lia. fold blk. rewrite Hpl.
    replace (q * BSIZE + boff) with off by lia.
    repeat case_bool_decide; try lia; try done.
    + rewrite znth_zslice by lia. f_equal. lia.
    + rewrite znth_zslice by lia. done.
Qed.

Lemma spanned_bound off n : 0 <= off -> 0 <= n -> spanned off n <= n / BSIZE + 2.
Proof.
  intros Hoff Hn. assert (BSIZE = 4096) as HB by done. unfold spanned.
  assert (0 <= n / BSIZE) by (apply Z.div_pos; lia). destruct (n =? 0); [lia|].
  pose proof (Z.mod_pos_bound off BSIZE).
  replace (n / BSIZE + 2) with ((n + 2 * BSIZE) / BSIZE) by (rewrite Z.div_add; lia).
  apply Z.div_le_mono; lia.
Qed.

(** C31: Overwriting part of a file in a transaction with room for the blocks
    it touches: [writei] stores every byte and returns their number, a
    [readi] of the same range then returns exactly what was written, every
    other byte of the file keeps its value, no block outside the file
    changes, and the disk itself is not written before the commit. *)
Theorem writei_then_readi s a ip i src off start size :
  let sz := di_size (i_din i) in let k := (sz + BSIZE - 1) / BSIZE in
  txn (fs_log s) a start size -> held a = ∅ -> LOGSIZE < capacity ->
  locked_at s ip i -> laid_out (i_din i) (view a) k start size ->
  0 <= off -> off + zlen src <= sz -> sz < 2 ^ 63 ->
  log_room (fs_log s) size (spanned off (zlen src)) ->
  exists l a' b, writei ip src off s = Ret (Ok (zlen src), put_log l s) /\
    txn l a' start size /\ media a' = media a /\
    readi ip (zlen src) off (put_log l s) = Ret (Ok src, set_bl b (put_log l s)) /\
    (forall p, 0 <= p < sz -> p < off \/ off + zlen src <= p ->
       file_byte (i_din i) (view a') p = file_byte (i_din i) (view a) p) /\
    (forall n, (forall bn, 0 <= bn < k -> n <> block_of (i_din i) (view a) bn) -> view a' n = view a n).
Proof.
  intros sz k Ht Hh Hcap Hlk Hlo Hoff Hend Hsz Hroom.
  assert (BSIZE = 4096 /\ MAXFILE = 524 /\ LOGSIZE = 511) as (HB & HM & HL) by done. pose proof (zlen_nonneg src) as Hz.
  assert (Hk : sz <= k * BSIZE /\ k <= MAXFILE).
  { split; [|by destruct Hlo as [(_ & ? & _) _ _ _]].
    pose proof (Z.div_mod (sz + BSIZE - 1) BSIZE ltac:(lia)) as Hdm. fold k in Hdm.
    pose proof (Z.mod_pos_bound (sz + BSIZE - 1) BSIZE ltac:(lia)). lia. }
  pose proof (isize_run s ip i (proj1 Hlk)) as Esz. fold sz in Esz.
  assert (wrap 64 (off + zlen src) <? off = false) as Hwrap.
  { apply Z.ltb_ge. unfold wrap. rewrite Z.mod_small by lia. lia. }
  pose proof (spanned_bound off (zlen src) Hoff Hz).
  assert (0 <= zlen src / BSIZE) by (apply Z.div_pos; lia).
  destruct (writei_loop_run (blocks_touched (zlen src)) s a ip i src off k start size)
    as (l & a' & E & T & Hh' & Hmd & Hst & Hlo' & Hoth & Hbyte); try done; [lia|unfold blocks_touched; lia|].
  assert (locked_at (put_log l s) ip i) as Hlk' by done.
  pose proof (isize_run (put_log l s) ip i (proj1 Hlk')) as Esz'. fold sz in Esz'.
  pose proof (txn_dirty_size _ _ _ _ T) as Hdsz. pose proof (tx_wf _ _ _ _ T) as [_ Hwl].
  destruct (readi_run (put_log l s) a' ip i (zlen src) off (tx_rep _ _ _ _ T) Hh' ltac:(lia) Hlk' ltac:(lia)
    ltac:(lia) ltac:(lia) (lo_mapped _ _ _ _ _ Hlo')) as (b & Er & _). fold sz in Er.
  rewrite Z.min_l in Er by lia.
  assert (zlen (contents (i_din i) (view a')) = sz) as Hc by (apply zlen_contents; unfold sz in *; lia).
  assert (zslice (contents (i_din i) (view a')) off (off + zlen src) = src) as Hsrc.
  { apply znth_ext; [rewrite zlen_zslice; lia|]. intros x Hx. rewrite zlen_zslice in Hx by lia.
    rewrite znth_zslice, znth_contents by (unfold sz in *; lia). rewrite Hbyte by lia.
    rewrite bool_decide_eq_true_2 by lia. replace (off + x - off) with x by lia.
    by destruct (znth_lt src x) as [y ->]; [lia|]. }
  rewrite Hsrc in Er.
  exists l, a', b. split; [|split; [done|split; [done|split; [done|split; [|done]]]]].
  - unfold writei. rewrite (bind_run _ _ _ _ _ Esz). rewrite (proj2 (Z.ltb_ge sz off)), Hwrap by lia.
    rewrite (proj2 (Z.ltb_ge (MAXFILE * BSIZE) _)) by lia. rewrite (try_run _ _ _ _ _ E).
    rewrite (bind_run _ _ _ _ _ Esz'), (proj2 (Z.ltb_ge sz (off + zlen src))), andb_false_r by lia. done.
  - intros p Hp Hout. rewrite Hbyte by lia. by rewrite bool_decide_eq_false_2 by lia.
Qed.
End file.
