(* ===== verification/Icache.v ===== *)
(** The inode cache: [Inode::get] and [Inode::dup] keep at most one entry per
    inode in use. *)
From stdpp Require Import base list gmap strings.
From Stdlib Require Import ZArith Lia.
From S2P Require Import Prelude.
From S2P Require Import Arch.
From S2P Require Import Sleeplock.
From S2P Require Import BlockLayer.
From S2P Require Import Fslog.
From S2P Require Import FsLayout.
From S2P Require Import Fs.

Definition refers (dev inum : Z) (i : Inode) : Prop := 0 < i_ref i /\ i_dev i = dev /\ i_inum i = inum.

(** No inode is cached twice, and the counts fit their 32 bits with room. *)
Record icache_ok (c : list Inode) : Prop := {
  ic_unique : forall k k' i i', c.[k] = Some i -> c.[k'] = Some i' ->
    0 < i_ref i -> refers (i_dev i) (i_inum i) i' -> k = k';
  ic_count : forall k i, c.[k] = Some i -> 0 <= i_ref i < 2 ^ 32 - 1 }.

Section icache.
Context {S : Type} `{BlockOps S}.
Implicit Types (s : Fs S).

Lemma inode_at_znth s k i : (fs_icache s).[k] = Some i -> inode_at k s = Ret (i, s).
Proof. intros E. unfold inode_at. rewrite bind_gets. cbn [id]. by rewrite E. Qed.

Lemma upd_inode_run s k i f :
  (fs_icache s).[k] = Some i -> upd_inode k f s = Ret (tt, put_icache (fs_icache s).[k <- f i] s).
Proof. intros E. unfold upd_inode. by rewrite (bind_run _ _ _ _ _ (inode_at_znth _ _ _ E)). Qed.

Lemma add_ref_run r : 0 <= r < 2 ^ 32 - 1 -> add_ovf 32 r 1 = Ret (r + 1).
Proof. intros Hr. unfold add_ovf. rewrite (proj2 (Z.ltb_lt _ _)); [done|lia]. Qed.

(** A claimed entry. *)
Definition claimed (dev inum : Z) (sb : Superblock) (i : Inode) : Inode :=
  set_valid false (set_ref (i_ref i + 1) (set_meta dev inum sb i)).

Lemma iget_hit s dev inum sb k i :
  icache_ok (fs_icache s) -> (fs_icache s).[k] = Some i -> refers dev inum i ->
  iget dev inum sb s = Ret (Ok k, put_icache (fs_icache s).[k <- set_ref (i_ref i + 1) i] s).
Proof.
  intros [Hu Hc] Hk (Hr & Hd & Hn). unfold iget. rewrite bind_gets.
  destruct (position _ (fs_icache s)) as [n|] eqn:E.
  - apply position_znth in E as (i' & Hi' & Hp). bool_to_prop. subst.
    assert (k = Z.of_nat n) as -> by (eapply Hu; [exact Hk|exact Hi'|done|split; [lia|split; congruence]]).
    rewrite Hk in Hi'. injection Hi' as <-.
    rewrite (bind_run _ _ _ _ _ (inode_at_znth _ _ _ Hk)), (bind_lift _ _ _ _ (add_ref_run _ (Hc _ _ Hk))).
    by rewrite (bind_run _ _ _ _ _ (upd_inode_run _ _ _ _ Hk)).
  - exfalso. apply position_None in E. rewrite Forall_lookup in E.
    apply znth_Some in Hk as [_ Hk]. specialize (E _ _ Hk).
    rewrite (proj2 (Z.ltb_lt 0 (i_ref i)) Hr), Hd, Hn, !Z.eqb_refl in E. done.
Qed.

Lemma iget_miss s dev inum sb :
  icache_ok (fs_icache s) -> (forall k i, (fs_icache s).[k] = Some i -> ~ refers dev inum i) ->
  (exists k i, (fs_icache s).[k] = Some i /\ i_ref i = 0 /\
     iget dev inum sb s = Ret (Ok k, put_icache (fs_icache s).[k <- claimed dev inum sb i] s)) \/
  ((forall k i, (fs_icache s).[k] = Some i -> 0 < i_ref i) /\
   iget dev inum sb s = Ret (Err "Inode::get: no inodes", s)).
Proof.
  intros [Hu Hc] Hmiss. unfold iget. rewrite bind_gets.
  destruct (position (fun i => (0 <? i_ref i) && (i_dev i =? dev) && (i_inum i =? inum)) (fs_icache s)) as [n|] eqn:E.
  { exfalso. apply position_znth in E as (i & Hi & Hp). bool_to_prop. by eapply Hmiss; [exact Hi|split]. }
  destruct (position (fun i => i_ref i =? 0) (fs_icache s)) as [n|] eqn:E0.
  - left. apply position_znth in E0 as (i & Hi & Hp). apply Z.eqb_eq in Hp.
    exists (Z.of_nat n), i. split; [done|]. split; [done|].
    pose proof (znth_range _ _ _ Hi) as Hr. set (c := fs_icache s) in *.
    rewrite (bind_run _ _ _ _ _ (upd_inode_run s _ _ (set_meta dev inum sb) Hi)).
    set (s1 := put_icache _ s).
    assert (H1 : (fs_icache s1).[Z.of_nat n] = Some (set_meta dev inum sb i)) by (by apply znth_zset_eq).
    rewrite (bind_run _ _ _ _ _ (inode_at_znth _ _ _ H1)). cbn [i_ref set_meta].
    rewrite (bind_lift _ _ _ _ (add_ref_run _ (Hc _ _ Hi))).
    rewrite (bind_run _ _ _ _ _ (upd_inode_run s1 _ _ (set_ref (i_ref i + 1)) H1)).
    set (s2 := put_icache _ s1).
    assert (H2 : (fs_icache s2).[Z.of_nat n] = Some (set_ref (i_ref i + 1) (set_meta dev inum sb i))).
    { apply znth_zset_eq. cbn. rewrite zlen_zset. done. }
    rewrite (bind_run _ _ _ _ _ (upd_inode_run s2 _ _ (set_valid false) H2)).
    unfold s2, s1. cbn. by rewrite !zset_zset.
  - right. split; [|done]. intros k i Hk. apply position_None in E0. rewrite Forall_lookup in E0.
    pose proof (Hc _ _ Hk). apply znth_Some in Hk as [_ Hk]. specialize (E0 _ _ Hk). cbn in E0. lia.
Qed.

Lemma refers_or_not (c : list Inode) dev inum :
  (exists k i, c.[k] = Some i /\ refers dev inum i) \/ (forall k i, c.[k] = Some i -> ~ refers dev inum i).
Proof.
  destruct (position (fun i => (0 <? i_ref i) && (i_dev i =? dev) && (i_inum i =? inum)) c) as [n|] eqn:E.
  - left. apply position_znth in E as (i & Hi & Hp). bool_to_prop. exists (Z.of_nat n), i. by split.
  - right. intros k i Hk (Hr & Hd & Hn). apply position_None in E. rewrite Forall_lookup in E.
    apply znth_Some in Hk as [_ Hk]. specialize (E _ _ Hk). cbn in E.
    rewrite (proj2 (Z.ltb_lt 0 (i_ref i)) Hr), Hd, Hn, !Z.eqb_refl in E. done.
Qed.

(** The outcomes of [Inode::get]. *)
Lemma iget_cases s dev inum sb :
  icache_ok (fs_icache s) ->
  (exists k i j, (fs_icache s).[k] = Some i /\
     iget dev inum sb s = Ret (Ok k, put_icache (fs_icache s).[k <- j] s) /\
     i_ref j = i_ref i + 1 /\ refers dev inum j /\
     (refers dev inum i /\ j = set_ref (i_ref i + 1) i \/
      i_ref i = 0 /\ j = claimed dev inum sb i /\ forall k i, (fs_icache s).[k] = Some i -> ~ refers dev inum i)) \/
  (iget dev inum sb s = Ret (Err "Inode::get: no inodes", s) /\
   forall k i, (fs_icache s).[k] = Some i -> 0 < i_ref i /\ ~ refers dev inum i).
Proof.
  intros Hok. destruct (refers_or_not (fs_icache s) dev inum) as [(k & i & Hk & Href)|Hmiss].
  - left. exists k, i, (set_ref (i_ref i + 1) i). pose proof Href as (Hr & Hd & Hn).
    split; [done|]. split; [by apply iget_hit|]. split; [done|]. split; [split; cbn; [lia|done]|by left].
  - destruct (iget_miss s dev inum sb Hok Hmiss) as [(k & i & Hk & Hr0 & E)|[Hall E]].
    + left. exists k, i, (claimed dev inum sb i). do 3 (split; [done|]). split; [split; cbn; [lia|done]|by right].
    + right. split; [done|]. intros k i Hk. split; [by eapply Hall|by eapply Hmiss].
Qed.

(** [Inode::get] returns an entry that refers to the inode asked for,
    counts the new reference, keeps every other entry, and never creates a
    second entry for an inode in use: the cache stays free of duplicates.
    An entry already in use keeps its contents; a fresh one starts invalid.
    It fails exactly when the inode is not cached and no entry is free. *)
Theorem iget_keeps_entries_unique s dev inum sb :
  icache_ok (fs_icache s) -> (forall k i, (fs_icache s).[k] = Some i -> i_ref i < 2 ^ 32 - 2) ->
  (exists k i i' s', iget dev inum sb s = Ret (Ok k, s') /\
     (fs_icache s).[k] = Some i /\ fs_icache s' = (fs_icache s).[k <- i'] /\
     i_ref i' = i_ref i + 1 /\ refers dev inum i' /\
     (refers dev inum i /\ i_din i' = i_din i /\ i_valid i' = i_valid i \/
      i_ref i = 0 /\ i_valid i' = false) /\
     icache_ok (fs_icache s')) \/
  (iget dev inum sb s = Ret (Err "Inode::get: no inodes", s) /\
   forall k i, (fs_icache s).[k] = Some i -> 0 < i_ref i /\ ~ refers dev inum i).
Proof.
  intros Hok Hlt. set (c := fs_icache s) in *. pose proof Hok as [Hu Hc].
  destruct (refers_or_not c dev inum) as [(k & i & Hk & Href)|Hmiss].
  - left. exists k, i, (set_ref (i_ref i + 1) i), (put_icache c.[k <- set_ref (i_ref i + 1) i] s).
    pose proof (znth_range _ _ _ Hk) as Hr. pose proof Href as (Hr0 & Hd & Hn).
    split; [by apply iget_hit|]. split; [done|]. split; [done|]. split; [done|].
    split; [split; cbn; [lia|done]|]. split; [by left|]. split; cbn.
    + intros j j' x x' Hj Hj' Hx (Hx1 & Hx2 & Hx3).
      apply (znth_zset_inv c) in Hj; [|done]. apply (znth_zset_inv c) in Hj'; [|done].
      destruct Hj as [[-> ->]|[Hj Ej]], Hj' as [[-> ->]|[Hj' Ej']]; try done; cbn in *.
      * symmetry. eapply (Hu j' k x' i); [done|done|done|]. split; [lia|]. by rewrite Hx2, Hx3.
      * eapply (Hu j k x i); [done|done|done|]. split; [lia|]. done.
      * by eapply (Hu j j' x x').
    + intros j x Hj. apply (znth_zset_inv c) in Hj as [[-> ->]|[_ Hj]]; [|by eapply Hc|done].
      cbn. specialize (Hlt _ _ Hk). lia.
  - destruct (iget_miss s dev inum sb Hok Hmiss) as [(k & i & Hk & Hr0 & E)|[Hall E]].
    + left. exists k, i, (claimed dev inum sb i), (put_icache c.[k <- claimed dev inum sb i] s).
      pose proof (znth_range _ _ _ Hk) as Hr.
      split; [done|]. split; [done|]. split; [done|]. split; [done|].
      split; [split; cbn; [lia|done]|]. split; [by right|]. split; cbn.
      * intros j j' x x' Hj Hj' Hx (Hx1 & Hx2 & Hx3).
        apply (znth_zset_inv c) in Hj; [|done]. apply (znth_zset_inv c) in Hj'; [|done].
        destruct Hj as [[-> ->]|[Hj Ej]], Hj' as [[-> ->]|[Hj' Ej']]; try done; cbn in *.
        -- exfalso. by apply (Hmiss j' x' Ej').
        -- exfalso. apply (Hmiss j x Ej). by split; [|split].
        -- by eapply (Hu j j' x x').
      * intros j x Hj. apply (znth_zset_inv c) in Hj as [[-> ->]|[_ Hj]]; [|by eapply Hc|done].
        cbn. rewrite Hr0. lia.
    + right. split; [done|]. intros k i Hk. split; [by eapply Hall|by eapply Hmiss].
Qed.
End icache.
