(* ===== verification/FsOnBio.v ===== *)
(** The file system running on the log and the buffer cache: concrete
    instances of its theorems. *)
From stdpp Require Import base list gmap strings fin_sets.
From Stdlib Require Import ZArith Lia.
From S2P Require Import Prelude.
From S2P Require Import Arch.
From S2P Require Import Sleeplock.
From S2P Require Import BlockLayer.
From S2P Require Import Bio.
From S2P Require Import Fslog.
From S2P Require Import FslogCrash.
From S2P Require Import FslogSpec.
From S2P Require Import LogOnBio.
From S2P Require Import FsLayout.
From S2P Require Import Fs.
From S2P Require Import FsSpec.
From S2P Require Import FsFile.
From S2P Require Import Icache.

(** A device of 100 blocks with its bitmap in block 200 and the log at 1000. *)
Definition small_sb : Superblock := mkSuperblock 100 0 0 511 1000 0 200.

Definition fill (x : Z) : Z -> list Z := fun _ => zrep BSIZE x.

(** A process in a transaction that has logged nothing yet. *)
Definition in_op (s : Bio) (ic : list Inode) : Fs Bio :=
  mkFs (mkLogged s (set_metadata ROOTDEV 1000 511 Log_new) (mkLogState 1 false)) ic small_sb 1 0.

Lemma fill_bio x : exists s : Bio, rep s (fresh_dev (fill x)).
Proof.
  destruct (init_represents (zrep BSIZE 0) 1 (fill x)) as (c & _ & Hr);
    [by apply zlen_rep|done|intros; by apply zlen_rep|]. by eexists.
Qed.

Lemma in_op_txn s ic d : rep s (fresh_dev d) -> txn (fs_log (in_op s ic)) (fresh_dev d) 1000 511.
Proof.
  intros Hr. split; try done.
  - split; [done|]. split; [done|]. split; [apply NoDup_nil_2|]. split; [constructor|].
    split; [done|]. split; [done|]. by intros b ?%not_elem_of_nil.
  - intros b. split; [by intros ?%not_elem_of_empty|by intros ?%not_elem_of_nil].
Qed.

Lemma small_bitmap_ok : bitmap_ok small_sb 1000 511.
Proof.
  split; [done|done|]. intros b Hb. cbn in Hb. change (bmap_start small_sb) with 200.
  rewrite Z.div_small by (change BPB with 32768; lia). split; lia.
Qed.

Lemma small_alloc_ok d : alloc_ok small_sb 1000 511 (fresh_dev d).
Proof.
  split.
  - intros b Hb _. cbn in Hb. split; [split; lia|]. split; [|done].
    intros (b' & Hb' & E). cbn in Hb'. change (bmap_start small_sb) with 200 in E.
    rewrite Z.div_small in E by (change BPB with 32768; lia). lia.
  - intros n h _. done.
Qed.

Lemma no_entry_room s ic : log_room (fs_log (in_op s ic)) 511 2.
Proof. done. Qed.

Lemma fresh_room d : 0 + 1 + Z.of_nat (base.size (held (fresh_dev d))) < capacity (S := Bio).
Proof. cbn [held fresh_dev]. rewrite map_size_empty. done. Qed.

Lemma balloc_allocates_witness :
  exists (s s' : Fs Bio) b, balloc ROOTDEV small_sb s = Ret (Ok b, s') /\ 0 <= b < 100.
Proof.
  destruct (fill_bio 0) as [s Hr].
  destruct (balloc_allocates small_sb 1000 511 small_bitmap_ok (in_op s []) (fresh_dev (fill 0)))
    as (l & _ & [(b & a' & E & Hb & _)|(_ & _ & Hall)]).
  - by apply in_op_txn.
  - apply small_alloc_ok.
  - apply no_entry_room.
  - apply fresh_room.
  - exists (in_op s []), (put_log l (in_op s [])), b. split; [exact E|exact Hb].
  - exfalso. specialize (Hall 5 ltac:(cbn; lia)). vm_compute in Hall. discriminate.
Defined.

Lemma bfree_frees_witness :
  exists (s s' : Fs Bio), bfree ROOTDEV 7 small_sb s = Ret (tt, s').
Proof.
  destruct (fill_bio 255) as [s Hr].
  pose proof (bfree_frees small_sb 1000 511 small_bitmap_ok (in_op s []) (fresh_dev (fill 255)) 7) as H.
  assert (used small_sb (view (fresh_dev (fill 255))) 7 = true) as Hu by (vm_compute; reflexivity).
  rewrite Hu in H. destruct H as (l & a' & E & _).
  - by apply in_op_txn.
  - cbn. lia.
  - done.
  - split; cbn; done.
  - cbn [held fresh_dev]. rewrite map_size_empty. done.
  - exists (in_op s []), (put_log l (in_op s [])). exact E.
Defined.

(** A file of 5000 bytes in blocks 10 and 11, locked by the process. *)
Definition two_blocks : Inode :=
  mkInode ROOTDEV 1 (Some small_sb) 1 (mkSleeplock true 1) true
    (mkDInode 2 0 0 1 5000 ([10; 11] ++ zrep 11 0)).

Lemma two_blocks_mapped v : mapped (i_din two_blocks) v 2.
Proof.
  split; [done|]. split; [done|]. intros bn Hbn.
  assert (bn = 0 \/ bn = 1) as [-> | ->] by lia; (split; [done|intros Hbad; exfalso; revert Hbad; done]).
Qed.

Lemma two_blocks_laid_out v : laid_out (i_din two_blocks) v 2 1000 511.
Proof.
  split; [apply two_blocks_mapped|..].
  - intros bn bn' H1 H2. assert (bn = 0 \/ bn = 1) as [-> | ->] by lia;
      assert (bn' = 0 \/ bn' = 1) as [-> | ->] by lia; done.
  - intros bn Hbn. assert (bn = 0 \/ bn = 1) as [-> | ->] by lia; done.
  - intros bn Hbn. assert (bn = 0 \/ bn = 1) as [-> | ->] by lia; (split; [split; [done|by left]|done]).
Qed.

Lemma readi_reads_file_witness :
  exists (s s' : Fs Bio) r, readi 0 100 4096 s = Ret (Ok r, s') /\ zlen r = 100.
Proof.
  destruct (fill_bio 3) as [s Hr].
  pose proof (readi_reads_file (in_op s [two_blocks]) (fresh_dev (fill 3)) 0 two_blocks 100 4096) as H.
  cbn zeta in H. change (di_size (i_din two_blocks) <? 4096) with false in H.
  change (wrap 64 (4096 + 100) <? 4096) with false in H. cbv iota in H.
  destruct H as (b & r & E & _ & Hl & _).
  - exact Hr.
  - done.
  - cbn [dirty fresh_dev]. rewrite size_empty. done.
  - by repeat split; eexists.
  - lia.
  - lia.
  - exact (two_blocks_mapped _).
  - exists (in_op s [two_blocks]), (set_bl b (in_op s [two_blocks])), r. split; [exact E|]. rewrite Hl. done.
Defined.

Lemma writei_then_readi_witness :
  exists (s s' s'' : Fs Bio), writei 0 (zrep 8 9) 4092 s = Ret (Ok 8, s') /\
    readi 0 8 4092 s' = Ret (Ok (zrep 8 9), s'').
Proof.
  destruct (fill_bio 3) as [s Hr].
  destruct (writei_then_readi (in_op s [two_blocks]) (fresh_dev (fill 3)) 0 two_blocks (zrep 8 9) 4092 1000 511)
    as (l & a' & b & E & _ & _ & Er & _).
  - by apply in_op_txn.
  - done.
  - exact nbuf_room.
  - by repeat split; eexists.
  - exact (two_blocks_laid_out _).
  - lia.
  - done.
  - done.
  - split; done.
  - exists (in_op s [two_blocks]), (put_log l (in_op s [two_blocks])), (set_bl b (put_log l (in_op s [two_blocks]))).
    split; [exact E|exact Er].
Defined.

Lemma iget_keeps_entries_unique_witness :
  exists (s s' : Fs Bio) k, iget ROOTDEV 1 small_sb s = Ret (Ok k, s') /\ icache_ok (fs_icache s').
Proof.
  destruct (fill_bio 0) as [s Hr]. set (s0 := in_op s [two_blocks; Inode_new]).
  assert (Hcase : forall k i, (fs_icache s0).[k] = Some i -> k = 0 /\ i = two_blocks \/ k = 1 /\ i = Inode_new).
  { intros k i Hk. pose proof (znth_range _ _ _ Hk) as Hkr. unfold zlen in Hkr. cbn in Hkr.
    assert (k = 0 \/ k = 1) as [-> | ->] by lia; injection Hk as <-; auto. }
  destruct (iget_keeps_entries_unique s0 ROOTDEV 1 small_sb) as [(k & i & i' & s' & E & _ & _ & _ & _ & _ & Hok)|[_ Hall]].
  - split.
    + intros k k' i i' Hk Hk' Hi (Hr1 & _). apply Hcase in Hk as [[-> ->]|[-> ->]], Hk' as [[-> ->]|[-> ->]]; done.
    + intros k i Hk. apply Hcase in Hk as [[-> ->]|[-> ->]]; done.
  - intros k i Hk. apply Hcase in Hk as [[-> ->]|[-> ->]]; done.
  - exists s0, s', k. split; [exact E|exact Hok].
  - exfalso. destruct (Hall 0 two_blocks eq_refl) as [_ Hn]. by apply Hn.
Defined.
