(* ===== verification/FsGrow.v ===== *)
(** Writing past the end of a file, [Inode::writei] with the allocation of
    [bmap]'s direct and indirect blocks: what the file holds afterwards, and
    that nothing that belongs to another file changes. *)
From stdpp Require Import base list gmap strings fin_sets.
From Stdlib Require Import ZArith Lia.
From S2P Require Import Prelude.
From S2P Require Import Arch.
From S2P Require Import Sleeplock.
From S2P Require Import BlockLayer.
From S2P Require Import Fslog.
From S2P Require Import FslogCrash.
From S2P Require Import FslogSpec.
From S2P Require Import FsLayout.
From S2P Require Import Fs.
From S2P Require Import FsSpec.
From S2P Require Import FsFile.

(** The address in slot [bn] of a disk inode, 0 if none. *)
Definition addr (d : DInode) (bn : Z) : Z := default 0 (di_addrs d).[bn].

(** The block numbers an inode leads to, one per slot: the direct addresses in
    slots 0 to 11, the indirect block in slot 12 and its words from slot 13 on.
    Block [bn] of the file is in slot [slot_of bn]. *)
Definition slot (d : DInode) (v : Z -> list Z) (k : Z) : Z :=
  if k <=? NDIRECT then addr d k
  else if (addr d NDIRECT =? 0) || (MAXFILE <? k) then 0
  else get_word (v (addr d NDIRECT)) (k - NDIRECT - 1).
Definition slot_of (bn : Z) : Z := if bn <? NDIRECT then bn else bn + 1.

Lemma slot_direct d v k : k <= NDIRECT -> slot d v k = addr d k.
Proof. intros Hk. unfold slot. by rewrite (proj2 (Z.leb_le k NDIRECT)). Qed.

Lemma slot_word d v k :
  NDIRECT < k <= MAXFILE -> addr d NDIRECT <> 0 -> slot d v k = get_word (v (addr d NDIRECT)) (k - NDIRECT - 1).
Proof.
  intros Hk Hz. unfold slot. rewrite (proj2 (Z.leb_gt k NDIRECT)), (proj2 (Z.eqb_neq _ _) Hz), (proj2 (Z.ltb_ge MAXFILE k)) by lia.
  done.
Qed.

Lemma slot_none d v k : NDIRECT < k -> addr d NDIRECT = 0 \/ MAXFILE < k -> slot d v k = 0.
Proof.
  intros Hk Hz. unfold slot. rewrite (proj2 (Z.leb_gt k NDIRECT)) by lia.
  destruct Hz as [->|Hz]; [done|]. by rewrite (proj2 (Z.ltb_lt MAXFILE k)), orb_true_r.
Qed.

Lemma slot_indirect d v k : NDIRECT < k -> slot d v k <> 0 -> addr d NDIRECT <> 0.
Proof. intros Hk Hs E. apply Hs. apply slot_none; [done|by left]. Qed.

(** Only the indirect block matters to the slots. *)
Lemma slot_ext d v v' k :
  (addr d NDIRECT <> 0 -> v' (addr d NDIRECT) = v (addr d NDIRECT)) -> slot d v' k = slot d v k.
Proof.
  intros E. unfold slot. destruct (k <=? NDIRECT); [done|]. destruct (Z.eqb_spec (addr d NDIRECT) 0); [done|].
  by rewrite E.
Qed.

Lemma slot_of_inj bn bn' : slot_of bn = slot_of bn' -> bn = bn'.
Proof. unfold slot_of. destruct (Z.ltb_spec bn NDIRECT), (Z.ltb_spec bn' NDIRECT); lia. Qed.
Lemma slot_of_ne bn : slot_of bn <> NDIRECT.
Proof. unfold slot_of. destruct (Z.ltb_spec bn NDIRECT); lia. Qed.

Lemma block_of_slot d v bn :
  0 <= bn < MAXFILE -> slot d v (slot_of bn) <> 0 -> block_of d v bn = slot d v (slot_of bn).
Proof.
  intros Hb. unfold block_of, slot_of, addr. destruct (Z.ltb_spec bn NDIRECT).
  - by rewrite slot_direct by lia.
  - intros Hs. rewrite slot_word; [|lia|by eapply slot_indirect, Hs; lia]. unfold addr. f_equal. lia.
Qed.

Lemma file_byte_slot d v p :
  0 <= p < MAXFILE * BSIZE -> slot d v (slot_of (p / BSIZE)) <> 0 ->
  file_byte d v p = (v (slot d v (slot_of (p / BSIZE)))).[p mod BSIZE].
Proof.
  intros Hp Hs. unfold file_byte. rewrite block_of_slot; [done| |done].
  split; [apply Z.div_pos; [lia|done]|]. apply Z.div_lt_upper_bound; [done|]. lia.
Qed.

Lemma addr_set d bn x k :
  0 <= bn < zlen (di_addrs d) ->
  addr (with_addrs (di_addrs d).[bn <- x] d) k = if k =? bn then x else addr d k.
Proof.
  intros Hb. unfold addr. cbn [di_addrs with_addrs]. destruct (Z.eqb_spec k bn) as [->|Hne].
  - by rewrite znth_zset_eq.
  - by rewrite znth_zset_ne.
Qed.

Section grow.
Context {S : Type} `{BL : BlockLaws S}.
Context (sb : Superblock) (start size : Z) (Hbm : bitmap_ok sb start size).
Implicit Types (s : Fs S) (a : Dev) (d : DInode).

(** The block of the inode table that holds inode [inum]. *)
Definition inode_block (inum : Z) : Z := inum / IPB + inode_start sb.

(** A block a file may own: on the device, outside the log, the bitmap and
    the inode's block, and marked used. *)
Record owned (a : Dev) (inum x : Z) : Prop := {
  ow_range : 0 < x < sb_size sb;
  ow_out : outside start size x;
  ow_used : used sb (view a) x = true;
  ow_bitmap : ~ bitmap_block sb x;
  ow_inode : x <> inode_block inum }.

(** The inode [inum] with contents [d] on the device [a]. *)
Record inode_ok (a : Dev) (inum : Z) (d : DInode) : Prop := {
  io_dinode : dinode_ok d;
  io_owned : forall k, slot d (view a) k <> 0 -> owned a inum (slot d (view a) k);
  io_inj : forall k k', slot d (view a) k <> 0 -> slot d (view a) k = slot d (view a) k' -> k = k';
  io_iblock : 0 <= inode_block inum < 2 ^ 64 /\ outside start size (inode_block inum) /\ ~ bitmap_block sb (inode_block inum);
  io_iused : inode_block inum < sb_size sb -> used sb (view a) (inode_block inum) = true;
  io_zero : 0 < sb_size sb -> used sb (view a) 0 = true }.

(** A process in a transaction, holding the lock of inode [i] and no buffer. *)
Record writing (s : Fs S) (a : Dev) (ip : Z) (i : Inode) : Prop := {
  wg_txn : txn (fs_log s) a start size;
  wg_held : held a = ∅;
  wg_locked : locked_at s ip i;
  wg_sb : i_sb i = Some sb;
  wg_alloc : alloc_ok sb start size a;
  wg_inode : inode_ok a (i_inum i) (i_din i) }.

(** ** What a write does to the file and to the device *)
Record wrote (off : Z) (src : list Z) (inum : Z) (d : DInode) (a : Dev) (d' : DInode) (a' : Dev) : Prop := {
  wr_addrs : exists addrs, d' = with_addrs addrs d;
  wr_keep : forall k, slot d (view a) k <> 0 -> slot d' (view a') k = slot d (view a) k;
  wr_mapped : 0 < zlen src -> forall bn, 0 <= bn < MAXFILE -> bn * BSIZE < off + zlen src -> off < (bn + 1) * BSIZE ->
    slot d' (view a') (slot_of bn) <> 0;
  wr_bytes : forall p, 0 <= p < MAXFILE * BSIZE -> off <= p < off + zlen src \/ slot d (view a) (slot_of (p / BSIZE)) <> 0 ->
    file_byte d' (view a') p =
      if bool_decide (off <= p < off + zlen src) then src.[p - off] else file_byte d (view a) p;
  wr_other : forall n, ~ bitmap_block sb n -> (0 <= n < sb_size sb -> used sb (view a) n = true) ->
    (forall k, slot d (view a) k <> 0 -> n <> slot d (view a) k) -> view a' n = view a n;
  wr_used : forall b, 0 <= b < sb_size sb -> used sb (view a) b = true -> used sb (view a') b = true;
  wr_new : forall k, slot d' (view a') k <> 0 -> slot d (view a) k = 0 ->
    0 <= slot d' (view a') k < sb_size sb /\ used sb (view a) (slot d' (view a') k) = false;
  wr_disk : disk_kept a a' }.

(** Only addresses that blocks in [off, off + n) need have changed. *)
Definition touched (off n : Z) (d d' : DInode) : Prop :=
  forall k, addr d' k <> addr d k ->
    exists bn, 0 <= bn < MAXFILE /\ k = Z.min bn NDIRECT /\ bn * BSIZE < off + n /\ off < (bn + 1) * BSIZE.

Lemma used_ext v v' b :
  v' (b / BPB + bmap_start sb) = v (b / BPB + bmap_start sb) -> used sb v' b = used sb v b.
Proof. intros E. unfold used. by rewrite E. Qed.

(** A store outside the bitmap changes no allocation. *)
Lemma used_store a n x b :
  ~ bitmap_block sb n -> 0 <= b < sb_size sb -> used sb (view (after_store a (n, x))) b = used sb (view a) b.
Proof. intros Hn Hb. apply used_ext. cbn. apply fupd_ne. intros E. apply Hn. by exists b. Qed.

Lemma owned_mono a a' inum x :
  (forall b, 0 <= b < sb_size sb -> used sb (view a) b = true -> used sb (view a') b = true) ->
  owned a inum x -> owned a' inum x.
Proof. intros Hu [H1 H2 H3 H4 H5]. split; try done. apply Hu; [lia|done]. Qed.

Lemma inode_ok_mono a a' inum d :
  (forall b, 0 <= b < sb_size sb -> used sb (view a) b = true -> used sb (view a') b = true) ->
  (addr d NDIRECT <> 0 -> view a' (addr d NDIRECT) = view a (addr d NDIRECT)) ->
  inode_ok a inum d -> inode_ok a' inum d.
Proof.
  intros Hu Hi [H1 H2 H3 H4 H5 H6]. split; try done.
  - intros k. rewrite (slot_ext _ _ _ _ Hi). intros Hk. eapply owned_mono; [done|by apply H2].
  - intros k k'. rewrite !(slot_ext _ _ _ _ Hi). apply H3.
  - intros Hb. apply Hu; [lia|by apply H5].
  - intros Hb. apply Hu; [lia|by apply H6].
Qed.

Lemma alloc_ok_mono a a' :
  (forall b, 0 <= b < sb_size sb -> used sb (view a) b = true -> used sb (view a') b = true) ->
  held a' = held a -> alloc_ok sb start size a -> alloc_ok sb start size a'.
Proof.
  intros Hu Hh [H1 H2]. split; [|by rewrite Hh]. intros b Hb Hf. rewrite Hh. apply H1; [done|].
  destruct (used sb (view a) b) eqn:E; [|done]. by rewrite (Hu b Hb E) in Hf.
Qed.

Lemma used_mark_mono a b :
  (forall n, zlen (view a n) = BSIZE) -> 0 <= b < sb_size sb -> ~ bitmap_block sb b ->
  forall b', 0 <= b' < sb_size sb -> used sb (view a) b' = true -> used sb (view (mark sb a b)) b' = true.
Proof. intros Hlen Hb Hn b' Hb' E. by rewrite used_mark, E. Qed.

Lemma znth_app_cut (l : list Z) m x :
  0 <= m <= zlen l -> m <= x -> (zslice l m (zlen l)).[x - m] = l.[x].
Proof.
  intros Hm Hx. destruct (decide (x < zlen l)).
  - rewrite znth_zslice by lia. f_equal. lia.
  - rewrite !znth_ge; [done|lia|]. rewrite zlen_zslice; lia.
Qed.

(** A write done in two parts. *)
Lemma wrote_trans off src m inum d a d1 a1 d2 a2 :
  0 <= off -> 0 <= m <= zlen src ->
  wrote off (zslice src 0 m) inum d a d1 a1 -> wrote (off + m) (zslice src m (zlen src)) inum d1 a1 d2 a2 ->
  wrote off src inum d a d2 a2.
Proof.
  assert (BSIZE = 4096) as HB by done.
  intros Hoff Hm [A1 K1 M1 B1 O1 U1 N1 D1] [A2 K2 M2 B2 O2 U2 N2 D2].
  rewrite zlen_zslice in M1, B1 by lia. rewrite zlen_zslice in M2, B2 by lia.
  rewrite Z.sub_0_r in *. replace (off + m + (zlen src - m)) with (off + zlen src) in * by lia.
  split.
  - destruct A1 as [as1 ->], A2 as [as2 ->]. by exists as2.
  - intros k Hk. rewrite K2, K1; [done..|by rewrite K1].
  - intros Hs bn Hbn Hlo Hhi. destruct (decide (0 < m /\ bn * BSIZE < off + m)) as [[Hm0 Hc]|Hc].
    + specialize (M1 Hm0 bn Hbn Hc Hhi). by rewrite K2.
    + apply M2; lia.
  - intros p Hp Hin. destruct (decide (off + m <= p < off + zlen src)) as [Hl|Hl].
    + rewrite B2 by (try done; by left). rewrite !bool_decide_eq_true_2 by lia.
      rewrite <-(znth_app_cut src m (p - off)) by lia. f_equal. lia.
    + assert (slot d1 (view a1) (slot_of (p / BSIZE)) <> 0) as Hnz.
      { destruct (decide (off <= p < off + m)) as [Hf|Hf].
        - pose proof (Z.div_mod p BSIZE ltac:(lia)).
          pose proof (Z.mod_pos_bound p BSIZE ltac:(lia)).
          apply M1; [lia| |lia..]. split; [apply Z.div_pos|apply Z.div_lt_upper_bound]; lia.
        - destruct Hin as [Hin|Hin]; [lia|]. by rewrite K1. }
      rewrite B2 by (try done; by right). rewrite bool_decide_eq_false_2 by lia.
      assert (off <= p < off + m \/ slot d (view a) (slot_of (p / BSIZE)) <> 0) as Hin' by (destruct Hin; [left; lia|by right]).
      rewrite (B1 p Hp Hin').
      repeat case_bool_decide; try lia; try done. by rewrite znth_zslice by lia.
  - intros n Hn Hu Ha. rewrite O2; [by apply O1|done|..].
    + intros Hr. apply U1; [done|by apply Hu].
    + intros k Hk ->. destruct (decide (slot d (view a) k = 0)) as [Hz|Hz].
      * destruct (N1 k Hk Hz) as [Hr Hf]. by rewrite (Hu Hr) in Hf.
      * rewrite K1 in Ha by done. by apply (Ha k).
  - intros b Hb Hu. apply U2; [done|]. by apply U1.
  - intros k Hk Hz. destruct (decide (slot d1 (view a1) k = 0)) as [Hz1|Hz1].
    + destruct (N2 k Hk Hz1) as [Hr Hf]. split; [done|].
      destruct (used sb (view a) (slot d2 (view a2) k)) eqn:E; [|done].
      by rewrite (U1 _ Hr E) in Hf.
    + rewrite K2 by done. by apply N1.
  - by etrans.
Qed.

(** ** One block *)

(** The running process's view after [l] replaced the log and [d] the inode. *)
Definition put_din (l : Logged S) (ip : Z) (i : Inode) (d : DInode) (s : Fs S) : Fs S :=
  put_log l (put_icache (fs_icache s).[ip <- set_din d i] s).

Lemma put_din_at l ip i d s :
  (fs_icache s).[ip] = Some i -> (fs_icache (put_din l ip i d s)).[ip] = Some (set_din d i).
Proof. intros E. cbn. apply znth_zset_eq. by eapply znth_range. Qed.

Lemma put_din_locked l ip i d s : locked_at s ip i -> locked_at (put_din l ip i d s) ip (set_din d i).
Proof. intros (E & Hl & Hs & Hd). split; [by apply put_din_at|]. done. Qed.

Lemma put_din_put l l' ip i d d' s :
  put_din l' ip (set_din d i) d' (put_din l ip i d s) = put_din l' ip i d' s.
Proof. unfold put_din. cbn. by rewrite zset_zset. Qed.

Lemma put_din_same l ip i s : (fs_icache s).[ip] = Some i -> put_din l ip i (i_din i) s = put_log l s.
Proof.
  intros E. unfold put_din. destruct i as [x1 x2 x3 x4 x5 x6 x7]. cbn. rewrite zset_id by exact E. by destruct s.
Qed.

Lemma upd_din_run s ip i f :
  (fs_icache s).[ip] = Some i -> upd_din ip f s = Ret (tt, put_din (fs_log s) ip i (f (i_din i)) s).
Proof.
  intros E. unfold upd_din, upd_inode. rewrite (bind_run _ _ _ _ _ (inode_at_run _ _ _ E)).
  rewrite (bind_run _ _ _ _ _ (inode_at_run _ _ _ E)). done.
Qed.

(** ** Storing in a block the file has *)
Lemma slot_store a inum d k0 x k :
  inode_ok a inum d -> k0 <> NDIRECT -> slot d (view a) k0 <> 0 ->
  slot d (view (after_store a (slot d (view a) k0, x))) k = slot d (view a) k.
Proof.
  intros Hio Hk0 Hb. apply slot_ext. intros Hi. cbn. apply fupd_ne. intros E. apply Hk0.
  apply (io_inj _ _ _ Hio); [done|]. rewrite (slot_direct _ _ NDIRECT) by lia. done.
Qed.

Lemma store_ok a inum d k0 x :
  inode_ok a inum d -> k0 <> NDIRECT -> slot d (view a) k0 <> 0 ->
  inode_ok (after_store a (slot d (view a) k0, x)) inum d.
Proof.
  intros Hio Hk0 Hb. apply (inode_ok_mono a); [| |done].
  - intros b' Hb'. rewrite used_store; [done|apply (io_owned _ _ _ Hio _ Hb)|done].
  - intros Hi. cbn. apply fupd_ne. intros E. apply Hk0.
    apply (io_inj _ _ _ Hio); [done|]. rewrite (slot_direct _ _ NDIRECT) by lia. done.
Qed.

Lemma store_wrote a inum d off part :
  inode_ok a inum d -> (forall n, zlen (view a n) = BSIZE) ->
  0 <= off -> off / BSIZE < MAXFILE -> off mod BSIZE + zlen part <= BSIZE ->
  let b := slot d (view a) (slot_of (off / BSIZE)) in b <> 0 ->
  wrote off part inum d a d (after_store a (b, zsplice (view a b) (off mod BSIZE) part)).
Proof.
  intros Hio Hlen Hoff Hq Hp b Hb. assert (BSIZE = 4096) as HB by done. pose proof (zlen_nonneg part) as Hp0.
  pose proof (io_owned _ _ _ Hio _ Hb) as Hown. fold b in Hown.
  pose proof (Z.div_mod off BSIZE ltac:(lia)) as Hdm. pose proof (Z.mod_pos_bound off BSIZE ltac:(lia)) as Hmb.
  pose proof (fun k x => slot_store a inum d (slot_of (off / BSIZE)) x k Hio (slot_of_ne _) Hb) as Hs. fold b in Hs.
  split; try done.
  - exists (di_addrs d). by destruct d.
  - intros _ bn Hbn Hlo Hhi. rewrite Hs. replace bn with (off / BSIZE); [done|].
    symmetry. destruct (decide (bn = off / BSIZE)); [done|]. nia.
  - intros p Hpr Hin.
    pose proof (Z.div_mod p BSIZE ltac:(lia)) as Hdp. pose proof (Z.mod_pos_bound p BSIZE ltac:(lia)) as Hmp.
    assert (slot d (view a) (slot_of (p / BSIZE)) <> 0) as Hnz.
    { destruct Hin as [Hin|Hin]; [|done]. replace (p / BSIZE) with (off / BSIZE); [done|].
      apply Z.div_unique with (p - off / BSIZE * BSIZE); lia. }
    rewrite !file_byte_slot by (rewrite ?Hs; done). rewrite Hs. cbn [view after_store fst snd].
    destruct (decide (p / BSIZE = off / BSIZE)) as [E|E].
    + rewrite E. fold b. rewrite fupd_eq, znth_zsplice_grow by (rewrite Hlen; lia).
      repeat case_bool_decide; try lia; try done. f_equal. lia.
    + assert (~ (off <= p < off + zlen part)) as Hn.
      { intros Hr. apply E. symmetry. apply Z.div_unique with (p - off / BSIZE * BSIZE); lia. }
      rewrite bool_decide_eq_false_2 by done. rewrite fupd_ne; [done|].
      intros Ha. apply E, slot_of_inj. by apply (io_inj _ _ _ Hio).
  - intros n _ _ Hn. cbn. apply fupd_ne. by apply Hn.
  - intros x Hx Hu. rewrite used_store; [done|apply Hown|done].
  - intros k. by rewrite Hs.
Qed.

(** ** Filling a slot with a free block *)
Record slot_filled (k0 b : Z) (d : DInode) (a : Dev) (d1 : DInode) (a1 : Dev) : Prop := {
  sf_addrs : exists addrs, d1 = with_addrs addrs d;
  sf_dinode : dinode_ok d1;
  sf_slot : forall k, slot d1 (view a1) k = if k =? k0 then b else slot d (view a) k;
  sf_used : forall x, 0 <= x < sb_size sb -> used sb (view a1) x = (used sb (view a) x || (x =? b));
  sf_view : forall n, n <> b -> ~ bitmap_block sb n -> (addr d NDIRECT <> 0 -> n <> addr d NDIRECT) -> view a1 n = view a n;
  sf_held : held a1 = held a;
  sf_disk : disk_kept a a1 }.

(** A free block. *)
Definition free_block (a : Dev) (b : Z) : Prop := 0 <= b < sb_size sb /\ used sb (view a) b = false.

Lemma filled_nonzero a inum d b : inode_ok a inum d -> free_block a b -> b <> 0.
Proof. intros Hio [Hb Hu] ->. by rewrite (io_zero _ _ _ Hio) in Hu by lia. Qed.

Lemma filled_fresh a inum d b k : inode_ok a inum d -> free_block a b -> slot d (view a) k <> b.
Proof.
  intros Hio Hf <-. pose proof (filled_nonzero _ _ _ _ Hio Hf) as Hnz. destruct Hf as [_ Hu].
  by rewrite (ow_used _ _ _ (io_owned _ _ _ Hio k Hnz)) in Hu.
Qed.

Lemma filled_used k0 b d a d1 a1 x :
  slot_filled k0 b d a d1 a1 -> 0 <= x < sb_size sb -> used sb (view a) x = true -> used sb (view a1) x = true.
Proof. intros Hs Hx Hu. by rewrite (sf_used _ _ _ _ _ _ Hs x Hx), Hu. Qed.

Lemma filled_ok k0 b inum d a d1 a1 :
  inode_ok a inum d -> alloc_ok sb start size a -> slot d (view a) k0 = 0 -> free_block a b ->
  slot_filled k0 b d a d1 a1 -> inode_ok a1 inum d1 /\ alloc_ok sb start size a1.
Proof.
  intros Hio Hal Hz Hf Hs. pose proof (filled_nonzero _ _ _ _ Hio Hf) as Hb0.
  pose proof (fun k => filled_fresh _ _ _ _ k Hio Hf) as Hfresh. pose proof (fun x => filled_used _ _ _ _ _ _ x Hs) as Hmono.
  destruct Hf as [Hb Hu]. destruct (al_free _ _ _ _ Hal b Hb Hu) as (Hout & Hnb & _).
  split; [|eapply alloc_ok_mono; [exact Hmono|apply Hs|done]]. destruct Hio as [H1 H2 H3 H4 H5 H6].
  assert (forall k, slot d1 (view a1) k = if k =? k0 then b else slot d (view a) k) as Hsl by apply Hs.
  split; [apply Hs|..|done| |].
  - intros k. rewrite Hsl. destruct (Z.eqb_spec k k0) as [->|]; [|intros Hk; by eapply owned_mono, H2].
    intros _. split; try done; [lia| |].
    + rewrite (sf_used _ _ _ _ _ _ Hs b Hb). by rewrite Z.eqb_refl, orb_true_r.
    + intros ->. rewrite H5 in Hu by lia. done.
  - intros k k'. rewrite !Hsl. destruct (Z.eqb_spec k k0) as [->|], (Z.eqb_spec k' k0) as [->|]; try done.
    + intros _ E. by destruct (Hfresh k').
    + intros _ E. by destruct (Hfresh k).
    + apply H3.
  - intros Hi. apply Hmono; [lia|by apply H5].
  - intros Hi. apply Hmono; [lia|by apply H6].
Qed.

Lemma filled_wrote k0 b inum d a d1 a1 off :
  inode_ok a inum d -> slot d (view a) k0 = 0 -> free_block a b -> slot_filled k0 b d a d1 a1 ->
  wrote off [] inum d a d1 a1.
Proof.
  intros Hio Hz Hf Hs. pose proof (fun k => filled_fresh _ _ _ _ k Hio Hf) as Hfresh.
  assert (forall k, slot d1 (view a1) k = if k =? k0 then b else slot d (view a) k) as Hsl by apply Hs.
  assert (forall k, slot d (view a) k <> 0 -> slot d1 (view a1) k = slot d (view a) k) as Hkeep.
  { intros k Hk. rewrite Hsl. by destruct (Z.eqb_spec k k0) as [->|]. }
  change (zlen (@nil Z)) with 0. split; [apply Hs|done| | | |by intros x; eapply filled_used| |apply Hs]; change (zlen (@nil Z)) with 0.
  - lia.
  - intros p Hp [Hin|Hin]; [lia|]. rewrite bool_decide_eq_false_2 by lia.
    rewrite !file_byte_slot by (rewrite ?Hkeep; done). rewrite Hkeep by done. f_equal.
    apply (sf_view _ _ _ _ _ _ Hs); [apply Hfresh|apply (io_owned _ _ _ Hio _ Hin)|].
    intros Hi E. apply (slot_of_ne (p / BSIZE)). apply (io_inj _ _ _ Hio); [done|]. by rewrite (slot_direct _ _ NDIRECT) by lia.
  - intros n Hn Hun Hne. apply (sf_view _ _ _ _ _ _ Hs); [|done|].
    + intros ->. destruct Hf as [Hb Hu]. by rewrite (Hun Hb) in Hu.
    + intros Hi. pose proof (Hne NDIRECT) as H1. rewrite slot_direct in H1 by lia. by apply H1.
  - intros k. rewrite Hsl. by destruct (Z.eqb_spec k k0).
Qed.

Lemma get_word_zero k : 0 <= k -> 8 * k + 8 <= BSIZE -> get_word (zrep BSIZE 0) k = 0.
Proof.
  intros Hk Hl. unfold get_word. assert (zslice (zrep BSIZE 0) (8 * k) (8 * k + 8) = zrep 8 0) as ->; [|done].
  assert (zlen (zrep BSIZE 0) = BSIZE) as Hz by (by apply zlen_rep).
  apply znth_ext; [rewrite zlen_zslice, zlen_rep; lia|]. intros x Hx. rewrite zlen_zslice in Hx by lia.
  rewrite znth_zslice by lia. by rewrite !znth_rep by lia.
Qed.

(** An address of the inode. *)
Lemma mark_filled a inum d bn b :
  inode_ok a inum d -> (forall n, zlen (view a n) = BSIZE) -> alloc_ok sb start size a ->
  0 <= bn <= NDIRECT -> addr d bn = 0 -> free_block a b ->
  slot_filled bn b d a (with_addrs (di_addrs d).[bn <- b] d) (mark sb a b).
Proof.
  intros Hio Hlen Hal Hbn Hz Hf. pose proof (filled_nonzero _ _ _ _ Hio Hf) as Hb0.
  pose proof (fun k => filled_fresh _ _ _ _ k Hio Hf) as Hfresh. pose proof Hf as [Hb Hu].
  destruct (al_free _ _ _ _ Hal b Hb Hu) as (Hout & Hnb & _).
  pose proof (io_dinode _ _ _ Hio) as (D1 & D2 & D3 & D4 & D5 & Hla & Hu64).
  assert (NDIRECT = 12 /\ MAXFILE = 524 /\ BSIZE = 4096) as (HN & HM & HB) by done.
  set (d1 := with_addrs (di_addrs d).[bn <- b] d).
  assert (forall k, addr d1 k = if k =? bn then b else addr d k) as Ha by (intros k; apply addr_set; lia).
  assert (forall n, n <> b -> ~ bitmap_block sb n -> view (mark sb a b) n = view a n) as Hview.
  { intros n Hn Hnbm. unfold mark. cbn. rewrite !fupd_ne; [done| |done]. intros ->. apply Hnbm. by exists b. }
  split; [by eexists| | |by intros x Hx; apply used_mark|by intros n Hn Hnbm _; apply Hview|done|done].
  - repeat (split; [done|]). cbn [di_addrs with_addrs d1]. split; [by rewrite zlen_zset|].
    unfold zset. destruct (_ && _); [|done]. apply Forall_insert; [done|]. destruct Hbm. unfold uN. lia.
  - intros k. destruct (decide (k <= NDIRECT)) as [Hk|Hk]; [by rewrite !slot_direct, Ha by lia|].
    rewrite (proj2 (Z.eqb_neq k bn)) by lia. destruct (decide (MAXFILE < k)) as [Hm|Hm].
    { rewrite !slot_none by (try lia; by right). done. }
    destruct (decide (bn = NDIRECT)) as [->|Hne].
    + assert (addr d1 NDIRECT = b) as Hb1 by (by rewrite Ha, Z.eqb_refl).
      rewrite slot_word, (slot_none d) by (rewrite ?Hb1; try lia; by left). rewrite Hb1.
      unfold mark. cbn [view after_store fst snd]. rewrite fupd_eq. apply get_word_zero; lia.
    + assert (addr d1 NDIRECT = addr d NDIRECT) as Hd1 by (by rewrite Ha, (proj2 (Z.eqb_neq NDIRECT bn)) by lia).
      destruct (decide (addr d NDIRECT = 0)) as [H0|H0].
      { rewrite !slot_none; [done|lia|by left|lia|by left; rewrite Hd1]. }
      rewrite !slot_word by (rewrite ?Hd1; lia). rewrite Hd1, Hview; [done|..].
      * specialize (Hfresh NDIRECT). by rewrite slot_direct in Hfresh by lia.
      * pose proof (io_owned _ _ _ Hio NDIRECT) as Hown. rewrite slot_direct in Hown by lia. by apply Hown.
Qed.

(** A word of the indirect block. *)
Definition word_stored (a : Dev) (x j b : Z) : Dev := after_store (mark sb a b) (x, put_word j b (view a x)).

Lemma word_filled a inum d k0 b :
  inode_ok a inum d -> (forall n, zlen (view a n) = BSIZE) -> alloc_ok sb start size a ->
  NDIRECT < k0 <= MAXFILE -> addr d NDIRECT <> 0 -> slot d (view a) k0 = 0 -> free_block a b ->
  slot_filled k0 b d a d (word_stored a (addr d NDIRECT) (k0 - NDIRECT - 1) b).
Proof.
  intros Hio Hlen Hal Hk0 Hx Hz Hf. pose proof (filled_nonzero _ _ _ _ Hio Hf) as Hb0.
  pose proof Hf as [Hb Hu]. destruct (al_free _ _ _ _ Hal b Hb Hu) as (Hout & Hnb & _).
  assert (NDIRECT = 12 /\ MAXFILE = 524 /\ BSIZE = 4096) as (HN & HM & HB) by done.
  pose proof (io_owned _ _ _ Hio NDIRECT) as Hown. rewrite slot_direct in Hown by lia. specialize (Hown Hx).
  set (x := addr d NDIRECT) in *. set (a1 := word_stored _ _ _ _).
  assert (view a1 x = put_word (k0 - NDIRECT - 1) b (view a x)) as Hvx by apply fupd_eq.
  assert (uN 64 b) by (destruct Hbm; unfold uN; lia).
  split; [exists (di_addrs d); by destruct d|apply Hio| | | |done|done].
  - intros k. destruct (decide (k <= NDIRECT)) as [Hk|Hk].
    { rewrite !slot_direct by lia. by rewrite (proj2 (Z.eqb_neq k k0)) by lia. }
    destruct (decide (MAXFILE < k)) as [Hm|Hm].
    { rewrite !slot_none, (proj2 (Z.eqb_neq k k0)) by (try lia; by right). done. }
    rewrite !slot_word by (try lia; done). fold x. rewrite Hvx. destruct (Z.eqb_spec k k0) as [->|Hne].
    + apply get_put_word; [lia|rewrite Hlen; lia|done].
    + apply get_put_word_ne; rewrite ?Hlen; lia.
  - intros y Hy. unfold a1, word_stored. rewrite used_store by (try done; apply Hown). by apply used_mark.
  - intros n Hn Hnbm Hnx. unfold a1, word_stored, mark. cbn. rewrite !fupd_ne; [done| |done|by apply Hnx].
    intros ->. apply Hnbm. by exists b.
Qed.

(** ** What a write costs the log *)

(** The entries in the log, and those the file's indirect block will still
    take: two to allocate it, one to log it. *)
Definition charge (d : DInode) (a : Dev) : Z :=
  Z.of_nat (base.size (dirty a)) +
  (if addr d NDIRECT =? 0 then 2 else if bool_decide (addr d NDIRECT ∈ dirty a) then 0 else 1).

Lemma charge_bound d a : Z.of_nat (base.size (dirty a)) <= charge d a <= Z.of_nat (base.size (dirty a)) + 2.
Proof. unfold charge. destruct (_ =? 0); [lia|]. case_bool_decide; lia. Qed.

Lemma size_add (n : Z) (X : gset Z) :
  Z.of_nat (base.size ({[n]} ∪ X)) = Z.of_nat (base.size X) + (if bool_decide (n ∈ X) then 0 else 1).
Proof.
  case_bool_decide.
  - rewrite subseteq_union_1_L by set_solver. lia.
  - rewrite size_union, size_singleton by set_solver. lia.
Qed.

Lemma charge_store d a n x :
  charge d (after_store a (n, x)) <= charge d a + (if bool_decide (n ∈ dirty a) then 0 else 1).
Proof.
  unfold charge. cbn [dirty after_store fst]. rewrite size_add.
  destruct (Z.eqb_spec (addr d NDIRECT) 0); repeat case_bool_decide; try lia; set_solver.
Qed.

Lemma charge_indirect d a x : addr d NDIRECT <> 0 -> charge d (after_store a (addr d NDIRECT, x)) <= charge d a.
Proof.
  intros Hi. unfold charge. cbn [dirty after_store fst]. rewrite size_add, (proj2 (Z.eqb_neq _ _) Hi).
  repeat case_bool_decide; try lia; set_solver.
Qed.

Lemma charge_mark d a b : charge d (mark sb a b) <= charge d a + 2.
Proof.
  unfold mark. cbn zeta. etrans; [apply charge_store|]. pose proof (charge_store d a (b / BPB + bmap_start sb)
    (set_bit (view a (b / BPB + bmap_start sb)) (b mod BPB))). repeat case_bool_decide; lia.
Qed.

(** Allocating the indirect block has been charged for. *)
Lemma charge_mark_indirect d d1 a b :
  addr d NDIRECT = 0 -> addr d1 NDIRECT = b -> b <> 0 -> charge d1 (mark sb a b) <= charge d a.
Proof.
  intros H0 H1 Hb. unfold charge. rewrite H0, H1, (proj2 (Z.eqb_neq b 0) Hb), Z.eqb_refl.
  rewrite bool_decide_eq_true_2 by (unfold mark; cbn; set_solver). unfold mark. cbn [dirty after_store fst].
  rewrite !size_add. repeat case_bool_decide; lia.
Qed.

Lemma charge_ext d d1 a : addr d1 NDIRECT = addr d NDIRECT -> charge d1 a = charge d a.
Proof. intros E. unfold charge. by rewrite E. Qed.

(** ** [bmap] *)

(** The end of [bmap] for block [j] of the indirect block [x]. *)
Definition bmap_word (x j : Z) : M (Fs S) (result (result Z)) :=
  bwith ROOTDEV x (fun bp =>
    blk ← bdata bp;
    if get_word blk j =? 0 then
      b <-? balloc ROOTDEV sb ;;
      blk' ← bdata bp;
      bset bp (put_word j b blk');;
      fs_log_write bp;;
      mret (Ok b)
    else mret (Ok (get_word blk j))).

(** Allocating while the indirect block is held. *)
Lemma alloc_hold a h x :
  alloc_ok sb start size a -> held a = ∅ -> used sb (view a) x = true -> ~ bitmap_block sb x ->
  alloc_ok sb start size (dev_hold h x a).
Proof.
  intros [H1 H2] Hh Hu Hn. split; cbn [held dev_hold view]; rewrite Hh.
  - intros b Hb Hf. destruct (H1 b Hb Hf) as (? & ? & _). split; [done|]. split; [done|].
    intros h' [[_ <-]|[_ ?]]%lookup_insert_Some; [by rewrite Hu in Hf|done].
  - intros n h' Hb [[_ <-]|[_ ?]]%lookup_insert_Some; done.
Qed.

Lemma word_run s a inum x j :
  txn (fs_log s) a start size -> held a = ∅ -> alloc_ok sb start size a -> owned a inum x ->
  0 <= j < NINDIRECT -> log_room (fs_log s) size 3 -> LOGSIZE < capacity ->
  let w := get_word (view a x) j in
  exists l, st l = st (fs_log s) /\
  ((w <> 0 /\ bmap_word x j s = Ret (Ok (Ok w), put_log l s) /\ txn l a start size) \/
   (w = 0 /\ exists b, bmap_word x j s = Ret (Ok (Ok b), put_log l s) /\ free_block a b /\
      txn l (word_stored a x j b) start size) \/
   (w = 0 /\ bmap_word x j s = Ret (Ok (Err "balloc: out of blocks"), put_log l s) /\ txn l a start size /\
      forall b, 0 <= b < sb_size sb -> used sb (view a) b = true)).
Proof.
  intros Ht Hh Hal Hown Hj [Hr1 Hr2] Hcap w. pose proof (ow_range _ _ _ Hown) as Hx.
  assert (LOGSIZE = 511 /\ NINDIRECT = 512 /\ BSIZE = 4096) as (HL & HN & HB) by done.
  assert (forall h, held a !! h <> Some x) as Hnh by (intros h; by rewrite Hh, lookup_empty).
  assert (x ∈ dirty a \/ view a x = media a x) as Hclean.
  { destruct (decide (x ∈ dirty a)); [by left|right]. by apply (rep_clean _ _ _ (tx_rep _ _ _ _ Ht)). }
  destruct (f_read s a x _ _ Ht ltac:(lia) Hnh) as (h & l1 & E1 & Hf & T1 & L1 & S1); [rewrite Hh, map_size_empty; lia|].
  assert (bmap_word x j s = (r ← (if w =? 0 then
      b <-? balloc ROOTDEV sb ;; blk' ← bdata h; bset h (put_word j b blk');; fs_log_write h;; mret (Ok b)
    else mret (Ok w)); brelse h;; mret (Ok r)) (put_log l1 s)) as Eb.
  { unfold bmap_word. rewrite (bwith_split _ _ _ _ _ E1). unfold mbind at 1, M_bind at 1.
    by rewrite (bind_run _ _ _ _ _ (f_data (put_log l1 s) _ h x _ _ T1 (held_dev_hold a h x))). }
  destruct (Z.eqb_spec w 0) as [Hw|Hw].
  - destruct (balloc_run sb start size Hbm (put_log l1 s) (dev_hold h x a) T1) as (l2 & S2 & Hres).
    { apply alloc_hold; [done|done|apply Hown|apply Hown]. }
    { split; cbn; rewrite L1; lia. }
    { cbn [held dev_hold fs_log put_log]. rewrite Hh, L1, insert_empty, map_size_singleton. lia. }
    destruct Hres as [(b & E2 & Hb & Hu & _ & T2 & L2)|(E2 & T2 & Hall)].
    + cbn [view dev_hold] in Hu. change (mark sb (dev_hold h x a) b) with (dev_hold h x (mark sb a b)) in T2.
      destruct (al_free _ _ _ _ Hal b Hb Hu) as (Hout & Hnb & _).
      assert (view (mark sb a b) x = view a x) as Hvx.
      { unfold mark. cbn. rewrite !fupd_ne; [done| |].
        - intros E. apply (ow_bitmap _ _ _ Hown). by exists b.
        - intros ->. by rewrite (ow_used _ _ _ Hown) in Hu. }
      pose proof (f_data (put_log l2 s) _ h x _ _ T2 (held_dev_hold _ h x)) as Ed. cbn [view dev_hold] in Ed. rewrite Hvx in Ed.
      pose proof (rep_len _ _ x (tx_rep _ _ _ _ Ht)) as Hlen.
      destruct (f_update (put_log l2 s) (mark sb a b) h x (put_word j b (view a x)) _ _ T2) as (l3 & E3 & T3 & L3 & S3).
      { done. } { rewrite zlen_put_word; lia. } { apply Hown. } { destruct Hbm. unfold uN. lia. }
      { cbn in L2. rewrite L1 in L2. split; cbn; lia. }
      exists l3. cbn in S2, S3. split; [congruence|]. right. left. split; [done|]. exists b. split; [|done].
      rewrite Eb. unfold mbind at 1, M_bind at 1. rewrite (try_run _ _ _ _ _ E2), put_log_put, (bind_run _ _ _ _ _ Ed).
      revert E3. unfold mbind, M_bind. destruct (bset h _ _) as [[[] s1]|e|]; [|done|done].
      destruct (fs_log_write h s1) as [[[] s2]|e|]; [|done|done]. unfold mret, M_ret. by intros ->.
    + destruct (f_relse_clean (put_log l2 s) a h x _ _ T2 Hf Hnh Hclean) as (l3 & E3 & T3 & L3 & S3).
      exists l3. cbn in S2, S3. split; [congruence|]. right. right. split; [done|]. split; [|done].
      rewrite Eb. unfold mbind at 1, M_bind at 1. rewrite (try_err _ _ _ _ _ E2), put_log_put. by rewrite (bind_run _ _ _ _ _ E3).
  - destruct (f_relse_clean (put_log l1 s) a h x _ _ T1 Hf Hnh Hclean) as (l3 & E3 & T3 & L3 & S3).
    exists l3. cbn in S3. split; [congruence|]. left. split; [done|]. split; [|done].
    rewrite Eb, bind_mret. by rewrite (bind_run _ _ _ _ _ E3).
Qed.


(** A step of [bmap]: the file is unchanged but for slots it may have filled,
    reached through address [bn] of the inode. *)
Record mapping (bn : Z) (s : Fs S) (a : Dev) (ip : Z) (i : Inode) (l : Logged S) (a1 : Dev) (d1 : DInode) : Prop := {
  mp_st : st l = st (fs_log s);
  mp_writing : writing (put_din l ip i d1 s) a1 ip (set_din d1 i);
  mp_wrote : forall off, 0 <= off -> wrote off [] (i_inum i) (i_din i) a d1 a1;
  mp_addrs : forall k, addr d1 k <> addr (i_din i) k -> k = bn }.

Lemma set_din_same i : set_din (i_din i) i = i.
Proof. by destruct i. Qed.

Lemma wrote_nothing off inum d a : wrote off [] inum d a d a.
Proof.
  split; try done.
  - exists (di_addrs d). by destruct d.
  - intros p Hp _. rewrite bool_decide_eq_false_2 by (change (zlen (@nil Z)) with 0; lia). done.
Qed.

Lemma mapping_same bn s a ip i l :
  writing s a ip i -> st l = st (fs_log s) -> txn l a start size -> mapping bn s a ip i l a (i_din i).
Proof.
  intros [Ht Hh Hlk Hsb Hal Hio] Hst Hl. pose proof (proj1 Hlk) as Ei.
  split; [done| |intros off _; apply wrote_nothing|done]. rewrite put_din_same, set_din_same by done. by split.
Qed.

Lemma mapping_filled bn k0 b s a ip i l a1 d1 :
  writing s a ip i -> st l = st (fs_log s) -> slot (i_din i) (view a) k0 = 0 -> free_block a b ->
  slot_filled k0 b (i_din i) a d1 a1 -> txn l a1 start size ->
  (forall k, addr d1 k <> addr (i_din i) k -> k = bn) -> mapping bn s a ip i l a1 d1.
Proof.
  intros [Ht Hh Hlk Hsb Hal Hio] Hst Hz Hf Hs Hl Ha. destruct (filled_ok _ _ _ _ _ _ _ Hio Hal Hz Hf Hs) as [Hio1 Hal1].
  split; [done| |intros off _; by eapply filled_wrote|done].
  split; [exact Hl|by rewrite (sf_held _ _ _ _ _ _ Hs)|by apply put_din_locked|done|done|done].
Qed.

Lemma mapping_trans bn s a ip i l a1 d1 l2 a2 d2 :
  mapping bn s a ip i l a1 d1 -> mapping bn (put_din l ip i d1 s) a1 ip (set_din d1 i) l2 a2 d2 ->
  mapping bn s a ip i l2 a2 d2.
Proof.
  intros [S1 W1 R1 A1] [S2 W2 R2 A2]. rewrite put_din_put in W2. cbn in S2, A2. split; [congruence|exact W2| |].
  - intros off Hoff. apply (wrote_trans off [] 0 _ _ _ d1 a1); [done|done|by apply R1|]. rewrite Z.add_0_r. by apply R2.
  - intros k Hk. destruct (decide (addr d1 k = addr (i_din i) k)); [apply A2; congruence|by apply A1].
Qed.

(** Address [bn] of the inode, for a direct block or the indirect one. *)
Lemma bmap_address s a ip i bn x :
  let d := i_din i in
  writing s a ip i -> 0 <= bn <= NDIRECT -> log_room (fs_log s) size 2 -> LOGSIZE < capacity ->
  (di_addrs d).[bn] = Some x ->
  exists r l a1 d1, (if x =? 0 then b <-? balloc ROOTDEV sb ;; upd_din ip (fun d => with_addrs (di_addrs d).[bn <- b] d);; mret (Ok b)
      else mret (Ok x)) s = Ret (r, put_din l ip i d1 s) /\ mapping bn s a ip i l a1 d1 /\
    llen (lg l) <= llen (lg (fs_log s)) + 2 /\
    (forall k, k <> bn -> slot d1 (view a1) k = slot d (view a) k) /\
    ((exists b, r = Ok b /\ b <> 0 /\ addr d1 bn = b /\
        (addr d bn <> 0 /\ charge d1 a1 <= charge d a \/
         addr d bn = 0 /\ b ∈ dirty a1 /\ charge d1 a1 <= charge d a + (if bn =? NDIRECT then 0 else 2))) \/
     (r = Err "balloc: out of blocks" /\ addr d1 bn = 0 /\ charge d1 a1 <= charge d a /\
      forall b, 0 <= b < sb_size sb -> used sb (view a1) b = true)).
Proof.
  intros d Hw Hbn Hroom Hcap Hx. pose proof Hw as [Ht Hh Hlk Hsb Hal Hio]. pose proof (proj1 Hlk) as Ei.
  assert (addr d bn = x) as Hax by (unfold addr; by rewrite Hx).
  assert (forall m, zlen (view a m) = BSIZE) as Hlen by (intros m; by apply (rep_len _ _ m (tx_rep _ _ _ _ Ht))).
  destruct (Z.eqb_spec x 0) as [->|Hnz].
  - destruct (balloc_run sb start size Hbm s a Ht Hal Hroom) as (l & Hst & Hres).
    { destruct Hroom. rewrite Hh, map_size_empty. assert (LOGSIZE = 511) by done. lia. }
    destruct Hres as [(b & E & Hb & Hu & _ & T & L)|(E & T & Hall)].
    + assert (free_block a b) as Hf by done. pose proof (filled_nonzero _ _ _ _ Hio Hf) as Hb0.
      pose proof (mark_filled a _ d bn b Hio Hlen Hal Hbn Hax Hf) as Hs. set (d1 := with_addrs _ d) in *.
      assert (forall k, addr d1 k = if k =? bn then b else addr d k) as Ha.
      { intros k. apply addr_set. by eapply znth_range. }
      exists (Ok b), l, (mark sb a b), d1. split; [|split; [|split; [lia|split]]].
      * rewrite (try_run _ _ _ _ _ E). by rewrite (bind_run _ _ _ _ _ (upd_din_run (put_log l s) ip i _ Ei)).
      * apply (mapping_filled bn bn b); try done; [by rewrite slot_direct by lia|].
        intros k. rewrite Ha. by destruct (Z.eqb_spec k bn).
      * intros k Hk. rewrite (sf_slot _ _ _ _ _ _ Hs). by rewrite (proj2 (Z.eqb_neq k bn) Hk).
      * left. exists b. split; [done|]. split; [done|]. split; [by rewrite Ha, Z.eqb_refl|]. right.
        split; [done|]. split; [unfold mark; cbn; set_solver|]. destruct (Z.eqb_spec bn NDIRECT) as [->|Hne].
        { rewrite Z.add_0_r. apply charge_mark_indirect; [done|by rewrite Ha, Z.eqb_refl|done]. }
        rewrite <-(charge_ext d1 d); [apply charge_mark|]. rewrite Ha. by rewrite (proj2 (Z.eqb_neq NDIRECT bn)) by lia.
    + exists (Err "balloc: out of blocks"), l, a, d. rewrite (try_err _ _ _ _ _ E). unfold d. rewrite put_din_same by done.
      split; [done|]. split; [by apply mapping_same|]. split; [|split; [done|by right]].
      rewrite <-(txn_dirty_size _ _ _ _ T), <-(txn_dirty_size _ _ _ _ Ht). lia.
  - exists (Ok x), (fs_log s), a, d. unfold d. rewrite put_din_same by done. split; [by destruct s|].
    split; [by apply mapping_same|]. split; [lia|]. split; [done|]. left. exists x. split; [done|]. split; [done|].
    split; [done|]. left. split; [|done]. change (addr d bn <> 0). by rewrite Hax.
Qed.

(** The whole of [bmap]. *)
Lemma bmap_run s a ip i q :
  let d := i_din i in
  writing s a ip i -> 0 <= q < MAXFILE -> log_room (fs_log s) size 5 -> LOGSIZE < capacity ->
  exists r l a1 d1, bmap ip q s = Ret (r, put_din l ip i d1 s) /\ mapping (Z.min q NDIRECT) s a ip i l a1 d1 /\
    ((exists b, r = Ok b /\ b <> 0 /\ slot d1 (view a1) (slot_of q) = b /\
        (slot d (view a) (slot_of q) <> 0 /\ charge d1 a1 <= charge d a \/
         slot d (view a) (slot_of q) = 0 /\ b ∈ dirty a1 /\ charge d1 a1 <= charge d a + 2)) \/
     (r = Err "balloc: out of blocks" /\ slot d1 (view a1) (slot_of q) = 0 /\ charge d1 a1 <= charge d a /\
      forall b, 0 <= b < sb_size sb -> used sb (view a1) b = true)).
Proof.
  intros d Hw Hq [Hr1 Hr2] Hcap. pose proof Hw as [Ht Hh Hlk Hsb Hal Hio]. pose proof Hlk as (Ei & _ & _ & Hdev).
  destruct (superblock_run s ip i "bmap requires superblock" Hlk) as (sb' & Hsb' & Esb).
  assert (sb' = sb) as -> by congruence.
  pose proof (io_dinode _ _ _ Hio) as (_ & _ & _ & _ & _ & Hla & _). fold d in Hla.
  assert (NDIRECT = 12 /\ MAXFILE = 524 /\ NINDIRECT = 512) as (HN & HM & HI) by done.
  unfold bmap. rewrite (bind_run _ _ _ _ _ (holding_run _ _ _ Hlk)), bind_assert by done.
  rewrite (bind_run _ _ _ _ _ Esb), (bind_run _ _ _ _ _ (inode_at_run _ _ _ Ei)). fold d. rewrite Hdev.
  destruct (Z.ltb_spec q NDIRECT) as [Hd|Hd].
  - destruct (znth_lt (di_addrs d) q) as [x Hx]; [lia|]. rewrite Hx. cbn [expect]. rewrite bind_mret, Z.min_l by lia.
    destruct (bmap_address s a ip i q x Hw ltac:(lia) ltac:(split; lia) Hcap Hx) as (r & l & a1 & d1 & E & Mp & _ & _ & Hres).
    exists r, l, a1, d1. split; [exact E|]. split; [exact Mp|]. unfold slot_of. rewrite (proj2 (Z.ltb_lt q NDIRECT)) by lia.
    rewrite !slot_direct by lia. rewrite (proj2 (Z.eqb_neq q NDIRECT)) in Hres by lia. exact Hres.
  - rewrite (proj2 (Z.ltb_lt (q - NDIRECT) NINDIRECT)), Z.min_r by lia.
    destruct (znth_lt (di_addrs d) NDIRECT) as [x Hx]; [lia|]. rewrite Hx. cbn [expect]. rewrite bind_mret.
    assert (slot_of q = q + 1) as Hsq by (unfold slot_of; by rewrite (proj2 (Z.ltb_ge q NDIRECT)) by lia). rewrite Hsq.
    destruct (bmap_address s a ip i NDIRECT x Hw ltac:(lia) ltac:(split; lia) Hcap Hx)
      as (r & l & a1 & d1 & E & Mp & L & Hsl & [(b & -> & Hb0 & Hb & Hch)|(-> & Hz & Hch & Hall)]); last first.
    { exists (Err "balloc: out of blocks"), l, a1, d1. rewrite (try_err _ _ _ _ _ E). split; [done|]. split; [done|].
      right. split; [done|]. split; [apply slot_none; [lia|by left]|done]. }
    rewrite (try_run _ _ _ _ _ E). rewrite Z.eqb_refl in Hch.
    assert (charge d1 a1 <= charge d a) as Hch1 by (unfold d; destruct Hch as [[_ ?]|(_ & _ & ?)]; lia).
    pose proof (mp_writing _ _ _ _ _ _ _ _ Mp) as [Ht1 Hh1 Hlk1 Hsb1 Hal1 Hio1]. cbn [i_din set_din i_inum] in Hio1, Hlk1.
    assert (owned a1 (i_inum i) b) as Hown.
    { pose proof (io_owned _ _ _ Hio1 NDIRECT) as Ho. rewrite slot_direct, Hb in Ho by lia. by apply Ho. }
    assert (forall m, zlen (view a1 m) = BSIZE) as Hlen by (intros m; by apply (rep_len _ _ m (tx_rep _ _ _ _ Ht1))).
    assert (slot d1 (view a1) (q + 1) = get_word (view a1 b) (q - NDIRECT)) as Hsw.
    { rewrite slot_word by (rewrite ?Hb; lia). rewrite Hb. f_equal. lia. }
    destruct (word_run (put_din l ip i d1 s) a1 (i_inum i) b (q - NDIRECT) Ht1 Hh1 Hal1 Hown) as (l2 & S2 & Hres);
      [lia|split; cbn; lia|done|]. fold (bmap_word b (q - NDIRECT)).
    assert (put_log l2 (put_din l ip i d1 s) = put_din l2 ip i d1 s) as Epl by done. rewrite Epl in Hres.
    assert (writing (put_din l ip i d1 s) a1 ip (set_din d1 i)) as W1 by apply Mp.
    destruct Hres as [(Hw0 & E2 & T2)|[(Hw0 & b2 & E2 & Hf & T2)|(Hw0 & E2 & T2 & Hall)]].
    + exists (Ok (get_word (view a1 b) (q - NDIRECT))), l2, a1, d1. rewrite (try_run _ _ _ _ _ E2). split; [done|].
      split; [eapply mapping_trans; [exact Mp|by apply (mapping_same _ _ _ _ (set_din d1 i))]|].
      left. eexists. split; [done|]. split; [done|]. split; [done|]. left. split; [|done].
      fold d in Hsl. rewrite <-Hsl, Hsw by lia. done.
    + pose proof (word_filled a1 (i_inum i) d1 (q + 1) b2 Hio1 Hlen Hal1 ltac:(lia) ltac:(by rewrite Hb) ltac:(by rewrite Hsw) Hf) as Hs.
      rewrite Hb in Hs. replace (q + 1 - NDIRECT - 1) with (q - NDIRECT) in Hs by lia.
      exists (Ok b2), l2, (word_stored a1 b (q - NDIRECT) b2), d1. rewrite (try_run _ _ _ _ _ E2). split; [done|].
      split.
      { eapply mapping_trans; [exact Mp|]. apply (mapping_filled NDIRECT (q + 1) b2); try done. cbn [i_din set_din]. by rewrite Hsw. }
      left. exists b2. split; [done|]. split; [by eapply filled_nonzero|].
      split; [by rewrite (sf_slot _ _ _ _ _ _ Hs), Z.eqb_refl|]. right. split; [fold d in Hsl; rewrite <-Hsl, Hsw by lia; done|]. split; [unfold word_stored, mark; cbn; set_solver|].
      pose proof (charge_indirect d1 (mark sb a1 b2) (put_word (q - NDIRECT) b2 (view a1 b)) ltac:(by rewrite Hb)) as Hci.
      rewrite Hb in Hci. unfold word_stored. pose proof (charge_mark d1 a1 b2). lia.
    + exists (Err "balloc: out of blocks"), l2, a1, d1. rewrite (try_run _ _ _ _ _ E2). split; [done|].
      split; [eapply mapping_trans; [exact Mp|by apply (mapping_same _ _ _ _ (set_din d1 i))]|].
      right. split; [done|]. split; [by rewrite Hsw|]. done.
Qed.

Definition store_part (b boff : Z) (part : list Z) : M (Fs S) (result unit) :=
  bwith ROOTDEV b (fun bp => blk ← bdata bp; bset bp (zsplice blk boff part);; fs_log_write bp).

(** One round of the loop of [writei]: a block that is there costs one log
    entry, a new one two. *)
Lemma write_one s a ip i off part :
  let d := i_din i in let q := off / BSIZE in
  writing s a ip i -> 0 <= off -> q < MAXFILE -> 0 < zlen part -> off mod BSIZE + zlen part <= BSIZE ->
  log_room (fs_log s) size 5 -> LOGSIZE < capacity ->
  exists l a1 d1, st l = st (fs_log s) /\ writing (put_din l ip i d1 s) a1 ip (set_din d1 i) /\
  ((exists b s1, bmap ip q s = Ret (Ok b, s1) /\
      store_part b (off mod BSIZE) part s1 = Ret (Ok tt, put_din l ip i d1 s) /\
      wrote off part (i_inum i) d a d1 a1 /\ touched off (zlen part) d d1 /\
      charge d1 a1 <= charge d a + (if slot d (view a) (slot_of q) =? 0 then 2 else 1)) \/
   (bmap ip q s = Ret (Err "balloc: out of blocks", put_din l ip i d1 s) /\
    wrote off [] (i_inum i) d a d1 a1 /\ slot d1 (view a1) (slot_of q) = 0 /\ charge d1 a1 <= charge d a /\
    forall b, 0 <= b < sb_size sb -> used sb (view a1) b = true)).
Proof.
  intros d q Hw Hoff Hq Hp1 Hp Hroom Hcap.
  assert (BSIZE = 4096 /\ LOGSIZE = 511) as [HB HL] by done.
  assert (0 <= q) by (apply Z.div_pos; lia). pose proof (Z.mod_pos_bound off BSIZE ltac:(lia)) as Hmb.
  pose proof (Z.div_mod off BSIZE ltac:(lia)) as Hdm. fold q in Hdm.
  destruct (bmap_run s a ip i q Hw ltac:(lia) Hroom Hcap) as (r & l1 & a1 & d1 & E1 & Mp & Hres). fold d in Hres.
  pose proof (mp_wrote _ _ _ _ _ _ _ _ Mp off Hoff) as Wr. pose proof (mp_st _ _ _ _ _ _ _ _ Mp) as St1.
  pose proof (mp_writing _ _ _ _ _ _ _ _ Mp) as W1.
  destruct Hres as [(b & -> & Hb0 & Hb & Hch)|(-> & Hz & Hch & Hall)]; last first.
  { exists l1, a1, d1. split; [done|]. split; [done|]. by right. }
  pose proof W1 as [Ht1 Hh1 Hlk1 Hsb1 Hal1 Hio1]. cbn [i_din set_din i_inum] in Hio1.
  assert (forall m, zlen (view a1 m) = BSIZE) as Hlen by (intros m; by apply (rep_len _ _ m (tx_rep _ _ _ _ Ht1))).
  assert (slot d1 (view a1) (slot_of q) <> 0) as Hnz by (by rewrite Hb).
  pose proof (io_owned _ _ _ Hio1 _ Hnz) as Hown. rewrite Hb in Hown.
  set (x := zsplice (view a1 b) (off mod BSIZE) part).
  pose proof (txn_dirty_size _ _ _ _ (wg_txn _ _ _ _ Hw)) as Hds. pose proof (txn_dirty_size _ _ _ _ Ht1) as Hds1.
  pose proof (charge_bound d a). pose proof (charge_bound d1 a1). cbn [fs_log put_din put_log] in Hds1. destruct Hroom as [Hr1 Hr2].
  destruct (write_block (put_din l1 ip i d1 s) a1 b (off mod BSIZE) part start size Ht1)
    as (l2 & E2 & T2 & _ & S2); [done|apply Hown|pose proof (ow_range _ _ _ Hown); destruct Hbm; unfold uN; lia|split; cbn; lia|cbn; lia|lia|lia|].
  assert (wrote off part (i_inum i) d1 a1 d1 (after_store a1 (b, x))) as W2.
  { pose proof (store_wrote a1 (i_inum i) d1 off part Hio1 Hlen Hoff Hq Hp) as W. fold q in W. rewrite Hb in W. by apply W. }
  assert (inode_ok (after_store a1 (b, x)) (i_inum i) d1) as Hio2.
  { rewrite <-Hb. apply store_ok; [done|apply slot_of_ne|done]. }
  exists l2, (after_store a1 (b, x)), d1. split; [etrans; [exact S2|exact St1]|]. split.
  { split; [exact T2|exact Hh1|by apply put_din_locked, Hw|done|eapply alloc_ok_mono, Hal1; [apply W2|done]|exact Hio2]. }
  left. exists b, (put_din l1 ip i d1 s). split; [exact E1|]. split; [exact E2|]. split; [|split].
  - apply (wrote_trans off part 0 _ _ _ d1 a1); [done|lia|exact Wr|]. rewrite Z.add_0_r, zslice_full by done. exact W2.
  - intros k Hk. exists q. split; [lia|]. split; [by apply (mp_addrs _ _ _ _ _ _ _ _ Mp)|]. lia.
  - pose proof (charge_store d1 a1 b x) as Hcs. destruct Hch as [[Hne Hch]|(Hz & Hd & Hch)].
    + rewrite (proj2 (Z.eqb_neq _ _) Hne). case_bool_decide; lia.
    + rewrite Hz, Z.eqb_refl. rewrite bool_decide_eq_true_2 in Hcs by done. lia.
Qed.

(** ** The loop of [writei] *)
Lemma zslice_zslice {A} (l : list A) m n :
  0 <= m -> 0 <= n -> m + n <= zlen l ->
  zslice (zslice l m (zlen l)) 0 n = zslice (zslice l 0 (m + n)) m (zlen (zslice l 0 (m + n))).
Proof.
  intros Hm Hn Hl. assert (zlen (zslice l 0 (m + n)) = m + n) as E by (rewrite zlen_zslice; lia).
  rewrite E. apply znth_ext.
  - rewrite !zlen_zslice; rewrite ?zlen_zslice; lia.
  - intros x Hx. rewrite zlen_zslice in Hx by (rewrite ?zlen_zslice; lia).
    by rewrite !znth_zslice by lia.
Qed.

Lemma spanned_nonneg off n : 0 <= n -> 0 <= spanned off n.
Proof.
  intros Hn. assert (BSIZE = 4096) as HB by done. unfold spanned. destruct (n =? 0); [done|].
  apply Z.div_pos; [|lia]. pose proof (Z.mod_pos_bound off BSIZE). lia.
Qed.

(** The entry a write saves when its first block is there already. *)
Definition saved (d : DInode) (v : Z -> list Z) (off n : Z) : Z :=
  if (n =? 0) || (slot d v (slot_of (off / BSIZE)) =? 0) then 0 else 1.

Definition charge_room (d : DInode) (a : Dev) (k : Z) : Prop := charge d a + k <= LOGSIZE /\ charge d a + k <= size - 1.

Lemma writei_loop_grow fuel s a ip i src off :
  let d := i_din i in
  writing s a ip i -> LOGSIZE < capacity -> 0 <= off -> off + zlen src <= MAXFILE * BSIZE ->
  charge_room d a (2 * spanned off (zlen src) + 3) -> spanned off (zlen src) < Z.of_nat fuel ->
  exists l a' d', st l = st (fs_log s) /\ writing (put_din l ip i d' s) a' ip (set_din d' i) /\
  charge d' a' <= charge d a + 2 * spanned off (zlen src) - saved d (view a) off (zlen src) /\
  ((writei_loop fuel ip src off s = Ret (Ok (off + zlen src), put_din l ip i d' s) /\
      wrote off src (i_inum i) d a d' a' /\ touched off (zlen src) d d') \/
   (writei_loop fuel ip src off s = Ret (Err "balloc: out of blocks", put_din l ip i d' s) /\
      (exists n, 0 <= n < zlen src /\ wrote off (zslice src 0 n) (i_inum i) d a d' a' /\
         slot d' (view a') (slot_of ((off + n) / BSIZE)) = 0) /\
      forall b, 0 <= b < sb_size sb -> used sb (view a') b = true)).
Proof.
  assert (BSIZE = 4096 /\ MAXFILE = 524) as [HB HM] by done.
  revert s a i src off. induction fuel as [|fuel IH]; intros s a i src off d Hw Hcap Hoff Hend Hroom Hfuel;
    pose proof (zlen_nonneg src) as Hz; pose proof (spanned_nonneg off _ Hz) as Hsp; [lia|].
  pose proof Hw as [Ht Hh Hlk Hsb Hal Hio]. pose proof Hlk as (Ei & _ & _ & Hdev).
  cbn [writei_loop]. destruct (Z.leb_spec (zlen src) 0) as [Hn0|Hn0].
  { assert (src = []) as -> by (unfold zlen in Hn0; destruct src; [done|cbn in Hn0; lia]). exists (fs_log s), a, d.
    assert (put_din (fs_log s) ip i d s = s) as Hs by (unfold d; rewrite put_din_same by done; by destruct s).
    rewrite Hs. assert (set_din d i = i) as -> by apply set_din_same. change (zlen (@nil Z)) with 0. rewrite Z.add_0_r.
    split; [done|]. split; [done|]. split; [unfold spanned, saved; rewrite Z.eqb_refl; cbn [orb]; lia|]. left.
    rewrite ?Z.add_0_r. split; [done|]. split; [apply wrote_nothing|by intros k []]. }
  pose proof (Z.div_mod off BSIZE ltac:(lia)) as Hdm. pose proof (Z.mod_pos_bound off BSIZE ltac:(lia)) as Hmb.
  pose proof (spanned_step off (zlen src) _ Hoff Hn0 eq_refl) as Hstep.
  set (q := off / BSIZE) in *. set (boff := off mod BSIZE) in *. set (m := Z.min (zlen src) (BSIZE - boff)) in *.
  pose proof (spanned_nonneg (off + m) (zlen src - m) ltac:(lia)) as Hsp'.
  assert (zlen (zslice src 0 m) = m) as Hpl by (rewrite zlen_zslice; lia).
  assert (zlen (zslice src m (zlen src)) = zlen src - m) as Hrest by (rewrite zlen_zslice; lia).
  assert (saved d (view a) off (zlen src) = if slot d (view a) (slot_of q) =? 0 then 0 else 1) as Hsv.
  { unfold saved. rewrite (proj2 (Z.eqb_neq (zlen src) 0)) by lia. done. }
  rewrite (bind_run _ _ _ _ _ (inode_at_run _ _ _ Ei)), Hdev. destruct Hroom as [Hr1 Hr2].
  pose proof (txn_dirty_size _ _ _ _ Ht) as Hds. pose proof (charge_bound d a) as Hcb.
  destruct (write_one s a ip i off (zslice src 0 m) Hw Hoff) as (l1 & a1 & d1 & S1 & W1 & [(b & s1 & E1 & E2 & D1 & C1 & L1)|(E1 & D1 & Hz0 & L1 & Hall)]);
    [fold q; lia|lia|fold boff; lia|split; lia|done|..]; fold d q in L1.
  - fold q in E1. rewrite (try_run _ _ _ _ _ E1), (try_run _ _ _ _ _ E2).
    assert (charge d1 a1 <= charge d a + 2 - saved d (view a) off (zlen src)) as L1' by (rewrite Hsv; destruct (_ =? 0); lia).
    assert (0 <= saved d (view a) off (zlen src)) by (rewrite Hsv; destruct (_ =? 0); lia).
    destruct (IH (put_din l1 ip i d1 s) a1 (set_din d1 i) (zslice src m (zlen src)) (off + m) W1 Hcap)
      as (l2 & a2 & d2 & S2 & W2 & L2 & Hres); [lia|lia|rewrite Hrest; split; cbn [i_din set_din]; lia|rewrite Hrest; lia|].
    rewrite put_din_put in W2, Hres. rewrite Hrest in L2, Hres. cbn [fs_log put_din put_log i_din set_din i_inum] in *.
    exists l2, a2, d2. split; [etrans; [exact S2|exact S1]|]. split; [exact W2|].
    assert (0 <= saved d1 (view a1) (off + m) (zlen src - m)) by (unfold saved; destruct (_ || _); lia). split; [lia|].
    replace (off + m + (zlen src - m)) with (off + zlen src) in Hres by lia.
    destruct Hres as [(E3 & D2 & C2)|(E3 & (n & Hn & D2 & Hz0) & Hfull)]; [left|right].
    + split; [exact E3|]. split; [eapply wrote_trans; [done|split; [|]|exact D1|exact D2]; lia|].
      intros k Hk. rewrite Hpl in C1. destruct (decide (addr d1 k = addr d k)) as [Eq|Ne].
      * destruct (C2 k) as (bn & G1 & G2 & G3 & G4); [congruence|]. exists bn. do 2 (split; [done|]). lia.
      * destruct (C1 k Ne) as (bn & G1 & G2 & G3 & G4). exists bn. do 2 (split; [done|]). lia.
    + split; [exact E3|]. split; [|done]. exists (m + n). split; [lia|]. split; [|by rewrite Z.add_assoc].
      eapply (wrote_trans off _ m); [done|rewrite zlen_zslice; lia| |].
      * replace (zslice (zslice src 0 (m + n)) 0 m) with (zslice src 0 m); [exact D1|].
        apply znth_ext; [rewrite !zlen_zslice; rewrite ?zlen_zslice; lia|]. intros x Hx. rewrite Hpl in Hx.
        rewrite !znth_zslice by lia. done.
      * rewrite <-zslice_zslice by lia. exact D2.
  - fold q in E1. rewrite (try_err _ _ _ _ _ E1). exists l1, a1, d1. split; [done|]. split; [done|].
    split; [rewrite Hsv; destruct (_ =? 0); lia|]. right. split; [done|]. split; [|done]. exists 0. split; [lia|].
    split; [exact D1|by rewrite Z.add_0_r].
Qed.

(** ** The whole write *)
Lemma writing_log s l a a' ip i :
  writing s a ip i -> txn l a' start size -> held a' = ∅ ->
  (forall b, 0 <= b < sb_size sb -> used sb (view a) b = true -> used sb (view a') b = true) ->
  (forall k, slot (i_din i) (view a) k <> 0 -> view a' (slot (i_din i) (view a) k) = view a (slot (i_din i) (view a) k)) ->
  writing (put_log l s) a' ip i.
Proof.
  intros [Ht Hh Hlk Hsb Hal Hio] Ht' Hh' Hu Hv. split; try done.
  - eapply alloc_ok_mono; [done|congruence|done].
  - eapply inode_ok_mono; [done| |done]. specialize (Hv NDIRECT). by rewrite slot_direct in Hv by lia.
Qed.

(** The device after the inode has been written to its block. *)
Definition inode_stored (a : Dev) (inum : Z) (d : DInode) : Dev :=
  after_store a (inode_block inum, put_dinode (view a (inode_block inum)) inum d).

Lemma update_run s a ip i :
  writing s a ip i -> log_room (fs_log s) size 1 -> LOGSIZE < capacity ->
  exists l, update ip s = Ret (Ok tt, put_log l s) /\ st l = st (fs_log s) /\
    llen (lg l) <= llen (lg (fs_log s)) + 1 /\
    writing (put_log l s) (inode_stored a (i_inum i) (i_din i)) ip i.
Proof.
  intros Hw Hroom Hcap. pose proof Hw as [Ht Hh Hlk Hsb Hal Hio]. pose proof Hlk as (Ei & _ & _ & Hdev).
  destruct (io_iblock _ _ _ Hio) as (Hib & Hout & Hnb).
  destruct (superblock_run s ip i "update requires superblock" Hlk) as (sb' & Hsb' & Esb).
  assert (sb' = sb) as -> by congruence. assert (LOGSIZE = 511) as HL by done. pose proof (proj1 Hroom) as Hr1.
  destruct (f_read s a (inode_block (i_inum i)) _ _ Ht ltac:(lia)) as (h & l1 & E1 & Hf & T1 & L1 & S1).
  { intros h. rewrite Hh. by rewrite lookup_empty. }
  { rewrite Hh, map_size_empty. lia. }
  pose proof (rep_len _ _ (inode_block (i_inum i)) (tx_rep _ _ _ _ Ht)) as Hlen.
  destruct (dinode_slot_roundtrip _ (i_inum i) _ Hlen (io_dinode _ _ _ Hio)) as (Hpl & _).
  destruct (f_update (put_log l1 s) a h _ _ _ _ T1 Hf Hpl) as (l2 & E2 & T2 & L2 & S2);
    [done|done|unfold log_room in *; cbn; by rewrite L1|].
  exists l2. cbn in L2, S2. rewrite L1 in L2. rewrite S1 in S2. split; [|split; [done|split; [done|]]].
  - unfold update. rewrite (bind_run _ _ _ _ _ Esb), (bind_run _ _ _ _ _ (inode_at_run _ _ _ Ei)).
    assert (iblock sb (i_inum i) = Ret (inode_block (i_inum i))) as Eib.
    { unfold iblock, add_ovf. fold (inode_block (i_inum i)). by rewrite (proj2 (Z.ltb_lt _ _)) by lia. }
    rewrite (bind_lift _ _ _ _ Eib), Hdev, (bwith_split _ _ _ _ _ E1). unfold mbind at 1, M_bind at 1.
    rewrite (bind_run _ _ _ _ _ (f_data (put_log l1 s) _ h _ _ _ T1 (held_dev_hold a h _))).
    revert E2. cbn [view dev_hold]. unfold mbind, M_bind. destruct (bset h _ _) as [[[] s1]|e|]; [|done|done].
    destruct (fs_log_write h s1) as [[[] s2]|e|]; [|done|done]. by intros ->.
  - eapply writing_log; [done|exact T2|done|..].
    + intros b Hb. unfold inode_stored. by rewrite used_store.
    + intros k Hk. cbn. apply fupd_ne. apply (io_owned _ _ _ Hio _ Hk).
Qed.

(** Every block below the size of the file is mapped. *)
Definition dense (d : DInode) (v : Z -> list Z) : Prop :=
  di_size d <= MAXFILE * BSIZE /\ forall bn, 0 <= bn -> bn * BSIZE < di_size d -> slot d v (slot_of bn) <> 0.

Lemma dense_ext d v v' :
  (addr d NDIRECT <> 0 -> v' (addr d NDIRECT) = v (addr d NDIRECT)) -> dense d v -> dense d v'.
Proof. intros Hi [H1 H2]. split; [done|]. intros bn Hbn Hlt. rewrite (slot_ext _ _ _ _ Hi). by apply H2. Qed.

(** Contents are read from the file's own blocks only. *)
Lemma contents_ext d v v' :
  (forall k, slot d v k <> 0 -> v' (slot d v k) = v (slot d v k)) -> dense d v -> contents d v' = contents d v.
Proof.
  intros Hv [Hs Hd]. assert (BSIZE = 4096) as HB by done. unfold contents. apply list_fmap_ext. intros k p Hk.
  assert (0 <= p < di_size d) as Hp by (apply elem_of_zrange; by eapply list_elem_of_lookup_2).
  pose proof (Z.div_mod p BSIZE ltac:(lia)). pose proof (Z.mod_pos_bound p BSIZE ltac:(lia)).
  assert (0 <= p / BSIZE) by (apply Z.div_pos; lia).
  assert (slot d v (slot_of (p / BSIZE)) <> 0) as Hnz by (apply Hd; lia).
  assert (forall j, slot d v' j = slot d v j) as Hsl.
  { intros j. apply slot_ext. intros Hi. specialize (Hv NDIRECT). rewrite slot_direct in Hv by lia. by apply Hv. }
  rewrite !file_byte_slot by (rewrite ?Hsl; try done; lia). by rewrite Hsl, Hv.
Qed.

Lemma addrs_ext d d' :
  zlen (di_addrs d) = zlen (di_addrs d') -> (forall bn, addr d bn = addr d' bn) -> di_addrs d = di_addrs d'.
Proof.
  intros Hl Ha. apply znth_ext; [done|]. intros x Hx. specialize (Ha x). unfold addr in Ha.
  destruct (znth_lt (di_addrs d) x) as [y Hy]; [lia|]. destruct (znth_lt (di_addrs d') x) as [y' Hy']; [lia|].
  rewrite Hy, Hy' in *. cbn in Ha. by subst.
Qed.

Lemma wrote_size off src inum d a d' a' : wrote off src inum d a d' a' -> di_size d' = di_size d.
Proof. intros W. by destruct (wr_addrs _ _ _ _ _ _ _ W) as [addrs ->]. Qed.

Lemma contents_size_ext d v n : 0 <= n -> zlen (contents (with_size n d) v) = n.
Proof. intros Hn. by rewrite zlen_contents. Qed.

(** The contents after a write, once the size covers it. *)
Lemma wrote_contents off src inum d a d' a' :
  wrote off src inum d a d' a' -> dense d (view a) -> 0 <= off <= di_size d -> off + zlen src <= MAXFILE * BSIZE ->
  contents (with_size (Z.max (di_size d) (off + zlen src)) d') (view a') = zsplice (contents d (view a)) off src.
Proof.
  intros W [Hd1 Hd2] Hoff Hend. assert (BSIZE = 4096) as HB by done. pose proof (zlen_nonneg src).
  assert (zlen (contents d (view a)) = di_size d) as Hc by (apply zlen_contents; lia).
  apply znth_ext; [rewrite zlen_contents, zlen_zsplice_grow; cbn; lia|]. intros p Hp.
  rewrite zlen_contents in Hp by (cbn; lia). cbn [di_size with_size] in Hp.
  rewrite znth_contents by done. rewrite znth_zsplice_grow by lia.
  change (file_byte (with_size _ d') (view a') p) with (file_byte d' (view a') p).
  rewrite (wr_bytes _ _ _ _ _ _ _ W); [|lia|].
  - case_bool_decide.
    + by destruct (znth_lt src (p - off)) as [x ->]; [lia|].
    + by rewrite znth_contents by lia.
  - destruct (decide (p < di_size d)); [right|left; lia]. apply Hd2; [apply Z.div_pos; lia|].
    pose proof (Z.div_mod p BSIZE ltac:(lia)). pose proof (Z.mod_pos_bound p BSIZE ltac:(lia)). lia.
Qed.

Lemma wrote_dense off src inum d a d' a' n :
  wrote off src inum d a d' a' -> dense d (view a) -> 0 <= off <= di_size d -> off + zlen src <= MAXFILE * BSIZE ->
  n <= Z.max (di_size d) (off + zlen src) -> dense (with_size n d') (view a').
Proof.
  intros W [Hd1 Hd2] Hoff Hend Hn. assert (BSIZE = 4096) as HB by done. split; [cbn; lia|]. cbn [di_size with_size].
  intros bn Hbn Hlt. change (slot (with_size n d') (view a') (slot_of bn)) with (slot d' (view a') (slot_of bn)).
  destruct (decide (bn * BSIZE < di_size d)) as [Hm|Hm].
  - specialize (Hd2 bn Hbn Hm). by rewrite (wr_keep _ _ _ _ _ _ _ W).
  - apply (wr_mapped _ _ _ _ _ _ _ W); [lia|lia|lia|lia].
Qed.

(** The inode keeps its place on disk in step with the one in memory. *)
Definition synced (a : Dev) (inum : Z) (d : DInode) : Prop := get_dinode (view a (inode_block inum)) inum = d.

(** What a write leaves alone: blocks in use that are not the file's, and the
    other inodes of its block. *)
Definition others_kept (inum : Z) (d : DInode) (a a' : Dev) : Prop :=
  (forall n, ~ bitmap_block sb n -> (0 <= n < sb_size sb -> used sb (view a) n = true) ->
     (forall k, slot d (view a) k <> 0 -> n <> slot d (view a) k) -> n <> inode_block inum -> view a' n = view a n) /\
  (forall inum', inum mod IPB <> inum' mod IPB ->
     get_dinode (view a' (inode_block inum)) inum' = get_dinode (view a (inode_block inum)) inum') /\
  (forall b, 0 <= b < sb_size sb -> used sb (view a) b = true -> used sb (view a') b = true) /\
  disk_kept a a'.

Lemma inode_block_kept off src inum d a d' a' :
  wrote off src inum d a d' a' -> inode_ok a inum d -> view a' (inode_block inum) = view a (inode_block inum).
Proof.
  intros W Hio. destruct (io_iblock _ _ _ Hio) as (Hib & Hout & Hnb). apply (wr_other _ _ _ _ _ _ _ W); [done|..].
  - intros Hr. apply (io_iused _ _ _ Hio). lia.
  - intros bn Hbn E. by apply (ow_inode _ _ _ (io_owned _ _ _ Hio bn Hbn)).
Qed.

Lemma wrote_others off src inum d a d' a' :
  wrote off src inum d a d' a' -> inode_ok a inum d -> others_kept inum d a a'.
Proof.
  intros W Hio. split; [|split; [|split; [apply W|apply W]]].
  - intros n Hn Hu Ha _. by apply (wr_other _ _ _ _ _ _ _ W).
  - intros inum' _. by rewrite (inode_block_kept _ _ _ _ _ _ _ W Hio).
Qed.

Lemma stored_others inum d d' a a' :
  others_kept inum d a a' -> (forall n, zlen (view a' n) = BSIZE) -> dinode_ok d' -> ~ bitmap_block sb (inode_block inum) ->
  others_kept inum d a (inode_stored a' inum d') /\ synced (inode_stored a' inum d') inum d'.
Proof.
  intros (O1 & O2 & O3 & O4) Hlen Hd Hnb.
  destruct (dinode_slot_roundtrip _ inum d' (Hlen (inode_block inum)) Hd) as (_ & Hget & Hoth).
  split; [split; [|split; [|split; [|done]]]|].
  - intros n Hn Hu Ha Hi. unfold inode_stored. cbn. rewrite fupd_ne by done. by apply O1.
  - intros inum' Hne. unfold inode_stored. cbn. rewrite fupd_eq, Hoth by done. by apply O2.
  - intros b Hb Hu. unfold inode_stored. rewrite used_store by done. by apply O3.
  - unfold synced, inode_stored. cbn. by rewrite fupd_eq.
Qed.

Lemma contents_take d v n m :
  0 <= n <= m -> contents (with_size n d) v = take (Z.to_nat n) (contents (with_size m d) v).
Proof.
  intros Hn. apply znth_ext.
  - rewrite zlen_contents by (cbn; lia). unfold zlen. rewrite length_take.
    pose proof (zlen_contents (with_size m d) v ltac:(cbn; lia)) as Hm. unfold zlen in Hm. cbn in *. lia.
  - intros p Hp. rewrite zlen_contents in Hp by (cbn; lia). cbn in Hp.
    rewrite znth_take, !znth_contents by (cbn; lia). done.
Qed.

Lemma with_size_same d : with_size (di_size d) d = d.
Proof. by destruct d. Qed.

Lemma with_same d : d = with_size (di_size d) (with_addrs (di_addrs d) d).
Proof. by destruct d. Qed.

(** Without growth no slot changes. *)
Lemma no_growth off src inum d a d' a' :
  wrote off src inum d a d' a' -> touched off (zlen src) d d' -> zlen (di_addrs d') = zlen (di_addrs d) ->
  dense d (view a) -> 0 <= off -> off + zlen src <= di_size d -> d' = d.
Proof.
  intros W Ht Hl [_ Hd] Hoff Hend. assert (BSIZE = 4096) as HB by done.
  assert (di_addrs d' = di_addrs d) as Ea.
  { apply addrs_ext; [done|]. intros k. destruct (decide (addr d' k = addr d k)) as [|Ne]; [done|].
    destruct (Ht k Ne) as (bn & Hbn & -> & Hlo & Hhi). assert (slot d (view a) (slot_of bn) <> 0) as Hnz by (apply Hd; lia).
    pose proof (wr_keep _ _ _ _ _ _ _ W (Z.min bn NDIRECT)) as Hk. rewrite !slot_direct in Hk by lia. apply Hk.
    unfold slot_of in Hnz. destruct (Z.ltb_spec bn NDIRECT).
    - rewrite Z.min_l by lia. by rewrite slot_direct in Hnz by lia.
    - rewrite Z.min_r by lia. eapply slot_indirect, Hnz. lia. }
  destruct (wr_addrs _ _ _ _ _ _ _ W) as [addrs ->]. cbn in Ea. subst. by destruct d.
Qed.

Lemma inode_ok_size a inum d n : uN 64 n -> inode_ok a inum d -> inode_ok a inum (with_size n d).
Proof.
  intros Hn [(D1 & D2 & D3 & D4 & D5 & D6) H2 H3 H4 H5 H6]. split; done.
Qed.

Lemma writing_din s a ip i d :
  writing s a ip i -> inode_ok a (i_inum i) d -> writing (put_din (fs_log s) ip i d s) a ip (set_din d i).
Proof. intros [Ht Hh Hlk Hsb Hal Hio] Hd. split; try done. by apply put_din_locked. Qed.

(** The last step of [writei], which records the new size. *)
Lemma writei_finish s a ip i end_ :
  let d := i_din i in
  writing s a ip i -> log_room (fs_log s) size 1 -> LOGSIZE < capacity -> uN 64 end_ -> di_size d < end_ ->
  let d' := with_size end_ d in
  exists l, (upd_din ip (with_size end_);; update ip) s = Ret (Ok tt, put_din l ip i d' s) /\
    st l = st (fs_log s) /\ llen (lg l) <= llen (lg (fs_log s)) + 1 /\
    writing (put_din l ip i d' s) (inode_stored a (i_inum i) d') ip (set_din d' i).
Proof.
  intros d Hw Hroom Hcap Hu Hlt d'. pose proof (wg_locked _ _ _ _ Hw) as (Ei & _).
  assert (writing (put_din (fs_log s) ip i d' s) a ip (set_din d' i)) as W
    by (apply writing_din, inode_ok_size, Hw; done).
  destruct (update_run _ _ _ _ W Hroom Hcap) as (l & E & St & L & W'). exists l.
  rewrite (bind_run _ _ _ _ _ (upd_din_run _ _ _ _ Ei)). split; [exact E|]. split; [done|]. split; [done|]. exact W'.
Qed.

Lemma contents_stored a inum d d0 :
  inode_ok a inum d -> dense d (view a) ->
  contents d (view (inode_stored a inum d0)) = contents d (view a) /\ dense d (view (inode_stored a inum d0)).
Proof.
  intros Hio Hd. assert (forall k, slot d (view a) k <> 0 ->
    view (inode_stored a inum d0) (slot d (view a) k) = view a (slot d (view a) k)) as Hv.
  { intros k Hk. unfold inode_stored. cbn. apply fupd_ne. apply (io_owned _ _ _ Hio _ Hk). }
  split; [by apply contents_ext|]. eapply dense_ext; [|done]. specialize (Hv NDIRECT). by rewrite slot_direct in Hv by lia.
Qed.

(** The log entries a write of [n] bytes at [off] may take: two for each block,
    one for the inode and two for an indirect block; one less when the first
    block is there already. *)
Definition write_cost (d : DInode) (v : Z -> list Z) (off n : Z) : Z := 2 * spanned off n + 3 - saved d v off n.

Lemma write_cost_bound d v off n : 0 <= n -> 2 <= write_cost d v off n <= 2 * spanned off n + 3.
Proof. intros Hn. pose proof (spanned_nonneg off n Hn). unfold write_cost, saved. destruct (_ || _); lia. Qed.

(** The file's blocks are those it had and blocks that were free. *)
Definition grown_slots (d : DInode) (a : Dev) (d' : DInode) (a' : Dev) : Prop :=
  forall k, slot d' (view a') k <> 0 ->
    slot d' (view a') k = slot d (view a) k \/ free_block a (slot d' (view a') k).

Lemma wrote_grown off src inum d a d' a' : wrote off src inum d a d' a' -> grown_slots d a d' a'.
Proof.
  intros W k Hk. destruct (decide (slot d (view a) k = 0)) as [Hz|Hz].
  - right. by apply (wr_new _ _ _ _ _ _ _ W).
  - left. by apply (wr_keep _ _ _ _ _ _ _ W).
Qed.

Lemma grown_stored d a d' a' n inum d0 :
  grown_slots d a d' a' -> inode_ok a' inum d' -> grown_slots d a (with_size n d') (inode_stored a' inum d0).
Proof.
  intros Hg Hio k. assert (slot (with_size n d') (view (inode_stored a' inum d0)) k = slot d' (view a') k) as ->; [|apply Hg].
  change (slot (with_size n d')) with (slot d'). apply slot_ext. intros Hi. cbn. apply fupd_ne.
  pose proof (io_owned _ _ _ Hio NDIRECT) as Ho. rewrite slot_direct in Ho by lia. by apply Ho.
Qed.

(** The result of a write: [r] is what [writei] returned, in state [s']. *)
Record write_done (s : Fs S) (a : Dev) (ip : Z) (i : Inode) (off : Z) (src : list Z)
    (r : result Z) (l : Logged S) (a' : Dev) (d' : DInode) : Prop := {
  wd_st : st l = st (fs_log s);
  wd_len : llen (lg l) <= llen (lg (fs_log s)) + write_cost (i_din i) (view a) off (zlen src);
  wd_writing : writing (put_din l ip i d' s) a' ip (set_din d' i);
  wd_dense : dense d' (view a');
  wd_size : exists n addrs, d' = with_size n (with_addrs addrs (i_din i));
  wd_others : others_kept (i_inum i) (i_din i) a a';
  wd_slots : grown_slots (i_din i) a d' a';
  wd_result :
    (r = Ok (zlen src) /\ contents d' (view a') = zsplice (contents (i_din i) (view a)) off src /\
       (synced a (i_inum i) (i_din i) -> synced a' (i_inum i) d')) \/
    (r = Err "balloc: out of blocks" /\ (forall b, 0 <= b < sb_size sb -> used sb (view a') b = true) /\
       exists n, 0 <= n < zlen src /\ di_size (i_din i) <= (off + n) / BSIZE * BSIZE /\ contents d' (view a') =
         take (Z.to_nat (di_size (i_din i))) (zsplice (contents (i_din i) (view a)) off (zslice src 0 n))) }.

(** The ends of [writei]: out of blocks, or all of it inside the file. *)
Lemma write_done_full s a ip i off src l a' d' n :
  let d := i_din i in let c := contents d (view a) in
  inode_ok a (i_inum i) d -> dense d (view a) -> 0 <= off <= di_size d -> off + zlen src <= MAXFILE * BSIZE -> 0 <= n < zlen src ->
  st l = st (fs_log s) -> writing (put_din l ip i d' s) a' ip (set_din d' i) ->
  llen (lg l) <= llen (lg (fs_log s)) + write_cost d (view a) off (zlen src) ->
  wrote off (zslice src 0 n) (i_inum i) d a d' a' -> slot d' (view a') (slot_of ((off + n) / BSIZE)) = 0 ->
  (forall b, 0 <= b < sb_size sb -> used sb (view a') b = true) ->
  write_done s a ip i off src (Err "balloc: out of blocks") l a' d'.
Proof.
  intros d c Hio Hd Hoff Hend Hn St W L Wr Hz0 Hfull. assert (BSIZE = 4096) as HB by done.
  pose proof (wrote_size _ _ _ _ _ _ _ Wr) as Hsz.
  assert (zlen (zslice src 0 n) = n) as Hzn by (rewrite zlen_zslice; lia).
  split; [done|done|exact W| | |by eapply wrote_others|by eapply wrote_grown|].
  - rewrite <-(with_size_same d'), Hsz. eapply wrote_dense; [exact Wr|done|done|rewrite Hzn; lia|lia].
  - destruct (wr_addrs _ _ _ _ _ _ _ Wr) as [addrs ->]. exists (di_size d), addrs. apply (with_same (with_addrs addrs d)).
  - right. split; [done|]. split; [done|]. exists n. split; [done|]. fold d. split.
    + assert (0 <= (off + n) / BSIZE) by (apply Z.div_pos; lia).
      destruct (decide (di_size d <= (off + n) / BSIZE * BSIZE)); [done|]. exfalso.
      assert (slot d (view a) (slot_of ((off + n) / BSIZE)) <> 0) as Hnz by (apply Hd; lia).
      by rewrite (wr_keep _ _ _ _ _ _ _ Wr _ Hnz) in Hz0.
    + rewrite <-(wrote_contents _ _ _ _ _ _ _ Wr Hd Hoff) by (rewrite Hzn; lia).
      rewrite <-contents_take by lia. by rewrite <-Hsz, with_size_same.
Qed.

Lemma write_done_inside s a ip i off src l a' :
  let d := i_din i in
  inode_ok a (i_inum i) d -> dense d (view a) -> 0 <= off -> off + zlen src <= di_size d ->
  st l = st (fs_log s) -> writing (put_din l ip i d s) a' ip (set_din d i) ->
  llen (lg l) <= llen (lg (fs_log s)) + write_cost d (view a) off (zlen src) ->
  wrote off src (i_inum i) d a d a' -> write_done s a ip i off src (Ok (zlen src)) l a' d.
Proof.
  intros d Hio Hd Hoff Hend St W L Wr. pose proof (zlen_nonneg src). pose proof (proj1 Hd).
  pose proof (wrote_contents _ _ _ _ _ _ _ Wr Hd ltac:(lia) ltac:(lia)) as Hc. rewrite Z.max_l, with_size_same in Hc by lia.
  split; [done|done|exact W| | |by eapply wrote_others|by eapply wrote_grown|].
  - rewrite <-(with_size_same d). eapply wrote_dense; [exact Wr|done|lia|lia|lia].
  - exists (di_size d), (di_addrs d). apply with_same.
  - left. split; [done|]. split; [exact Hc|]. unfold synced. by rewrite (inode_block_kept _ _ _ _ _ _ _ Wr Hio).
Qed.

Lemma writei_grow s a ip i src off :
  let d := i_din i in
  writing s a ip i -> LOGSIZE < capacity -> dense d (view a) -> 0 <= off <= di_size d ->
  off + zlen src <= MAXFILE * BSIZE -> log_room (fs_log s) size (2 * spanned off (zlen src) + 5) ->
  exists r l a' d', writei ip src off s = Ret (r, put_din l ip i d' s) /\ write_done s a ip i off src r l a' d'.
Proof.
  intros d Hw Hcap Hd Hoff Hend Hroom. pose proof (zlen_nonneg src) as Hz. pose proof Hw as [Ht Hh Hlk Hsb Hal Hio].
  assert (BSIZE = 4096 /\ NDIRECT = 12 /\ MAXFILE = 524) as (HB & HN & HM) by done.
  pose proof (spanned_bound off (zlen src) ltac:(lia) Hz) as Hsb'. pose proof (spanned_nonneg off _ Hz) as Hsp.
  assert (0 <= zlen src / BSIZE) by (apply Z.div_pos; lia).
  unfold writei. rewrite (bind_run _ _ _ _ _ (isize_run _ _ _ (proj1 Hlk))). fold d. set (sz := di_size d) in *.
  rewrite (proj2 (Z.ltb_ge sz off)) by lia.
  rewrite (proj2 (Z.ltb_ge (wrap 64 _) off)) by (unfold wrap; rewrite Z.mod_small by lia; lia).
  rewrite (proj2 (Z.ltb_ge (MAXFILE * BSIZE) _)) by lia. destruct Hroom as [Hr1 Hr2].
  pose proof (txn_dirty_size _ _ _ _ Ht) as Hds. pose proof (charge_bound d a) as Hcb.
  destruct (writei_loop_grow (blocks_touched (zlen src)) s a ip i src off Hw Hcap ltac:(lia) Hend)
    as (l & a' & d' & St & W & L & Hres); [split; fold d; lia|unfold blocks_touched; lia|]. fold d in Hres, Hio, L.
  assert (0 <= saved d (view a) off (zlen src)) as Hsv by (unfold saved; destruct (_ || _); lia).
  pose proof (txn_dirty_size _ _ _ _ (wg_txn _ _ _ _ W)) as Hds'. pose proof (charge_bound d' a') as Hcb'.
  cbn [fs_log put_din put_log] in Hds'. assert (llen (lg l) + 1 <= llen (lg (fs_log s)) + write_cost d (view a) off (zlen src)) as L'
    by (unfold write_cost; lia).
  assert (zlen (di_addrs d') = zlen (di_addrs d)) as Hla.
  { pose proof (io_dinode _ _ _ Hio) as (_ & _ & _ & _ & _ & H1 & _).
    pose proof (io_dinode _ _ _ (wg_inode _ _ _ _ W)) as (_ & _ & _ & _ & _ & H2 & _). etrans; [exact H2|done]. }
  destruct Hres as [(E & Wr & To)|(E & (n & Hn & Wr & Hz0) & Hfull)].
  - pose proof (wrote_size _ _ _ _ _ _ _ Wr) as Hsz. fold sz in Hsz. rewrite (try_run _ _ _ _ _ E).
    rewrite (bind_run _ _ _ _ _ (isize_run _ _ _ (proj1 (wg_locked _ _ _ _ W)))). cbn [i_din set_din]. rewrite Hsz.
    pose proof (wrote_contents _ _ _ _ _ _ _ Wr Hd Hoff Hend) as Hc. fold sz in Hc.
    destruct (decide (sz < off + zlen src)) as [Hg|Hg].
    + rewrite (proj2 (Z.ltb_lt sz _)), (proj2 (Z.ltb_lt 0 _)) by lia. cbn [andb].
      destruct (writei_finish _ _ _ _ (off + zlen src) W) as (l2 & E2 & St2 & L2 & W2);
        [split; cbn; lia|done|unfold uN; lia|cbn [i_din set_din]; lia|].
      rewrite put_din_put in E2, W2.
      cbn [fs_log put_din put_log i_din set_din i_inum] in *.
      rewrite Z.max_r in Hc by lia.
      destruct (stored_others _ _ (with_size (off + zlen src) d') _ _ (wrote_others _ _ _ _ _ _ _ Wr Hio)) as [Ho Hs].
      { intros m. by apply (rep_len _ _ m (tx_rep _ _ _ _ (wg_txn _ _ _ _ W))). }
      { apply (io_dinode _ _ _ (wg_inode _ _ _ _ W2)). }
      { apply (io_iblock _ _ _ Hio). }
      assert (dense (with_size (off + zlen src) d') (view a')) as Hde
        by (eapply wrote_dense; [exact Wr|done|done|done|fold d sz; lia]).
      destruct (contents_stored a' (i_inum i) (with_size (off + zlen src) d') (with_size (off + zlen src) d')) as [Hcs Hds2];
        [apply inode_ok_size, W; unfold uN; lia|done|].
      eexists (Ok (zlen src)), l2, _, (with_size (off + zlen src) d'). split.
      { rewrite (try_run _ _ _ _ _ E2). done. }
      split; [congruence|fold d; lia|exact W2|exact Hds2| |exact Ho|apply grown_stored; [by eapply wrote_grown|apply W]|].
      * destruct (wr_addrs _ _ _ _ _ _ _ Wr) as [addrs ->]. by eexists _, _.
      * left. split; [done|]. split; [|by intros _]. etrans; [exact Hcs|exact Hc].
    + rewrite (proj2 (Z.ltb_ge sz _)), andb_false_r by lia.
      pose proof (no_growth _ _ _ _ _ _ _ Wr To Hla Hd ltac:(lia) ltac:(fold d sz; lia)) as ->.
      exists (Ok (zlen src)), l, a', d. split; [done|]. apply write_done_inside; try done; fold d; lia.
  - rewrite (try_err _ _ _ _ _ E). exists (Err "balloc: out of blocks"), l, a', d'. split; [done|].
    apply (write_done_full _ _ _ _ _ _ _ _ _ n); try done. fold d. lia.
Qed.

Lemma dense_mapped a inum d :
  inode_ok a inum d -> dense d (view a) -> mapped d (view a) ((di_size d + BSIZE - 1) / BSIZE).
Proof.
  intros Hio [Hs Hd]. assert (BSIZE = 4096 /\ NDIRECT = 12 /\ MAXFILE = 524) as (HB & HN & HM) by done.
  pose proof (Z.div_mod (di_size d + BSIZE - 1) BSIZE ltac:(lia)) as Hdm.
  pose proof (Z.mod_pos_bound (di_size d + BSIZE - 1) BSIZE ltac:(lia)).
  set (k := (di_size d + BSIZE - 1) / BSIZE) in *.
  split; [apply (io_dinode _ _ _ Hio)|]. split; [lia|]. intros bn Hbn.
  assert (slot d (view a) (slot_of bn) <> 0) as Hnz by (apply Hd; lia). rewrite block_of_slot by (try lia; done).
  split; [apply (ow_range _ _ _ (io_owned _ _ _ Hio _ Hnz))|]. intros Hge.
  assert (slot d (view a) NDIRECT <> 0) as Hi.
  { rewrite slot_direct by lia. eapply slot_indirect, Hnz. unfold slot_of. rewrite (proj2 (Z.ltb_ge bn NDIRECT)); lia. }
  pose proof (ow_range _ _ _ (io_owned _ _ _ Hio _ Hi)) as Hr. rewrite slot_direct in Hr by lia. apply Hr.
Qed.

(** Reading in a transaction. *)
Lemma writing_readi s a ip i len off :
  writing s a ip i -> LOGSIZE < capacity -> dense (i_din i) (view a) -> 0 <= off <= di_size (i_din i) -> 0 <= len < 2 ^ 32 ->
  exists b, readi ip len off s =
      Ret (Ok (zslice (contents (i_din i) (view a)) off (Z.min (off + len) (di_size (i_din i)))), set_bl b s) /\
    rep b a /\ writing (set_bl b s) a ip i.
Proof.
  intros Hw Hcap Hd Hoff Hlen. pose proof Hw as [Ht Hh Hlk Hsb Hal Hio].
  pose proof (txn_dirty_size _ _ _ _ Ht) as Hdsz. pose proof (tx_wf _ _ _ _ Ht) as [_ Hwl].
  assert (BSIZE = 4096 /\ MAXFILE = 524) as (HB & HM) by done. pose proof (proj1 Hd) as Hs.
  destruct (readi_run s a ip i len off (tx_rep _ _ _ _ Ht) Hh ltac:(lia) Hlk Hoff ltac:(lia) ltac:(lia)
    (dense_mapped _ _ _ Hio Hd)) as (b & E & R).
  exists b. split; [done|]. split; [done|]. split; try done. by eapply txn_put.
Qed.

(** C29: [writei] in a transaction, at an offset within a file, up to the
    largest file there can be: it splices the bytes into the contents of the
    file, which grows when they reach past its end, with a free block
    allocated, zeroed and mapped for each new block, directly or through the
    indirect block, itself allocated when the first block behind it is; a
    [readi] of the range returns them; the inode on disk stays equal to the
    one in memory; no block in use that is not the file's, and no other inode,
    changes; and at most two log entries per block touched, one for the inode
    and two for an indirect block are used, one less when the first block is
    there already.  If a block past the end is needed and the device has none
    left, it returns the error with the bytes of the blocks before written and
    the size unchanged. *)
Theorem writei_extends s a ip i src off :
  let d := i_din i in let c := contents d (view a) in
  writing s a ip i -> LOGSIZE < capacity -> dense d (view a) -> 0 <= off <= di_size d ->
  off + zlen src <= MAXFILE * BSIZE -> log_room (fs_log s) size (2 * spanned off (zlen src) + 5) ->
  exists l a' d', let s' := put_din l ip i d' s in
    writing s' a' ip (set_din d' i) /\ dense d' (view a') /\ others_kept (i_inum i) d a a' /\
    llen (lg l) <= llen (lg (fs_log s)) + write_cost d (view a) off (zlen src) /\
    ((writei ip src off s = Ret (Ok (zlen src), s') /\
      contents d' (view a') = zsplice c off src /\ di_size d' = Z.max (di_size d) (off + zlen src) /\
      (exists b, readi ip (zlen src) off s' = Ret (Ok src, set_bl b s')) /\
      (synced a (i_inum i) d -> synced a' (i_inum i) d')) \/
     (writei ip src off s = Ret (Err "balloc: out of blocks", s') /\
      (forall b, 0 <= b < sb_size sb -> used sb (view a') b = true) /\ di_size d' = di_size d /\
      exists n, 0 <= n < zlen src /\ di_size d <= (off + n) / BSIZE * BSIZE /\
        contents d' (view a') = take (Z.to_nat (di_size d)) (zsplice c off (zslice src 0 n)))).
Proof.
  intros d c Hw Hcap Hd Hoff Hend Hroom.
  destruct (writei_grow s a ip i src off Hw Hcap Hd Hoff Hend Hroom) as (r & l & a' & d' & E & [St L W De Sz Ot Sl Res]).
  exists l, a', d'. do 4 (split; [done|]).
  assert (BSIZE = 4096 /\ MAXFILE = 524) as (HB & HM) by done. pose proof (zlen_nonneg src) as Hz.
  assert (0 <= di_size d') as Hd0.
  { pose proof (io_dinode _ _ _ (wg_inode _ _ _ _ W)) as (_ & _ & _ & _ & Hu & _). apply Hu. }
  assert (zlen c = di_size d) as Hc by (apply zlen_contents; fold d in Hoff; lia).
  destruct Res as [(-> & Hcon & Hsy)|(-> & Hfull & n & Hn & Hge & Hcon)]; [left|right]; fold d c in Hcon.
  - assert (di_size d' = Z.max (di_size d) (off + zlen src)) as Hsz.
    { rewrite <-(zlen_contents d' (view a') Hd0), Hcon. rewrite zlen_zsplice_grow; lia. }
    split; [done|]. split; [done|]. split; [done|]. split; [|done].
    destruct (writing_readi _ _ _ _ (zlen src) off W Hcap De) as (b & Er & _); [cbn [i_din set_din]; lia|lia|].
    exists b. rewrite Er. cbn [i_din set_din]. rewrite Hcon, Z.min_l by lia. do 3 f_equal.
    apply znth_ext; [rewrite zlen_zslice; rewrite ?zlen_zsplice_grow; lia|]. intros x Hx.
    rewrite zlen_zslice in Hx by (rewrite ?zlen_zsplice_grow; lia).
    rewrite znth_zslice, znth_zsplice_grow, bool_decide_eq_true_2 by lia. f_equal. lia.
  - split; [done|]. split; [done|]. split; [|by exists n].
    rewrite <-(zlen_contents d' (view a') Hd0), Hcon. rewrite <-Hc.
    assert (zlen (zslice src 0 n) = n) as Hzn by (rewrite zlen_zslice; lia).
    pose proof (zlen_zsplice_grow c off (zslice src 0 n) ltac:(lia)) as Hg. unfold zlen in *. rewrite length_take. lia.
Qed.
End grow.
