(* ===== verification/FsDirSpec.v ===== *)
(** Directories as finite maps from names to inode numbers: what
    [dir_lookup], [dir_link] and their loops do to the map that a directory's
    contents stand for. *)
From stdpp Require Import base list gmap strings fin_sets.
From Stdlib Require Import ZArith Lia.
From S2P Require Import Prelude.
From S2P Require Import Arch.
From S2P Require Import Sleeplock.
From S2P Require Import BlockLayer.
From S2P Require Import Fslog.
From S2P Require Import FslogCrash.
From S2P Require Import FslogSpec.
From S2P Require Import FsLayout.
From S2P Require Import Fs.
From S2P Require Import FsSpec.
From S2P Require Import FsFile.
From S2P Require Import FsGrow.
From S2P Require Import FsDir.
From S2P Require Import Icache.

(** ** The abstract directory *)
Definition entry_of (c : list Z) (k : Z) : Dirent :=
  Dirent_decode (zslice c (DIRENT_SIZE * k) (DIRENT_SIZE * k + DIRENT_SIZE)).

Definition dir_entries (c : list Z) : list Dirent := entry_of c <$> zrange 0 (zlen c / DIRENT_SIZE).

(** An entry with inode number 0 is free; of two entries with one name the
    first counts. *)
Definition add_entry (e : Dirent) (m : gmap (list Z) Z) : gmap (list Z) Z :=
  if d_inum e =? 0 then m else <[Dirent_name e := d_inum e]> m.
Definition names_of (es : list Dirent) : gmap (list Z) Z := foldr add_entry ∅ es.
Definition names (c : list Z) : gmap (list Z) Z := names_of (dir_entries c).

Definition answers (name : list Z) (e : Dirent) : bool :=
  negb (d_inum e =? 0) && bool_decide (Dirent_name e = name).

Lemma names_of_lookup name es : names_of es !! name = d_inum <$> List.find (answers name) es.
Proof.
  induction es as [|e es IH]; [done|]. cbn [names_of foldr List.find]. fold (names_of es).
  unfold add_entry, answers at 1. destruct (d_inum e =? 0); cbn [negb andb]; [done|].
  case_bool_decide as Hn; [by rewrite Hn, lookup_insert_eq|by rewrite lookup_insert_ne].
Qed.

Lemma names_of_None name es :
  names_of es !! name = None <-> Forall (fun e => answers name e = false) es.
Proof.
  rewrite names_of_lookup, fmap_None. induction es as [|e es IH]; [split; [constructor|done]|].
  cbn [List.find]. rewrite Forall_cons, <-IH. destruct (answers name e); [split; [done|by intros []]|tauto].
Qed.

(** A new entry in a free place adds its name. *)
Lemma names_of_insert es1 es2 e :
  d_inum e <> 0 -> names_of (es1 ++ es2) !! Dirent_name e = None ->
  names_of (es1 ++ e :: es2) = <[Dirent_name e := d_inum e]> (names_of (es1 ++ es2)).
Proof.
  intros Hz Hn. induction es1 as [|e1 es1 IH]; cbn [app names_of foldr].
  - unfold add_entry. by rewrite (proj2 (Z.eqb_neq _ _) Hz).
  - fold (names_of (es1 ++ e :: es2)) (names_of (es1 ++ es2)).
    apply names_of_None, Forall_cons in Hn as [H1 Hn]. rewrite IH by (by apply names_of_None).
    unfold add_entry, answers in *. destruct (d_inum e1 =? 0); [done|]. cbn in H1.
    apply bool_decide_eq_false in H1. by rewrite insert_insert_ne.
Qed.

Lemma names_of_free es1 es2 e : d_inum e = 0 -> names_of (es1 ++ e :: es2) = names_of (es1 ++ es2).
Proof.
  intros Hz. unfold names_of. rewrite !foldr_app. f_equal. cbn [foldr]. unfold add_entry at 1. by rewrite Hz.
Qed.

Lemma zlen_dir_entries c : zlen (dir_entries c) = zlen c / DIRENT_SIZE.
Proof.
  unfold dir_entries. rewrite zlen_fmap, zlen_zrange; [lia|]. apply Z.div_pos; [|done]. apply zlen_nonneg.
Qed.

Lemma znth_dir_entries c k : 0 <= k < zlen c / DIRENT_SIZE -> (dir_entries c).[k] = Some (entry_of c k).
Proof. intros Hk. unfold dir_entries. rewrite znth_fmap, znth_zrange by lia. done. Qed.

(** Splicing the bytes of an entry splices the entry. *)
Lemma dir_entries_splice c k bs :
  (DIRENT_SIZE | zlen c) -> zlen bs = DIRENT_SIZE -> 0 <= k <= zlen c / DIRENT_SIZE ->
  (DIRENT_SIZE | zlen (zsplice c (DIRENT_SIZE * k) bs)) /\
  dir_entries (zsplice c (DIRENT_SIZE * k) bs) = zsplice (dir_entries c) k [Dirent_decode bs].
Proof.
  intros [n Hn] Hb Hk. assert (DIRENT_SIZE = 32) as HD by done. rewrite Hn, Z.div_mul in Hk by lia.
  assert (zlen c = 32 * n) as Hn' by (rewrite Hn, HD; lia).
  assert (zlen (zsplice c (DIRENT_SIZE * k) bs) = Z.max n (k + 1) * DIRENT_SIZE) as Hl
    by (rewrite zlen_zsplice_grow, Hb, Hn', HD; rewrite ?Hn', ?HD; lia).
  split; [by exists (Z.max n (k + 1))|].
  assert (zlen (dir_entries c) = n) as Hle by (rewrite zlen_dir_entries, Hn, Z.div_mul; lia).
  assert (zlen (dir_entries (zsplice c (DIRENT_SIZE * k) bs)) = Z.max n (k + 1)) as Hle'
    by (rewrite zlen_dir_entries, Hl, Z.div_mul; lia).
  assert (zlen [Dirent_decode bs] = 1) as H1 by done.
  apply znth_ext; [rewrite Hle', zlen_zsplice_grow by lia; lia|].
  intros j Hj. rewrite Hle' in Hj. rewrite znth_dir_entries by (rewrite Hl, Z.div_mul; lia).
  rewrite znth_zsplice_grow by lia. change (zlen [Dirent_decode bs]) with 1.
  assert (forall x, 0 <= x < DIRENT_SIZE ->
    (zsplice c (DIRENT_SIZE * k) bs).[DIRENT_SIZE * j + x] =
      if decide (j = k) then bs.[x] else c.[DIRENT_SIZE * j + x]) as Hx.
  { intros x Hx. rewrite znth_zsplice_grow by lia. destruct (decide (j = k)) as [->|].
    - rewrite bool_decide_eq_true_2 by lia. f_equal. lia.
    - rewrite bool_decide_eq_false_2 by lia. done. }
  case_bool_decide.
  - assert (j = k) as -> by lia. rewrite Z.sub_diag. change ([Dirent_decode bs].[0]) with (Some (Dirent_decode bs)).
    unfold entry_of. do 2 f_equal. apply znth_ext; [rewrite zlen_zslice; lia|]. intros x Hx'. rewrite zlen_zslice in Hx' by lia.
    rewrite znth_zslice, Hx by lia. by rewrite decide_True.
  - rewrite znth_dir_entries by (rewrite Hn, Z.div_mul; lia). unfold entry_of. do 2 f_equal.
    apply znth_ext; [rewrite !zlen_zslice; lia|]. intros x Hx'. rewrite zlen_zslice in Hx' by lia.
    rewrite !znth_zslice, Hx by lia. by rewrite decide_False by lia.
Qed.

Lemma step_range_scale n d : 0 < d -> 0 <= n -> step_range 0 (n * d) d = Z.mul d <$> zrange 0 n.
Proof.
  intros Hd Hn. unfold zrange, step_range. destruct (Z.ltb_spec 0 n).
  - rewrite (proj2 (Z.ltb_lt 0 (n * d))) by lia. rewrite <-list_fmap_compose.
    replace ((n * d - 0 + d - 1) / d) with n by (apply Z.div_unique with (d - 1); lia).
    rewrite Z.div_1_r. replace (n - 0 + 1 - 1) with n by lia.
    apply list_fmap_ext. intros k x _. cbn. lia.
  - rewrite (proj2 (Z.ltb_ge 0 (n * d))) by lia. done.
Qed.

Lemma find_fmap {A B} (f : A -> B) (p : B -> bool) l : List.find p (f <$> l) = f <$> List.find (p ∘ f) l.
Proof. induction l as [|x l IH]; [done|]. cbn. by destruct (p (f x)). Qed.

Section dirs.
Context {S : Type} `{BL : BlockLaws S}.
Implicit Types (s : Fs S) (a : Dev).

(** The process holds the lock of the directory [i], whose contents are [c]. *)
Record dir_open (s : Fs S) (a : Dev) (dp : Z) (i : Inode) (c : list Z) : Prop := {
  do_rep : rep (bl (fs_log s)) a;
  do_held : held a = ∅;
  do_room : Z.of_nat (base.size (dirty a)) < capacity;
  do_locked : locked_at s dp i;
  do_typ : di_typ (i_din i) = FileType_val FtDir;
  do_size : 0 <= di_size (i_din i) < 2 ^ 63;
  do_mapped : mapped (i_din i) (view a) ((di_size (i_din i) + BSIZE - 1) / BSIZE);
  do_contents : contents (i_din i) (view a) = c;
  do_aligned : (DIRENT_SIZE | di_size (i_din i)) }.

Lemma dir_open_bl s a dp i c b : dir_open s a dp i c -> rep b a -> dir_open (set_bl b s) a dp i c.
Proof. intros [] Hb. by split. Qed.

Lemma dir_open_len s a dp i c : dir_open s a dp i c -> zlen c = di_size (i_din i).
Proof. intros Ho. rewrite <-(do_contents _ _ _ _ _ Ho). apply zlen_contents, Ho. Qed.

(** The number of entries. *)
Lemma dir_open_count s a dp i c :
  dir_open s a dp i c -> zlen c = zlen c / DIRENT_SIZE * DIRENT_SIZE /\ 0 <= zlen c / DIRENT_SIZE.
Proof.
  intros Ho. pose proof (zlen_nonneg c). split; [|by apply Z.div_pos].
  destruct (do_aligned _ _ _ _ _ Ho) as [n Hn]. rewrite <-(dir_open_len _ _ _ _ _ Ho) in Hn.
  rewrite Hn at 2. by rewrite Z.div_mul.
Qed.

Lemma dirent_read_run s a dp i c k :
  dir_open s a dp i c -> 0 <= k < zlen c / DIRENT_SIZE ->
  exists b, read_entry dp (DIRENT_SIZE * k) s =
      Ret (Ok (zslice c (DIRENT_SIZE * k) (DIRENT_SIZE * k + DIRENT_SIZE)), set_bl b s) /\ rep b a.
Proof.
  intros Ho Hk. pose proof (dir_open_count _ _ _ _ _ Ho) as [Hn _]. pose proof (dir_open_len _ _ _ _ _ Ho) as Hl.
  destruct Ho as [Hr Hh Hrm Hlk Hty Hsz Hm Hc Ha]. assert (DIRENT_SIZE = 32) as HD by done.
  set (n := zlen c / DIRENT_SIZE) in *. rewrite HD in *.
  destruct (readi_run s a dp i 32 (32 * k) Hr Hh Hrm Hlk ltac:(lia) ltac:(lia) ltac:(lia) Hm) as (b & E & R).
  exists b. split; [|done]. unfold read_entry. rewrite HD, (try_run _ _ _ _ _ E), Hc, Z.min_l by lia.
  rewrite bind_assert; [done|]. apply Z.eqb_eq. rewrite zlen_zslice; lia.
Qed.

(** ** Lookup *)
Lemma lookup_loop_run s a dp i c sb name ks :
  dir_open s a dp i c -> i_sb i = Some sb -> Forall (fun k => 0 <= k < zlen c / DIRENT_SIZE) ks ->
  exists b, rep b a /\
  dir_lookup_loop dp name (Z.mul DIRENT_SIZE <$> ks) s =
    match List.find (answers name ∘ entry_of c) ks with
    | Some k => (ip <-? iget ROOTDEV (d_inum (entry_of c k)) sb ;; mret (Ok (ip, DIRENT_SIZE * k))) (set_bl b s)
    | None => Ret (Err "file not found", set_bl b s)
    end.
Proof.
  intros Ho Hsb Hks. revert s Ho. induction Hks as [|k ks Hk _ IH]; intros s Ho.
  { exists (bl (fs_log s)). split; [apply Ho|]. cbn. by destruct s as [[]]. }
  cbn [fmap list_fmap dir_lookup_loop List.find].
  destruct (dirent_read_run s a dp i c k Ho Hk) as (b1 & E1 & R1). rewrite (try_run _ _ _ _ _ E1).
  change (Dirent_decode (zslice c (DIRENT_SIZE * k) (DIRENT_SIZE * k + DIRENT_SIZE))) with (entry_of c k).
  pose proof (dir_open_bl _ _ _ _ _ b1 Ho R1) as Ho1. destruct (IH _ Ho1) as (b2 & R2 & E2).
  unfold compose at 1, answers at 1. destruct (d_inum (entry_of c k) =? 0); cbn [negb andb]; [by exists b2|].
  case_bool_decide; [|by exists b2]. exists b1. split; [done|].
  destruct (superblock_run (set_bl b1 s) dp i "superblockless inode" (do_locked _ _ _ _ _ Ho1)) as (sb' & Hsb' & Esb).
  assert (sb' = sb) as -> by congruence. pose proof (do_locked _ _ _ _ _ Ho1) as (Ei & _ & _ & Hdev).
  by rewrite (bind_run _ _ _ _ _ Esb), (bind_run _ _ _ _ _ (inode_at_run _ _ _ Ei)), Hdev.
Qed.

(** The position of the entry that answers to a name. *)
Definition find_entry (c name : list Z) : option Z :=
  List.find (answers name ∘ entry_of c) (zrange 0 (zlen c / DIRENT_SIZE)).

Lemma names_find c name : names c !! name = (fun k => d_inum (entry_of c k)) <$> find_entry c name.
Proof. unfold names, dir_entries. rewrite names_of_lookup, find_fmap, <-option_fmap_compose. done. Qed.

Lemma ityp_dir s a dp i c : dir_open s a dp i c -> ityp dp s = Ret (FtDir, s).
Proof.
  intros Ho. unfold ityp. pose proof (do_locked _ _ _ _ _ Ho) as (Ei & _).
  rewrite (bind_run _ _ _ _ _ (inode_at_run _ _ _ Ei)), (do_typ _ _ _ _ _ Ho). done.
Qed.

Lemma lookup_offset_run s a dp i c sb name :
  dir_open s a dp i c -> i_sb i = Some sb ->
  exists b, rep b a /\
  dir_lookup_offset dp name s =
    match find_entry c name with
    | Some k => (ip <-? iget ROOTDEV (d_inum (entry_of c k)) sb ;; mret (Ok (ip, DIRENT_SIZE * k))) (set_bl b s)
    | None => Ret (Err "file not found", set_bl b s)
    end.
Proof.
  intros Ho Hsb. pose proof (dir_open_count _ _ _ _ _ Ho) as [Hn H0].
  unfold dir_lookup_offset. rewrite (bind_run _ _ _ _ _ (ityp_dir _ _ _ _ _ Ho)), bind_assert by done.
  pose proof (do_locked _ _ _ _ _ Ho) as (Ei & _). rewrite (bind_run _ _ _ _ _ (isize_run _ _ _ Ei)).
  rewrite <-(dir_open_len _ _ _ _ _ Ho), Hn, step_range_scale by done.
  eapply lookup_loop_run; [done|done|]. apply Forall_forall. intros k Hk%elem_of_zrange. done.
Qed.

(** C28: [dir_lookup] under the directory's lock answers from the finite map
    its entries stand for.  A name the map does not have is the error "file
    not found", with nothing changed but cached blocks.  A name it has gives
    a cache entry that refers to the inode number the map holds, with one
    more reference and every other entry kept; the cache is full exactly when
    every entry is in use and none is that inode's. *)
Theorem dir_lookup_refines s a dp i c sb name :
  dir_open s a dp i c -> i_sb i = Some sb -> icache_ok (fs_icache s) ->
  exists b, rep b a /\
  match names c !! name with
  | None => dir_lookup dp name s = Ret (Err "file not found", set_bl b s)
  | Some inum =>
    (exists k j j', (fs_icache s).[k] = Some j /\
       dir_lookup dp name s = Ret (Ok k, put_icache (fs_icache s).[k <- j'] (set_bl b s)) /\
       i_ref j' = i_ref j + 1 /\ refers ROOTDEV inum j' /\
       (refers ROOTDEV inum j /\ i_din j' = i_din j \/ i_ref j = 0 /\ i_valid j' = false)) \/
    (dir_lookup dp name s = Ret (Err "Inode::get: no inodes", set_bl b s) /\
     forall k j, (fs_icache s).[k] = Some j -> 0 < i_ref j /\ ~ refers ROOTDEV inum j)
  end.
Proof.
  intros Ho Hsb Hok. destruct (lookup_offset_run s a dp i c sb name Ho Hsb) as (b & R & E).
  exists b. split; [done|]. rewrite names_find. unfold dir_lookup.
  destruct (find_entry c name) as [k|]; cbn [fmap option_fmap option_map]; [|by rewrite (try_err _ _ _ _ _ E)].
  destruct (iget_cases (set_bl b s) ROOTDEV (d_inum (entry_of c k)) sb Hok)
    as [(j & x & x' & Hx & Eg & Hr & Href & Hc)|(Eg & Hall)]; [left|right; split; [|done]].
  - rewrite (try_run _ _ _ _ _ Eg) in E. exists j, x, x'. split; [done|].
    split; [by rewrite (try_run _ _ _ _ _ E)|]. split; [done|]. split; [done|].
    destruct Hc as [[H1 ->]|(H1 & -> & _)]; [by left|by right].
  - rewrite (try_err _ _ _ _ _ Eg) in E. by rewrite (try_err _ _ _ _ _ E).
Qed.

(** ** The search for a free entry *)
Lemma free_entry_run fuel s a dp i c k :
  dir_open s a dp i c -> 0 <= k <= zlen c / DIRENT_SIZE -> zlen c / DIRENT_SIZE - k < Z.of_nat fuel ->
  exists b k', free_entry fuel dp (DIRENT_SIZE * k) s = Ret (Ok (DIRENT_SIZE * k'), set_bl b s) /\ rep b a /\
    k <= k' <= zlen c / DIRENT_SIZE /\ (k' < zlen c / DIRENT_SIZE -> d_inum (entry_of c k') = 0).
Proof.
  assert (DIRENT_SIZE = 32) as HD by done.
  revert s k. induction fuel as [|fuel IH]; intros s k Ho Hk Hf; [lia|]. cbn [free_entry].
  pose proof (do_locked _ _ _ _ _ Ho) as (Ei & _). rewrite (bind_run _ _ _ _ _ (isize_run _ _ _ Ei)).
  pose proof (dir_open_count _ _ _ _ _ Ho) as [Hn H0]. rewrite <-(dir_open_len _ _ _ _ _ Ho).
  destruct (Z.ltb_spec (DIRENT_SIZE * k) (zlen c)) as [Hlt|Hge].
  - assert (k < zlen c / DIRENT_SIZE) as Hk' by (rewrite HD in *; lia).
    destruct (dirent_read_run s a dp i c k Ho ltac:(lia)) as (b1 & E1 & R1). rewrite (try_run _ _ _ _ _ E1).
    change (field 8 0 (zslice c (DIRENT_SIZE * k) (DIRENT_SIZE * k + DIRENT_SIZE))) with (d_inum (entry_of c k)).
    destruct (Z.eqb_spec (d_inum (entry_of c k)) 0) as [Hz|Hz].
    + exists b1, k. split; [done|]. split; [done|]. split; [lia|done].
    + destruct (IH (set_bl b1 s) (k + 1)) as (b2 & k' & E2 & R2 & Hk2 & Hz2);
        [by apply dir_open_bl|lia|lia|].
      exists b2, k'. replace (DIRENT_SIZE * k + DIRENT_SIZE) with (DIRENT_SIZE * (k + 1)) by lia.
      split; [exact E2|]. split; [done|]. split; [lia|done].
  - exists (bl (fs_log s)), k. split; [cbn; by destruct s as [[]]|]. split; [apply Ho|]. split; [lia|].
    rewrite HD in *. lia.
Qed.
End dirs.

(** ** Linking *)
Section link.
Context {S : Type} `{BL : BlockLaws S}.
Context (sb : Superblock) (start size : Z) (Hbm : bitmap_ok sb start size).
Implicit Types (s : Fs S) (a : Dev).
Local Notation writing := (writing sb start size).

(** The process has the directory [i] with contents [c] locked in a
    transaction. *)
Record dir_writing (s : Fs S) (a : Dev) (dp : Z) (i : Inode) (c : list Z) : Prop := {
  dw_writing : writing s a dp i;
  dw_dense : dense (i_din i) (view a);
  dw_typ : di_typ (i_din i) = FileType_val FtDir;
  dw_contents : contents (i_din i) (view a) = c;
  dw_aligned : (DIRENT_SIZE | di_size (i_din i)) }.

Lemma dir_writing_open s a dp i c : LOGSIZE < capacity -> dir_writing s a dp i c -> dir_open s a dp i c.
Proof.
  intros Hcap [Hw Hd Ht Hc Ha]. pose proof Hw as [Htx Hh Hlk Hsb Hal Hio].
  pose proof (txn_dirty_size _ _ _ _ Htx) as Hdsz. pose proof (tx_wf _ _ _ _ Htx) as [_ Hwl].
  split; try done; [apply Htx|lia| |by eapply dense_mapped].
  pose proof (io_dinode _ _ _ _ _ _ Hio) as (_ & _ & _ & _ & Hu & _). pose proof (proj1 Hd) as Hs.
  assert (BSIZE = 4096 /\ MAXFILE = 524) as [HB HM] by done. unfold uN in Hu. lia.
Qed.

Lemma dir_writing_bl s a dp i c b : dir_writing s a dp i c -> rep b a -> dir_writing (set_bl b s) a dp i c.
Proof. intros [[Htx Hh Hlk Hsb Hal Hio] Hd Ht Hc Ha] Hb. split; try done. split; try done. by eapply txn_put. Qed.

Lemma spanned_entry k : 0 <= k -> spanned (DIRENT_SIZE * k) DIRENT_SIZE = 1.
Proof.
  intros Hk. unfold spanned. change (DIRENT_SIZE =? 0) with false. cbv iota.
  assert (DIRENT_SIZE = 32 /\ BSIZE = 4096) as [-> ->] by done.
  replace 4096 with (32 * 128) by done. rewrite Z.mul_mod_distr_l by lia.
  pose proof (Z.mod_pos_bound k 128 ltac:(lia)). symmetry. apply Z.div_unique with (32 * (k mod 128) + 31); lia.
Qed.

(** The entry written, or nothing. *)
Lemma entry_write_run s a dp i c k bs :
  dir_writing s a dp i c -> LOGSIZE < capacity -> zlen bs = DIRENT_SIZE -> 0 <= k <= zlen c / DIRENT_SIZE ->
  zlen c + DIRENT_SIZE <= MAXFILE * BSIZE -> log_room (fs_log s) size 7 ->
  exists r l a' d', writei dp bs (DIRENT_SIZE * k) s = Ret (r, put_din l dp i d' s) /\
    st l = st (fs_log s) /\ llen (lg l) <= llen (lg (fs_log s)) + 5 /\
    others_kept sb (i_inum i) (i_din i) a a' /\
    ((r = Ok DIRENT_SIZE /\ (synced sb a (i_inum i) (i_din i) -> synced sb a' (i_inum i) d') /\
      dir_writing (put_din l dp i d' s) a' dp (set_din d' i) (zsplice c (DIRENT_SIZE * k) bs)) \/
     (r = Err "balloc: out of blocks" /\ (BSIZE | zlen c) /\ (forall b, 0 <= b < sb_size sb -> used sb (view a') b = true) /\
      dir_writing (put_din l dp i d' s) a' dp (set_din d' i) c)).
Proof.
  intros Hd Hcap Hb Hk Hmax Hroom. pose proof (dir_writing_open _ _ _ _ _ Hcap Hd) as Ho.
  pose proof (dir_open_count _ _ _ _ _ Ho) as [Hn H0]. pose proof (dir_open_len _ _ _ _ _ Ho) as Hl.
  destruct Hd as [Hw De Ty Co Al]. assert (DIRENT_SIZE = 32 /\ BSIZE = 4096) as [HD HB] by done.
  pose proof (spanned_entry k ltac:(lia)) as Hsp. rewrite <-Hb in Hsp at 2. pose proof (do_size _ _ _ _ _ Ho) as Hs0.
  destruct (writei_grow sb start size Hbm s a dp i bs (DIRENT_SIZE * k) Hw Hcap De) as (r & l & a' & d' & E & [St L W De' Sz Ot Sl Res]).
  { rewrite <-Hl. rewrite HD in *. lia. }
  { rewrite Hb. rewrite HD in *. lia. }
  { rewrite Hsp. exact Hroom. }
  exists r, l, a', d'. split; [done|]. split; [done|]. split; [pose proof (write_cost_bound (i_din i) (view a) (DIRENT_SIZE * k) (zlen bs) ltac:(lia)) as Hwc; rewrite Hsp in Hwc; lia|]. split; [done|].
  assert (0 <= di_size d') as Hd0.
  { pose proof (io_dinode _ _ _ _ _ _ (wg_inode _ _ _ _ _ _ _ W)) as (_ & _ & _ & _ & Hu & _). apply Hu. }
  assert (di_typ d' = FileType_val FtDir) as Ty' by (by destruct Sz as (m & addrs & ->)).
  rewrite Co in Res. destruct Res as [(-> & Hc & Hsy)|(-> & Hfull & m & Hm & Hge & Hc)].
  - left. split; [by rewrite Hb|]. split; [done|]. split; try done. cbn [i_din set_din].
    destruct (dir_entries_splice c k bs) as [Hdiv _]; [by rewrite Hl|done|done|].
    rewrite <-Hc in Hdiv. by rewrite zlen_contents in Hdiv.
  - right. split; [done|].
    assert (DIRENT_SIZE * k = zlen c /\ zlen c = (DIRENT_SIZE * k + m) / BSIZE * BSIZE) as [Hkc Hdiv].
    { rewrite <-Hl in Hge. rewrite HD, HB in *.
      pose proof (Z.div_mod (32 * k + m) 4096 ltac:(lia)). pose proof (Z.mod_pos_bound (32 * k + m) 4096 ltac:(lia)). lia. }
    split; [by eexists|]. split; [done|].
    assert (contents d' (view a') = c) as Hc'.
    { rewrite Hc, Hkc. unfold zsplice. rewrite <-Hl. unfold zlen. rewrite Nat2Z.id, firstn_all. by rewrite take_app_length. }
    split; try done. cbn [i_din set_din]. rewrite <-(zlen_contents d' (view a') Hd0), Hc', Hl. done.
Qed.

(** [dir_link] of a name that [dir_lookup] did not find. *)
Lemma dir_link_run s a dp i c name inum b e :
  dir_writing s a dp i c -> LOGSIZE < capacity -> Forall (fun x => x <> 0) name -> uN 64 inum ->
  dir_lookup dp name s = Ret (Err e, set_bl b s) -> rep b a ->
  zlen c + DIRENT_SIZE <= MAXFILE * BSIZE -> log_room (fs_log s) size 7 ->
  exists r k l a' d', dir_link dp name inum s = Ret (r, put_din l dp i d' s) /\
    0 <= k <= zlen c / DIRENT_SIZE /\ (k < zlen c / DIRENT_SIZE -> d_inum (entry_of c k) = 0) /\
    st l = st (fs_log s) /\ llen (lg l) <= llen (lg (fs_log s)) + 5 /\ others_kept sb (i_inum i) (i_din i) a a' /\
    ((r = Ok tt /\ (synced sb a (i_inum i) (i_din i) -> synced sb a' (i_inum i) d') /\
      dir_writing (put_din l dp i d' s) a' dp (set_din d' i) (zsplice c (DIRENT_SIZE * k) (dirent_bytes name inum))) \/
     (r = Err "balloc: out of blocks" /\ (BSIZE | zlen c) /\ (forall b, 0 <= b < sb_size sb -> used sb (view a') b = true) /\
      dir_writing (put_din l dp i d' s) a' dp (set_din d' i) c)).
Proof.
  intros Hd Hcap Hnul Hin Hlook Hb Hmax Hroom. pose proof (dir_writing_bl _ _ _ _ _ b Hd Hb) as Hd1.
  pose proof (dir_writing_open _ _ _ _ _ Hcap Hd1) as Ho1. pose proof (dir_open_count _ _ _ _ _ Ho1) as [Hn H0].
  destruct (free_entry_run (Datatypes.S (Z.to_nat (zlen c / DIRENT_SIZE + 1))) (set_bl b s) a dp i c 0 Ho1)
    as (b2 & k & E2 & R2 & Hk & Hfree); [lia|lia|].
  pose proof (dir_writing_bl _ _ _ _ _ b2 Hd1 R2) as Hd2.
  destruct (dirent_roundtrip name inum Hin Hnul) as (Hbl & _).
  destruct (entry_write_run _ _ _ _ _ k (dirent_bytes name inum) Hd2 Hcap Hbl ltac:(lia) Hmax Hroom)
    as (r & l & a' & d' & E3 & St & L & Ot & Res).
  assert (Elink : dir_link dp name inum s =
    (n <-? writei dp (dirent_bytes name inum) (DIRENT_SIZE * k) ;;
     assert_ (n =? DIRENT_SIZE) "assertion `left == right` failed";; mret (Ok tt)) (set_bl b2 (set_bl b s))).
  { unfold dir_link. rewrite (bind_run _ _ _ _ _ Hlook).
    pose proof (do_locked _ _ _ _ _ Ho1) as (Ei & _). rewrite (bind_run _ _ _ _ _ (isize_run _ _ _ Ei)).
    rewrite <-(dir_open_len _ _ _ _ _ Ho1). change (DIRENT_SIZE * 0) with 0 in E2. by rewrite (try_run _ _ _ _ _ E2). }
  destruct Res as [(-> & Hsy & W)|(-> & Hdv & Hfull & W)].
  - exists (Ok tt), k, l, a', d'. rewrite Elink, (try_run _ _ _ _ _ E3), bind_assert by done.
    do 6 (split; [done|]). by left.
  - exists (Err "balloc: out of blocks"), k, l, a', d'. rewrite Elink, (try_err _ _ _ _ _ E3).
    do 6 (split; [done|]). by right.
Qed.

(** The directory with the entry in place [k]. *)
Lemma names_splice c k e bs :
  (DIRENT_SIZE | zlen c) -> zlen bs = DIRENT_SIZE -> Dirent_decode bs = e -> d_inum e <> 0 ->
  0 <= k <= zlen c / DIRENT_SIZE -> (k < zlen c / DIRENT_SIZE -> d_inum (entry_of c k) = 0) ->
  names c !! Dirent_name e = None ->
  names (zsplice c (DIRENT_SIZE * k) bs) = <[Dirent_name e := d_inum e]> (names c).
Proof.
  intros Hdiv Hb <- Hz Hk Hfree Hnone. unfold names.
  rewrite (proj2 (dir_entries_splice c k bs Hdiv Hb Hk)). set (es := dir_entries c) in *.
  assert (zlen es = zlen c / DIRENT_SIZE) as Hl by apply zlen_dir_entries.
  unfold zsplice. cbn [app length].
  assert (names_of (take (Z.to_nat k) es ++ drop (Z.to_nat k + 1) es) = names_of es) as Hnames.
  { destruct (decide (k < zlen c / DIRENT_SIZE)) as [Hlt|Hge].
    - pose proof (znth_dir_entries c k ltac:(lia)) as Hx. fold es in Hx. apply znth_Some in Hx as [_ Hx].
      rewrite <-(take_drop_middle es (Z.to_nat k) _ Hx) at 3. rewrite names_of_free by (by apply Hfree).
      by rewrite Nat.add_1_r.
    - change (zlen es) with (Z.of_nat (length es)) in Hl. rewrite drop_ge, take_ge, app_nil_r by lia. done. }
  rewrite names_of_insert by (try rewrite Hnames; done). by rewrite Hnames.
Qed.


(** ** Where linking goes wrong *)

(** Linking a name that stands for the directory itself, such as ".", ends in
    a panic: the entry found is put back, which acquires the sleep lock that
    the caller of [dir_link] holds. *)
Theorem dir_link_self_panics s a dp i c name inum :
  dir_open s a dp i c -> icache_ok (fs_icache s) -> 0 < i_ref i ->
  names c !! name = Some (i_inum i) -> dir_link dp name inum s = Panic "nested sleep lock".
Proof.
  intros Ho Hok Hr Hn. pose proof (do_locked _ _ _ _ _ Ho) as (Ei & Hlk & [sb' Hsb] & Hdev).
  destruct (lookup_offset_run s a dp i c sb' name Ho Hsb) as (b & R & E).
  rewrite names_find in Hn. destruct (find_entry c name) as [k|]; [|done].
  apply (inj Some) in Hn. cbn beta in Hn. rewrite Hn in E.
  rewrite (try_run _ _ _ _ _ (iget_hit (set_bl b s) ROOTDEV (i_inum i) sb' dp i Hok Ei (conj Hr (conj Hdev eq_refl)))) in E.
  set (s1 := put_icache _ _) in E.
  assert (dir_lookup dp name s = Ret (Ok dp, s1)) as El by (unfold dir_lookup; by rewrite (try_run _ _ _ _ _ E)).
  unfold dir_link. rewrite (bind_run _ _ _ _ _ El). apply bind_panic. unfold iput. rewrite bind_gets.
  assert ((fs_icache s1).[dp] = Some (set_ref (i_ref i + 1) i)) as E1 by (apply znth_zset_eq; by eapply znth_range).
  rewrite (bind_run _ _ _ _ _ (inode_at_run _ _ _ E1)). apply bind_panic. cbn [i_lock set_ref].
  rewrite Hlk. unfold lift, Sleeplock_acquire, Sleeplock_holding. cbn. by rewrite Z.eqb_refl.
Qed.

Lemma length_Dirent_name bs : (length (Dirent_name (Dirent_decode bs)) <= 24)%nat.
Proof.
  unfold Dirent_name, Dirent_decode. cbn [d_name].
  assert (length (zslice bs 8 32) <= 24)%nat by (unfold zslice; rewrite length_take; lia).
  destruct (position _ _); [rewrite length_take; lia|done].
Qed.

(** A name of more than [DIRSIZ] bytes is in no directory, not even in one it
    was just linked into: [dir_link] stores it cut, so linking it again
    succeeds and adds a second entry with the same cut name. *)
Theorem long_name_never_found c name : DIRSIZ < zlen name -> names c !! name = None.
Proof.
  intros Hl. apply names_of_None, Forall_forall. intros e He. unfold dir_entries in He.
  apply list_elem_of_fmap in He as (k & -> & _). unfold answers.
  rewrite bool_decide_eq_false_2; [by rewrite andb_false_r|]. intros Hn.
  pose proof (length_Dirent_name (zslice c (DIRENT_SIZE * k) (DIRENT_SIZE * k + DIRENT_SIZE))) as H24.
  unfold entry_of in Hn. rewrite Hn in H24. unfold zlen, DIRSIZ in Hl. lia.
Qed.

(** With every entry of the inode cache in use and none of them the inode a
    name stands for, [dir_link] takes the failed lookup for a missing name
    and writes a second entry with that name. *)
Theorem dir_link_duplicates_when_cache_full s a dp i c name inum old :
  dir_writing s a dp i c -> LOGSIZE < capacity -> icache_ok (fs_icache s) ->
  (forall k j, (fs_icache s).[k] = Some j -> 0 < i_ref j /\ ~ refers ROOTDEV old j) ->
  names c !! name = Some old -> Forall (fun x => x <> 0) name -> zlen name <= DIRSIZ -> uN 64 inum ->
  zlen c + DIRENT_SIZE <= MAXFILE * BSIZE -> log_room (fs_log s) size 7 ->
  exists r k s', dir_link dp name inum s = Ret (r, s') /\ r <> Err "file already exists" /\
    (r = Ok tt -> exists a' i' c', dir_writing s' a' dp i' c' /\
       dir_entries c' = zsplice (dir_entries c) k [Dirent_decode (dirent_bytes name inum)]).
Proof.
  intros Hd Hcap Hok Hall Hold Hnul Hlen Hin Hmax Hroom. pose proof (dir_writing_open _ _ _ _ _ Hcap Hd) as Ho.
  destruct (lookup_offset_run s a dp i c sb name Ho (wg_sb _ _ _ _ _ _ _ (dw_writing _ _ _ _ _ Hd))) as (b & R & E).
  rewrite names_find in Hold. destruct (find_entry c name) as [k0|] eqn:Ef; [|done].
  apply (inj Some) in Hold. cbn beta in Hold. rewrite Hold in E.
  destruct (iget_cases (set_bl b s) ROOTDEV old sb Hok) as [(j & x & x' & Hx & _ & _ & _ & Hc)|(Eg & _)].
  { exfalso. destruct (Hall j x Hx) as [H1 H2]. destruct Hc as [[Hc _]|[Hc _]]; [done|lia]. }
  rewrite (try_err _ _ _ _ _ Eg) in E.
  destruct (dir_link_run s a dp i c name inum b "Inode::get: no inodes" Hd Hcap Hnul Hin) as (r & k & l & a' & d' & El & Hk & _ & _ & _ & _ & Res);
    [unfold dir_lookup; by rewrite (try_err _ _ _ _ _ E)|done|done|done|].
  exists r, k. eexists. split; [exact El|]. destruct Res as [(-> & _ & W)|(-> & _ & _ & W)]; [|done].
  split; [done|]. intros _. eexists _, _, _. split; [exact W|].
  destruct (dirent_roundtrip name inum Hin Hnul) as (Hbl & _).
  apply dir_entries_splice; [rewrite (dir_open_len _ _ _ _ _ Ho); apply Hd|done|done].
Qed.
End link.
