(* ===== verification/FsPath.v ===== *)
(** Path lookup: [namex] walks the tree of directories that the device holds,
    and every reference it takes on the way it gives back. *)
From stdpp Require Import base list gmap strings fin_sets.
From Stdlib Require Import ZArith Lia.
From S2P Require Import Prelude.
From S2P Require Import Arch.
From S2P Require Import Sleeplock.
From S2P Require Import BlockLayer.
From S2P Require Import Fslog.
From S2P Require Import FslogSpec.
From S2P Require Import FsLayout.
From S2P Require Import Fs.
From S2P Require Import FsSpec.
From S2P Require Import FsFile.
From S2P Require Import FsGrow.
From S2P Require Import FsDir.
From S2P Require Import FsDirSpec.
From S2P Require Import Icache.

(** ** References counted in the cache *)
Definition weight (n : Z) (i : Inode) : Z :=
  if (i_dev i =? ROOTDEV) && (i_inum i =? n) then i_ref i else 0.
Definition refs (c : list Inode) (n : Z) : Z := foldr (fun i acc => weight n i + acc) 0 c.

Lemma refs_insert (c : list Inode) (k : nat) i j n :
  c !! k = Some i -> refs (<[k := j]> c) n = refs c n - weight n i + weight n j.
Proof.
  revert k. induction c as [|x c IH]; intros k Hk; [done|]. destruct k as [|k].
  - injection Hk as ->. cbn. lia.
  - change (weight n x + refs (<[k:=j]> c) n = weight n x + refs c n - weight n i + weight n j).
    rewrite (IH k Hk). lia.
Qed.

Lemma refs_zset c k i j n : c.[k] = Some i -> refs c.[k <- j] n = refs c n - weight n i + weight n j.
Proof.
  intros Hk. apply znth_Some in Hk as [Hr Hk]. unfold zset.
  rewrite (proj2 (Z.leb_le 0 k)), (proj2 (Z.ltb_lt k _)) by lia. by apply refs_insert.
Qed.

Lemma weight_nonneg n i : 0 <= i_ref i -> 0 <= weight n i.
Proof. unfold weight. destruct (_ && _); lia. Qed.

Lemma refs_ge c k i n :
  (forall k i, c.[k] = Some i -> 0 <= i_ref i) -> c.[k] = Some i -> weight n i <= refs c n.
Proof.
  intros Hnn Hk. assert (forall x, x ∈ c -> 0 <= i_ref x) as Hall.
  { intros x Hx. apply list_elem_of_lookup_1 in Hx as [m Hm]. apply (Hnn (Z.of_nat m)). by rewrite znth_of_nat. }
  apply znth_Some in Hk as [_ Hk]. apply list_elem_of_lookup_2 in Hk. clear Hnn k.
  assert (forall l : list Inode, (forall x, x ∈ l -> 0 <= i_ref x) -> 0 <= refs l n) as Hpos.
  { intros l Hl. induction l as [|x l IH]; [done|]. cbn. fold (refs l n).
    pose proof (weight_nonneg n x (Hl x ltac:(set_solver))). specialize (IH ltac:(set_solver)). lia. }
  induction c as [|x c IH]; [by apply not_elem_of_nil in Hk|]. cbn. fold (refs c n).
  apply elem_of_cons in Hk as [->|Hk].
  - specialize (Hpos c ltac:(set_solver)). lia.
  - pose proof (weight_nonneg n x (Hall x ltac:(set_solver))). specialize (IH Hk ltac:(set_solver)). lia.
Qed.

Lemma weight_same n i j : i_dev j = i_dev i -> i_inum j = i_inum i -> i_ref j = i_ref i -> weight n j = weight n i.
Proof. intros H1 H2 H3. unfold weight. by rewrite H1, H2, H3. Qed.

Lemma weight_at n i : i_dev i = ROOTDEV -> weight n i = if i_inum i =? n then i_ref i else 0.
Proof. intros E. unfold weight. by rewrite E, Z.eqb_refl. Qed.

Lemma acquire_free me : me <> 0 -> Sleeplock_acquire me Sleeplock_new = Ret (mkSleeplock true me).
Proof.
  intros Hme. unfold Sleeplock_acquire, Sleeplock_holding. cbn [pid locked Sleeplock_new].
  by rewrite (proj2 (Z.eqb_neq 0 me)).
Qed.

Lemma release_mine me : Sleeplock_release me (mkSleeplock true me) = Ret Sleeplock_new.
Proof. unfold Sleeplock_release, Sleeplock_holding. cbn [pid]. by rewrite Z.eqb_refl. Qed.

(** ** The tree on the device *)
Section path.
Context {S : Type} `{BL : BlockLaws S}.
Context (sb : Superblock) (live : Z -> Prop).
Implicit Types (s : Fs S) (a : Dev) (c : list Inode).

Definition dinode_at (v : Z -> list Z) (inum : Z) : DInode := get_dinode (v (inode_block sb inum)) inum.
Definition dir_at (v : Z -> list Z) (inum : Z) : gmap (list Z) Z := names (contents (dinode_at v inum) v).

(** An inode in use: its block is on the device, it has a type and a link,
    and a directory's contents are entries in mapped blocks. *)
Record good_inode (v : Z -> list Z) (inum : Z) : Prop := {
  gi_block : 0 <= inode_block sb inum < 2 ^ 64;
  gi_typ : di_typ (dinode_at v inum) = 1 \/ di_typ (dinode_at v inum) = 2 \/ di_typ (dinode_at v inum) = 3;
  gi_nlink : di_nlink (dinode_at v inum) <> 0;
  gi_dir : di_typ (dinode_at v inum) = 1 ->
    0 <= di_size (dinode_at v inum) < 2 ^ 63 /\ (DIRENT_SIZE | di_size (dinode_at v inum)) /\
    mapped (dinode_at v inum) v ((di_size (dinode_at v inum) + BSIZE - 1) / BSIZE) }.

(** The inodes in use, each a good one, closed under the directories' entries. *)
Definition tree (v : Z -> list Z) : Prop :=
  forall inum, live inum -> good_inode v inum /\
    (di_typ (dinode_at v inum) = 1 -> forall name n, dir_at v inum !! name = Some n -> live n).

(** One step down the tree, and a walk. *)
Definition descend (v : Z -> list Z) (inum : Z) (name : list Z) : result Z :=
  if di_typ (dinode_at v inum) =? 1 then
    match dir_at v inum !! name with
    | Some n => Ok n
    | None => Err "file not found"
    end
  else Err "not a directory".

Fixpoint walk (v : Z -> list Z) (inum : Z) (path : list (list Z)) : result Z :=
  match path with
  | [] => Ok inum
  | name :: path' =>
    match descend v inum name with
    | Ok n => walk v n path'
    | Err e => Err e
    end
  end.

(** The elements of a path. *)
Fixpoint elems_upto (fuel : nat) (path : list Z) : list (list Z) :=
  match fuel with
  | O => []
  | Datatypes.S fuel' =>
    match skip_elem path with
    | None => []
    | Some (name, rest) => name :: elems_upto fuel' rest
    end
  end.
Definition elems (path : list Z) : list (list Z) := elems_upto (length path) path.

(** ** The inode cache at rest *)

(** Entry [i] with the lock held by the running process or by nobody. *)
Record entry_ok (v : Z -> list Z) (me : Z) (mine : bool) (i : Inode) : Prop := {
  eo_ref : 0 <= i_ref i;
  eo_lock : i_lock i = if mine then mkSleeplock true me else Sleeplock_new;
  eo_used : 0 < i_ref i -> i_dev i = ROOTDEV /\ i_sb i = Some sb /\ live (i_inum i) /\
    (i_valid i = true -> i_din i = dinode_at v (i_inum i)) }.

Record cache_ok (v : Z -> list Z) (me : Z) (lk : option Z) (c : list Inode) : Prop := {
  co_unique : forall k k' i i', c.[k] = Some i -> c.[k'] = Some i' ->
    0 < i_ref i -> refers (i_dev i) (i_inum i) i' -> k = k';
  co_bound : forall n, refs c n < 2 ^ 32 - 1;
  co_entry : forall k i, c.[k] = Some i -> entry_ok v me (bool_decide (lk = Some k)) i }.

Lemma cache_ref_le v me lk c k i :
  cache_ok v me lk c -> c.[k] = Some i -> 0 < i_ref i -> i_ref i <= refs c (i_inum i).
Proof.
  intros [Hu Hb He] Hk Hr. assert (forall k i, c.[k] = Some i -> 0 <= i_ref i) as Hnn.
  { intros k' i' Hk'. apply (He k' i' Hk'). }
  pose proof (refs_ge c k i (i_inum i) Hnn Hk) as Hge.
  destruct (eo_used _ _ _ _ (He k i Hk) Hr) as (Hd & _). by rewrite weight_at, Z.eqb_refl in Hge.
Qed.

Lemma cache_icache v me lk c : cache_ok v me lk c -> icache_ok c.
Proof.
  intros Hc. split; [apply Hc|]. intros k i Hk. pose proof (eo_ref _ _ _ _ (co_entry _ _ _ _ Hc k i Hk)) as H0.
  split; [done|]. destruct (decide (0 < i_ref i)); [|lia].
  pose proof (cache_ref_le _ _ _ _ _ _ Hc Hk l). pose proof (co_bound _ _ _ _ Hc (i_inum i)). lia.
Qed.

(** Replacing entry [k]. *)
Lemma cache_update v me lk lk' c k i j :
  cache_ok v me lk c -> c.[k] = Some i -> entry_ok v me (bool_decide (lk' = Some k)) j ->
  (forall k', k' <> k -> lk = Some k' <-> lk' = Some k') ->
  (0 < i_ref j -> forall k' i', k' <> k -> c.[k'] = Some i' -> ~ refers (i_dev j) (i_inum j) i') ->
  (forall n, refs c.[k <- j] n < 2 ^ 32 - 1) ->
  cache_ok v me lk' c.[k <- j].
Proof.
  intros [Hu Hb He] Hk Hj Hlk Hnew Hbnd. pose proof (znth_range _ _ _ Hk) as Hr. split; [|done|].
  - intros m m' x x' Hm Hm' Hx Hx'.
    apply (znth_zset_inv c) in Hm; [|done]. apply (znth_zset_inv c) in Hm'; [|done].
    destruct Hm as [[-> ->]|[Hne Hm]], Hm' as [[-> ->]|[Hne' Hm']]; try done.
    + exfalso. by apply (Hnew Hx m' x').
    + exfalso. destruct Hx' as (R1 & R2 & R3). apply (Hnew R1 m x); [done|done|]. by rewrite R2, R3.
    + by eapply Hu.
  - intros m x Hm. apply (znth_zset_inv c) in Hm as [[-> ->]|[Hne Hm]]; [done| |done].
    specialize (He m x Hm). by rewrite (bool_decide_ext _ _ (Hlk m Hne)) in He.
Qed.

(** An entry replaced by one for the same inode. *)
Lemma same_inode_fresh v me lk c k i j :
  cache_ok v me lk c -> c.[k] = Some i -> 0 < i_ref i -> i_dev j = i_dev i -> i_inum j = i_inum i ->
  forall k' i', k' <> k -> c.[k'] = Some i' -> ~ refers (i_dev j) (i_inum j) i'.
Proof.
  intros Hc Hk Hr Hd Hn k' i' Hne Hk' Href. apply Hne. rewrite Hd, Hn in Href. symmetry.
  by eapply (co_unique _ _ _ _ Hc).
Qed.

(** ** Locking and putting back *)

(** The running process, its device and its cache, with lock [lk] held. *)
Record at_rest (s : Fs S) (a : Dev) (lk : option Z) : Prop := {
  ar_rep : rep (bl (fs_log s)) a;
  ar_held : held a = ∅;
  ar_room : Z.of_nat (base.size (dirty a)) < capacity;
  ar_me : fs_me s <> 0;
  ar_sb : fs_sb s = sb;
  ar_cache : cache_ok (view a) (fs_me s) lk (fs_icache s) }.

Lemma at_rest_put s a lk lk' b c :
  at_rest s a lk -> rep b a -> cache_ok (view a) (fs_me s) lk' c -> at_rest (put_icache c (set_bl b s)) a lk'.
Proof. intros [] Hb Hc. by split. Qed.

(** Reading a block and copying it into the inode cache. *)
Lemma with_ro_icache {A} s a n (f : Z -> M (Fs S) A) (x : A) c :
  rep (bl (fs_log s)) a -> held a = ∅ -> 0 <= n -> Z.of_nat (base.size (dirty a)) < capacity ->
  (forall h s', fs_icache s' = fs_icache s -> bdata h s' = Ret (view a n, s') -> f h s' = Ret (x, put_icache c s')) ->
  exists b, bwith ROOTDEV n f s = Ret (Ok x, put_icache c (set_bl b s)) /\ rep b a.
Proof.
  intros Hr Hh Hn Hcap Hf.
  destruct (lbread (fs_log s) a n Hr Hn (fun h => held_fresh a h n Hh)) as (h & b1 & E1 & Hf1 & R1).
  { right. by rewrite Hh, map_size_empty, Z.add_0_r. }
  destruct (lbrelse (put_bl b1 (fs_log s)) _ h n R1 (held_dev_hold a h n)) as (b2 & E2 & R2).
  { cbn. destruct (decide (n ∈ dirty a)); [by left|right].
    apply (rep_clean _ _ _ Hr); [done|]. intros h'. by apply held_fresh. }
  rewrite dev_drop_hold in R2 by done. exists b2. split; [|done].
  rewrite (bwith_split n f s h (set_bl b1 s)) by (exact (zoom_run fs_log put_log (bread ROOTDEV n) s _ _ E1)).
  assert (bdata h (set_bl b1 s) = Ret (view a n, set_bl b1 s)) as Ed.
  { refine (zoom_run fs_log put_log (bdata h) (set_bl b1 s) (view a n) (put_bl b1 (fs_log s)) _).
    exact (lbdata (put_bl b1 (fs_log s)) _ h n R1 (held_dev_hold a h n)). }
  rewrite (bind_run _ _ _ _ _ (Hf h (set_bl b1 s) eq_refl Ed)).
  assert (brelse h (put_icache c (set_bl b1 s)) = Ret (tt, put_icache c (set_bl b2 s))) as Er
    by exact (zoom_run fs_log put_log (brelse h) (put_icache c (set_bl b1 s)) _ _ E2).
  by rewrite (bind_run _ _ _ _ _ Er).
Qed.

(** The entry [i] once locked and read. *)
Definition loaded (v : Z -> list Z) (me : Z) (i : Inode) : Inode :=
  mkInode (i_dev i) (i_inum i) (Some sb) (i_ref i) (mkSleeplock true me) true (dinode_at v (i_inum i)).

Lemma typ_of v inum : good_inode v inum ->
  exists t, FileType_of (di_typ (dinode_at v inum)) = Ret t /\ t <> FtUnused /\
    bool_decide (t = FtDir) = (di_typ (dinode_at v inum) =? 1).
Proof. intros [_ [-> | [-> | ->]] _ _]; eexists; by repeat split. Qed.

(** Locking an entry that has been read. *)
Lemma ilock_valid s ip i :
  (fs_icache s).[ip] = Some i -> 0 < i_ref i -> is_Some (i_sb i) -> i_lock i = Sleeplock_new -> fs_me s <> 0 ->
  i_valid i = true ->
  ilock ip s = Ret (tt, put_icache (fs_icache s).[ip <- set_ilock (mkSleeplock true (fs_me s)) i] s).
Proof.
  intros Ei Hr [sb' Hsb] Hl Hme Hv. unfold ilock.
  rewrite (bind_run _ _ _ _ _ (inode_at_run _ _ _ Ei)), bind_assert by (by apply Z.ltb_lt).
  assert (superblock_of ip "update requires superblock" s = Ret (sb', s)) as Esb.
  { unfold superblock_of. by rewrite (bind_run _ _ _ _ _ (inode_at_run _ _ _ Ei)), Hsb. }
  rewrite (bind_run _ _ _ _ _ Esb), bind_gets, Hl.
  rewrite (bind_lift _ _ _ _ (acquire_free _ Hme)), (bind_run _ _ _ _ _ (upd_inode_run _ _ _ _ Ei)), Hv. done.
Qed.

Lemma ilock_run s a ip i :
  tree (view a) -> at_rest s a None -> (fs_icache s).[ip] = Some i -> 0 < i_ref i ->
  exists b, ilock ip s = Ret (tt, put_icache (fs_icache s).[ip <- loaded (view a) (fs_me s) i] (set_bl b s)) /\ rep b a.
Proof.
  intros Ht Hs Ei Hr. pose proof Hs as [R Hh Hcap Hme Hsb Hc]. pose proof (znth_range _ _ _ Ei) as Hip.
  pose proof (co_entry _ _ _ _ Hc ip i Ei) as [_ Hl Hu]. cbn in Hl. destruct (Hu Hr) as (Hd & Hisb & Hlv & Hval).
  destruct (Ht _ Hlv) as [Hg _]. destruct (i_valid i) eqn:Ev.
  { exists (bl (fs_log s)). split; [|done]. rewrite (ilock_valid s ip i); try done.
    assert (set_ilock (mkSleeplock true (fs_me s)) i = loaded (view a) (fs_me s) i) as ->.
    { unfold loaded. rewrite <-(Hval eq_refl), <-Hisb. destruct i. cbn in *. by subst. }
    cbn. by destruct s as [[]]. }
  unfold ilock.
  rewrite (bind_run _ _ _ _ _ (inode_at_run _ _ _ Ei)), bind_assert by (by apply Z.ltb_lt).
  assert (superblock_of ip "update requires superblock" s = Ret (sb, s)) as Esb.
  { unfold superblock_of. by rewrite (bind_run _ _ _ _ _ (inode_at_run _ _ _ Ei)), Hisb. }
  rewrite (bind_run _ _ _ _ _ Esb), bind_gets.
  assert (Sleeplock_acquire (fs_me s) (i_lock i) = Ret (mkSleeplock true (fs_me s))) as Ea.
  { rewrite Hl. by apply acquire_free. }
  rewrite (bind_lift _ _ _ _ Ea), (bind_run _ _ _ _ _ (upd_inode_run _ _ _ _ Ei)).
  set (i1 := set_ilock (mkSleeplock true (fs_me s)) i). set (s1 := put_icache _ s).
  assert ((fs_icache s1).[ip] = Some i1) as E1 by (by apply znth_zset_eq). rewrite Ev. cbn [negb].
  assert (iblock sb (i_inum i) = Ret (inode_block sb (i_inum i))) as Eib.
  { unfold iblock, add_ovf. fold (inode_block sb (i_inum i)). rewrite (proj2 (Z.ltb_lt _ _)); [done|apply Hg]. }
  rewrite (bind_lift _ _ _ _ Eib), Hd. set (i2 := set_din (dinode_at (view a) (i_inum i)) i1).
  match goal with |- context [bwith ROOTDEV ?n ?f] =>
    destruct (with_ro_icache s1 a n f tt (fs_icache s1).[ip <- i2] R Hh) as (b & E2 & R2); [apply Hg|done|..] end.
  { intros h s' Hic Ed. rewrite (bind_run _ _ _ _ _ Ed). unfold upd_din. rewrite <-Hic in E1.
    rewrite (bind_run _ _ _ _ _ (inode_at_run _ _ _ E1)), (upd_inode_run _ _ _ _ E1), <-Hic. done. }
  rewrite (bind_run _ _ _ _ _ (expect_r_run _ _ _ _ _ E2)). set (s2 := put_icache _ _).
  assert ((fs_icache s2).[ip] = Some i2) as E3 by (apply znth_zset_eq; cbn; by rewrite zlen_zset).
  rewrite (bind_run _ _ _ _ _ (upd_inode_run _ _ _ _ E3)). set (s3 := put_icache _ s2).
  assert ((fs_icache s3).[ip] = Some (set_valid true i2)) as E4 by (apply znth_zset_eq; cbn; by rewrite !zlen_zset).
  destruct (typ_of _ _ Hg) as (t & Et & Hnu & _). exists b. split; [|done].
  assert (ityp ip s3 = Ret (t, s3)) as Ety.
  { unfold ityp. rewrite (bind_run _ _ _ _ _ (inode_at_run _ _ _ E4)).
    change (i_din (set_valid true i2)) with (dinode_at (view a) (i_inum i)). unfold lift. by rewrite Et. }
  rewrite (bind_run _ _ _ _ _ Ety). unfold assert_. rewrite bool_decide_eq_false_2 by done. cbn [negb].
  assert (set_valid true i2 = loaded (view a) (fs_me s) i) as <- by (unfold i2, i1, loaded; rewrite <-Hisb; done).
  unfold s3, s2, s1. cbn. by rewrite !zset_zset.
Qed.

Lemma iunlock_run s ip i :
  locked_at s ip i -> 0 < i_ref i ->
  iunlock ip s = Ret (tt, put_icache (fs_icache s).[ip <- set_ilock Sleeplock_new i] s).
Proof.
  intros Hlk Hr. pose proof Hlk as (Ei & Hl & _). unfold iunlock.
  rewrite (bind_run _ _ _ _ _ (holding_run _ _ _ Hlk)), (bind_run _ _ _ _ _ (inode_at_run _ _ _ Ei)).
  rewrite bind_assert by (by apply Z.ltb_lt). unfold irelease. rewrite (bind_run _ _ _ _ _ (inode_at_run _ _ _ Ei)), bind_gets.
  assert (Sleeplock_release (fs_me s) (i_lock i) = Ret Sleeplock_new) as Er by (rewrite Hl; apply release_mine).
  rewrite (bind_lift _ _ _ _ Er). by rewrite (upd_inode_run _ _ _ _ Ei).
Qed.

(** Unlocking and putting back an inode that keeps a link. *)
Lemma unlock_put_run s ip i :
  locked_at s ip i -> fs_me s <> 0 -> 0 < i_ref i -> di_nlink (i_din i) <> 0 ->
  unlock_put ip s = Ret (Ok tt, put_icache (fs_icache s).[ip <- set_ref (i_ref i - 1) (set_ilock Sleeplock_new i)] s).
Proof.
  intros Hlk Hme Hr Hn. pose proof Hlk as (Ei & Hl & _). pose proof (znth_range _ _ _ Ei) as Hip.
  pose proof (iunlock_run s ip i Hlk Hr) as Eu.
  unfold unlock_put. rewrite (bind_run _ _ _ _ _ Eu). set (i1 := set_ilock Sleeplock_new i). set (s1 := put_icache _ s).
  assert ((fs_icache s1).[ip] = Some i1) as E1 by (by apply znth_zset_eq).
  unfold iput. rewrite bind_gets, (bind_run _ _ _ _ _ (inode_at_run _ _ _ E1)).
  assert (Sleeplock_acquire (fs_me s1) (i_lock i1) = Ret (mkSleeplock true (fs_me s1))) as Ea
    by (by apply acquire_free).
  rewrite (bind_lift _ _ _ _ Ea), (bind_run _ _ _ _ _ (upd_inode_run _ _ _ _ E1)).
  set (i2 := set_ilock _ i1). set (s2 := put_icache _ s1).
  assert ((fs_icache s2).[ip] = Some i2) as E2 by (apply znth_zset_eq; cbn; by rewrite zlen_zset).
  replace (i_valid i1 && (di_nlink (i_din i1) =? 0) && (i_ref i1 =? 1)) with false
    by (cbn; rewrite (proj2 (Z.eqb_neq _ 0) Hn), andb_false_r; done).
  rewrite (try_run _ _ _ tt s2) by done. unfold irelease.
  rewrite (bind_run _ _ s2 tt (put_icache (fs_icache s2).[ip <- set_ilock Sleeplock_new i2] s2)).
  2:{ rewrite (bind_run _ _ _ _ _ (inode_at_run _ _ _ E2)), bind_gets.
      assert (Sleeplock_release (fs_me s2) (i_lock i2) = Ret Sleeplock_new) as Er by apply release_mine.
      rewrite (bind_lift _ _ _ _ Er). by rewrite (upd_inode_run _ _ _ _ E2). }
  set (s3 := put_icache _ s2). set (i3 := set_ilock _ i2) in s3.
  assert ((fs_icache s3).[ip] = Some i3) as E3 by (apply znth_zset_eq; cbn; by rewrite !zlen_zset).
  rewrite (bind_run _ _ _ _ _ (inode_at_run _ _ _ E3)).
  assert (sub_ovf (i_ref i3) 1 = Ret (i_ref i - 1)) as Es.
  { unfold sub_ovf. cbn. by rewrite (proj2 (Z.leb_le 1 _)) by lia. }
  rewrite (bind_lift _ _ _ _ Es), (bind_run _ _ _ _ _ (upd_inode_run _ _ _ _ E3)).
  unfold s3, s2, s1. cbn. by rewrite !zset_zset.
Qed.

(** ** Their effect on the cache *)
Definition ind (n m : Z) : Z := if n =? m then 1 else 0.

Lemma lock_cache v me c ip i :
  cache_ok v me None c -> c.[ip] = Some i -> 0 < i_ref i ->
  cache_ok v me (Some ip) c.[ip <- loaded v me i] /\ forall n, refs c.[ip <- loaded v me i] n = refs c n.
Proof.
  intros Hc Ei Hr. assert (forall n, refs c.[ip <- loaded v me i] n = refs c n) as Hrefs.
  { intros n. rewrite (refs_zset _ _ _ _ _ Ei), (weight_same n i (loaded v me i)) by done. lia. }
  split; [|done]. destruct (eo_used _ _ _ _ (co_entry _ _ _ _ Hc ip i Ei) Hr) as (Hd & Hsb & Hlv & _).
  eapply cache_update; [done|done| | | |].
  - rewrite bool_decide_eq_true_2 by done. split; [cbn; lia|done|]. intros _. by repeat split.
  - intros k' Hne. split; [done|]. congruence.
  - intros _. by eapply same_inode_fresh.
  - intros n. rewrite Hrefs. apply Hc.
Qed.

Lemma get_cache v me lk c k x x' inum :
  cache_ok v me lk c -> (forall n, refs c n < 2 ^ 32 - 2) -> live inum -> c.[k] = Some x ->
  (refers ROOTDEV inum x /\ x' = set_ref (i_ref x + 1) x \/
   i_ref x = 0 /\ x' = claimed ROOTDEV inum sb x /\ forall k i, c.[k] = Some i -> ~ refers ROOTDEV inum i) ->
  cache_ok v me lk c.[k <- x'] /\ forall n, refs c.[k <- x'] n = refs c n + ind n inum.
Proof.
  intros Hc Hb Hlv Hk Hx. pose proof (co_entry _ _ _ _ Hc k x Hk) as [He1 He2 He3].
  assert (forall n, refs c.[k <- x'] n = refs c n + ind n inum) as Hrefs.
  { intros n. rewrite (refs_zset _ _ _ _ _ Hk). unfold ind, weight. rewrite (Z.eqb_sym n inum).
    destruct Hx as [[(Hr & Hd & Hn) ->]|(Hr & -> & _)]; cbn [i_dev i_inum i_ref set_ref claimed set_valid set_meta].
    - rewrite Hd, Hn, Z.eqb_refl. cbn [andb]. destruct (inum =? n); lia.
    - rewrite Hr, Z.eqb_refl. cbn [andb]. destruct (inum =? n), ((i_dev x =? ROOTDEV) && (i_inum x =? n)); lia. }
  split; [|done]. eapply cache_update; [done|done| |done| |].
  - destruct Hx as [[(Hr & Hd & Hn) ->]|(Hr & -> & _)].
    + split; [cbn; lia|done|]. intros _. by apply He3.
    + split; [cbn; lia|done|]. intros _. by repeat split.
  - intros _. destruct Hx as [[(Hr & Hd & Hn) ->]|(Hr & -> & Hno)]; [by eapply same_inode_fresh|].
    intros k' i' _ Hk'. by eapply Hno.
  - intros n. rewrite Hrefs. specialize (Hb n). unfold ind. destruct (n =? inum); lia.
Qed.

Lemma put_cache v me c ip i :
  cache_ok v me (Some ip) c -> c.[ip] = Some i -> 0 < i_ref i ->
  let c' := c.[ip <- set_ref (i_ref i - 1) (set_ilock Sleeplock_new i)] in
  cache_ok v me None c' /\ forall n, refs c' n = refs c n - ind n (i_inum i).
Proof.
  intros Hc Ei Hr c'. destruct (eo_used _ _ _ _ (co_entry _ _ _ _ Hc ip i Ei) Hr) as (Hd & Hu).
  assert (forall n, refs c' n = refs c n - ind n (i_inum i)) as Hrefs.
  { intros n. unfold c'. rewrite (refs_zset _ _ _ _ _ Ei), !weight_at by done. cbn. unfold ind.
    rewrite (Z.eqb_sym n). destruct (i_inum i =? n); lia. }
  split; [|done]. eapply cache_update; [done|done| | | |].
  - cbn. split; [cbn; lia|done|]. intros _. by split.
  - intros k' Hne. split; congruence.
  - intros _. by eapply same_inode_fresh.
  - intros n. rewrite Hrefs. pose proof (co_bound _ _ _ _ Hc n). unfold ind. destruct (n =? i_inum i); lia.
Qed.

(** ** One step of the walk *)

(** The directory check and lookup, with the lock of [ip] held. *)
Lemma lookup_locked s a ip i name :
  tree (view a) -> at_rest s a (Some ip) -> (fs_icache s).[ip] = Some i -> 0 < i_ref i -> i_valid i = true ->
  (forall n, refs (fs_icache s) n < 2 ^ 32 - 2) ->
  exists b c' r, (_d <-? is_dir ip ;; dir_lookup ip name) s = Ret (r, put_icache c' (set_bl b s)) /\ rep b a /\
    cache_ok (view a) (fs_me s) (Some ip) c' /\
    (exists i', c'.[ip] = Some i' /\ i_inum i' = i_inum i /\ i_ref i <= i_ref i' /\ i_din i' = i_din i /\ i_dev i' = i_dev i /\ i_sb i' = i_sb i /\ i_lock i' = i_lock i) /\
    match descend (view a) (i_inum i) name with
    | Err e => r = Err e /\ forall m, refs c' m = refs (fs_icache s) m
    | Ok n =>
      (exists k j, r = Ok k /\ c'.[k] = Some j /\ refers ROOTDEV n j /\ (k = ip -> i_ref i < i_ref j) /\
         forall m, refs c' m = refs (fs_icache s) m + ind m n) \/
      (r = Err "Inode::get: no inodes" /\ (forall k j, c'.[k] = Some j -> 0 < i_ref j) /\
       forall m, refs c' m = refs (fs_icache s) m)
    end.
Proof.
  intros Ht Hs Ei Hr Hv Hb. pose proof Hs as [R Hh Hcap Hme Hsb Hc].
  pose proof (co_entry _ _ _ _ Hc ip i Ei) as [_ Hl Hu]. rewrite bool_decide_eq_true_2 in Hl by done.
  destruct (Hu Hr) as (Hd & Hisb & Hlv & Hval). specialize (Hval Hv). destruct (Ht _ Hlv) as [Hg Hcl].
  destruct (typ_of _ _ Hg) as (t & Et & Hnu & Hdir).
  assert (ityp ip s = Ret (t, s)) as Ety.
  { unfold ityp. rewrite (bind_run _ _ _ _ _ (inode_at_run _ _ _ Ei)), Hval. unfold lift. by rewrite Et. }
  unfold descend. destruct (Z.eqb_spec (di_typ (dinode_at (view a) (i_inum i))) 1) as [Hty|Hty].
  2:{ exists (bl (fs_log s)), (fs_icache s), (Err "not a directory").
      split; [|split; [done|split; [done|split; [by exists i|done]]]].
      rewrite (try_err _ _ s "not a directory" s); [cbn; by destruct s as [[]]|].
      unfold is_dir. rewrite (bind_run _ _ _ _ _ Ety), Hdir. done. }
  assert (is_dir ip s = Ret (Ok ip, s)) as Eis by (unfold is_dir; by rewrite (bind_run _ _ _ _ _ Ety), Hdir).
  rewrite (try_run _ _ _ _ _ Eis). destruct (gi_dir _ _ Hg Hty) as (Hsz & Hal & Hmap).
  assert (dir_open s a ip i (contents (i_din i) (view a))) as Ho.
  { split; try done; rewrite ?Hval; try done. }
  destruct (lookup_offset_run s a ip i _ sb name Ho Hisb) as (b & Rb & E). rewrite Hval in E.
  pose proof (names_find (contents (dinode_at (view a) (i_inum i)) (view a)) name) as Hnf.
  fold (dir_at (view a) (i_inum i)) in Hnf. rewrite Hnf.
  destruct (find_entry (contents (dinode_at (view a) (i_inum i)) (view a)) name) as [k0|] eqn:Ef.
  2:{ exists b, (fs_icache s), (Err "file not found"). unfold dir_lookup. rewrite (try_err _ _ _ _ _ E).
      split; [done|]. split; [done|]. split; [done|]. split; [by exists i|]. done. }
  set (n := d_inum (entry_of (contents (dinode_at (view a) (i_inum i)) (view a)) k0)) in *.
  assert (live n) as Hln by (apply (Hcl Hty name n); rewrite Hnf; done).
  cbn [fmap option_fmap option_map] in *. fold n.
  destruct (iget_cases (set_bl b s) ROOTDEV n sb (cache_icache _ _ _ _ Hc))
    as [(k & x & x' & Hx & Eg & _ & Href & Hcase)|(Eg & Hall)].
  - rewrite (try_run _ _ _ _ _ Eg) in E. exists b, (fs_icache s).[k <- x'], (Ok k).
    destruct (get_cache _ _ _ _ _ _ _ n Hc Hb Hln Hx Hcase) as [Hc' Hrefs].
    pose proof (znth_range _ _ _ Hx) as Hkr.
    split; [unfold dir_lookup; by rewrite (try_run _ _ _ _ _ E)|]. split; [done|]. split; [done|]. split.
    + destruct (decide (k = ip)) as [->|Hne].
      * exists x'. cbn in Hx. rewrite Ei in Hx. injection Hx as <-. split; [by apply znth_zset_eq|].
        destruct Hcase as [[_ ->]|[Hx0 _]]; [|lia]. cbn. split; [done|]. split; [lia|done].
      * exists i. split; [by rewrite znth_zset_ne|]. done.
    + left. exists k, x'. split; [done|]. split; [by apply znth_zset_eq|]. split; [done|]. split; [|done].
      intros ->. cbn in Hx. rewrite Ei in Hx. injection Hx as <-. destruct Hcase as [[_ ->]|[Hx0 _]]; [cbn; lia|lia].
  - rewrite (try_err _ _ _ _ _ Eg) in E. exists b, (fs_icache s), (Err "Inode::get: no inodes").
    unfold dir_lookup. rewrite (try_err _ _ _ _ _ E). split; [done|]. split; [done|]. split; [done|]. split; [by exists i|].
    right. split; [done|]. split; [|done]. intros k j Hk. by apply (Hall k j).
Qed.

Lemma step_run s a ip i name :
  tree (view a) -> at_rest s a None -> (fs_icache s).[ip] = Some i -> 0 < i_ref i ->
  (forall n, refs (fs_icache s) n < 2 ^ 32 - 2) ->
  exists b c' r, with_putlock ip (_d <-? is_dir ip ;; dir_lookup ip name) s = Ret (r, put_icache c' (set_bl b s)) /\
    at_rest (put_icache c' (set_bl b s)) a None /\
    match descend (view a) (i_inum i) name with
    | Err e => r = Err e /\ forall m, refs c' m = refs (fs_icache s) m - ind m (i_inum i)
    | Ok n =>
      (exists k j, r = Ok k /\ c'.[k] = Some j /\ refers ROOTDEV n j /\
         forall m, refs c' m = refs (fs_icache s) m + ind m n - ind m (i_inum i)) \/
      (r = Err "Inode::get: no inodes" /\ (exists ip, forall k j, k <> ip -> c'.[k] = Some j -> 0 < i_ref j) /\
       forall m, refs c' m = refs (fs_icache s) m - ind m (i_inum i))
    end.
Proof.
  intros Ht Hs Ei Hr Hb. destruct (ilock_run s a ip i Ht Hs Ei Hr) as (b1 & E1 & R1).
  pose proof (ar_cache _ _ _ Hs) as Hc. destruct (lock_cache _ _ _ _ _ Hc Ei Hr) as [Hc1 Hrefs1].
  pose proof (eo_used _ _ _ _ (co_entry _ _ _ _ Hc ip i Ei) Hr) as (Hd & _ & Hlv & _).
  set (i1 := loaded (view a) (fs_me s) i) in *. set (s1 := put_icache _ (set_bl b1 s)) in E1.
  assert (at_rest s1 a (Some ip)) as Hs1 by (by eapply at_rest_put).
  pose proof (znth_range _ _ _ Ei) as Hip.
  assert ((fs_icache s1).[ip] = Some i1) as Ei1 by (by apply znth_zset_eq).
  destruct (lookup_locked s1 a ip i1 name Ht Hs1 Ei1 Hr eq_refl) as (b2 & c2 & r & E2 & R2 & Hc2 & (i2 & Ei2 & H21 & H22 & H23 & H24 & H25 & H26) & Hres).
  { intros n. change (fs_icache s1) with (fs_icache s).[ip <- i1]. rewrite Hrefs1. apply Hb. }
  cbn [i_inum loaded i1] in H21, Hres. cbn [fs_icache put_icache s1] in Hres.
  set (s2 := put_icache c2 (set_bl b2 s1)) in E2.
  assert (0 < i_ref i2) as Hr2 by (cbn in H22; lia).
  assert (locked_at s2 ip i2) as Hlk2.
  { split; [done|]. rewrite H24, H25, H26. split; [done|]. split; [by exists sb|done]. }
  assert (unlock_put ip s2 = Ret (Ok tt, put_icache c2.[ip <- set_ref (i_ref i2 - 1) (set_ilock Sleeplock_new i2)] s2)) as E3.
  { apply unlock_put_run; [done|apply Hs|done|]. rewrite H23. apply (Ht _ Hlv). }
  destruct (put_cache _ _ _ _ _ Hc2 Ei2 Hr2) as [Hc3 Hrefs3]. set (c3 := c2.[ip <- _]) in *. rewrite H21 in Hrefs3.
  exists b2, c3, r. split; [|split].
  - unfold with_putlock. rewrite (bind_run _ _ _ _ _ E1), (bind_run _ _ _ _ _ E2).
    destruct r; [by rewrite (try_run _ _ _ _ _ E3)|by rewrite (bind_run _ _ _ _ _ E3)].
  - by eapply at_rest_put.
  - destruct (descend (view a) (i_inum i) name) as [n|e].
    + destruct Hres as [(k & j & -> & Hk & Href & Hmore & Hm)|(-> & Hfull & Hm)]; [left|right].
      * exists k. destruct (decide (k = ip)) as [->|Hne].
        -- eexists. split; [done|]. split; [apply znth_zset_eq; by eapply znth_range|]. rewrite Ei2 in Hk. injection Hk as <-. split.
           ++ destruct Href as (_ & Hd2 & Hn2). split; [|by split].
              specialize (Hmore eq_refl). cbn in Hmore |- *. lia.
           ++ intros m. rewrite Hrefs3, Hm, Hrefs1. done.
        -- exists j. split; [done|]. split; [unfold c3; by rewrite znth_zset_ne|]. split; [done|].
           intros m. rewrite Hrefs3, Hm, Hrefs1. done.
      * split; [done|]. split; [|intros m; rewrite Hrefs3, Hm, Hrefs1; done].
        exists ip. intros k j Hne. unfold c3. rewrite znth_zset_ne by done. apply Hfull.
    + destruct Hres as [-> Hm]. split; [done|]. intros m. rewrite Hrefs3, Hm, Hrefs1. done.
Qed.

(** ** The walk *)
Lemma elems_enough f1 f2 path :
  (length path <= f1)%nat -> (length path <= f2)%nat -> elems_upto f1 path = elems_upto f2 path.
Proof.
  revert f2 path. induction f1 as [|f1 IH]; intros f2 path H1 H2.
  - assert (path = []) as -> by (destruct path; [done|cbn in H1; lia]). by destruct f2.
  - destruct f2 as [|f2]; [assert (path = []) as -> by (destruct path; [done|cbn in H2; lia]); done|].
    cbn [elems_upto]. pose proof (skip_elem_spec path) as Hsp. destruct (skip_elem path) as [[name rest]|]; [|done].
    destruct Hsp as [Hl _]. f_equal. apply IH; lia.
Qed.

Lemma elems_step path :
  elems path = match skip_elem path with None => [] | Some (name, rest) => name :: elems rest end.
Proof.
  unfold elems. destruct path as [|x path]; [done|]. cbn [length elems_upto].
  pose proof (skip_elem_spec (x :: path)) as Hsp. destruct (skip_elem (x :: path)) as [[name rest]|]; [|done].
  destruct Hsp as [Hl _]. f_equal. cbn in Hl. apply elems_enough; lia.
Qed.

(** What a lookup that should give [w] may do, with [r0] the references
    counted without the one it holds: give an entry for the inode, which
    counts one more; or the error, with nothing counted; or find the inode
    cache full. *)
Definition resolved (w : result Z) (r0 : Z -> Z) (r : result Z) (c : list Inode) : Prop :=
  match w with
  | Ok n => exists k j, r = Ok k /\ c.[k] = Some j /\ refers ROOTDEV n j /\ forall m, refs c m = r0 m + ind m n
  | Err e => r = Err e /\ forall m, refs c m = r0 m
  end \/
  (r = Err "Inode::get: no inodes" /\ (exists ip, forall k j, k <> ip -> c.[k] = Some j -> 0 < i_ref j) /\
   forall m, refs c m = r0 m).

Lemma put_icache_bl c c' b b' s :
  put_icache c' (set_bl b' (put_icache c (set_bl b s))) = put_icache c' (set_bl b' s).
Proof. done. Qed.

Lemma namex_loop_run fuel s a ip i path r0 :
  tree (view a) -> at_rest s a None -> (fs_icache s).[ip] = Some i -> 0 < i_ref i ->
  (forall m, refs (fs_icache s) m = r0 m + ind m (i_inum i)) -> (forall m, r0 m < 2 ^ 32 - 3) ->
  (length path < fuel)%nat ->
  exists b c' r, namex_loop fuel ip path s = Ret (r, put_icache c' (set_bl b s)) /\
    at_rest (put_icache c' (set_bl b s)) a None /\ resolved (walk (view a) (i_inum i) (elems path)) r0 r c'.
Proof.
  intros Ht. revert s ip i path. induction fuel as [|fuel IH]; intros s ip i path Hs Ei Hr Hrefs Hb Hf; [lia|].
  cbn [namex_loop]. rewrite elems_step. pose proof (skip_elem_spec path) as Hsp.
  destruct (eo_used _ _ _ _ (co_entry _ _ _ _ (ar_cache _ _ _ Hs) ip i Ei) Hr) as (Hd & _).
  destruct (skip_elem path) as [[name rest]|].
  2:{ exists (bl (fs_log s)), (fs_icache s), (Ok ip). split; [cbn; by destruct s as [[]]|].
      split; [by eapply at_rest_put; [|apply Hs|apply Hs]|]. left. exists ip, i. by repeat split. }
  destruct Hsp as (Hl & s1 & elem & s2 & _ & _ & Hne).
  assert (zlen name =? 0 = false) as -> by (apply Z.eqb_neq; unfold zlen; destruct name; [done|cbn; lia]).
  destruct (step_run s a ip i name Ht Hs Ei Hr) as (b & c' & r & E & Hs' & Hres).
  { intros n. rewrite Hrefs. specialize (Hb n). unfold ind. destruct (n =? i_inum i); lia. }
  cbn [walk]. destruct (descend (view a) (i_inum i) name) as [n|e].
  - destruct Hres as [(k & j & -> & Hk & (Hj1 & Hj2 & Hj3) & Hm)|(-> & Hfull & Hm)].
    + rewrite (try_run _ _ _ _ _ E).
      destruct (IH _ k j rest Hs' Hk Hj1) as (b2 & c2 & r2 & E2 & Hs2 & Hr2); [|done|lia|].
      * intros m. cbn [fs_icache put_icache]. rewrite Hm, Hrefs, Hj3. lia.
      * exists b2, c2, r2. rewrite put_icache_bl in E2, Hs2. rewrite Hj3 in Hr2. done.
    + rewrite (try_err _ _ _ _ _ E). exists b, c', (Err "Inode::get: no inodes"). split; [done|]. split; [done|].
      right. split; [done|]. split; [done|]. intros m. rewrite Hm, Hrefs. lia.
  - destruct Hres as [-> Hm]. rewrite (try_err _ _ _ _ _ E). exists b, c', (Err e).
    split; [done|]. split; [done|]. left. split; [done|]. intros m. rewrite Hm, Hrefs. lia.
Qed.

Lemma dup_run s ip i :
  icache_ok (fs_icache s) -> (fs_icache s).[ip] = Some i ->
  dup ip s = Ret (ip, put_icache (fs_icache s).[ip <- set_ref (i_ref i + 1) i] s).
Proof.
  intros Hok Ei. unfold dup. rewrite (bind_run _ _ _ _ _ (inode_at_run _ _ _ Ei)).
  rewrite (bind_lift _ _ _ _ (add_ref_run _ (ic_count _ Hok _ _ Ei))).
  by rewrite (bind_run _ _ _ _ _ (upd_inode_run _ _ _ _ Ei)).
Qed.

(** Where the walk starts. *)
Definition start_of (path : list Z) (cwd : Inode) : Z :=
  match path with
  | x :: _ => if x =? SLASH then ROOTINO else i_inum cwd
  | [] => i_inum cwd
  end.

Lemma namex_run s a path cwd :
  tree (view a) -> at_rest s a None -> live ROOTINO -> (fs_icache s).[fs_cwd s] = Some cwd -> 0 < i_ref cwd ->
  (forall m, refs (fs_icache s) m < 2 ^ 32 - 3) ->
  exists b c' r, namex path s = Ret (r, put_icache c' (set_bl b s)) /\ at_rest (put_icache c' (set_bl b s)) a None /\
    resolved (walk (view a) (start_of path cwd) (elems path)) (refs (fs_icache s)) r c'.
Proof.
  intros Ht Hs Hroot Hcwd Hr Hb. pose proof (ar_cache _ _ _ Hs) as Hc. pose proof (cache_icache _ _ _ _ Hc) as Hok.
  assert (forall m, refs (fs_icache s) m < 2 ^ 32 - 2) as Hb2 by (intros m; specialize (Hb m); lia).
  assert (Hgo : forall k x x' inum, live inum -> (fs_icache s).[k] = Some x ->
    (refers ROOTDEV inum x /\ x' = set_ref (i_ref x + 1) x \/
     i_ref x = 0 /\ x' = claimed ROOTDEV inum sb x /\ forall k i, (fs_icache s).[k] = Some i -> ~ refers ROOTDEV inum i) ->
    exists b c' r, namex_loop (Datatypes.S (length path)) k path (put_icache (fs_icache s).[k <- x'] s) =
        Ret (r, put_icache c' (set_bl b s)) /\ at_rest (put_icache c' (set_bl b s)) a None /\
      resolved (walk (view a) inum (elems path)) (refs (fs_icache s)) r c').
  { intros k x x' inum Hlv Hk Hcase. destruct (get_cache _ _ _ _ _ _ _ inum Hc Hb2 Hlv Hk Hcase) as [Hc' Hrefs].
    assert (0 < i_ref x' /\ i_inum x' = inum) as [Hx1 Hx2].
    { destruct Hcase as [[(H1 & _ & H2) ->]|(H1 & -> & _)]; cbn; [split; [lia|done]|split; [lia|done]]. }
    pose proof (znth_range _ _ _ Hk) as Hkr.
    destruct (namex_loop_run (Datatypes.S (length path)) (put_icache (fs_icache s).[k <- x'] s) a k x' path (refs (fs_icache s)) Ht)
      as (b & c' & r & E & Hs' & Hres); [|by apply znth_zset_eq|done|intros m; rewrite Hx2; apply Hrefs|done|lia|].
    - destruct Hs. by split.
    - exists b, c', r. rewrite Hx2 in Hres. done. }
  unfold namex. assert (Hcwd' : exists b c' r,
    (ip <-? (c ← gets fs_cwd; ip ← dup c; mret (Ok ip)) ;; namex_loop (Datatypes.S (length path)) ip path) s =
      Ret (r, put_icache c' (set_bl b s)) /\ at_rest (put_icache c' (set_bl b s)) a None /\
    resolved (walk (view a) (i_inum cwd) (elems path)) (refs (fs_icache s)) r c').
  { destruct (eo_used _ _ _ _ (co_entry _ _ _ _ Hc _ _ Hcwd) Hr) as (Hd & _ & Hlv & _).
    rewrite (try_run _ _ s (fs_cwd s) (put_icache (fs_icache s).[fs_cwd s <- set_ref (i_ref cwd + 1) cwd] s)).
    - apply (Hgo _ cwd); [done|done|]. left. by repeat split.
    - rewrite bind_gets. by rewrite (bind_run _ _ _ _ _ (dup_run _ _ _ Hok Hcwd)). }
  destruct path as [|x path]; [exact Hcwd'|]. cbn [start_of].
  destruct (x =? SLASH); [|exact Hcwd'].
  destruct (iget_cases s ROOTDEV ROOTINO sb Hok) as [(k & y & y' & Hk & Eg & _ & _ & Hcase)|(Eg & Hall)].
  - rewrite (try_run _ _ s k (put_icache (fs_icache s).[k <- y'] s)).
    + by apply (Hgo _ y).
    + by rewrite bind_gets, (ar_sb _ _ _ Hs).
  - exists (bl (fs_log s)), (fs_icache s), (Err "Inode::get: no inodes").
    rewrite (try_err _ _ s "Inode::get: no inodes" s) by (by rewrite bind_gets, (ar_sb _ _ _ Hs)).
    split; [cbn; by destruct s as [[]]|]. split; [by eapply at_rest_put; [|apply Hs|apply Hs]|].
    right. split; [done|]. split; [|done]. exists 0. intros k j _ Hk. by apply (Hall k j).
Qed.

(** C23: [namei] of a nonempty path, with no inode locked and every cached
    inode as on the device: it resolves the path's elements one directory at
    a time, from the root or the current directory, exactly as the walk over
    the directories' maps does.  When the walk reaches an inode it returns a
    cache entry for it and counts one more reference to it and to no other;
    when the walk fails, with "not a directory" or "file not found", it
    returns that error and every reference taken on the way is given back;
    the only other outcome is a full inode cache, again with none leaked.
    All locks are free again and the cache still matches the device. *)
Theorem namei_resolves s a path cwd :
  tree (view a) -> at_rest s a None -> live ROOTINO -> (fs_icache s).[fs_cwd s] = Some cwd -> 0 < i_ref cwd ->
  (forall m, refs (fs_icache s) m < 2 ^ 32 - 3) -> path <> [] ->
  exists b c' r, namei path s = Ret (r, put_icache c' (set_bl b s)) /\ at_rest (put_icache c' (set_bl b s)) a None /\
    resolved (walk (view a) (start_of path cwd) (elems path)) (refs (fs_icache s)) r c'.
Proof.
  intros Ht Hs Hroot Hcwd Hr Hb Hp. unfold namei.
  assert (zlen path =? 0 = false) as -> by (apply Z.eqb_neq; unfold zlen; destruct path; [done|cbn; lia]).
  by apply namex_run.
Qed.
End path.
