(* ===== verification/FsDurable.v ===== *)
(** Writing an open file: each transaction of [Inode::write] locks the inode,
    writes, unlocks and commits, within its reservation in the log; then the
    disk itself holds the new contents. *)
From stdpp Require Import base list gmap strings fin_sets.
From Stdlib Require Import ZArith Lia.
From S2P Require Import Prelude.
From S2P Require Import Arch.
From S2P Require Import Sleeplock.
From S2P Require Import BlockLayer.
From S2P Require Import Fslog.
From S2P Require Import FslogCrash.
From S2P Require Import FslogSpec.
From S2P Require Import FsLayout.
From S2P Require Import Fs.
From S2P Require Import FsSpec.
From S2P Require Import FsFile.
From S2P Require Import FsGrow.
From S2P Require Import FsDir.
From S2P Require Import Icache.
From S2P Require Import FsPath.

Section durable.
Context {S : Type} `{BL : BlockLaws S}.
Context (sb : Superblock) (start size : Z) (Hbm : bitmap_ok sb start size).
Implicit Types (s : Fs S) (t : Logged S) (a : Dev).
Local Notation writing := (writing sb start size).

(** ** The end of a transaction *)
Lemma end_run t a :
  txn t a start size -> held a = ∅ -> st t = mkLogState 1 false -> LOGSIZE < capacity ->
  hdr_is (medium (bl t) start) [] -> llen (lg t) < LOGSIZE -> llen (lg t) < size - 1 ->
  exists t' a' tr, op_end t = Ret (tt, t') /\ idle t' a' start size /\
    hdr_is (medium (bl t') start) [] /\ written (bl t') = written (bl t) ++ tr /\
    (forall n, medium (bl t') n = apply_writes (medium (bl t)) tr n) /\
    (forall k, interrupted start size (medium (bl t)) (view a) (apply_writes (medium (bl t)) (take k tr))) /\
    forall n, outside start size n -> view a' n = view a n /\ medium (bl t') n = view a n.
Proof.
  intros [Hr Hw Hat He Hd Ho] Hh Hst room Hhdr Hl1 Hl2. pose proof (zlen_header _ Hw) as Hzl.
  set (t2 := set_st (mkLogState 0 true) t).
  assert (committable t2 a start size (header (lg t))) as Hc2 by (by split).
  assert (op_end t = (op_commit;; modify (fun t => set_st (mkLogState (outstanding (st t)) false) t)) t2) as Eend.
  { unfold op_end. rewrite bind_gets, Hst, (bind_lift _ _ _ (true, mkLogState 0 true)) by done. by rewrite bind_modify. }
  assert (Hclean : forall n, n ∉ header (lg t) -> medium (bl t) n = view a n).
  { intros n Hn. rewrite <-(rep_medium _ _ n Hr). symmetry. apply (rep_clean _ _ _ Hr); [by rewrite Hd|].
    intros h. by apply held_fresh. }
  destruct (decide (header (lg t) = [])) as [Hnil|Hne].
  - assert (llen (lg t) = 0) as Hl by (by apply header_nil). rewrite Hnil in *.
    assert (op_commit t2 = Ret (tt, t2)) as Eop.
    { unfold op_commit. rewrite bind_gets. unfold is_empty. cbn [lg set_st t2]. by rewrite Hl. }
    exists (set_st LogState_new t), a, []. rewrite Eend, (bind_run _ _ _ _ _ Eop), app_nil_r.
    split; [done|]. split; [by split|]. do 3 (split; [done|]). split.
    + intros k. rewrite take_nil. split; [|by left]. left. exists []. (do 3 (split; [done || (unfold zlen; cbn; lia)|])). left. by split.
    + intros n Hn. split; [done|]. apply Hclean, not_elem_of_nil.
  - destruct (op_commit_run room t2 _ _ _ _ Hc2 Hne) as (b & E & R). pose proof (rep_len _ _ start Hr) as Hlen.
    assert (Hmed : forall n, medium b n = apply_writes (medium (bl t)) (commit_trace start (header (lg t)) (view a)) n).
    { intros n. rewrite <-(rep_medium _ _ n R), media_after_writes. apply apply_writes_ext. intros m. by apply rep_medium. }
    destruct (commit_done_quiet start size _ He (medium (bl t)) (view a)) as [Hq1 Hq2]; [by intros n _; apply Hclean|done|].
    exists (mkLogged b (clear (lg t)) LogState_new), (fold_left after_write (commit_trace start (header (lg t)) (view a)) a),
      (commit_trace start (header (lg t)) (view a)).
    rewrite Eend, (bind_run _ _ _ _ _ E). split; [done|].
    split; [exact (commit_idles _ _ _ _ _ _ Hc2 R)|]. cbn [bl]. split; [by rewrite Hmed|].
    split; [by rewrite <-(rep_written _ _ R), wlog_after_writes, (rep_written _ _ Hr)|]. split; [done|]. split.
    + intros k. split; [|intros n Hn; by apply (commit_prefix_home start size)].
      destruct (commit_prefix_settles start size _ He (medium (bl t)) (view a)) with k; [by intros n _; apply Hclean|done|done|left|right];
        exists (header (lg t)); (do 3 (split; [done || lia|])); done.
    + intros n Hn. rewrite view_after_writes, Hmed. split; [|by apply Hq2]. by apply (commit_home start size).
Qed.

Lemma idle_clean t a n : idle t a start size -> medium (bl t) n = view a n.
Proof.
  intros [[Hr Hh _ _ Hhd _ Hd] _ _]. rewrite <-(rep_medium _ _ n Hr). symmetry. apply (rep_clean _ _ _ Hr).
  - rewrite Hd. apply not_elem_of_nil.
  - intros h. by apply held_fresh.
Qed.

(** ** What the commit leaves alone *)
Lemma indirect_same a inum d v :
  (forall n, outside start size n -> v n = view a n) -> inode_ok sb start size a inum d ->
  addr d NDIRECT <> 0 -> v (addr d NDIRECT) = view a (addr d NDIRECT).
Proof.
  intros Hsame Hio Hi. apply Hsame. pose proof (io_owned _ _ _ _ _ _ Hio NDIRECT) as Ho.
  rewrite slot_direct in Ho by lia. by apply Ho.
Qed.

Section same.
Context (a a' : Dev) (Hsame : forall n, outside start size n -> view a' n = view a n) (Hheld : held a' = held a).

Lemma used_same b : 0 <= b < sb_size sb -> used sb (view a') b = used sb (view a) b.
Proof. intros Hb. apply used_ext, Hsame. by apply Hbm. Qed.

Lemma alloc_same : alloc_ok sb start size a -> alloc_ok sb start size a'.
Proof. apply alloc_ok_mono; [|done]. intros b Hb. by rewrite used_same. Qed.

Lemma inode_same inum d : inode_ok sb start size a inum d -> inode_ok sb start size a' inum d.
Proof.
  intros Hio. eapply inode_ok_mono; [|by eapply (indirect_same a)|exact Hio]. intros b Hb. by rewrite used_same.
Qed.

Lemma synced_same inum d : inode_ok sb start size a inum d -> synced sb a inum d -> synced sb a' inum d.
Proof. intros Hio. unfold synced. rewrite Hsame; [done|]. apply (io_iblock _ _ _ _ _ _ Hio). Qed.
End same.

Lemma contents_same v a inum d :
  (forall n, outside start size n -> v n = view a n) -> inode_ok sb start size a inum d -> dense d (view a) ->
  contents d v = contents d (view a) /\ dense d v.
Proof.
  intros Hsame Hio Hd. split.
  - apply contents_ext; [|done]. intros k Hk. apply Hsame, (io_owned _ _ _ _ _ _ Hio _ Hk).
  - eapply dense_ext; [|done]. by eapply indirect_same.
Qed.

(** A chunk of [WRITE_MAX] bytes stays within its transaction's reservation. *)
Lemma write_cost_reserved d v off n :
  dense d v -> 0 <= off <= di_size d -> 0 <= n <= WRITE_MAX ->
  write_cost d v off n <= MAXOPBLOCKS /\ 2 * spanned off n + 5 <= MAXOPBLOCKS + 3.
Proof.
  intros [_ Hd] Hoff Hn. assert (BSIZE = 4096 /\ WRITE_MAX = 122880 /\ MAXOPBLOCKS = 64) as (HB & HW & HM) by done.
  pose proof (Z.div_mod off BSIZE ltac:(lia)) as Hdm. pose proof (Z.mod_pos_bound off BSIZE ltac:(lia)) as Hmb.
  assert (0 <= off / BSIZE) by (apply Z.div_pos; lia).
  unfold write_cost, spanned, saved. destruct (Z.eqb_spec n 0) as [->|Hnz]; [cbn [orb]; lia|]. cbn [orb].
  pose proof (Z.div_mod (off mod BSIZE + n + BSIZE - 1) BSIZE ltac:(lia)).
  pose proof (Z.mod_pos_bound (off mod BSIZE + n + BSIZE - 1) BSIZE ltac:(lia)).
  destruct (Z.eqb_spec (slot d v (slot_of (off / BSIZE))) 0) as [Hz|Hz]; [|lia].
  assert (off mod BSIZE = 0); [|lia]. destruct (decide (off mod BSIZE = 0)); [done|]. exfalso. apply (Hd (off / BSIZE)); [done|lia|done].
Qed.

(** ** An open file between calls *)
Record file_idle (s : Fs S) (a : Dev) (ip : Z) (i : Inode) : Prop := {
  fi_idle : idle (fs_log s) a start size;
  fi_hdr : hdr_is (medium (bl (fs_log s)) start) [];
  fi_slot : (fs_icache s).[ip] = Some i;
  fi_lock : i_lock i = Sleeplock_new;
  fi_me : fs_me s <> 0;
  fi_sb : i_sb i = Some sb;
  fi_dev : i_dev i = ROOTDEV;
  fi_ref : 0 < i_ref i;
  fi_valid : i_valid i = true;
  fi_alloc : alloc_ok sb start size a;
  fi_inode : inode_ok sb start size a (i_inum i) (i_din i);
  fi_dense : dense (i_din i) (view a) }.

Definition locked_inode (me : Z) (i : Inode) : Inode := set_ilock (mkSleeplock true me) i.

Lemma idle_writing s a ip i :
  file_idle s a ip i ->
  let s1 := put_icache (fs_icache s).[ip <- locked_inode (fs_me s) i] (put_log (set_st (mkLogState 1 false) (fs_log s)) s) in
  (zoom fs_log put_log op_begin;; ilock ip) s = Ret (tt, s1) /\ writing s1 a ip (locked_inode (fs_me s) i) /\
  llen (lg (fs_log s1)) = 0 /\ st (fs_log s1) = mkLogState 1 false.
Proof.
  intros [Hi _ Es Hl Hme Hsb Hdev Hr Hv Hal Hio Hd] s1. destruct (begin_run _ _ _ _ Hi) as [E0 [[R Hh Hw Hat _ He Hdt] Ho _]].
  pose proof (znth_range _ _ _ Es) as Hip. split; [|split; [|split; [apply Hi|done]]].
  - rewrite (bind_run _ _ _ _ _ (zoom_run fs_log put_log op_begin s _ _ E0)).
    exact (ilock_valid (put_log (set_st (mkLogState 1 false) (fs_log s)) s) ip i Es Hr (mk_is_Some _ _ Hsb) Hl Hme Hv).
  - split; try done. split; [by apply znth_zset_eq|]. split; [done|]. split; [by exists sb|done].
Qed.

(** What the call leaves alone, of the blocks outside the log. *)
Definition kept_outside (inum : Z) (d : DInode) (a a' : Dev) : Prop :=
  (forall n, outside start size n -> ~ bitmap_block sb n -> (0 <= n < sb_size sb -> used sb (view a) n = true) ->
     (forall k, slot d (view a) k <> 0 -> n <> slot d (view a) k) -> n <> inode_block sb inum -> view a' n = view a n) /\
  (forall inum', inum mod IPB <> inum' mod IPB ->
     get_dinode (view a' (inode_block sb inum)) inum' = get_dinode (view a (inode_block sb inum)) inum') /\
  (forall b, 0 <= b < sb_size sb -> used sb (view a) b = true -> used sb (view a') b = true).

(** One [write] call's transaction. *)
Lemma write_op_run s a ip i src off :
  let d := i_din i in
  file_idle s a ip i -> LOGSIZE < capacity -> MAXOPBLOCKS + 4 <= size ->
  0 <= off <= di_size d -> zlen src <= WRITE_MAX -> off + zlen src <= MAXFILE * BSIZE ->
  exists r l a' d' tr, fs_with_op (with_lock ip (writei ip src off)) s = Ret (r, put_din l ip i d' s) /\
    file_idle (put_din l ip i d' s) a' ip (set_din d' i) /\ kept_outside (i_inum i) d a a' /\
    grown_slots sb d a d' a' /\ written (bl l) = written (bl (fs_log s)) ++ tr /\
    (forall n, medium (bl l) n = apply_writes (medium (bl (fs_log s))) tr n) /\
    (forall k, interrupted start size (view a) (view a') (apply_writes (medium (bl (fs_log s))) (take k tr))) /\
    ((r = Ok (zlen src) /\ contents d' (view a') = zsplice (contents d (view a)) off src /\
      (synced sb a (i_inum i) d -> synced sb a' (i_inum i) d')) \/
     (r = Err "balloc: out of blocks" /\ (forall b, 0 <= b < sb_size sb -> used sb (view a') b = true) /\
      exists n, 0 <= n < zlen src /\ di_size d <= (off + n) / BSIZE * BSIZE)).
Proof.
  intros d Hf room Hmax Hoff Hch Hend. destruct (idle_writing s a ip i Hf) as (E0 & W0 & L0 & S0).
  set (i0 := locked_inode (fs_me s) i) in *. set (s0 := put_icache _ _) in *. pose proof (zlen_nonneg src) as Hz.
  assert (BSIZE = 4096 /\ LOGSIZE = 511 /\ MAXOPBLOCKS = 64) as (HB & HL & HM) by done.
  destruct (write_cost_reserved d (view a) off (zlen src) (fi_dense _ _ _ _ Hf) Hoff ltac:(lia)) as [Hcost Hspan].
  destruct (writei_grow sb start size Hbm s0 a ip i0 src off W0 room (fi_dense _ _ _ _ Hf) Hoff Hend) as (r & l & a1 & d' & E1 & [St L W De Sz Ot Sl Res]).
  { split; rewrite L0; lia. }
  change (i_din i0) with d in L. set (s1 := put_din l ip i0 d' s0) in *. pose proof (wg_locked _ _ _ _ _ _ _ W) as Hlk1.
  pose proof (iunlock_run s1 ip _ Hlk1 (fi_ref _ _ _ _ Hf)) as E2. set (s2 := put_icache _ s1) in E2.
  destruct Ot as (O1 & O2 & O3 & O4 & O5). assert (rep (bl l) a1) as Hr1 by exact (tx_rep _ _ _ _ (wg_txn _ _ _ _ _ _ _ W)).
  pose proof (cm_rep _ _ _ _ _ (id_cm _ _ _ _ (fi_idle _ _ _ _ Hf))) as Hr0.
  assert (Hmed0 : forall n, medium (bl l) n = medium (bl (fs_log s)) n).
  { intros n. rewrite <-(rep_medium _ _ n Hr1), <-(rep_medium _ _ n Hr0). by rewrite O4. }
  destruct (end_run l a1 (wg_txn _ _ _ _ _ _ _ W) (wg_held _ _ _ _ _ _ _ W)) as (l2 & a2 & tr & E3 & Hid & Hhdr & Htr & Hmtr & Hint & Hsame);
    [by rewrite St, S0|done|rewrite Hmed0; apply Hf|lia|lia|].
  assert (Hv : forall n, outside start size n -> view a2 n = view a1 n) by (intros n Hn; by apply Hsame).
  assert (held a2 = held a1) as Hh2 by (rewrite (cm_held _ _ _ _ _ (id_cm _ _ _ _ Hid)); by rewrite (wg_held _ _ _ _ _ _ _ W)).
  pose proof Hf as [_ _ Es Hl Hme Hsb Hdev Hr Hva _ _ _]. pose proof (znth_range _ _ _ Es) as Hip.
  exists r, l2, a2, d', tr. split.
  { unfold fs_with_op, with_lock. revert E0. unfold mbind, M_bind. destruct (zoom fs_log put_log op_begin s) as [[[] sx]|e|]; [|done|done].
    intros ->. rewrite E1, E2.
    unfold mret, M_ret. rewrite (zoom_run fs_log put_log op_end s2 _ _ E3). do 2 f_equal.
    unfold s2, s1, put_din, s0, i0, locked_inode, put_icache, put_log. cbn [fs_icache fs_log fs_sb fs_me fs_cwd].
    rewrite !zset_zset. unfold set_din, set_ilock. cbn. by rewrite Hl. }
  assert (inode_ok sb start size a1 (i_inum i) d') as Hio1 by apply W.
  split; [|split; [|split; [|split; [|split; [|split]]]]].
  - split; try done.
    + by apply znth_zset_eq.
    + eapply alloc_same; [exact Hv|done|apply W].
    + eapply inode_same; [exact Hv|done].
    + by apply (contents_same (view a2) a1 (i_inum i)).
  - destruct (io_iblock _ _ _ _ _ _ Hio1) as (_ & Hout & _). split; [|split].
    + intros n Hn Hnb Hu Ha Hi. rewrite Hv by done. by apply O1.
    + intros inum' Hne. rewrite Hv by done. by apply O2.
    + intros b Hb Hu. rewrite (used_same a1 a2 Hv) by done. by apply O3.
  - intros k. assert (slot d' (view a2) k = slot d' (view a1) k) as ->; [|by apply Sl].
    apply slot_ext. by eapply (indirect_same a1 (i_inum i)).
  - by rewrite Htr, <-(rep_written _ _ Hr1), O5, (rep_written _ _ Hr0).
  - intros n. rewrite Hmtr. apply apply_writes_ext. intros m. by rewrite Hmed0.
  - intros k. eapply interrupted_ext, Hint; [| |done].
    + intros n. apply apply_writes_ext. intros m. by rewrite Hmed0.
    + intros n Hn. rewrite Hmed0. symmetry. by apply idle_clean, Hf.
  - destruct Res as [(-> & Hc & Hsy)|(-> & Hfull & n & Hn & Hge & _)]; [left|right].
    + split; [done|]. split; [etrans; [by eapply (contents_same (view a2) a1)|exact Hc]|].
      intros Hs. eapply synced_same; [exact Hv|done|by apply Hsy].
    + split; [done|]. split; [|by exists n]. intros b Hb. rewrite (used_same a1 a2 Hv) by done. by apply Hfull.
Qed.

(** ** Several transactions *)
Lemma grown_trans d a d1 a1 d2 a2 :
  (forall b, 0 <= b < sb_size sb -> used sb (view a) b = true -> used sb (view a1) b = true) ->
  grown_slots sb d a d1 a1 -> grown_slots sb d1 a1 d2 a2 -> grown_slots sb d a d2 a2.
Proof.
  intros Hu G1 G2 k Hk. destruct (G2 k Hk) as [E|[Hr Hf]].
  - rewrite E in *. by apply G1.
  - right. split; [done|]. destruct (used sb (view a) _) eqn:E; [|done]. by rewrite (Hu _ Hr E) in Hf.
Qed.

Lemma kept_trans inum d a d1 a1 a2 :
  kept_outside inum d a a1 -> grown_slots sb d a d1 a1 -> kept_outside inum d1 a1 a2 -> kept_outside inum d a a2.
Proof.
  intros (K1 & I1 & U1) G (K2 & I2 & U2). split; [|split].
  - intros n Hn Hb Hu Hs Hi. rewrite K2; [by apply K1|done|done| | |done].
    + intros Hr. by apply U1, Hu.
    + intros k Hk ->. destruct (G k Hk) as [E|[Hr Hf]].
      * rewrite E in *. by apply (Hs k).
      * by rewrite Hu in Hf.
  - intros inum' Hne. by rewrite I2, I1.
  - intros b Hb Hu. by apply U2, U1.
Qed.
End durable.
