(* ===== verification/FsFree.v ===== *)
(** Deleting a file: [Inode::put] of the last reference to an inode with no
    links truncates it and frees it.  The blocks it gives back are exactly
    its own. *)
From stdpp Require Import base list gmap strings fin_sets.
From Stdlib Require Import ZArith Lia.
From S2P Require Import Prelude.
From S2P Require Import Arch.
From S2P Require Import Sleeplock.
From S2P Require Import BlockLayer.
From S2P Require Import Fslog.
From S2P Require Import FslogCrash.
From S2P Require Import FslogSpec.
From S2P Require Import FsLayout.
From S2P Require Import Fs.
From S2P Require Import FsSpec.
From S2P Require Import FsFile.
From S2P Require Import FsGrow.
From S2P Require Import Icache.
From S2P Require Import FsPath.

Lemma with_addrs_same d : d = with_addrs (di_addrs d) d.
Proof. by destruct d. Qed.

Section free.
Context {S : Type} `{BL : BlockLaws S}.
Context (sb : Superblock) (start size : Z) (Hbm : bitmap_ok sb start size).
Implicit Types (s : Fs S) (a : Dev) (d : DInode).
Local Notation writing := (writing sb start size).
Local Notation inode_ok := (inode_ok sb start size).

(** ** One block *)

(** The device and the inode after the block in slot [k] has been freed. *)
Lemma unmark_inode a inum d k :
  inode_ok a inum d -> (forall n, zlen (view a n) = BSIZE) -> alloc_ok sb start size a -> held a = ∅ ->
  0 <= k < NDIRECT -> addr d k <> 0 ->
  let b := addr d k in let d1 := with_addrs (di_addrs d).[k <- 0] d in
  inode_ok (unmark sb a b) inum d1 /\ alloc_ok sb start size (unmark sb a b) /\
  (forall b', 0 <= b' < sb_size sb -> used sb (view (unmark sb a b)) b' = (used sb (view a) b' && negb (b' =? b))).
Proof.
  intros Hio Hlen Hal Hh Hk Hnz b d1. assert (NDIRECT = 12) as HN by done.
  assert (slot d (view a) k = b) as Hsk by (apply slot_direct; lia).
  assert (slot d (view a) k <> 0) as Hnz' by (by rewrite Hsk).
  pose proof (io_owned _ _ _ _ _ _ Hio k Hnz') as Hown. rewrite Hsk in Hown.
  pose proof (ow_range _ _ _ _ _ _ Hown) as Hb.
  pose proof (io_dinode _ _ _ _ _ _ Hio) as (D1 & D2 & D3 & D4 & D5 & Hla & Hu64).
  assert (forall b', 0 <= b' < sb_size sb -> used sb (view (unmark sb a b)) b' = (used sb (view a) b' && negb (b' =? b))) as Hused.
  { intros b' Hb'. apply used_unmark; [done|lia|done]. }
  assert (forall j, addr d1 j = if j =? k then 0 else addr d j) as Ha by (intros j; apply addr_set; lia).
  assert (forall j, slot d1 (view (unmark sb a b)) j = if j =? k then 0 else slot d (view a) j) as Hsl.
  { intros j. destruct (decide (j <= NDIRECT)); [by rewrite !slot_direct, Ha by lia|].
    rewrite (proj2 (Z.eqb_neq j k)) by lia. assert (addr d1 NDIRECT = addr d NDIRECT) as Hi
      by (rewrite Ha, (proj2 (Z.eqb_neq NDIRECT k)); [done|lia]).
    etrans; [|apply (slot_ext d (view a) (view (unmark sb a b)))].
    - unfold slot. by rewrite (proj2 (Z.leb_gt j NDIRECT)), Hi by lia.
    - intros Hiz. unfold unmark. cbn. apply fupd_ne. intros E. pose proof (io_owned _ _ _ _ _ _ Hio NDIRECT) as Ho.
      rewrite slot_direct in Ho by lia. apply (ow_bitmap _ _ _ _ _ _ (Ho Hiz)). exists b. split; [lia|done]. }
  assert (forall j, slot d1 (view (unmark sb a b)) j <> 0 ->
    slot d1 (view (unmark sb a b)) j = slot d (view a) j /\ slot d (view a) j <> b) as Hne.
  { intros j. rewrite Hsl. destruct (Z.eqb_spec j k) as [->|Hjk]; [done|]. intros Hj. split; [done|].
    intros E. apply Hjk. apply (io_inj _ _ _ _ _ _ Hio); [done|congruence]. }
  assert (forall x, 0 <= x < sb_size sb -> x <> b -> used sb (view a) x = true -> used sb (view (unmark sb a b)) x = true) as Hkeep.
  { intros x Hx Hxb Hu. by rewrite Hused, Hu, (proj2 (Z.eqb_neq x b)). }
  split; [split|split; [|done]].
  - repeat (split; [done|]). cbn [di_addrs with_addrs d1]. split; [by rewrite zlen_zset|].
    unfold zset. destruct (_ && _); [|done]. by apply Forall_insert.
  - intros j Hj. destruct (Hne j Hj) as [E Ej]. rewrite E in *. destruct (io_owned _ _ _ _ _ _ Hio j Hj) as [R1 R2 R3 R4 R5].
    split; try done. apply Hkeep; [lia|done|done].
  - intros j j' Hj E. destruct (Hne j Hj) as [E1 _]. assert (slot d1 (view (unmark sb a b)) j' <> 0) as Hj' by congruence.
    destruct (Hne j' Hj') as [E2 _]. apply (io_inj _ _ _ _ _ _ Hio); congruence.
  - apply Hio.
  - intros Hib. pose proof (io_iblock _ _ _ _ _ _ Hio) as (Hr & _). apply Hkeep; [lia| |by apply Hio].
    intros E. by apply (ow_inode _ _ _ _ _ _ Hown).
  - intros H0. apply Hkeep; [lia|lia|by apply Hio].
  - split; [|intros n h _; cbn; rewrite Hh, lookup_empty; done].
    intros b' Hb' Hf. rewrite Hused in Hf by done. cbn [held unmark after_store]. rewrite Hh.
    destruct (Z.eqb_spec b' b) as [->|Hne'].
    + split; [apply Hown|]. split; [apply Hown|]. intros h. by rewrite lookup_empty.
    + rewrite andb_true_r in Hf. destruct (al_free _ _ _ _ Hal b' Hb' Hf) as (H1 & H2 & _).
      split; [done|]. split; [done|]. intros h. by rewrite lookup_empty.
Qed.

(** ** The direct blocks *)

(** The slots [ks] have been emptied and their blocks freed. *)
Record emptied (ks : list Z) (d : DInode) (a : Dev) (d' : DInode) (a' : Dev) : Prop := {
  em_addrs : exists addrs, d' = with_addrs addrs d;
  em_slot : forall k, addr d' k = if bool_decide (k ∈ ks) then 0 else addr d k;
  em_used : forall b, 0 < b < sb_size sb ->
    used sb (view a') b = (used sb (view a) b && negb (bool_decide (b ∈ addr d <$> ks)));
  em_other : forall n, ~ bitmap_block sb n -> view a' n = view a n;
  em_media : media a' = media a }.

Lemma trunc_direct_run ks s a ip i :
  let d := i_din i in
  writing s a ip i -> LOGSIZE < capacity -> NoDup ks -> Forall (fun k => 0 <= k < NDIRECT) ks ->
  log_room (fs_log s) size (zlen ks) ->
  exists l a' d', trunc_direct ip ROOTDEV sb ks s = Ret (tt, put_din l ip i d' s) /\
    writing (put_din l ip i d' s) a' ip (set_din d' i) /\ emptied ks d a d' a' /\
    llen (lg l) <= llen (lg (fs_log s)) + zlen ks /\ st l = st (fs_log s).
Proof.
  intros d Hw room Hnd Hks. revert s a i d Hw. induction Hks as [|k ks Hk Hks IH]; intros s a i d Hw Hroom.
  { exists (fs_log s), a, d. pose proof (wg_locked _ _ _ _ _ _ _ Hw) as (Ei & _).
    assert (put_din (fs_log s) ip i d s = s) as -> by (unfold d; rewrite put_din_same by done; by destruct s).
    assert (set_din d i = i) as -> by (unfold d; by destruct i). split; [done|]. split; [done|].
    split; [|split; [change (zlen (@nil Z)) with 0; lia|done]].
    split; try done; [exists (di_addrs d); apply with_addrs_same|].
    intros b Hb. by rewrite andb_true_r. }
  apply NoDup_cons in Hnd as [Hnk Hnd]. rewrite zlen_cons in *. pose proof (zlen_nonneg ks) as Hz.
  pose proof Hw as [Ht Hh Hlk Hsb Hal Hio]. pose proof Hlk as (Ei & _ & _ & Hdev).
  pose proof (io_dinode _ _ _ _ _ _ Hio) as (_ & _ & _ & _ & _ & Hla & _). assert (NDIRECT = 12 /\ LOGSIZE = 511) as [HN HL] by done.
  cbn [trunc_direct]. rewrite (bind_run _ _ _ _ _ (inode_at_run _ _ _ Ei)). fold d in Hla |- *.
  destruct (znth_lt (di_addrs d) k) as [x Hx]; [lia|]. assert (addr d k = x) as Hax by (unfold addr; by rewrite Hx).
  rewrite Hx. cbn [expect]. rewrite bind_mret. destruct Hroom as [Hr1 Hr2].
  destruct (Z.eqb_spec x 0) as [->|Hnz].
  - rewrite bind_mret. destruct (IH Hnd s a i Hw) as (l & a' & d' & E & W & Em & L & St); [split; lia|].
    exists l, a', d'. split; [done|]. split; [done|]. split; [|split; [lia|done]]. destruct Em as [E1 E2 E3 E4 E5].
    split; try done.
    + intros j. rewrite E2. fold d. destruct (decide (j = k)) as [->|Hjk].
      * rewrite Hax. by repeat case_bool_decide.
      * rewrite (bool_decide_ext (j ∈ k :: ks) (j ∈ ks)); [done|]. rewrite elem_of_cons. tauto.
    + intros b Hb. rewrite (E3 b Hb). fold d. do 2 f_equal. apply bool_decide_ext. rewrite fmap_cons, elem_of_cons, Hax.
      split; [by right|]. intros [->|?]; [lia|done].
  - assert (forall m, zlen (view a m) = BSIZE) as Hlen by (intros m; by apply (rep_len _ _ m (tx_rep _ _ _ _ Ht))).
    rewrite <-Hax in Hnz. destruct (unmark_inode a _ d k Hio Hlen Hal Hh Hk Hnz) as (Hio1 & Hal1 & Hused).
    pose proof (io_owned _ _ _ _ _ _ Hio k) as Hown. rewrite slot_direct in Hown by lia. fold d in Hown. specialize (Hown Hnz). pose proof (ow_range _ _ _ _ _ _ Hown) as Hrg.
    pose proof (bfree_run sb start size Hbm s a (addr d k) Ht) as Hfree.
    rewrite (ow_used _ _ _ _ _ _ Hown) in Hfree. destruct Hfree as (l1 & E1 & T1 & L1 & S1).
    { lia. } { intros h. by rewrite Hh, lookup_empty. } { split; lia. } { rewrite Hh, map_size_empty. lia. }
    rewrite Hax in *. set (d1 := with_addrs (di_addrs d).[k <- 0] d) in *. set (a1 := unmark sb a x) in *.
    set (s1 := put_din l1 ip i d1 s).
    assert ((bfree ROOTDEV x sb;; upd_din ip (fun d => with_addrs (di_addrs d).[k <- 0] d)) s = Ret (tt, s1)) as E2
      by (rewrite (bind_run _ _ _ _ _ E1); exact (upd_din_run (put_log l1 s) ip i _ Ei)).
    rewrite (bind_run _ _ _ _ _ E2).
    assert (writing s1 a1 ip (set_din d1 i)) as W1 by (split; try done; by apply put_din_locked).
    destruct (IH Hnd s1 a1 (set_din d1 i) W1) as (l2 & a2 & d2 & E3 & W2 & Em & L2 & S2); [split; cbn; lia|].
    unfold s1 in E3, W2. rewrite put_din_put in E3, W2. cbn [i_din set_din] in Em. cbn [fs_log put_din put_log s1] in L2, S2.
    exists l2, a2, d2. split; [exact E3|]. split; [exact W2|]. split; [|split; [lia|congruence]].
    assert (forall j, addr d1 j = if j =? k then 0 else addr d j) as Ha by (intros j; apply addr_set; lia).
    assert (addr d1 <$> ks = addr d <$> ks) as Hmap.
    { apply list_fmap_ext. intros m j Hj. rewrite Ha. destruct (Z.eqb_spec j k) as [->|]; [|done].
      exfalso. apply Hnk. by eapply list_elem_of_lookup_2. }
    destruct Em as [[addrs ->] F2 F3 F4 F5]. split.
    + exists addrs. done.
    + intros j. rewrite F2, Ha. destruct (Z.eqb_spec j k) as [->|Hjk].
      * rewrite (bool_decide_eq_true_2 (k ∈ k :: ks)) by (by apply elem_of_cons; left). by case_bool_decide.
      * rewrite (bool_decide_ext (j ∈ k :: ks) (j ∈ ks)); [done|]. rewrite elem_of_cons. tauto.
    + intros b Hb. rewrite (F3 b Hb), Hmap, Hused by lia. rewrite <-andb_assoc. f_equal.
      rewrite fmap_cons, Hax. destruct (Z.eqb_spec b x) as [->|Hbx]; cbn [negb andb].
      * by rewrite bool_decide_eq_true_2 by (by apply elem_of_cons; left).
      * f_equal. apply bool_decide_ext. rewrite elem_of_cons. tauto.
    + intros n Hn. rewrite (F4 n Hn). unfold a1, unmark. cbn. apply fupd_ne. intros ->. apply Hn. exists x. split; [lia|done].
    + by rewrite F5.
Qed.

(** ** Truncation *)
Definition direct_slots : list Z := zrange 0 NDIRECT.

(** The inode with no blocks and size 0. *)
Definition truncated (d : DInode) : DInode := with_size 0 (with_addrs (zrep (NDIRECT + 1) 0) d).

Lemma emptied_all d a d' a' :
  emptied direct_slots d a d' a' -> zlen (di_addrs d') = NDIRECT + 1 -> addr d NDIRECT = 0 ->
  with_size 0 d' = truncated d.
Proof.
  intros [[addrs ->] Hs _ _ _] Hl Hi. assert (NDIRECT = 12) as HN by done.
  unfold truncated. f_equal. f_equal. change addrs with (di_addrs (with_addrs addrs d)).
  change (zrep (NDIRECT + 1) 0) with (di_addrs (with_addrs (zrep (NDIRECT + 1) 0) d)).
  apply addrs_ext; [done|]. intros k. rewrite Hs.
  assert (addr (with_addrs (zrep (NDIRECT + 1) 0) d) k = 0) as ->.
  { unfold addr. cbn [di_addrs with_addrs]. destruct ((zrep (NDIRECT + 1) 0).[k]) as [x|] eqn:E; [|done].
    apply znth_Some in E as [_ E]. unfold zrep in E. apply lookup_replicate in E as [-> _]. done. }
  case_bool_decide as Hk; [done|]. unfold direct_slots in Hk. rewrite elem_of_zrange in Hk.
  destruct (decide (k = NDIRECT)) as [->|Hne]; [done|]. unfold addr.
  assert (Hout : k < 0 \/ NDIRECT + 1 <= k) by lia. specialize (Hs k). rewrite bool_decide_eq_false_2 in Hs
    by (unfold direct_slots; by rewrite elem_of_zrange). unfold addr in Hs. rewrite <-Hs.
  destruct ((di_addrs (with_addrs addrs d)).[k]) eqn:E; [|done]. apply znth_range in E. lia.
Qed.

Lemma trunc_run s a ip i :
  let d := i_din i in
  writing s a ip i -> LOGSIZE < capacity -> addr d NDIRECT = 0 -> log_room (fs_log s) size (NDIRECT + 1) ->
  exists l a1 a', trunc ip s = Ret (Ok tt, put_din l ip i (truncated d) s) /\
    writing (put_din l ip i (truncated d) s) a' ip (set_din (truncated d) i) /\
    (exists d1, emptied direct_slots d a d1 a1) /\ a' = inode_stored sb a1 (i_inum i) (truncated d) /\
    llen (lg l) <= llen (lg (fs_log s)) + NDIRECT + 1 /\ st l = st (fs_log s).
Proof.
  intros d Hw room Hi Hroom. pose proof Hw as [Ht Hh Hlk Hsb Hal Hio]. pose proof Hlk as (Ei & _ & _ & Hdev).
  assert (NDIRECT = 12 /\ LOGSIZE = 511) as [HN HL] by done. destruct Hroom as [Hr1 Hr2].
  assert (zlen direct_slots = NDIRECT) as Hzl by done.
  destruct (trunc_direct_run direct_slots s a ip i Hw room) as (l1 & a1 & d1 & E1 & W1 & Em & L1 & S1).
  { apply zrange_NoDup. }
  { apply Forall_forall. intros k Hk. by apply elem_of_zrange. }
  { rewrite Hzl. split; lia. }
  rewrite Hzl in L1. set (s1 := put_din l1 ip i d1 s) in *. fold d in Em.
  pose proof (wg_locked _ _ _ _ _ _ _ W1) as (Ei1 & _). pose proof (wg_inode _ _ _ _ _ _ _ W1) as Hio1. cbn [i_inum i_din set_din] in Hio1.
  pose proof (io_dinode _ _ _ _ _ _ Hio1) as (_ & _ & _ & _ & _ & Hla1 & _).
  pose proof (emptied_all _ _ _ _ Em Hla1 Hi) as Htr.
  assert (trunc1 ip s = Ret (Ok tt, put_din l1 ip i (truncated d) s)) as Et.
  { unfold trunc1. destruct (superblock_run s ip i "allocated inode sans superblock ref" Hlk) as (sb' & Hsb' & Esb).
    assert (sb' = sb) as -> by congruence.
    rewrite (bind_run _ _ _ _ _ Esb), (bind_run _ _ _ _ _ (inode_at_run _ _ _ Ei)), Hdev.
    rewrite (bind_run _ _ _ _ _ E1), (bind_run _ _ _ _ _ (inode_at_run _ _ _ Ei1)). cbn [i_din set_din].
    destruct (znth_lt (di_addrs d1) NDIRECT) as [x Hx]; [lia|].
    assert (x = 0) as ->.
    { pose proof (em_slot _ _ _ _ _ Em NDIRECT) as Hs. rewrite bool_decide_eq_false_2, Hi in Hs
        by (unfold direct_slots; rewrite elem_of_zrange; lia). unfold addr in Hs. by rewrite Hx in Hs. }
    rewrite Hx. cbn [expect]. rewrite bind_mret. rewrite (try_run _ _ s1 tt s1) by done.
    rewrite (bind_run _ _ _ _ _ (upd_din_run s1 ip _ _ Ei1)). unfold s1. rewrite put_din_put. cbn [i_din set_din].
    rewrite Htr. done. }
  set (s2 := put_din l1 ip i (truncated d) s) in *.
  assert (writing s2 a1 ip (set_din (truncated d) i)) as W2.
  { pose proof (writing_din _ _ _ _ _ _ _ (truncated d) W1) as W. unfold s1 in W. rewrite put_din_put in W. apply W.
    rewrite <-Htr. by apply inode_ok_size. }
  destruct (update_run _ _ _ _ _ _ _ W2) as (l3 & E3 & S3 & L3 & W3); [split; cbn; lia|done|].
  exists l3, a1. eexists. split; [|split; [exact W3|split; [by exists d1|split; [done|cbn in *; split; [lia|congruence]]]]].
  unfold trunc. rewrite (bind_run _ _ _ _ _ (holding_run _ _ _ Hlk)), bind_assert by done.
  by rewrite (try_run _ _ _ _ _ Et).
Qed.

(** ** Putting back *)
Lemma inode_ok_typ a inum d n : uN 32 n -> inode_ok a inum d -> inode_ok a inum (with_typ n d).
Proof. intros Hn [(D1 & D2 & D3 & D4 & D5 & D6) H2 H3 H4 H5 H6]. split; done. Qed.

(** The end of [put]: release the lock and drop the reference. *)
Lemma put_end_run s ip i :
  (fs_icache s).[ip] = Some i -> i_lock i = mkSleeplock true (fs_me s) -> 0 < i_ref i ->
  (irelease ip;; i' ← inode_at ip; r ← lift (sub_ovf (i_ref i') 1); upd_inode ip (set_ref r);; mret (Ok tt)) s =
    Ret (Ok tt, put_icache (fs_icache s).[ip <- set_ref (i_ref i - 1) (set_ilock Sleeplock_new i)] s).
Proof.
  intros Ei Hl Hr. pose proof (znth_range _ _ _ Ei) as Hip.
  assert (irelease ip s = Ret (tt, put_icache (fs_icache s).[ip <- set_ilock Sleeplock_new i] s)) as E1.
  { unfold irelease. rewrite (bind_run _ _ _ _ _ (inode_at_run _ _ _ Ei)), bind_gets, Hl.
    rewrite (bind_lift _ _ _ _ (release_mine _)). by rewrite (upd_inode_run _ _ _ _ Ei). }
  rewrite (bind_run _ _ _ _ _ E1). set (s1 := put_icache _ s).
  assert ((fs_icache s1).[ip] = Some (set_ilock Sleeplock_new i)) as Ei1 by (by apply znth_zset_eq).
  rewrite (bind_run _ _ _ _ _ (inode_at_run _ _ _ Ei1)). cbn [i_ref set_ilock].
  assert (sub_ovf (i_ref i) 1 = Ret (i_ref i - 1)) as Es by (unfold sub_ovf; by rewrite (proj2 (Z.leb_le 1 _)) by lia).
  rewrite (bind_lift _ _ _ _ Es), (bind_run _ _ _ _ _ (upd_inode_run _ _ _ _ Ei1)).
  unfold s1. cbn. by rewrite zset_zset.
Qed.

(** C30: [put] of a reference to an unlocked inode.  If it is not the last, or
    the inode still has a link, only the count goes down.  The last reference
    to a valid inode without links, whose blocks are direct, deletes the
    file: the bitmap frees exactly the file's blocks, the inode on disk is
    marked unused with size 0 and no address, its cache entry is free and
    invalid, no other block and no other inode changes, and every block the
    bitmap shows free may be allocated again. *)
Theorem put_deletes_unlinked s a ip i :
  let d := i_din i in let inum := i_inum i in let c := fs_icache s in
  txn (fs_log s) a start size -> held a = ∅ -> LOGSIZE < capacity -> log_room (fs_log s) size (NDIRECT + 2) ->
  c.[ip] = Some i -> i_lock i = Sleeplock_new -> fs_me s <> 0 -> i_sb i = Some sb -> i_dev i = ROOTDEV -> 0 < i_ref i ->
  alloc_ok sb start size a -> inode_ok a inum d -> addr d NDIRECT = 0 ->
  if i_valid i && (di_nlink d =? 0) && (i_ref i =? 1) then
    exists l a' j, iput ip s = Ret (Ok tt, put_log l (put_icache c.[ip <- j] s)) /\
      i_ref j = 0 /\ i_valid j = false /\ i_lock j = Sleeplock_new /\
      txn l a' start size /\ held a' = ∅ /\ alloc_ok sb start size a' /\ media a' = media a /\
      (forall b, 0 < b < sb_size sb ->
         used sb (view a') b = (used sb (view a) b && negb (bool_decide (b ∈ addr d <$> direct_slots)))) /\
      get_dinode (view a' (inode_block sb inum)) inum = with_typ 0 (truncated d) /\
      (forall inum', inum mod IPB <> inum' mod IPB ->
         get_dinode (view a' (inode_block sb inum)) inum' = get_dinode (view a (inode_block sb inum)) inum') /\
      (forall n, ~ bitmap_block sb n -> n <> inode_block sb inum -> view a' n = view a n)
  else iput ip s = Ret (Ok tt, put_icache c.[ip <- set_ref (i_ref i - 1) i] s).
Proof.
  intros d inum c Ht Hh room Hroom Ei Hl Hme Hsb Hdev Hr Hal Hio Hind. pose proof (znth_range _ _ _ Ei) as Hip.
  assert (NDIRECT = 12 /\ LOGSIZE = 511) as [HN HL] by done. destruct Hroom as [Hr1 Hr2].
  set (i0 := set_ilock (mkSleeplock true (fs_me s)) i). set (s0 := put_icache c.[ip <- i0] s).
  assert ((fs_icache s0).[ip] = Some i0) as Ei0 by (by apply znth_zset_eq).
  unfold iput. rewrite bind_gets, (bind_run _ _ _ _ _ (inode_at_run _ _ _ Ei)), Hl.
  rewrite (bind_lift _ _ _ _ (acquire_free _ Hme)), (bind_run _ _ _ _ _ (upd_inode_run _ _ _ _ Ei)). fold c i0 s0 d.
  destruct (i_valid i && (di_nlink d =? 0) && (i_ref i =? 1)) eqn:Ec.
  2:{ rewrite (try_run _ _ s0 tt s0) by done. rewrite (put_end_run s0 ip i0 Ei0 eq_refl Hr).
      assert (set_ref (i_ref i0 - 1) (set_ilock Sleeplock_new i0) = set_ref (i_ref i - 1) i) as ->
        by (unfold i0, set_ref, set_ilock; cbn; by rewrite Hl).
      unfold s0. cbn. by rewrite zset_zset. }
  apply andb_true_iff in Ec as [_ Hone]. apply Z.eqb_eq in Hone.
  assert (writing s0 a ip i0) as W0.
  { by split. }
  destruct (trunc_run s0 a ip i0 W0 room Hind) as (l1 & a1 & a2 & E1 & W1 & [d1 Em] & -> & L1 & S1); [split; cbn; lia|].
  cbn [i_din i_inum i0 set_ilock] in E1, W1, Em. fold d inum in E1, W1, Em. set (s1 := put_din l1 ip i0 (truncated d) s0) in *.
  set (a2 := inode_stored sb a1 inum (truncated d)) in *. set (d2 := with_typ 0 (truncated d)).
  pose proof (wg_locked _ _ _ _ _ _ _ W1) as (Ei1 & _).
  assert (inode_ok a2 inum d2) as Hio2 by (apply inode_ok_typ; [done|apply W1]).
  pose proof (writing_din _ _ _ _ _ _ _ d2 W1 Hio2) as W2. unfold s1 in W2. rewrite put_din_put in W2.
  set (s2 := put_din _ ip i0 d2 s0) in W2.
  destruct (update_run _ _ _ _ _ _ _ W2) as (l3 & E3 & S3 & L3 & W3); [split; cbn in *; lia|done|].
  change (i_inum (set_din d2 i0)) with inum in W3. change (i_din (set_din d2 i0)) with d2 in W3.
  set (s3 := put_log l3 s2) in *. pose proof (wg_locked _ _ _ _ _ _ _ W3) as (Ei3 & _).
  set (i4 := set_valid false (set_din d2 i0)). set (s4 := put_icache (fs_icache s3).[ip <- i4] s3).
  assert ((fs_icache s4).[ip] = Some i4) as Ei4 by (apply znth_zset_eq; by eapply znth_range).
  rewrite (try_run _ _ s0 tt s4).
  2:{ rewrite (try_run _ _ _ _ _ E1), (bind_run _ _ _ _ _ (upd_din_run s1 ip _ _ Ei1)). unfold s1. rewrite put_din_put.
      cbn [i_din set_din]. fold d2. change (fs_log (put_din l1 ip i0 (truncated d) s0)) with l1.
      change (put_din l1 ip i0 d2 s0) with s2. rewrite (try_run _ _ _ _ _ E3).
      by rewrite (bind_run _ _ _ _ _ (upd_inode_run _ _ _ _ Ei3)). }
  rewrite (put_end_run s4 ip i4 Ei4 eq_refl Hr). cbn [i_ref i4 set_valid set_din i0 set_ilock]. rewrite Hone.
  exists l3, (inode_stored sb a2 inum d2), (set_ref (1 - 1) (set_ilock Sleeplock_new i4)).
  split.
  { unfold s4, s3, s2, put_din, s0, put_icache, put_log. cbn [fs_icache fs_log fs_sb fs_me fs_cwd]. by rewrite !zset_zset. }
  split; [done|]. split; [done|]. split; [done|]. split; [apply W3|]. split; [apply W3|]. split; [apply W3|].
  destruct Em as [_ _ Em3 Em4 Em5]. destruct (io_iblock _ _ _ _ _ _ Hio) as (Hib & Hiout & Hinb).
  split; [exact Em5|].
  assert (zlen (view a1 (inode_block sb inum)) = BSIZE) as Hlen1
    by (rewrite Em4 by done; apply (rep_len _ _ _ (tx_rep _ _ _ _ Ht))).
  destruct (dinode_slot_roundtrip _ inum (truncated d) Hlen1 (io_dinode _ _ _ _ _ _ (wg_inode _ _ _ _ _ _ _ W1))) as (Hlen2 & _ & Hoth1).
  assert (view a2 (inode_block sb inum) = put_dinode (view a1 (inode_block sb inum)) inum (truncated d)) as Hv2
    by (unfold a2, inode_stored; cbn; by rewrite fupd_eq).
  destruct (dinode_slot_roundtrip _ inum d2 Hlen2 (io_dinode _ _ _ _ _ _ Hio2)) as (_ & Hget & Hoth2). rewrite <-Hv2 in Hget, Hoth2.
  assert (view (inode_stored sb a2 inum d2) (inode_block sb inum) = put_dinode (view a2 (inode_block sb inum)) inum d2) as Hv3
    by (unfold inode_stored; cbn; by rewrite fupd_eq).
  rewrite Hv3. split; [|split; [done|split]].
  - intros b Hb. unfold inode_stored at 1. rewrite used_store by (done || lia). unfold a2, inode_stored.
    rewrite used_store by (done || lia). by apply Em3.
  - intros inum' Hne. rewrite Hoth2, Hv2, Hoth1 by done. by rewrite Em4.
  - intros n Hn Hni. unfold a2, inode_stored. cbn. rewrite !fupd_ne by done. by apply Em4.
Qed.
End free.
