(* ===== verification/FsCrash.v ===== *)
(** Crashes and reboots: the first process reads the superblock, recovers the
    log and opens the root directory, and of a [write] that a crash cuts short
    anywhere a whole number of its transactions is found done. *)
From stdpp Require Import base list gmap strings fin_sets.
From Stdlib Require Import ZArith Lia.
From S2P Require Import Prelude.
From S2P Require Import Arch.
From S2P Require Import Sleeplock.
From S2P Require Import BlockLayer.
From S2P Require Import Fslog.
From S2P Require Import FslogCrash.
From S2P Require Import FslogSpec.
From S2P Require Import FsLayout.
From S2P Require Import Fs.
From S2P Require Import FsSpec.
From S2P Require Import FsFile.
From S2P Require Import FsGrow.
From S2P Require Import FsDir.
From S2P Require Import Icache.
From S2P Require Import FsDurable.

Section crash.
Context {S : Type} `{BL : BlockLaws S}.
Context (sb : Superblock) (start size : Z).
Implicit Types (m s : Fs S) (a : Dev).

(** ** Booting *)

(** A machine switched on with the disk [d]: nothing is cached, the log and
    the inode cache are as they were linked. *)
Record powered_on (m : Fs S) (d : Z -> list Z) : Prop := {
  po_rep : rep (bl (fs_log m)) (fresh_dev d);
  po_log : lg (fs_log m) = Log_new;
  po_st : st (fs_log m) = LogState_new;
  po_icache : fs_icache m = zrep NINODE Inode_new;
  po_me : fs_me m <> 0 }.

(** [reboots d root m]: booting the disk [d], possibly crashing on the way
    and booting again any number of times, ends in the state [m] with the
    inode [root] for the directory of the first process. *)
Inductive reboots : (Z -> list Z) -> Z -> Fs S -> Prop :=
| rb_up d m root m' :
    powered_on m d -> firstret_fs m = Ret (root, m') -> reboots d root m'
| rb_crash d m root1 m1 k root m' :
    powered_on m d -> firstret_fs m = Ret (root1, m1) ->
    reboots (apply_writes d (take k (written (bl (fs_log m1))))) root m' -> reboots d root m'.

(** The file system is up: the log is idle, the superblock is known, and the
    inode cache holds one reference, to the root directory. *)
Record booted (m : Fs S) (a : Dev) (root : Z) : Prop := {
  bt_idle : idle (fs_log m) a start size;
  bt_hdr : hdr_is (medium (bl (fs_log m)) start) [];
  bt_sb : fs_sb m = sb;
  bt_icache : fs_icache m = (zrep NINODE Inode_new).[root <- claimed ROOTDEV ROOTINO sb Inode_new];
  bt_root : 0 <= root < NINODE }.

(** Booting [d] succeeds and, however often it is cut short, ends with the
    file system up on a device of which [P] holds. *)
Definition boots_to (d : Z -> list Z) (P : Dev -> Prop) : Prop :=
  (forall m, powered_on m d -> exists root m', firstret_fs m = Ret (root, m')) /\
  forall root m, reboots d root m -> exists a, booted m a root /\ P a.

(** The superblock [sb] as the disk has it, outside the log. *)
Record super_at (d : Z -> list Z) : Prop := {
  su_block : Superblock_decode (d ROOTINO) = sb;
  su_start : log_start sb = start;
  su_size : nlog sb = size;
  su_out : outside start size ROOTINO }.

Lemma fs_init_run s a :
  rep (bl (fs_log s)) a -> held a = ∅ -> Z.of_nat (base.size (dirty a)) < capacity ->
  exists b, fs_init ROOTDEV s = Ret (tt, put_sb (Superblock_decode (view a ROOTINO)) (set_bl b s)) /\ rep b a.
Proof.
  intros Hr Hh Hcap.
  destruct (with_ro s a ROOTINO (fun bp => blk ← bdata bp; mret (Superblock_decode blk)) (Superblock_decode (view a ROOTINO)) Hr Hh)
    as (b & E & R); [done|done|intros h s' Ed; by rewrite (bind_run _ _ _ _ _ Ed)|].
  exists b. split; [|done]. unfold fs_init. by rewrite (bind_run _ _ _ _ _ (expect_r_run _ _ _ _ _ E)).
Qed.

Lemma new_entry k i : (zrep NINODE Inode_new).[k] = Some i -> i = Inode_new.
Proof. intros (_ & Hk)%znth_Some. by apply lookup_replicate in Hk as [-> _]. Qed.

Lemma namei_root m :
  fs_icache m = zrep NINODE Inode_new ->
  exists root, 0 <= root < NINODE /\
    namei [SLASH] m = Ret (Ok root, put_icache (fs_icache m).[root <- claimed ROOTDEV ROOTINO (fs_sb m) Inode_new] m).
Proof.
  intros Hc. assert (icache_ok (fs_icache m)) as Hok.
  { rewrite Hc. split; [by intros k k' i i' ->%new_entry|by intros k i ->%new_entry]. }
  destruct (iget_miss m ROOTDEV ROOTINO (fs_sb m) Hok) as [(k & i & Hk & _ & E)|[Hall _]].
  - rewrite Hc. by intros k i ->%new_entry [].
  - exists k. rewrite Hc in Hk. pose proof (znth_range _ _ _ Hk) as Hr. rewrite (new_entry _ _ Hk) in E.
    split; [by rewrite zlen_rep in Hr|]. unfold namei, namex. change (zlen [SLASH] =? 0) with false. change (SLASH =? SLASH) with true.
    cbv iota. erewrite try_run; [|rewrite bind_gets; exact E]. done.
  - exfalso. specialize (Hall 0 Inode_new). rewrite Hc, znth_rep in Hall by done. by specialize (Hall eq_refl).
Qed.

(** The boot of a disk on its way to [tgt]. *)
Lemma firstret_run m d tgt :
  LOGSIZE < capacity -> powered_on m d -> super_at d -> recoverable start size d tgt ->
  exists root m' a, firstret_fs m = Ret (root, m') /\ booted m' a root /\ home_eq start size (view a) tgt /\
    forall k, let d' := apply_writes d (take k (written (bl (fs_log m')))) in
      recoverable start size d' tgt /\ forall n, outside start size n -> d' n = d n \/ d' n = tgt n.
Proof.
  intros room [Hr Hlg Hst Hic Hme] [Hsb Hs1 Hs2 Hout] (bs & Hbs & Hl1 & Hl2 & Hset). assert (LOGSIZE = 511) as HL by done. pose proof (zlen_nonneg bs).
  destruct (fs_init_run m (fresh_dev d) Hr) as (b1 & E1 & R1); [done|cbn [dirty fresh_dev]; rewrite size_empty; lia|].
  cbn [view fresh_dev] in E1. rewrite Hsb in E1. set (m1 := put_sb sb (set_bl b1 m)) in E1.
  destruct (settles_header _ _ _ _ _ Hset) as (hb & Hh & Hcase). pose proof (rep_len _ _ start Hr) as Hlen. cbn in Hlen.
  destruct (log_init_run room b1 d start size hb) as (t & E2 & R2 & Hhd & Hw & Hat & Hst2); try done.
  { destruct Hcase as [-> | ->]; [by eapply entries_ok_nil|done]. }
  { destruct Hcase as [-> | ->]; [done|done]. }
  { destruct Hcase as [-> | ->]; [unfold zlen; cbn; lia|done]. }
  set (a2 := fold_left _ _ _) in R2.
  assert (fs_log m1 = mkLogged b1 Log_new LogState_new) as Hm1.
  { unfold m1. cbn. unfold put_bl. by rewrite Hlg, Hst. }
  rewrite <-Hm1 in E2. pose proof (zoom_run fs_log put_log _ m1 _ _ E2) as E2'. set (m2 := put_log t m1) in E2'.
  destruct (namei_root m2 Hic) as (root & Hroot & E3).
  assert (written (bl t) = recover_trace start hb d) as Hwr by (rewrite <-(rep_written _ _ R2); unfold a2; by rewrite wlog_after_writes).
  assert (Hmed : forall n, medium (bl t) n = apply_writes d (recover_trace start hb d) n).
  { intros n. rewrite <-(rep_medium _ _ n R2). unfold a2. by rewrite media_after_writes. }
  pose proof (recover_done_quiet start size bs Hbs d tgt hb Hlen Hset Hh) as [Hq1 Hq2].
  eexists root, _, a2. split; [|split; [|split]].
  - unfold firstret_fs. rewrite (bind_run _ _ _ _ _ E1), bind_gets. cbn [fs_sb m1 put_sb]. rewrite Hs1, Hs2.
    rewrite (bind_run _ _ _ _ _ E2'). exact (expect_r_run _ _ _ _ _ E3).
  - split; cbn [fs_log fs_sb fs_icache put_icache m2 put_log]; [|by rewrite Hmed|done| |done].
    + split; [split|by apply header_nil|done]; try done.
      * unfold a2. by rewrite held_after_writes.
      * by apply (entries_ok_nil start size bs).
      * intros x. unfold a2. rewrite dirty_after_writes. cbn. set_solver.
    + change (fs_icache m1) with (fs_icache m). rewrite Hic. done.
  - unfold a2. rewrite view_after_writes. exact Hq2.
  - intros k. cbn [fs_log put_icache m2 put_log]. rewrite Hwr. split.
    + exists bs. do 3 (split; [done|]). by apply (recover_prefix_settles start size bs Hbs).
    + intros n Hn. by apply (recover_prefix_home start size bs Hbs).
Qed.

Lemma super_at_home d d' : (forall n, outside start size n -> d' n = d n) -> super_at d -> super_at d'.
Proof. intros Hd [H1 H2 H3 H4]. split; try done. by rewrite Hd. Qed.

(** Recovery may itself be cut short, any number of times. *)
Lemma recoverable_boots d tgt :
  LOGSIZE < capacity -> super_at d -> super_at tgt -> recoverable start size d tgt ->
  boots_to d (fun a => home_eq start size (view a) tgt).
Proof.
  intros room Hd Ht Hrec. split.
  { intros m Hm. destruct (firstret_run m d tgt room Hm Hd Hrec) as (root & m' & _ & E & _). eauto. }
  intros root m Hb. induction Hb as [d m root m' Hm E|d m root1 m1 k root m' Hm E _ IH];
    destruct (firstret_run m d tgt room Hm Hd Hrec) as (r0 & m0 & a & E' & Hbt & Hv & Hk); rewrite E in E'; injection E' as <- <-.
  - by exists a.
  - destruct (Hk k) as [Hrec' Hor]. apply IH; [|done]. destruct Hd as [Hd1 Hd2 Hd3 Hd4]. split; try done.
    destruct (Hor ROOTINO Hd4) as [-> | ->]; [done|apply Ht].
Qed.

Lemma boots_to_mono d (P Q : Dev -> Prop) : (forall a, P a -> Q a) -> boots_to d P -> boots_to d Q.
Proof. intros HPQ [H1 H2]. split; [done|]. intros root m Hb. destruct (H2 root m Hb) as (a & Ha & HP). eauto. Qed.

(** ** A write cut short *)
Context (Hbm : bitmap_ok sb start size).

(** Inode [inum] is [d] and its file holds [c]. *)
Definition file_on (v : Z -> list Z) (inum : Z) (d : DInode) (c : list Z) : Prop :=
  get_dinode (v (inode_block sb inum)) inum = d /\ contents d v = c.

(** The device [a2] is [a], where inode [inum] was [d], but for that file,
    which holds [c]. *)
Definition file_state (inum : Z) (d : DInode) (a : Dev) (c : list Z) (a2 : Dev) : Prop :=
  kept_outside sb start size inum d a a2 /\ exists d2, file_on (view a2) inum d2 c.

(** Booting [disk] brings up such a device. *)
Definition stage (inum : Z) (d : DInode) (a : Dev) (c : list Z) (disk : Z -> list Z) : Prop :=
  exists a1 d1, recoverable start size disk (view a1) /\ super_at disk /\ super_at (view a1) /\
    kept_outside sb start size inum d a a1 /\ inode_ok sb start size a1 inum d1 /\ dense d1 (view a1) /\
    synced sb a1 inum d1 /\ contents d1 (view a1) = c.

Lemma stage_ext inum d a c disk disk' :
  (forall n, disk' n = disk n) -> stage inum d a c disk -> stage inum d a c disk'.
Proof.
  intros He (a1 & d1 & Hr & Hs & Hrest). exists a1, d1. split; [by eapply recoverable_ext|].
  split; [|done]. eapply super_at_home; [|exact Hs]. intros n _. apply He.
Qed.

Lemma stage_after inum d a d1 a1 c disk :
  kept_outside sb start size inum d a a1 -> grown_slots sb d a d1 a1 -> stage inum d1 a1 c disk -> stage inum d a c disk.
Proof.
  intros Hk Hg (a2 & d2 & Hr & Hs & Hs2 & Hk2 & Hrest). exists a2, d2. do 3 (split; [done|]). split; [|done].
  by eapply kept_trans.
Qed.

Lemma stage_boots inum d a c disk :
  LOGSIZE < capacity -> stage inum d a c disk -> boots_to disk (file_state inum d a c).
Proof.
  intros room (a1 & d1 & Hr & Hs & Hs1 & (K1 & K2 & K3) & Hio & Hd & Hsy & Hc).
  eapply boots_to_mono; [|by apply (recoverable_boots disk (view a1))]. intros a2 Hv. unfold home_eq in Hv.
  destruct (io_iblock _ _ _ _ _ _ Hio) as (_ & Hib & _). split; [split; [|split]|].
  - intros n Hn Hb Hu Hsl Hi. rewrite Hv by done. by apply K1.
  - intros inum' Hne. rewrite Hv by done. by apply K2.
  - intros b Hb Hu. rewrite (used_ext sb (view a1)); [by apply K3|]. apply Hv, Hbm. done.
  - exists d1. split; [by rewrite Hv|]. rewrite <-Hc. by eapply contents_same.
Qed.

(** The superblock's block belongs to no file and to no table. *)
Record super_own (a : Dev) (inum : Z) (d : DInode) : Prop := {
  sw_at : super_at (view a);
  sw_used : 0 <= ROOTINO < sb_size sb -> used sb (view a) ROOTINO = true;
  sw_bitmap : ~ bitmap_block sb ROOTINO;
  sw_file : forall k, slot d (view a) k <> 0 -> ROOTINO <> slot d (view a) k;
  sw_inode : ROOTINO <> inode_block sb inum }.

Lemma super_own_after inum d a d1 a1 :
  kept_outside sb start size inum d a a1 -> grown_slots sb d a d1 a1 -> super_own a inum d -> super_own a1 inum d1.
Proof.
  intros (K1 & _ & K3) Hg [[H1 H2 H3 H4] Hu Hb Hf Hi]. split; try done.
  - split; try done. by rewrite K1.
  - intros Hr. by apply K3, Hu.
  - intros k Hk E. destruct (Hg k Hk) as [Es|[Hr Hfr]].
    + rewrite Es in *. by apply (Hf k).
    + rewrite <-E in *. by rewrite Hu in Hfr.
Qed.

Lemma kept_refl inum d a : kept_outside sb start size inum d a a.
Proof. done. Qed.

Lemma interrupted_super v v' disk : super_at v -> super_at v' -> interrupted start size v v' disk -> super_at disk.
Proof.
  intros [H1 H2 H3 H4] H' [_ Hor]. split; try done. destruct (Hor _ H4) as [-> | ->]; [done|apply H'].
Qed.

(** Between transactions. *)
Lemma before_stage s a ip i disk :
  file_idle sb start size s a ip i -> synced sb a (i_inum i) (i_din i) -> super_at (view a) -> super_at disk ->
  recoverable start size disk (view a) -> stage (i_inum i) (i_din i) a (contents (i_din i) (view a)) disk.
Proof.
  intros Hf Hsy Hs0 Hs Hrec. exists a, (i_din i). do 4 (split; [done|]). split; [apply Hf|]. split; [apply Hf|done].
Qed.

Lemma idle_stage s a ip i :
  MAXOPBLOCKS < size -> file_idle sb start size s a ip i -> synced sb a (i_inum i) (i_din i) -> super_at (view a) ->
  stage (i_inum i) (i_din i) a (contents (i_din i) (view a)) (medium (bl (fs_log s))).
Proof.
  intros Hmax Hf Hsy Hsu. assert (forall n, medium (bl (fs_log s)) n = view a n) as Hm by (intros n; eapply idle_clean, Hf).
  apply (before_stage s a ip i); try done; [eapply super_at_home; [intros n _; apply Hm|done]|].
  exists []. split; [apply (id_cm _ _ _ _ (fi_idle _ _ _ _ _ _ _ Hf))|]. split; [done|].
  split; [unfold zlen; cbn; assert (MAXOPBLOCKS = 64) by done; lia|]. left. split; [apply Hf|]. intros n _. apply Hm.
Qed.

(** In a transaction: before it or after it. *)
Lemma chunk_stages s a ip i a1 d1 disk c1 :
  let d := i_din i in let inum := i_inum i in
  file_idle sb start size s a ip i -> synced sb a inum d -> super_own a inum d ->
  kept_outside sb start size inum d a a1 -> grown_slots sb d a d1 a1 -> inode_ok sb start size a1 inum d1 -> dense d1 (view a1) ->
  synced sb a1 inum d1 -> contents d1 (view a1) = c1 -> interrupted start size (view a) (view a1) disk ->
  stage inum d a (contents d (view a)) disk \/ stage inum d a c1 disk.
Proof.
  intros d inum Hf Hsy Hsu Hk Hg Hio Hd Hsy1 Hc Hint. pose proof (sw_at _ _ _ Hsu) as Hs0.
  pose proof (sw_at _ _ _ (super_own_after _ _ _ _ _ Hk Hg Hsu)) as Hs1.
  pose proof (interrupted_super _ _ _ Hs0 Hs1 Hint) as Hs. destruct Hint as [[Hrec|Hrec] _]; [left|right].
  - by apply (before_stage s a ip i).
  - by exists a1, d1.
Qed.

Lemma zsplice_nil (c : list Z) off : zsplice c off [] = c.
Proof. unfold zsplice. cbn [app length]. by rewrite Nat.add_0_r, take_drop. Qed.

Lemma zslice_empty {A} (l : list A) p : zslice l p p = [].
Proof. unfold zslice. by rewrite Z.sub_diag. Qed.

Lemma zslice_app {A} (l : list A) p q r :
  0 <= p <= q -> q <= r -> r <= zlen l -> zslice l p q ++ zslice l q r = zslice l p r.
Proof.
  intros Hp Hq Hr. apply znth_ext; [rewrite zlen_app, !zlen_zslice; lia|]. intros i Hi.
  rewrite zlen_app, !zlen_zslice in Hi by lia. destruct (decide (i < q - p)).
  - rewrite znth_app_l by (rewrite zlen_zslice; lia). by rewrite !znth_zslice by lia.
  - rewrite znth_app_r, zlen_zslice by (rewrite ?zlen_zslice; lia). rewrite !znth_zslice by lia. f_equal. lia.
Qed.

(** What [write] may leave on the disk [disk]: the first transactions, of
    [WRITE_MAX] bytes each, from byte [p] of the buffer on. *)
Definition chunks (inum : Z) (d : DInode) (a : Dev) (buf : list Z) (p off : Z) (disk : Z -> list Z) : Prop :=
  exists j, 0 <= j /\
    stage inum d a (zsplice (contents d (view a)) off (zslice buf p (Z.min (p + j * WRITE_MAX) (zlen buf)))) disk.

Lemma chunks_none inum d a buf p off disk :
  0 <= p <= zlen buf -> stage inum d a (contents d (view a)) disk -> chunks inum d a buf p off disk.
Proof. intros Hp Hs. exists 0. split; [done|]. by rewrite Z.add_0_r, Z.min_l, zslice_empty, zsplice_nil by lia. Qed.

(** The first transaction, then the others. *)
Lemma chunks_after inum d a d1 a1 buf p off disk :
  let n := Z.min (zlen buf - p) WRITE_MAX in
  0 <= p <= zlen buf -> 0 <= off <= di_size d ->
  kept_outside sb start size inum d a a1 -> grown_slots sb d a d1 a1 ->
  contents d1 (view a1) = zsplice (contents d (view a)) off (zslice buf p (p + n)) ->
  chunks inum d1 a1 buf (p + n) (off + n) disk -> chunks inum d a buf p off disk.
Proof.
  intros n Hp Hoff Hk Hg Hc (j & Hj & Hs). assert (WRITE_MAX = 122880) as HW by done. exists (j + 1). split; [lia|].
  eapply stage_after; [done|done|].
  replace (Z.min (p + n + j * WRITE_MAX) (zlen buf)) with (Z.min (p + (j + 1) * WRITE_MAX) (zlen buf)) in Hs by lia.
  set (q := Z.min (p + (j + 1) * WRITE_MAX) (zlen buf)) in *. assert (p + n <= q <= zlen buf) as Hq by lia.
  assert (zlen (zslice buf p (p + n)) = n) as Hn by (rewrite zlen_zslice; lia).
  pose proof (zsplice_zsplice (contents d (view a)) off (zslice buf p (p + n)) (zslice buf (p + n) q)) as Hz.
  rewrite Hn, zslice_app in Hz by lia. rewrite Hc, Hz in Hs by (rewrite ?zlen_contents; lia). done.
Qed.

Lemma first_chunk s s1 a ip i a1 d1 buf p off disk :
  let d := i_din i in let inum := i_inum i in let n := Z.min (zlen buf - p) WRITE_MAX in
  0 <= p <= zlen buf -> file_idle sb start size s a ip i -> synced sb a inum d -> super_own a inum d ->
  kept_outside sb start size inum d a a1 -> grown_slots sb d a d1 a1 -> file_idle sb start size s1 a1 ip (set_din d1 i) ->
  synced sb a1 inum d1 -> contents d1 (view a1) = zsplice (contents d (view a)) off (zslice buf p (p + n)) ->
  interrupted start size (view a) (view a1) disk -> chunks inum d a buf p off disk.
Proof.
  intros d inum n Hp Hf Hsy Hsu Hk Hg Hf1 Hs1 Hc Hint. destruct (chunk_stages s a ip i a1 d1 _ _ Hf Hsy Hsu Hk Hg (fi_inode _ _ _ _ _ _ _ Hf1)
    (fi_dense _ _ _ _ _ _ _ Hf1) Hs1 Hc Hint) as [Hst|Hst]; [by apply chunks_none|].
  exists 1. split; [done|]. replace (Z.min (p + 1 * WRITE_MAX) (zlen buf)) with (p + n) by lia. exact Hst.
Qed.

Lemma chunks_ext inum d a buf p off disk disk' :
  (forall n, disk' n = disk n) -> chunks inum d a buf p off disk -> chunks inum d a buf p off disk'.
Proof. intros He (j & Hj & Hs). exists j. split; [done|]. by eapply stage_ext. Qed.

(** A prefix of the writes of two transactions. *)
Lemma cut_app (disk disk1 : Z -> list Z) tr1 tr2 k :
  (forall n, disk1 n = apply_writes disk tr1 n) ->
  (exists k', forall n, apply_writes disk (take k (tr1 ++ tr2)) n = apply_writes disk (take k' tr1) n) \/
  (exists k', forall n, apply_writes disk (take k (tr1 ++ tr2)) n = apply_writes disk1 (take k' tr2) n).
Proof.
  intros H1. destruct (decide (k <= length tr1)%nat) as [Hk|Hk]; [left; exists k|right; exists (k - length tr1)%nat]; intros n.
  - by rewrite take_app_le.
  - rewrite take_app, take_ge, apply_writes_app by lia. apply apply_writes_ext. intros m'. by rewrite H1.
Qed.

(** The transactions of the loop of [write]. *)
Lemma write_loop_run fuel s a ip i buf p off :
  let d := i_din i in let inum := i_inum i in
  file_idle sb start size s a ip i -> synced sb a inum d -> super_own a inum d ->
  LOGSIZE < capacity -> MAXOPBLOCKS + 4 <= size -> 0 <= p <= zlen buf ->
  0 <= off <= di_size d -> off + (zlen buf - p) <= MAXFILE * BSIZE ->
  (zlen buf - p + WRITE_MAX - 1) / WRITE_MAX < Z.of_nat fuel ->
  exists r s' a' d' tr, inode_write_loop fuel ip buf p off s = Ret (r, s') /\
    file_idle sb start size s' a' ip (set_din d' i) /\ kept_outside sb start size inum d a a' /\ grown_slots sb d a d' a' /\
    written (bl (fs_log s')) = written (bl (fs_log s)) ++ tr /\
    let cut k := apply_writes (medium (bl (fs_log s))) (take k tr) in
    ((r = (Ok (zlen buf), off + (zlen buf - p)) /\ synced sb a' inum d' /\
      contents d' (view a') = zsplice (contents d (view a)) off (zslice buf p (zlen buf)) /\
      forall k, chunks inum d a buf p off (cut k)) \/
     (exists j, 0 <= j /\ p + j * WRITE_MAX < zlen buf /\ r = (Err "balloc: out of blocks", off + j * WRITE_MAX) /\
      (forall b, 0 <= b < sb_size sb -> used sb (view a') b = true) /\
      (exists n, p + j * WRITE_MAX <= n < zlen buf /\ di_size d <= (off + (n - p)) / BSIZE * BSIZE) /\
      forall k, chunks inum d a buf p off (cut k) \/
        (recoverable start size (cut k) (view a') /\ super_at (cut k) /\ super_at (view a')))).
Proof.
  assert (BSIZE = 4096 /\ WRITE_MAX = 122880) as [HB HW] by done.
  revert s a i p off. induction fuel as [|fuel IH]; intros s a i p off d inum Hf Hsy Hsu room Hmax Hp Hoff Hend Hfuel.
  { exfalso. assert (0 <= (zlen buf - p + WRITE_MAX - 1) / WRITE_MAX) by (apply Z.div_pos; lia). lia. }
  cbn [inode_write_loop]. destruct (Z.ltb_spec p (zlen buf)) as [Hlt|Hge]; last first.
  { assert (p = zlen buf) as -> by lia. exists (Ok (zlen buf), off), s, a, d, []. rewrite Z.sub_diag, Z.add_0_r, app_nil_r.
    unfold d. rewrite set_din_same. split; [done|]. split; [done|]. split; [done|]. split; [by left|]. split; [done|].
    rewrite zslice_empty, zsplice_nil. left. do 3 (split; [done|]). intros k. apply chunks_none; [done|].
    rewrite take_nil. apply (idle_stage s a ip i); [lia|done|done|apply Hsu]. }
  set (n := Z.min (zlen buf - p) WRITE_MAX). assert (zlen (zslice buf p (p + n)) = n) as Hn by (rewrite zlen_zslice; lia).
  destruct (write_op_run sb start size Hbm s a ip i (zslice buf p (p + n)) off Hf room Hmax Hoff)
    as (r & l & a1 & d1 & tr1 & E & Hf1 & Hk1 & Hg1 & Htr & Hmtr & Hint & Res); [lia|lia|].
  fold d inum in Hk1, Hg1, Res. rewrite (bind_run _ _ _ _ _ E). set (s1 := put_din l ip i d1 s) in *.
  pose proof (super_own_after _ _ _ _ _ Hk1 Hg1 Hsu) as Hsu1. destruct Res as [(-> & Hc & Hs1)|(-> & Hfull & n0 & Hn0 & Hpast)].
  - specialize (Hs1 Hsy). rewrite Hn.
    assert (di_size d1 = Z.max (di_size d) (off + n)) as Hsz.
    { pose proof (io_dinode _ _ _ _ _ _ (fi_inode _ _ _ _ _ _ _ Hf1)) as (_ & _ & _ & _ & [Hu _] & _).
      rewrite <-(zlen_contents d1 (view a1) Hu), Hc, zlen_zsplice_grow, Hn; rewrite ?zlen_contents; lia. }
    destruct (IH s1 a1 (set_din d1 i) (p + n) (off + n) Hf1 Hs1 Hsu1 room Hmax)
      as (r & s' & a' & d' & tr2 & E2 & Hf2 & Hk2 & Hg2 & Htr2 & Res); [lia|cbn [i_din set_din]; lia|lia| |].
    { pose proof (Z.div_mod (zlen buf - p + WRITE_MAX - 1) WRITE_MAX ltac:(lia)).
      pose proof (Z.mod_pos_bound (zlen buf - p + WRITE_MAX - 1) WRITE_MAX ltac:(lia)).
      apply Z.div_lt_upper_bound; lia. }
    cbn [i_din set_din i_inum] in *. exists r, s', a', d', (tr1 ++ tr2). split; [exact E2|]. split; [exact Hf2|].
    split; [by eapply kept_trans|]. split; [eapply grown_trans; [apply Hk1|done|done]|].
    split; [rewrite Htr2; cbn [s1 fs_log put_din put_log]; by rewrite Htr, app_assoc|].
    assert (Hfirst : forall k, chunks inum d a buf p off (apply_writes (medium (bl (fs_log s))) (take k tr1))).
    { intros k. by apply (first_chunk s s1 a ip i a1 d1). }
    assert (Hm1 : forall x, medium (bl (fs_log s1)) x = apply_writes (medium (bl (fs_log s))) tr1 x) by exact Hmtr.
    destruct Res as [(-> & Hs2 & Hc2 & Hch2)|(j & Hj & Hjl & -> & Hfull & (n0 & Hn0 & Hpast) & Hch2)]; [left|right].
    + split; [f_equal; lia|]. split; [done|]. split.
      { pose proof (zsplice_zsplice (contents d (view a)) off (zslice buf p (p + n)) (zslice buf (p + n) (zlen buf))) as Hz.
        rewrite Hn, zslice_app in Hz by lia. rewrite Hc2, Hc, Hz by (rewrite zlen_contents; lia). done. }
      intros k. destruct (cut_app _ _ tr1 tr2 k Hm1) as [[k' Hk]|[k' Hk]]; (eapply chunks_ext; [exact Hk|]); [by apply Hfirst|].
      eapply chunks_after; [done|done|exact Hk1|exact Hg1|exact Hc|apply Hch2].
    + assert (n = WRITE_MAX) as Hnw by lia. exists (j + 1). split; [lia|]. split; [lia|]. split; [f_equal; lia|]. split; [done|]. split.
      { exists n0. split; [lia|]. replace (off + n + (n0 - (p + n))) with (off + (n0 - p)) in Hpast by lia. lia. }
      intros k. destruct (cut_app _ _ tr1 tr2 k Hm1) as [[k' Hk]|[k' Hk]].
      { left. eapply chunks_ext; [exact Hk|]. by apply Hfirst. }
      destruct (Hch2 k') as [Hch|(Hrec & Hsa & Hsv)]; [left|right].
      * eapply chunks_ext; [exact Hk|]. eapply chunks_after; [done|done|exact Hk1|exact Hg1|exact Hc|done].
      * split; [by eapply recoverable_ext|]. split; [|done]. eapply super_at_home; [|exact Hsa]. intros x _. apply Hk.
  - exists (Err "balloc: out of blocks", off), s1, a1, d1, tr1. split; [done|]. split; [exact Hf1|]. split; [done|]. split; [done|].
    split; [exact Htr|]. right. exists 0. rewrite Z.add_0_r. do 2 (split; [lia|]). split; [by rewrite Z.add_0_r|]. split; [done|]. split.
    { exists (p + n0). split; [lia|]. by replace (p + n0 - p) with n0 by lia. }
    intros k. pose proof (interrupted_super _ _ _ (sw_at _ _ _ Hsu) (sw_at _ _ _ Hsu1) (Hint k)) as Hsk.
    destruct (Hint k) as [[Hrec|Hrec] _]; [left|right; split; [done|split; [done|apply Hsu1]]].
    apply chunks_none; [done|]. apply (before_stage s a ip i); [done|done|apply Hsu|done|done].
Qed.

(** C2: [write] to an open file under crashes, from the file layer down to the
    disk, for any buffer that fits in the largest file.  It runs one
    transaction for each [WRITE_MAX] bytes, none of which outgrows its
    reservation in the log, and returns with the log idle, the offset moved
    and every other file and inode untouched.  If the machine stops after the
    first [k] of its disk writes, for any [k], the next boot succeeds: the
    first process reads the superblock, recovers the log and opens the root
    directory, however often that is cut short in turn.  When [write] succeeds,
    the system comes up, for each such [k], with the log idle and nothing
    changed but this file, which holds its old contents with the first few of
    the [WRITE_MAX]-byte pieces of the buffer spliced in: all or nothing for a
    buffer of one piece; and once [write] has returned it is the whole buffer.
    The only error is that a block past the end of the file is needed and the
    device has none left.  Then the boot comes up either with whole pieces, as
    before, or with the home blocks as [write] left them, in which the last
    transaction, that of the piece that failed, has had part of its effects:
    that transaction is committed too. *)
Theorem write_crash_atomic s a ip i buf off :
  let d := i_din i in let inum := i_inum i in
  let after q := zsplice (contents d (view a)) off (zslice buf 0 q) in
  file_idle sb start size s a ip i -> synced sb a inum d -> super_own a inum d ->
  LOGSIZE < capacity -> MAXOPBLOCKS + 4 <= size ->
  0 <= off <= di_size d -> off + zlen buf <= MAXFILE * BSIZE ->
  exists r s' a' d' tr, inode_write ip buf off s = Ret (r, s') /\
    file_idle sb start size s' a' ip (set_din d' i) /\ kept_outside sb start size inum d a a' /\
    written (bl (fs_log s')) = written (bl (fs_log s)) ++ tr /\
    let cut k := apply_writes (medium (bl (fs_log s))) (take k tr) in
    let pieces k := exists j, 0 <= j /\ boots_to (cut k) (file_state inum d a (after (Z.min (j * WRITE_MAX) (zlen buf)))) in
    ((r = (Ok (zlen buf), off + zlen buf) /\ file_on (view a') inum d' (after (zlen buf)) /\ (forall k, pieces k) /\
      boots_to (medium (bl (fs_log s'))) (file_state inum d a (after (zlen buf)))) \/
     (exists j, 0 <= j /\ j * WRITE_MAX < zlen buf /\ r = (Err "balloc: out of blocks", off + j * WRITE_MAX) /\
      (forall b, 0 <= b < sb_size sb -> used sb (view a') b = true) /\
      (exists n, j * WRITE_MAX <= n < zlen buf /\ di_size d <= (off + n) / BSIZE * BSIZE) /\
      forall k, pieces k \/ boots_to (cut k) (fun a2 => home_eq start size (view a2) (view a')))).
Proof.
  intros d inum after Hf Hsy Hsu room Hmax Hoff Hend. pose proof (zlen_nonneg buf) as Hz.
  assert (WRITE_MAX = 122880) as HW by done.
  destruct (write_loop_run (Datatypes.S (Z.to_nat (zlen buf / WRITE_MAX + 1))) s a ip i buf 0 off Hf Hsy Hsu room Hmax)
    as (r & s' & a' & d' & tr & E & Hf' & Hk & Hg & Htr & Res); [lia|done|lia| |].
  { assert (0 <= zlen buf / WRITE_MAX) by (apply Z.div_pos; lia).
    pose proof (Z.div_mod (zlen buf) WRITE_MAX ltac:(lia)). pose proof (Z.mod_pos_bound (zlen buf) WRITE_MAX ltac:(lia)).
    apply Z.div_lt_upper_bound; lia. }
  exists r, s', a', d', tr. split; [exact E|]. do 3 (split; [done|]). intros cut pieces.
  assert (Hp : forall k, chunks inum d a buf 0 off (cut k) -> pieces k).
  { intros k (j & Hj & Hs). exists j. split; [done|]. by apply stage_boots. }
  fold d inum in Res. destruct Res as [(-> & Hs' & Hc & Hch)|(j & Hj & Hjl & -> & Hfull & (n & Hn & Hpast) & Hch)]; [left|right].
  - rewrite Z.sub_0_r. split; [done|]. split; [by split|]. split; [intros k; apply Hp, Hch|].
    apply stage_boots; [done|]. eapply stage_after; [exact Hk|exact Hg|]. unfold after. rewrite <-Hc.
    apply (idle_stage s' a' ip (set_din d' i)); [lia|done|done|]. apply (super_own_after _ _ _ _ _ Hk Hg Hsu).
  - exists j. do 2 (split; [done|]). split; [done|]. split; [done|]. split; [exists n; by rewrite Z.sub_0_r in Hpast|].
    intros k. destruct (Hch k) as [Hc|(Hrec & Hs1 & Hs2)]; [left; by apply Hp|right]. by apply recoverable_boots.
Qed.
End crash.
