(* ===== verification/FsDirOnBio.v ===== *)
(** Growing files and directories on the log and the buffer cache: concrete
    instances of the theorems of [FsGrow], [FsDirSpec], [FsPath], [FsCrash] and [FsFree]. *)
From stdpp Require Import base list gmap strings fin_sets.
From Stdlib Require Import ZArith Lia.
From S2P Require Import Prelude.
From S2P Require Import Arch.
From S2P Require Import Sleeplock.
From S2P Require Import BlockLayer.
From S2P Require Import Bio.
From S2P Require Import Fslog.
From S2P Require Import FslogCrash.
From S2P Require Import FslogSpec.
From S2P Require Import LogOnBio.
From S2P Require Import FsLayout.
From S2P Require Import Fs.
From S2P Require Import FsSpec.
From S2P Require Import FsFile.
From S2P Require Import FsGrow.
From S2P Require Import FsDir.
From S2P Require Import FsDirSpec.
From S2P Require Import FsPath.
From S2P Require Import FsDurable.
From S2P Require Import FsFree.
From S2P Require Import FsCrash.
From S2P Require Import Icache.
From S2P Require Import FsOnBio.

Definition a_dinode : DInode := mkDInode 1 0 0 1 96 ([10] ++ zrep 12 0).
Definition a_file : DInode := mkDInode 2 0 0 1 0 (zrep 13 0).

(** The device of [small_sb] with blocks 0, 1 and 10 in use: in block 0 inode
    1, a directory, and inode 7, a file, in block 1 the superblock, and in
    block 10 the directory's three entries, of which the second is the name
    [a] for inode 7. *)
Definition a_dir : Z -> list Z := fun n =>
  if n =? 200 then set_bit (set_bit (set_bit (zrep BSIZE 0) 0) 1) 10
  else if n =? 1 then put_words 0 [100; 0; 0; 511; 1000; 0; 200] (zrep BSIZE 0)
  else if n =? 0 then put_dinode (put_dinode (zrep BSIZE 0) 1 a_dinode) 7 a_file
  else if n =? 10 then zsplice (zrep BSIZE 0) 32 (dirent_bytes [97] 7)
  else zrep BSIZE 0.

Lemma a_dir_len n : zlen (a_dir n) = BSIZE.
Proof. unfold a_dir. destruct (n =? 200); [|destruct (n =? 1); [|destruct (n =? 0); [|destruct (n =? 10)]]]; vm_compute; reflexivity. Qed.

Lemma a_dir_bio : exists s : Bio, rep s (fresh_dev a_dir).
Proof.
  destruct (init_represents (zrep BSIZE 0) 1 a_dir) as (c & _ & Hr);
    [by apply zlen_rep|done|intros; by apply a_dir_len|]. by eexists.
Qed.

Definition a_inode : Inode := mkInode ROOTDEV 1 (Some small_sb) 1 (mkSleeplock true 1) true a_dinode.

Lemma a_addr bn : addr a_dinode bn = if bn =? 0 then 10 else 0.
Proof.
  destruct (Z.eqb_spec bn 0) as [->|Hne]; [done|]. unfold addr.
  destruct ((di_addrs a_dinode).[bn]) as [x|] eqn:E; [|done].
  apply znth_Some in E as [Hr E]. change (zlen (di_addrs a_dinode)) with 13 in Hr.
  assert (Z.to_nat bn = Datatypes.S (Z.to_nat (bn - 1))) as Hs by lia. rewrite Hs in E.
  apply lookup_replicate in E as [-> _]. done.
Qed.

Lemma a_slot v k : slot a_dinode v k = if k =? 0 then 10 else 0.
Proof.
  destruct (decide (k <= NDIRECT)); [by rewrite slot_direct, a_addr|]. assert (NDIRECT = 12) by done.
  rewrite slot_none by (try lia; by left). by rewrite (proj2 (Z.eqb_neq k 0)) by lia.
Qed.

Lemma not_bitmap_block n : n <> 200 -> ~ bitmap_block small_sb n.
Proof.
  intros Hn (b & Hb & E). cbn in Hb. change (bmap_start small_sb) with 200 in E.
  rewrite Z.div_small in E by (change BPB with 32768; lia). lia.
Qed.

Lemma a_inode_ok : inode_ok small_sb 1000 511 (fresh_dev a_dir) 1 a_dinode.
Proof.
  split.
  - repeat (split; [done|]). apply Forall_cons. split; [done|]. by apply Forall_replicate.
  - intros k. rewrite a_slot. destruct (Z.eqb_spec k 0); [|done]. intros _. split; [cbn; lia|split; lia| |by apply not_bitmap_block|done].
    vm_compute. reflexivity.
  - intros k k'. rewrite !a_slot. destruct (Z.eqb_spec k 0), (Z.eqb_spec k' 0); lia.
  - split; [done|]. split; [split; [done|by left]|by apply not_bitmap_block].
  - intros _. vm_compute. reflexivity.
  - intros _. vm_compute. reflexivity.
Qed.

Lemma a_dense v : dense a_dinode v.
Proof.
  split; [done|]. intros bn Hbn Hlt. cbn in Hlt. change BSIZE with 4096 in Hlt. assert (bn = 0) as -> by lia.
  by rewrite a_slot.
Qed.

Lemma a_writing s : rep s (fresh_dev a_dir) ->
  writing small_sb 1000 511 (in_op s [a_inode; Inode_new]) (fresh_dev a_dir) 0 a_inode.
Proof.
  intros Hr. split; [by apply in_op_txn|done|by repeat split; eexists|done|apply small_alloc_ok|apply a_inode_ok].
Qed.

Definition a_contents : list Z := contents a_dinode a_dir.

Lemma a_dir_writing s : rep s (fresh_dev a_dir) ->
  dir_writing small_sb 1000 511 (in_op s [a_inode; Inode_new]) (fresh_dev a_dir) 0 a_inode a_contents.
Proof. intros Hr. split; [by apply a_writing|apply a_dense|done|done|by exists 3]. Qed.

Lemma a_icache_ok : icache_ok [a_inode; Inode_new].
Proof.
  assert (Hcase : forall k i, [a_inode; Inode_new].[k] = Some i -> k = 0 /\ i = a_inode \/ k = 1 /\ i = Inode_new).
  { intros k i Hk. pose proof (znth_range _ _ _ Hk) as Hkr. unfold zlen in Hkr. cbn in Hkr.
    assert (k = 0 \/ k = 1) as [-> | ->] by lia; injection Hk as <-; auto. }
  split.
  - intros k k' i i' Hk Hk' Hi (Hr1 & _). apply Hcase in Hk as [[-> ->]|[-> ->]], Hk' as [[-> ->]|[-> ->]]; done.
  - intros k i Hk. apply Hcase in Hk as [[-> ->]|[-> ->]]; done.
Qed.

Lemma a_name : names a_contents !! [97] = Some 7.
Proof. vm_compute. reflexivity. Qed.

Lemma b_no_name : names a_contents !! [98] = None.
Proof. vm_compute. reflexivity. Qed.

Lemma writei_extends_witness :
  exists (s s' : Fs Bio), writei 0 (zrep 100 7) 96 s = Ret (Ok 100, s').
Proof.
  destruct a_dir_bio as [s Hr]. exists (in_op s [a_inode; Inode_new]).
  destruct (writei_extends small_sb 1000 511 small_bitmap_ok (in_op s [a_inode; Inode_new]) (fresh_dev a_dir) 0 a_inode (zrep 100 7) 96)
    as (l & a' & d' & _ & _ & _ & _ & [(E & _)|(_ & _ & _ & n & Hn & Hge & _)]).
  - by apply a_writing.
  - exact nbuf_room.
  - apply a_dense.
  - done.
  - done.
  - split; done.
  - eexists. exact E.
  - exfalso. change (zlen (zrep 100 7)) with 100 in Hn. change (di_size (i_din a_inode)) with 96 in Hge.
    rewrite Z.div_small in Hge by (change BSIZE with 4096; lia). lia.
Defined.

Lemma dir_lookup_refines_witness :
  exists (s s' : Fs Bio) k, dir_lookup 0 [97] s = Ret (Ok k, s').
Proof.
  destruct a_dir_bio as [s Hr].
  destruct (dir_lookup_refines (in_op s [a_inode; Inode_new]) (fresh_dev a_dir) 0 a_inode a_contents small_sb [97])
    as (b & _ & H).
  - apply (dir_writing_open small_sb 1000 511); [exact nbuf_room|by apply a_dir_writing].
  - done.
  - apply a_icache_ok.
  - rewrite a_name in H. destruct H as [(k & j & j' & _ & E & _)|(_ & Hall)].
    + eexists _, _, k. exact E.
    + exfalso. destruct (Hall 1 Inode_new eq_refl) as [Hbad _]. by vm_compute in Hbad.
Defined.


(** The tree of the two inodes. *)
Definition in_tree (n : Z) : Prop := n = 1 \/ n = 7.

Lemma a_dinode_at : dinode_at small_sb a_dir 1 = a_dinode.
Proof. vm_compute. reflexivity. Qed.

Lemma a_file_at : dinode_at small_sb a_dir 7 = a_file.
Proof. vm_compute. reflexivity. Qed.

Lemma a_names : names a_contents = {[ [97] := 7 ]}.
Proof. vm_compute. reflexivity. Qed.

Lemma a_tree : tree small_sb in_tree a_dir.
Proof.
  intros inum [-> | ->].
  - split; [split|].
    + done.
    + rewrite a_dinode_at. by left.
    + by rewrite a_dinode_at.
    + intros _. rewrite a_dinode_at. split; [done|]. split; [by exists 3|].
      apply (dense_mapped small_sb 1000 511 (fresh_dev a_dir) 1); [apply a_inode_ok|apply a_dense].
    + intros _ name n. unfold dir_at. rewrite a_dinode_at. fold a_contents. rewrite a_names.
      intros [_ <-]%lookup_singleton_Some. by right.
  - split; [split|]; rewrite ?a_file_at; try done. by right; left.
Qed.

(** The directory as the current one, unlocked and not yet read. *)
Definition a_cwd : Inode := mkInode ROOTDEV 1 (Some small_sb) 1 Sleeplock_new false DInode_new.

Lemma a_at_rest s : rep s (fresh_dev a_dir) ->
  at_rest small_sb in_tree (in_op s [a_cwd; Inode_new; Inode_new]) (fresh_dev a_dir) None.
Proof.
  intros Hr. split; [done|done|cbn [dirty fresh_dev]; rewrite size_empty; done|done|done|].
  assert (Hcase : forall k i, [a_cwd; Inode_new; Inode_new].[k] = Some i -> k = 0 /\ i = a_cwd \/ i = Inode_new).
  { intros k i Hk. pose proof (znth_range _ _ _ Hk) as Hkr. unfold zlen in Hkr. cbn in Hkr.
    assert (k = 0 \/ k = 1 \/ k = 2) as [-> | [-> | ->]] by lia; injection Hk as <-; auto. }
  split.
  - intros k k' i i' Hk Hk' Hi (Hr1 & _). apply Hcase in Hk as [[-> ->]| ->], Hk' as [[-> ->]| ->]; done.
  - intros n. cbn. unfold weight. repeat destruct (_ && _); cbn; lia.
  - intros k i Hk. apply Hcase in Hk as [[-> ->]| ->]; split; try done. intros _. split; [done|]. split; [done|]. split; [by left|done].
Qed.

Lemma namei_resolves_witness :
  exists (s s' : Fs Bio) r, namei [47; 97] s = Ret (r, s') /\
    ((exists k j, r = Ok k /\ (fs_icache s').[k] = Some j /\ refers ROOTDEV 7 j) \/ r = Err "Inode::get: no inodes").
Proof.
  destruct a_dir_bio as [s Hr].
  destruct (namei_resolves small_sb in_tree (in_op s [a_cwd; Inode_new; Inode_new]) (fresh_dev a_dir) [47; 97] a_cwd)
    as (b & c' & r & E & _ & Hres).
  - exact a_tree.
  - by apply a_at_rest.
  - by left.
  - done.
  - done.
  - intros n. cbn. unfold weight. repeat destruct (_ && _); cbn; lia.
  - done.
  - eexists _, _, r. split; [exact E|]. cbn [fs_icache put_icache].
    assert (walk small_sb (view (fresh_dev a_dir)) (start_of [47; 97] a_cwd) (elems [47; 97]) = Ok 7) as Hw by (vm_compute; reflexivity).
    rewrite Hw in Hres. destruct Hres as [(k & j & -> & Hk & Hj & _)|[-> _]]; [left|right; reflexivity].
    exists k, j. split; [reflexivity|]. split; [exact Hk|exact Hj].
Defined.

(** The same device between transactions, with the inode of block 10 open. *)
Definition a_open : Inode := mkInode ROOTDEV 1 (Some small_sb) 1 Sleeplock_new true a_dinode.

Definition between_ops (s : Bio) : Fs Bio :=
  mkFs (mkLogged s (set_metadata ROOTDEV 1000 511 Log_new) LogState_new) [a_open] small_sb 1 0.

Lemma a_file_idle s : rep s (fresh_dev a_dir) ->
  file_idle small_sb 1000 511 (between_ops s) (fresh_dev a_dir) 0 a_open.
Proof.
  intros Hr. pose proof (in_op_txn s [] a_dir Hr) as [_ Hw Hat He Hd _].
  split; [|rewrite <-(rep_medium _ _ _ Hr); vm_compute; done|done|done|done|done|done|done|done|apply small_alloc_ok|apply a_inode_ok|apply a_dense].
  split; [|done|done]. by split.
Qed.

Lemma a_super_own : super_own small_sb 1000 511 (fresh_dev a_dir) 1 a_dinode.
Proof.
  split; [split; [vm_compute; reflexivity|done|done|split; [done|by left]]|vm_compute; done|by apply not_bitmap_block| |done].
  intros k. rewrite a_slot. by destruct (k =? 0).
Qed.

(** Any disk can be in a machine when it is switched on. *)
Lemma power_on d : (forall n, zlen (d n) = BSIZE) -> exists m : Fs Bio, powered_on m d.
Proof.
  intros Hd. destruct (init_represents (zrep BSIZE 0) 1 d) as (c & _ & Hr); [by apply zlen_rep|done|done|].
  eexists (mkFs (mkLogged _ Log_new LogState_new) (zrep NINODE Inode_new) Superblock_new 1 0). split; [exact Hr|done..].
Qed.

(** The write returns, and a machine that boots afterwards comes up with it. *)
Lemma write_crash_atomic_witness :
  exists (s s' m m' : Fs Bio) root a2 d', inode_write 0 [1; 2; 3] 96 s = Ret ((Ok 3, 99), s') /\
    powered_on m (medium (bl (fs_log s'))) /\ firstret_fs m = Ret (root, m') /\ booted small_sb 1000 511 m' a2 root /\
    contents d' (view a2) = zsplice a_contents 96 [1; 2; 3].
Proof.
  destruct a_dir_bio as [s Hr].
  destruct (write_crash_atomic small_sb 1000 511 small_bitmap_ok (between_ops s) (fresh_dev a_dir) 0 a_open [1; 2; 3] 96)
    as (r & s' & a' & d' & tr & E & Hf & _ & _ & [(-> & _ & _ & Hb1 & Hb2)|(j & Hj & Hjl & _ & _ & (n & Hn & Hge) & _)]).
  - by apply a_file_idle.
  - exact a_dinode_at.
  - exact a_super_own.
  - exact nbuf_room.
  - done.
  - done.
  - done.
  - destruct (power_on (medium (bl (fs_log s')))) as [m Hm].
    { intros n. rewrite (idle_clean 1000 511 _ a') by apply Hf. apply (rep_len _ _ n (cm_rep _ _ _ _ _ (id_cm _ _ _ _ (fi_idle _ _ _ _ _ _ _ Hf)))). }
    destruct (Hb1 m Hm) as (root & m' & Eb). destruct (Hb2 root m') as (a2 & Hbt & _ & d2 & _ & Hc).
    { eapply rb_up; [exact Hm|exact Eb]. }
    exists (between_ops s), s', m, m', root, a2, d2. split; [exact E|]. split; [exact Hm|]. split; [exact Eb|]. split; [exact Hbt|exact Hc].
  - exfalso. change (zlen [1; 2; 3]) with 3 in Hn. change (di_size (i_din a_open)) with 96 in Hge. change WRITE_MAX with 122880 in Hn.
    rewrite Z.div_small in Hge by (change BSIZE with 4096; lia). lia.
Defined.

(** The inode of block 10 without links, its last reference about to go. *)
Definition a_gone : Inode := mkInode ROOTDEV 1 (Some small_sb) 1 Sleeplock_new true (with_nlink 0 a_dinode).

Lemma put_deletes_unlinked_witness :
  exists (s s' : Fs Bio) (a' : Dev), iput 0 s = Ret (Ok tt, s') /\
    rep (bl (fs_log s')) a' /\ used small_sb (view a') 10 = false.
Proof.
  destruct a_dir_bio as [s Hr].
  pose proof (put_deletes_unlinked small_sb 1000 511 small_bitmap_ok (in_op s [a_gone]) (fresh_dev a_dir) 0 a_gone) as H.
  change (i_valid a_gone && (di_nlink (i_din a_gone) =? 0) && (i_ref a_gone =? 1)) with true in H. cbv zeta iota in H.
  destruct H as (l & a' & j & E & _ & _ & _ & Ht & _ & _ & _ & Hu & _).
  - by apply in_op_txn.
  - done.
  - exact nbuf_room.
  - split; done.
  - done.
  - done.
  - done.
  - done.
  - done.
  - done.
  - apply small_alloc_ok.
  - destruct a_inode_ok as [(D1 & D2 & D3 & D4 & D5) H2 H3 H4 H5 H6].
    split; [by repeat split; try apply D5|exact H2|exact H3|exact H4|exact H5|exact H6].
  - done.
  - eexists _, _, a'. split; [exact E|]. split; [exact (tx_rep _ _ _ _ Ht)|].
    rewrite Hu by (cbn; lia). apply andb_false_r.
Defined.
