(* ===== verification/Pipe.v ===== *)
(** Pipes, [pipe.rs]: the ring buffer, the reader's and the writer's ends as
    atomic steps under the pipe's lock, and the slab allocator of pipes. *)
From stdpp Require Import base list gmap strings relations.
From Stdlib Require Import ZArith Lia.
From S2P Require Import Prelude.
From S2P Require Import Arch.
From S2P Require Import Kalloc.

(** ** The ring buffer *)
Record Pipe := mkPipe {
  nread : Z; nwrite : Z; pdata : list Z; read_open : bool; write_open : bool }.

Definition Pipe_new : Pipe := mkPipe 0 0 [] false false.
Definition Pipe_reset (page : list Z) (p : Pipe) : Pipe := mkPipe 0 0 page true true.

Definition set_nread (n : Z) (p : Pipe) : Pipe := mkPipe n (nwrite p) (pdata p) (read_open p) (write_open p).

Definition is_empty (p : Pipe) : bool := nread p =? nwrite p.
Definition readable (p : Pipe) : bool := negb (is_empty p) || negb (write_open p).
Definition broken (p : Pipe) : bool := negb (read_open p).

Definition read_byte : M Pipe Z :=
  p ← gets id;
  assert_ (negb (is_empty p)) "assertion failed: !self.is_empty()";;
  b ← expect (pdata p).[nread p mod zlen (pdata p)] "index out of bounds";
  modify (set_nread (wrap 64 (nread p + 1)));;
  mret b.

(** [self.nread + data.len() == self.nwrite], a checked addition. *)
Definition is_full : M Pipe bool :=
  p ← gets id;
  e ← lift (add_ovf 64 (nread p) (zlen (pdata p)));
  mret (e =? nwrite p).

Definition write_byte (b : Z) : M Pipe unit :=
  full ← is_full;
  assert_ (negb full) "assertion failed: !self.is_full()";;
  modify (fun p => mkPipe (nread p) (wrap 64 (nwrite p + 1))
                     (pdata p).[nwrite p mod zlen (pdata p) <- b] (read_open p) (write_open p)).

(** ** The two ends

    A call that has to wait releases the lock and sleeps; when it wakes it
    goes on from where it was.  One step runs from taking the lock to
    returning or sleeping. *)
Fixpoint read_bytes (k : nat) : M Pipe (list Z) :=
  match k with
  | O => mret []
  | S k' =>
    p ← gets id;
    if is_empty p then mret [] else
    b ← read_byte;
    bs ← read_bytes k';
    mret (b :: bs)
  end.

(** [PipeReader::read] into a buffer of [len] bytes: the bytes read. *)
Definition PipeReader_read (dead : bool) (len : nat) : M Pipe (progress (result (list Z)) unit) :=
  p ← gets id;
  if negb (readable p) then
    if dead then mret (Done (Err "dead")) else mret (Sleep tt)
  else bs ← read_bytes len; mret (Done (Ok bs)).

(** [PipeWriter::write]: [n] bytes are written already, [buf] is left. *)
Fixpoint PipeWriter_write (n : Z) (buf : list Z) : M Pipe (progress (result Z) (Z * list Z)) :=
  match buf with
  | [] => mret (Done (Ok n))
  | b :: buf' =>
    full ← is_full;
    if (full : bool) then
      p ← gets id;
      if broken p then mret (Done (Err "broken pipe")) else mret (Sleep (n, buf))
    else
      write_byte b;;
      PipeWriter_write (n + 1) buf'
  end.

(** The closes, up to the test whether the pipe is to be freed. *)
Definition PipeReader_close : M Pipe bool :=
  modify (fun p => mkPipe (nread p) (nwrite p) (pdata p) false (write_open p));;
  gets (fun p => negb (write_open p)).
Definition PipeWriter_close : M Pipe bool :=
  modify (fun p => mkPipe (nread p) (nwrite p) (pdata p) (read_open p) false);;
  gets (fun p => negb (read_open p)).

(** ** The abstract pipe: a bounded byte queue *)
Definition CAP : Z := PAGE_SIZE.

Record holds (p : Pipe) (q : list Z) : Prop := {
  h_len : zlen (pdata p) = CAP;
  h_pos : 0 <= nread p;
  h_count : nwrite p = nread p + zlen q;
  h_bound : zlen q <= CAP;
  h_data : forall i, 0 <= i < zlen q -> (pdata p).[(nread p + i) mod CAP] = q.[i] }.

(** The counters stay clear of the end of their range. *)
Definition counters_fit (p : Pipe) : Prop := nwrite p + CAP < 2 ^ 64.

Lemma reset_holds page p : zlen page = CAP -> holds (Pipe_reset page p) [].
Proof. intros. split; cbn; try done. intros i Hi. cbn in Hi. unfold zlen in Hi. cbn in Hi. lia. Qed.

Lemma holds_empty p q : holds p q -> is_empty p = bool_decide (q = []).
Proof.
  intros [_ _ Hc _ _]. unfold is_empty. rewrite Hc. destruct q as [|b q].
  - cbn. rewrite Z.add_0_r. apply Z.eqb_refl.
  - rewrite bool_decide_eq_false_2 by done. rewrite zlen_cons. pose proof (zlen_nonneg q). apply Z.eqb_neq. lia.
Qed.

Lemma pipe_full_run p q : holds p q -> counters_fit p -> is_full p = Ret (zlen q =? CAP, p).
Proof.
  intros [Hl Hp Hc Hb _] Hf. unfold is_full. rewrite bind_gets. cbn [id]. unfold counters_fit in Hf.
  pose proof (zlen_nonneg q). rewrite Hl, (bind_lift _ _ _ (nread p + CAP)).
  - unfold mret, M_ret. do 2 f_equal. rewrite Hc. destruct (Z.eqb_spec (zlen q) CAP), (Z.eqb_spec (nread p + CAP) (nread p + zlen q)); try done; lia.
  - unfold add_ovf. rewrite (proj2 (Z.ltb_lt _ _)); [done|lia].
Qed.

Lemma read_byte_run p b q :
  holds p (b :: q) -> counters_fit p ->
  exists p', read_byte p = Ret (b, p') /\ holds p' q /\ nwrite p' = nwrite p /\
    read_open p' = read_open p /\ write_open p' = write_open p.
Proof.
  intros Hh Hf. pose proof (holds_empty _ _ Hh) as He. destruct Hh as [Hl Hp Hc Hb Hd].
  rewrite zlen_cons in *. pose proof (zlen_nonneg q). unfold counters_fit in Hf.
  assert (0 < CAP) as HC by done.
  exists (set_nread (nread p + 1) p). split; [|split; [|done]].
  - unfold read_byte. rewrite bind_gets. cbn [id]. rewrite He, bind_assert by done.
    specialize (Hd 0 ltac:(lia)). rewrite Z.add_0_r in Hd. rewrite Hl, Hd. cbn [expect].
    change ((b :: q).[0]) with (Some b). cbn [expect]. rewrite bind_mret, bind_modify.
    unfold wrap. rewrite Z.mod_small by lia. done.
  - split; cbn; try lia. intros i Hi. specialize (Hd (i + 1) ltac:(lia)).
    replace (nread p + 1 + i) with (nread p + (i + 1)) by lia. rewrite Hd.
    change (b :: q) with ([b] ++ q). rewrite znth_app_r by (unfold zlen; cbn; lia). f_equal. unfold zlen. cbn. lia.
Qed.

Lemma mod_distinct x y : 0 < x - y < CAP -> x mod CAP <> y mod CAP.
Proof.
  intros Hxy E. assert (CAP = 4096) as HC by done. rewrite HC in *.
  pose proof (Z.div_mod x 4096 ltac:(lia)). pose proof (Z.div_mod y 4096 ltac:(lia)). lia.
Qed.

Lemma write_byte_run p b q :
  holds p q -> zlen q < CAP -> counters_fit p ->
  exists p', write_byte b p = Ret (tt, p') /\ holds p' (q ++ [b]) /\ nwrite p' = nwrite p + 1 /\
    read_open p' = read_open p /\ write_open p' = write_open p.
Proof.
  intros Hh Hlt Hf. pose proof (pipe_full_run _ _ Hh Hf) as Ef. destruct Hh as [Hl Hp Hc Hb Hd].
  pose proof (zlen_nonneg q). unfold counters_fit in Hf. assert (0 < CAP) as HC by done.
  pose proof (Z.mod_pos_bound (nwrite p) CAP HC) as Hm.
  exists (mkPipe (nread p) (nwrite p + 1) (pdata p).[nwrite p mod CAP <- b] (read_open p) (write_open p)).
  split; [|split; [|done]].
  - unfold write_byte. rewrite (bind_run _ _ _ _ _ Ef). rewrite (proj2 (Z.eqb_neq _ _)) by lia.
    rewrite bind_assert by done. unfold modify, wrap. rewrite Hl, Z.mod_small by lia. done.
  - assert (zlen [b] = 1) as H1 by done. split; cbn; rewrite ?zlen_zset, ?zlen_app, ?H1; try lia.
    intros i Hi. destruct (decide (i < zlen q)).
    + rewrite znth_app_l by done. rewrite znth_zset_ne; [apply Hd; lia|].
      apply mod_distinct. lia.
    + replace i with (zlen q) by lia. rewrite <-Hc, znth_zset_eq by lia.
      rewrite znth_app_r, Z.sub_diag by lia. done.
Qed.

Lemma read_bytes_run k p q :
  holds p q -> counters_fit p ->
  exists p', read_bytes k p = Ret (take k q, p') /\ holds p' (drop k q) /\ nwrite p' = nwrite p /\
    read_open p' = read_open p /\ write_open p' = write_open p.
Proof.
  revert p q. induction k as [|k IH]; intros p q Hh Hf; [by exists p|].
  cbn [read_bytes]. rewrite bind_gets. cbn [id]. rewrite (holds_empty _ _ Hh).
  destruct q as [|b q]; [by exists p|]. rewrite bool_decide_eq_false_2 by done.
  destruct (read_byte_run p b q Hh Hf) as (p1 & E1 & Hh1 & Hn1 & Hr1 & Hw1).
  destruct (IH p1 q Hh1) as (p2 & E2 & Hh2 & Hn2 & Hr2 & Hw2); [unfold counters_fit in *; lia|].
  exists p2. rewrite (bind_run _ _ _ _ _ E1), (bind_run _ _ _ _ _ E2).
  split; [done|]. split; [done|]. split; [lia|]. split; congruence.
Qed.

(** The writer fills the queue, then finishes, sleeps or fails. *)
Lemma write_run buf n p q :
  holds p q -> nwrite p + zlen buf + CAP < 2 ^ 64 ->
  exists p' k, PipeWriter_write n buf p =
      Ret (if bool_decide (k = length buf) then Done (Ok (n + zlen buf))
           else if broken p then Done (Err "broken pipe") else Sleep (n + Z.of_nat k, drop k buf), p') /\
    (k <= length buf)%nat /\ holds p' (q ++ take k buf) /\
    (k <> length buf -> zlen (q ++ take k buf) = CAP) /\ nwrite p' = nwrite p + Z.of_nat k /\
    read_open p' = read_open p /\ write_open p' = write_open p.
Proof.
  revert n p q. induction buf as [|b buf IH]; intros n p q Hh Hf.
  - exists p, 0%nat. cbn. rewrite app_nil_r. unfold zlen. cbn. rewrite !Z.add_0_r. done.
  - cbn [PipeWriter_write]. rewrite zlen_cons in Hf. pose proof (zlen_nonneg buf).
    rewrite (bind_run _ _ _ _ _ (pipe_full_run p q Hh ltac:(unfold counters_fit; lia))).
    destruct (Z.eqb_spec (zlen q) CAP) as [Hfull|Hroom].
    + exists p, 0%nat. rewrite bind_gets. cbn [id]. rewrite app_nil_r. split; [|split; [lia|split; [done|split; [done|split; [lia|done]]]]].
      rewrite bool_decide_eq_false_2 by done. rewrite Z.add_0_r. by destruct (broken p).
    + pose proof (h_bound _ _ Hh).
      destruct (write_byte_run p b q Hh ltac:(lia) ltac:(unfold counters_fit; lia)) as (p1 & E1 & Hh1 & Hn1 & Hr1 & Hw1).
      destruct (IH (n + 1) p1 (q ++ [b]) Hh1 ltac:(lia)) as (p2 & k & E2 & Hk & Hh2 & Hf2 & Hn2 & Hr2 & Hw2).
      exists p2, (S k). rewrite (bind_run _ _ _ _ _ E1), E2. rewrite <-app_assoc in Hh2, Hf2. cbn in Hh2, Hf2.
      split; [|split; [cbn; lia|split; [done|split; [cbn; intros; apply Hf2; lia|split; [lia|split; congruence]]]]].
      unfold broken. rewrite Hr1. cbn [length drop].
      destruct (decide (k = length buf)) as [->|Hne].
      * rewrite !bool_decide_eq_true_2 by done. rewrite zlen_cons. do 4 f_equal. lia.
      * rewrite !bool_decide_eq_false_2 by lia. destruct (negb (read_open p)); [done|].
        do 4 f_equal. lia.
Qed.

(** ** Both ends together *)

(** The pipe with everything written to it and read from it so far, and the
    bytes a sleeping writer still has to write. *)
Record PipeSys := mkPipeSys { ps_pipe : Pipe; ps_written : list Z; ps_read : list Z }.

Inductive pipe_step : PipeSys -> PipeSys -> Prop :=
| step_read p w r dead len res p' :
    PipeReader_read dead len p = Ret (res, p') ->
    pipe_step (mkPipeSys p w r)
      (mkPipeSys p' w (match res with Done (Ok bs) => r ++ bs | _ => r end))
| step_write p w r n buf res p' :
    nwrite p + zlen buf + CAP < 2 ^ 64 ->
    PipeWriter_write n buf p = Ret (res, p') ->
    pipe_step (mkPipeSys p w r)
      (mkPipeSys p' (w ++ take (Z.to_nat (nwrite p' - nwrite p)) buf) r)
| step_close_r p w r c p' :
    PipeReader_close p = Ret (c, p') -> pipe_step (mkPipeSys p w r) (mkPipeSys p' w r)
| step_close_w p w r c p' :
    PipeWriter_close p = Ret (c, p') -> pipe_step (mkPipeSys p w r) (mkPipeSys p' w r).

Definition pipe_inv (y : PipeSys) : Prop :=
  exists q, holds (ps_pipe y) q /\ ps_written y = ps_read y ++ q /\ counters_fit (ps_pipe y).

Lemma pipe_inv_step y y' : pipe_inv y -> pipe_step y y' -> pipe_inv y'.
Proof.
  intros (q & Hh & Hw & Hf) Hs. destruct Hs as [p w r dead len res p' E|p w r n buf res p' Hfit E|p w r c p' E|p w r c p' E]; cbn in *.
  - unfold PipeReader_read in E. rewrite bind_gets in E. cbn [id] in E.
    destruct (negb (readable p)).
    + exists q. destruct dead; injection E as <- <-; done.
    + destruct (read_bytes_run len p q Hh Hf) as (p1 & E1 & Hh1 & Hn1 & _).
      rewrite (bind_run _ _ _ _ _ E1) in E. injection E as <- <-.
      exists (drop len q). cbn. split; [done|]. split; [by rewrite <-app_assoc, take_drop|].
      unfold counters_fit in *. lia.
  - destruct (write_run buf n p q Hh Hfit) as (p1 & k & E1 & Hk & Hh1 & _ & Hn1 & _).
    rewrite E in E1. injection E1 as -> ->. exists (q ++ take k buf). cbn. split; [done|].
    replace (Z.to_nat (nwrite p1 - nwrite p)) with k by lia. split; [by rewrite Hw, app_assoc|].
    unfold counters_fit. unfold zlen in Hfit. lia.
  - injection E as <- <-. exists q. split; [by destruct Hh|done].
  - injection E as <- <-. exists q. split; [by destruct Hh|done].
Qed.

(** C32: Whatever reads, writes and closes happen on a pipe, in any order and
    however often they sleep half way, no byte is lost, duplicated or
    reordered: what has been written is what has been read followed by what
    the ring buffer holds, which is never more than a page; a read of a
    nonempty pipe returns the oldest bytes, as many as fit; and a writer
    sleeps only on a full pipe. *)
Theorem pipe_is_fifo page y :
  zlen page = CAP -> rtc pipe_step (mkPipeSys (Pipe_reset page Pipe_new) [] []) y ->
  exists q, ps_written y = ps_read y ++ q /\ zlen q <= CAP /\
    (forall dead len, q <> [] -> exists p', PipeReader_read dead len (ps_pipe y) = Ret (Done (Ok (take len q)), p')) /\
    (forall n buf res p', nwrite (ps_pipe y) + zlen buf + CAP < 2 ^ 64 ->
       PipeWriter_write n buf (ps_pipe y) = Ret (Sleep res, p') -> nwrite p' - nread p' = CAP).
Proof.
  intros Hp Hr. assert (Hinv : pipe_inv y).
  { revert y Hr. apply (rtc_ind_r (R := pipe_step) pipe_inv).
    - exists []. split; [by apply reset_holds|]. split; [done|]. unfold counters_fit. cbn. done.
    - intros y z _ Hs Hy. by eapply pipe_inv_step. }
  destruct Hinv as (q & Hh & Hw & Hf). exists q. split; [done|]. split; [apply Hh|]. split.
  - intros dead len Hq. destruct (read_bytes_run len (ps_pipe y) q Hh Hf) as (p1 & E1 & _).
    exists p1. unfold PipeReader_read. rewrite bind_gets. cbn [id]. unfold readable.
    rewrite (holds_empty _ _ Hh), bool_decide_eq_false_2 by done. cbn [negb orb].
    by rewrite (bind_run _ _ _ _ _ E1).
  - intros n buf res p' Hfit E. destruct (write_run buf n (ps_pipe y) q Hh Hfit) as (p1 & k & E1 & Hk & Hh1 & Hfull & Hn1 & _).
    rewrite E in E1. case_bool_decide; [done|]. destruct (broken (ps_pipe y)); [done|]. injection E1 as _ ->.
    specialize (Hfull ltac:(done)). rewrite (h_count _ _ Hh1). lia.
Qed.

Lemma pipe_is_fifo_witness :
  exists p1 p2, PipeWriter_write 0 [1; 2; 3] (Pipe_reset page_clear Pipe_new) = Ret (Done (Ok 3), p1) /\
    PipeReader_read false 2 p1 = Ret (Done (Ok [1; 2]), p2).
Proof.
  destruct (write_run [1; 2; 3] 0 (Pipe_reset page_clear Pipe_new) [] (reset_holds page_clear Pipe_new eq_refl) eq_refl)
    as (p1 & k & E1 & Hk & Hh & Hfull & Hn & _).
  assert (k = 3%nat) as ->.
  { destruct (decide (k = 3%nat)); [done|]. specialize (Hfull ltac:(cbn; lia)).
    exfalso. unfold zlen in Hfull. rewrite length_app, length_take in Hfull. cbn in Hfull.
    change CAP with 4096 in Hfull. lia. }
  destruct (pipe_is_fifo page_clear (mkPipeSys p1 [1; 2; 3] [])) as (q & Hq & _ & Hrd & _).
  - reflexivity.
  - eapply rtc_l; [|apply rtc_refl].
    replace [1; 2; 3] with ([] ++ take (Z.to_nat (nwrite p1 - nwrite (Pipe_reset page_clear Pipe_new))) [1; 2; 3])
      by (rewrite Hn; done).
    eapply step_write; [done|exact E1].
  - cbn in Hq. subst q. destruct (Hrd false 2%nat ltac:(done)) as [p2 E2]. exists p1, p2. split; [exact E1|exact E2].
Defined.

(** ** Slabs of pipes

    A slab is a page that holds [SLAB_NPIPES] pipes and a bitmap of those in
    use; the number depends on the size of a pipe's structure and is at most
    64.  Slabs and data pages come from the page allocator. *)
Section slabs.
Context (SLAB_NPIPES : Z).

(** A slab: its bitmap, its pipes, and where the data pages of those in use
    are. *)
Record PipeSlab := mkPipeSlab { bitmap : Z; spipes : gmap Z Pipe; sdata : gmap Z Z }.

Record PipeMem := mkPipeMem { pm_free : FreeList; pm_slabs : gmap Z PipeSlab; pm_cur : option Z }.

Definition kalloc_alloc : M PipeMem (option Z) := fun s =>
  match Kalloc.alloc (pm_free s) with
  | Ret (r, fl) => Ret (r, mkPipeMem fl (pm_slabs s) (pm_cur s))
  | Panic e => Panic e
  | Diverge => Diverge
  end.
Definition kalloc_free (page : Z) : M PipeMem unit := fun s =>
  match Kalloc.free page (pm_free s) with
  | Ret (r, fl) => Ret (r, mkPipeMem fl (pm_slabs s) (pm_cur s))
  | Panic e => Panic e
  | Diverge => Diverge
  end.

(** [u64::trailing_ones]. *)
Fixpoint trailing_ones_from (n : nat) (k x : Z) : Z :=
  match n with
  | O => k
  | S n' => if Z.testbit x k then trailing_ones_from n' (k + 1) x else k
  end.
Definition trailing_ones (x : Z) : Z := trailing_ones_from 64 0 x.

Definition slab_is_empty (sl : PipeSlab) : bool := SLAB_NPIPES <=? trailing_ones (bitmap sl).
Definition slab_is_full (sl : PipeSlab) : bool := bitmap sl =? 0.

(** [PipeSlab::new] on a cleared page. *)
Definition PipeSlab_new : M PipeMem (result Z) :=
  page ← kalloc_alloc;
  match page with
  | None => mret (Err "cannot allocate pipe slab")
  | Some a =>
    modify (fun s => mkPipeMem (pm_free s)
      (<[a := mkPipeSlab 0 (list_to_map ((fun k => (k, Pipe_new)) <$> zrange 0 SLAB_NPIPES)) ∅]> (pm_slabs s))
      (pm_cur s));;
    mret (Ok a)
  end.

Definition slab_at (a : Z) : M PipeMem PipeSlab :=
  s ← gets id; expect (pm_slabs s !! a) "dangling slab".
Definition put_slab (a : Z) (sl : PipeSlab) : M PipeMem unit :=
  modify (fun s => mkPipeMem (pm_free s) (<[a := sl]> (pm_slabs s)) (pm_cur s)).
Definition set_cur (c : option Z) : M PipeMem unit :=
  modify (fun s => mkPipeMem (pm_free s) (pm_slabs s) c).

(** [PipeSlab::alloc]: the index of the pipe taken. *)
Definition PipeSlab_alloc (a : Z) : M PipeMem (option Z) :=
  sl ← slab_at a;
  if slab_is_empty sl then mret None else
  page ← kalloc_alloc;
  match page with
  | None => mret None
  | Some pg =>
    let k := trailing_ones (bitmap sl) in
    put_slab a (mkPipeSlab (Z.lor (bitmap sl) (Z.shiftl 1 k))
                  (<[k := Pipe_reset page_clear Pipe_new]> (spipes sl)) (<[k := pg]> (sdata sl)));;
    mret (Some k)
  end.

(** [PipeSlab::dealloc] of pipe [k], with its data page. *)
Definition PipeSlab_dealloc (a k : Z) : M PipeMem unit :=
  sl ← slab_at a;
  assert_ (k <? SLAB_NPIPES) "assertion failed: k < SLAB_NPIPES";;
  put_slab a (mkPipeSlab (Z.land (bitmap sl) (lnotw 64 (Z.shiftl 1 k))) (spipes sl) (sdata sl));;
  pg ← expect (sdata sl !! k) "null pointer dereference";
  kalloc_free pg.

(** The part of [pipe::alloc] under the lock on [PIPES]: the slab and the
    index of a new pipe. *)
Definition pipe_alloc : M PipeMem (result (Z * Z)) :=
  s ← gets id;
  cur <-? (match pm_cur s with
           | Some a => mret (Ok a)
           | None => a <-? PipeSlab_new ;; set_cur (Some a);; mret (Ok a)
           end) ;;
  set_cur None;;
  sl ← slab_at cur;
  assert_ (negb (slab_is_empty sl)) "assertion failed: !slab.is_empty()";;
  r ← PipeSlab_alloc cur;
  match r with
  | None => mret (Err "pipe allocation failed")
  | Some k =>
    sl' ← slab_at cur;
    modify (fun s => if negb (slab_is_empty sl') then mkPipeMem (pm_free s) (pm_slabs s) (Some cur) else s);;
    mret (Ok (cur, k))
  end.

(** [pipe::dealloc] of pipe [k] of slab [a]. *)
Definition pipe_dealloc (a k : Z) : M PipeMem unit :=
  PipeSlab_dealloc a k;;
  sl ← slab_at a;
  if slab_is_full sl then
    modify (fun s => if bool_decide (pm_cur s = Some a)
                     then mkPipeMem (pm_free s) (pm_slabs s) None else s);;
    kalloc_free a;;
    modify (fun s => mkPipeMem (pm_free s) (delete a (pm_slabs s)) (pm_cur s))
  else set_cur (Some a).

Lemma trailing_ones_from_spec n k x :
  0 <= k -> let r := trailing_ones_from n k x in
  k <= r <= k + Z.of_nat n /\ (forall j, k <= j < r -> Z.testbit x j = true) /\
  (r < k + Z.of_nat n -> Z.testbit x r = false).
Proof.
  revert k. induction n as [|n IH]; intros k Hk; cbn [trailing_ones_from]; [split; [lia|split; intros; lia]|].
  destruct (Z.testbit x k) eqn:E; cbn zeta.
  - destruct (IH (k + 1) ltac:(lia)) as (H1 & H2 & H3). split; [lia|]. split.
    + intros j Hj. destruct (decide (j = k)) as [->|]; [done|]. apply H2. lia.
    + intros Hr. apply H3. lia.
  - split; [lia|]. split; [intros j Hj; lia|done].
Qed.

(** A slab hands out a pipe nobody uses: when [PipeSlab::alloc] succeeds
    the index is below [SLAB_NPIPES], its bit was clear and is now set, and
    no other bit changed; it fails only when every pipe of the slab is in
    use or there is no page for the data, and then changes no slab. *)
Theorem slab_alloc_fresh s a sl :
  0 < SLAB_NPIPES <= 64 -> pm_slabs s !! a = Some sl -> uN 64 (bitmap sl) ->
  match PipeSlab_alloc a s with
  | Ret (Some k, s') => exists sl', pm_slabs s' !! a = Some sl' /\ 0 <= k < SLAB_NPIPES /\
      Z.testbit (bitmap sl) k = false /\
      (forall j, Z.testbit (bitmap sl') j = (Z.testbit (bitmap sl) j || (j =? k))) /\
      uN 64 (bitmap sl')
  | Ret (None, s') => pm_slabs s' = pm_slabs s /\
      ((forall j, 0 <= j < SLAB_NPIPES -> Z.testbit (bitmap sl) j = true) \/
       Kalloc.alloc (pm_free s) = Ret (None, pm_free s'))
  | Panic e => Kalloc.alloc (pm_free s) = Panic e
  | Diverge => False
  end.
Proof.
  intros Hn Hsl Hu. unfold PipeSlab_alloc.
  assert (slab_at a s = Ret (sl, s)) as E by (unfold slab_at; rewrite bind_gets; cbn [id]; by rewrite Hsl).
  rewrite (bind_run _ _ _ _ _ E).
  pose proof (trailing_ones_from_spec 64 0 (bitmap sl) ltac:(lia)) as (H1 & H2 & H3).
  fold (trailing_ones (bitmap sl)) in *. set (k := trailing_ones (bitmap sl)) in *.
  unfold slab_is_empty. fold k. clearbody k. destruct (Z.leb_spec SLAB_NPIPES k) as [He|He].
  - split; [done|]. left. intros j Hj. apply H2. lia.
  - unfold kalloc_alloc, mbind, M_bind, Kalloc.alloc.
    destruct (Kalloc.get (pm_free s)) as [[[pg|] fl]|e|] eqn:Eg.
    + eexists. cbn. split; [apply lookup_insert_eq|]. split; [lia|]. split; [apply H3; lia|].
      cbn. rewrite Z.shiftl_1_l. split; [intros j; apply lor_pow2_spec; lia|].
      apply bits_bound; [lia|apply Z.lor_nonneg; split; [apply Hu|apply Z.pow_nonneg; lia]|].
      intros j Hj. rewrite lor_pow2_spec by lia. rewrite (uN_testbit_high 64) by (done || lia).
      apply Z.eqb_neq. lia.
    + split; [done|]. by right.
    + done.
    + unfold Kalloc.get in Eg. destruct (next (pm_free s)); [|done]. by destruct (pages (pm_free s) !! z).
Qed.
End slabs.

Lemma slab_alloc_fresh_witness :
  exists s k s', PipeSlab_alloc 25 8192 s = Ret (Some k, s') /\ k = 2.
Proof.
  set (s := mkPipeMem (mkFreeList (Some 4096) {[4096 := page_clear]}) {[8192 := mkPipeSlab 11 ∅ ∅]} None).
  pose proof (slab_alloc_fresh 25 s 8192 (mkPipeSlab 11 ∅ ∅) ltac:(lia) eq_refl ltac:(split; [cbn; lia|done])) as H.
  destruct (PipeSlab_alloc 25 8192 s) as [[[k|] s']|e|] eqn:E.
  - exists s, k, s'. split; [exact E|]. destruct H as (_ & _ & Hk & Hf & _).
    vm_compute in E. congruence.
  - exfalso. vm_compute in E. discriminate.
  - exfalso. vm_compute in E. discriminate.
  - exfalso. exact H.
Defined.
