(* ===== verification/FileTable.v ===== *)
(** The table of open files, [file.rs]: allocation, reference counts, and the
    dispatch of reads and writes on the open mode. *)
From stdpp Require Import base list gmap strings relations.
From Stdlib Require Import ZArith Lia.
From S2P Require Import Prelude.
From S2P Require Import Arch.

Inductive OpenFlags := OfNone | OfRead | OfWrite | OfReadWrite.
#[export] Instance OpenFlags_eq_dec : EqDecision OpenFlags.
Proof. solve_decision. Defined.

Section files.
(** [L] are the objects behind an open file, the [&'static dyn Like]. *)
Context {L : Type}.

Record File := mkFile { f_flags : OpenFlags; f_fp : option L; f_off : Z; f_ref : Z }.
Definition File_new : File := mkFile OfNone None 0 0.

Notation FM := (M (list File)).

Definition file_at (k : Z) : FM File := fs ← gets id; expect fs.[k] "dangling file".
Definition upd_file (k : Z) (f : File -> File) : FM unit :=
  x ← file_at k; modify (fun fs => fs.[k <- f x]).

Definition readable (f : File) : bool :=
  bool_decide (f_flags f = OfRead) || bool_decide (f_flags f = OfReadWrite).
Definition writable (f : File) : bool :=
  bool_decide (f_flags f = OfWrite) || bool_decide (f_flags f = OfReadWrite).

Definition inc_off (inc : Z) (k : Z) : FM unit :=
  f ← file_at k;
  o ← lift (add_ovf 64 (f_off f) inc);
  upd_file k (fun f => mkFile (f_flags f) (f_fp f) o (f_ref f)).

(** [file::alloc]. *)
Definition alloc (flags : OpenFlags) (fp : L) : FM (option Z) :=
  fs ← gets id;
  match position (fun f => f_ref f =? 0) fs with
  | Some k =>
    upd_file (Z.of_nat k) (fun f => mkFile flags (Some fp) (f_off f) (f_ref f + 1));;
    mret (Some (Z.of_nat k))
  | None => mret None
  end.

Definition dup (k : Z) : FM Z :=
  f ← file_at k;
  r ← lift (add_ovf 32 (f_ref f) 1);
  upd_file k (fun f => mkFile (f_flags f) (f_fp f) (f_off f) r);;
  mret k.

(** [File::close]: the object to close, if this was the last reference. *)
Definition close (k : Z) : FM (option L) :=
  f ← file_at k;
  assert_ (0 <? f_ref f) "closing unref file";;
  upd_file k (fun f => mkFile (f_flags f) (f_fp f) (f_off f) (f_ref f - 1));;
  if 0 <? f_ref f - 1 then mret None else
  fp ← expect (f_fp f) "close nil file";
  upd_file k (fun f => mkFile OfNone None 0 (f_ref f));;
  mret (Some fp).

(** [File::read] and [File::write], with the object's own operation. *)
Definition read {A} (k : Z) (op : L -> FM (result A)) : FM (result A) :=
  f ← file_at k;
  if negb (readable f) then mret (Err "file not readable") else
  fp ← expect (f_fp f) "read nil file";
  op fp.
Definition write {A} (k : Z) (op : L -> FM (result A)) : FM (result A) :=
  f ← file_at k;
  if negb (writable f) then mret (Err "file not writable") else
  fp ← expect (f_fp f) "write nil file";
  op fp.

(** ** Reference counting against the handles that exist *)

(** The table with the multiset of handles processes hold, as counts. *)
Inductive step : list File * (Z -> Z) -> list File * (Z -> Z) -> Prop :=
| step_alloc fs h flags fp k fs' :
    alloc flags fp fs = Ret (Some k, fs') ->
    step (fs, h) (fs', fun j => if j =? k then h k + 1 else h j)
| step_dup fs h k fs' :
    0 < h k -> dup k fs = Ret (k, fs') ->
    step (fs, h) (fs', fun j => if j =? k then h k + 1 else h j)
| step_close fs h k r fs' :
    0 < h k -> close k fs = Ret (r, fs') ->
    step (fs, h) (fs', fun j => if j =? k then h k - 1 else h j).

(** Counts are the numbers of handles; a file in use has an object, an unused
    one is reset. *)
Definition file_ok (f : File) (n : Z) : Prop :=
  f_ref f = n /\ 0 <= n /\
  (0 < n -> is_Some (f_fp f)) /\ (n = 0 -> f = mkFile OfNone None 0 0).
Definition table_ok (st : list File * (Z -> Z)) : Prop :=
  forall k f, st.1.[k] = Some f -> file_ok f (st.2 k).

Lemma file_at_run fs k f : fs.[k] = Some f -> file_at k fs = Ret (f, fs).
Proof. intros E. unfold file_at. rewrite bind_gets. cbn [id]. by rewrite E. Qed.

Lemma upd_file_run fs k f g : fs.[k] = Some f -> upd_file k g fs = Ret (tt, fs.[k <- g f]).
Proof. intros E. unfold upd_file. by rewrite (bind_run _ _ _ _ _ (file_at_run _ _ _ E)). Qed.

Lemma file_at_inv fs k f fs' : file_at k fs = Ret (f, fs') -> fs.[k] = Some f /\ fs' = fs.
Proof. unfold file_at. rewrite bind_gets. cbn [id]. destruct fs.[k]; [|done]. by intros [= -> ->]. Qed.

Lemma table_ok_set fs h k f n :
  table_ok (fs, h) -> file_ok f n -> table_ok (fs.[k <- f], fun j => if j =? k then n else h j).
Proof.
  intros Ht Hf j x Hj. cbn in *. destruct (decide (0 <= k < zlen fs)) as [Hk|Hk].
  - rewrite znth_zset in Hj by done. case_decide; simplify_eq.
    + by rewrite Z.eqb_refl.
    + rewrite (proj2 (Z.eqb_neq j k)) by done. by apply Ht.
  - assert (fs.[k <- f] = fs) as E.
    { unfold zset. destruct ((0 <=? k) && (k <? zlen fs)) eqn:E; [|done]. bool_to_prop. lia. }
    rewrite E in Hj. pose proof (znth_range _ _ _ Hj). rewrite (proj2 (Z.eqb_neq j k)) by lia. by apply Ht.
Qed.

Lemma alloc_spec fs flags fp :
  (exists k f, fs.[k] = Some f /\ f_ref f = 0 /\
     alloc flags fp fs = Ret (Some k, fs.[k <- mkFile flags (Some fp) (f_off f) (f_ref f + 1)])) \/
  ((forall k f, fs.[k] = Some f -> f_ref f <> 0) /\ alloc flags fp fs = Ret (None, fs)).
Proof.
  unfold alloc. rewrite bind_gets. cbn [id].
  destruct (position (fun f => f_ref f =? 0) fs) as [n|] eqn:E.
  - left. apply position_Some in E as [(f & Hf & Hr) _]. apply Z.eqb_eq in Hr.
    rewrite <-znth_of_nat in Hf. exists (Z.of_nat n), f. split; [done|]. split; [done|].
    by rewrite (bind_run _ _ _ _ _ (upd_file_run _ _ _ _ Hf)).
  - right. split; [|done]. intros k f Hk Hr. apply position_None in E. rewrite Forall_lookup in E.
    apply znth_Some in Hk as [_ Hk]. specialize (E _ _ Hk). cbn in E. lia.
Qed.

Lemma close_spec fs k f :
  fs.[k] = Some f -> 0 < f_ref f -> is_Some (f_fp f) ->
  close k fs = if f_ref f =? 1 then Ret (f_fp f, fs.[k <- mkFile OfNone None 0 0])
               else Ret (None, fs.[k <- mkFile (f_flags f) (f_fp f) (f_off f) (f_ref f - 1)]).
Proof.
  intros Hk Hr [fp Hfp]. pose proof (znth_range _ _ _ Hk) as Hkr. unfold close.
  rewrite (bind_run _ _ _ _ _ (file_at_run _ _ _ Hk)), bind_assert by lia.
  rewrite (bind_run _ _ _ _ _ (upd_file_run _ _ _ _ Hk)).
  destruct (Z.eqb_spec (f_ref f) 1) as [H1|H1].
  - rewrite H1. change (0 <? 1 - 1) with false. cbv iota. rewrite Hfp. cbn [expect]. rewrite bind_mret.
    erewrite bind_run by (apply upd_file_run, znth_zset_eq; done). cbn [f_ref]. by rewrite zset_zset.
  - rewrite (proj2 (Z.ltb_lt 0 (f_ref f - 1))) by lia. done.
Qed.

Lemma table_step st st' : table_ok st -> step st st' -> table_ok st'.
Proof.
  intros Ht Hs. destruct Hs as [fs h flags fp k fs' E|fs h k fs' Hh E|fs h k r fs' Hh E].
  - destruct (alloc_spec fs flags fp) as [(k' & f & Hk & Hr & E')|[_ E']]; rewrite E in E'; [|done].
    injection E' as -> ->. destruct (Ht _ _ Hk) as (Hc & _ & _ & _). cbn in Hc.
    apply table_ok_set; [done|]. rewrite <-Hc, Hr. repeat split; cbn; try lia. done.
  - unfold dup in E. destruct fs.[k] as [f|] eqn:Hk.
    2:{ unfold file_at in E. unfold mbind, M_bind, gets in E. cbn in E. by rewrite Hk in E. }
    destruct (Ht _ _ Hk) as (Hc & Hn & Hfp & _). cbn in Hc, Hn, Hfp.
    rewrite (bind_run _ _ _ _ _ (file_at_run _ _ _ Hk)) in E. unfold add_ovf in E.
    destruct (f_ref f + 1 <? 2 ^ 32); [|done]. rewrite (bind_lift _ _ _ (f_ref f + 1)) in E by done.
    rewrite (bind_run _ _ _ _ _ (upd_file_run _ _ _ _ Hk)) in E. injection E as <-.
    apply table_ok_set; [done|]. repeat split; cbn; try lia. intros _. by apply Hfp.
  - destruct fs.[k] as [f|] eqn:Hk.
    2:{ unfold close, file_at in E. unfold mbind, M_bind, gets in E. cbn in E. by rewrite Hk in E. }
    destruct (Ht _ _ Hk) as (Hc & Hn & Hfp & _). cbn in Hc, Hn, Hfp.
    rewrite (close_spec fs k f Hk) in E by (try lia; by apply Hfp).
    destruct (Z.eqb_spec (f_ref f) 1) as [H1|H1]; injection E as _ <-; apply table_ok_set; try done.
    + repeat split; cbn; lia.
    + repeat split; cbn; try lia. intros _. by apply Hfp.
Qed.

Definition empty_table (n : nat) : list File * (Z -> Z) := (replicate n File_new, fun _ => 0).

(** Over any sequence of opens, dups and closes by holders of handles,
    each file's count is the number of handles to it: a new file is never
    one that is still open, and closing a handle closes the object behind
    the file exactly when it was the last handle, after which the entry is
    as new; otherwise the file stays open with its object and offset. *)
Theorem files_counted n fs h :
  rtc step (empty_table n) (fs, h) ->
  (forall flags fp k fs', alloc flags fp fs = Ret (Some k, fs') -> h k = 0) /\
  (forall k f, fs.[k] = Some f -> 0 < h k ->
     exists fp, f_fp f = Some fp /\
     close k fs = if h k =? 1 then Ret (Some fp, fs.[k <- File_new])
                  else Ret (None, fs.[k <- mkFile (f_flags f) (Some fp) (f_off f) (h k - 1)])).
Proof.
  intros Hr. assert (Ht : table_ok (fs, h)).
  { revert Hr. generalize (fs, h). apply (rtc_ind_r (R := step) table_ok).
    - intros k f Hk. cbn in *. apply znth_Some in Hk as [_ Hk]. apply lookup_replicate in Hk as [-> _].
      repeat split; cbn; lia.
    - intros y z _ Hs Hy. by eapply table_step. }
  split.
  - intros flags fp k fs' E. destruct (alloc_spec fs flags fp) as [(k' & f & Hk & Hz & E')|[_ E']]; rewrite E in E'; [|done].
    injection E' as -> _. destruct (Ht _ _ Hk) as (Hc & _). cbn in Hc. lia.
  - intros k f Hk Hh. destruct (Ht _ _ Hk) as (Hc & _ & Hfp & _). cbn in Hc, Hfp.
    destruct (Hfp Hh) as [fp E]. exists fp. split; [done|].
    rewrite (close_spec fs k f Hk) by (rewrite ?Hc, ?E; done). rewrite Hc, E. done.
Qed.
End files.

Lemma files_counted_witness :
  exists fs, rtc step (empty_table (L := Z) 3) (fs, fun j => if j =? 0 then (0 + 1) else 0) /\
    close 0 fs = Ret (Some 7, fs.[0 <- File_new]).
Proof.
  set (fs := (replicate 3 File_new).[0 <- mkFile OfRead (Some 7) 0 1] : list (@File Z)).
  assert (Hr : rtc step (empty_table (L := Z) 3) (fs, fun j => if j =? 0 then (0 + 1) else 0)).
  { eapply rtc_l; [|apply rtc_refl]. apply (step_alloc _ (fun _ => 0) OfRead 7 0). reflexivity. }
  exists fs. split; [exact Hr|].
  destruct (files_counted 3 fs _ Hr) as [_ H]. destruct (H 0 _ eq_refl ltac:(done)) as (fp & [= <-] & E). exact E.
Defined.
