(* ===== verification/Proc.v ===== *)
(** Processes, [proc.rs]: the process table and the operations on it, each an
    atomic section under the table's lock; descriptors; and the checks on
    user addresses. *)
From stdpp Require Import base list gmap strings.
From Stdlib Require Import ZArith Lia.
From S2P Require Import Prelude.
From S2P Require Import Arch.

Inductive ProcState :=
| UNUSED | EMBRYO | SLEEPING (chan : Z) | RUNNABLE | RUNNING | ZOMBIE (status : Z).
#[export] Instance ProcState_eq_dec : EqDecision ProcState.
Proof. solve_decision. Defined.

Section proc.
(** Page tables are values of another component; a process's slot [k] lies at
    the address [proc_addr k], which also names the channel it waits on. *)
Context {PT : Type} (proc_addr : Z -> Z).

Record Proc := mkProc {
  state : ProcState; pid : Z; parent : option Z; killed : bool;
  pgtbl : option PT; kstack : option Z; name : list Z; psize : Z;
  files : list (option Z); cwd : option Z }.

Definition Proc_new : Proc :=
  mkProc UNUSED 0 None false None None (zrep 16 0) 0 (zrep NOFILE None) None.

Definition set_state (s : ProcState) (p : Proc) : Proc :=
  mkProc s (pid p) (parent p) (killed p) (pgtbl p) (kstack p) (name p) (psize p) (files p) (cwd p).
Definition set_parent (a : Z) (p : Proc) : Proc :=
  mkProc (state p) (pid p) (Some a) (killed p) (pgtbl p) (kstack p) (name p) (psize p) (files p) (cwd p).
Definition set_killed (b : bool) (p : Proc) : Proc :=
  mkProc (state p) (pid p) (parent p) b (pgtbl p) (kstack p) (name p) (psize p) (files p) (cwd p).

(** [Proc::parent] and [Proc::initialized]. *)
Definition parent_of (p : Proc) : Z := default 0 (parent p).
Definition initialized (p : Proc) : bool :=
  negb (bool_decide (state p = UNUSED)) && negb (bool_decide (state p = EMBRYO)).
Definition is_zombie (p : Proc) : bool := match state p with ZOMBIE _ => true | _ => false end.
Definition is_sleeping (p : Proc) : bool := match state p with SLEEPING _ => true | _ => false end.

(** [PerProc::set_name]. *)
Definition set_name (old new : list Z) : list Z :=
  let len := Z.min (zlen new) (zlen old) in zsplice old 0 (take (Z.to_nat len) new).

(** The table, the next pid, and the slot of init, negative before [init]. *)
Record Table := mkTable { procs : list Proc; next : Z; init_slot : Z }.
Definition put_procs (ps : list Proc) (t : Table) : Table := mkTable ps (next t) (init_slot t).

Definition Table_new : Table := mkTable (zrep NPROC Proc_new) 1 (-1).

Notation T := (M Table).

(** ** Sleep and wakeup *)
Definition wakeup1 (chan : Z) (ps : list Proc) : list Proc :=
  (fun p => if bool_decide (state p = SLEEPING chan) then set_state RUNNABLE p else p) <$> ps.

Definition wakeup (chan : Z) : T unit := modify (fun t => put_procs (wakeup1 chan (procs t)) t).

Definition proc_at (k : Z) : T Proc := t ← gets id; expect (procs t).[k] "index out of bounds".
Definition upd_proc (k : Z) (f : Proc -> Proc) : T unit :=
  p ← proc_at k; modify (fun t => put_procs (procs t).[k <- f p] t).

(** What [sleep], [sched_yield] and the scheduler's choice do to the table; the
    locks and the checks of the switch are in [Sched]. *)
Definition sleep (me chan : Z) : T unit := upd_proc me (set_state (SLEEPING chan)).
Definition sched_yield (me : Z) : T unit := upd_proc me (set_state RUNNABLE).
Definition run (k : Z) : T unit :=
  p ← proc_at k;
  assert_ (bool_decide (state p = RUNNABLE)) "not runnable";;
  upd_proc k (set_state RUNNING).

(** ** Creation *)
Definition next_pid : T Z :=
  t ← gets id;
  modify (fun t => mkTable (procs t) (wrap 32 (next t + 1)) (init_slot t));;
  mret (next t).

(** [alloc]: [stack] is the page the page allocator gave; [thunk] completes
    the process.  The second component of the results is the page given back
    to the page allocator. *)
Definition init_proc (np stk n : Z) : T unit :=
  upd_proc np (fun p => mkProc EMBRYO n (parent p) (killed p) (pgtbl p) (Some stk)
                          (name p) (psize p) (files p) (cwd p)).

Definition alloc (stack : option Z) (thunk : Z -> T (option unit * option Z)) : T (option Z * option Z) :=
  match stack with
  | None => mret (None, None)
  | Some stk =>
    t ← gets id;
    match position (fun p => bool_decide (state p = UNUSED)) (procs t) with
    | None => mret (None, Some stk)
    | Some k =>
      n ← next_pid;
      init_proc (Z.of_nat k) stk n;;
      r ← thunk (Z.of_nat k);
      mret (match fst r with Some _ => Some n | None => None end, snd r)
    end
  end.

(** [init]'s process: its own parent, with one page of code. *)
Definition init_thunk (pt : PT) (np : Z) : T (option unit * option Z) :=
  upd_proc np (fun p => mkProc RUNNABLE (pid p) (Some (proc_addr np)) (killed p) (Some pt) (kstack p)
                          (set_name (name p) [105; 110; 105; 116]) PAGE_SIZE (files p) (cwd p));;
  modify (fun t => mkTable (procs t) (next t) np);;
  mret (Some tt, None).

Definition init (stack : option Z) (pt : PT) : T unit :=
  r ← alloc stack (init_thunk pt);
  expect (fst r) "allocating init proc failed";;
  mret tt.

(** [fork] in process [me]; [dup_pgtbl] is what duplicating its page table
    gave. *)
Definition fork_thunk (me : Z) (dup_pgtbl : option PT) (np : Z) : T (option unit * option Z) :=
  self ← proc_at me;
  match dup_pgtbl with
  | None =>
    p ← proc_at np;
    stk ← expect (kstack p) "called `Option::unwrap()` on a `None` value";
    upd_proc np (fun p => mkProc UNUSED (pid p) (parent p) (killed p) (pgtbl p) None
                            (name p) (psize p) (files p) (cwd p));;
    mret (None, Some stk)
  | Some pt =>
    c ← expect (cwd self) "proc with no pwd";
    upd_proc np (fun p => mkProc RUNNABLE (pid p) (Some (proc_addr me)) (killed p) (Some pt) (kstack p)
                            (set_name (name p) (name self)) (psize self) (files self) (Some c));;
    mret (Some tt, None)
  end.

Definition fork (me : Z) (stack : option Z) (dup_pgtbl : option PT) : T (option Z * option Z) :=
  alloc stack (fork_thunk me dup_pgtbl).

(** ** Exit and wait *)

(** The loop of [exit]: pass the children of [me] to init, waking it for a
    zombie. *)
Fixpoint reparent (me : Z) (ks : list Z) : T unit :=
  match ks with
  | [] => mret tt
  | k :: ks' =>
    p ← proc_at k;
    (if initialized p && (parent_of p =? proc_addr me) then
       t ← gets id;
       upd_proc k (set_parent (proc_addr (init_slot t)));;
       if is_zombie p then wakeup (proc_addr (init_slot t)) else mret tt
     else mret tt);;
    reparent me ks'
  end.

(** [exit] from taking the table's lock to the switch, whose checks are in
    [Sched]. *)
Definition exit_locked (me status : Z) : T unit :=
  self ← proc_at me;
  wakeup (parent_of self);;
  t ← gets id;
  reparent me (zrange 0 (zlen (procs t)));;
  upd_proc me (set_state (ZOMBIE status)).

(** The process without its files and its directory. *)
Definition exit_take (p : Proc) : Proc :=
  mkProc (state p) (pid p) (parent p) (killed p) (pgtbl p) (kstack p) (name p) (psize p) ((fun _ => None) <$> files p) None.

(** What [exit] as a whole does to the table.  The result is the files and the
    directory it takes from the process, which [Sysfile.exit] closes and puts
    back before the lock is taken. *)
Definition exit_table (me status : Z) : T (list Z * Z) :=
  t ← gets id;
  assert_ (0 <=? init_slot t) "assertion failed: INIT_PROC";;
  assert_ (negb (me =? init_slot t)) "init exiting";;
  self ← proc_at me;
  wd ← expect (cwd self) "called `Option::unwrap()` on a `None` value";
  upd_proc me exit_take;;
  exit_locked me status;;
  mret (omap id (files self), wd).

Inductive waited := Reaped (pid status : Z) (stk : Z) (pt : PT) | NoKids | MustSleep.

Definition is_kid (me : Z) (p : Proc) : bool := initialized p && (parent_of p =? proc_addr me).

(** One pass of [wait1] under the table's lock: it reaps the first zombie child, or gives up, or
    goes to sleep on its own channel. *)
Definition wait1 (me : Z) : T waited :=
  t ← gets id;
  match position (fun p => is_kid me p && is_zombie p) (procs t) with
  | Some k =>
    p ← proc_at (Z.of_nat k);
    stk ← expect (kstack p) "stackless zombie";
    pt ← expect (pgtbl p) "stranded zombie";
    upd_proc (Z.of_nat k) (fun p => mkProc UNUSED 0 None false None None (zrep 16 0) 0 (files p) (cwd p));;
    mret (Reaped (pid p) (match state p with ZOMBIE st => st | _ => 0 end) stk pt)
  | None =>
    self ← proc_at me;
    if negb (existsb (is_kid me) (procs t)) || killed self then mret NoKids
    else sleep me (proc_addr me);; mret MustSleep
  end.

(** [wait]'s test before it stores the status at user address [a]. *)
Definition wait_stores_status (a : Z) : bool := a =? 0.

Definition kill (n : Z) : T (option Z) :=
  t ← gets id;
  match position (fun p => pid p =? n) (procs t) with
  | Some k =>
    upd_proc (Z.of_nat k) (fun p =>
      let p' := set_killed true p in if is_sleeping p' then set_state RUNNABLE p' else p');;
    mret (Some n)
  | None => mret None
  end.

(** [set_cwd], and [switch_pgtbl] and [set_size] as [exec] uses them together;
    [exec] leaves the name as it is. *)
Definition set_cwd (ip : Z) (p : Proc) : Proc :=
  mkProc (state p) (pid p) (parent p) (killed p) (pgtbl p) (kstack p) (name p) (psize p) (files p) (Some ip).
Definition exec_image (pt : PT) (size : Z) (p : Proc) : Proc :=
  mkProc (state p) (pid p) (parent p) (killed p) (Some pt) (kstack p) (name p) size (files p) (cwd p).

(** ** Descriptors *)
Definition get_fd (fd : Z) (p : Proc) : option Z :=
  if zlen (files p) <=? fd then None else mjoin (files p).[fd].
Definition set_files (fs : list (option Z)) (p : Proc) : Proc :=
  mkProc (state p) (pid p) (parent p) (killed p) (pgtbl p) (kstack p) (name p) (psize p) fs (cwd p).
Definition alloc_fd (f : Z) (p : Proc) : option Z * Proc :=
  match position (fun e => bool_decide (e = None)) (files p) with
  | Some k => (Some (Z.of_nat k), set_files (files p).[Z.of_nat k <- Some f] p)
  | None => (None, p)
  end.
Definition free_fd (fd : Z) (p : Proc) : option Z * Proc :=
  if zlen (files p) <=? fd then (None, p)
  else (mjoin (files p).[fd], set_files (files p).[fd <- None] p).

(** ** User memory *)
Definition is_user_addr (p : Proc) (va : Z) : bool :=
  (va <? psize p) || ((USERSTACK <=? va) && (va <? USEREND)).
Definition user_region_end (p : Proc) (va : Z) : option Z :=
  if is_user_addr p va then Some (if va <? psize p then psize p else USEREND) else None.

(** [fetch_slice] and [fetch_ptr_mut] as the range they admit; a length that
    overflows the multiplication panics. *)
Definition fetch_slice (p : Proc) (off len : Z) : option (Z * Z) :=
  match user_region_end p off with
  | None => None
  | Some rend => if rend - off <? len then None else Some (off, off + len)
  end.
Definition fetch_ptr_mut (p : Proc) (elt off len : Z) : outcome (option Z) :=
  match user_region_end p off with
  | None => Ret None
  | Some rend =>
    if 2 ^ 64 <=? len * elt then Panic "attempt to multiply with overflow"
    else Ret (if rend - off <? len * elt then None else Some off)
  end.
Definition fetch_usize (p : Proc) (mem : Z -> Z) (off : Z) : option Z :=
  match user_region_end p off with
  | None => None
  | Some rend =>
    if rend - off <? 8 then None
    else Some (from_le ((fun k => mem (off + k)) <$> zrange 0 8))
  end.
Definition fetch_str (p : Proc) (mem : Z -> Z) (off : Z) : option (list Z) :=
  match user_region_end p off with
  | None => None
  | Some rend =>
    let bytes := (fun k => mem (off + k)) <$> zrange 0 (rend - off) in
    match position (fun b => b =? 0) bytes with
    | Some pos => Some (take pos bytes)
    | None => None
    end
  end.

(** [adjsize] by a signed [delta], with the results of resizing the page
    table. *)
Definition adjsize (p : Proc) (delta : Z) (vm : Z -> Z -> result unit) : result Z * Proc :=
  let old_size := psize p in
  let new_size := wrap 64 (old_size + delta) in
  if (delta <? 0) && (old_size <? new_size) then (Err "grow: underflow", p)
  else if negb (delta <? 0) && (new_size <? old_size) then (Err "grow: overflow", p)
  else match vm old_size new_size with
       | Err e => (Err e, p)
       | Ok _ => (Ok old_size,
                  mkProc (state p) (pid p) (parent p) (killed p) (pgtbl p) (kstack p) (name p)
                    new_size (files p) (cwd p))
       end.
End proc.
Arguments Proc : clear implicits.
Arguments Table : clear implicits.
