(* ===== verification/ProcSpec.v ===== *)
(** The process table as a concurrent system: processors that run processes,
    and the steps processes take on the table.  The invariant says that a
    process runs on at most one processor, that a zombie keeps what [wait]
    takes from it, that every process has a living parent, and that no
    parent sleeps in [wait] while a child of it is a zombie. *)
From stdpp Require Import base list gmap strings relations.
From Stdlib Require Import ZArith Lia.
From S2P Require Import Prelude.
From S2P Require Import Arch.
From S2P Require Import Proc.

Section spec.
Context {PT : Type} (proc_addr : Z -> Z).
Hypothesis addr_inj : forall j k, proc_addr j = proc_addr k -> j = k.

Implicit Types (t : Table PT) (p q : Proc PT) (cpus : list (option Z)).

Record Sys := mkSys { tab : Table PT; cpus : list (option Z) }.

(** What a process changes in its own slot outside the table's lock: its
    directory, descriptors, size, name and page table. *)
Definition private (f : Proc PT -> Proc PT) : Prop := forall p,
  state (f p) = state p /\ parent (f p) = parent p /\ kstack (f p) = kstack p /\
  (is_Some (pgtbl p) -> is_Some (pgtbl (f p))) /\ (is_Some (cwd p) -> is_Some (cwd (f p))).

Inductive step : Sys -> Sys -> Prop :=
| s_run t cs c k t' :
    cs.[c] = Some None -> run k t = Ret (tt, t') -> step (mkSys t cs) (mkSys t' cs.[c <- Some k])
| s_yield t cs c k t' :
    cs.[c] = Some (Some k) -> sched_yield k t = Ret (tt, t') ->
    step (mkSys t cs) (mkSys t' cs.[c <- None])
| s_sleep t cs c k chan t' :
    cs.[c] = Some (Some k) -> (forall j, chan <> proc_addr j) -> sleep k chan t = Ret (tt, t') ->
    step (mkSys t cs) (mkSys t' cs.[c <- None])
| s_exit t cs c k status r t' :
    cs.[c] = Some (Some k) -> exit_table proc_addr k status t = Ret (r, t') ->
    step (mkSys t cs) (mkSys t' cs.[c <- None])
| s_wait t cs c k r t' :
    cs.[c] = Some (Some k) -> wait1 proc_addr k t = Ret (r, t') -> r <> MustSleep ->
    step (mkSys t cs) (mkSys t' cs)
| s_wait_sleep t cs c k t' :
    cs.[c] = Some (Some k) -> wait1 proc_addr k t = Ret (MustSleep, t') ->
    step (mkSys t cs) (mkSys t' cs.[c <- None])
| s_fork t cs c k stk pt r t' :
    cs.[c] = Some (Some k) -> fork proc_addr k stk pt t = Ret (r, t') ->
    step (mkSys t cs) (mkSys t' cs)
| s_private t cs c k f t' :
    cs.[c] = Some (Some k) -> private f -> upd_proc k f t = Ret (tt, t') ->
    step (mkSys t cs) (mkSys t' cs)
| s_kill t cs n r t' : kill n t = Ret (r, t') -> step (mkSys t cs) (mkSys t' cs)
| s_wakeup t cs chan t' : wakeup chan t = Ret (tt, t') -> step (mkSys t cs) (mkSys t' cs).

(** ** The invariant *)
Record table_inv (t : Table PT) : Prop := {
  ti_embryo : forall k p, (procs t).[k] = Some p -> state p <> EMBRYO;
  ti_res : forall k p, (procs t).[k] = Some p -> initialized p = true ->
    is_Some (kstack p) /\ is_Some (pgtbl p);
  ti_parent : forall k p, (procs t).[k] = Some p -> initialized p = true ->
    exists j q, parent p = Some (proc_addr j) /\ (procs t).[j] = Some q /\
      initialized q = true /\ is_zombie q = false;
  ti_wake : forall k p j q, (procs t).[k] = Some p -> is_zombie p = true ->
    parent p = Some (proc_addr j) -> (procs t).[j] = Some q -> state q <> SLEEPING (proc_addr j);
  ti_self : forall k p, (procs t).[k] = Some p -> initialized p = true ->
    parent p = Some (proc_addr k) -> k = init_slot t;
  ti_init : exists p, (procs t).[init_slot t] = Some p /\ initialized p = true /\ is_zombie p = false /\
    parent p = Some (proc_addr (init_slot t)) }.

(** A live process other than init has a current directory. *)
Definition cwd_inv (t : Table PT) : Prop := forall k p,
  (procs t).[k] = Some p -> initialized p = true -> is_zombie p = false -> k <> init_slot t -> is_Some (cwd p).

Definition running (t : Table PT) (k : Z) : Prop := state <$> (procs t).[k] = Some RUNNING.

Record cpu_inv (t : Table PT) (cs : list (option Z)) : Prop := {
  ci_run : forall c k, cs.[c] = Some (Some k) -> running t k;
  ci_inj : forall c c' k, cs.[c] = Some (Some k) -> cs.[c'] = Some (Some k) -> c = c';
  ci_cpu : forall k, running t k -> exists c, cs.[c] = Some (Some k) }.

(** ** Effects of the operations on the table *)
Lemma proc_at_run t k p : (procs t).[k] = Some p -> proc_at k t = Ret (p, t).
Proof. intros E. unfold proc_at. rewrite bind_gets. cbn [id]. by rewrite E. Qed.

Lemma upd_proc_run t k p f :
  (procs t).[k] = Some p -> upd_proc k f t = Ret (tt, put_procs (procs t).[k <- f p] t).
Proof. intros E. unfold upd_proc. by rewrite (bind_run _ _ _ _ _ (proc_at_run _ _ _ E)). Qed.

Lemma upd_proc_inv t k f t' :
  upd_proc k f t = Ret (tt, t') -> exists p, (procs t).[k] = Some p /\ t' = put_procs (procs t).[k <- f p] t.
Proof.
  destruct (procs t).[k] as [p|] eqn:E.
  - rewrite (upd_proc_run _ _ _ _ E). intros [= <-]. eauto.
  - unfold upd_proc, proc_at, mbind, M_bind, gets. cbn. by rewrite E.
Qed.

(** A step that only moves live processes between running, runnable and
    asleep, and lets nobody fall asleep on a zombie child. *)
Definition tame1 (t : Table PT) (k : Z) (p p' : Proc PT) : Prop :=
  parent p' = parent p /\ kstack p' = kstack p /\ (is_Some (pgtbl p) -> is_Some (pgtbl p')) /\
  (is_Some (cwd p) -> is_Some (cwd p')) /\
  initialized p' = initialized p /\ is_zombie p' = is_zombie p /\ state p' <> EMBRYO /\
  (state p' = SLEEPING (proc_addr k) -> state p = SLEEPING (proc_addr k) \/
     forall j q, (procs t).[j] = Some q -> is_zombie q = true -> parent q <> Some (proc_addr k)).

Definition tame (t t' : Table PT) : Prop :=
  init_slot t' = init_slot t /\
  (forall k p', (procs t').[k] = Some p' -> exists p, (procs t).[k] = Some p /\ tame1 t k p p') /\
  (forall k p, (procs t).[k] = Some p -> exists p', (procs t').[k] = Some p').

Lemma tame_cwd t t' : tame t t' -> cwd_inv t -> cwd_inv t'.
Proof.
  intros (Hi & Hback & _) Hc k p' Hk Hin Hz Hne.
  destruct (Hback _ _ Hk) as (p & Hkp & _ & _ & _ & H1 & H2 & H3 & _).
  rewrite H2 in Hin. rewrite H3 in Hz. rewrite Hi in Hne. eauto.
Qed.

Lemma tame_inv t t' : tame t t' -> table_inv t -> table_inv t'.
Proof.
  intros (Hi & Hback & Hfwd) [He Hr Hp Hw Hself (pi & Hpi & Hini & Hzi & Hpai)]. split.
  - intros k p' Hk. destruct (Hback _ _ Hk) as (p & _ & _ & _ & _ & _ & _ & _ & H & _). done.
  - intros k p' Hk Hin. destruct (Hback _ _ Hk) as (p & Hkp & _ & -> & Hpt & _ & H & _). rewrite H in Hin. naive_solver.
  - intros k p' Hk Hin. destruct (Hback _ _ Hk) as (p & Hkp & -> & _ & _ & _ & H & _). rewrite H in Hin.
    destruct (Hp _ _ Hkp Hin) as (j & q & H1 & H2 & H3 & H4). destruct (Hfwd _ _ H2) as (q' & Hq').
    exists j, q'. destruct (Hback _ _ Hq') as (q0 & Hq0 & _ & _ & _ & _ & Hiq & Hzq & _). simplify_eq.
    split; [done|]. split; [done|]. by rewrite Hiq, Hzq.
  - intros k p' j q' Hk Hz Hpar Hj Hs. destruct (Hback _ _ Hk) as (p & Hkp & H1 & _ & _ & _ & _ & H2 & _).
    destruct (Hback _ _ Hj) as (q & Hjq & _ & _ & _ & _ & _ & _ & _ & Hsl). rewrite H1 in Hpar. rewrite H2 in Hz.
    destruct (Hsl Hs) as [H|H]; [exact (Hw _ _ _ _ Hkp Hz Hpar Hjq H)|exact (H _ _ Hkp Hz Hpar)].
  - intros k p' Hk Hin Hpar. destruct (Hback _ _ Hk) as (p & Hkp & H1 & _ & _ & _ & H2 & _).
    rewrite H1 in Hpar. rewrite H2 in Hin. rewrite Hi. eauto.
  - destruct (Hfwd _ _ Hpi) as (p' & Hp'). rewrite Hi. exists p'. split; [done|].
    destruct (Hback _ _ Hp') as (p0 & Hp0 & H0 & _ & _ & _ & H1 & H2 & _). simplify_eq. by rewrite H0, H1, H2.
Qed.

Definition good (t : Table PT) : Prop := table_inv t /\ cwd_inv t.

Lemma tame_good t t' : tame t t' -> good t -> good t'.
Proof. intros H [H1 H2]. split; [by eapply tame_inv|by eapply tame_cwd]. Qed.

Lemma tame1_refl t k p : state p <> EMBRYO -> tame1 t k p p.
Proof. intros He. do 7 (split; [done|]). by left. Qed.

Lemma tame_refl t : table_inv t -> tame t t.
Proof.
  intros H. split; [done|]. split; [|eauto]. intros k p Hk. exists p. split; [done|].
  apply tame1_refl. by apply (ti_embryo _ H k).
Qed.

Lemma tame_upd t k p p1 :
  table_inv t -> (procs t).[k] = Some p -> tame1 t k p p1 ->
  tame t (put_procs (procs t).[k <- p1] t).
Proof.
  intros Hinv Hk H1. split; [done|]. cbn. split.
  - intros j p' Hj. apply (znth_set_inv _ _ _ p) in Hj as [[-> ->]|[_ Hj]]; [eauto| |done].
    exists p'. split; [done|]. apply tame1_refl. by apply (ti_embryo _ Hinv j).
  - intros j q Hj. destruct (decide (j = k)) as [->|].
    + rewrite (znth_set_eq _ _ _ p) by done. eauto.
    + rewrite znth_zset_ne by done. eauto.
Qed.

(** Live states other than [SLEEPING] on a process are tame targets. *)
Lemma tame1_state t k p s :
  initialized p = true -> is_zombie p = false -> s <> UNUSED -> s <> EMBRYO ->
  (forall st, s <> ZOMBIE st) ->
  (s = SLEEPING (proc_addr k) -> forall j q, (procs t).[j] = Some q -> is_zombie q = true ->
     parent q <> Some (proc_addr k)) ->
  tame1 t k p (set_state s p).
Proof.
  intros Hi Hz Hu He Hnz Hs. do 4 (split; [done|]). split; [|split; [|split; [done|]]].
  - rewrite Hi. unfold initialized. cbn. by rewrite !bool_decide_eq_false_2.
  - rewrite Hz. unfold is_zombie. cbn. destruct s; try done. by destruct (Hnz status).
  - cbn. intros ->. right. by apply Hs.
Qed.

Lemma private_tame t k f t' :
  upd_proc k f t = Ret (tt, t') -> private f -> table_inv t ->
  tame t t' /\ (forall j, state <$> (procs t').[j] = state <$> (procs t).[j]).
Proof.
  intros (p & Hk & ->)%upd_proc_inv Hf Hinv. destruct (Hf p) as (H1 & H2 & H3 & H4 & H5). split.
  - apply (tame_upd _ _ p); [done..|]. unfold tame1, initialized, is_zombie. rewrite H1, H2, H3.
    pose proof (ti_embryo _ Hinv _ _ Hk). naive_solver.
  - intros j. cbn. rewrite znth_zset by (by eapply znth_range). case_decide as E; [|done].
    subst j. rewrite Hk. cbn. by rewrite H1.
Qed.

(** The process's own operations are private. *)
Lemma set_cwd_private ip : private (set_cwd ip).
Proof. intros p. do 4 (split; [done|]). by eexists. Qed.
Lemma exec_image_private pt sz : private (exec_image pt sz).
Proof. intros p. do 3 (split; [done|]). split; [by eexists|done]. Qed.
Lemma alloc_fd_private f : private (fun p => (alloc_fd f p).2).
Proof. intros p. unfold alloc_fd. by case_match. Qed.
Lemma free_fd_private fd : private (fun p => (free_fd fd p).2).
Proof. intros p. unfold free_fd. by case_bool. Qed.
Lemma adjsize_private delta vm : private (fun p => (adjsize p delta vm).2).
Proof. intros p. unfold adjsize. repeat case_match; done. Qed.

Lemma wakeup1_lookup chan (ps : list (Proc PT)) k :
  (wakeup1 chan ps).[k] =
  (fun p => if bool_decide (state p = SLEEPING chan) then set_state RUNNABLE p else p) <$> ps.[k].
Proof. apply znth_fmap. Qed.

Lemma wakeup_tame t chan : table_inv t -> tame t (put_procs (wakeup1 chan (procs t)) t).
Proof.
  intros Hinv. split; [done|]. cbn. split.
  - intros k p' Hk. rewrite wakeup1_lookup in Hk. apply fmap_Some in Hk as (p & Hp & ->).
    exists p. split; [done|]. case_bool_decide as Hs; [|apply tame1_refl; by apply (ti_embryo _ Hinv k)].
    apply tame1_state; try done; unfold initialized, is_zombie; by rewrite Hs.
  - intros k p Hp. rewrite wakeup1_lookup, Hp. eauto.
Qed.

(** ** Which processes run *)
Lemma running_upd t k p p' j :
  (procs t).[k] = Some p ->
  running (put_procs (procs t).[k <- p'] t) j <->
  (if decide (j = k) then state p' = RUNNING else running t j).
Proof.
  intros Hk. pose proof (znth_range _ _ _ Hk). unfold running. cbn. rewrite znth_zset by done.
  destruct (decide (k = j)) as [->|], (decide (j = _)); try congruence; cbn; [|done]. split; [by intros [=]|by intros ->].
Qed.

Lemma running_upd_same t k p p' j :
  (procs t).[k] = Some p -> (state p' = RUNNING <-> state p = RUNNING) ->
  running (put_procs (procs t).[k <- p'] t) j <-> running t j.
Proof.
  intros Hk Hs. rewrite (running_upd _ _ _ _ _ Hk). case_decide as Hj; [|done]. subst j.
  rewrite Hs. unfold running. rewrite Hk. cbn. split; [by intros ->|by intros [=]].
Qed.

Lemma running_wakeup t chan j : running (put_procs (wakeup1 chan (procs t)) t) j <-> running t j.
Proof.
  unfold running. cbn. rewrite wakeup1_lookup. destruct (procs t).[j] as [p|]; cbn; [|done].
  case_bool_decide as Hs; [|done]. cbn. rewrite Hs. naive_solver.
Qed.

Lemma running_state t k : running t k -> exists p, (procs t).[k] = Some p /\ state p = RUNNING.
Proof. unfold running. intros H. apply fmap_Some in H as (p & Hp & Hs). eauto. Qed.

Lemma cpu_same t t' cs :
  (forall k, running t' k <-> running t k) -> cpu_inv t cs -> cpu_inv t' cs.
Proof.
  intros H [H1 H2 H3]. split; [|done|].
  - intros c k Hc. apply H. eauto.
  - intros k Hk. apply H3, H, Hk.
Qed.

Lemma cpu_leave t t' cs c k :
  cs.[c] = Some (Some k) -> (forall j, running t' j <-> j <> k /\ running t j) ->
  cpu_inv t cs -> cpu_inv t' cs.[c <- None].
Proof.
  intros Hc H [H1 H2 H3]. split.
  - intros c' j Hc'. apply (znth_set_inv _ _ _ _ _ _ Hc) in Hc' as [[_ ?]|[Hne Hc']]; [done|].
    apply H. split; [|eauto]. intros ->. eauto.
  - intros c1 c2 j Hc1 Hc2. apply (znth_set_inv _ _ _ _ _ _ Hc) in Hc1 as [[_ ?]|[_ Hc1]]; [done|].
    apply (znth_set_inv _ _ _ _ _ _ Hc) in Hc2 as [[_ ?]|[_ Hc2]]; [done|]. eauto.
  - intros j Hj. apply H in Hj as [Hne Hj]. destruct (H3 _ Hj) as (c' & Hc'). exists c'.
    rewrite znth_zset_ne; [done|]. intros ->. by simplify_eq.
Qed.

Lemma cpu_enter t t' cs c k :
  cs.[c] = Some None -> ~ running t k -> (forall j, running t' j <-> j = k \/ running t j) ->
  cpu_inv t cs -> cpu_inv t' cs.[c <- Some k].
Proof.
  intros Hc Hk H [H1 H2 H3]. split.
  - intros c' j Hc'. apply H. apply (znth_set_inv _ _ _ _ _ _ Hc) in Hc' as [[_ [= ->]]|[_ Hc']]; eauto.
  - intros c1 c2 j Hc1 Hc2.
    apply (znth_set_inv _ _ _ _ _ _ Hc) in Hc1 as [[-> [= ->]]|[_ Hc1]];
      apply (znth_set_inv _ _ _ _ _ _ Hc) in Hc2 as [[-> E]|[_ Hc2]]; try done; [| |by eauto].
    + destruct Hk. eauto.
    + injection E as ->. destruct Hk. eauto.
  - intros j Hj. apply H in Hj as [->|Hj]; [exists c; by apply (znth_set_eq _ _ _ None)|].
    destruct (H3 _ Hj) as (c' & Hc'). exists c'. rewrite znth_zset_ne; [done|]. by intros ->; simplify_eq.
Qed.

(** ** Preservation, one operation at a time *)
Lemma run_inv t k t' :
  run k t = Ret (tt, t') -> table_inv t ->
  tame t t' /\ ~ running t k /\ (forall j, running t' j <-> j = k \/ running t j).
Proof.
  intros Hr Hinv. unfold run, mbind, M_bind in Hr. destruct (proc_at k t) as [[p t0]| |] eqn:Hp; try done.
  unfold proc_at, mbind, M_bind, gets in Hp. cbn in Hp.
  destruct (procs t).[k] as [p0|] eqn:Hk; [|done]. cbn in Hp. injection Hp as -> <-.
  case_bool_decide as Hs; [|done]. cbn in Hr. rewrite (upd_proc_run _ _ _ _ Hk) in Hr. injection Hr as <-.
  split; [|split].
  - apply (tame_upd _ _ p); [done..|].
    apply tame1_state; try done; unfold initialized, is_zombie; by rewrite Hs.
  - unfold running. rewrite Hk. cbn. by rewrite Hs.
  - intros j. rewrite (running_upd _ _ _ _ _ Hk). case_decide; naive_solver.
Qed.

(** A running process that stops running, in a state other than [ZOMBIE]. *)
Lemma leave_inv t k s t' :
  upd_proc k (set_state s) t = Ret (tt, t') -> table_inv t -> running t k ->
  s <> UNUSED -> s <> EMBRYO -> s <> RUNNING -> (forall st, s <> ZOMBIE st) ->
  (s = SLEEPING (proc_addr k) -> forall j q, (procs t).[j] = Some q -> is_zombie q = true ->
     parent q <> Some (proc_addr k)) ->
  tame t t' /\ (forall j, running t' j <-> j <> k /\ running t j).
Proof.
  intros (p & Hk & ->)%upd_proc_inv Hinv Hrun Hu He Hnr Hnz Hs.
  apply running_state in Hrun as (p0 & Hk' & Hst). rewrite Hk in Hk'. injection Hk' as <-. split.
  - apply (tame_upd _ _ p); [done..|].
    apply tame1_state; try done; unfold initialized, is_zombie; by rewrite Hst.
  - intros j. rewrite (running_upd _ _ _ _ _ Hk). case_decide; naive_solver.
Qed.

Lemma kill_inv t n r t' :
  kill n t = Ret (r, t') -> table_inv t -> tame t t' /\ (forall j, running t' j <-> running t j).
Proof.
  intros Hr Hinv. unfold kill in Hr. rewrite bind_gets in Hr. cbn [id] in Hr.
  destruct (position _ _) as [i|] eqn:Hpos; [|injection Hr as <- <-; split; [by apply tame_refl|done]].
  unfold mbind, M_bind in Hr. destruct (upd_proc _ _ _) as [[[] t1]| |] eqn:Hu; try done.
  injection Hr as <- <-. apply upd_proc_inv in Hu as (p & Hk & ->). split.
  - apply (tame_upd _ _ p); [done..|].
    pose proof (ti_embryo _ Hinv _ _ Hk) as He.
    unfold is_sleeping. cbn. destruct (state p) eqn:Hs; try done;
      (do 4 (split; [done|]); unfold initialized, is_zombie; cbn; rewrite ?Hs; do 3 (split; [done|]); by auto).
  - intros j. apply (running_upd_same _ _ _ _ _ Hk). unfold is_sleeping. cbn.
    destruct (state p) eqn:Hs; cbn; rewrite ?Hs; naive_solver.
Qed.

(** Freeing the slot of a zombie, or leaving a free slot free. *)
Lemma free_slot_inv t k p p' :
  (procs t).[k] = Some p -> is_zombie p = true \/ state p = UNUSED -> state p' = UNUSED ->
  table_inv t -> table_inv (put_procs (procs t).[k <- p'] t).
Proof.
  intros Hk Hp Hs [He Hr Hpar Hw Hself (pi & Hpi & Hini & Hzi & Hpai)].
  assert (Hni : initialized p' = false) by (unfold initialized; by rewrite Hs).
  assert (Hnz : is_zombie p' = false) by (unfold is_zombie; by rewrite Hs).
  assert (Hother : forall j q, initialized q = true -> is_zombie q = false ->
            (procs t).[j] = Some q -> (procs t).[k <- p'].[j] = Some q).
  { intros j q Hi Hz Hj. rewrite znth_zset_ne; [done|]. intros ->. simplify_eq.
    destruct Hp as [Hp|Hp]; [congruence|]. unfold initialized in Hi. by rewrite Hp in Hi. }
  split; cbn.
  - intros j q [[_ ->]|[_ Hj]]%(znth_set_inv _ _ _ _ _ _ Hk); [by rewrite Hs|eauto].
  - intros j q [[_ ->]|[_ Hj]]%(znth_set_inv _ _ _ _ _ _ Hk) Hi; [congruence|eauto].
  - intros j q [[_ ->]|[_ Hj]]%(znth_set_inv _ _ _ _ _ _ Hk) Hi; [congruence|].
    destruct (Hpar _ _ Hj Hi) as (j' & q' & ? & ? & ? & ?). exists j', q'. auto.
  - intros j q j' q' [[_ ->]|[_ Hj]]%(znth_set_inv _ _ _ _ _ _ Hk) Hz Hq; [congruence|].
    intros [[_ ->]|[_ Hj']]%(znth_set_inv _ _ _ _ _ _ Hk); [by rewrite Hs|eauto].
  - intros j q [[_ ->]|[_ Hj]]%(znth_set_inv _ _ _ _ _ _ Hk) Hi; [congruence|eauto].
  - exists pi. auto.
Qed.

Lemma cwd_upd t k p p' :
  (procs t).[k] = Some p -> cwd_inv t ->
  (initialized p' = true -> is_Some (cwd p')) -> cwd_inv (put_procs (procs t).[k <- p'] t).
Proof.
  intros Hk Hc Hp j q Hj. cbn in Hj. apply (znth_set_inv _ _ _ _ _ _ Hk) in Hj as [[-> ->]|[_ Hj]]; [auto|].
  by apply Hc.
Qed.

Lemma wait_inv t k r t' :
  wait1 proc_addr k t = Ret (r, t') -> good t -> running t k ->
  good t' /\
  (forall j, running t' j <-> (r = MustSleep -> j <> k) /\ running t j).
Proof.
  intros Hr [Hinv Hcwd] Hrun. unfold wait1 in Hr. rewrite bind_gets in Hr. cbn [id] in Hr.
  destruct (position _ _) as [i|] eqn:Hpos.
  - destruct (position_znth _ _ _ Hpos) as (p & Hp & Hkz). bool_to_prop.
    rewrite (bind_run _ _ _ _ _ (proc_at_run _ _ _ Hp)) in Hr. unfold expect, mbind, M_bind in Hr.
    destruct (kstack p); [|done]. destruct (pgtbl p); [|done]. cbn in Hr.
    rewrite (upd_proc_run _ _ _ _ Hp) in Hr. injection Hr as <- <-. split.
    + split; [eapply free_slot_inv; eauto|]. by apply (cwd_upd _ _ _ _ Hp Hcwd).
    + intros j. rewrite (running_upd_same _ _ _ _ _ Hp); [naive_solver|].
      unfold is_zombie in *. cbn. destruct (state p); done.
  - apply running_state in Hrun as Hrun'. destruct Hrun' as (self & Hk & Hs).
    rewrite (bind_run _ _ _ _ _ (proc_at_run _ _ _ Hk)) in Hr.
    destruct (_ || _) eqn:Hb.
    { injection Hr as <- <-. split; [done|]. intros j. naive_solver. }
    unfold mbind, M_bind in Hr. destruct (sleep _ _ _) as [[[] t1]| |] eqn:Hsl; try done.
    injection Hr as <- <-.
    destruct (leave_inv t k (SLEEPING (proc_addr k)) t1) as [Hi Hru]; try done;
      [|split; [by apply (tame_good t)|]; intros j; rewrite Hru; naive_solver].
    intros _ j q Hj Hz Hq. pose proof (position_znth_None _ _ _ _ Hpos Hj) as Hno. cbn in Hno.
    unfold is_kid, parent_of in Hno. rewrite Hq in Hno. cbn in Hno.
    rewrite Z.eqb_refl, Hz in Hno. unfold initialized, is_zombie in *. by destruct (state q).
Qed.

Lemma table_inv_ext t t' :
  procs t' = procs t -> init_slot t' = init_slot t -> table_inv t -> table_inv t'.
Proof. destruct t, t'. cbn. intros -> -> [? ? ? ? ? ?]. by split. Qed.

(** Filling a free slot with a runnable child of a live process. *)
Lemma new_proc_inv t k p p' me q :
  (procs t).[k] = Some p -> state p = UNUSED -> state p' = RUNNABLE ->
  is_Some (kstack p') -> is_Some (pgtbl p') -> parent p' = Some (proc_addr me) ->
  (procs t).[me] = Some q -> state q = RUNNING ->
  table_inv t -> table_inv (put_procs (procs t).[k <- p'] t).
Proof.
  intros Hk Hu Hs Hst Hpt Hpp Hme Hq [He Hr Hpar Hw Hself (pi & Hpi & Hini & Hzi & Hpai)].
  assert (Hne : me <> k) by (intros ->; simplify_eq; congruence).
  assert (Hnz : is_zombie p' = false) by (unfold is_zombie; by rewrite Hs).
  assert (Hother : forall j q, initialized q = true ->
            (procs t).[j] = Some q -> (procs t).[k <- p'].[j] = Some q).
  { intros j q' Hi Hj. rewrite znth_zset_ne; [done|]. intros ->. simplify_eq.
    unfold initialized in Hi. by rewrite Hu in Hi. }
  assert (Hqi : initialized q = true /\ is_zombie q = false)
    by (unfold initialized, is_zombie; by rewrite Hq).
  split; cbn.
  - intros j q' [[_ ->]|[_ Hj]]%(znth_set_inv _ _ _ _ _ _ Hk); [by rewrite Hs|eauto].
  - intros j q' [[_ ->]|[_ Hj]]%(znth_set_inv _ _ _ _ _ _ Hk) Hi; eauto.
  - intros j q' [[_ ->]|[_ Hj]]%(znth_set_inv _ _ _ _ _ _ Hk) Hi; [exists me, q; naive_solver|].
    destruct (Hpar _ _ Hj Hi) as (j' & q1 & ? & ? & ? & ?). exists j', q1. auto.
  - intros j q' j' q1 [[_ ->]|[_ Hj]]%(znth_set_inv _ _ _ _ _ _ Hk) Hz Hq'; [congruence|].
    intros [[_ ->]|[_ Hj']]%(znth_set_inv _ _ _ _ _ _ Hk); [by rewrite Hs|eauto].
  - intros j q' [[-> ->]|[_ Hj]]%(znth_set_inv _ _ _ _ _ _ Hk) Hi; [|eauto].
    rewrite Hpp. intros [= E%addr_inj]. done.
  - exists pi. auto.
Qed.

(** What [alloc] hands its thunk: the slot, marked, and the next pid. *)
Lemma alloc_inv (stk : option Z) (th : Z -> M (Table PT) (option unit * option Z)) t r t' :
  alloc stk th t = Ret (r, t') ->
  (t' = t /\ fst r = None) \/ exists (i : nat) p s r', (is_Some (fst r) <-> is_Some (fst r')) /\ stk = Some s /\ (procs t).[Z.of_nat i] = Some p /\ state p = UNUSED /\
    th (Z.of_nat i) (mkTable (procs t).[Z.of_nat i <- mkProc EMBRYO (next t) (parent p) (killed p) (pgtbl p)
        (Some s) (name p) (psize p) (files p) (cwd p)] (wrap 32 (next t + 1)) (init_slot t)) = Ret (r', t').
Proof.
  intros H. unfold alloc in H. destruct stk as [s|]; [|injection H as <- <-; by left].
  rewrite bind_gets in H. cbn [id] in H. destruct (position _ _) as [i|] eqn:Hpos; [|injection H as <- <-; by left].
  right. destruct (position_znth _ _ _ Hpos) as (p & Hp & Hu%bool_decide_eq_true).
  unfold next_pid, init_proc in H. unfold mbind, M_bind at 1 2 3 in H. cbn in H.
  erewrite upd_proc_run in H by exact Hp. cbn in H.
  destruct (th _ _) as [[r' t1]| |] eqn:Hth; try done. injection H as <- <-.
  exists i, p, s, r'. unfold put_procs in Hth. cbn in Hth. split; [|by auto]. cbn. destruct (fst r'); split; intros [? ?]; by eauto.
Qed.

Lemma fork_inv t me stk dup r t' :
  fork proc_addr me stk dup t = Ret (r, t') -> good t -> running t me ->
  good t' /\ (forall j, running t' j <-> running t j).
Proof.
  intros Hf [Hinv Hcwd] Hrun. apply running_state in Hrun as (q & Hme & Hq).
  apply alloc_inv in Hf as [[-> _]|(i & p & s & r' & _ & _ & Hp & Hu & Hf)]; [done|].
  set (k := Z.of_nat i) in *. pose proof (znth_range _ _ _ Hp) as Hk.
  assert (Hne : k <> me) by (intros ->; simplify_eq; congruence).
  unfold fork_thunk in Hf. erewrite bind_run in Hf; [|apply proc_at_run; cbn; by rewrite znth_zset_ne].
  assert (Hrunning : forall p', state p' <> RUNNING -> forall j,
            running (put_procs (procs t).[k <- p'] t) j <-> running t j).
  { intros p' Hs j. apply (running_upd_same _ _ _ _ _ Hp). rewrite Hu. naive_solver. }
  destruct dup as [pt|].
  - unfold expect in Hf. destruct (cwd q) as [c|]; [|done]. rewrite bind_mret in Hf.
    unfold mbind, M_bind in Hf.
    erewrite upd_proc_run in Hf; [|cbn; by eapply znth_set_eq]. injection Hf as _ <-.
    unfold put_procs. cbn. rewrite zset_zset. split.
    + split; [|apply (cwd_upd t k p); try done; intros _; by eexists]. eapply table_inv_ext; [..|eapply (new_proc_inv t k p)]; done.
    + intros j. by apply Hrunning.
  - erewrite bind_run in Hf; [|apply proc_at_run; cbn; by eapply znth_set_eq]. cbn in Hf.
    unfold mbind, M_bind in Hf. cbn in Hf.
    erewrite upd_proc_run in Hf; [|cbn; by eapply znth_set_eq]. injection Hf as _ <-.
    unfold put_procs. cbn. rewrite zset_zset. split.
    + split; [|by apply (cwd_upd t k p)]. eapply table_inv_ext; [..|eapply (free_slot_inv t k p)]; eauto.
    + intros j. by apply Hrunning.
Qed.

(** ** Exit *)

(** What the loop over the children keeps, from its start at [t0]: the
    invariant, the states up to waking, and that the slots already passed
    hold no child of [me]. *)
Definition orphans (me : Z) (t : Table PT) (k : Z) : Prop :=
  forall p, (procs t).[k] = Some p -> initialized p = true -> parent p <> Some (proc_addr me).

Definition woken (p p' : Proc PT) : Prop :=
  cwd p' = cwd p /\ (state p' = state p \/ is_sleeping p = true /\ state p' = RUNNABLE).

Record loop_inv (me : Z) (t0 t : Table PT) : Prop := {
  li_inv : table_inv t;
  li_init : init_slot t = init_slot t0;
  li_len : zlen (procs t) = zlen (procs t0);
  li_state : forall k p', (procs t).[k] = Some p' -> exists p, (procs t0).[k] = Some p /\ woken p p';
  li_me : parent <$> (procs t).[me] = parent <$> (procs t0).[me] }.

Lemma woken_trans p p' p'' : woken p p' -> woken p' p'' -> woken p p''.
Proof.
  unfold woken, is_sleeping. intros [-> [H|[H1 H2]]] [-> [H'|[H1' H2']]]; (split; [done|]).
  - left. congruence.
  - right. rewrite H in H1'. done.
  - right. rewrite H'. done.
  - rewrite H2 in H1'. done.
Qed.

Lemma woken_live p p' : woken p p' -> initialized p' = initialized p /\ is_zombie p' = is_zombie p.
Proof.
  unfold woken, initialized, is_zombie, is_sleeping. intros [_ [->|[H ->]]]; [done|]. by destruct (state p).
Qed.

Lemma wakeup_state t chan k p' :
  (wakeup1 chan (procs t)).[k] = Some p' ->
  exists p, (procs t).[k] = Some p /\ woken p p' /\ parent p' = parent p /\ state p' <> SLEEPING chan /\
    initialized p' = initialized p.
Proof.
  rewrite wakeup1_lookup. intros (p & Hp & ->)%fmap_Some. exists p. split; [done|].
  case_bool_decide as Hs; [|split; [split; [done|by left]|done]].
  split; [split; [done|right]|]; unfold is_sleeping, initialized; by rewrite Hs.
Qed.

Lemma wakeup_loop me t0 t chan :
  loop_inv me t0 t -> loop_inv me t0 (put_procs (wakeup1 chan (procs t)) t).
Proof.
  intros [Hi Hs Hl Hst Hm]. split; cbn; try done.
  - by eapply tame_inv; [apply wakeup_tame|].
  - unfold zlen, wakeup1. rewrite length_fmap. apply Hl.
  - intros k p' (p & Hp & Hw & _)%wakeup_state. destruct (Hst _ _ Hp) as (p0 & Hp0 & Hw0).
    exists p0. split; [done|]. by eapply woken_trans.
  - rewrite <-Hm, wakeup1_lookup. destruct (procs t).[me]; cbn; [|done]. by case_bool_decide.
Qed.

(** Giving child [k] to init; if it is a zombie init must not sleep. *)
Lemma give_inv t k p :
  (procs t).[k] = Some p -> k <> init_slot t -> initialized p = true ->
  (is_zombie p = true -> forall q, (procs t).[init_slot t] = Some q -> state q <> SLEEPING (proc_addr (init_slot t))) ->
  table_inv t -> table_inv (put_procs (procs t).[k <- set_parent (proc_addr (init_slot t)) p] t).
Proof.
  intros Hk Hni Hin Hz [He Hr Hpar Hw Hself (pi & Hpi & Hini & Hzi & Hpai)].
  set (p' := set_parent _ p).
  assert (Hfwd : forall j q, (procs t).[j] = Some q -> exists q', (procs t).[k <- p'].[j] = Some q' /\
            state q' = state q).
  { intros j q Hj. destruct (decide (j = k)) as [->|].
    - rewrite (znth_set_eq _ _ _ p) by done. simplify_eq. by exists p'.
    - rewrite znth_zset_ne by done. eauto. }
  assert (Hst : forall q q' : Proc PT, state q' = state q ->
            initialized q' = initialized q /\ is_zombie q' = is_zombie q).
  { intros q q' E. unfold initialized, is_zombie. by rewrite E. }
  assert (Hi' : exists q, (procs t).[k <- p'].[init_slot t] = Some q /\ initialized q = true /\
            is_zombie q = false /\ parent q = Some (proc_addr (init_slot t))).
  { exists pi. by rewrite znth_zset_ne. }
  split; cbn; [| | | | |done].
  - intros j q [[_ ->]|[_ Hj]]%(znth_set_inv _ _ _ _ _ _ Hk); [exact (He _ _ Hk)|eauto].
  - intros j q [[_ ->]|[_ Hj]]%(znth_set_inv _ _ _ _ _ _ Hk) Hi; [exact (Hr _ _ Hk Hi)|eauto].
  - intros j q [[_ ->]|[_ Hj]]%(znth_set_inv _ _ _ _ _ _ Hk) Hi.
    { destruct Hi' as (q & ? & ? & ? & ?). by exists (init_slot t), q. }
    destruct (Hpar _ _ Hj Hi) as (j' & q' & H1 & H2 & H3 & H4). destruct (Hfwd _ _ H2) as (q'' & H5 & H6).
    exists j', q''. destruct (Hst _ _ H6) as [-> ->]. done.
  - intros j q j' q' Hj Hzq Hq Hj'.
    assert (exists q0, (procs t).[j'] = Some q0 /\ state q' = state q0) as (q0 & Hq0 & ->).
    { apply (znth_set_inv _ _ _ _ _ _ Hk) in Hj' as [[-> ->]|[_ Hj']]; eauto. }
    apply (znth_set_inv _ _ _ _ _ _ Hk) in Hj as [[-> ->]|[_ Hj]]; [|eauto].
    injection Hq as <-%addr_inj. by apply Hz.
  - intros j q [[-> ->]|[_ Hj]]%(znth_set_inv _ _ _ _ _ _ Hk) Hi; [|eauto].
    intros [= <-%addr_inj]. done.
Qed.

Lemma wakeup_zset chan (ps : list (Proc PT)) k p :
  state p <> SLEEPING chan -> wakeup1 chan ps.[k <- p] = (wakeup1 chan ps).[k <- p].
Proof.
  intros Hs. unfold wakeup1, zset, zlen. rewrite length_fmap. case_match; [|done].
  rewrite list_fmap_insert. by rewrite bool_decide_eq_false_2.
Qed.

Lemma orphans_wakeup me t chan k :
  orphans me t k -> orphans me (put_procs (wakeup1 chan (procs t)) t) k.
Proof.
  intros H p' (p & Hp & _ & -> & _ & ->)%wakeup_state Hi. by apply (H p).
Qed.

Lemma kid_parent t me k p :
  table_inv t -> (procs t).[k] = Some p -> initialized p = true ->
  (parent_of p =? proc_addr me) = bool_decide (parent p = Some (proc_addr me)).
Proof.
  intros Hinv Hk Hi. destruct (ti_parent _ Hinv _ _ Hk Hi) as (j & _ & Hp & _).
  unfold parent_of. rewrite Hp. cbn. case_bool_decide as E; [injection E as ->; apply Z.eqb_refl|].
  apply Z.eqb_neq. congruence.
Qed.

(** Giving away child [k] within the loop, init woken first if need be. *)
Lemma give_loop me t0 t k p :
  loop_inv me t0 t -> me <> init_slot t0 -> (procs t).[k] = Some p -> initialized p = true ->
  parent p = Some (proc_addr me) ->
  (is_zombie p = true -> forall q, (procs t).[init_slot t] = Some q -> state q <> SLEEPING (proc_addr (init_slot t))) ->
  let t' := put_procs (procs t).[k <- set_parent (proc_addr (init_slot t)) p] t in
  loop_inv me t0 t' /\ orphans me t' k /\ (forall j, orphans me t j -> orphans me t' j).
Proof.
  intros [Hi Hs Hl Hst Hm] Hni Hk Hin Hpar Hz t'.
  assert (Hk1 : k <> init_slot t).
  { intros ->. destruct (ti_init _ Hi) as (pi & Hpi & _ & _ & Hpp). rewrite Hk in Hpi. injection Hpi as <-.
    rewrite Hpar in Hpp. injection Hpp as E%addr_inj. congruence. }
  assert (Hk2 : k <> me).
  { intros ->. destruct Hni. rewrite <-Hs. by apply (ti_self _ Hi _ _ Hk). }
  assert (Hor : orphans me t' k).
  { intros q Hq _. unfold t' in Hq. cbn in Hq. rewrite (znth_set_eq _ _ _ p) in Hq by done.
    injection Hq as <-. cbn. intros [= E%addr_inj]. by rewrite E in Hs. }
  split; [|split; [done|]].
  - split; cbn; try done.
    + by apply give_inv.
    + rewrite zlen_zset. apply Hl.
    + intros j p' [[-> ->]|[_ Hj]]%(znth_set_inv _ _ _ _ _ _ Hk); [|eauto].
      destruct (Hst _ _ Hk) as (p0 & ? & Hw). by exists p0.
    + by rewrite znth_zset_ne.
  - intros j Hj q Hq. unfold t' in Hq. cbn in Hq.
    apply (znth_set_inv _ _ _ _ _ _ Hk) in Hq as Hq'. destruct Hq' as [[-> ->]|[_ Hq']]; [by apply Hor|by apply Hj].
Qed.

Lemma reparent_loop me t0 ks : forall t,
  loop_inv me t0 t -> me <> init_slot t0 -> Forall (fun k => 0 <= k < zlen (procs t0)) ks ->
  exists t', reparent proc_addr me ks t = Ret (tt, t') /\ loop_inv me t0 t' /\
    Forall (orphans me t') ks /\ (forall k, orphans me t k -> orphans me t' k).
Proof.
  induction ks as [|k ks IH]; intros t Hli Hni Hks; [exists t; naive_solver|].
  apply Forall_cons in Hks as [Hk Hks]. rewrite <-(li_len _ _ _ Hli) in Hk.
  destruct (znth_lt _ _ Hk) as (p & Hp). cbn [reparent]. rewrite (bind_run _ _ _ _ _ (proc_at_run _ _ _ Hp)).
  assert (Hcont : forall t1, loop_inv me t0 t1 -> orphans me t1 k -> (forall j, orphans me t j -> orphans me t1 j) ->
    exists t', reparent proc_addr me ks t1 = Ret (tt, t') /\ loop_inv me t0 t' /\
      Forall (orphans me t') (k :: ks) /\ (forall k, orphans me t k -> orphans me t' k)).
  { intros t1 H1 H2 H3. destruct (IH t1 H1 Hni Hks) as (t' & ? & ? & ? & ?). exists t'. naive_solver. }
  destruct (initialized p) eqn:Hin; cbn [andb].
  2:{ rewrite bind_mret. apply Hcont; [done| |done]. intros q Hq Hiq. congruence. }
  rewrite (kid_parent t me k) by (done || apply Hli). case_bool_decide as Hpar.
  2:{ rewrite bind_mret. apply Hcont; [done| |done]. intros q Hq Hiq. congruence. }
  unfold mbind, M_bind. cbn. rewrite (upd_proc_run _ _ _ _ Hp). destruct (is_zombie p) eqn:Hz; cbn -[wakeup1].
  2:{ destruct (give_loop me t0 t k p) as (H1 & H2 & H3); [done..|congruence|]. by apply Hcont. }
  rewrite wakeup_zset by (unfold is_zombie in Hz; cbn; by destruct (state p)).
  set (t1 := put_procs (wakeup1 (proc_addr (init_slot t)) (procs t)) t).
  destruct (give_loop me t0 t1 k p) as (H1 & H2 & H3); try done; cbn -[wakeup1].
  - by apply wakeup_loop.
  - rewrite wakeup1_lookup, Hp. cbn. case_bool_decide as E; [|done]. unfold is_zombie in Hz. by rewrite E in Hz.
  - intros _ q (q0 & _ & _ & _ & Hq & _)%wakeup_state. done.
  - apply Hcont; [done|done|]. intros j Hj. by apply H3, orphans_wakeup.
Qed.

(** A running process without children becomes a zombie. *)
Lemma zombie_inv t me p st :
  (procs t).[me] = Some p -> state p = RUNNING -> me <> init_slot t ->
  (forall k, orphans me t k) ->
  (forall j q, parent p = Some (proc_addr j) -> (procs t).[j] = Some q -> state q <> SLEEPING (proc_addr j)) ->
  table_inv t -> table_inv (put_procs (procs t).[me <- set_state (ZOMBIE st) p] t).
Proof.
  intros Hk Hs Hni Hor Hsl [He Hr Hpar Hw Hself (pi & Hpi & Hini & Hzi & Hpai)].
  assert (Hin : initialized p = true) by (unfold initialized; by rewrite Hs).
  assert (Hother : forall j q, j <> me -> (procs t).[j] = Some q ->
            (procs t).[me <- set_state (ZOMBIE st) p].[j] = Some q).
  { intros j q Hne Hj. by rewrite znth_zset_ne. }
  assert (Hlive : forall k q, (procs t).[k] = Some q -> initialized q = true -> exists j q',
    parent q = Some (proc_addr j) /\ (procs t).[me <- set_state (ZOMBIE st) p].[j] = Some q' /\
    initialized q' = true /\ is_zombie q' = false).
  { intros k q Hq Hi. destruct (Hpar _ _ Hq Hi) as (j & q' & H1 & H2 & H3 & H4). exists j, q'.
    split; [done|]. split; [|done]. apply Hother; [|done]. intros ->. by apply (Hor k q). }
  split; cbn.
  - intros j q [[_ ->]|[_ Hj]]%(znth_set_inv _ _ _ _ _ _ Hk); [done|eauto].
  - intros j q [[_ ->]|[_ Hj]]%(znth_set_inv _ _ _ _ _ _ Hk) Hi; [exact (Hr _ _ Hk Hin)|eauto].
  - intros j q [[_ ->]|[_ Hj]]%(znth_set_inv _ _ _ _ _ _ Hk) Hi; [exact (Hlive _ _ Hk Hin)|eauto].
  - intros j q j' q' Hj Hz Hq Hj'.
    apply (znth_set_inv _ _ _ _ _ _ Hk) in Hj' as [[_ ->]|[Hne Hj']]; [done|].
    apply (znth_set_inv _ _ _ _ _ _ Hk) in Hj as [[-> ->]|[_ Hj]]; eauto.
  - intros j q [[-> ->]|[_ Hj]]%(znth_set_inv _ _ _ _ _ _ Hk) Hi; [exact (Hself _ _ Hk Hin)|eauto].
  - exists pi. auto.
Qed.

Lemma loop_running me t0 t j : loop_inv me t0 t -> running t j <-> running t0 j.
Proof.
  intros [_ _ Hl Hst _]. split; intros (p & Hp & Hs)%running_state.
  - destruct (Hst _ _ Hp) as (p0 & Hp0 & _ & [H|[_ H]]); [|congruence].
    unfold running. rewrite Hp0. cbn. congruence.
  - pose proof (znth_range _ _ _ Hp) as Hj. rewrite <-Hl in Hj. destruct (znth_lt _ _ Hj) as (p' & Hp').
    destruct (Hst _ _ Hp') as (p0 & Hp0 & Hw). rewrite Hp in Hp0. injection Hp0 as <-.
    destruct Hw as [_ [H|[H _]]]; [|unfold is_sleeping in H; by rewrite Hs in H].
    unfold running. rewrite Hp'. cbn. congruence.
Qed.

Lemma loop_start me t : table_inv t -> loop_inv me t t.
Proof. intros H. split; try done. intros k p Hk. exists p. split; [done|]. split; [done|by left]. Qed.

(** The invariant does not depend on files and directories. *)
Lemma closed_inv t k p p' :
  (procs t).[k] = Some p ->
  state p' = state p -> parent p' = parent p -> kstack p' = kstack p -> pgtbl p' = pgtbl p ->
  table_inv t -> table_inv (put_procs (procs t).[k <- p'] t).
Proof.
  intros Hk H1 H2 H3 H4 [He Hr Hpar Hw Hself (pi & Hpi & Hini & Hzi & Hpai)].
  assert (Hst : initialized p' = initialized p /\ is_zombie p' = is_zombie p)
    by (unfold initialized, is_zombie; by rewrite H1).
  assert (Hfwd : forall j q, (procs t).[j] = Some q -> exists q', (procs t).[k <- p'].[j] = Some q' /\
            initialized q' = initialized q /\ is_zombie q' = is_zombie q /\ parent q' = parent q).
  { intros j q Hj. destruct (decide (j = k)) as [->|]; [|rewrite znth_zset_ne by done; eauto].
    rewrite (znth_set_eq _ _ _ p) by done. simplify_eq. naive_solver. }
  assert (Hback : forall j q, (procs t).[k <- p'].[j] = Some q -> exists q', (procs t).[j] = Some q' /\
            state q = state q' /\ parent q = parent q' /\ kstack q = kstack q' /\ pgtbl q = pgtbl q' /\
            initialized q = initialized q' /\ is_zombie q = is_zombie q').
  { intros j q [[-> ->]|[_ Hj]]%(znth_set_inv _ _ _ _ _ _ Hk); [exists p|exists q]; naive_solver. }
  split; cbn.
  - intros j q (q' & ? & -> & _)%Hback. eauto.
  - intros j q (q' & Hq & _ & _ & -> & -> & -> & _)%Hback. eauto.
  - intros j q (q' & Hq & _ & -> & _ & _ & -> & _)%Hback Hi.
    destruct (Hpar _ _ Hq Hi) as (j' & r & Hj & Hr' & Hir & Hzr). destruct (Hfwd _ _ Hr') as (r' & ? & ? & ? & _).
    exists j', r'. by repeat split; try congruence.
  - intros j q j' r (q' & Hq & _ & -> & _ & _ & _ & ->)%Hback Hz Hj (r' & Hr' & -> & _)%Hback. eauto.
  - intros j q (q' & Hq & _ & -> & _ & _ & -> & _)%Hback. eauto.
  - destruct (Hfwd _ _ Hpi) as (q & ? & ? & ? & ?). exists q. by repeat split; try congruence.
Qed.

(** The end of [exit], after the loop over the children. *)
Lemma exit_tail t2 t3 me p st :
  loop_inv me t2 t3 -> (procs t2).[me] = Some p -> state p = RUNNING -> me <> init_slot t2 ->
  Forall (orphans me t3) (zrange 0 (zlen (procs t2))) ->
  (forall j q, parent p = Some (proc_addr j) -> (procs t2).[j] = Some q -> state q <> SLEEPING (proc_addr j)) ->
  exists t', upd_proc me (set_state (ZOMBIE st)) t3 = Ret (tt, t') /\ table_inv t' /\
    state <$> (procs t').[me] = Some (ZOMBIE st) /\
    (forall k q, (procs t').[k] = Some q -> k <> me -> exists q2, (procs t2).[k] = Some q2 /\ woken q2 q) /\
    init_slot t' = init_slot t2 /\ (forall j, running t' j <-> j <> me /\ running t2 j).
Proof.
  intros Hl Hp Hs Hni Hor Hsl.
  assert (Hrun3 : running t3 me) by (apply (loop_running _ _ _ _ Hl); unfold running; rewrite Hp; cbn; congruence).
  apply running_state in Hrun3 as (p3 & Hp3 & Hs3). rewrite (upd_proc_run _ _ _ _ Hp3).
  pose proof (li_me _ _ _ Hl) as Hpar. rewrite Hp3, Hp in Hpar. injection Hpar as Hpar.
  eexists. split; [done|]. split; [|split; [|split; [|split; [apply Hl|]]]].
  - apply zombie_inv; try done; [by rewrite (li_init _ _ _ Hl)| | |apply Hl].
    + intros k q Hq. rewrite Forall_forall in Hor. apply (Hor k); [|done].
      apply elem_of_zrange. rewrite <-(li_len _ _ _ Hl). by apply znth_range in Hq.
    + intros j q Hj Hq Hslq. rewrite Hpar in Hj. destruct (li_state _ _ _ Hl _ _ Hq) as (q2 & Hq2 & _ & [H|[_ H]]); [|congruence].
      apply (Hsl j q2 Hj Hq2). congruence.
  - cbn. by rewrite (znth_set_eq _ _ _ p3).
  - cbn. intros k q [[-> _]|[_ Hq]]%(znth_set_inv _ _ _ _ _ _ Hp3) Hne; [done|]. by apply (li_state _ _ _ Hl).
  - intros j. rewrite (running_upd _ _ _ _ _ Hp3), <-(loop_running _ _ _ j Hl). case_decide; cbn; naive_solver.
Qed.

(** [exit] of a running process other than init, under the lock. *)
Lemma exit_locked_runs t1 me p0 st :
  table_inv t1 -> (procs t1).[me] = Some p0 -> state p0 = RUNNING -> me <> init_slot t1 ->
  exists t', exit_locked proc_addr me st t1 = Ret (tt, t') /\ table_inv t' /\
    state <$> (procs t').[me] = Some (ZOMBIE st) /\
    (forall k q, (procs t').[k] = Some q -> k <> me -> exists q1, (procs t1).[k] = Some q1 /\ woken q1 q) /\
    init_slot t' = init_slot t1 /\ (forall j, running t' j <-> j <> me /\ running t1 j).
Proof.
  intros Hinv1 Hp1 Hs Hni. unfold exit_locked. rewrite (bind_run _ _ _ _ _ (proc_at_run _ _ _ Hp1)).
  unfold wakeup. rewrite bind_modify. set (t2 := put_procs (wakeup1 _ (procs t1)) t1).
  assert (Hp2 : (procs t2).[me] = Some p0).
  { cbn -[wakeup1]. rewrite wakeup1_lookup, Hp1. cbn. by rewrite Hs. }
  rewrite bind_gets. cbn [id].
  destruct (reparent_loop me t2 (zrange 0 (zlen (procs t2))) t2) as (t3 & Hr & Hl & Hor & _); [|done| |].
  { apply loop_start. by apply (tame_inv t1); [apply wakeup_tame|]. }
  { apply Forall_forall. intros k Hk%elem_of_zrange. done. }
  rewrite (bind_run _ _ _ _ _ Hr).
  destruct (exit_tail t2 t3 me p0 st) as (t' & Hu & Ht & Hzm & Hw & Hi & Hru); try done.
  { intros j q Hj (q0 & _ & _ & _ & H & _)%wakeup_state. unfold parent_of in H. by rewrite Hj in H. }
  exists t'. split; [done|]. split; [done|]. split; [done|]. split; [|split; [done|]].
  - intros k q Hq Hk. destruct (Hw _ _ Hq Hk) as (q2 & Hq2 & Hw2). apply wakeup_state in Hq2 as (q1 & Hq1 & Hw1 & _).
    exists q1. split; [done|]. by eapply woken_trans.
  - intros j. rewrite Hru. unfold t2. by rewrite (running_wakeup t1).
Qed.

(** [exit] of a running process other than init, on the table. *)
Lemma exit_runs t me st :
  good t -> running t me -> 0 <= init_slot t -> me <> init_slot t ->
  exists r t', exit_table proc_addr me st t = Ret (r, t') /\ good t' /\
    state <$> (procs t').[me] = Some (ZOMBIE st) /\ init_slot t' = init_slot t /\
    (forall j, running t' j <-> j <> me /\ running t j).
Proof.
  intros [Hinv Hcwd] Hrun Hpos Hni. pose proof (running_state _ _ Hrun) as (p & Hp & Hs). unfold exit_table.
  rewrite bind_gets. cbn [id]. rewrite !bind_assert by (apply Z.leb_le in Hpos; by rewrite ?Hpos || lia).
  rewrite (bind_run _ _ _ _ _ (proc_at_run _ _ _ Hp)).
  destruct (Hcwd _ _ Hp) as [wd ->]; [unfold initialized, is_zombie; by rewrite Hs..|done|]. cbn [expect].
  rewrite bind_mret, (bind_run _ _ _ _ _ (upd_proc_run _ _ _ _ Hp)).
  set (p0 := exit_take p). set (t1 := put_procs _ _).
  assert (Hp1 : (procs t1).[me] = Some p0) by (by apply (znth_set_eq _ _ _ p)).
  destruct (exit_locked_runs t1 me p0 st) as (t' & E & Ht & Hzm & Hw & Hi & Hru); [by apply (closed_inv t me p)|done|done|done|].
  rewrite (bind_run _ _ _ _ _ E). eexists _, t'. split; [done|]. split; [split; [done|]|split; [done|split; [done|]]].
  - intros k q Hq Hin Hz Hne. destruct (decide (k = me)) as [->|Hk].
    { rewrite Hq in Hzm. injection Hzm as Hzm. unfold is_zombie in Hz. by rewrite Hzm in Hz. }
    destruct (Hw _ _ Hq Hk) as (q1 & Hq1 & Hw3). destruct (woken_live _ _ Hw3) as [Hi3 Hz3].
    cbn in Hq1. rewrite znth_zset_ne in Hq1 by done. destruct Hw3 as [-> _].
    apply (Hcwd k q1); congruence || (rewrite Hi in Hne; done).
  - intros j. rewrite Hru. unfold t1. by rewrite (running_upd_same t me p).
Qed.

(** ** Every step, and the start *)
Definition sys_inv (s : Sys) : Prop := good (tab s) /\ cpu_inv (tab s) (cpus s).

Lemma table_init_range t : table_inv t -> 0 <= init_slot t.
Proof. intros H. destruct (ti_init _ H) as (p & Hp & _). apply znth_range in Hp. lia. Qed.

Lemma exit_not_init t me st r : exit_table proc_addr me st t = Ret r -> me <> init_slot t.
Proof.
  unfold exit_table. rewrite bind_gets. cbn [id]. unfold assert_, mbind, M_bind. cbn. intros H ->.
  rewrite Z.eqb_refl in H. by case_bool.
Qed.

Lemma sys_step_inv s s' : step s s' -> sys_inv s -> sys_inv s'.
Proof.
  intros Hst [Ht Hc]. pose proof (proj1 Ht) as Hti. destruct Hst; cbn in *;
    try pose proof (ci_run _ _ Hc _ _ H) as Hrun.
  - destruct (run_inv _ _ _ H0 Hti) as (? & ? & ?). split; [by eapply tame_good|]. by eapply cpu_enter.
  - destruct (leave_inv _ _ _ _ H0 Hti) as (? & ?); try done.
    split; [by eapply tame_good|]. by eapply cpu_leave.
  - destruct (leave_inv _ _ _ _ H1 Hti) as (? & ?); try done.
    + intros [= E]. by destruct (H0 k).
    + split; [by eapply tame_good|]. by eapply cpu_leave.
  - pose proof (exit_not_init _ _ _ _ H0) as Hni.
    destruct (exit_runs t k status Ht Hrun (table_init_range _ Hti) Hni) as (r1 & t1 & E & ? & _ & _ & ?).
    rewrite E in H0. injection H0 as _ <-. split; [done|]. by eapply cpu_leave.
  - destruct (wait_inv _ _ _ _ H0 Ht Hrun) as (? & Hru).
    split; [done|]. eapply cpu_same; [|done]. intros j. rewrite Hru. naive_solver.
  - destruct (wait_inv _ _ _ _ H0 Ht Hrun) as (? & Hru).
    split; [done|]. eapply cpu_leave; [done| |done]. intros j. rewrite Hru. naive_solver.
  - destruct (fork_inv _ _ _ _ _ _ H0 Ht Hrun) as (? & Hru).
    split; [done|]. by eapply cpu_same.
  - destruct (private_tame _ _ _ _ H1 H0 Hti) as (? & Hs). split; [by eapply tame_good|].
    eapply cpu_same; [|done]. intros j. unfold running. by rewrite Hs.
  - destruct (kill_inv _ _ _ _ H Hti) as (? & Hru). split; [by eapply tame_good|]. by eapply cpu_same.
  - injection H as <-. split; [by eapply tame_good; [apply wakeup_tame|]|].
    eapply cpu_same; [|done]. intros j. apply running_wakeup.
Qed.

(** The state [init] leaves, with every processor idle. *)
Definition started (ncpu : nat) (s : Sys) : Prop :=
  exists stk pt t0, init proc_addr (Some stk) pt Table_new = Ret (tt, t0) /\ s = mkSys t0 (replicate ncpu None).

Lemma new_slots k p : (procs (@Table_new PT)).[k] = Some p -> p = Proc_new.
Proof.
  cbn. intros [_ H]%znth_Some. unfold zrep in H. by apply lookup_replicate in H as [-> _].
Qed.

(** The process [init] creates. *)
Definition init_process (stk : Z) (pt : PT) : Proc PT :=
  mkProc RUNNABLE 1 (Some (proc_addr 0)) false (Some pt) (Some stk)
    (set_name (zrep 16 0) [105; 110; 105; 116]) PAGE_SIZE (zrep NOFILE None) None.

Lemma init_runs stk pt :
  init proc_addr (Some stk) pt Table_new =
  Ret (tt, mkTable (procs Table_new).[0 <- init_process stk pt] 2 0).
Proof. reflexivity. Qed.

Lemma started_slots stk pt k p :
  (procs (@Table_new PT)).[0 <- init_process stk pt].[k] = Some p ->
  k = 0 /\ p = init_process stk pt \/ k <> 0 /\ p = Proc_new.
Proof.
  intros [[-> ->]|[Hk ->%new_slots]]%(znth_set_inv _ _ _ Proc_new); [by left|by right|reflexivity].
Qed.

Lemma started_inv ncpu s : started ncpu s -> sys_inv s.
Proof.
  intros (stk & pt & t0 & Hi & ->). rewrite init_runs in Hi. injection Hi as <-.
  split; [split; [|by intros k p [[-> ->]|[_ ->]]%started_slots]|].
  - assert (H0 : (procs (@Table_new PT)).[0 <- init_process stk pt].[0] = Some (init_process stk pt)) by reflexivity.
    split; cbn -[Table_new].
    + by intros k p [[_ ->]|[_ ->]]%started_slots.
    + intros k p [[_ ->]|[_ ->]]%started_slots; [|done]. intros _. split; eexists; reflexivity.
    + intros k p [[_ ->]|[_ ->]]%started_slots; [|done]. intros _. by exists 0, (init_process stk pt).
    + intros k p j q [[_ ->]|[_ ->]]%started_slots; done.
    + intros k p [[-> ->]|[_ ->]]%started_slots; done.
    + by exists (init_process stk pt).
  - cbn [tab cpus].
    assert (Hc : forall c o, (replicate ncpu (None : option Z)).[c] = Some o -> o = None)
      by (intros c o [_ [? _]%lookup_replicate]%znth_Some; done).
    split.
    + intros c k H%Hc. done.
    + intros c c' k H%Hc. done.
    + intros k Hk%running_state. destruct Hk as (p & Hp & Hs). cbn -[Table_new] in Hp.
      by apply started_slots in Hp as [[_ ->]|[_ ->]].
Qed.

Lemma reachable_inv ncpu s0 s : started ncpu s0 -> rtc step s0 s -> sys_inv s.
Proof. intros H0%started_inv Hr. induction Hr; [done|]. eauto using sys_step_inv. Qed.

(** C12: Over every schedule of forks, exits, waits, sleeps, wakeups and kills
    from the boot of the first process, on any number of processors: a
    process runs on at most one processor and is [RUNNING] exactly when it
    does; an initialized process has a kernel stack, a page table and a live
    parent, and a live one other than init a current directory; a process asleep in [wait] has no zombie child (no wakeup is
    lost); and init is alive. *)
Theorem proc_table_invariant ncpu s0 s :
  started ncpu s0 -> rtc step s0 s ->
  table_inv (tab s) /\ cwd_inv (tab s) /\ cpu_inv (tab s) (cpus s).
Proof. intros H0 H. destruct (reachable_inv _ _ _ H0 H) as [[? ?] ?]. auto. Qed.

(** A pass of [wait1] meets no zombie without its stack or page table. *)
Lemma wait1_runs t k : good t -> running t k -> exists r t', wait1 proc_addr k t = Ret (r, t').
Proof.
  intros [Ht _] Hrun. unfold wait1. rewrite bind_gets. cbn [id]. destruct (position _ _) as [i|] eqn:Hpos.
  - destruct (position_znth _ _ _ Hpos) as (p & Hp & Hk). unfold is_kid in Hk. bool_to_prop.
    rewrite (bind_run _ _ _ _ _ (proc_at_run _ _ _ Hp)).
    destruct (ti_res _ Ht _ _ Hp) as [[stk ->] [pt ->]]; [done|]. unfold mbind, M_bind. cbn.
    rewrite (upd_proc_run _ _ _ _ Hp). eauto.
  - apply running_state in Hrun as (p & Hp & _). rewrite (bind_run _ _ _ _ _ (proc_at_run _ _ _ Hp)).
    case_bool; [eauto|]. unfold mbind, M_bind, sleep. rewrite (upd_proc_run _ _ _ _ Hp). eauto.
Qed.
End spec.

(** ** A run: init forks a child, the child exits on another processor and
    init reaps it. *)
Module Demo.
Definition addr (k : Z) : Z := 4096 + 256 * k.
Lemma addr_inj j k : addr j = addr k -> j = k.
Proof. unfold addr. lia. Qed.

Definition get {A S} (d : S) (o : outcome (A * S)) : S := match o with Ret (_, s) => s | _ => d end.
Definition t0 : Table unit := get Table_new (init addr (Some 64) tt Table_new).
Definition t1 := get t0 (run 0 t0).
Definition t2 := get t1 (upd_proc 0 (set_cwd 7) t1).
Definition t3 := get t2 (fork addr 0 (Some 65) (Some tt) t2).
Definition t4 := get t3 (run 1 t3).
Definition t5 := get t4 (wait1 addr 0 t4).
Definition t6 := get t5 (exit_table addr 1 3 t5).
Definition t7 := get t6 (run 0 t6).

Lemma s0_started : started addr 2 (mkSys t0 [None; None]).
Proof. exists 64, tt, t0. split; reflexivity. Qed.

Lemma run1 : run 0 t0 = Ret (tt, t1). Proof. by vm_compute. Qed.
Lemma run2 : upd_proc 0 (set_cwd 7) t1 = Ret (tt, t2). Proof. by vm_compute. Qed.
Lemma run3 : fork addr 0 (Some 65) (Some tt) t2 = Ret ((Some 2, None), t3). Proof. by vm_compute. Qed.
Lemma run4 : run 1 t3 = Ret (tt, t4). Proof. by vm_compute. Qed.
Lemma run5 : wait1 addr 0 t4 = Ret (MustSleep, t5). Proof. by vm_compute. Qed.
Lemma run6 : exit_table addr 1 3 t5 = Ret (([], 7), t6). Proof. by vm_compute. Qed.
Lemma run7 : run 0 t6 = Ret (tt, t7). Proof. by vm_compute. Qed.

Lemma s5_reached : rtc (step addr) (mkSys t0 [None; None]) (mkSys t5 [None; Some 1]).
Proof.
  apply (rtc_l _ _ (mkSys t1 [Some 0; None])); [exact (s_run addr _ [None; None] 0 0 _ eq_refl run1)|].
  apply (rtc_l _ _ (mkSys t2 [Some 0; None]));
    [exact (s_private addr _ [Some 0; None] 0 0 _ _ eq_refl (set_cwd_private 7) run2)|].
  apply (rtc_l _ _ (mkSys t3 [Some 0; None])); [exact (s_fork addr _ [Some 0; None] 0 0 _ _ _ _ eq_refl run3)|].
  apply (rtc_l _ _ (mkSys t4 [Some 0; Some 1])); [exact (s_run addr _ [Some 0; None] 1 1 _ eq_refl run4)|].
  apply (rtc_l _ _ (mkSys t5 [None; Some 1]));
    [exact (s_wait_sleep addr _ [Some 0; Some 1] 0 0 _ eq_refl run5)|]. apply rtc_refl.
Qed.

Lemma s7_reached : rtc (step addr) (mkSys t0 [None; None]) (mkSys t7 [Some 0; None]).
Proof.
  transitivity (mkSys t5 [None; Some 1]); [apply s5_reached|].
  apply (rtc_l _ _ (mkSys t6 [None; None])); [exact (s_exit addr _ [None; Some 1] 1 1 3 _ _ eq_refl run6)|].
  apply (rtc_l _ _ (mkSys t7 [Some 0; None])); [exact (s_run addr _ [None; None] 0 0 _ eq_refl run7)|].
  apply rtc_refl.
Qed.
End Demo.

Lemma proc_table_invariant_witness :
  table_inv Demo.addr Demo.t5 /\ cwd_inv Demo.t5 /\ cpu_inv Demo.t5 [None; Some 1].
Proof.
  exact (proc_table_invariant Demo.addr Demo.addr_inj 2 _ _ Demo.s0_started Demo.s5_reached).
Defined.

(** Init, back from its sleep, finds the child with its exit status. *)
Lemma init_reaps_child : exists t', wait1 Demo.addr 0 Demo.t7 = Ret (Reaped 2 3 65 tt, t').
Proof. eexists. by vm_compute. Qed.

(** ** Killing pid 0

    A free slot has pid 0, so [kill 0] succeeds and marks it killed; [alloc]
    does not clear the mark, and the next process made there is born
    killed. *)
Lemma kill_zero_poisons_fork :
  let t := Demo.get Demo.t2 (kill 0 Demo.t2) in
  kill 0 Demo.t2 = Ret (Some 0, t) /\
  exists n t', fork Demo.addr 0 (Some 65) (Some tt) t = Ret ((Some n, None), t') /\
    killed <$> (procs t').[1] = Some true.
Proof. split; [by vm_compute|]. do 2 eexists. split; [vm_compute; reflexivity|by vm_compute]. Qed.
