(* ===== verification/Sched.v ===== *)
(** Giving up the processor, [proc.rs]: [sched] with its four assertions, and
    [sleep], [wait1], [exit] and [yield_if_running] with the locks they take, up
    to the switch and from it; and [forkret], where a new process begins. *)
From stdpp Require Import base list gmap strings relations.
From Stdlib Require Import ZArith Lia.
From S2P Require Import Prelude.
From S2P Require Import Arch.
From S2P Require Import BlockLayer.
From S2P Require Import Spinlock.
From S2P Require Import Proc.
From S2P Require Import ProcSpec.

(** ** What one processor sees: its interrupt state, the lock of the process
    table with the table, and the lock a process sleeps with *)
Record Sched (PT : Type) := mkSched {
  sc_cpu : CPU; sc_procs : @SpinMutex (Table PT); sc_lock : @SpinMutex unit }.
Arguments mkSched {PT}. Arguments sc_cpu {PT}. Arguments sc_procs {PT}. Arguments sc_lock {PT}.

Section sched.
Context {PT : Type} (proc_addr : Z -> Z).
(** The processor's number. *)
Context (c : Z).
Notation T := (M (Sched PT)).

Definition in_procs {A} (m : M (CPU * SpinMutex) A) : T A :=
  zoom (fun s => (sc_cpu s, sc_procs s)) (fun x s => mkSched (fst x) (snd x) (sc_lock s)) m.
Definition in_lock {A} (m : M (CPU * SpinMutex) A) : T A :=
  zoom (fun s => (sc_cpu s, sc_lock s)) (fun x s => mkSched (fst x) (sc_procs s) (snd x)) m.
Definition in_tab {A} (m : M (Table PT) A) : T A :=
  zoom (fun s => data (sc_procs s))
    (fun t s => mkSched (sc_cpu s) (mkSpinMutex (locked (sc_procs s)) (cpu (sc_procs s)) t) (sc_lock s)) m.

(** [sched] up to the switch: the interrupt status to go on with. *)
Definition sched (k : Z) : T bool :=
  h ← in_procs (holding c);
  assert_ h "sched proc lock";;
  n ← gets (fun s => ncli (sc_cpu s));
  assert_ (n =? 1) "sched locks";;
  p ← in_tab (proc_at k);
  assert_ (negb (bool_decide (state p = RUNNING))) "sched running";;
  e ← gets (fun s => intr_en (sc_cpu s));
  assert_ (negb e) "sched interruptible";;
  gets (fun s => saved_intr_status (sc_cpu s)).
(** [sched] from the switch, on whatever processor that is. *)
Definition sched_back (intr_status : bool) : T unit :=
  modify (fun s => mkSched (mkCPU (intr_en (sc_cpu s)) (ncli (sc_cpu s)) intr_status) (sc_procs s) (sc_lock s)).

(** [sleep]; [lock_procs] says that the lock given is not the table's. *)
Definition sleep (k chan : Z) (lock_procs : bool) : T bool :=
  (if lock_procs then in_procs (acquire c);; in_lock (release c) else mret tt);;
  in_tab (Proc.sleep k chan);;
  sched k.
Definition sleep_back (intr_status lock_procs : bool) : T unit :=
  sched_back intr_status;;
  if lock_procs then in_procs (release c);; in_lock (acquire c) else mret tt.

(** [wait1] from one pass of its loop on; it ends by dropping the lock, or
    sleeps with it. *)
Definition wait1_pass (k : Z) : T (progress (@waited PT) bool) :=
  r ← in_tab (Proc.wait1 proc_addr k);
  match r with
  | MustSleep => st ← sched k; mret (Sleep st)
  | _ => in_procs (release c);; mret (Done r)
  end.
Definition wait1 (k : Z) : T (progress waited bool) := in_procs (acquire c);; wait1_pass k.

(** [exit] from the lock of the table on. *)
Definition exit_end (k status : Z) : T bool :=
  in_procs (acquire c);; in_tab (exit_locked proc_addr k status);; sched k.

(** [yield_if_running], for the process [k] of this processor. *)
Definition yield_if_running (k : Z) : T (option bool) :=
  in_procs (acquire c);;
  p ← in_tab (proc_at k);
  if bool_decide (state p = RUNNING)
  then in_tab (sched_yield k);; st ← sched k; mret (Some st)
  else in_procs (release c);; mret None.

(** [forkret]. *)
Definition forkret : T Z := in_procs (release c);; mret 0.

(** ** Runs *)
Lemma in_procs_run {A} (m : M (CPU * SpinMutex) A) i pr l a i' pr' :
  m (i, pr) = Ret (a, (i', pr')) -> in_procs m (mkSched i pr l) = Ret (a, mkSched i' pr' l).
Proof. intros E. unfold in_procs, zoom. cbn. by rewrite E. Qed.
Lemma in_lock_run {A} (m : M (CPU * SpinMutex) A) i pr l a i' l' :
  m (i, l) = Ret (a, (i', l')) -> in_lock m (mkSched i pr l) = Ret (a, mkSched i' pr l').
Proof. intros E. unfold in_lock, zoom. cbn. by rewrite E. Qed.
Lemma in_tab_run {A} (m : M (Table PT) A) i x y t l a t' :
  m t = Ret (a, t') -> in_tab m (mkSched i (mkSpinMutex x y t) l) = Ret (a, mkSched i (mkSpinMutex x y t') l).
Proof. intros E. unfold in_tab, zoom. cbn. by rewrite E. Qed.

(** A processor at the switch: it holds the lock of the table and no other, and
    interrupts are off; [st] is the interrupt state before the lock was taken. *)
Definition at_switch (st : bool) (t : Table PT) (l : @SpinMutex unit) : Sched PT :=
  mkSched (mkCPU false 1 st) (mkSpinMutex 1 c t) l.

Lemma sched_run k st t l p : (procs t).[k] = Some p -> state p <> RUNNING -> sched k (at_switch st t l) = Ret (st, at_switch st t l).
Proof.
  intros Hp Hs. unfold sched, at_switch.
  erewrite bind_run by (apply in_procs_run, spin_holding_run; split; [split|]; cbn; lia || done).
  cbn [locked cpu ncli Z.eqb negb andb]. rewrite Z.eqb_refl, bind_assert, bind_gets, bind_assert by done.
  erewrite bind_run by (by apply in_tab_run, proc_at_run). rewrite bind_assert by (by rewrite bool_decide_eq_false_2).
  rewrite bind_gets. cbn [sc_cpu intr_en]. by rewrite bind_assert.
Qed.

Lemma take_procs e sv t l i :
  in_procs (acquire c) (mkSched (mkCPU e 0 sv) (mkSpinMutex 0 i t) l) = Ret (tt, at_switch e t l).
Proof. apply in_procs_run. by rewrite acquire_run by (try split; cbn; lia). Qed.
Lemma drop_procs st t l :
  in_procs (release c) (at_switch st t l) = Ret (tt, mkSched (mkCPU st 0 st) (mkSpinMutex 0 (-1) t) l).
Proof. apply in_procs_run. by rewrite release_run by (cbn; lia || done). Qed.

(** [sleep] with a lock other than the table's, and the way back. *)
Lemma sched_sleep_run k chan t t' p st :
  (procs t).[k] = Some p -> Proc.sleep k chan t = Ret (tt, t') ->
  sleep k chan true (mkSched (mkCPU false 1 st) (mkSpinMutex 0 (-1) t) (mkSpinMutex 1 c tt)) =
    Ret (st, at_switch st t' (mkSpinMutex 0 (-1) tt)).
Proof.
  intros Hp Es. unfold sleep. erewrite (bind_run (in_procs _ ≫= _)).
  2:{ erewrite bind_run by (apply in_procs_run, acquire_run; [split; cbn; lia || done|cbn; lia]).
      apply in_lock_run, release_run; cbn; lia || done. }
  cbn [ncli saved_intr_status]. erewrite bind_run by (apply in_tab_run; exact Es).
  unfold Proc.sleep in Es. rewrite (upd_proc_run _ _ _ _ Hp) in Es. injection Es as <-.
  by eapply (sched_run k st); [by apply (znth_set_eq _ _ _ p)|].
Qed.

Lemma sleep_back_run st st' t i :
  sleep_back st true (at_switch st' t (mkSpinMutex 0 i tt)) =
    Ret (tt, mkSched (mkCPU false 1 st) (mkSpinMutex 0 (-1) t) (mkSpinMutex 1 c tt)).
Proof.
  unfold sleep_back, sched_back. rewrite bind_modify. cbn [sc_cpu sc_procs sc_lock at_switch intr_en ncli].
  fold (at_switch st t (mkSpinMutex 0 i tt)). rewrite (bind_run _ _ _ _ _ (drop_procs st t _)). apply in_lock_run. by rewrite acquire_run by (try split; cbn; lia).
Qed.

(** A process that holds yet another lock may not sleep. *)
Lemma sleep_nested k chan t t' n st :
  1 < n < 2 ^ 31 -> Proc.sleep k chan t = Ret (tt, t') ->
  sleep k chan true (mkSched (mkCPU false n st) (mkSpinMutex 0 (-1) t) (mkSpinMutex 1 c tt)) = Panic "sched locks".
Proof.
  intros Hn Es. unfold sleep. erewrite (bind_run (in_procs _ ≫= _)).
  2:{ erewrite bind_run by (apply in_procs_run, acquire_run; [split; cbn; lia || done|cbn; lia]).
      apply in_lock_run, release_run; cbn; lia || done. }
  erewrite bind_run by (apply in_tab_run; exact Es). unfold sched.
  erewrite bind_run by (apply in_procs_run, spin_holding_run; split; [split|]; cbn; try lia; by rewrite (proj2 (Z.eqb_neq (n + 1) 1)) by lia).
  cbn [locked cpu ncli Z.eqb negb andb]. rewrite Z.eqb_refl, bind_assert, bind_gets by done. cbn [sc_cpu ncli].
  by rewrite (proj2 (Z.eqb_neq (n + 1 - 1) 1)) by lia.
Qed.

(** [wait1] that must sleep leaves the process asleep. *)
Lemma wait1_asleep k (t t' : Table PT) : Proc.wait1 proc_addr k t = Ret (MustSleep, t') -> (procs t).[k] <> None ->
  exists p, (procs t').[k] = Some p /\ state p <> RUNNING.
Proof.
  intros E Hk. destruct (procs t).[k] as [p|] eqn:Hp; [clear Hk|done]. unfold Proc.wait1 in E. rewrite bind_gets in E. cbn [id] in E.
  destruct (position _ _) as [j|].
  - unfold mbind, M_bind in E. destruct (proc_at (Z.of_nat j) t) as [[q t1]| |]; [|done|done]. destruct (kstack q); [|done].
    destruct (pgtbl q); [|done]. cbn in E. by destruct (upd_proc _ _ _) as [[[] ?]| |].
  - rewrite (bind_run _ _ _ _ _ (proc_at_run _ _ _ Hp)) in E. destruct (_ || _); [done|]. unfold Proc.sleep in E.
    rewrite (bind_run _ _ _ _ _ (upd_proc_run _ _ _ _ Hp)) in E. injection E as <-.
    eexists. split; [by apply (znth_set_eq _ _ _ p)|done].
Qed.
End sched.

(** ** Property *)
Section property.
Context {PT : Type} (proc_addr : Z -> Z).
Hypothesis addr_inj : forall j k, proc_addr j = proc_addr k -> j = k.

(** C14: Giving up the processor never panics.  In every state that the
    process table can reach, let process [k] run on processor [c], which holds
    no lock.  [wait1] takes the table's lock and reaps a child or finds none,
    and drops it with the interrupt state as it was, or sleeps; [exit], from
    the lock of the table on and for a process other than init, and the yield
    of the timer reach the switch; so does [sleep] for a process that holds
    one lock, which is then free.  In each case the four assertions of
    [sched] hold: the table's lock is held, by this processor, interrupts are
    off and were disabled once, the process is not running; and the table is
    what the process's step makes of it.  A sleeper that comes back, on any
    processor, drops the table's lock and takes its own again, to go on with
    the interrupt state it had.  But a process that holds another lock when
    it sleeps panics. *)
Theorem giving_up_never_panics ncpu (s0 s : Sys (PT := PT)) c k e sv :
  started proc_addr ncpu s0 -> rtc (step proc_addr) s0 s -> (cpus s).[c] = Some (Some k) ->
  let t := tab s in
  let alone t l := mkSched (mkCPU e 0 sv) (mkSpinMutex 0 (-1) t) l in
  (forall l, exists r t', Proc.wait1 proc_addr k t = Ret (r, t') /\
     wait1 proc_addr c k (alone t l) =
       match r with
       | MustSleep => Ret (Sleep e, at_switch c e t' l)
       | _ => Ret (Done r, mkSched (mkCPU e 0 e) (mkSpinMutex 0 (-1) t') l)
       end) /\
  (forall l p status, k <> init_slot t -> (procs t).[k] = Some p ->
     exists r t', exit_table proc_addr k status t = Ret (r, t') /\
       exit_end proc_addr c k status (alone (put_procs (procs t).[k <- exit_take p] t) l) = Ret (e, at_switch c e t' l)) /\
  (forall l, exists t', sched_yield k t = Ret (tt, t') /\
     yield_if_running c k (alone t l) = Ret (Some e, at_switch c e t' l)) /\
  (forall chan, exists t', Proc.sleep k chan t = Ret (tt, t') /\
     sleep c k chan true (mkSched (mkCPU false 1 e) (mkSpinMutex 0 (-1) t) (mkSpinMutex 1 c tt)) =
       Ret (e, at_switch c e t' (mkSpinMutex 0 (-1) tt)) /\
     (forall c' st' (t2 : Table PT) i, sleep_back c' e true (at_switch c' st' t2 (mkSpinMutex 0 i tt)) =
        Ret (tt, mkSched (mkCPU false 1 e) (mkSpinMutex 0 (-1) t2) (mkSpinMutex 1 c' tt))) /\
     (forall n, 1 < n < 2 ^ 31 ->
        sleep c k chan true (mkSched (mkCPU false n e) (mkSpinMutex 0 (-1) t) (mkSpinMutex 1 c tt)) = Panic "sched locks")).
Proof.
  intros H0 Hr Hc t alone. destruct (reachable_inv proc_addr addr_inj _ _ _ H0 Hr) as [Hg Hci].
  pose proof (ci_run _ _ Hci _ _ Hc) as Hrun. pose proof (running_state _ _ Hrun) as (p & Hp & Hs). fold t in Hg, Hrun, Hp.
  split; [|split; [|split]].
  - intros l. destruct (wait1_runs proc_addr t k Hg Hrun) as (r & t' & E). exists r, t'. split; [done|].
    unfold wait1, wait1_pass, alone. rewrite (bind_run _ _ _ _ _ (take_procs c e sv t l (-1))).
    unfold at_switch at 1. erewrite bind_run by (by apply in_tab_run). fold (at_switch c e t' l).
    destruct r; [by rewrite (bind_run _ _ _ _ _ (drop_procs c e t' l))..|].
    destruct (wait1_asleep _ _ _ _ E ltac:(congruence)) as (q & Hq & Hnr).
    by rewrite (bind_run _ _ _ _ _ (sched_run c k e t' l q Hq Hnr)).
  - intros l p' status Hni Hp'. assert (p' = p) as -> by congruence.
    set (t1 := put_procs _ _). assert (Hp1 : (procs t1).[k] = Some (exit_take p)) by (by apply (znth_set_eq _ _ _ p)).
    destruct (exit_locked_runs proc_addr addr_inj t1 k (exit_take p) status) as (t' & E & _ & Hz & _);
      [apply (closed_inv proc_addr t k p); [done..|apply Hg]|done|done|done|].
    destruct (proj2 Hg _ _ Hp) as [wd Hwd]; [unfold initialized; by rewrite Hs|unfold is_zombie; by rewrite Hs|done|].
    eexists _, t'. split.
    + unfold exit_table. rewrite bind_gets. cbn [id].
      pose proof (table_init_range proc_addr t (proj1 Hg)).
      rewrite !bind_assert by (by apply Z.leb_le || by apply negb_true_iff, Z.eqb_neq).
      rewrite (bind_run _ _ _ _ _ (proc_at_run _ _ _ Hp)), Hwd. cbn [expect].
      by rewrite bind_mret, (bind_run _ _ _ _ _ (upd_proc_run _ _ _ _ Hp)), (bind_run _ _ _ _ _ E).
    + unfold exit_end, alone. rewrite (bind_run _ _ _ _ _ (take_procs c e sv t1 l (-1))). unfold at_switch at 1.
      erewrite bind_run by (by apply in_tab_run). fold (at_switch c e t' l).
      destruct (procs t').[k] as [q|] eqn:Hq; [|done]. injection Hz as Hz. apply (sched_run c k e t' l q Hq). by rewrite Hz.
  - intros l. eexists. split; [by apply upd_proc_run|]. unfold yield_if_running, alone.
    rewrite (bind_run _ _ _ _ _ (take_procs c e sv t l (-1))). unfold at_switch at 1.
    erewrite bind_run by (by apply in_tab_run, proc_at_run). rewrite bool_decide_eq_true_2 by done.
    erewrite bind_run by (by apply in_tab_run, upd_proc_run). set (t' := put_procs _ _). fold (at_switch c e t' l).
    rewrite (bind_run _ _ _ _ _ (sched_run c k e t' l (set_state RUNNABLE p) ltac:(by apply (znth_set_eq _ _ _ p)) ltac:(done))). done.
  - intros chan. assert (E : Proc.sleep k chan t = Ret (tt, put_procs (procs t).[k <- set_state (SLEEPING chan) p] t)) by (by apply upd_proc_run).
    eexists. split; [exact E|]. split; [by apply (sched_sleep_run c k chan t _ p)|]. split; [intros; apply sleep_back_run|].
    intros n Hn. by eapply sleep_nested.
Qed.
End property.

(** Init, back from its sleep in [wait] on processor 0, finds the child that
    has exited. *)
Lemma giving_up_never_panics_witness :
  exists t', wait1 Demo.addr 0 0 (mkSched (mkCPU true 0 false) (mkSpinMutex 0 (-1) Demo.t7) (SpinMutex_new tt)) =
    Ret (Done (Reaped 2 3 65 tt), mkSched (mkCPU true 0 true) (mkSpinMutex 0 (-1) t') (SpinMutex_new tt)).
Proof.
  destruct (giving_up_never_panics Demo.addr Demo.addr_inj 2 _ _ 0 0 true false Demo.s0_started Demo.s7_reached eq_refl) as (H & _).
  destruct (H (SpinMutex_new tt)) as (r & t' & E & Er). exists t'. vm_compute in E. injection E as <- _. exact Er.
Defined.
