(* ===== verification/SleeplockSpec.v ===== *)
(** Sleep locks, [sleeplock.rs], on the process table: the atomic sections of
    [acquire] and [release] interleaved with one another and with the
    scheduler, other sleepers, wakeups and kills.  The lock has one holder,
    nobody sleeps on a free lock, and [Sleeplock]'s reading of a call by a
    lone process is what the sections come to. *)
From stdpp Require Import base list gmap strings relations.
From Stdlib Require Import ZArith Lia.
From S2P Require Import Prelude.
From S2P Require Import Sleeplock.
From S2P Require Import Proc.
From S2P Require Import ProcSpec.

Section sleeplock.
(** [chan] is the lock's address ([as_chan]). *)
Context {PT : Type} (chan : Z).

(** Where a process is: outside, in the loop of [acquire], holding the lock,
    or in [release] past its assertion. *)
Inductive Place := Outside | Trying | Holding | Releasing.
#[local] Instance Place_eq_dec : EqDecision Place.
Proof. solve_decision. Defined.

Record Locker := mkLocker { slk : Sleeplock; ptab : Table PT; places : list Place }.
Notation T := (M Locker).

Definition in_table {A} (m : M (Table PT) A) : T A := fun s =>
  match m (ptab s) with
  | Ret (a, t') => Ret (a, mkLocker (slk s) t' (places s))
  | Panic e => Panic e
  | Diverge => Diverge
  end.
Definition put_lock (l : Sleeplock) : T unit := modify (fun s => mkLocker l (ptab s) (places s)).
Definition go (me : Z) (q : Place) : T unit :=
  modify (fun s => mkLocker (slk s) (ptab s) (places s).[me <- q]).
Definition mypid (me : Z) : T Z := p ← in_table (proc_at me); mret (Proc.pid p).

(** ** The sections

    [holding] is a section of its own before that of the loop; a turn of the
    loop either takes the lock or goes to sleep, which gives up the lock's
    spinlock only once the process is asleep. *)
Definition holding (me : Z) : T bool :=
  n ← mypid me; l ← gets slk; mret (Sleeplock_holding n l).

Definition acquire_assert (me : Z) : T unit :=
  h ← holding me; assert_ (negb h) "nested sleep lock";; go me Trying.

Definition acquire_turn (me : Z) : T unit :=
  l ← gets slk;
  if locked l then in_table (sleep me chan)
  else n ← mypid me; put_lock (mkSleeplock true n);; go me Holding.

Definition release_assert (me : Z) : T unit :=
  h ← holding me; assert_ h "unlocking unheld sleep lock";; go me Releasing.

Definition release_turn (me : Z) : T unit :=
  put_lock (mkSleeplock false 0);;
  in_table (wakeup chan);;
  go me Outside.

(** The section a process at [q] runs next. *)
Definition section (me : Z) (q : Place) : T unit :=
  match q with
  | Outside => acquire_assert me
  | Trying => acquire_turn me
  | Holding => release_assert me
  | Releasing => release_turn me
  end.

(** The steps: a section of a running process; the scheduler; a process that
    is not in the loop goes to sleep on something else; a wakeup; a kill. *)
Inductive lstep : Locker -> Locker -> Prop :=
| l_section me q s s' :
    running (ptab s) me -> (places s).[me] = Some q -> section me q s = Ret (tt, s') -> lstep s s'
| l_run me s s' : in_table (run me) s = Ret (tt, s') -> lstep s s'
| l_yield me s s' : running (ptab s) me -> in_table (sched_yield me) s = Ret (tt, s') -> lstep s s'
| l_sleep me q ch s s' :
    running (ptab s) me -> (places s).[me] = Some q -> q <> Trying -> ch <> chan ->
    in_table (sleep me ch) s = Ret (tt, s') -> lstep s s'
| l_wakeup ch s s' : in_table (wakeup ch) s = Ret (tt, s') -> lstep s s'
| l_kill n r s s' : in_table (kill n) s = Ret (r, s') -> lstep s s'.

(** ** The invariant *)
Definition live (p : Proc PT) : bool :=
  match state p with SLEEPING _ | RUNNABLE | RUNNING => true | _ => false end.

(** Live processes have pids of their own, none of them zero. *)
Definition pids_ok (t : Table PT) : Prop := forall j k p q,
  (procs t).[j] = Some p -> (procs t).[k] = Some q -> live p = true -> live q = true ->
  Proc.pid p <> 0 /\ (Proc.pid p = Proc.pid q -> j = k).

Definition owns (q : Place) : bool := match q with Holding | Releasing => true | _ => false end.

(** [o] is the slot of the holder. *)
Definition holder_is (qs : list Place) (o : option Z) : Prop :=
  forall k, o = Some k <-> exists q, qs.[k] = Some q /\ owns q = true.

(** The lock word and the pid of its holder. *)
Definition lock_of (t : Table PT) (l : Sleeplock) (o : option Z) : Prop :=
  match o with
  | Some k => exists p, (procs t).[k] = Some p /\ live p = true /\ l = mkSleeplock true (Proc.pid p)
  | None => l = mkSleeplock false 0
  end.

Record lock_inv (s : Locker) : Prop := {
  li_pids : pids_ok (ptab s);
  li_len : zlen (places s) = zlen (procs (ptab s));
  li_lock : exists o, holder_is (places s) o /\ lock_of (ptab s) (slk s) o;
  li_sleep : forall k p, (procs (ptab s)).[k] = Some p -> state p = SLEEPING chan ->
    (places s).[k] = Some Trying /\ locked (slk s) = true }.

(** ** Changes of the table that keep pids *)
Definition same_ids (t t' : Table PT) : Prop :=
  zlen (procs t') = zlen (procs t) /\
  forall k p', (procs t').[k] = Some p' -> exists p, (procs t).[k] = Some p /\
    Proc.pid p' = Proc.pid p /\ live p' = live p.

(** Nobody falls asleep on the lock. *)
Definition no_new_sleeper (t t' : Table PT) : Prop := forall k p p',
  (procs t).[k] = Some p -> (procs t').[k] = Some p' -> state p' = SLEEPING chan -> state p = SLEEPING chan.

Lemma same_ids_pids t t' : same_ids t t' -> pids_ok t -> pids_ok t'.
Proof.
  intros [_ H] Hp j k p q Hj Hk Lp Lq.
  destruct (H _ _ Hj) as (p0 & Hj0 & -> & El). destruct (H _ _ Hk) as (q0 & Hk0 & -> & El').
  apply (Hp j k p0 q0); congruence.
Qed.

Lemma same_ids_lock t t' l o : same_ids t t' -> lock_of t l o -> lock_of t' l o.
Proof.
  intros [Hl H]. destruct o as [k|]; [|done]. intros (p & Hk & Lp & ->).
  destruct (znth_lt (procs t') k) as [p' Hk']; [rewrite Hl; by eapply znth_range|].
  destruct (H _ _ Hk') as (p0 & Hk0 & Ep & El). simplify_eq. exists p'. split; [done|]. split; congruence.
Qed.

(** A step of the table alone keeps the invariant. *)
Lemma locker_table_step s t' :
  same_ids (ptab s) t' -> no_new_sleeper (ptab s) t' -> lock_inv s ->
  lock_inv (mkLocker (slk s) t' (places s)).
Proof.
  intros Hs Hn [Hp Hl (o & Ho & Hk) Hz]. split; cbn.
  - by eapply same_ids_pids.
  - destruct Hs as [-> _]. done.
  - exists o. split; [done|]. by eapply same_ids_lock.
  - intros k p' Hk' Hst. destruct Hs as [_ Hs]. destruct (Hs _ _ Hk') as (p & Hkp & _).
    apply (Hz k p); eauto.
Qed.

Lemma upd_same_ids t k p p' :
  (procs t).[k] = Some p -> Proc.pid p' = Proc.pid p -> live p' = live p ->
  same_ids t (put_procs (procs t).[k <- p'] t).
Proof.
  intros Hk Ep El. pose proof (znth_range _ _ _ Hk). split; cbn; [apply zlen_zset|].
  intros j q. rewrite znth_zset by done. case_decide; [|eauto]. subst. intros [= <-]. eauto.
Qed.

Lemma upd_no_sleeper t k p p' :
  (procs t).[k] = Some p -> (state p' = SLEEPING chan -> state p = SLEEPING chan) ->
  no_new_sleeper t (put_procs (procs t).[k <- p'] t).
Proof.
  intros Hk Hs j q q' Hq Hq'. cbn in Hq'. pose proof (znth_range _ _ _ Hk).
  rewrite znth_zset in Hq' by done. case_decide; simplify_eq; auto.
Qed.

Lemma wakeup_same_ids t ch : same_ids t (put_procs (wakeup1 ch (procs t)) t).
Proof.
  split; cbn; [unfold wakeup1, zlen; by rewrite length_fmap|].
  intros k p'. rewrite wakeup1_lookup. intros (p & Hk & ->)%fmap_Some. exists p. split; [done|].
  case_bool_decide as Hs; [|done]. unfold live. cbn. by rewrite Hs.
Qed.

Lemma wakeup_no_sleeper t ch : no_new_sleeper t (put_procs (wakeup1 ch (procs t)) t).
Proof.
  intros k p p' Hk Hk'. cbn in Hk'. rewrite wakeup1_lookup, Hk in Hk'. injection Hk' as <-.
  by case_bool_decide.
Qed.

(** ** Runs of the sections *)
Lemma in_table_run {A} (m : M (Table PT) A) s a t' :
  m (ptab s) = Ret (a, t') -> in_table m s = Ret (a, mkLocker (slk s) t' (places s)).
Proof. intros E. unfold in_table. by rewrite E. Qed.

Lemma mypid_run me s p : (procs (ptab s)).[me] = Some p -> mypid me s = Ret (Proc.pid p, s).
Proof.
  intros H. unfold mypid. rewrite (bind_run _ _ _ _ _ (in_table_run _ _ _ _ (proc_at_run _ _ _ H))). by destruct s.
Qed.

Lemma sl_holding_run me s p :
  (procs (ptab s)).[me] = Some p -> holding me s = Ret (Sleeplock_holding (Proc.pid p) (slk s), s).
Proof. intros H. unfold holding. by rewrite (bind_run _ _ _ _ _ (mypid_run _ _ _ H)). Qed.

Lemma sleep_run me ch s p :
  (procs (ptab s)).[me] = Some p ->
  in_table (sleep me ch) s = Ret (tt, mkLocker (slk s)
    (put_procs (procs (ptab s)).[me <- set_state (SLEEPING ch) p] (ptab s)) (places s)).
Proof. intros H. apply in_table_run. by apply upd_proc_run. Qed.

(** What the sections of a call come to when no other process takes a step in
    between: the sequential reading of [Sleeplock], with sleeping for its
    non-return. *)
Lemma acquire_sequential me s p :
  (procs (ptab s)).[me] = Some p ->
  (acquire_assert me;; acquire_turn me) s =
    match Sleeplock_acquire (Proc.pid p) (slk s) with
    | Ret l => Ret (tt, mkLocker l (ptab s) (places s).[me <- Holding])
    | Panic e => Panic e
    | Diverge => Ret (tt, mkLocker (slk s)
        (put_procs (procs (ptab s)).[me <- set_state (SLEEPING chan) p] (ptab s)) (places s).[me <- Trying])
    end.
Proof.
  intros H. unfold Sleeplock_acquire.
  assert (Ea : acquire_assert me s = if Sleeplock_holding (Proc.pid p) (slk s) then Panic "nested sleep lock"
    else Ret (tt, mkLocker (slk s) (ptab s) (places s).[me <- Trying])).
  { unfold acquire_assert. rewrite (bind_run _ _ _ _ _ (sl_holding_run _ _ _ H)). by destruct (Sleeplock_holding _ _). }
  destruct (Sleeplock_holding _ _); [by rewrite (bind_panic _ _ _ _ Ea)|].
  rewrite (bind_run _ _ _ _ _ Ea). unfold acquire_turn. rewrite bind_gets. cbn [slk].
  destruct (locked (slk s)); [by rewrite (sleep_run _ _ (mkLocker _ _ _) _ H)|].
  erewrite bind_run by (by apply mypid_run). unfold put_lock, go. run. cbn. by rewrite zset_zset.
Qed.

Lemma release_sequential me s p :
  (procs (ptab s)).[me] = Some p ->
  (release_assert me;; release_turn me) s =
    match Sleeplock_release (Proc.pid p) (slk s) with
    | Ret l => Ret (tt, mkLocker l (put_procs (wakeup1 chan (procs (ptab s))) (ptab s)) (places s).[me <- Outside])
    | Panic e => Panic e
    | Diverge => Diverge
    end.
Proof.
  intros H. unfold Sleeplock_release, release_assert.
  unfold mbind at 1, M_bind at 1. rewrite (bind_run _ _ _ _ _ (sl_holding_run _ _ _ H)).
  destruct (Sleeplock_holding _ _); [|done]. unfold release_turn, put_lock, go, in_table, wakeup. run. cbn. by rewrite zset_zset.
Qed.

(** ** The sections keep the invariant *)
Lemma holder_move qs o me q q' :
  holder_is qs o -> qs.[me] = Some q ->
  (owns q' = true -> o = None \/ owns q = true) ->
  holder_is qs.[me <- q'] (if owns q' then Some me else if owns q then None else o).
Proof.
  intros Ho Hme Ht k. pose proof (znth_range _ _ _ Hme) as Hr. rewrite znth_zset by done.
  assert (Hq : owns q = true -> o = Some me) by (intros; apply Ho; eauto).
  destruct (decide (me = k)) as [->|Hk].
  - destruct (owns q') eqn:E'; [split; [eauto|done]|]. split; [|intros (x & [= <-] & ?); congruence].
    destruct (owns q) eqn:E; [done|]. intros (x & ? & ?)%Ho. congruence.
  - destruct (owns q) eqn:E.
    + rewrite (Hq eq_refl) in *. split; [destruct (owns q'); congruence|]. intros H%Ho. congruence.
    + destruct (owns q') eqn:E'; [|apply Ho]. destruct (Ht eq_refl) as [->|]; [|done].
      split; [congruence|]. intros H%Ho. done.
Qed.

(** A move of a running process from [q] to [q'], the lock becoming [l']. *)
Lemma place_move s me p q q' l' o :
  lock_inv s -> (procs (ptab s)).[me] = Some p -> state p = RUNNING -> (places s).[me] = Some q ->
  holder_is (places s) o -> (owns q' = true -> o = None \/ owns q = true) ->
  lock_of (ptab s) l' (if owns q' then Some me else if owns q then None else o) ->
  (locked (slk s) = true -> locked l' = true) ->
  lock_inv (mkLocker l' (ptab s) (places s).[me <- q']).
Proof.
  intros Hi Hp Hr Hq Ho Ht Hl Hm. split; cbn.
  - apply (li_pids _ Hi).
  - rewrite zlen_zset. apply (li_len _ Hi).
  - eexists. split; [by eapply holder_move|done].
  - intros k pk Hk Hs. destruct (li_sleep _ Hi _ _ Hk Hs) as [Hk' Hl']. split; [|auto].
    rewrite znth_zset_ne; [done|]. intros ->. congruence.
Qed.

Section one.
Context (s : Locker) (me : Z) (p : Proc PT).
Hypothesis Hinv : lock_inv s.
Hypothesis Hp : (procs (ptab s)).[me] = Some p.
Hypothesis Hrun : state p = RUNNING.

Lemma run_live : live p = true.
Proof. unfold live. by rewrite Hrun. Qed.

(** [holding] tells whether the process owns the lock. *)
Lemma holding_owns q :
  (places s).[me] = Some q -> Sleeplock_holding (Proc.pid p) (slk s) = owns q.
Proof.
  intros Hq. destruct (li_lock _ Hinv) as (o & Ho & Hl). unfold Sleeplock_holding.
  destruct o as [k|]; cbn in Hl.
  - destruct Hl as (pk & Hk & Lk & ->). cbn. destruct (decide (k = me)) as [->|Hne].
    + destruct (proj1 (Ho me) eq_refl) as (q' & Hq' & E). simplify_eq. by rewrite E, Z.eqb_refl.
    + destruct (li_pids _ Hinv k me pk p Hk Hp Lk run_live) as [_ Hd].
      rewrite (proj2 (Z.eqb_neq _ _)) by (intros E; by apply Hne, Hd).
      destruct (owns q) eqn:E; [|done]. assert (Some k = Some me) by (apply Ho; eauto). congruence.
  - subst. rewrite Hl. cbn [Sleeplock.pid]. destruct (li_pids _ Hinv me me p p Hp Hp run_live run_live) as [Hz _].
    rewrite (proj2 (Z.eqb_neq _ _)) by done. destruct (owns q) eqn:E; [|done].
    assert (None = Some me) by (apply Ho; eauto). done.
Qed.

Lemma acquire_turn_ok :
  (places s).[me] = Some Trying -> exists s', acquire_turn me s = Ret (tt, s') /\ lock_inv s'.
Proof.
  intros Hq. destruct (li_lock _ Hinv) as (o & Ho & Hl).
  unfold acquire_turn. rewrite bind_gets. destruct (locked (slk s)) eqn:El.
  - rewrite (sleep_run _ _ _ _ Hp). eexists. split; [done|].
    assert (Hs : same_ids (ptab s) (put_procs (procs (ptab s)).[me <- set_state (SLEEPING chan) p] (ptab s))).
    { eapply upd_same_ids; [done..|]. by rewrite run_live. }
    split; cbn.
    + eapply same_ids_pids; [done|apply (li_pids _ Hinv)].
    + rewrite zlen_zset. apply (li_len _ Hinv).
    + exists o. split; [done|]. by eapply same_ids_lock.
    + intros k pk. rewrite znth_zset by (by eapply znth_range).
      case_decide; [by subst|]. intros ? ?. by eapply (li_sleep _ Hinv).
  - rewrite (bind_run _ _ _ _ _ (mypid_run _ _ _ Hp)). eexists. split; [done|].
    destruct o as [k|]; cbn in Hl; [destruct Hl as (? & _ & _ & E); by rewrite E in El|].
    eapply (place_move s); try done; [by left|]. exists p. split; [done|]. split; [apply run_live|done].
Qed.

Lemma release_turn_ok :
  (places s).[me] = Some Releasing -> exists s', release_turn me s = Ret (tt, s') /\ lock_inv s'.
Proof.
  intros Hq. destruct (li_lock _ Hinv) as (o & Ho & Hl).
  pose proof (holder_move _ _ _ _ Outside Ho Hq ltac:(done)) as Ho'.
  eexists. split; [done|]. split; cbn.
  - eapply same_ids_pids; [apply wakeup_same_ids|apply (li_pids _ Hinv)].
  - rewrite zlen_zset, (li_len _ Hinv). unfold wakeup1, zlen. by rewrite length_fmap.
  - by exists None.
  - intros k pk. rewrite wakeup1_lookup. intros (p0 & _ & ->)%fmap_Some. by case_bool_decide.
Qed.

Lemma section_ok q :
  (places s).[me] = Some q -> exists s', section me q s = Ret (tt, s') /\ lock_inv s'.
Proof.
  intros Hq. pose proof (holding_owns _ Hq) as Hh. destruct (li_lock _ Hinv) as (o & Ho & Hl).
  destruct q; cbn [section owns] in *.
  - unfold acquire_assert. rewrite (bind_run _ _ _ _ _ (sl_holding_run _ _ _ Hp)), Hh.
    eexists. split; [done|]. by eapply (place_move s).
  - by apply acquire_turn_ok.
  - unfold release_assert. rewrite (bind_run _ _ _ _ _ (sl_holding_run _ _ _ Hp)), Hh.
    eexists. split; [done|]. eapply (place_move s); try done; [by right|].
    cbn. by rewrite (proj2 (Ho me) (ex_intro _ _ (conj Hq eq_refl))) in Hl.
  - by apply release_turn_ok.
Qed.
End one.

Lemma in_table_inv {A} (m : M (Table PT) A) s a s' :
  in_table m s = Ret (a, s') -> exists t', m (ptab s) = Ret (a, t') /\ s' = mkLocker (slk s) t' (places s).
Proof. unfold in_table. destruct (m (ptab s)) as [[? t']| |]; [|done..]. intros [= <- <-]. eauto. Qed.

(** A change of one process's state between the live states. *)
Lemma upd_locker_step s k p p' :
  lock_inv s -> (procs (ptab s)).[k] = Some p -> Proc.pid p' = Proc.pid p -> live p' = live p ->
  (state p' = SLEEPING chan -> state p = SLEEPING chan) ->
  lock_inv (mkLocker (slk s) (put_procs (procs (ptab s)).[k <- p'] (ptab s)) (places s)).
Proof. intros. apply locker_table_step; [by eapply upd_same_ids|by eapply upd_no_sleeper|done]. Qed.

Lemma lstep_inv s s' : lstep s s' -> lock_inv s -> lock_inv s'.
Proof.
  intros Hst Hi. destruct Hst as [me q s s' Hr Hq E|me s s' E|me s s' Hr E|me q ch s s' Hr Hq Hn Hc E|ch s s' E|n r s s' E].
  - apply running_state in Hr as (p & Hp & Hs). destruct (section_ok _ _ _ Hi Hp Hs _ Hq) as (s2 & E2 & ?). congruence.
  - apply in_table_inv in E as (t' & E & ->). unfold run in E.
    destruct (procs (ptab s)).[me] as [p|] eqn:Hp; [|unfold proc_at in E; run; cbn in E; by rewrite Hp in E].
    rewrite (bind_run _ _ _ _ _ (proc_at_run _ _ _ Hp)) in E. case_bool_decide as Hs; [|done]. cbn in E.
    apply upd_proc_inv in E as (p0 & Hp0 & ->). simplify_eq. eapply upd_locker_step; try done.
    unfold live. cbn. by rewrite Hs.
  - apply in_table_inv in E as (t' & E & ->). apply upd_proc_inv in E as (p & Hp & ->).
    apply running_state in Hr as (p0 & Hp0 & Hs). simplify_eq. eapply upd_locker_step; try done.
    unfold live. cbn. by rewrite Hs.
  - apply in_table_inv in E as (t' & E & ->). apply upd_proc_inv in E as (p & Hp & ->).
    apply running_state in Hr as (p0 & Hp0 & Hs). simplify_eq. eapply upd_locker_step; try done.
    + unfold live. cbn. by rewrite Hs.
    + cbn. congruence.
  - apply in_table_inv in E as (t' & [= <-] & ->). apply locker_table_step; [apply wakeup_same_ids|apply wakeup_no_sleeper|done].
  - apply in_table_inv in E as (t' & E & ->). unfold kill in E. rewrite bind_gets in E.
    destruct (position _ _) as [i|]; [|injection E as <- <-; by destruct s].
    unfold mbind, M_bind in E. destruct (upd_proc _ _ _) as [[[] t1]| |] eqn:Hu; try done.
    injection E as <- <-. apply upd_proc_inv in Hu as (p & Hk & ->). cbn [id] in *.
    eapply upd_locker_step; try done; unfold is_sleeping, live; cbn; by destruct (state p) eqn:E; cbn; rewrite ?E.
Qed.

(** Nobody has called [acquire] yet, and nobody sleeps on the lock's address. *)
Definition lock_start (t : Table PT) : Locker :=
  mkLocker Sleeplock_new t (replicate (length (procs t)) Outside).
Definition fresh_lock (t : Table PT) : Prop :=
  pids_ok t /\ forall k p, (procs t).[k] = Some p -> state p <> SLEEPING chan.

Lemma lock_start_inv t : fresh_lock t -> lock_inv (lock_start t).
Proof.
  intros [Hp Hs]. split; cbn; [done|unfold zlen; by rewrite length_replicate| |].
  - exists None. split; [|done]. intros k. split; [done|]. intros (q & Hq & Eq).
    apply znth_Some in Hq as [_ Hq]. apply lookup_replicate in Hq as [-> _]. done.
  - intros k p Hk E. by destruct (Hs _ _ Hk).
Qed.

Lemma lock_reachable t s : fresh_lock t -> rtc lstep (lock_start t) s -> lock_inv s.
Proof.
  intros Hf Hs. apply lock_start_inv in Hf. revert Hf. induction Hs; eauto using lstep_inv.
Qed.

(** ** Properties *)

(** C18: sleep locks exclude and wake.  Processes acquire and release one lock,
    their sections interleaved in any order with the scheduler, sleeping on
    other things, wakeups and kills.  Then at most one process holds the lock,
    and the lock records it; while nobody does, the lock is as new and no
    process sleeps on it, so that no wakeup is lost; no section of a running
    process panics; the first to run its turn of the loop takes a free lock;
    and acquiring a lock already held panics. *)
Theorem sleep_lock_excludes t s :
  fresh_lock t -> rtc lstep (lock_start t) s ->
  (forall j k qj qk, (places s).[j] = Some qj -> (places s).[k] = Some qk ->
     owns qj = true -> owns qk = true -> j = k) /\
  (forall k p q, (procs (ptab s)).[k] = Some p -> (places s).[k] = Some q -> owns q = true ->
     slk s = mkSleeplock true (Proc.pid p)) /\
  ((forall k q, (places s).[k] = Some q -> owns q = false) ->
     slk s = Sleeplock_new /\
     (forall k p, (procs (ptab s)).[k] = Some p -> state p <> SLEEPING chan) /\
     (forall me p, (procs (ptab s)).[me] = Some p -> state p = RUNNING -> (places s).[me] = Some Trying ->
        acquire_turn me s = Ret (tt, mkLocker (mkSleeplock true (Proc.pid p)) (ptab s) (places s).[me <- Holding]))) /\
  (forall me q, running (ptab s) me -> (places s).[me] = Some q ->
     (exists s', section me q s = Ret (tt, s')) /\
     (owns q = true -> acquire_assert me s = Panic "nested sleep lock")).
Proof.
  intros Hf Hs. pose proof (lock_reachable _ _ Hf Hs) as Hi. destruct (li_lock _ Hi) as (o & Ho & Hl).
  assert (Hown : forall k q, (places s).[k] = Some q -> owns q = true -> o = Some k) by (intros; apply Ho; eauto).
  split; [intros j k qj qk Hj Hk Ej Ek; pose proof (Hown _ _ Hj Ej); pose proof (Hown _ _ Hk Ek); congruence|].
  split; [intros k p q Hp Hq Eq; rewrite (Hown _ _ Hq Eq) in Hl; destruct Hl as (p0 & ? & _ & ->); by simplify_eq|].
  split.
  - intros Hfree.
    assert (E : slk s = Sleeplock_new).
    { destruct o as [k|]; [|done]. destruct (proj1 (Ho k) eq_refl) as (q & Hq & Eq). by rewrite (Hfree _ _ Hq) in Eq. }
    split; [done|]. split; [intros k p Hp Hst; destruct (li_sleep _ Hi _ _ Hp Hst) as [_ X]; by rewrite E in X|].
    intros me p Hp Hr Hq. unfold acquire_turn. rewrite bind_gets, E. cbn.
    by rewrite (bind_run _ _ _ _ _ (mypid_run _ _ _ Hp)).
  - intros me q Hr Hq. apply running_state in Hr as (p & Hp & Hst). split.
    + destruct (section_ok _ _ _ Hi Hp Hst _ Hq) as (s' & ? & _). eauto.
    + intros Eq. unfold acquire_assert. rewrite (bind_run _ _ _ _ _ (sl_holding_run _ _ _ Hp)).
      by rewrite (holding_owns _ _ _ Hi Hp Hst _ Hq), Eq.
Qed.
End sleeplock.

(** ** A run: the first process takes the lock, the second sleeps on it, the
    first releases it and the second takes it. *)
Module LockDemo.
(** One act of process [me]: its next section, or being scheduled. *)
Definition act (chan : Z) (a : Z * bool) (s : @Locker unit) : outcome Locker :=
  let '(me, scheduled) := a in
  let m := if (scheduled : bool) then in_table (run me)
           else q ← gets places; q' ← expect q.[me] "no such process"; section chan me q' in
  match m s with Ret (_, s') => Ret s' | Panic e => Panic e | Diverge => Diverge end.

Fixpoint acts (chan : Z) (l : list (Z * bool)) (s : @Locker unit) : outcome Locker :=
  match l with
  | [] => Ret s
  | a :: l' =>
    if snd a || bool_decide (state <$> (procs (ptab s)).[fst a] = Some RUNNING) then
      match act chan a s with Ret s' => acts chan l' s' | Panic e => Panic e | Diverge => Diverge end
    else Panic "not running"
  end.

Lemma acts_steps chan l s s' : acts chan l s = Ret s' -> rtc (lstep chan) s s'.
Proof.
  revert s. induction l as [|[me b] l IH]; intros s; cbn [acts]; [intros [= <-]; apply rtc_refl|].
  destruct (snd _ || _) eqn:Hr; [|done]. destruct (act chan (me, b) s) as [s1| |] eqn:E; try done.
  intros H%IH. eapply rtc_l; [|exact H]. unfold act in E. destruct b; cbn in Hr.
  - destruct (in_table (run me) s) as [[[] s2]| |] eqn:E2; simplify_eq. by eapply l_run.
  - apply bool_decide_eq_true in Hr. rewrite bind_gets in E.
    destruct ((places s).[me]) as [q|] eqn:Hq; cbn in E; [|done]. unfold mbind, M_bind in E. cbn in E.
    destruct (section chan me q s) as [[[] s2]| |] eqn:E2; simplify_eq. by eapply l_section.
Qed.

Definition proc_with (n : Z) : Proc unit := mkProc RUNNING n None false None None [] 0 [] None.
Definition two : Table unit := mkTable [proc_with 1; proc_with 2] 3 0.
Definition chan : Z := 77.
Definition handover : outcome Locker :=
  acts chan [(0, false); (0, false); (1, false); (1, false); (0, false); (0, false); (1, true)] (lock_start two).

Lemma two_procs k p : (procs two).[k] = Some p -> k = 0 /\ p = proc_with 1 \/ k = 1 /\ p = proc_with 2.
Proof.
  intros H. pose proof (znth_range _ _ _ H) as Hr. change (0 <= k < 2) in Hr.
  assert (k = 0 \/ k = 1) as [->| ->] by lia; cbn in H; injection H as <-; auto.
Qed.

Lemma two_fresh : fresh_lock chan two.
Proof.
  split.
  - intros j k p q [[-> ->]|[-> ->]]%two_procs [[-> ->]|[-> ->]]%two_procs _ _; done.
  - intros k p [[-> ->]|[-> ->]]%two_procs; done.
Qed.
End LockDemo.

Lemma sleep_lock_excludes_witness :
  fresh_lock LockDemo.chan LockDemo.two /\
  exists s s', LockDemo.handover = Ret s /\ (places s = [Outside; Trying]) /\ slk s = Sleeplock_new /\
    acquire_turn LockDemo.chan 1 s = Ret (tt, s') /\ slk s' = mkSleeplock true 2.
Proof.
  split; [exact LockDemo.two_fresh|].
  assert (E : exists s, LockDemo.handover = Ret s) by (eexists; vm_compute; reflexivity).
  destruct E as [s E]. pose proof (LockDemo.acts_steps _ _ _ _ E) as Hs.
  pose proof (sleep_lock_excludes LockDemo.chan LockDemo.two s LockDemo.two_fresh Hs) as (_ & _ & H & _).
  clear Hs. vm_compute in E. injection E as <-.
  destruct H as (H1 & _ & H3).
  { intros k q Hk. pose proof (znth_range _ _ _ Hk) as Hr. change (0 <= k < 2) in Hr.
    assert (k = 0 \/ k = 1) as [->| ->] by lia; cbn in Hk; by injection Hk as <-. }
  eexists _, _. split; [vm_compute; reflexivity|]. split; [reflexivity|]. split; [exact H1|].
  split; [exact (H3 1 _ eq_refl eq_refl eq_refl)|reflexivity].
Defined.
