(* ===== verification/Kmem.v ===== *)
(** Physical memory at boot, [kmem.rs]: the boot loader's memory map, parsed
    entry by entry, and the pages given to the page allocator. *)
From stdpp Require Import base list gmap strings.
From Stdlib Require Import ZArith Lia.
From S2P Require Import Prelude.
From S2P Require Import Arch.
From S2P Require Import Kalloc.

Inductive MemType := Nothing | Memory | System | Reserved.
#[export] Instance MemType_eq_dec : EqDecision MemType.
Proof. solve_decision. Defined.

Record MemMapEntry := mkMemMapEntry { me_start : Z; me_end : Z; me_typ : MemType }.

Definition ENTRY_SIZE : Z := 24.

Definition mem_type (t : Z) : MemType :=
  if t =? 1 then Memory else if (2 <=? t) && (t <=? 4) then System else Reserved.

(** [MemMapIterator::next] on the bytes of the region: the entry at [offset]
    and the offset after it. *)
Definition memmap_next (region : list Z) (offset : Z) : outcome (option (MemMapEntry * Z)) :=
  if (zlen region <=? offset) || (zlen region - offset <? ENTRY_SIZE) then Ret None
  else
    let bs := zslice region offset (offset + ENTRY_SIZE) in
    let size := from_le (zslice bs 0 4) in
    let start := from_le (zslice bs 4 12) in
    let len := from_le (zslice bs 12 20) in
    let typ := mem_type (from_le (zslice bs 20 24)) in
    if 2 ^ 64 <=? start + len then Panic "attempt to add with overflow"
    else Ret (Some (mkMemMapEntry start (start + len) typ, offset + (size + 4))).

(** Every entry moves the offset by at least four bytes. *)
Fixpoint memmap_entries (fuel : nat) (region : list Z) (offset : Z) : outcome (list MemMapEntry) :=
  match fuel with
  | O => Diverge
  | S fuel' =>
    match memmap_next region offset with
    | Ret None => Ret []
    | Ret (Some (e, offset')) =>
      match memmap_entries fuel' region offset' with
      | Ret es => Ret (e :: es)
      | Panic m => Panic m
      | Diverge => Diverge
      end
    | Panic m => Panic m
    | Diverge => Diverge
    end
  end.

(** [early_init] on the boot flags and the region: the entries of [MEM_MAP]. *)
Definition early_init (flags : Z) (region : list Z) : outcome (list MemMapEntry) :=
  if Z.testbit flags 6 then
    match memmap_entries (S (length region)) region 0 with
    | Ret es => if 256 <? zlen es then Panic "index out of bounds" else Ret es
    | r => r
    end
  else Panic "assertion failed: boot_info.flags & (1 << 6) != 0".

Definition EARLY_FREE_END : Z := 128 * 1024 * 1024.
Definition DEVSPACE : Z := 0xFE000000.
Definition GIG4 : Z := 0x100000000.

(** [page_slice_mut] as the addresses of the pages of the slice. *)
Definition page_slice_mut (ustart uend : Z) : outcome (list Z) :=
  if negb (ustart mod PAGE_SIZE =? 0) then Panic "page_slice_mut: unaligned start page"
  else if negb (uend mod PAGE_SIZE =? 0) then Panic "page_slice_mut: unaligned end page"
  else if negb (ustart <? uend) then Panic "page_slice_mut: bad range"
  else Ret (step_range ustart uend PAGE_SIZE).

Definition early_pages (end_addr : Z) : outcome (list Z) :=
  page_slice_mut end_addr (EARLY_FREE_END + KERNBASE).

Definition free_phys_range (start stop : Z) : M FreeList unit :=
  ps ← lift (page_slice_mut (start + KERNBASE) (stop + KERNBASE));
  free_pages ps.

Fixpoint free_map_entries (es : list MemMapEntry) : M FreeList unit :=
  match es with
  | [] => mret tt
  | e :: es' =>
    (if negb (bool_decide (me_typ e = Memory)) || (me_end e <? EARLY_FREE_END) then mret tt
     else free_phys_range (Z.max (me_start e) EARLY_FREE_END) (me_end e));;
    free_map_entries es'
  end.

Definition kmem_init (mem_map : list MemMapEntry) : M FreeList unit :=
  free_map_entries mem_map;;
  free_phys_range 0x01000 0x07000;;
  free_phys_range 0x08000 0x80000.

(** ** The iterator reads back an encoded map

    The boot loader's encoding of a map: each entry is preceded by the size
    of what follows it. *)
Record region_spec := mkRegion { r_start : Z; r_len : Z; r_type : Z }.
Definition region_ok (r : region_spec) : Prop :=
  0 <= r_start r /\ 0 <= r_len r /\ r_start r + r_len r < 2 ^ 64 /\ uN 32 (r_type r).
Definition encode_region (r : region_spec) : list Z :=
  le_bytes 4 20 ++ le_bytes 8 (r_start r) ++ le_bytes 8 (r_len r) ++ le_bytes 4 (r_type r).
Definition encode_map (rs : list region_spec) : list Z := rs ≫= encode_region.
Definition region_entry (r : region_spec) : MemMapEntry :=
  mkMemMapEntry (r_start r) (r_start r + r_len r) (mem_type (r_type r)).

Lemma zlen_encode r : zlen (encode_region r) = 24.
Proof. unfold encode_region. rewrite !zlen_app, !zlen_le_bytes. done. Qed.

Lemma zslice_app_at {A} (pre x post : list A) a b :
  a = zlen pre -> b = zlen pre + zlen x -> zslice (pre ++ x ++ post) a b = x.
Proof.
  intros -> ->. unfold zslice, zlen. rewrite Nat2Z.id, drop_app_length.
  replace (Z.to_nat _) with (length x) by lia. apply take_app_length.
Qed.

Lemma memmap_next_encoded pre r post :
  region_ok r ->
  memmap_next (pre ++ encode_region r ++ post) (zlen pre) = Ret (Some (region_entry r, zlen pre + 24)).
Proof.
  intros (Hs & Hl & Hsum & Ht). unfold memmap_next.
  rewrite (zslice_app_at pre (encode_region r) post) by (rewrite ?zlen_encode; unfold ENTRY_SIZE; lia).
  rewrite !zlen_app, zlen_encode. pose proof (zlen_nonneg pre). pose proof (zlen_nonneg post). unfold ENTRY_SIZE.
  rewrite (proj2 (Z.leb_gt _ _)), (proj2 (Z.ltb_ge _ _)) by lia. cbn [orb].
  assert (H1 : zslice (encode_region r) 0 4 = le_bytes 4 20) by reflexivity.
  assert (H2 : zslice (encode_region r) 4 12 = le_bytes 8 (r_start r)) by reflexivity.
  assert (H3 : zslice (encode_region r) 12 20 = le_bytes 8 (r_len r)) by reflexivity.
  assert (H4 : zslice (encode_region r) 20 24 = le_bytes 4 (r_type r)) by reflexivity.
  rewrite H1, H2, H3, H4. unfold uN in Ht. rewrite !from_le_le_bytes by (cbn in *; lia).
  rewrite (proj2 (Z.leb_gt _ _)) by lia. done.
Qed.

Lemma memmap_entries_encoded rs : forall pre fuel,
  Forall region_ok rs -> (length rs < fuel)%nat ->
  memmap_entries fuel (pre ++ encode_map rs) (zlen pre) = Ret (region_entry <$> rs).
Proof.
  induction rs as [|r rs IH]; intros pre fuel Hok Hf; (destruct fuel as [|fuel]; [lia|]); cbn [memmap_entries].
  - unfold memmap_next. rewrite zlen_app. cbn. rewrite Z.add_0_r, Z.leb_refl. done.
  - apply Forall_cons in Hok as [Hr Hok]. change (encode_map (r :: rs)) with (encode_region r ++ encode_map rs).
    rewrite memmap_next_encoded by done.
    rewrite app_assoc. rewrite <-(zlen_encode r), <-zlen_app, IH; [done|done|cbn in Hf; lia].
Qed.

Lemma length_encode_map rs : length (encode_map rs) = (24 * length rs)%nat.
Proof.
  induction rs as [|r rs IH]; [done|]. change (encode_map (r :: rs)) with (encode_region r ++ encode_map rs).
  rewrite length_app, IH. pose proof (zlen_encode r). unfold zlen in *. cbn. lia.
Qed.

(** The memory map round trip: [early_init] on the boot loader's encoding
    of at most 256 regions returns exactly their entries, in order, with the
    end of each the sum of its start and length. *)
Theorem early_init_reads_map flags rs :
  Z.testbit flags 6 = true -> Forall region_ok rs -> (length rs <= 256)%nat ->
  early_init flags (encode_map rs) = Ret (region_entry <$> rs).
Proof.
  intros Hf Hok Hn. unfold early_init. rewrite Hf.
  change (encode_map rs) with ([] ++ encode_map rs) at 2. change 0 with (zlen (@nil Z)).
  rewrite memmap_entries_encoded; [|done|rewrite length_encode_map; lia].
  unfold zlen. rewrite length_fmap. rewrite (proj2 (Z.ltb_ge _ _)) by lia. done.
Qed.

Lemma early_init_reads_map_witness :
  early_init 64 (encode_map [mkRegion 0 0x9F000 1; mkRegion 0x100000 0x7F00000 1; mkRegion 0xFEC00000 0x1000 2]) =
  Ret [mkMemMapEntry 0 0x9F000 Memory; mkMemMapEntry 0x100000 0x8000000 Memory;
       mkMemMapEntry 0xFEC00000 0xFEC01000 System].
Proof.
  apply (early_init_reads_map 64 [mkRegion 0 0x9F000 1; mkRegion 0x100000 0x7F00000 1; mkRegion 0xFEC00000 0x1000 2]);
    [reflexivity| |cbn; lia].
  repeat constructor; cbn; unfold uN; lia.
Defined.
