(* ===== verification/Vm.v ===== *)
(** Virtual memory, [vm.rs]: page-table entries, the four-level walk,
    mapping, duplication, growing and shrinking user memory, copying out, and
    the kernel's map.  Tables are pages of the page allocator's memory, so
    every operation acts on its state; a page table is the address of its
    root, zero for the null pointer. *)
From stdpp Require Import base list gmap strings.
From Stdlib Require Import ZArith Lia.
From S2P Require Import Prelude.
From S2P Require Import Arch.
From S2P Require Import Kalloc.
From S2P Require Import Kmem.

(** ** Flags and entries *)
Definition PRESENT : Z := 1.
Definition WRITE : Z := Z.shiftl 1 1.
Definition USER : Z := Z.shiftl 1 2.
Definition WRTHRU : Z := Z.shiftl 1 3.
Definition NOCACHE : Z := Z.shiftl 1 4.
Definition NX : Z := Z.shiftl 1 63.
(** The bits that have a flag. *)
Definition PageFlags_all : Z := Z.lor 0x1FF NX.
Definition devflags : Z := Z.lor (Z.lor (Z.lor WRITE WRTHRU) NOCACHE) NX.

Definition MIB : Z := 1024 * 1024.
Definition GIB : Z := MIB * 1024.

Definition PHYS_PAGE_MASK : Z := 0x00007FFFFFFFF000.
Definition Entry_new (pa flags : Z) : Z := Z.lor (Z.land pa PHYS_PAGE_MASK) flags.
Definition entry_flags (e : Z) : Z := Z.land e PageFlags_all.
Definition is_present (e : Z) : bool := Z.land (entry_flags e) PRESENT =? PRESENT.
Definition is_user (e : Z) : bool := Z.land (entry_flags e) USER =? USER.
Definition is_zero (e : Z) : bool := e =? 0.
Definition phys_page_addr (e : Z) : Z := Z.land e PHYS_PAGE_MASK.
Definition enable (e : Z) : Z := Z.lor e PRESENT.
(** The sum cannot overflow: the mask leaves 47 bits. *)
Definition virt_page_addr (e : Z) : Z := phys_page_addr e + KERNBASE.

(** ** Tables

    Levels are numbered 4 (the root) to 1; the entry of [va] at level [lvl]. *)
Definition index (lvl va : Z) : Z := Z.land (Z.shiftr va (12 + 9 * (lvl - 1))) 0x1FF.

Definition get_entry (pg : list Z) (k : Z) : Z := from_le (zslice pg (8 * k) (8 * k + 8)).
Definition set_entry (pg : list Z) (k e : Z) : list Z := zsplice pg (8 * k) (le_bytes 8 e).

Definition page_at (a : Z) : M FreeList (list Z) :=
  fl ← gets id; expect (pages fl !! a) "dangling page".
Definition write_page (a : Z) (pg : list Z) : M FreeList unit :=
  modify (fun fl => mkFreeList (next fl) (<[a := pg]> (pages fl))).

Definition read_entry (tbl k : Z) : M FreeList Z :=
  pg ← page_at tbl; mret (get_entry pg k).
Definition write_entry (tbl k e : Z) : M FreeList unit :=
  pg ← page_at tbl; write_page tbl (set_entry pg k e).

(** [Table::next] and [Table::next_mut]. *)
Definition tnext (lvl va tbl : Z) : M FreeList (option Z) :=
  e ← read_entry tbl (index lvl va);
  mret (if is_present e then Some (virt_page_addr e) else None).

Definition page_phys_addr (a : Z) : M FreeList Z := lift (addr_to_phys a).

Definition tnext_mut (lvl va tbl : Z) : M FreeList (option Z) :=
  let k := index lvl va in
  e ← read_entry tbl k;
  if is_present e then mret (Some (virt_page_addr e))
  else
    page ← Kalloc.alloc;
    match page with
    | None => mret None
    | Some a =>
      write_page a page_clear;;
      pa ← page_phys_addr a;
      let e' := Entry_new pa (Z.lor (Z.lor PRESENT USER) WRITE) in
      write_entry tbl k e';;
      mret (Some (virt_page_addr e'))
    end.

(** Rust's [and_then] on the option a walk returns. *)
Definition and_then {A} (m : M FreeList (option A)) {B} (f : A -> M FreeList (option B)) : M FreeList (option B) :=
  m ≫= fun o => match o with Some a => f a | None => mret None end.

Definition table_is_empty (tbl : Z) : M FreeList bool :=
  pg ← page_at tbl; mret (forallb (fun k => is_zero (get_entry pg k)) (zrange 0 512)).

Definition table_entry (va tbl : Z) : M FreeList (option Z) :=
  e ← read_entry tbl (index 1 va); mret (if is_present e then Some e else None).

(** ** Translation and mapping *)
Definition as_ref (root : Z) : option Z := if root =? 0 then None else Some root.

Definition entry_for (root va : Z) : M FreeList (option Z) :=
  match as_ref root with
  | None => mret None
  | Some p4 => and_then (and_then (and_then (tnext 4 va p4) (tnext 3 va)) (tnext 2 va)) (table_entry va)
  end.

Definition translate (root va : Z) : M FreeList (option Z) :=
  o ← entry_for root va;
  mret (match o with Some e => Some (phys_page_addr e + va mod PAGE_SIZE) | None => None end).

Definition map_to (root pa va flags : Z) : M FreeList (result unit) :=
  match as_ref root with
  | None => mret (Err "No page table to map into")
  | Some p4 =>
    o ← and_then (and_then (tnext_mut 4 va p4) (tnext_mut 3 va)) (tnext_mut 2 va);
    match o with
    | Some p1 => write_entry p1 (index 1 va) (enable (Entry_new pa flags));; mret (Ok tt)
    | None => mret (Err "Allocation failed")
    end
  end.

Fixpoint map_each (root flags : Z) (pas : list Z) : M FreeList (result unit) :=
  match pas with
  | [] => mret (Ok tt)
  | pa :: pas' =>
    va ← lift (phys_to_addr pa);
    _ <-? map_to root pa va flags;;
    map_each root flags pas'
  end.

(** The range includes its end. *)
Definition map_phys_range (root start stop flags : Z) : M FreeList (result unit) :=
  map_each root flags (step_range start (stop + 1) PAGE_SIZE).
Definition map_phys_dev_range (root start stop : Z) : M FreeList (result unit) :=
  map_phys_range root start stop devflags.

(** ** Freeing user pages *)
Fixpoint free_level1 (tbl : Z) (vas : list Z) : M FreeList unit :=
  match vas with
  | [] => mret tt
  | va :: vas' =>
    e ← read_entry tbl (index 1 va);
    (if is_present e then Kalloc.free (virt_page_addr e);; write_entry tbl (index 1 va) 0 else mret tt);;
    free_level1 tbl vas'
  end.

Definition check_range (start stop span : Z) : M FreeList unit :=
  assert_ (start mod PAGE_SIZE =? 0) "assertion failed: start % PAGE_SIZE";;
  assert_ (stop mod PAGE_SIZE =? 0) "assertion failed: end % PAGE_SIZE";;
  assert_ (stop - start <=? span) "too big".

Definition free_user_pages1 (tbl start stop : Z) : M FreeList unit :=
  if start <? stop then
    check_range start stop (2 * MIB);;
    free_level1 tbl (step_range start stop PAGE_SIZE)
  else mret tt.

(** The loop of a table above level 1: [free] frees the range within one of
    its entries, which span [span] bytes. *)
Fixpoint free_entries (lvl span : Z) (free : Z -> Z -> Z -> M FreeList unit) (tbl start stop : Z)
    (vas : list Z) : M FreeList unit :=
  match vas with
  | [] => mret tt
  | va :: vas' =>
    let k := index lvl va in
    e ← read_entry tbl k;
    (if is_present e then
       let nt := virt_page_addr e in
       free nt (Z.max start va) (Z.min stop (va + span));;
       empty ← table_is_empty nt;
       if empty : bool then Kalloc.free nt;; write_entry tbl k 0 else mret tt
     else mret tt);;
    free_entries lvl span free tbl start stop vas'
  end.

Definition align_down (a span : Z) : Z := Z.land a (lnotw 64 (span - 1)).

Definition free_user_pages2 (tbl start stop : Z) : M FreeList unit :=
  if start <? stop then
    check_range start stop GIB;;
    free_entries 2 (2 * MIB) free_user_pages1 tbl start stop
      (step_range (align_down start (2 * MIB)) stop (2 * MIB))
  else mret tt.

Definition free_user_pages3 (tbl start stop : Z) : M FreeList unit :=
  if start <? stop then
    check_range start stop (512 * GIB);;
    free_entries 3 GIB free_user_pages2 tbl start stop (step_range (align_down start GIB) stop GIB)
  else mret tt.

Definition free_user_pages (root start stop : Z) : M FreeList unit :=
  if start <? stop then
    start ← lift (page_round_up start);
    stop ← lift (page_round_up stop);
    p4 ← expect (as_ref root) "called `Option::unwrap()` on a `None` value";
    free_entries 4 (512 * GIB) free_user_pages3 p4 start stop
      (step_range (align_down start (512 * GIB)) stop (512 * GIB))
  else mret tt.

(** [vm::free], which dropping a page table runs. *)
Definition vm_free (root : Z) : M FreeList unit :=
  free_user_pages root 0 USEREND;;
  Kalloc.free root.

(** ** Growing and shrinking *)
Definition dealloc_user (root old_size new_size : Z) : M FreeList (result Z) :=
  if old_size <=? new_size then mret (Ok old_size)
  else free_user_pages root new_size old_size;; mret (Ok new_size).

Fixpoint alloc_pages (root old_size new_size flags : Z) (vas : list Z) : M FreeList (result Z) :=
  match vas with
  | [] => mret (Ok new_size)
  | va :: vas' =>
    page ← Kalloc.alloc;
    match page with
    | None =>
      r ← dealloc_user root new_size old_size;
      expect_ok r "user dealloc";;
      mret (Err "alloc_user: failed to alloc user page")
    | Some a =>
      pa ← page_phys_addr a;
      r ← map_to root pa va (Z.lor flags USER);
      match r with
      | Ok _ => alloc_pages root old_size new_size flags vas'
      | Err status =>
        r ← dealloc_user root new_size old_size;
        expect_ok r "user dealloc";;
        mret (Err status)
      end
    end
  end.

Definition alloc_user (root old_size new_size flags : Z) : M FreeList (result Z) :=
  if USEREND <? new_size then mret (Err "alloc_user: new size extends into kernel")
  else if new_size <=? old_size then mret (Ok old_size)
  else
    old_end ← lift (page_round_up old_size);
    new_end ← lift (page_round_up new_size);
    alloc_pages root old_size new_size flags (step_range old_end new_end PAGE_SIZE).

(** ** Duplication *)
Definition dup_kern (root : Z) : M FreeList (option Z) :=
  match as_ref root with
  | None => mret None
  | Some src =>
    page ← Kalloc.alloc;
    match page with
    | None => mret None
    | Some a =>
      spg ← page_at src;
      pg ← page_at a;
      write_page a (zsplice pg (256 * 8) (zslice spg (256 * 8) (512 * 8)));;
      mret (Some a)
    end
  end.

Definition new_pgtbl (kpgtbl : Z) : M FreeList (result Z) :=
  o ← dup_kern kpgtbl; mret (ok_or o "exec: cannot allocate new page table").

Fixpoint copy_region (src dst : Z) (vas : list Z) : M FreeList (option unit) :=
  match vas with
  | [] => mret (Some tt)
  | va :: vas' =>
    o ← entry_for src va;
    e ← expect o "entry should exist";
    assert_ (is_present e) "dup: page not present";;
    page ← Kalloc.alloc;
    match page with
    | None => mret None
    | Some a =>
      pg ← page_at (virt_page_addr e);
      write_page a pg;;
      pa ← page_phys_addr a;
      r ← map_to dst pa va (entry_flags e);
      if is_ok r then copy_region src dst vas' else Kalloc.free a;; mret None
    end
  end.

(** A table that is not returned is dropped, hence freed. *)
Definition dup (root size : Z) : M FreeList (option Z) :=
  o ← dup_kern root;
  match o with
  | None => mret None
  | Some table =>
    r ← copy_region root table (step_range 0 size PAGE_SIZE);
    match r with
    | None => vm_free table;; mret None
    | Some _ =>
      r ← copy_region root table (step_range USERSTACK USEREND PAGE_SIZE);
      match r with
      | None => vm_free table;; mret None
      | Some _ => mret (Some table)
      end
    end
  end.

(** ** Copying out *)
Definition user_addr_to_kern_page (root va : Z) : M FreeList (result Z) :=
  o ← entry_for root va;
  match o with
  | None => mret (Err "no mapping for user address")
  | Some e =>
    if negb (is_present e) || negb (is_user e) then mret (Err "bad user address")
    else mret (Ok (virt_page_addr e))
  end.

(** Each pass copies at least a byte, so a pass per byte is enough fuel. *)
Fixpoint copy_out_loop (fuel : nat) (root : Z) (data : list Z) (va : Z) : M FreeList (result unit) :=
  match fuel with
  | O => if zlen data =? 0 then mret (Ok tt) else diverge
  | S fuel' =>
    if zlen data =? 0 then mret (Ok tt)
    else
      let va0 := page_round_down va in
      dst <-? user_addr_to_kern_page root va0;;
      pg ← page_at dst;
      let off := va - va0 in
      let n := Z.min (PAGE_SIZE - off) (zlen data) in
      write_page dst (zsplice pg off (take (Z.to_nat n) data));;
      va' ← lift (add_ovf 64 va0 PAGE_SIZE);
      copy_out_loop fuel' root (drop (Z.to_nat n) data) va'
  end.
Definition copy_out (root : Z) (data : list Z) (va : Z) : M FreeList (result unit) :=
  copy_out_loop (length data) root data va.

(** ** The kernel's map

    The linker's symbols are parameters: the ends of the text, of the
    read-only data and of the kernel, as physical addresses. *)
Fixpoint map_memory (root end_phys : Z) (mem_map : list MemMapEntry) : M FreeList unit :=
  match mem_map with
  | [] => mret tt
  | e :: es =>
    let flags := match me_typ e with
                 | Memory => Some (Z.lor WRITE NX)
                 | System => Some devflags
                 | _ => None
                 end in
    match flags with
    | None => mret tt
    | Some flags =>
      if me_end e <? end_phys then mret tt
      else r ← map_phys_range root (Z.max (me_start e) end_phys) (me_end e) flags;
           expect_ok r "init map failed"
    end;;
    map_memory root end_phys es
  end.

Fixpoint map_custom (root : Z) (regions : list (Z * Z * Z)) : M FreeList unit :=
  match regions with
  | [] => mret tt
  | (start, stop, flags) :: rs =>
    r ← map_phys_range root start stop flags;
    expect_ok r "init mapping failed";;
    map_custom root rs
  end.

Definition custom_map (text_phys etext_phys erodata_phys end_phys : Z) : list (Z * Z * Z) :=
  [(0x01000, 0x07000, Z.lor WRITE NX);
   (0x07000, 0x08000, Z.lor WRITE NX);
   (0x08000, 0x80000, Z.lor WRITE NX);
   (0x80000, 0xA0000, NX);
   (0xA0000, 0xC0000, devflags);
   (0xC0000, 0x100000, NX);
   (text_phys, etext_phys, 0);
   (etext_phys, erodata_phys, NX);
   (erodata_phys, end_phys, Z.lor WRITE NX);
   (end_phys, 64 * 1024 * 1024, Z.lor WRITE NX);
   (DEVSPACE, GIG4, devflags)].

Definition vm_init (mem_map : list MemMapEntry) (etext_phys erodata_phys end_phys : Z) : M FreeList Z :=
  page ← Kalloc.alloc;
  root ← expect page "alloc kernel page table root";
  write_page root page_clear;;
  map_memory root end_phys mem_map;;
  map_custom root (custom_map 0x100000 etext_phys erodata_phys end_phys);;
  mret root.
