(* ===== verification/VmSpec.v ===== *)
(** Page tables: a well-formed four-level table is a tree of distinct pages,
    disjoint from the free pages; mapping a page adds that translation,
    leaves every other one alone and keeps the tree; growing user memory maps
    every new page. *)
From stdpp Require Import base list gmap strings.
From Stdlib Require Import ZArith Lia.
From S2P Require Import Prelude.
From S2P Require Import Arch.
From S2P Require Import Kalloc.
From S2P Require Import Vm.

(** ** Entries in a page *)
Lemma get_set_entry pg k j e :
  zlen pg = PAGE_SIZE -> 0 <= k < 512 -> 0 <= j < 512 -> uN 64 e ->
  get_entry (set_entry pg k e) j = if decide (k = j) then e else get_entry pg j.
Proof.
  intros Hl Hk Hj He. unfold get_entry, set_entry.
  pose proof (zlen_le_bytes 8 e) as H8. change (Z.of_nat 8) with 8 in H8. unfold PAGE_SIZE in Hl.
  case_decide as E.
  - subst j. rewrite <-H8 at 2. rewrite zslice_zsplice by lia. apply from_le_le_bytes. cbn. unfold uN in He. lia.
  - f_equal. apply zslice_zsplice_out; lia.
Qed.

Lemma zlen_set_entry pg k e : zlen pg = PAGE_SIZE -> 0 <= k < 512 -> zlen (set_entry pg k e) = PAGE_SIZE.
Proof.
  intros Hl Hk. unfold set_entry. rewrite zlen_zsplice; [done|lia|]. rewrite zlen_le_bytes. unfold PAGE_SIZE in *. lia.
Qed.

Lemma get_entry_clear k : 0 <= k < 512 -> get_entry page_clear k = 0.
Proof.
  intros Hk. unfold get_entry. replace (zslice _ _ _) with (zrep 8 0); [done|].
  apply znth_ext; [rewrite zlen_zslice; rewrite ?zlen_rep; unfold page_clear; rewrite ?zlen_rep; unfold PAGE_SIZE; lia|].
  intros i Hi. rewrite zlen_rep in Hi by lia. rewrite znth_zslice by lia. unfold page_clear.
  rewrite !znth_rep by (unfold PAGE_SIZE; lia). done.
Qed.

Lemma index_range lvl va : 0 <= index lvl va < 512.
Proof. unfold index. change 0x1FF with (2 ^ 9 - 1). rewrite land_ones_mod by lia. apply Z.mod_pos_bound. lia. Qed.

Lemma is_present_bit e : is_present e = Z.testbit e 0.
Proof.
  unfold is_present, entry_flags. change PRESENT with (2 ^ 0). rewrite land_pow2 by lia.
  rewrite Z.land_spec. change (Z.testbit PageFlags_all 0) with true. rewrite andb_true_r.
  by destruct (Z.testbit e 0).
Qed.

(** The direct map: a page's address and the entry made for it. *)
Definition direct (a : Z) : Prop := KERNBASE <= a < KERNBASE + 2 ^ 47 /\ a mod PAGE_SIZE = 0.

Lemma phys_page_addr_new pa flags :
  0 <= pa < 2 ^ 47 -> pa mod PAGE_SIZE = 0 -> Z.land flags PHYS_PAGE_MASK = 0 ->
  phys_page_addr (Entry_new pa flags) = pa.
Proof.
  intros Hpa Hal Hf. unfold phys_page_addr, Entry_new. rewrite Z.land_lor_distr_l, Hf, Z.lor_0_r.
  rewrite <-Z.land_assoc, Z.land_diag. change PHYS_PAGE_MASK with (Z.ldiff (Z.ones 47) (Z.ones 12)).
  apply Z.bits_inj'. intros i Hi. rewrite Z.land_spec, Z.ldiff_spec.
  destruct (decide (i < 12)).
  - rewrite <-(Z.mod_pow2_bits_low pa 12 i) by lia. change (2 ^ 12) with PAGE_SIZE. by rewrite Hal, Z.bits_0.
  - rewrite (Z.ones_spec_high 12 i) by lia. cbn [negb]. rewrite andb_true_r.
    destruct (decide (i < 47)); [rewrite Z.ones_spec_low by lia; apply andb_true_r|].
    rewrite (uN_testbit_high 47 pa i) by (unfold uN; lia). done.
Qed.

(** ** The tree of tables *)

(** The prefix of [va] that selects a table [n] steps below the root. *)
Definition pfx (n : nat) (va : Z) : Z := va mod 2 ^ 48 / 2 ^ (48 - 9 * Z.of_nat n).

Lemma index_pfx n va : (n <= 3)%nat -> index (4 - Z.of_nat n) va = pfx (S n) va mod 512.
Proof.
  intros Hn. unfold index, pfx. change 0x1FF with (2 ^ 9 - 1). rewrite land_ones_mod, Z.shiftr_div_pow2 by lia.
  change 512 with (2 ^ 9). replace (12 + 9 * (4 - Z.of_nat n - 1)) with (39 - 9 * Z.of_nat n) by lia.
  replace (48 - 9 * Z.of_nat (S n)) with (39 - 9 * Z.of_nat n) by lia.
  set (s := 39 - 9 * Z.of_nat n). assert (0 <= s <= 39) by lia.
  apply Z.bits_inj'. intros i Hi. destruct (decide (i < 9)).
  - rewrite !Z.mod_pow2_bits_low by lia. rewrite !Z.div_pow2_bits by lia.
    rewrite Z.mod_pow2_bits_low by lia. done.
  - rewrite !Z.mod_pow2_bits_high by lia. done.
Qed.

Lemma pfx_S n va : (n <= 3)%nat -> pfx n va = pfx (S n) va / 512.
Proof.
  intros Hn. unfold pfx. rewrite Z.div_div by lia. f_equal. change 512 with (2 ^ 9).
  rewrite <-Z.pow_add_r by lia. f_equal. lia.
Qed.

Lemma pfx_S_eq n va vb : (n <= 3)%nat ->
  pfx (S n) va = pfx (S n) vb <-> pfx n va = pfx n vb /\ index (4 - Z.of_nat n) va = index (4 - Z.of_nat n) vb.
Proof.
  intros Hn. rewrite !index_pfx, !(pfx_S n) by done. split; [by intros ->|]. intros [H1 H2].
  rewrite (Z.div_mod (pfx (S n) va) 512), (Z.div_mod (pfx (S n) vb) 512) by lia. congruence.
Qed.

Lemma pfx_le n m va vb : (n <= m <= 4)%nat -> pfx m va = pfx m vb -> pfx n va = pfx n vb.
Proof.
  intros [Hnm Hm] H. induction Hnm as [|m Hnm IH]; [done|]. apply IH; [lia|].
  rewrite !(pfx_S m), H by lia. done.
Qed.

Definition step_walk (fl : FreeList) (lvl va tbl : Z) : option Z :=
  match pages fl !! tbl with
  | Some pg => let e := get_entry pg (index lvl va) in if is_present e then Some (virt_page_addr e) else None
  | None => None
  end.

(** The table [n] steps from the root on the way to [va]. *)
Fixpoint walk (fl : FreeList) (root va : Z) (n : nat) : option Z :=
  match n with
  | O => Some root
  | S n' => walk fl root va n' ≫= step_walk fl (4 - Z.of_nat n') va
  end.

(** The entry that translates [va], if it is present. *)
Definition lookup_entry (fl : FreeList) (root va : Z) : option Z :=
  match walk fl root va 3 with
  | Some t =>
    match pages fl !! t with
    | Some pg => let e := get_entry pg (index 1 va) in if is_present e then Some e else None
    | None => None
    end
  | None => None
  end.

Record pt_wf (fl : FreeList) (root : Z) (l : list Z) : Prop := {
  wf_free : fl_rep fl l;
  wf_direct : Forall direct l;
  wf_root : 0 < root < 2 ^ 64;
  wf_page : forall n va a, (n <= 3)%nat -> walk fl root va n = Some a ->
    a ∉ l /\ exists pg, pages fl !! a = Some pg /\ zlen pg = PAGE_SIZE;
  wf_inj : forall n m va vb a, (n <= 3)%nat -> (m <= 3)%nat ->
    walk fl root va n = Some a -> walk fl root vb m = Some a -> n = m /\ pfx n va = pfx n vb }.

Lemma walk_pfx fl root n va vb : (n <= 4)%nat -> pfx n va = pfx n vb -> walk fl root va n = walk fl root vb n.
Proof.
  induction n as [|n IH]; intros Hn H; [done|]. cbn. apply pfx_S_eq in H as [H1 H2]; [|lia].
  rewrite (IH ltac:(lia) H1). destruct (walk fl root vb n) as [t|]; [|done]. cbn.
  unfold step_walk. by rewrite H2.
Qed.

(** A page that is neither free nor a table of the tree, and the operations
    that leave all such pages alone. *)
Definition outside (fl : FreeList) (root : Z) (l : list Z) (b : Z) : Prop :=
  b ∉ l /\ forall n va, (n <= 3)%nat -> walk fl root va n <> Some b.
Definition keeps (fl : FreeList) (root : Z) (l : list Z) (fl' : FreeList) (l' : list Z) : Prop :=
  forall b, outside fl root l b -> outside fl' root l' b /\ pages fl' !! b = pages fl !! b.

Lemma keeps_refl fl root l : keeps fl root l fl l.
Proof. by intros b Hb. Qed.
Lemma keeps_trans fl root l fl1 l1 fl2 l2 :
  keeps fl root l fl1 l1 -> keeps fl1 root l1 fl2 l2 -> keeps fl root l fl2 l2.
Proof. intros H1 H2 b [Hb E]%H1. destruct (H2 b Hb) as [H E']. split; [done|congruence]. Qed.

(** ** Writing an entry *)
Section upd.
Context (fl fl' : FreeList) (root : Z) (l : list Z) (n0 : nat) (va0 tbl e : Z) (pg : list Z).
Hypothesis Hwf : pt_wf fl root l.
Hypothesis Hn0 : (n0 <= 3)%nat.
Hypothesis Hwalk0 : walk fl root va0 n0 = Some tbl.
Hypothesis Hpg : pages fl !! tbl = Some pg.
Hypothesis He : uN 64 e.
Hypothesis Htbl : pages fl' !! tbl = Some (set_entry pg (index (4 - Z.of_nat n0) va0) e).
(** Other tables are as before. *)
Hypothesis Hother : forall n va a, (n <= 3)%nat -> walk fl root va n = Some a -> a <> tbl ->
  pages fl' !! a = pages fl !! a.

Lemma upd_len : zlen pg = PAGE_SIZE.
Proof. destruct (wf_page _ _ _ Hwf _ _ _ Hn0 Hwalk0) as (_ & pg' & ? & ?). congruence. Qed.

Lemma upd_above n va : (n <= n0)%nat -> walk fl' root va n = walk fl root va n.
Proof.
  induction n as [|n IH]; intros Hn; [done|]. cbn. rewrite IH by lia.
  destruct (walk fl root va n) as [t|] eqn:Ht; [|done]. cbn. unfold step_walk.
  assert (t <> tbl) by (intros ->; destruct (wf_inj _ _ _ Hwf n n0 va va0 tbl); done || lia).
  by rewrite (Hother n va t) by (lia || done).
Qed.

Lemma upd_at va : pfx (S n0) va = pfx (S n0) va0 ->
  walk fl' root va (S n0) = if is_present e then Some (virt_page_addr e) else None.
Proof.
  intros Hp. pose proof upd_len as Hl. apply pfx_S_eq in Hp as [Hp Hi]; [|done]. cbn. rewrite upd_above by lia.
  rewrite (walk_pfx _ _ _ _ va0) by (done || lia). rewrite Hwalk0. cbn. unfold step_walk.
  rewrite Htbl, get_set_entry; [|done|apply index_range|apply index_range|done].
  rewrite decide_True by done. done.
Qed.

Lemma upd_off n va : (n <= 4)%nat -> pfx (S n0) va <> pfx (S n0) va0 ->
  walk fl' root va n = walk fl root va n.
Proof.
  intros Hn Hp. pose proof upd_len as Hl. induction n as [|n IH]; [done|]. cbn. rewrite IH by lia.
  destruct (walk fl root va n) as [t|] eqn:Ht; [|done]. cbn. unfold step_walk.
  destruct (decide (t = tbl)) as [->|Hne]; [|by rewrite (Hother n va t) by (lia || done)].
  destruct (wf_inj _ _ _ Hwf n n0 va va0 tbl) as [-> Hpn]; [lia|done..|].
  rewrite Htbl, Hpg, get_set_entry; [|done|apply index_range|apply index_range|done].
  rewrite decide_False; [done|]. intros Hi. apply Hp, pfx_S_eq; [lia|]. auto.
Qed.
End upd.

(** The leaf: every walk is as before, and exactly the entry of the page of
    [va0] changes. *)
Lemma leaf_write fl root l va0 tbl e pg :
  pt_wf fl root l -> walk fl root va0 3 = Some tbl -> pages fl !! tbl = Some pg -> uN 64 e ->
  let fl' := mkFreeList (next fl) (<[tbl := set_entry pg (index 1 va0) e]> (pages fl)) in
  pt_wf fl' root l /\ keeps fl root l fl' l /\
  forall va, lookup_entry fl' root va =
    if decide (pfx 4 va = pfx 4 va0) then (if is_present e then Some e else None) else lookup_entry fl root va.
Proof.
  intros Hwf Hw Hpg He fl'.
  assert (Hlen : zlen pg = PAGE_SIZE) by (by eapply (upd_len fl root l 3 va0 tbl)).
  assert (Hwalk : forall n va, (n <= 3)%nat -> walk fl' root va n = walk fl root va n).
  { intros n va Hn. apply (upd_above fl fl' root l 3 va0 tbl Hwf); [lia|done| |done].
    intros m vb a _ _ Ha. cbn. by rewrite lookup_insert_ne. }
  assert (Hnl : tbl ∉ l) by (eapply (wf_page _ _ _ Hwf 3); [lia|done]).
  split; [|split].
  - destruct Hwf as [[Hc Hd] Hdir Hroot Hpage Hinj]. split; try done.
    + split; [by apply chain_insert|done].
    + intros n va a Hn Ha. rewrite Hwalk in Ha by done. destruct (Hpage _ _ _ Hn Ha) as (? & pg' & H1 & H2).
      split; [done|]. cbn. destruct (decide (a = tbl)) as [->|].
      * rewrite lookup_insert_eq. eexists. split; [done|]. apply zlen_set_entry; [done|apply index_range].
      * rewrite lookup_insert_ne by done. eauto.
    + intros n m va vb a Hn Hm H1 H2. rewrite Hwalk in H1, H2 by done. eauto.
  - intros b [Hbl Hb]. split; [split; [done|]|].
    + intros n va Hn. rewrite Hwalk by done. by apply Hb.
    + cbn. rewrite lookup_insert_ne; [done|]. intros <-. by apply (Hb 3%nat va0).
  - intros va. unfold lookup_entry. rewrite Hwalk by lia. change 1 with (4 - Z.of_nat 3) in *.
    destruct (decide (pfx 4 va = pfx 4 va0)) as [Hp|Hp].
    + apply pfx_S_eq in Hp as [Hp Hi]; [|lia]. rewrite (walk_pfx _ _ _ _ va0) by (done || lia).
      rewrite Hw. cbn -[index]. rewrite lookup_insert_eq, get_set_entry; [|done|apply index_range|apply index_range|done].
      by rewrite decide_True.
    + destruct (walk fl root va 3) as [t|] eqn:Ht; [|done]. unfold fl'. cbn -[index walk].
      destruct (decide (t = tbl)) as [->|]; [|by rewrite lookup_insert_ne].
      destruct (wf_inj _ _ _ Hwf 3 3 va va0 tbl) as [_ Hp3]; [lia|lia|done..|].
      rewrite lookup_insert_eq, Hpg, get_set_entry; [|done|apply index_range|apply index_range|done].
      rewrite decide_False; [done|]. intros Hi. apply Hp, pfx_S_eq; [lia|]. auto.
Qed.

(** A new table: the page [a] taken from the free pages and linked below
    [tbl]. *)
Lemma walk_None_le fl root va n m : walk fl root va n = None -> (n <= m)%nat -> walk fl root va m = None.
Proof. intros H Hm. induction Hm as [|m Hm IH]; [done|]. cbn. by rewrite IH. Qed.

Lemma is_present_0 : is_present 0 = false.
Proof. done. Qed.

Section fresh.
Context (fl fl1 : FreeList) (root : Z) (l' : list Z) (n0 : nat) (va0 tbl a e : Z) (pg : list Z).
Hypothesis Hwf : pt_wf fl root (a :: l').
Hypothesis Hn0 : (n0 <= 2)%nat.
Hypothesis Hw : walk fl root va0 n0 = Some tbl.
Hypothesis Hpg : pages fl !! tbl = Some pg.
Hypothesis Habsent : is_present (get_entry pg (index (4 - Z.of_nat n0) va0)) = false.
Hypothesis He : uN 64 e.
Hypothesis Hpres : is_present e = true.
Hypothesis Hvirt : virt_page_addr e = a.
Hypothesis Hrep : fl_rep fl1 l'.
Hypothesis Hsame : forall b, b <> a -> pages fl1 !! b = pages fl !! b.

Let fl' := mkFreeList (next fl1) (<[tbl := set_entry pg (index (4 - Z.of_nat n0) va0) e]> (<[a := page_clear]> (pages fl1))).

Lemma fresh_tables n va b : (n <= 3)%nat -> walk fl root va n = Some b -> b <> a.
Proof. intros Hn Hb ->. destruct (wf_page _ _ _ Hwf _ _ _ Hn Hb) as [H _]. set_solver. Qed.

Lemma fresh_other n va b : (n <= 3)%nat -> walk fl root va n = Some b -> b <> tbl -> pages fl' !! b = pages fl !! b.
Proof.
  intros Hn Hb Hne. cbn. rewrite lookup_insert_ne by done. pose proof (fresh_tables _ _ _ Hn Hb).
  rewrite lookup_insert_ne by done. by apply Hsame.
Qed.

Lemma fresh_page : pages fl' !! a = Some page_clear.
Proof.
  cbn. rewrite lookup_insert_ne, lookup_insert_eq; [done|]. apply (fresh_tables n0 va0); [lia|done].
Qed.

Lemma fresh_was_none va n : pfx (S n0) va = pfx (S n0) va0 -> (n0 < n)%nat -> walk fl root va n = None.
Proof.
  intros Hp Hn. apply (walk_None_le _ _ _ (S n0)); [|lia]. rewrite (walk_pfx _ _ _ _ va0) by (done || lia).
  cbn. rewrite Hw. cbn. unfold step_walk. by rewrite Hpg, Habsent.
Qed.

Lemma fresh_link va : pfx (S n0) va = pfx (S n0) va0 -> walk fl' root va (S n0) = Some a.
Proof.
  intros Hp. rewrite (upd_at fl fl' root (a :: l') n0 va0 tbl e pg Hwf) by
    (done || lia || (cbn; by rewrite lookup_insert_eq) || apply fresh_other). by rewrite Hpres, Hvirt.
Qed.

Lemma fresh_below va n : pfx (S n0) va = pfx (S n0) va0 -> (S n0 < n)%nat -> walk fl' root va n = None.
Proof.
  intros Hp Hn. apply (walk_None_le _ _ _ (S (S n0))); [|lia]. cbn [walk].
  change (walk fl' root va n0 ≫= _) with (walk fl' root va (S n0)).
  rewrite fresh_link by done. cbn -[index fl']. unfold step_walk. rewrite fresh_page.
  by rewrite get_entry_clear, is_present_0 by apply index_range.
Qed.

Lemma fresh_same va n : (n <= n0)%nat \/ pfx (S n0) va <> pfx (S n0) va0 -> (n <= 4)%nat ->
  walk fl' root va n = walk fl root va n.
Proof.
  intros [Hn|Hp] Hn4.
  - apply (upd_above fl fl' root (a :: l') n0 va0 tbl Hwf); [lia|done|apply fresh_other|done].
  - apply (upd_off fl fl' root (a :: l') n0 va0 tbl e pg Hwf); try done; [lia|cbn; by rewrite lookup_insert_eq|apply fresh_other].
Qed.

Lemma fresh_walk n va b : (n <= 3)%nat -> walk fl' root va n = Some b ->
  (walk fl root va n = Some b /\ b <> a) \/ (n = S n0 /\ pfx (S n0) va = pfx (S n0) va0 /\ b = a).
Proof.
  intros Hn Hb. destruct (decide (pfx (S n0) va = pfx (S n0) va0)) as [Hp|Hp].
  - destruct (decide (n <= n0)%nat).
    + rewrite fresh_same in Hb by (auto || lia). left. split; [done|]. by apply (fresh_tables n va).
    + destruct (decide (n = S n0)) as [->|]; [rewrite fresh_link in Hb by done; right; naive_solver|].
      by rewrite fresh_below in Hb by (done || lia).
  - rewrite fresh_same in Hb by (auto || lia). left. split; [done|]. by apply (fresh_tables n va).
Qed.

Lemma fresh_wf : pt_wf fl' root l'.
Proof.
  assert (Htl : tbl ∉ l' /\ zlen pg = PAGE_SIZE).
  { destruct (wf_page _ _ _ Hwf n0 va0 tbl) as (Hni & pg' & ? & ?); [lia|done|].
    split; [set_solver|congruence]. }
  destruct Htl as [Htl Hlen]. pose proof fresh_other as Hother. pose proof fresh_walk as Hwalk.
  pose proof fresh_page as Hfresh.
  destruct Hwf as [[Hc Hd] Hdir Hroot Hpage Hinj]. apply NoDup_cons in Hd as [Hal Hd].
  apply Forall_cons in Hdir as [_ Hdir]. destruct Hrep as [Hc1 Hd1]. split; [|done|done| |].
  - split; [|done]. by apply chain_insert, chain_insert.
  - intros n va b Hn [[Hb Hne]|(-> & Hp & ->)]%Hwalk; [| |done].
    + destruct (Hpage _ _ _ Hn Hb) as (Hbl & pg' & H1 & H2). split; [set_solver|].
      destruct (decide (b = tbl)) as [->|]; [|rewrite (Hother n va) by done; eauto].
      eexists. cbn. rewrite lookup_insert_eq. split; [done|]. apply zlen_set_entry; [done|apply index_range].
    + split; [done|]. exists page_clear. split; [done|]. unfold page_clear. by apply zlen_rep.
  - intros n m va vb b Hn Hm [[H1 Hne]|(-> & Hp & ->)]%Hwalk H2; [| |done];
      apply Hwalk in H2 as [[H2 Hne2]|(-> & Hp2 & Hb)]; try done; [by eauto|split; congruence].
Qed.

Lemma fresh_keeps : keeps fl root (a :: l') fl' l'.
Proof.
  intros b [Hbl Hb]. split; [split; [set_solver|]|].
  - intros n va Hn [[H _]|(_ & _ & ->)]%fresh_walk; [by apply (Hb n va)|set_solver|done].
  - cbn. rewrite lookup_insert_ne by (intros <-; apply (Hb n0 va0); [lia|done]).
    rewrite lookup_insert_ne by set_solver. apply Hsame. set_solver.
Qed.

Lemma fresh_lookup va : lookup_entry fl' root va = lookup_entry fl root va.
Proof.
  unfold lookup_entry. destruct (decide (pfx (S n0) va = pfx (S n0) va0)) as [Hp|Hp].
  - rewrite (fresh_was_none va 3) by (done || lia). destruct (decide (S n0 = 3)%nat) as [E|].
    + rewrite <-E, fresh_link by done. rewrite fresh_page.
      by rewrite get_entry_clear, is_present_0 by apply index_range.
    + by rewrite fresh_below by (done || lia).
  - rewrite fresh_same by (auto || lia). destruct (walk fl root va 3) as [t|] eqn:Ht; [|done].
    destruct (decide (t = tbl)) as [->|]; [|by rewrite (fresh_other 3 va t)].
    destruct (wf_inj _ _ _ Hwf 3 n0 va va0 tbl) as [H _]; [lia|lia|done..|lia].
Qed.
End fresh.

(** ** The operations *)
Lemma read_entry_run fl tbl k pg : pages fl !! tbl = Some pg -> read_entry tbl k fl = Ret (get_entry pg k, fl).
Proof. intros H. unfold read_entry, page_at, mbind, M_bind, gets, expect. cbn. by rewrite H. Qed.

Lemma write_entry_run fl tbl k e pg : pages fl !! tbl = Some pg ->
  write_entry tbl k e fl = Ret (tt, mkFreeList (next fl) (<[tbl := set_entry pg k e]> (pages fl))).
Proof. intros H. unfold write_entry, page_at, mbind, M_bind, gets, expect. cbn. by rewrite H. Qed.

Definition TABLE_FLAGS : Z := Z.lor (Z.lor PRESENT USER) WRITE.

Lemma table_entry_new a : direct a ->
  let e := Entry_new (a - KERNBASE) TABLE_FLAGS in
  uN 64 e /\ is_present e = true /\ virt_page_addr e = a.
Proof.
  intros [Hr Hal] e. split; [|split].
  - apply uN_lor; [lia| |done]. apply bits_bound; [lia|apply Z.land_nonneg; by right|].
    intros i Hi. rewrite Z.land_spec. rewrite (uN_testbit_high 64 PHYS_PAGE_MASK i) by (lia || (unfold uN, PHYS_PAGE_MASK; lia)). apply andb_false_r.
  - rewrite is_present_bit. unfold e, Entry_new. rewrite Z.lor_spec. by rewrite orb_true_r.
  - unfold virt_page_addr, e. rewrite phys_page_addr_new; [lia|unfold KERNBASE in *; lia| |done].
    rewrite Zminus_mod, Hal. done.
Qed.

(** [next_mut] at depth [n0]: it fails, changing nothing, only when no page is
    free; otherwise the next table is there, nothing is translated
    differently, and at most one free page is gone. *)
Lemma tnext_mut_spec fl root l n0 va tbl :
  pt_wf fl root l -> (n0 <= 2)%nat -> walk fl root va n0 = Some tbl ->
  (tnext_mut (4 - Z.of_nat n0) va tbl fl = Ret (None, fl) /\ l = []) \/
  exists t fl' l', tnext_mut (4 - Z.of_nat n0) va tbl fl = Ret (Some t, fl') /\ pt_wf fl' root l' /\
    walk fl' root va (S n0) = Some t /\ (l' = l \/ exists a, l = a :: l') /\
    (forall vb, lookup_entry fl' root vb = lookup_entry fl root vb) /\ keeps fl root l fl' l'.
Proof.
  intros Hwf Hn Hw. destruct (wf_page _ _ _ Hwf n0 va tbl) as (_ & pg & Hpg & Hlen); [lia|done|].
  unfold tnext_mut. rewrite (bind_run _ _ _ _ _ (read_entry_run _ _ _ _ Hpg)).
  destruct (is_present (get_entry pg _)) eqn:Hp.
  { right. eexists _, fl, l. split; [done|]. split; [done|]. split; [|by auto using keeps_refl].
    cbn. rewrite Hw. cbn. unfold step_walk. by rewrite Hpg, Hp. }
  pose proof (get_refines _ _ (wf_free _ _ _ Hwf)) as Hg. destruct l as [|a l'].
  { left. split; [|done]. unfold Kalloc.alloc. by rewrite (bind_run _ _ _ _ _ Hg). }
  destruct Hg as (fl1 & Hg & Hrep & Hz & Hsame). right.
  pose proof (wf_direct _ _ _ Hwf) as [Hda _]%Forall_cons. destruct (table_entry_new a Hda) as (He & Hpr & Hv).
  assert (Hta : tbl <> a) by (intros ->; destruct (wf_page _ _ _ Hwf n0 va a) as [H _]; [lia|done|set_solver]).
  unfold Kalloc.alloc. rewrite (bind_run _ _ _ _ _ Hg). unfold write_page. rewrite bind_modify.
  unfold page_phys_addr, addr_to_phys, sub_ovf. rewrite (proj2 (Z.leb_le _ _)) by apply Hda.
  erewrite bind_lift by done. change (Z.lor (Z.lor PRESENT USER) WRITE) with TABLE_FLAGS.
  erewrite bind_run by (apply write_entry_run; cbn; rewrite lookup_insert_ne, Hsame by done; exact Hpg).
  eexists _, _, l'. split; [done|]. cbn [next pages]. split; [|split; [|split; [by right; exists a|split]]].
  - by apply (fresh_wf fl fl1 root l' n0 va tbl a).
  - rewrite Hv. by apply (fresh_link fl fl1 root l' n0 va tbl a).
  - intros vb. by apply (fresh_lookup fl fl1 root l' n0 va tbl a).
  - by apply (fresh_keeps fl fl1 root l' n0 va tbl a).
Qed.

(** Two of the three steps composed with [and_then]. *)
Lemma and_then_Some {A B} (m : M FreeList (option A)) (f : A -> M FreeList (option B)) fl a fl' :
  m fl = Ret (Some a, fl') -> and_then m f fl = f a fl'.
Proof. intros H. unfold and_then. by rewrite (bind_run _ _ _ _ _ H). Qed.
Lemma and_then_None {A B} (m : M FreeList (option A)) (f : A -> M FreeList (option B)) fl fl' :
  m fl = Ret (None, fl') -> and_then m f fl = Ret (None, fl').
Proof. intros H. unfold and_then. by rewrite (bind_run _ _ _ _ _ H). Qed.

(** A state reached from [fl] by adding tables, with [k] fewer free pages at
    most. *)
Definition extends (root : Z) (fl : FreeList) (l : list Z) (k : nat) (fl' : FreeList) (l' : list Z) : Prop :=
  pt_wf fl' root l' /\ (exists p, l = p ++ l' /\ (length p <= k)%nat) /\
  (forall vb, lookup_entry fl' root vb = lookup_entry fl root vb) /\ keeps fl root l fl' l'.

Lemma extends_step root fl l k fl1 l1 fl2 l2 :
  extends root fl l k fl1 l1 -> pt_wf fl2 root l2 -> (l2 = l1 \/ exists a, l1 = a :: l2) ->
  (forall vb, lookup_entry fl2 root vb = lookup_entry fl1 root vb) -> keeps fl1 root l1 fl2 l2 ->
  extends root fl l (S k) fl2 l2.
Proof.
  intros (H1 & (p & -> & Hp) & H3 & H4) Hwf [->|(a & ->)] Hl Hk; (split; [done|]);
    (split; [|split; [intros vb; by rewrite Hl|by eapply keeps_trans]]).
  - exists p. split; [done|lia].
  - exists (p ++ [a]). rewrite <-app_assoc. split; [done|]. rewrite length_app. cbn. lia.
Qed.

(** Reaching a table at depth [n0] after some steps of a walk that creates. *)
Definition reaches root va fl l n0 (m : M FreeList (option Z)) : Prop :=
  exists o fl' l', m fl = Ret (o, fl') /\ extends root fl l n0 fl' l' /\
    match o with Some t => walk fl' root va n0 = Some t | None => (length l < n0)%nat end.

Lemma reaches_step root va fl l n0 m :
  (n0 <= 2)%nat -> reaches root va fl l n0 m ->
  reaches root va fl l (S n0) (and_then m (tnext_mut (4 - Z.of_nat n0) va)).
Proof.
  intros Hn (o & fl1 & l1 & Hm & Hx & Ho). destruct o as [t|].
  - destruct (tnext_mut_spec fl1 root l1 n0 va t) as [[H ->]|(t' & fl2 & l2 & H & Hwf & Hw & Hl & Hlk & Hkp)];
      [apply Hx|done|done| |].
    + exists None, fl1, []. rewrite (and_then_Some _ _ _ _ _ Hm). split; [done|]. split.
      { eapply extends_step; [done|apply Hx|by left|done|apply keeps_refl]. }
      destruct Hx as (_ & (p & -> & Hp) & _). rewrite app_nil_r. lia.
    + exists (Some t'), fl2, l2. rewrite (and_then_Some _ _ _ _ _ Hm). split; [done|]. split; [|done].
      by eapply extends_step.
  - exists None, fl1, l1. rewrite (and_then_None _ _ _ _ Hm). split; [done|]. split; [|lia].
    eapply extends_step; [done|apply Hx|by left|done|apply keeps_refl].
Qed.

Lemma root_Some root : 0 < root -> as_ref root = Some root.
Proof. intros H. unfold as_ref. by rewrite (proj2 (Z.eqb_neq _ _)) by lia. Qed.

Lemma reaches_leaf root va fl l :
  pt_wf fl root l ->
  reaches root va fl l 3 (and_then (and_then (tnext_mut 4 va root) (tnext_mut 3 va)) (tnext_mut 2 va)).
Proof.
  intros Hwf. do 2 (apply (reaches_step root va fl l); [lia|]).
  destruct (reaches_step root va fl l 0 (mret (Some root))) as (o & fl' & l' & H); [lia| |].
  - exists (Some root), fl, l. split; [done|]. split; [|done]. split; [done|].
    split; [by exists []|]. split; [done|apply keeps_refl].
  - by exists o, fl', l'.
Qed.

(** [map_to] always returns.  It succeeds if three pages are free, and then
    exactly the page of [va] translates differently. *)
Lemma map_to_spec fl root l pa va flags :
  pt_wf fl root l -> uN 64 flags ->
  exists r fl' l', map_to root pa va flags fl = Ret (r, fl') /\ pt_wf fl' root l' /\
    (exists p, l = p ++ l' /\ (length p <= 3)%nat) /\
    ((3 <= length l)%nat -> r = Ok tt) /\ keeps fl root l fl' l' /\
    forall vb, lookup_entry fl' root vb =
      if is_ok r && (pfx 4 vb =? pfx 4 va) then Some (enable (Entry_new pa flags)) else lookup_entry fl root vb.
Proof.
  intros Hwf Hf. unfold map_to. rewrite root_Some by apply Hwf.
  destruct (reaches_leaf root va fl l Hwf) as (o & fl1 & l1 & Hm & (Hwf1 & Hp & Hlk & Hk1) & Ho).
  rewrite (bind_run _ _ _ _ _ Hm). destruct o as [t|].
  2:{ eexists _, fl1, l1. split; [done|]. split; [done|]. split; [done|]. split; [lia|]. done. }
  destruct (wf_page _ _ _ Hwf1 3 va t) as (_ & pg & Hpg & _); [lia|done|].
  rewrite (bind_run _ _ _ _ _ (write_entry_run _ _ _ _ _ Hpg)).
  assert (He : uN 64 (enable (Entry_new pa flags))).
  { apply uN_lor; [lia|apply uN_lor; [lia| |done]|done]. apply bits_bound; [lia|apply Z.land_nonneg; by right|].
    intros i Hi. rewrite Z.land_spec, (uN_testbit_high 64 PHYS_PAGE_MASK i) by (lia || (unfold uN, PHYS_PAGE_MASK; lia)).
    apply andb_false_r. }
  destruct (leaf_write fl1 root l1 va t _ pg Hwf1 Ho Hpg He) as (Hwf2 & Hk2 & Hlk2).
  eexists _, _, l1. split; [done|]. split; [done|]. split; [done|]. split; [done|]. split; [by eapply keeps_trans|].
  intros vb. rewrite Hlk2, Hlk. cbn [is_ok andb].
  assert (is_present (enable (Entry_new pa flags)) = true) as ->.
  { rewrite is_present_bit. unfold enable. rewrite Z.lor_spec. by rewrite orb_true_r. }
  case_decide as E; [by rewrite E, Z.eqb_refl|by rewrite (proj2 (Z.eqb_neq _ _))].
Qed.

(** [entry_for] reads the tree. *)
Lemma tnext_run fl lvl va t pg : pages fl !! t = Some pg ->
  tnext lvl va t fl = Ret (step_walk fl lvl va t, fl).
Proof.
  intros H. unfold tnext. rewrite (bind_run _ _ _ _ _ (read_entry_run _ _ _ _ H)). unfold step_walk. by rewrite H.
Qed.

Lemma walk_run fl root l va n m :
  pt_wf fl root l -> (n <= 2)%nat -> m fl = Ret (walk fl root va n, fl) ->
  and_then m (tnext (4 - Z.of_nat n) va) fl = Ret (walk fl root va (S n), fl).
Proof.
  intros Hwf Hn Hm. cbn. destruct (walk fl root va n) as [t|] eqn:Ht; [|by apply and_then_None].
  rewrite (and_then_Some _ _ _ _ _ Hm). destruct (wf_page _ _ _ Hwf n va t) as (_ & pg & Hpg & _); [lia|done|].
  by rewrite (tnext_run _ _ _ _ _ Hpg).
Qed.

Lemma entry_for_run fl root l va :
  pt_wf fl root l -> entry_for root va fl = Ret (lookup_entry fl root va, fl).
Proof.
  intros Hwf. unfold entry_for. rewrite root_Some by apply Hwf.
  assert (H : and_then (and_then (tnext 4 va root) (tnext 3 va)) (tnext 2 va) fl = Ret (walk fl root va 3, fl)).
  { apply (walk_run fl root l va 2); [done|lia|]. apply (walk_run fl root l va 1); [done|lia|].
    exact (walk_run fl root l va 0 (mret (Some root) : M FreeList _) Hwf ltac:(lia) eq_refl). }
  unfold lookup_entry. destruct (walk fl root va 3) as [t|] eqn:Ht; [|by apply and_then_None].
  rewrite (and_then_Some _ _ _ _ _ H). destruct (wf_page _ _ _ Hwf 3 va t) as (_ & pg & Hpg & _); [lia|done|].
  unfold table_entry. rewrite (bind_run _ _ _ _ _ (read_entry_run _ _ _ _ Hpg)). by rewrite Hpg.
Qed.

Lemma translate_run fl root l va :
  pt_wf fl root l ->
  translate root va fl = Ret ((fun e => phys_page_addr e + va mod PAGE_SIZE) <$> lookup_entry fl root va, fl).
Proof.
  intros Hwf. unfold translate. rewrite (bind_run _ _ _ _ _ (entry_for_run _ _ _ va Hwf)).
  by destruct (lookup_entry fl root va).
Qed.

(** Addresses on the same page; the walk ignores the bits above 48. *)
Definition same_page (va vb : Z) : bool := va mod 2 ^ 48 / PAGE_SIZE =? vb mod 2 ^ 48 / PAGE_SIZE.

Lemma same_page_pfx va vb : (pfx 4 va =? pfx 4 vb) = same_page va vb.
Proof. done. Qed.

Lemma flags_enable pa flags :
  0 <= pa < 2 ^ 47 -> pa mod PAGE_SIZE = 0 -> Z.land flags PHYS_PAGE_MASK = 0 ->
  phys_page_addr (enable (Entry_new pa flags)) = pa.
Proof.
  intros H1 H2 H3. unfold enable, Entry_new. rewrite <-Z.lor_assoc. apply phys_page_addr_new; [done|done|].
  by rewrite Z.land_lor_distr_l, H3.
Qed.

(** C19: Mapping refines adding one page to the translation: with three pages
    free, [map_to] of a page-aligned physical address succeeds, keeps the
    page-table tree well formed, and afterwards [translate] gives that page
    for every address of [va]'s page and what it gave before for every other
    address. *)
Theorem map_to_translates fl root l pa va flags :
  pt_wf fl root l -> uN 64 flags -> Z.land flags PHYS_PAGE_MASK = 0 ->
  0 <= pa < 2 ^ 47 -> pa mod PAGE_SIZE = 0 -> (3 <= length l)%nat ->
  exists fl' l', map_to root pa va flags fl = Ret (Ok tt, fl') /\ pt_wf fl' root l' /\
    forall vb, exists old, translate root vb fl = Ret (old, fl) /\
      translate root vb fl' = Ret (if same_page vb va then Some (pa + vb mod PAGE_SIZE) else old, fl').
Proof.
  intros Hwf Hf Hm Hpa Hal Hl.
  destruct (map_to_spec fl root l pa va flags Hwf Hf) as (r & fl' & l' & Hr & Hwf' & _ & Hok & _ & Hlk).
  rewrite (Hok Hl) in *. exists fl', l'. split; [done|]. split; [done|]. intros vb.
  eexists. rewrite (translate_run _ _ _ _ Hwf), (translate_run _ _ _ _ Hwf'). split; [done|].
  rewrite Hlk. cbn [is_ok andb]. rewrite same_page_pfx. case_bool; [|done]. cbn. by rewrite flags_enable.
Qed.

(** ** Growing user memory *)

(** Taking a page from the free pages keeps every walk; the page is clear and
    outside the tree. *)
Lemma alloc_keeps fl root a l :
  pt_wf fl root (a :: l) ->
  exists fl1, Kalloc.alloc fl = Ret (Some a, fl1) /\ pt_wf fl1 root l /\ keeps fl root (a :: l) fl1 l /\
    outside fl1 root l a /\ pages fl1 !! a = Some page_clear /\
    forall vb, lookup_entry fl1 root vb = lookup_entry fl root vb.
Proof.
  intros Hwf. destruct (get_refines _ _ (wf_free _ _ _ Hwf)) as (fl1 & Hg & Hrep & Hz & Hsame).
  assert (Hne : forall n va b, (n <= 3)%nat -> walk fl root va n = Some b -> b <> a).
  { intros n va b Hn Hb ->. destruct (wf_page _ _ _ Hwf _ _ _ Hn Hb) as [H _]. set_solver. }
  assert (Hw : forall n va, (n <= 4)%nat -> walk fl1 root va n = walk fl root va n).
  { intros n va Hn. induction n as [|n IH]; [done|]. cbn. rewrite IH by lia.
    destruct (walk fl root va n) as [t|] eqn:Ht; [|done]. cbn. unfold step_walk.
    rewrite Hsame; [done|]. apply (Hne n va); [lia|done]. }
  pose proof (wf_free _ _ _ Hwf) as [_ [Hal _]%NoDup_cons].
  exists fl1. split; [done|]. split; [|split; [|split; [|split; [done|]]]].
  - pose proof (wf_page _ _ _ Hwf) as Hpage. destruct Hwf as [_ [_ Hdir]%Forall_cons Hroot _ Hinj]. split; try done.
    + intros n va b Hn Hb. rewrite Hw in Hb by lia. destruct (Hpage _ _ _ Hn Hb) as (? & pg & ? & ?).
      split; [set_solver|]. exists pg. rewrite Hsame; [done|]. by apply (Hne n va).
    + intros n m va vb b Hn Hm H1 H2. rewrite Hw in H1, H2 by lia. eauto.
  - intros b [Hbl Hb]. apply not_elem_of_cons in Hbl as [Hba Hbl]. split; [|by apply Hsame].
    split; [done|]. intros n va Hn. rewrite Hw by lia. by apply Hb.
  - split; [done|]. intros n va Hn Ha. rewrite Hw in Ha by lia. by eapply Hne.
  - intros vb. unfold lookup_entry. rewrite Hw by lia. destruct (walk fl root vb 3) as [t|] eqn:Ht; [|done].
    rewrite Hsame; [done|]. by apply (Hne 3%nat vb); [lia|].
Qed.

Lemma alloc_pages_spec root old_size new_size flags vas : forall fl l,
  pt_wf fl root l -> uN 64 flags -> NoDup (pfx 4 <$> vas) -> (4 * length vas <= length l)%nat ->
  exists fl' l' ps, alloc_pages root old_size new_size flags vas fl = Ret (Ok new_size, fl') /\
    pt_wf fl' root l' /\ keeps fl root l fl' l' /\ length ps = length vas /\ NoDup ps /\
    (forall a, a ∈ ps -> a ∈ l /\ outside fl' root l' a /\ pages fl' !! a = Some page_clear) /\
    (forall i va a, vas !! i = Some va -> ps !! i = Some a ->
       lookup_entry fl' root va = Some (enable (Entry_new (a - KERNBASE) (Z.lor flags USER)))) /\
    (forall vb, pfx 4 vb ∉ pfx 4 <$> vas -> lookup_entry fl' root vb = lookup_entry fl root vb).
Proof.
  induction vas as [|va vas IH]; intros fl l Hwf Hf Hnd Hlen.
  { exists fl, l, []. split; [done|]. split; [done|]. split; [apply keeps_refl|]. split; [done|].
    split; [constructor|]. split; [set_solver|]. done. }
  cbn [fmap list_fmap] in Hnd. apply NoDup_cons in Hnd as [Hva Hnd]. destruct l as [|a l1]; [cbn in Hlen; lia|].
  cbn [alloc_pages]. destruct (alloc_keeps _ _ _ _ Hwf) as (fl1 & Ha & Hwf1 & Hk1 & Hout1 & Hz1 & Hlk1).
  rewrite (bind_run _ _ _ _ _ Ha). pose proof (wf_direct _ _ _ Hwf) as [Hda _]%Forall_cons.
  pose proof (wf_free _ _ _ Hwf) as [_ [Hal _]%NoDup_cons].
  unfold page_phys_addr, addr_to_phys, sub_ovf. rewrite (proj2 (Z.leb_le _ _)) by apply Hda.
  erewrite bind_lift by done.
  destruct (map_to_spec fl1 root l1 (a - KERNBASE) va (Z.lor flags USER) Hwf1) as (r & fl2 & l2 & Hm & Hwf2 & (p & -> & Hp) & Hok & Hk2 & Hlk2).
  { apply uN_lor; [lia|done|done]. }
  cbn in Hlen. rewrite (bind_run _ _ _ _ _ Hm). rewrite (Hok ltac:(lia)) in *. rewrite length_app in Hlen.
  destruct (IH fl2 l2 Hwf2 Hf Hnd ltac:(lia)) as (fl3 & l3 & ps & Hr & Hwf3 & Hk3 & Hlps & Hndp & Hsub & Hent & Hsame).
  exists fl3, l3, (a :: ps). split; [done|]. split; [done|].
  split; [by eapply keeps_trans; [exact Hk1|eapply keeps_trans]|]. split; [cbn; lia|].
  split; [apply NoDup_cons; split; [|done]; intros [H _]%Hsub; set_solver|]. split; [|split].
  - intros b [->|(Hb & Ho & Hz)%Hsub]%elem_of_cons; [|set_solver]. split; [set_solver|].
    destruct (keeps_trans _ _ _ _ _ _ _ Hk2 Hk3 a Hout1) as [Ho E]. split; [done|congruence].
  - intros [|i] v b Hv Hb; cbn in Hv, Hb; [|eauto]. injection Hv as <-. injection Hb as <-.
    rewrite Hsame by done. rewrite Hlk2. cbn [is_ok andb]. by rewrite Z.eqb_refl.
  - intros vb Hvb. cbn in Hvb. apply not_elem_of_cons in Hvb as [Hne Hvb].
    rewrite Hsame, Hlk2, Hlk1 by done. cbn. by rewrite (proj2 (Z.eqb_neq _ _)).
Qed.

(** Page numbers of the addresses a range of pages steps through. *)
Definition pg_up (v : Z) : Z := (v + PAGE_SIZE - 1) / PAGE_SIZE * PAGE_SIZE.

Lemma pfx4_page va : 0 <= va < 2 ^ 48 -> pfx 4 va = va / PAGE_SIZE.
Proof. intros H. unfold pfx. rewrite Z.mod_small by lia. done. Qed.

Lemma NoDup_fmap_inj_on {A B} (f : A -> B) (l : list A) :
  (forall x y, x ∈ l -> y ∈ l -> f x = f y -> x = y) -> NoDup l -> NoDup (f <$> l).
Proof.
  intros Hinj Hnd. induction Hnd as [|x l Hx Hnd IH]; [constructor|]. cbn. constructor.
  - intros (y & Hy & Hyl)%list_elem_of_fmap. apply Hx. rewrite (Hinj x y); [done|set_solver..|done].
  - apply IH. intros y z Hy Hz. apply Hinj; set_solver.
Qed.

Lemma page_range_elem m n va :
  va ∈ step_range (m * PAGE_SIZE) (n * PAGE_SIZE) PAGE_SIZE <-> exists k, m <= k < n /\ va = k * PAGE_SIZE.
Proof.
  unfold step_range. case_bool; bool_to_prop; unfold PAGE_SIZE in *; [|set_solver by lia].
  replace ((n * 4096 - m * 4096 + 4096 - 1) / 4096) with (n - m)
    by (replace (n * 4096 - m * 4096 + 4096 - 1) with (4095 + (n - m) * 4096) by lia; rewrite Z.div_add by lia; done).
  rewrite list_elem_of_fmap. split.
  - intros (k & -> & Hk%elem_of_seq). exists (m + Z.of_nat k). lia.
  - intros (k & Hk & ->). exists (Z.to_nat (k - m)). split; [lia|]. apply elem_of_seq. lia.
Qed.

Lemma page_range_length m n : m <= n ->
  length (step_range (m * PAGE_SIZE) (n * PAGE_SIZE) PAGE_SIZE) = Z.to_nat (n - m).
Proof.
  intros H. unfold step_range. case_bool; bool_to_prop; unfold PAGE_SIZE in *; [|cbn; lia].
  rewrite length_fmap, length_seq.
  replace (n * 4096 - m * 4096 + 4096 - 1) with (4095 + (n - m) * 4096) by lia. rewrite Z.div_add by lia. done.
Qed.

Lemma page_range_pfx m n : 0 <= m -> n * PAGE_SIZE <= 2 ^ 48 ->
  NoDup (pfx 4 <$> step_range (m * PAGE_SIZE) (n * PAGE_SIZE) PAGE_SIZE).
Proof.
  intros Hm Hn. apply NoDup_fmap_inj_on.
  - intros x y (k & Hk & ->)%page_range_elem (j & Hj & ->)%page_range_elem.
    unfold PAGE_SIZE in *. rewrite !pfx4_page by lia. unfold PAGE_SIZE. rewrite !Z.div_mul by lia. by intros ->.
  - unfold step_range. case_bool; [|constructor]. apply (NoDup_fmap_2_strong _ (seq _ _)); [|apply NoDup_seq].
    intros i j _ _. unfold PAGE_SIZE. lia.
Qed.

Lemma user_entry a flags :
  direct a -> Z.land flags PHYS_PAGE_MASK = 0 ->
  let e := enable (Entry_new (a - KERNBASE) (Z.lor flags USER)) in
  is_present e = true /\ is_user e = true /\ virt_page_addr e = a.
Proof.
  intros [Hr Hal] Hm e. split; [|split].
  - rewrite is_present_bit. unfold e, enable. rewrite Z.lor_spec. by rewrite orb_true_r.
  - unfold is_user, entry_flags. change USER with (2 ^ 2). rewrite land_pow2 by lia.
    rewrite Z.land_spec. unfold e, enable, Entry_new. rewrite !Z.lor_spec.
    change (Z.testbit (2 ^ 2) 2) with true. by rewrite !orb_true_r.
  - unfold virt_page_addr, e. rewrite flags_enable; [lia|unfold KERNBASE in *; lia| |].
    + rewrite Zminus_mod, Hal. done.
    + by rewrite Z.land_lor_distr_l, Hm.
Qed.

(** [alloc_user] with four free pages for each new one. *)
Lemma alloc_user_run fl root l old_size new_size flags :
  pt_wf fl root l -> uN 64 flags -> Z.land flags PHYS_PAGE_MASK = 0 ->
  0 <= old_size < new_size -> new_size <= USEREND ->
  let vas := step_range (pg_up old_size) (pg_up new_size) PAGE_SIZE in
  (4 * length vas <= length l)%nat ->
  exists fl' l' ps, alloc_user root old_size new_size flags fl = Ret (Ok new_size, fl') /\
    pt_wf fl' root l' /\ NoDup ps /\ length ps = length vas /\
    (forall a, a ∈ ps -> direct a /\ a ∈ l /\ outside fl' root l' a /\ pages fl' !! a = Some page_clear) /\
    (forall i va a, vas !! i = Some va -> ps !! i = Some a ->
       lookup_entry fl' root va = Some (enable (Entry_new (a - KERNBASE) (Z.lor flags USER)))) /\
    (forall vb, 0 <= vb < 2 ^ 48 -> ~ (pg_up old_size <= vb < pg_up new_size) ->
       lookup_entry fl' root vb = lookup_entry fl root vb).
Proof.
  intros Hwf Hf Hm Hsz Hue vas Hlen.
  assert (Hup : forall v, 0 <= v <= USEREND -> exists k, pg_up v = k * PAGE_SIZE /\ 0 <= k /\ v <= k * PAGE_SIZE < v + PAGE_SIZE).
  { intros v Hv. exists ((v + PAGE_SIZE - 1) / PAGE_SIZE). split; [done|]. unfold PAGE_SIZE, USEREND in *.
    pose proof (Z.div_mod (v + 4096 - 1) 4096). pose proof (Z.mod_pos_bound (v + 4096 - 1) 4096). lia. }
  destruct (Hup old_size) as (m & Em & Hm0 & Hm1); [lia|]. destruct (Hup new_size) as (n & En & Hn0 & Hn1); [lia|].
  unfold alloc_user. rewrite (proj2 (Z.ltb_ge _ _)), (proj2 (Z.leb_gt _ _)) by lia.
  unfold PAGE_SIZE, USEREND in *. rewrite !page_round_up_eq by (unfold PAGE_SIZE; lia).
  do 2 erewrite bind_lift by done. change (step_range _ _ 4096) with vas.
  destruct (alloc_pages_spec root old_size new_size flags vas fl l Hwf Hf) as
    (fl' & l' & ps & Hr & Hwf' & _ & Hlps & Hnd & Hsub & Hent & Hsame); [|done|].
  { unfold vas. rewrite Em, En. apply page_range_pfx; unfold PAGE_SIZE; lia. }
  exists fl', l', ps. do 4 (split; [done|]). split; [|split; [done|]].
  - intros a Ha. split; [|by apply Hsub]. pose proof (wf_direct _ _ _ Hwf) as Hd. rewrite Forall_forall in Hd.
    by apply Hd, Hsub.
  - intros vb Hvb Hout. apply Hsame.
    unfold vas. rewrite Em, En. intros (va & Hpe & (k & Hk & ->)%page_range_elem)%list_elem_of_fmap.
    apply Hout. unfold PAGE_SIZE in *. rewrite !pfx4_page in Hpe by lia. unfold PAGE_SIZE in Hpe.
    rewrite Z.div_mul in Hpe by lia. pose proof (Z.div_mod vb 4096). pose proof (Z.mod_pos_bound vb 4096). lia.
Qed.

(** C20: Growing a process from [old_size] to [new_size] below [USEREND], with
    four free pages for each new one: [alloc_user] returns the new size, every
    page from the rounded old end to the rounded new end is then a user page
    of its own, taken from the free pages, clear and not a table, and every
    other translation is as before. *)
Theorem alloc_user_maps fl root l old_size new_size flags :
  pt_wf fl root l -> uN 64 flags -> Z.land flags PHYS_PAGE_MASK = 0 ->
  0 <= old_size < new_size -> new_size <= USEREND ->
  let vas := step_range (pg_up old_size) (pg_up new_size) PAGE_SIZE in
  (4 * length vas <= length l)%nat ->
  exists fl' l' ps, alloc_user root old_size new_size flags fl = Ret (Ok new_size, fl') /\
    pt_wf fl' root l' /\ NoDup ps /\ length ps = length vas /\
    (forall a, a ∈ ps -> a ∈ l /\ outside fl' root l' a /\ pages fl' !! a = Some page_clear) /\
    (forall i va a, vas !! i = Some va -> ps !! i = Some a -> user_addr_to_kern_page root va fl' = Ret (Ok a, fl')) /\
    (forall vb, 0 <= vb < 2 ^ 48 -> ~ (pg_up old_size <= vb < pg_up new_size) ->
       exists o, entry_for root vb fl = Ret (o, fl) /\ entry_for root vb fl' = Ret (o, fl')).
Proof.
  intros Hwf Hf Hm Hsz Hue vas Hlen.
  destruct (alloc_user_run fl root l old_size new_size flags Hwf Hf Hm Hsz Hue Hlen) as
    (fl' & l' & ps & Hr & Hwf' & Hnd & Hlps & Hps & Hent & Hsame).
  exists fl', l', ps. do 4 (split; [done|]). split; [by intros a (_ & Ha)%Hps|]. split.
  - intros i va a Hva Ha. unfold user_addr_to_kern_page.
    rewrite (bind_run _ _ _ _ _ (entry_for_run _ _ _ va Hwf')), (Hent _ _ _ Hva Ha).
    destruct (Hps a) as [Hda _]; [by eapply list_elem_of_lookup_2|].
    destruct (user_entry a flags Hda Hm) as (-> & -> & ->). done.
  - intros vb Hvb Hout. exists (lookup_entry fl root vb).
    by rewrite (entry_for_run _ _ _ vb Hwf), (entry_for_run _ _ _ vb Hwf'), Hsame.
Qed.

(** ** An empty table over some free pages *)
Lemma empty_root_wf fl root l :
  fl_rep fl l -> Forall direct l -> 0 < root < 2 ^ 64 -> root ∉ l -> pages fl !! root = Some page_clear ->
  pt_wf fl root l.
Proof.
  intros Hrep Hdir Hroot Hni Hpg.
  assert (Hw : forall n va, walk fl root va (S n) = None).
  { intros n va. apply (walk_None_le _ _ _ 1); [|lia]. cbn. unfold step_walk. rewrite Hpg.
    by rewrite get_entry_clear, is_present_0 by apply index_range. }
  split; try done.
  - intros [|n] va a Hn Ha; [|by rewrite Hw in Ha]. injection Ha as <-. split; [done|].
    exists page_clear. split; [done|]. by apply zlen_rep.
  - intros [|n] [|m] va vb a Hn Hm H1 H2; try by rewrite Hw in H1 || rewrite Hw in H2.
    split; [done|]. unfold pfx. change (48 - 9 * Z.of_nat 0) with 48.
    rewrite !Z.div_small by (apply Z.mod_pos_bound; lia). done.
Qed.

Definition demo_pages (n : Z) : list Z := (fun k => KERNBASE + k * PAGE_SIZE) <$> zrange 1 (n + 1).

Lemma demo_pages_direct n : n < 1000 -> Forall direct (demo_pages n).
Proof.
  intros Hn. apply Forall_forall. intros a (k & -> & Hk%elem_of_zrange)%list_elem_of_fmap.
  split; [unfold KERNBASE, PAGE_SIZE; lia|]. by rewrite Z.mod_add.
Qed.

Lemma demo_pages_NoDup n : NoDup (demo_pages n) /\ length (demo_pages n) = Z.to_nat n.
Proof.
  unfold demo_pages, zrange, step_range. rewrite Z.div_1_r. case_bool; bool_to_prop.
  - split; [|rewrite !length_fmap, length_seq; lia]. rewrite <-list_fmap_compose.
    apply (NoDup_fmap_2_strong _ (seq _ _)); [|apply NoDup_seq]. intros i j _ _. unfold compose, PAGE_SIZE. lia.
  - split; [constructor|cbn; lia].
Qed.

Lemma demo_table_of n : 0 < n < 1000 -> exists fl root l, pt_wf fl root l /\ length l = Z.to_nat (n - 1).
Proof.
  intros Hn. destruct (demo_pages_NoDup n) as [Hnd Hlen0].
  pose proof (demo_pages_direct n ltac:(lia)) as Hd. rewrite Forall_forall in Hd.
  destruct (free_pages_refines (demo_pages n) fl_boot []) as (fl & _ & Hrep);
    [apply fl_boot_rep|done| |].
  { intros p Hp. split; [set_solver|]. destruct (Hd p Hp). unfold KERNBASE in *. lia. }
  rewrite app_nil_r in Hrep. assert (Hdr : forall a, a ∈ reverse (demo_pages n) -> direct a).
  { intros a Ha. apply Hd. by apply elem_of_reverse. }
  pose proof (length_reverse (demo_pages n)) as Hlen. destruct (reverse (demo_pages n)) as [|root l] eqn:E; [cbn in Hlen; lia|].
  destruct (get_refines _ _ Hrep) as (fl1 & _ & Hrep1 & Hz & _). destruct Hrep as [_ [Hni _]%NoDup_cons].
  exists fl1, root, l. split; [|cbn in Hlen; lia]. apply empty_root_wf; try done.
  - apply Forall_forall. intros a Ha. apply Hdr. set_solver.
  - destruct (Hdr root) as [Hr _]; [set_solver|]. unfold KERNBASE in *. lia.
Qed.

Lemma demo_table : exists fl root l, pt_wf fl root l /\ length l = 9%nat.
Proof. by apply (demo_table_of 10). Qed.

Lemma map_to_translates_witness :
  exists fl root fl', map_to root 0x5000 0x400000 (Z.lor WRITE USER) fl = Ret (Ok tt, fl') /\
    translate root 0x400123 fl' = Ret (Some 0x5123, fl').
Proof.
  destruct demo_table as (fl & root & l & Hwf & Hl).
  destruct (map_to_translates fl root l 0x5000 0x400000 (Z.lor WRITE USER) Hwf) as (fl' & l' & Hm & _ & Ht);
    [unfold uN; vm_compute; split; congruence|reflexivity|lia|reflexivity|lia|].
  exists fl, root, fl'. split; [exact Hm|]. destruct (Ht 0x400123) as (old & _ & H). exact H.
Defined.

Lemma alloc_user_maps_witness :
  exists fl root fl' a b, alloc_user root 0x800 0x2800 WRITE fl = Ret (Ok 0x2800, fl') /\ a <> b /\
    user_addr_to_kern_page root 0x1000 fl' = Ret (Ok a, fl') /\
    user_addr_to_kern_page root 0x2000 fl' = Ret (Ok b, fl').
Proof.
  destruct demo_table as (fl & root & l & Hwf & Hl).
  destruct (alloc_user_maps fl root l 0x800 0x2800 WRITE Hwf) as (fl' & l' & ps & Hr & _ & Hnd & Hlen & _ & He & _);
    [unfold uN; vm_compute; split; congruence|reflexivity|lia|unfold USEREND; lia|rewrite Hl; vm_compute; repeat constructor|].
  vm_compute in Hlen. destruct ps as [|a [|b [|c ps]]]; try discriminate Hlen.
  exists fl, root, fl', a, b. split; [exact Hr|]. split; [inversion_clear Hnd; set_solver|].
  split; [exact (He 0%nat 0x1000 a eq_refl eq_refl)|exact (He 1%nat 0x2000 b eq_refl eq_refl)].
Defined.
