(* ===== verification/UserMem.v ===== *)
(** User memory as the page table shows it: a region of user pages, each on a
    frame of its own, and what copying into it does. *)
From stdpp Require Import base list gmap strings.
From Stdlib Require Import ZArith Lia.
From S2P Require Import Prelude.
From S2P Require Import Arch.
From S2P Require Import Kalloc.
From S2P Require Import Vm.
From S2P Require Import VmSpec.

(** The byte a process reads at [x]. *)
Definition user_byte (fl : FreeList) (root x : Z) : option Z :=
  match user_addr_to_kern_page root x fl with
  | Ret (Ok a, _) => pages fl !! a ≫= fun pg => pg.[x mod PAGE_SIZE]
  | _ => None
  end.

(** The pages numbered [lo] to [hi - 1] are user pages on the frames [fr],
    which are distinct, not free and not tables. *)
Record umap (fl : FreeList) (root : Z) (l : list Z) (lo hi : Z) (fr : Z -> Z) : Prop := {
  um_wf : pt_wf fl root l;
  um_range : 0 <= lo /\ hi <= 2 ^ 35;
  um_entry : forall k, lo <= k < hi -> exists e, lookup_entry fl root (k * PAGE_SIZE) = Some e /\
    is_present e = true /\ is_user e = true /\ virt_page_addr e = fr k;
  um_out : forall k, lo <= k < hi -> outside fl root l (fr k) /\
    exists pg, pages fl !! fr k = Some pg /\ zlen pg = PAGE_SIZE;
  um_inj : forall j k, lo <= j < hi -> lo <= k < hi -> fr j = fr k -> j = k }.

Definition frame_byte (fl : FreeList) (fr : Z -> Z) (x : Z) : option Z :=
  pages fl !! fr (x / PAGE_SIZE) ≫= fun pg => pg.[x mod PAGE_SIZE].

Lemma lookup_entry_page fl root x :
  0 <= x < 2 ^ 48 -> lookup_entry fl root x = lookup_entry fl root (x / PAGE_SIZE * PAGE_SIZE).
Proof.
  intros Hx. set (y := x / PAGE_SIZE * PAGE_SIZE).
  assert (Hy : 0 <= y < 2 ^ 48) by (unfold y, PAGE_SIZE; pose proof (Z.div_mod x 4096); pose proof (Z.mod_pos_bound x 4096); lia).
  assert (Hp : pfx 4 x = pfx 4 y).
  { rewrite !pfx4_page by done. unfold y. by rewrite Z.div_mul. }
  unfold lookup_entry. rewrite (walk_pfx _ _ 3 x y) by (done || lia || by apply (pfx_le 3 4); [lia|]).
  change 1 with (4 - Z.of_nat 3). by apply pfx_S_eq in Hp as [_ ->]; [|lia].
Qed.

Section region.
Context {root lo hi : Z} {l : list Z} {fr : Z -> Z}.
Notation umap fl := (umap fl root l lo hi fr).

Lemma um_page fl x : umap fl -> lo * PAGE_SIZE <= x < hi * PAGE_SIZE ->
  lo <= x / PAGE_SIZE < hi /\ 0 <= x < 2 ^ 47.
Proof.
  intros H Hx. pose proof (um_range _ _ _ _ _ _ H). unfold PAGE_SIZE in *.
  pose proof (Z.div_mod x 4096). pose proof (Z.mod_pos_bound x 4096). lia.
Qed.

Lemma user_page_run fl x : umap fl -> lo * PAGE_SIZE <= x < hi * PAGE_SIZE ->
  user_addr_to_kern_page root x fl = Ret (Ok (fr (x / PAGE_SIZE)), fl).
Proof.
  intros H Hx. destruct (um_page _ _ H Hx) as [Hk Hx48].
  destruct (um_entry _ _ _ _ _ _ H _ Hk) as (e & He & Hp & Hu & Hv).
  unfold user_addr_to_kern_page. rewrite (bind_run _ _ _ _ _ (entry_for_run _ _ _ x (um_wf _ _ _ _ _ _ H))).
  rewrite lookup_entry_page, He, Hp, Hu, Hv by lia. done.
Qed.

Lemma user_byte_frame fl x : umap fl -> lo * PAGE_SIZE <= x < hi * PAGE_SIZE ->
  user_byte fl root x = frame_byte fl fr x.
Proof. intros H Hx. unfold user_byte. by rewrite user_page_run. Qed.

(** Writing a page of the region. *)
Lemma um_write fl k pg : umap fl -> lo <= k < hi -> zlen pg = PAGE_SIZE ->
  umap (mkFreeList (next fl) (<[fr k := pg]> (pages fl))).
Proof.
  intros H Hk Hpg. destruct (um_out _ _ _ _ _ _ H k Hk) as [[Hl Ht] _]. set (fl' := mkFreeList _ _).
  assert (Hpage : forall a, a <> fr k -> pages fl' !! a = pages fl !! a) by (intros a Ha; cbn; by rewrite lookup_insert_ne).
  assert (Hw : forall n va, (n <= 4)%nat -> walk fl' root va n = walk fl root va n).
  { intros n va Hn. induction n as [|n IH]; [done|]. cbn [walk]. rewrite IH by lia.
    destruct (walk fl root va n) as [t|] eqn:Et; [|done]. cbn. unfold step_walk.
    rewrite Hpage; [done|]. intros ->. apply (Ht n va); [lia|done]. }
  assert (Hlk : forall va, lookup_entry fl' root va = lookup_entry fl root va).
  { intros va. unfold lookup_entry. rewrite Hw by lia. destruct (walk fl root va 3) as [t|] eqn:Et; [|done].
    rewrite Hpage; [done|]. intros ->. by apply (Ht 3%nat va); [lia|]. }
  assert (Hsize : forall a q, pages fl !! a = Some q -> zlen q = PAGE_SIZE ->
    exists q', pages fl' !! a = Some q' /\ zlen q' = PAGE_SIZE).
  { intros a q Hq Hz. destruct (decide (a = fr k)) as [->|Hne]; [exists pg; cbn; by rewrite lookup_insert_eq|].
    exists q. by rewrite Hpage. }
  destruct H as [Hwf Hr He Ho Hi]. split; try done.
  - destruct Hwf as [[Hc Hd] Hdir Hroot Hpg0 Hinj]. split; try done.
    + split; [by apply chain_insert|done].
    + intros n va a Hn Ha. rewrite Hw in Ha by lia. destruct (Hpg0 n va a Hn Ha) as (? & q & ? & ?). eauto.
    + intros n m va vb a Hn Hm H1 H2. rewrite Hw in H1, H2 by lia. eauto.
  - intros j Hj. rewrite Hlk. by apply He.
  - intros j Hj. destruct (Ho j Hj) as [[Hjl Hjt] (q & Hq & Hz)]. split; [|eauto].
    split; [done|]. intros n va Hn. rewrite Hw by lia. by apply Hjt.
Qed.

Lemma frame_byte_write fl k pg x : umap fl -> lo <= k < hi -> lo * PAGE_SIZE <= x < hi * PAGE_SIZE ->
  frame_byte (mkFreeList (next fl) (<[fr k := pg]> (pages fl))) fr x =
  if x / PAGE_SIZE =? k then pg.[x mod PAGE_SIZE] else frame_byte fl fr x.
Proof.
  intros H Hk Hx. destruct (um_page _ _ H Hx) as [Hj _]. unfold frame_byte. cbn.
  destruct (Z.eqb_spec (x / PAGE_SIZE) k) as [->|Hne]; [by rewrite lookup_insert_eq|].
  rewrite lookup_insert_ne; [done|]. intros E. symmetry in E. by apply (um_inj _ _ _ _ _ _ H) in E.
Qed.

(** What a write of [data] at [va] leaves. *)
Definition wrote (fl fl' : FreeList) (va : Z) (data : list Z) : Prop :=
  umap fl' /\ (forall b, (forall k, lo <= k < hi -> fr k <> b) -> pages fl' !! b = pages fl !! b) /\
  forall x, lo * PAGE_SIZE <= x < hi * PAGE_SIZE ->
    frame_byte fl' fr x = if (va <=? x) && (x <? va + zlen data) then data.[x - va] else frame_byte fl fr x.

Lemma wrote_nil fl va : umap fl -> wrote fl fl va [].
Proof. intros H. split; [done|]. split; [done|]. intros x Hx. change (zlen []) with 0. case_bool; [|done]. bool_to_prop. lia. Qed.

Lemma wrote_app fl fl1 fl2 va d1 d2 :
  wrote fl fl1 va d1 -> wrote fl1 fl2 (va + zlen d1) d2 -> wrote fl fl2 va (d1 ++ d2).
Proof.
  intros (H1 & O1 & B1) (H2 & O2 & B2). split; [done|]. split; [intros b Hb; by rewrite O2, O1|].
  intros x Hx. rewrite B2, B1, zlen_app by done. pose proof (zlen_nonneg d1). pose proof (zlen_nonneg d2).
  repeat case_bool; bool_to_prop; try done; try lia.
  - rewrite znth_app_r by lia. f_equal. lia.
  - rewrite znth_app_l by lia. done.
Qed.

(** One pass: the part of the data that lies on one page. *)
Lemma page_write fl va d pg :
  umap fl -> lo * PAGE_SIZE <= va -> va + zlen d <= hi * PAGE_SIZE -> 0 < zlen d ->
  va mod PAGE_SIZE + zlen d <= PAGE_SIZE -> pages fl !! fr (va / PAGE_SIZE) = Some pg -> zlen pg = PAGE_SIZE ->
  wrote fl (mkFreeList (next fl) (<[fr (va / PAGE_SIZE) := zsplice pg (va mod PAGE_SIZE) d]> (pages fl))) va d.
Proof.
  intros H Hlo Hhi Hd Hfit Hpg Hlen. destruct (um_page fl va H) as [Hk _]; [lia|].
  pose proof (Z.mod_pos_bound va PAGE_SIZE ltac:(done)) as Hm. split; [|split].
  - apply um_write; [done|done|]. rewrite zlen_zsplice; lia.
  - intros b Hb. cbn. rewrite lookup_insert_ne; [done|]. by apply Hb.
  - intros x Hx. rewrite frame_byte_write by done. unfold PAGE_SIZE in *.
    pose proof (Z.div_mod va 4096). pose proof (Z.div_mod x 4096). pose proof (Z.mod_pos_bound x 4096).
    destruct (Z.eqb_spec (x / 4096) (va / 4096)) as [E|E].
    + case_bool; bool_to_prop.
      * rewrite znth_zsplice_in by lia. f_equal. lia.
      * rewrite znth_zsplice_out by lia. unfold frame_byte, PAGE_SIZE. rewrite E, Hpg. done.
    + case_bool; [|done]. bool_to_prop. exfalso. nia.
Qed.

(** [copy_out] returns, whatever the pages the data crosses, and writes the
    data. *)
Lemma copy_out_loop_run fuel : forall fl data va,
  umap fl -> lo * PAGE_SIZE <= va -> va + zlen data <= hi * PAGE_SIZE -> (length data <= fuel)%nat ->
  exists fl', copy_out_loop fuel root data va fl = Ret (Ok tt, fl') /\ wrote fl fl' va data.
Proof.
  induction fuel as [|fuel IH]; intros fl data va H Hlo Hhi Hf.
  { destruct data; [|cbn in Hf; lia]. exists fl. split; [done|by apply wrote_nil]. }
  cbn [copy_out_loop]. destruct (Z.eqb_spec (zlen data) 0) as [E|E].
  { destruct data; [|unfold zlen in E; cbn in E; lia]. exists fl. split; [done|by apply wrote_nil]. }
  pose proof (zlen_nonneg data). pose proof (um_range _ _ _ _ _ _ H) as [Hr1 Hr2].
  pose proof (Z.mod_pos_bound va PAGE_SIZE ltac:(done)) as Hm.
  destruct (um_page fl va H) as [Hk Hva]; [lia|].
  rewrite page_round_down_eq by (unfold uN; lia). set (va0 := va - va mod PAGE_SIZE).
  assert (Hva0 : va0 / PAGE_SIZE = va / PAGE_SIZE).
  { unfold va0. symmetry. apply (Z.div_unique_pos _ _ _ 0); [done|]. pose proof (Z.div_mod va PAGE_SIZE). unfold PAGE_SIZE in *. lia. }
  assert (Hlo0 : lo * PAGE_SIZE <= va0) by (unfold va0, PAGE_SIZE in *; pose proof (Z.div_mod va 4096); lia).
  erewrite try_run by (apply user_page_run; [done|unfold va0; lia]). rewrite Hva0.
  destruct (um_out _ _ _ _ _ _ H _ Hk) as [_ (pg & Hpg & Hlen)].
  unfold page_at at 1. rewrite (bind_run _ _ _ pg fl) by (unfold mbind, M_bind, gets, expect; cbn; by rewrite Hpg).
  replace (va - va0) with (va mod PAGE_SIZE) by (unfold va0; lia).
  set (n := Z.min (PAGE_SIZE - va mod PAGE_SIZE) (zlen data)). assert (0 < n <= zlen data) by lia.
  unfold write_page. rewrite bind_modify.
  assert (Hn1 : zlen (take (Z.to_nat n) data) = n) by (unfold zlen in *; rewrite length_take; lia).
  pose proof (page_write fl va (take (Z.to_nat n) data) pg H) as Hw.
  specialize (Hw ltac:(lia) ltac:(lia) ltac:(lia) ltac:(lia) Hpg Hlen).
  unfold add_ovf. rewrite (proj2 (Z.ltb_lt _ _)) by (unfold va0, PAGE_SIZE in *; lia). erewrite bind_lift by done.
  assert (Hsplit : take (Z.to_nat n) data ++ drop (Z.to_nat n) data = data) by apply take_drop.
  assert (Hd : zlen (drop (Z.to_nat n) data) = zlen data - n) by (unfold zlen in *; rewrite length_drop; lia).
  destruct (decide (n = zlen data)) as [Hall|Hmore].
  - assert (drop (Z.to_nat n) data = []) as Ed by (apply drop_ge; unfold zlen in *; lia). rewrite Ed in *.
    rewrite app_nil_r in Hsplit. rewrite Hsplit in *. eexists. split; [|exact Hw]. by destruct fuel.
  - replace (va0 + PAGE_SIZE) with (va + n) by (unfold n, va0 in *; lia).
    destruct (IH _ (drop (Z.to_nat n) data) (va + n) (proj1 Hw)) as (fl' & Hr & Hw'); [lia|lia|unfold zlen in *; lia|].
    exists fl'. split; [exact Hr|]. rewrite <-Hsplit. eapply wrote_app; [exact Hw|]. by rewrite Hn1.
Qed.

Lemma copy_out_run fl data va :
  umap fl -> lo * PAGE_SIZE <= va -> va + zlen data <= hi * PAGE_SIZE ->
  exists fl', copy_out root data va fl = Ret (Ok tt, fl') /\ wrote fl fl' va data.
Proof. intros. by apply copy_out_loop_run. Qed.
End region.

(** Growing user memory gives a region of clear pages. *)
Lemma alloc_user_umap fl root l lo hi flags :
  pt_wf fl root l -> uN 64 flags -> Z.land flags PHYS_PAGE_MASK = 0 ->
  0 <= lo < hi -> hi * PAGE_SIZE <= USEREND -> (4 * Z.to_nat (hi - lo) <= length l)%nat ->
  exists fl' l' fr, alloc_user root (lo * PAGE_SIZE) (hi * PAGE_SIZE) flags fl = Ret (Ok (hi * PAGE_SIZE), fl') /\
    umap fl' root l' lo hi fr /\
    forall x, lo * PAGE_SIZE <= x < hi * PAGE_SIZE -> frame_byte fl' fr x = Some 0.
Proof.
  intros Hwf Hf Hm Hlo Hhi Hl.
  assert (Hup : forall k, pg_up (k * PAGE_SIZE) = k * PAGE_SIZE).
  { intros k. unfold pg_up, PAGE_SIZE. replace (k * 4096 + 4096 - 1) with (4095 + k * 4096) by lia. by rewrite Z.div_add. }
  destruct (alloc_user_run fl root l (lo * PAGE_SIZE) (hi * PAGE_SIZE) flags Hwf Hf Hm) as
    (fl' & l' & ps & Hr & Hwf' & Hnd & Hlps & Hps & Hent & _); [unfold PAGE_SIZE in *; lia|done| |].
  { rewrite !Hup, page_range_length by lia. done. }
  rewrite !Hup, page_range_length in Hlps by lia. rewrite !Hup in Hent.
  assert (Hfr : forall k, lo <= k < hi -> exists a, ps !! Z.to_nat (k - lo) = Some a /\ a ∈ ps).
  { intros k Hk. destruct (lookup_lt_is_Some_2 ps (Z.to_nat (k - lo))) as [a Ha]; [lia|].
    exists a. split; [done|]. by eapply list_elem_of_lookup_2. }
  exists fl', l', (fun k => default 0 (ps !! Z.to_nat (k - lo))). split; [done|]. split; [split; [done| | | |]|].
  - unfold USEREND, PAGE_SIZE in Hhi. lia.
  - intros k Hk. destruct (Hfr k Hk) as (a & Ea & Ha). rewrite Ea. cbn.
    destruct (Hps a Ha) as (Hd & _). destruct (user_entry a flags Hd Hm) as (H1 & H2 & H3). eexists.
    split; [|done]. apply (Hent (Z.to_nat (k - lo))); [|exact Ea].
    unfold step_range, PAGE_SIZE in *. rewrite (proj2 (Z.ltb_lt _ _)) by lia. rewrite list_lookup_fmap, lookup_seq_lt; [cbn; f_equal; lia|].
    replace (hi * 4096 - lo * 4096 + 4096 - 1) with (4095 + (hi - lo) * 4096) by lia. rewrite Z.div_add by lia.
    change (4095 / 4096) with 0. lia.
  - intros k Hk. destruct (Hfr k Hk) as (a & -> & Ha). cbn. destruct (Hps a Ha) as (_ & _ & Ho & Hz).
    split; [done|]. exists page_clear. split; [done|]. by apply zlen_rep.
  - intros j k Hj Hk E. destruct (Hfr j Hj) as (a & Ea & _), (Hfr k Hk) as (b & Eb & _).
    rewrite Ea, Eb in E. cbn in E. subst b. pose proof (NoDup_lookup _ _ _ _ Hnd Ea Eb). lia.
  - intros x Hx. assert (Hk : lo <= x / PAGE_SIZE < hi).
    { unfold PAGE_SIZE in *. pose proof (Z.div_mod x 4096). pose proof (Z.mod_pos_bound x 4096). lia. }
    destruct (Hfr _ Hk) as (a & Ea & Ha). unfold frame_byte. rewrite Ea. cbn. destruct (Hps a Ha) as (_ & _ & _ & ->). cbn.
    apply znth_rep, Z.mod_pos_bound. done.
Qed.

(** C21: Copying out to user memory: where the destination lies in a region of
    user pages on frames of their own, [copy_out] returns successfully and
    the process then reads the data there, across page boundaries, and what
    it read before everywhere else; no page but the region's frames changes
    and the page table is as it was. *)
Theorem copy_out_writes fl root l lo hi fr data va :
  umap fl root l lo hi fr -> lo * PAGE_SIZE <= va -> va + zlen data <= hi * PAGE_SIZE ->
  exists fl', copy_out root data va fl = Ret (Ok tt, fl') /\ umap fl' root l lo hi fr /\
    (forall b, (forall k, lo <= k < hi -> fr k <> b) -> pages fl' !! b = pages fl !! b) /\
    forall x, lo * PAGE_SIZE <= x < hi * PAGE_SIZE ->
      user_byte fl' root x = if (va <=? x) && (x <? va + zlen data) then data.[x - va] else user_byte fl root x.
Proof.
  intros H Hlo Hhi. destruct (copy_out_run fl data va H Hlo Hhi) as (fl' & Hr & H' & Ho & Hb).
  exists fl'. do 3 (split; [done|]). intros x Hx.
  by rewrite (user_byte_frame _ _ H' Hx), (user_byte_frame _ _ H Hx), Hb.
Qed.

(** Two bytes across the boundary of two fresh pages. *)
Lemma copy_out_writes_witness :
  exists fl root fl', copy_out root [7; 8] 0x1FFF fl = Ret (Ok tt, fl') /\
    user_byte fl' root 0x1FFF = Some 7 /\ user_byte fl' root 0x2000 = Some 8.
Proof.
  destruct demo_table as (fl & root & l & Hwf & Hl).
  destruct (alloc_user_umap fl root l 1 3 WRITE Hwf) as (fl1 & l1 & fr & _ & Hu & _);
    [unfold uN; vm_compute; split; congruence|reflexivity|lia|unfold PAGE_SIZE, USEREND; lia|rewrite Hl; vm_compute; repeat constructor|].
  destruct (copy_out_writes fl1 root l1 1 3 fr [7; 8] 0x1FFF Hu) as (fl' & Hr & _ & _ & Hb);
    [unfold PAGE_SIZE; lia|unfold PAGE_SIZE; change (zlen [7; 8]) with 2; lia|].
  exists fl1, root, fl'. split; [exact Hr|].
  split; [exact (Hb 0x1FFF ltac:(unfold PAGE_SIZE; lia))|exact (Hb 0x2000 ltac:(unfold PAGE_SIZE; lia))].
Defined.
