(* ===== verification/Exec.v ===== *)
(** Program loading, [exec.rs]: the ELF headers and their checks, loading the
    segments of a file into a new page table, and the stack a program starts
    on.  The state is the memory of the page allocator and the file system. *)
From stdpp Require Import base list gmap strings.
From Stdlib Require Import ZArith Lia.
From S2P Require Import Prelude.
From S2P Require Import Arch.
From S2P Require Import Kalloc.
From S2P Require Import Vm.
From S2P Require Import BlockLayer.
From S2P Require Import Fslog.
From S2P Require Import FsLayout.
From S2P Require Import Fs.
From S2P Require Import FsDir.
From S2P Require Import Proc.

(** ** Headers *)
Definition NIDENT : Z := 16.

Record ELFHeader := mkELFHeader {
  ident : list Z; object_file_type : Z; machine : Z; version : Z; entry_addr : Z;
  program_header_offset : Z; section_header_offset : Z; eflags : Z; elf_header_size : Z;
  program_header_entry_size : Z; num_program_headers : Z; section_header_entry_size : Z;
  num_section_headers : Z; name_strings_section_index : Z }.
Definition ELF_SIZE : Z := 64.

Definition ELFHeader_decode (bs : list Z) : ELFHeader :=
  mkELFHeader (zslice bs 0 NIDENT) (field 2 16 bs) (field 2 18 bs) (field 4 20 bs) (field 8 24 bs)
    (field 8 32 bs) (field 8 40 bs) (field 4 48 bs) (field 2 52 bs) (field 2 54 bs) (field 2 56 bs)
    (field 2 58 bs) (field 2 60 bs) (field 2 62 bs).

Definition ELFHeader_validate (h : ELFHeader) : result unit :=
  if negb (bool_decide (zslice (ident h) 0 4 = [0x7F; 69; 76; 70])) then Err "Bad magic ELF value"
  else if negb (bool_decide ((ident h).[4] = Some 2)) then Err "Not a 64-bit object file"
  else if negb (object_file_type h =? 2) then Err "Not an executable ELF file"
  else if negb (machine h =? 62) then Err "Wrong ELF executable architecture"
  else Ok tt.

Record ProgramHeader := mkProgramHeader {
  prog_type : Z; pflags : Z; offset : Z; virt_addr : Z; phys_addr : Z; file_size : Z; mem_size : Z; align : Z }.
Definition PH_SIZE : Z := 56.

Definition ProgramHeader_decode (bs : list Z) : ProgramHeader :=
  mkProgramHeader (field 4 0 bs) (field 4 4 bs) (field 8 8 bs) (field 8 16 bs) (field 8 24 bs)
    (field 8 32 bs) (field 8 40 bs) (field 8 48 bs).

Definition ProgramHeader_validate (ph : ProgramHeader) : result unit :=
  if mem_size ph <? file_size ph then Err "exec: file and memory size mismatch"
  else if negb (virt_addr ph mod PAGE_SIZE =? 0) then Err "exec: misaligned section load address"
  else if wrap 64 (virt_addr ph + mem_size ph) <? virt_addr ph then Err "exec: program section too big"
  else Ok tt.

Definition is_loadable (ph : ProgramHeader) : bool := prog_type ph =? 1.

Definition page_flags (ph : ProgramHeader) : Z :=
  let flags := Z.lor USER NX in
  let flags := if Z.land (pflags ph) 2 =? 2 then Z.lor flags WRITE else flags in
  if Z.land (pflags ph) 1 =? 1 then Z.land flags (lnotw 64 NX) else flags.

Definition page_alloc_user (ph : ProgramHeader) (root size : Z) : M FreeList (result Z) :=
  stop ← lift (add_ovf 64 (virt_addr ph) (mem_size ph));
  alloc_user root size stop (page_flags ph).

(** ** The stack of a new program *)

(** Copy the arguments below [sp]: the final [sp] and where each begins. *)
Fixpoint push_args (root : Z) (args : list (list Z)) (sp : Z) (uargs : list Z) : M FreeList (result (Z * list Z)) :=
  match args with
  | [] => mret (Ok (sp, uargs))
  | arg :: args' =>
    sp ← lift (sub_ovf sp (zlen arg + 1));
    let sp := Z.land sp (lnotw 64 7) in
    _ <-? copy_out root arg sp;;
    if sp <? USERSTACK then mret (Err "exec: arg stack overflow")
    else push_args root args' sp (uargs ++ [sp])
  end.

Definition slice_as_bytes (ws : list Z) : list Z := mjoin (le_bytes 8 <$> ws).

Definition push_bytes (root sp : Z) (bs : list Z) : M FreeList (result Z) :=
  sp ← lift (sub_ovf sp (zlen bs));
  _ <-? copy_out root bs sp;;
  mret (Ok sp).

(** The stack from its top: the strings, the vector of pointers to them, a
    word if needed to align, a dummy frame pointer.  The result is the
    address of the vector and the stack pointer. *)
Definition build_stack (root : Z) (args : list (list Z)) : M FreeList (result (Z * Z)) :=
  r <-? push_args root args USEREND [];;
  argv <-? push_bytes root (fst r) (slice_as_bytes (snd r));;
  sp <-? (if Z.land argv 0xF =? 0 then push_bytes root argv (le_bytes 8 0) else mret (Ok argv));;
  sp <-? push_bytes root sp (le_bytes 8 (2 ^ 64 - 1));;
  mret (Ok (argv, sp)).

(** ** Loading *)
Record UserContext := mkUserContext { uc_rip : Z; uc_rdi : Z; uc_rsi : Z; uc_rsp : Z }.

Record Ex (S : Type) := mkEx { ex_mem : FreeList; ex_fs : Fs S }.
Arguments mkEx {S} _ _.
Arguments ex_mem {S} _.
Arguments ex_fs {S} _.

Section exec.
Context {S : Type} `{BlockOps S}.
Notation E := (M (Ex S)).

Definition in_mem {A} (m : M FreeList A) : E A := zoom ex_mem (fun fl s => mkEx fl (ex_fs s)) m.
Definition in_fs {A} (m : M (Fs S) A) : E A := zoom ex_fs (fun f s => mkEx (ex_mem s) f) m.

Definition ELFHeader_read (ip : Z) : E (result ELFHeader) :=
  bs <-? in_fs (readi ip ELF_SIZE 0);;
  if negb (zlen bs =? ELF_SIZE) then mret (Err "exec: short ELF file")
  else mret (Ok (ELFHeader_decode bs)).

Definition ProgramHeader_read (ip off : Z) : E (result ProgramHeader) :=
  bs <-? in_fs (readi ip PH_SIZE off);;
  if negb (zlen bs =? PH_SIZE) then mret (Err "exec: short program header read")
  else mret (Ok (ProgramHeader_decode bs)).

(** The loop of [load_section]: the bytes of each page are read into the
    page the table maps there.  (A read that fails may leave the page partly
    written; the table is given up then.) *)
Fixpoint load_pages (ph : ProgramHeader) (root ip : Z) (kps : list Z) : E (result unit) :=
  match kps with
  | [] => mret (Ok tt)
  | kp :: kps' =>
    va ← lift (add_ovf 64 (virt_addr ph) kp);
    page <-? in_mem (user_addr_to_kern_page root va);;
    let n := Z.min (file_size ph - kp) PAGE_SIZE in
    off ← lift (add_ovf 64 (offset ph) kp);
    bs <-? in_fs (readi ip n off);;
    pg ← in_mem (page_at page);
    in_mem (write_page page (zsplice pg 0 bs));;
    if negb (zlen bs =? n) then mret (Err "loaduvm: short read from file")
    else load_pages ph root ip kps'
  end.

Definition load_section (ph : ProgramHeader) (root ip : Z) : E (result unit) :=
  assert_ (virt_addr ph mod PAGE_SIZE =? 0) "assertion `left == right` failed";;
  load_pages ph root ip (step_range 0 (file_size ph) PAGE_SIZE).

Fixpoint load_segments (n : nat) (root ip off size : Z) : E (result Z) :=
  match n with
  | O => mret (Ok size)
  | Datatypes.S n' =>
    ph <-? ProgramHeader_read ip off;;
    off ← lift (add_ovf 64 off PH_SIZE);
    if negb (is_loadable ph) then load_segments n' root ip off size
    else
      _ <-? mret (ProgramHeader_validate ph);;
      size <-? in_mem (page_alloc_user ph root size);;
      _ <-? load_section ph root ip;;
      load_segments n' root ip off size
  end.

(** [with_putlock] and [with_op], around code that also uses the memory. *)
Definition ex_with_putlock {A} (ip : Z) (thunk : E (result A)) : E (result A) :=
  in_fs (ilock ip);;
  r ← thunk;
  match r with
  | Err e => in_fs (unlock_put ip);; mret (Err e)
  | Ok a => _ <-? in_fs (unlock_put ip);; mret (Ok a)
  end.

Definition ex_with_op {A} (thunk : E A) : E A :=
  in_fs (zoom fs_log put_log op_begin);;
  r ← thunk;
  in_fs (zoom fs_log put_log op_end);;
  mret r.

(** The entry address and the size of the image. *)
Definition load_image (root : Z) (path : list Z) : E (result (Z * Z)) :=
  ex_with_op (
    ip <-? in_fs (namei path);;
    ex_with_putlock ip (
      elf <-? ELFHeader_read ip;;
      _ <-? mret (ELFHeader_validate elf);;
      size <-? load_segments (Z.to_nat (num_program_headers elf)) root ip (program_header_offset elf) 0;;
      mret (Ok (entry_addr elf, size)))).

Definition exec_into (root : Z) (path : list Z) (args : list (list Z)) : E (result (UserContext * Z)) :=
  img <-? load_image root path;;
  _ <-? in_mem (alloc_user root USERSTACK USEREND (Z.lor WRITE NX));;
  st <-? in_mem (build_stack root args);;
  mret (Ok (mkUserContext (fst img) (zlen args) (fst st) (snd st), snd img)).

(** [exec] in the process [p]: what it becomes, and the registers it starts
    with.  A page table that is given up is dropped, hence freed: the new one
    on an error, the old one on success. *)
Definition exec (kpgtbl : Z) (p : Proc Z) (path : list Z) (args : list (list Z))
    : E (result (Proc Z * UserContext)) :=
  if MAXARG <? zlen args then mret (Err "exec: too many arguments") else
  root <-? in_mem (new_pgtbl kpgtbl);;
  r ← exec_into root path args;
  match r with
  | Err e => in_mem (vm_free root);; mret (Err e)
  | Ok (uctx, size) =>
    (match pgtbl p with Some old => in_mem (vm_free old) | None => mret tt end);;
    mret (Ok (exec_image root size p, uctx))
  end.
End exec.
