(* ===== verification/ExecSpec.v ===== *)
(** The stack a program starts on: what [exec] lays out is what the program
    reads. *)
From stdpp Require Import base list gmap strings.
From Stdlib Require Import ZArith Lia.
From S2P Require Import Prelude.
From S2P Require Import Arch.
From S2P Require Import Kalloc.
From S2P Require Import Vm.
From S2P Require Import VmSpec.
From S2P Require Import UserMem.
From S2P Require Import FsLayout.
From S2P Require Import Exec.

(** ** The layout, without the memory *)
Definition arg_below (sp : Z) (arg : list Z) : Z := (sp - (zlen arg + 1)) / 8 * 8.
Fixpoint arg_addrs (sp : Z) (args : list (list Z)) : list Z :=
  match args with
  | [] => []
  | arg :: args' => arg_below sp arg :: arg_addrs (arg_below sp arg) args'
  end.
Definition args_end (sp : Z) (args : list (list Z)) : Z := foldl arg_below sp args.

(** The lowest address the stack uses. *)
Definition stack_need (args : list (list Z)) : Z := args_end USEREND args - 8 * zlen args - 16.

(** The bytes a process reads from [a] on. *)
Definition user_bytes (fl : FreeList) (root a n : Z) : option (list Z) :=
  mapM (fun k => user_byte fl root (a + k)) (zrange 0 n).

Lemma arg_below_lt sp arg : arg_below sp arg + zlen arg + 1 <= sp.
Proof. unfold arg_below. pose proof (Z.div_mod (sp - (zlen arg + 1)) 8). pose proof (Z.mod_pos_bound (sp - (zlen arg + 1)) 8). lia. Qed.

Lemma args_end_le args : forall sp, args_end sp args <= sp.
Proof.
  induction args as [|arg args IH]; intros sp; cbn; [lia|]. specialize (IH (arg_below sp arg)).
  pose proof (arg_below_lt sp arg). pose proof (zlen_nonneg arg). unfold args_end in IH. lia.
Qed.

Lemma land_not7 x : uN 64 x -> Z.land x (lnotw 64 7) = x / 8 * 8.
Proof.
  intros H. rewrite land_lnotw by (done || lia). change 7 with (Z.ones 3). rewrite Z.ldiff_ones_r by lia.
  by rewrite Z.shiftl_mul_pow2, Z.shiftr_div_pow2 by lia.
Qed.

(** ** The stack in memory *)
Section stack.
Context {root : Z} {l : list Z} {fr : Z -> Z}.
Definition LO : Z := USERSTACK / PAGE_SIZE.
Definition HI : Z := USEREND / PAGE_SIZE.
Notation umap fl := (umap fl root l LO HI fr).

Definition chunk_at (fl : FreeList) (c : Z * list Z) : Prop :=
  forall i, 0 <= i < zlen c.2 -> frame_byte fl fr (c.1 + i) = c.2.[i].

(** What has been pushed lies between [sp] and the end; below, the stack is
    still clear. *)
Record pushed (fl : FreeList) (sp : Z) (cs : list (Z * list Z)) : Prop := {
  pu_map : umap fl;
  pu_sp : sp <= USEREND;
  pu_zero : forall x, USERSTACK <= x < sp -> frame_byte fl fr x = Some 0;
  pu_chunks : forall c, c ∈ cs -> sp <= c.1 /\ c.1 + zlen c.2 <= USEREND /\ chunk_at fl c }.

Lemma lo_hi x : USERSTACK <= x < USEREND -> LO * PAGE_SIZE <= x < HI * PAGE_SIZE.
Proof. change (LO * PAGE_SIZE) with USERSTACK. by change (HI * PAGE_SIZE) with USEREND. Qed.

(** Pushing [data] at [sp'], with [m] zero bytes left above it. *)
Lemma push_run fl sp cs sp' data m :
  pushed fl sp cs -> USERSTACK <= sp' -> 0 <= m -> sp' + zlen data + m <= sp ->
  exists fl', copy_out root data sp' fl = Ret (Ok tt, fl') /\
    pushed fl' sp' ((sp', data ++ zrep m 0) :: cs).
Proof.
  intros [Hu Hsp Hz Hc] Hlo Hm Hfit. pose proof (zlen_nonneg data).
  destruct (copy_out_run fl data sp' Hu) as (fl' & Hr & Hu' & _ & Hb).
  { change (LO * PAGE_SIZE) with USERSTACK. lia. }
  { change (HI * PAGE_SIZE) with USEREND. lia. }
  exists fl'. split; [done|].
  assert (Hb' : forall x, USERSTACK <= x < USEREND -> frame_byte fl' fr x =
    if (sp' <=? x) && (x <? sp' + zlen data) then data.[x - sp'] else frame_byte fl fr x).
  { intros x Hx. by apply Hb, lo_hi. }
  split; [done|lia| |].
  - intros x Hx. rewrite Hb' by lia. case_bool; bool_to_prop; [lia|]. apply Hz. lia.
  - intros c [->|Hin]%elem_of_cons; cbn [fst snd].
    + rewrite zlen_app, zlen_rep by lia. split; [lia|]. split; [lia|]. intros i Hi. cbn [fst snd] in *.
      rewrite zlen_app, zlen_rep in Hi by lia. rewrite Hb' by lia. case_bool; bool_to_prop.
      * rewrite znth_app_l by lia. f_equal. lia.
      * rewrite znth_app_r, znth_rep by lia. apply Hz. lia.
    + destruct (Hc c Hin) as (H1 & H2 & H3). split; [lia|]. split; [done|]. intros i Hi.
      rewrite Hb' by lia. case_bool; bool_to_prop; [lia|]. by apply H3.
Qed.

Lemma push_args_run args : forall fl sp cs uargs,
  pushed fl sp cs -> USERSTACK <= args_end sp args ->
  exists fl' cs', push_args root args sp uargs fl = Ret (Ok (args_end sp args, uargs ++ arg_addrs sp args), fl') /\
    pushed fl' (args_end sp args) cs' /\ (forall c, c ∈ cs -> c ∈ cs') /\
    (forall i arg p, args !! i = Some arg -> arg_addrs sp args !! i = Some p -> exists z, (p, arg ++ 0 :: z) ∈ cs').
Proof.
  induction args as [|arg args IH]; intros fl sp cs uargs Hp Hlo.
  { exists fl, cs. cbn. rewrite app_nil_r. split; [done|]. split; [done|]. split; [done|]. intros i arg p Hi. done. }
  cbn [push_args args_end foldl arg_addrs] in *. change (foldl arg_below (arg_below sp arg) args) with (args_end (arg_below sp arg) args) in *.
  pose proof (arg_below_lt sp arg). pose proof (args_end_le args (arg_below sp arg)). pose proof (zlen_nonneg arg).
  pose proof (pu_sp _ _ _ Hp). unfold USERSTACK, USEREND in *.
  unfold sub_ovf. rewrite (proj2 (Z.leb_le _ _)) by lia. erewrite bind_lift by done.
  rewrite land_not7 by (unfold uN; lia). fold (arg_below sp arg).
  destruct (push_run fl sp cs (arg_below sp arg) arg (sp - (arg_below sp arg + zlen arg)) Hp) as (fl1 & Hr & Hp1);
    [unfold USERSTACK; lia|lia|lia|].
  rewrite (try_run _ _ _ _ _ Hr). rewrite (proj2 (Z.ltb_ge _ _)) by (unfold USERSTACK; lia).
  destruct (IH fl1 (arg_below sp arg) _ (uargs ++ [arg_below sp arg]) Hp1) as (fl' & cs' & Hr' & Hp' & Hsub & Hargs); [lia|].
  exists fl', cs'. rewrite <-app_assoc in Hr'. split; [done|]. split; [done|]. split; [set_solver|].
  intros [|i] a p Ha Hpp; cbn in Ha, Hpp; [|by eapply Hargs]. injection Ha as <-. injection Hpp as <-.
  exists (zrep (sp - (arg_below sp arg + zlen arg) - 1) 0). apply Hsub. apply elem_of_cons. left. f_equal. f_equal.
  unfold zrep. replace (Z.to_nat (sp - (arg_below sp arg + zlen arg)))
    with (S (Z.to_nat (sp - (arg_below sp arg + zlen arg) - 1))) by lia. done.
Qed.

Lemma push_bytes_run fl sp cs bs :
  pushed fl sp cs -> USERSTACK <= sp - zlen bs ->
  exists fl', push_bytes root sp bs fl = Ret (Ok (sp - zlen bs), fl') /\ pushed fl' (sp - zlen bs) ((sp - zlen bs, bs) :: cs).
Proof.
  intros Hp Hlo. pose proof (zlen_nonneg bs). unfold push_bytes, sub_ovf.
  rewrite (proj2 (Z.leb_le _ _)) by (unfold USERSTACK in *; lia). erewrite bind_lift by done.
  destruct (push_run fl sp cs (sp - zlen bs) bs 0 Hp) as (fl' & Hr & Hp'); [lia|lia|lia|].
  rewrite (try_run _ _ _ _ _ Hr). exists fl'. change (zrep 0 0) with (@nil Z) in Hp'. by rewrite app_nil_r in Hp'.
Qed.

(** What has been pushed is what the process reads. *)
Lemma pushed_read fl sp cs p pre bs z : pushed fl sp cs -> (p, pre ++ bs ++ z) ∈ cs -> USERSTACK <= sp ->
  user_bytes fl root (p + zlen pre) (zlen bs) = Some bs.
Proof.
  intros Hp Hin Hsp. destruct (pu_chunks _ _ _ Hp _ Hin) as (H1 & H2 & H3). cbn [fst snd] in *.
  rewrite !zlen_app in *. pose proof (zlen_nonneg z). pose proof (zlen_nonneg pre).
  unfold user_bytes. apply mapM_zrange. intros i Hi.
  rewrite (user_byte_frame _ _ (pu_map _ _ _ Hp)) by (apply lo_hi; lia).
  specialize (H3 (zlen pre + i)). cbn [fst snd] in H3. rewrite !zlen_app in H3.
  rewrite <-Z.add_assoc, H3, znth_app_r, znth_app_l by lia. f_equal. lia.
Qed.

(** The pointer at position [i] of the vector. *)
Lemma slice_as_bytes_split ws i p : ws !! i = Some p ->
  exists pre post, slice_as_bytes ws = pre ++ le_bytes 8 p ++ post /\ zlen pre = 8 * Z.of_nat i.
Proof.
  intros Hi. exists (slice_as_bytes (take i ws)), (slice_as_bytes (drop (S i) ws)). unfold slice_as_bytes. split.
  - rewrite <-(take_drop_middle ws i p Hi) at 1. rewrite fmap_app, fmap_cons, join_app. done.
  - rewrite zlen_mjoin8. apply lookup_lt_Some in Hi. unfold zlen. rewrite length_take. lia.
Qed.

Lemma arg_below_mod sp arg : arg_below sp arg mod 8 = 0.
Proof. apply Z.mod_mul. done. Qed.

Lemma args_end_mod args : forall sp, sp mod 8 = 0 -> args_end sp args mod 8 = 0.
Proof. induction args as [|arg args IH]; intros sp Hs; [done|]. apply IH, arg_below_mod. Qed.

Lemma length_arg_addrs args : forall sp, length (arg_addrs sp args) = length args.
Proof. induction args as [|arg args IH]; intros sp; cbn; [done|]. by rewrite IH. Qed.

Lemma arg_addrs_last args arg : forall sp, last args = Some arg -> last (arg_addrs sp args) = Some (args_end sp args).
Proof.
  induction args as [|a [|a' args] IH]; intros sp H; [done| |].
  - done.
  - specialize (IH (arg_below sp a) H). done.
Qed.

(** The words below the vector: one to align if needed, and the dummy. *)
Lemma frame_words_run fl sp cs :
  pushed fl sp cs -> sp mod 8 = 0 -> USERSTACK <= sp - 16 ->
  exists fl' sp', (sp1 <-? (if Z.land sp 0xF =? 0 then push_bytes root sp (le_bytes 8 0) else mret (Ok sp));;
                   sp2 <-? push_bytes root sp1 (le_bytes 8 (2 ^ 64 - 1));;
                   mret (Ok (sp, sp2))) fl = Ret (Ok (sp, sp'), fl') /\
    sp' mod 16 = 0 /\ USERSTACK <= sp' < sp /\
    exists cs', pushed fl' sp' cs' /\ (sp', le_bytes 8 (2 ^ 64 - 1)) ∈ cs' /\ forall c, c ∈ cs -> c ∈ cs'.
Proof.
  intros Hp Hm Hlo. change 0xF with (2 ^ 4 - 1). rewrite land_ones_mod by lia. change (2 ^ 4) with 16.
  assert (H8 : forall x, zlen (le_bytes 8 x) = 8) by (intros x; apply zlen_le_bytes).
  destruct (Z.eqb_spec (sp mod 16) 0) as [E|E].
  - destruct (push_bytes_run fl sp cs (le_bytes 8 0) Hp) as (fl1 & Hr1 & Hp1); [rewrite H8; lia|].
    rewrite (try_run _ _ _ _ _ Hr1). rewrite H8 in *.
    destruct (push_bytes_run fl1 _ _ (le_bytes 8 (2 ^ 64 - 1)) Hp1) as (fl2 & Hr2 & Hp2); [rewrite H8; lia|].
    rewrite (try_run _ _ _ _ _ Hr2). rewrite H8 in *. exists fl2, (sp - 8 - 8). split; [done|].
    split; [rewrite <-Z.sub_add_distr, Zminus_mod, E; done|]. split; [lia|].
    eexists. split; [exact Hp2|]. set_solver.
  - rewrite (try_run _ _ fl sp fl) by done.
    destruct (push_bytes_run fl _ _ (le_bytes 8 (2 ^ 64 - 1)) Hp) as (fl2 & Hr2 & Hp2); [rewrite H8; lia|].
    rewrite (try_run _ _ _ _ _ Hr2). rewrite H8 in *. exists fl2, (sp - 8). split; [done|].
    split; [pose proof (Z.div_mod sp 8); pose proof (Z.div_mod sp 16); pose proof (Z.mod_pos_bound sp 16); Z.div_mod_to_equations; lia|].
    split; [lia|]. eexists. split; [exact Hp2|]. set_solver.
Qed.

Lemma build_stack_run fl args :
  pushed fl USEREND [] -> USERSTACK <= stack_need args ->
  exists fl' argv sp cs, build_stack root args fl = Ret (Ok (argv, sp), fl') /\
    pushed fl' sp cs /\ sp mod 16 = 0 /\ USERSTACK <= sp < argv /\ argv + 8 * zlen args = args_end USEREND args /\
    (sp, le_bytes 8 (2 ^ 64 - 1)) ∈ cs /\ (argv, slice_as_bytes (arg_addrs USEREND args)) ∈ cs /\
    (forall i arg p, args !! i = Some arg -> arg_addrs USEREND args !! i = Some p -> exists z, (p, arg ++ 0 :: z) ∈ cs).
Proof.
  intros Hp Hneed. unfold stack_need in Hneed. pose proof (zlen_nonneg args).
  destruct (push_args_run args fl USEREND [] [] Hp) as (fl1 & cs1 & Hr1 & Hp1 & _ & Hargs); [lia|].
  unfold build_stack. rewrite (try_run _ _ _ _ _ Hr1). cbn [fst snd app].
  assert (Hlen : zlen (slice_as_bytes (arg_addrs USEREND args)) = 8 * zlen args).
  { unfold slice_as_bytes. rewrite zlen_mjoin8. unfold zlen. by rewrite length_arg_addrs. }
  destruct (push_bytes_run fl1 _ _ (slice_as_bytes (arg_addrs USEREND args)) Hp1) as (fl2 & Hr2 & Hp2); [lia|].
  rewrite (try_run _ _ _ _ _ Hr2). rewrite Hlen in *. set (argv := args_end USEREND args - 8 * zlen args) in *.
  assert (Hmod : argv mod 8 = 0).
  { unfold argv. pose proof (args_end_mod args USEREND eq_refl). rewrite Zminus_mod, H0, Z.mul_comm, Z.mod_mul by lia. done. }
  destruct (frame_words_run fl2 argv _ Hp2 Hmod) as (fl3 & sp & Hr3 & Hm & Hlt & cs & Hp3 & Hin & Hsub); [lia|].
  exists fl3, argv, sp, cs. split; [exact Hr3|]. split; [done|]. split; [done|]. split; [done|]. split; [lia|]. split; [done|].
  split; [apply Hsub; set_solver|]. intros i arg p Hi Hip. destruct (Hargs i arg p Hi Hip) as [z Hz].
  exists z. apply Hsub. set_solver.
Qed.
End stack.

(** C22: A program starts on the stack [exec] promises.  With sixteen free pages
    and arguments that fit, mapping the stack and building it succeed, and
    then the program reads: at position [i] of the vector it is given, a
    pointer to the bytes of argument [i] followed by a zero byte; at the stack
    pointer, which is a multiple of 16, the dummy return address.  The vector
    is not terminated: the word after it begins with the last argument. *)
Theorem exec_stack_layout fl root l args :
  pt_wf fl root l -> (16 <= length l)%nat -> USERSTACK <= stack_need args ->
  exists fl1 fl' argv sp,
    alloc_user root USERSTACK USEREND (Z.lor WRITE NX) fl = Ret (Ok USEREND, fl1) /\
    build_stack root args fl1 = Ret (Ok (argv, sp), fl') /\
    sp mod 16 = 0 /\ USERSTACK <= sp < argv /\ user_bytes fl' root sp 8 = Some (le_bytes 8 (2 ^ 64 - 1)) /\
    (forall i arg, args !! i = Some arg -> exists p,
       user_bytes fl' root (argv + 8 * Z.of_nat i) 8 = Some (le_bytes 8 p) /\
       user_bytes fl' root p (zlen arg + 1) = Some (arg ++ [0])) /\
    (forall b arg, last args = Some (b :: arg) -> user_bytes fl' root (argv + 8 * zlen args) 1 = Some [b]).
Proof.
  intros Hwf Hl Hneed.
  destruct (alloc_user_umap fl root l LO HI (Z.lor WRITE NX) Hwf) as (fl1 & l1 & fr & Hr1 & Hu & Hz);
    [unfold uN; vm_compute; split; congruence|done|vm_compute; split; congruence|vm_compute; congruence|exact Hl|].
  change (LO * PAGE_SIZE) with USERSTACK in *. change (HI * PAGE_SIZE) with USEREND in *.
  assert (Hp : @pushed root l1 fr fl1 USEREND []) by (split; [done|lia|done|set_solver]).
  destruct (build_stack_run fl1 args Hp Hneed) as (fl' & argv & sp & cs & Hr & Hp' & Hm & Hsp & Hend & Hd & Hv & Ha).
  exists fl1, fl', argv, sp. do 4 (split; [done|]). split; [|split].
  - pose proof (pushed_read fl' sp cs sp [] (le_bytes 8 (2 ^ 64 - 1)) [] Hp') as Hread.
    change (zlen []) with 0 in Hread. rewrite Z.add_0_r, app_nil_r in Hread. apply Hread; [done|lia].
  - intros i arg Hi.
    destruct (lookup_lt_is_Some_2 (arg_addrs USEREND args) i) as [p Hip];
      [rewrite length_arg_addrs; by apply lookup_lt_Some in Hi|].
    exists p. split.
    + destruct (slice_as_bytes_split _ _ _ Hip) as (pre & post & Es & Hpre). rewrite Es in Hv. rewrite <-Hpre.
      rewrite <-(zlen_le_bytes 8 p) at 1. apply (pushed_read fl' sp cs argv pre _ post Hp' Hv). lia.
    + destruct (Ha i arg p Hi Hip) as [z Hin]. replace (zlen arg + 1) with (zlen (arg ++ [0])) by (by rewrite zlen_app).
      replace p with (p + zlen (@nil Z)) by (change (zlen []) with 0; lia). apply (pushed_read fl' sp cs p [] _ z Hp'); [|lia].
      by rewrite <-app_assoc.
  - intros b arg Hlast. pose proof (arg_addrs_last args _ USEREND Hlast) as Hla. rewrite last_lookup in Hlast. rewrite last_lookup in Hla.
    rewrite length_arg_addrs in Hla. destruct (Ha _ _ _ Hlast Hla) as [z Hin]. rewrite Hend.
    replace (args_end USEREND args) with (args_end USEREND args + zlen (@nil Z)) by (change (zlen []) with 0; lia).
    change 1 with (zlen [b]). apply (pushed_read fl' sp cs (args_end USEREND args) [] [b] (arg ++ 0 :: z) Hp'); [done|lia].
Qed.

(** [exec] of ["ls"] with the argument ["-l"]. *)
Lemma exec_stack_layout_witness :
  exists fl root fl1 fl' argv sp p,
    alloc_user root USERSTACK USEREND (Z.lor WRITE NX) fl = Ret (Ok USEREND, fl1) /\
    build_stack root [[108; 115]; [45; 108]] fl1 = Ret (Ok (argv, sp), fl') /\
    user_bytes fl' root (argv + 8) 8 = Some (le_bytes 8 p) /\ user_bytes fl' root p 3 = Some [45; 108; 0].
Proof.
  destruct (demo_table_of 17) as (fl & root & l & Hwf & Hl); [lia|].
  destruct (exec_stack_layout fl root l [[108; 115]; [45; 108]] Hwf) as (fl1 & fl' & argv & sp & H1 & H2 & _ & _ & _ & H3 & _);
    [rewrite Hl; vm_compute; repeat constructor|vm_compute; congruence|].
  destruct (H3 1%nat [45; 108] eq_refl) as (p & H4 & H5).
  exists fl, root, fl1, fl', argv, sp, p. split; [exact H1|]. split; [exact H2|]. split; [exact H4|exact H5].
Defined.
