(* ===== verification/Ioapic.v ===== *)
(** The I/O interrupt controller, [ioapic.rs], with its indirect register
    table. *)
From stdpp Require Import base list gmap strings.
From Stdlib Require Import ZArith Lia.
From S2P Require Import Prelude.
From S2P Require Import Arch.
From S2P Require Import Volatile.
From S2P Require Import Acpi.
From S2P Require Import Pci.

(** The two registers it shows: the index, and the value behind it. *)
Inductive Reg := RegSel | RegValue.

Definition DISABLED : Z := 0x00010000.
Definition ID : Z := 0.
Definition VER : Z := 1.
Definition TABLE : Z := 16.

Section ioapic.
Context {D : Type} `{Mmio Reg D}.

(** The pointer to the controller ([0] is null), [MAXINTR], [ID], and the
    controller. *)
Record Ioapic := mkIoapic { io_ptr : Z; MAXINTR : Z; io_id : Z; io_dev : D }.
Notation I := (M Ioapic).

Definition on_dev {A} (m : M D A) : I A := fun s =>
  match m (io_dev s) with
  | Ret (a, d) => Ret (a, mkIoapic (io_ptr s) (MAXINTR s) (io_id s) d)
  | Panic e => Panic e
  | Diverge => Diverge
  end.
Definition ioapic_mut : I unit :=
  p ← gets io_ptr; assert_ (negb (p =? 0)) "assertion `left != right` failed".

Definition read (index : Z) : I Z := ioapic_mut;; on_dev (vwrite RegSel index);; on_dev (vread RegValue).

Definition write_table (offset flags irq cpu : Z) : I unit :=
  ioapic_mut;;
  on_dev (vwrite RegSel (TABLE + offset * 2));;
  on_dev (vwrite RegValue (Z.lor flags irq));;
  on_dev (vwrite RegSel (TABLE + offset * 2 + 1));;
  on_dev (vwrite RegValue (wrap 32 (Z.shiftl cpu 24))).

Fixpoint mask_all (ks : list Z) : I unit :=
  match ks with
  | [] => mret tt
  | k :: ks' => write_table k DISABLED (32 + k) 0;; mask_all ks'
  end.

Definition init (ioapics : list IOAPICT) : I unit :=
  t ← expect ioapics.[0] "assertion failed: !ioapics.is_empty()";
  p ← gets io_ptr;
  assert_ (p =? 0) "assertion `left == right` failed";;
  a ← lift (add_ovf 64 KERNBASE (ioa_phys_addr t));
  modify (fun s => mkIoapic a (MAXINTR s) (io_id s) (io_dev s));;
  v ← read VER;
  let maxintr := Z.land (Z.shiftr v 16) 0xFF in
  modify (fun s => mkIoapic (io_ptr s) maxintr (io_id s) (io_dev s));;
  i ← read ID;
  modify (fun s => mkIoapic (io_ptr s) (MAXINTR s) (Z.shiftr i 24) (io_dev s));;
  mask_all (zrange 0 (maxintr + 1)).

Definition enable (irq cpu : Z) : I unit :=
  v ← lift (add_ovf 32 irq 32);
  write_table irq 0 v cpu.
End ioapic.
Arguments Ioapic : clear implicits.

(** The controller itself, as its data sheet has it: writing the index
    selects one of its registers, and the value window reads and writes the
    selected one. *)
Record Hw := mkHw { hw_sel : Z; hw_regs : gmap Z Z }.
Definition hw_reg (d : Hw) (i : Z) : Z := default 0 (hw_regs d !! i).
#[export] Instance hw_mmio : Mmio Reg Hw := {|
  mmio_read r d := match r with RegSel => (hw_sel d, d) | RegValue => (hw_reg d (hw_sel d), d) end;
  mmio_write r v d := match r with
    | RegSel => mkHw v (hw_regs d)
    | RegValue => mkHw (hw_sel d) (<[hw_sel d := v]> (hw_regs d))
    end |}.

(** Entry [k] of its redirection table: both halves. *)
Definition entry (d : Hw) (k : Z) : Z * Z := (hw_reg d (TABLE + k * 2), hw_reg d (TABLE + k * 2 + 1)).

Definition masked (d : Hw) (k : Z) : bool := Z.testbit (entry d k).1 16.
Definition vector (d : Hw) (k : Z) : Z := (entry d k).1 mod 256.
Definition destination (d : Hw) (k : Z) : Z := (entry d k).2 / 2 ^ 24.

Lemma write_table_run (s : Ioapic Hw) k flags irq cpu :
  io_ptr s <> 0 -> exists d, write_table k flags irq cpu s = Ret (tt, mkIoapic (io_ptr s) (MAXINTR s) (io_id s) d) /\
    forall j, entry d j = if decide (j = k) then (Z.lor flags irq, wrap 32 (Z.shiftl cpu 24)) else entry (io_dev s) j.
Proof.
  intros Hp. unfold write_table, ioapic_mut. rewrite (bind_run _ _ s tt s).
  2:{ rewrite bind_gets. by rewrite (proj2 (Z.eqb_neq _ _)). }
  eexists. split; [done|]. cbn -[TABLE]. unfold entry, hw_reg. cbn -[TABLE].
  intros j. case_decide as E; [subst j|].
  - rewrite lookup_insert_ne by lia. by rewrite !lookup_insert_eq.
  - rewrite !lookup_insert_ne by lia. done.
Qed.

Lemma mask_all_run ks : forall (s : Ioapic Hw), io_ptr s <> 0 ->
  exists d, mask_all ks s = Ret (tt, mkIoapic (io_ptr s) (MAXINTR s) (io_id s) d) /\
    forall j, entry d j = if decide (j ∈ ks) then (Z.lor DISABLED (32 + j), 0) else entry (io_dev s) j.
Proof.
  induction ks as [|k ks IH]; intros s Hp.
  { exists (io_dev s). split; [by destruct s|]. intros j. rewrite decide_False by set_solver. done. }
  cbn [mask_all]. destruct (write_table_run s k DISABLED (32 + k) 0 Hp) as (d & Hr & He).
  rewrite (bind_run _ _ _ _ _ Hr).
  destruct (IH (mkIoapic (io_ptr s) (MAXINTR s) (io_id s) d) Hp) as (d' & Hr' & He'). cbn [io_ptr MAXINTR io_id io_dev] in *.
  exists d'. split; [exact Hr'|]. intros j. rewrite He', He.
  destruct (decide (j ∈ ks)); [by rewrite decide_True by set_solver|].
  destruct (decide (j = k)) as [->|]; [by rewrite decide_True by set_solver|]. by rewrite decide_False by set_solver.
Qed.

Lemma read_run (s : Ioapic Hw) i : io_ptr s <> 0 ->
  read i s = Ret (hw_reg (io_dev s) i, mkIoapic (io_ptr s) (MAXINTR s) (io_id s) (mkHw i (hw_regs (io_dev s)))).
Proof. intros Hp. unfold read, ioapic_mut. rewrite (bind_run _ _ s tt s); [done|]. rewrite bind_gets. by rewrite (proj2 (Z.eqb_neq _ _)). Qed.

(** The entries the controller says it has. *)
Definition max_entry (d : Hw) : Z := Z.land (Z.shiftr (hw_reg d VER) 16) 0xFF.

Lemma init_run (s : Ioapic Hw) t ts :
  io_ptr s = 0 -> 0 <= ioa_phys_addr t -> KERNBASE + ioa_phys_addr t < 2 ^ 64 ->
  exists s', init (t :: ts) s = Ret (tt, s') /\ io_ptr s' = KERNBASE + ioa_phys_addr t /\
    forall j, entry (io_dev s') j =
      if decide (0 <= j <= max_entry (io_dev s)) then (Z.lor DISABLED (32 + j), 0) else entry (io_dev s) j.
Proof.
  intros Hp H0 Hfit. unfold init. assert ((t :: ts).[0] = Some t) as ->.
  { rewrite znth_lookup; [done|]. rewrite zlen_cons. pose proof (zlen_nonneg ts). lia. }
  cbn [expect]. rewrite bind_mret, bind_gets, Hp, bind_assert by done.
  unfold add_ovf. rewrite (proj2 (Z.ltb_lt _ _)) by done. erewrite bind_lift by done. rewrite bind_modify.
  assert (Hk : KERNBASE + ioa_phys_addr t <> 0) by (unfold KERNBASE; lia).
  erewrite bind_run by (apply read_run; exact Hk). rewrite bind_modify.
  erewrite bind_run by (apply read_run; exact Hk). rewrite bind_modify. cbn [io_dev io_ptr MAXINTR io_id].
  match goal with |- context [mask_all ?ks ?st] => destruct (mask_all_run ks st) as (d & Hr & He); [exact Hk|] end.
  rewrite Hr. eexists. split; [done|]. split; [done|]. intros j. cbn [io_dev]. rewrite He. cbn [io_dev hw_regs].
  change (Z.land (Z.shiftr (hw_reg (io_dev s) VER) 16) 0xFF) with (max_entry (io_dev s)).
  destruct (decide (0 <= j <= max_entry (io_dev s))).
  - rewrite decide_True by (apply elem_of_zrange; lia). done.
  - rewrite decide_False by (rewrite elem_of_zrange; lia). done.
Qed.

Lemma masked_entry k : 0 <= k <= 223 -> Z.testbit (Z.lor DISABLED (32 + k)) 16 = true /\ Z.lor DISABLED (32 + k) mod 256 = 32 + k.
Proof.
  intros Hk. split; [by rewrite Z.lor_spec|]. change 256 with (2 ^ 8). rewrite <-land_ones_mod by lia.
  rewrite Z.land_lor_distr_l. rewrite (land_ones_mod (32 + k)) by lia. rewrite (Z.mod_small (32 + k)) by lia. done.
Qed.

(** Device interrupts are off until they are enabled, one by one.  After
    [init] every entry of the I/O controller's table is masked and set to
    vector [32 + k]; after [enable irq cpu] exactly entry [irq] is unmasked,
    with vector [32 + irq] and processor [cpu] as its destination. *)
Theorem ioapic_masks_all_but_enabled (s : Ioapic Hw) t ts irq cpu :
  io_ptr s = 0 -> 0 <= ioa_phys_addr t -> KERNBASE + ioa_phys_addr t < 2 ^ 64 ->
  max_entry (io_dev s) <= 223 -> 0 <= irq <= max_entry (io_dev s) -> 0 <= cpu < 256 ->
  exists s1 s2, init (t :: ts) s = Ret (tt, s1) /\ enable irq cpu s1 = Ret (tt, s2) /\
    (forall k, 0 <= k <= max_entry (io_dev s) -> masked (io_dev s1) k = true /\ vector (io_dev s1) k = 32 + k) /\
    (forall k, 0 <= k <= max_entry (io_dev s) ->
       masked (io_dev s2) k = negb (k =? irq) /\ vector (io_dev s2) k = 32 + k) /\
    destination (io_dev s2) irq = cpu.
Proof.
  intros Hp H0 Hfit Hmax Hirq Hcpu. destruct (init_run s t ts Hp H0 Hfit) as (s1 & Hr1 & Hp1 & He1).
  unfold enable, add_ovf. rewrite (proj2 (Z.ltb_lt _ _)) by lia.
  destruct (write_table_run s1 irq 0 (irq + 32) cpu) as (d & Hr2 & He2); [rewrite Hp1; unfold KERNBASE; lia|].
  eexists s1, _. split; [done|]. split; [by erewrite bind_lift by done|]. cbn [io_dev].
  assert (Hm1 : forall k, 0 <= k <= max_entry (io_dev s) -> masked (io_dev s1) k = true /\ vector (io_dev s1) k = 32 + k).
  { intros k Hk. unfold masked, vector. rewrite He1, decide_True by done. apply masked_entry. lia. }
  split; [done|]. split.
  - intros k Hk. unfold masked, vector. rewrite He2. destruct (Z.eqb_spec k irq) as [->|Hne].
    + rewrite decide_True by done. cbn [fst]. rewrite Z.lor_0_l. split.
      * apply (uN_testbit_high 16); [lia|unfold uN; lia|lia].
      * rewrite Z.mod_small by lia. lia.
    + rewrite decide_False by done. by apply Hm1.
  - unfold destination. rewrite He2, decide_True by done. cbn [snd]. unfold wrap. rewrite Z.shiftl_mul_pow2 by lia.
    rewrite Z.mod_small by lia. apply Z.div_mul. lia.
Qed.

(** The keyboard's interrupt on a controller of 24 entries. *)
Lemma ioapic_masks_all_but_enabled_witness :
  exists s1 s2, init [mkIOAPICT 2 0 0xFEC00000] (mkIoapic 0 0 0 (mkHw 0 {[VER := 0x170011]})) = Ret (tt, s1) /\
    enable 1 0 s1 = Ret (tt, s2) /\ masked (io_dev s2) 1 = false /\ vector (io_dev s2) 1 = 33.
Proof.
  destruct (ioapic_masks_all_but_enabled (mkIoapic 0 0 0 (mkHw 0 {[VER := 0x170011]})) (mkIOAPICT 2 0 0xFEC00000) [] 1 0)
    as (s1 & s2 & H1 & H2 & _ & H3 & _);
    [reflexivity|vm_compute; congruence|reflexivity|vm_compute; congruence|vm_compute; split; congruence|lia|].
  exists s1, s2. split; [exact H1|]. split; [exact H2|]. exact (H3 1 ltac:(vm_compute; split; congruence)).
Defined.
