(* ===== verification/Xapic.v ===== *)
(** The local interrupt controller, [xapic.rs]. *)
From stdpp Require Import base list gmap strings.
From Stdlib Require Import ZArith Lia.
From S2P Require Import Prelude.
From S2P Require Import Arch.
From S2P Require Import Volatile.
From S2P Require Import Pci.

(** Registers by their index in the array of words. *)
Definition ID : Z := 0x0020 / 4.
Definition TPR : Z := 0x0080 / 4.
Definition EOI : Z := 0x00B0 / 4.
Definition SVR : Z := 0x00F0 / 4.
Definition ESR : Z := 0x0280 / 4.
Definition ICRLO : Z := 0x0300 / 4.
Definition ICRHI : Z := 0x0310 / 4.
Definition TIMER : Z := 0x0320 / 4.
Definition TICR : Z := 0x0380 / 4.
Definition TDCR : Z := 0x03E0 / 4.

Definition INIT : Z := Z.shiftl 5 8.
Definition STARTUP : Z := Z.shiftl 6 8.
Definition LEVEL : Z := Z.shiftl 1 15.
Definition ASSERT : Z := Z.shiftl 1 14.
Definition DEASSERT : Z := 0.
Definition DELIVS : Z := 0x1000.
Definition PERIODIC : Z := 0x20000.
Definition INTR_TIMER : Z := 8.
Definition SPURIOUS_VEC : Z := INTR0 + 31.
Definition ENABLE : Z := 0x100.

Section xapic.
Context {D : Type} `{Mmio Z D}.

(** The pointer ([0] is null), the machine register that holds its address,
    and the controller. *)
Record Xapic := mkXapic { x_ptr : Z; apic_base : Z; x_dev : D }.
Notation X := (M Xapic).

Definition on_dev {A} (m : M D A) : X A := fun s =>
  match m (x_dev s) with
  | Ret (a, d) => Ret (a, mkXapic (x_ptr s) (apic_base s) d)
  | Panic e => Panic e
  | Diverge => Diverge
  end.
Definition xapic_ref : X unit := p ← gets x_ptr; assert_ (negb (p =? 0)) "assertion `left != right` failed".

Definition read (index : Z) : X Z := xapic_ref;; on_dev (vread index).
Definition write (index value : Z) : X unit := xapic_ref;; on_dev (vwrite index value);; on_dev (vread ID);; mret tt.

Definition init (mycpu_id : Z) : X unit :=
  modify (fun s => mkXapic (x_ptr s) (Z.lor (apic_base s) 0x800) (x_dev s));;
  s ← gets id;
  assert_ (((mycpu_id =? 0) && (x_ptr s =? 0)) || negb (x_ptr s =? 0)) "assertion failed";;
  p ← lift (add_ovf 64 KERNBASE (Z.land (apic_base s) (lnotw 64 0xFFF)));
  modify (fun s => mkXapic p (apic_base s) (x_dev s));;
  write SVR (Z.lor ENABLE SPURIOUS_VEC);;
  write TDCR 0xb;;
  write TIMER (Z.lor PERIODIC (INTR0 + INTR_TIMER));;
  write TICR (2000000000 / 1000);;
  write ESR 0;;
  write ESR 0;;
  write EOI 0;;
  write TPR 0.

Definition wait_delivery : X unit :=
  xapic_ref;;
  on_dev (poll (Z.to_nat 100000)
    (v ← vread ICRLO; mret (if Z.land v DELIVS =? 0 then Some tt else None)) (mret tt)).

Definition eoi : X unit := write EOI 0.

(** [send_init_ipi] in a larger state, with the controller's part [on] and
    [arch::sleep], in nanoseconds. *)
Definition send_init_ipi {St} (on : X unit -> M St unit) (sleep : Z -> M St unit) (apic_id : Z) : M St unit :=
  on (write ICRHI (wrap 32 (Z.shiftl apic_id 24)));;
  on (write ICRLO (Z.lor (Z.lor INIT LEVEL) ASSERT));;
  on wait_delivery;;
  sleep (200 * 1000);;
  on (write ICRLO (Z.lor (Z.lor INIT LEVEL) DEASSERT));;
  on wait_delivery;;
  sleep (100 * 1000).

Definition send_sipi (apic_id vector : Z) : X unit :=
  write ICRHI (wrap 32 (Z.shiftl apic_id 24));;
  write ICRLO (Z.lor STARTUP vector);;
  wait_delivery.

(** Whatever the controller answers, starting another processor ends. *)
Lemma ends_on_dev {A} (m : M D A) : ends m -> ends (on_dev m).
Proof. intros Hm s. unfold on_dev. specialize (Hm (x_dev s)). by destruct (m (x_dev s)) as [[]| |]. Qed.
Lemma ends_write i v : ends (write i v).
Proof. unfold write, xapic_ref. repeat (apply ends_bind; [|intros ?]); auto with rs; by apply ends_on_dev. Qed.
Lemma ends_wait_delivery : ends wait_delivery.
Proof.
  unfold wait_delivery, xapic_ref. repeat (apply ends_bind; [|intros ?]); auto with rs.
  apply ends_on_dev, poll_ends; [|by auto with rs]. apply ends_bind; [done|]. intros v. by auto with rs.
Qed.
Lemma ends_send_sipi apic_id vector : ends (send_sipi apic_id vector).
Proof.
  repeat (apply ends_bind; [first [apply ends_write|apply ends_wait_delivery]|intros ?]); apply ends_wait_delivery.
Qed.
End xapic.
Arguments Xapic : clear implicits.
