(* ===== verification/Uart.v ===== *)
(** The serial line, [uart.rs]: its registers as ports, polling, output with
    carriage returns, and input. *)
From stdpp Require Import base list gmap strings.
From Stdlib Require Import ZArith Lia.
From S2P Require Import Prelude.
From S2P Require Import Volatile.

Definition EIA0 : Z := 0x3f8.
Definition INTR_EIA0 : Z := 4.
Definition RBR : Z := 0.
Definition IER : Z := 1.
Definition IIR : Z := 2.
Definition LCR : Z := 3.
Definition MCR : Z := 4.
Definition LSR : Z := 5.
Definition THR : Z := 0.
Definition THRE : Z := 0x20.
Definition DR : Z := 0x01.

Section uart.
Context {D : Type} `{Mmio Z D}.

(** [init], up to enabling its interrupt in the I/O controller. *)
Definition init : M D unit :=
  vwrite (EIA0 + IIR) 0;;
  vwrite (EIA0 + LCR) 0x80;;
  vwrite EIA0 1;;
  vwrite (EIA0 + 1) 0;;
  vwrite (EIA0 + LCR) 0x03;;
  vwrite (EIA0 + MCR) 0;;
  vwrite (EIA0 + IER) 1;;
  vread (EIA0 + IIR);;
  vread EIA0;;
  mret tt.

Definition lsr_has (bit : Z) : M D (option bool) :=
  b ← vread (EIA0 + LSR); mret (if Z.land b bit =? bit then Some true else None).
Definition tx_ready : M D bool := poll 128 (lsr_has THRE) (mret false).
Definition rx_ready : M D bool := poll 128 (lsr_has DR) (mret false).

(** [putb] waits for the line however long it takes: the fuel bounds the
    rounds of 128 polls. *)
Fixpoint putb (fuel : nat) (b : Z) : M D unit :=
  match fuel with
  | O => diverge
  | S fuel' =>
    r ← tx_ready;
    if r : bool then vwrite (EIA0 + THR) b else putb fuel' b
  end.

Definition getb : M D (option Z) :=
  r ← rx_ready;
  if r : bool then b ← vread (EIA0 + RBR); mret (Some b) else mret None.

Fixpoint write_str (fuel : nat) (s : list Z) : M D unit :=
  match s with
  | [] => mret tt
  | b :: s' => (if b =? 10 then putb fuel 13 else mret tt);; putb fuel b;; write_str fuel s'
  end.

(** [interrupt]: the bytes handed to the console, read until none is ready;
    the fuel bounds their number. *)
Fixpoint interrupt (fuel : nat) : M D (list Z) :=
  match fuel with
  | O => diverge
  | S fuel' =>
    o ← getb;
    match o with
    | Some b => bs ← interrupt fuel'; mret (b :: bs)
    | None => mret []
    end
  end.
End uart.

(** ** A line

    Sent bytes go out in order; received ones come in in order; the line
    takes a while, [ld_busy] polls, to be ready to send the next byte. *)
Record Line := mkLine { ld_in : list Z; ld_out : list Z; ld_busy : nat; ld_delay : nat }.
#[export] Instance line_mmio : Mmio Z Line := {|
  mmio_read r d :=
    if r =? EIA0 + LSR then
      (Z.lor (if decide (ld_busy d = O) then THRE else 0) (if decide (ld_in d = []) then 0 else DR),
       mkLine (ld_in d) (ld_out d) (pred (ld_busy d)) (ld_delay d))
    else if r =? EIA0 + RBR then
      (default 0 (head (ld_in d)), mkLine (tail (ld_in d)) (ld_out d) (ld_busy d) (ld_delay d))
    else (0, d);
  mmio_write r v d :=
    if r =? EIA0 + THR then mkLine (ld_in d) (ld_out d ++ [v]) (ld_delay d) (ld_delay d) else d |}.

(** What is sent for a text. *)
Definition crlf (s : list Z) : list Z := s ≫= fun b => if b =? 10 then [13; 10] else [b].

Lemma lsr_has_THRE d : lsr_has THRE d =
  Ret (if decide (ld_busy d = O) then Some true else None, mkLine (ld_in d) (ld_out d) (pred (ld_busy d)) (ld_delay d)).
Proof. unfold lsr_has. rewrite bind_vread. cbn. by repeat case_decide. Qed.

(** Polling goes on until the line is ready or the polls are used up. *)
Lemma poll_THRE n : forall d, poll n (lsr_has THRE) (mret false) d =
  Ret (bool_decide (ld_busy d < n)%nat, mkLine (ld_in d) (ld_out d) (ld_busy d - n)%nat (ld_delay d)) \/ (ld_busy d < n)%nat.
Proof.
  induction n as [|n IH]; intros d; cbn [poll].
  { left. rewrite bool_decide_eq_false_2 by lia. rewrite Nat.sub_0_r. by destruct d. }
  rewrite (bind_run _ _ _ _ _ (lsr_has_THRE d)). case_decide as E; [right; lia|].
  destruct (IH (mkLine (ld_in d) (ld_out d) (pred (ld_busy d)) (ld_delay d))) as [IHd|IHd]; cbn in *; [|right; lia].
  left. rewrite IHd. f_equal. f_equal; [by apply bool_decide_ext; lia|f_equal; lia].
Qed.

Lemma poll_THRE_ready n : forall d, (ld_busy d < n)%nat -> poll n (lsr_has THRE) (mret false) d =
  Ret (true, mkLine (ld_in d) (ld_out d) 0 (ld_delay d)).
Proof.
  induction n as [|n IH]; intros d Hn; [lia|]. cbn [poll]. rewrite (bind_run _ _ _ _ _ (lsr_has_THRE d)).
  case_decide as E; [by rewrite E|]. rewrite IH by (cbn; lia). done.
Qed.

Lemma putb_run fuel : forall d b, (ld_busy d < 128 * fuel)%nat ->
  putb fuel b d = Ret (tt, mkLine (ld_in d) (ld_out d ++ [b]) (ld_delay d) (ld_delay d)).
Proof.
  induction fuel as [|fuel IH]; intros d b Hf; [lia|]. cbn [putb]. unfold tx_ready.
  destruct (decide (ld_busy d < 128)%nat) as [H|H].
  - by rewrite (bind_run _ _ _ _ _ (poll_THRE_ready 128 d H)).
  - destruct (poll_THRE 128 d) as [E|?]; [|lia]. rewrite (bind_run _ _ _ _ _ E), bool_decide_eq_false_2 by lia.
    rewrite IH by (cbn; lia). done.
Qed.

(** The serial line gets the text, and printing ends.  On a line that is
    ready again within [128 * fuel] polls of each byte, [write_str] returns
    and has sent exactly the text, a carriage return before each newline. *)
Theorem write_str_sends fuel (d : Line) s :
  (ld_busy d < 128 * fuel)%nat -> (ld_delay d < 128 * fuel)%nat ->
  exists d', write_str fuel s d = Ret (tt, d') /\ ld_out d' = ld_out d ++ crlf s /\ ld_in d' = ld_in d.
Proof.
  revert d. induction s as [|b s IH]; intros d Hb Hd.
  { exists d. split; [done|]. change (crlf []) with (@nil Z). by rewrite app_nil_r. }
  cbn [write_str]. change (crlf (b :: s)) with ((if b =? 10 then [13; 10] else [b]) ++ crlf s).
  destruct (b =? 10) eqn:E10.
  - apply Z.eqb_eq in E10 as ->. rewrite (bind_run _ _ _ _ _ (putb_run _ _ 13 Hb)).
    erewrite bind_run by (apply putb_run; exact Hd). cbn [ld_in ld_out ld_delay].
    edestruct (IH (mkLine (ld_in d) ((ld_out d ++ [13]) ++ [10]) (ld_delay d) (ld_delay d)) Hd Hd) as (d' & Hr & Ho & Hi).
    exists d'. split; [exact Hr|]. cbn in Ho. by rewrite <-!app_assoc in Ho.
  - rewrite bind_mret, (bind_run _ _ _ _ _ (putb_run _ _ b Hb)).
    edestruct (IH (mkLine (ld_in d) (ld_out d ++ [b]) (ld_delay d) (ld_delay d)) Hd Hd) as (d' & Hr & Ho & Hi).
    exists d'. split; [exact Hr|]. cbn in Ho. by rewrite <-!app_assoc in Ho.
Qed.

Lemma write_str_sends_witness :
  exists d', write_str 2 [104; 105; 10] (mkLine [] [] 0 200) = Ret (tt, d') /\ ld_out d' = [104; 105; 13; 10].
Proof.
  destruct (write_str_sends 2 (mkLine [] [] 0 200) [104; 105; 10]) as (d' & H1 & H2 & _); [cbn; lia|cbn; lia|].
  exists d'. split; [exact H1|exact H2].
Defined.
