(* ===== verification/Trap.v ===== *)
(** Traps, [trap.rs]: the dispatch of interrupts and faults, the clock, and
    what becomes of the interrupted process. *)
From stdpp Require Import base list gmap strings.
From Stdlib Require Import ZArith Lia.
From S2P Require Import Prelude.
From S2P Require Import Arch.
From S2P Require Import Pci.
From S2P Require Import Xapic.
From S2P Require Import Uart.
From S2P Require Import Proc.

(** ** Vectors *)
Definition KBD_INTR : Z := INTR0 + 1.
Definition EIA0_INTR : Z := INTR0 + INTR_EIA0.
Definition TIMER_INTR : Z := INTR0 + Xapic.INTR_TIMER.
Definition SD_INTR : Z := INTR0 + 14.
Definition PAGE_FAULT : Z := 14.

Section trap.
Context {PT : Type} (tickchan : Z).

(** The clock, the process table, and the devices. *)
Context {D : Type}.
Record Trap := mkTrap { TICKS : Z; tr_tab : Table PT; tr_dev : D }.
Notation T := (M Trap).

Definition on_tab {A} (m : M (Table PT) A) : T A := fun s =>
  match m (tr_tab s) with
  | Ret (a, t) => Ret (a, mkTrap (TICKS s) t (tr_dev s))
  | Panic e => Panic e
  | Diverge => Diverge
  end.

(** The handlers of the devices, the end of an interrupt, and [Proc::exit],
    which [Sysfile] models: it closes files and so needs the file system. *)
Context (kbd_interrupt uart_interrupt sd_interrupt eoi : T unit) (exit : Z -> Z -> T unit).

(** ** The processor and the frame of a trap: its number, the process it runs,
    and whether the trap came from user mode *)
Record Frame := mkFrame { mycpu_id : Z; try_myproc : option Z; is_user : bool }.

Definition myproc (f : Frame) : T Z := expect (try_myproc f) "myproc called with no proc".
Definition kill_me (f : Frame) : T unit := k ← myproc f; on_tab (upd_proc k (set_killed true)).

(** How a trap leaves its handler: the process is gone, it has given up the
    processor and goes on in [trap_resume], or the handler is done. *)
Inductive leave := Exited | Yielded | Done_.

(** [die_if_dead]: whether the process exited. *)
Definition die_if_dead (f : Frame) : T bool :=
  match try_myproc f with
  | None => mret false
  | Some k =>
    p ← on_tab (proc_at k);
    if killed p then exit k 1;; mret true else mret false
  end.

Definition yield_if_running (f : Frame) : T bool :=
  match try_myproc f with
  | None => mret false
  | Some k =>
    p ← on_tab (proc_at k);
    if bool_decide (state p = RUNNING) then on_tab (sched_yield k);; mret true else mret false
  end.

Definition tick : T unit :=
  modify (fun s => mkTrap (wrap 64 (TICKS s + 1)) (tr_tab s) (tr_dev s));;
  on_tab (wakeup tickchan).

Definition dispatch (vecnum : Z) (f : Frame) : T unit :=
  if vecnum =? PAGE_FAULT then
    assert_ (is_user f) "page fault";;
    kill_me f
  else if vecnum =? KBD_INTR then
    assert_ (mycpu_id f =? 0) "assertion failed: arch::mycpu_id() == 0";; kbd_interrupt
  else if vecnum =? EIA0_INTR then
    assert_ (mycpu_id f =? 0) "assertion failed: arch::mycpu_id() == 0";; uart_interrupt
  else if vecnum =? TIMER_INTR then
    (if mycpu_id f =? 0 then tick else mret tt);; eoi
  else if vecnum =? SD_INTR then
    assert_ (mycpu_id f =? 0) "assertion failed: arch::mycpu_id() == 0";; sd_interrupt
  else
    assert_ (is_user f && bool_decide (is_Some (try_myproc f))) "unanticipated interrupt";;
    kill_me f.

(** The check of [trap] on its way out. *)
Definition trap_resume (f : Frame) : T leave :=
  gone ← (if is_user f then die_if_dead f else mret false);
  mret (if gone : bool then Exited else Done_).

Definition trap (vecnum : Z) (f : Frame) : T leave :=
  dispatch vecnum f;;
  gone ← (if is_user f then die_if_dead f else mret false);
  if gone : bool then mret Exited else
  gave_up ← (if vecnum =? TIMER_INTR then yield_if_running f else mret false);
  if gave_up : bool then mret Yielded else trap_resume f.

(** ** Sleeping on the clock *)
Definition ticks : T Z := gets TICKS.

(** One round of [ticksleep] since [ticks0]. *)
Definition ticksleep_round (k ticks0 nticks : Z) : T (progress (result unit) unit) :=
  now ← ticks;
  elapsed ← lift (sub_ovf now ticks0);
  if elapsed <? nticks then
    p ← on_tab (proc_at k);
    if killed p then mret (Done (Err "killed"))
    else on_tab (sleep k tickchan);; mret (Sleep tt)
  else mret (Done (Ok tt)).
End trap.
Arguments Trap : clear implicits.
