(* ===== verification/TrapSpec.v ===== *)
(** What traps do to processes: a fault in user mode makes the process exit,
    and a process that sleeps on the clock is woken by it. *)
From stdpp Require Import base list gmap strings.
From Stdlib Require Import ZArith Lia.
From S2P Require Import Prelude.
From S2P Require Import Arch.
From S2P Require Import Pci.
From S2P Require Import Proc.
From S2P Require Import ProcSpec.
From S2P Require Import Trap.

Section spec.
Context {PT D : Type} (tickchan : Z).
Context (kbd_interrupt uart_interrupt sd_interrupt eoi : M (Trap PT D) unit) (exit : Z -> Z -> M (Trap PT D) unit).
Notation trap := (trap tickchan kbd_interrupt uart_interrupt sd_interrupt eoi exit).

Lemma on_tab_run {A} (m : M (Table PT) A) (s : Trap PT D) a t :
  m (tr_tab s) = Ret (a, t) -> on_tab m s = Ret (a, mkTrap (TICKS s) t (tr_dev s)).
Proof. intros H. unfold on_tab. by rewrite H. Qed.

Lemma set_killed_private b : @private PT (set_killed b).
Proof. by intros p. Qed.

(** A vector that is no device's: a page fault or another exception. *)
Definition fault (vecnum : Z) : Prop :=
  vecnum <> KBD_INTR /\ vecnum <> EIA0_INTR /\ vecnum <> TIMER_INTR /\ vecnum <> SD_INTR.

Lemma dispatch_fault vecnum f k (s : Trap PT D) :
  fault vecnum -> is_user f = true -> try_myproc f = Some k ->
  dispatch tickchan kbd_interrupt uart_interrupt sd_interrupt eoi vecnum f s = kill_me f s.
Proof.
  intros (H1 & H2 & H3 & H4) Hu Hm. unfold dispatch. rewrite Hu, Hm.
  case_bool; [done|]. by rewrite !(proj2 (Z.eqb_neq _ _)).
Qed.

(** The system with process [k] marked as killed. *)
Definition kill_in (k : Z) (p : Proc PT) (s : Trap PT D) : Trap PT D :=
  mkTrap (TICKS s) (put_procs (procs (tr_tab s)).[k <- set_killed true p] (tr_tab s)) (tr_dev s).

(** A fault in user mode comes to [exit] by the process, and nothing else. *)
Lemma fault_exits vecnum f k p (s : Trap PT D) :
  fault vecnum -> is_user f = true -> try_myproc f = Some k -> (procs (tr_tab s)).[k] = Some p ->
  trap vecnum f s = (exit k 1;; mret Exited) (kill_in k p s).
Proof.
  intros Hf Hu Hm Hp. unfold Trap.trap. pose proof (upd_proc_run (tr_tab s) k p (set_killed true) Hp) as Hup.
  rewrite (bind_run _ _ s tt (kill_in k p s)).
  2:{ rewrite (dispatch_fault _ _ k) by done. unfold kill_me, myproc. rewrite Hm. cbn [expect]. rewrite bind_mret. by apply on_tab_run. }
  rewrite Hu. unfold die_if_dead. rewrite Hm.
  assert (Hp1 : (procs (tr_tab (kill_in k p s))).[k] = Some (set_killed true p)) by (by apply (znth_set_eq _ _ _ p)).
  assert (E : on_tab (proc_at k) (kill_in k p s) = Ret (set_killed true p, kill_in k p s)) by exact (on_tab_run _ (kill_in k p s) _ _ (proc_at_run _ _ _ Hp1)).
  set (s1 := kill_in k p s) in *. unfold mbind, M_bind. rewrite E. cbn [killed set_killed].
  by destruct (exit k 1 s1) as [[[] s2]| |].
Qed.

(** ** The clock *)

(** A process sleeps on the clock and is scheduled again after each tick:
    what its rounds come to. *)
Fixpoint cycles (k ticks0 nticks : Z) (m : nat) : M (Trap PT D) (list (progress (result unit) unit)) :=
  r ← ticksleep_round tickchan k ticks0 nticks;
  match m with
  | O => mret [r]
  | S m' => tick tickchan;; on_tab (run k);; rs ← cycles k ticks0 nticks m'; mret (r :: rs)
  end.

Lemma round_sleeps (s : Trap PT D) k p ticks0 nticks :
  (procs (tr_tab s)).[k] = Some p -> killed p = false -> ticks0 <= TICKS s -> TICKS s - ticks0 < nticks ->
  ticksleep_round tickchan k ticks0 nticks s =
  Ret (Sleep tt, mkTrap (TICKS s) (put_procs (procs (tr_tab s)).[k <- set_state (SLEEPING tickchan) p] (tr_tab s)) (tr_dev s)).
Proof.
  intros Hp Hk Ht Hn. unfold ticksleep_round, ticks. rewrite bind_gets. unfold sub_ovf.
  rewrite (proj2 (Z.leb_le _ _)) by done. erewrite bind_lift by done. rewrite (proj2 (Z.ltb_lt _ _)) by done.
  erewrite bind_run by (apply on_tab_run; by apply proc_at_run). rewrite Hk. cbn [tr_tab].
  erewrite bind_run by (apply on_tab_run; by apply upd_proc_run). done.
Qed.

Lemma round_done (s : Trap PT D) k ticks0 nticks :
  ticks0 <= TICKS s -> nticks <= TICKS s - ticks0 -> ticksleep_round tickchan k ticks0 nticks s = Ret (Done (Ok tt), s).
Proof.
  intros Ht Hn. unfold ticksleep_round, ticks. rewrite bind_gets. unfold sub_ovf.
  rewrite (proj2 (Z.leb_le _ _)) by done. erewrite bind_lift by done. by rewrite (proj2 (Z.ltb_ge _ _)) by done.
Qed.

(** A tick and a turn of the scheduler bring a sleeper back. *)
Lemma tick_run (s : Trap PT D) k p :
  (procs (tr_tab s)).[k] = Some p -> state p = SLEEPING tickchan -> killed p = false -> TICKS s + 1 < 2 ^ 64 -> 0 <= TICKS s ->
  exists s' p', (tick tickchan;; on_tab (run k)) s = Ret (tt, s') /\ TICKS s' = TICKS s + 1 /\
    (procs (tr_tab s')).[k] = Some p' /\ killed p' = false.
Proof.
  intros Hp Hs Hk Ht H0. set (t1 := put_procs (wakeup1 tickchan (procs (tr_tab s))) (tr_tab s)).
  rewrite (bind_run _ _ s tt (mkTrap (wrap 64 (TICKS s + 1)) t1 (tr_dev s))) by reflexivity. assert (Hp1 : (procs t1).[k] = Some (set_state RUNNABLE p)).
  { unfold t1. cbn -[wakeup1]. rewrite wakeup1_lookup, Hp. cbn. by rewrite bool_decide_eq_true_2. }
  assert (Hr : run k t1 = Ret (tt, put_procs (procs t1).[k <- set_state RUNNING (set_state RUNNABLE p)] t1)).
  { unfold run. rewrite (bind_run _ _ _ _ _ (proc_at_run _ _ _ Hp1)), bind_assert by done. by apply upd_proc_run. }
  eexists _, _. split; [apply on_tab_run; exact Hr|]. cbn [TICKS tr_tab procs]. unfold wrap.
  rewrite Z.mod_small by lia. split; [done|]. split; [by apply (znth_set_eq _ _ _ (set_state RUNNABLE p))|done].
Qed.

(** C16: Sleeping [n] ticks ends at the [n]-th.  A process that is not killed and
    asks to sleep for [n] ticks sleeps once more in each of its first [n]
    rounds, every tick of the clock makes it runnable again, and its round
    after [n] ticks returns. *)
Theorem ticksleep_wakes (s : Trap PT D) k p n :
  (procs (tr_tab s)).[k] = Some p -> killed p = false -> 0 <= TICKS s -> 0 <= n -> TICKS s + n < 2 ^ 64 ->
  exists s', cycles k (TICKS s) n (Z.to_nat n) s = Ret (replicate (Z.to_nat n) (Sleep tt) ++ [Done (Ok tt)], s') /\
    TICKS s' = TICKS s + n.
Proof.
  intros Hp Hk H0 Hn Hfit.
  enough (H : forall m s p, (procs (tr_tab s)).[k] = Some p -> killed p = false -> forall t0, 0 <= t0 <= TICKS s ->
    Z.of_nat m = t0 + n - TICKS s -> t0 + n < 2 ^ 64 ->
    exists s', cycles k t0 n m s = Ret (replicate m (Sleep tt) ++ [Done (Ok tt)], s') /\ TICKS s' = TICKS s + Z.of_nat m).
  { destruct (H (Z.to_nat n) s p Hp Hk (TICKS s)) as (s' & E & Ht); [lia|lia|lia|].
    exists s'. split; [exact E|]. lia. }
  clear s p Hp Hk H0 Hfit. induction m as [|m IH]; intros s p Hp Hk t0 Ht Hm Hfit; cbn [cycles].
  { rewrite (bind_run _ _ _ _ _ (round_done s k t0 n ltac:(lia) ltac:(lia))). exists s. split; [done|lia]. }
  rewrite (bind_run _ _ _ _ _ (round_sleeps s k p t0 n Hp Hk ltac:(lia) ltac:(lia))).
  set (s1 := mkTrap _ _ _). destruct (tick_run s1 k (set_state (SLEEPING tickchan) p)) as (s2 & p2 & Hr & Ht2 & Hp2 & Hk2);
    [by apply (znth_set_eq _ _ _ p)|done|done|cbn; lia|cbn; lia|].
  cbn [TICKS] in Ht2. destruct (IH s2 p2 Hp2 Hk2 t0) as (s' & E & Hs'); [unfold s1 in Ht2; cbn in Ht2; lia|unfold s1 in Ht2; cbn in Ht2; lia|done|].
  exists s'. split; [|unfold s1 in Ht2; cbn in Ht2; lia].
  revert Hr. unfold mbind, M_bind. destruct (tick tickchan s1) as [[[] sa]| |]; [|done|done].
  intros ->. by rewrite E.
Qed.
End spec.

(** The child in the demonstration run naps for three ticks. *)
Lemma ticksleep_wakes_witness :
  exists s', cycles 1 1 7 3 3 (mkTrap 7 Demo.t5 tt) = Ret ([Sleep tt; Sleep tt; Sleep tt; Done (Ok tt)], s') /\ TICKS s' = 10.
Proof.
  destruct (ticksleep_wakes 1 (mkTrap 7 Demo.t5 tt) 1 (default Proc_new (procs Demo.t5).[1]) 3) as (s' & H & Ht);
    [vm_compute; reflexivity|vm_compute; reflexivity|vm_compute; congruence|lia|vm_compute; reflexivity|].
  exists s'. split; [exact H|exact Ht].
Defined.
