(* ===== verification/Malloc.v ===== *)
(** The user library's allocator, [malloc.rs]: a circular list of free blocks
    ordered by address, whose headers live in front of the blocks.  Freeing
    is shown to be ordered insertion with coalescing; an example has an
    allocation that grows the heap and misses the block it has just made. *)
From stdpp Require Import base list gmap strings.
From Stdlib Require Import ZArith Lia.
From S2P Require Import Prelude.

Record Header := mkHeader { h_next : Z; nunits : Z }.
Definition UNIT_SIZE : Z := 16.
Definition header_end (p : Z) (h : Header) : Z := p + nunits h * UNIT_SIZE.

(** The headers by address, [FREE_LIST], and the process's break, which
    [sbrk] moves up to a limit. *)
Record Heap := mkHeap { hdrs : gmap Z Header; free_list : option Z; brk : Z; brk_limit : Z }.
Notation H := (M Heap).

Definition read_hdr (p : Z) : H Header := h ← gets id; expect (hdrs h !! p) "wild pointer".
Definition write_hdr (p : Z) (x : Header) : H unit :=
  modify (fun h => mkHeap (<[p := x]> (hdrs h)) (free_list h) (brk h) (brk_limit h)).
Definition set_next (p n : Z) : H unit := x ← read_hdr p; write_hdr p (mkHeader n (nunits x)).
Definition set_nunits (p n : Z) : H unit := x ← read_hdr p; write_hdr p (mkHeader (h_next x) n).
Definition set_free_list (p : Z) : H unit :=
  modify (fun h => mkHeap (hdrs h) (Some p) (brk h) (brk_limit h)).

Definition bytes2units (bytes : Z) : outcome Z :=
  if bytes + (UNIT_SIZE - 1) <? 2 ^ 64 then Ret ((bytes + (UNIT_SIZE - 1)) / UNIT_SIZE)
  else Panic "called `Option::unwrap()` on a `None` value".

(** The system call, by a signed number of bytes: the old break, or [None] for
    the error value. *)
Definition sbrk (delta : Z) : H (option Z) := fun h =>
  if (0 <=? brk h + delta) && (brk h + delta <=? brk_limit h)
  then Ret (Some (brk h), mkHeap (hdrs h) (free_list h) (brk h + delta) (brk_limit h))
  else Ret (None, h).
(** [nbytes as isize]. *)
Definition as_isize (x : Z) : Z := if x <? 2 ^ 63 then x else x - 2 ^ 64.
Definition safe_sbrk (nbytes : Z) : H (option Z) := sbrk (as_isize nbytes).

Definition more_units (n : Z) : H (option Z) :=
  let n := Z.max n 4096 in
  nbytes ← lift (if n * UNIT_SIZE <? 2 ^ 64 then Ret (n * UNIT_SIZE) else Panic "attempt to multiply with overflow");
  o ← safe_sbrk nbytes;
  match o with
  | None => mret None
  | Some p =>
    assert_ (p mod 8 =? 0) "assertion failed: alignment";;
    write_hdr p (mkHeader p n);;
    mret (Some p)
  end.

(** Whether the block at [bp] belongs between [pp] and its successor [np]. *)
Definition between (pp bp np : Z) : bool :=
  ((pp <? bp) && (bp <? np)) || ((np <=? pp) && ((pp <? bp) || (bp <? np))).

Definition insert_after (p nextp tag : Z) : H unit :=
  t ← read_hdr tag;
  (if header_end tag t =? nextp then
     nx ← read_hdr nextp;
     set_nunits tag (nunits t + nunits nx);;
     set_next tag (h_next nx)
   else set_next tag nextp);;
  t' ← read_hdr tag;
  c ← read_hdr p;
  (if header_end p c =? tag then
     set_nunits p (nunits c + nunits t');;
     set_next p (h_next t')
   else set_next p tag).

Fixpoint free_loop (fuel : nat) (p tag : Z) : H Z :=
  match fuel with
  | O => diverge
  | S fuel' =>
    x ← read_hdr p;
    if between p tag (h_next x) then
      insert_after p (h_next x) tag;;
      set_free_list p;;
      mret p
    else free_loop fuel' (h_next x) tag
  end.

Definition inner_free (fuel : nat) (tag : Z) : H Z :=
  t ← read_hdr tag;
  assert_ (negb (nunits t =? 0)) "assertion failed: tag.nunits != 0";;
  h ← gets id;
  match free_list h with
  | None => set_free_list tag;; mret tag
  | Some p => free_loop fuel p tag
  end.

Definition krfree (fuel : nat) (p : Z) : H unit :=
  if p =? 0 then mret tt
  else assert_ (p mod 8 =? 0) "assertion failed: alignment";; inner_free fuel (p - UNIT_SIZE);; mret tt.

(** [BASE] is a static of the program, here at address [base]. *)
Section malloc.
Context (base : Z).

Definition take_block (prevp ptr n : Z) : H Z :=
  mp ← read_hdr ptr;
  p ← (if nunits mp =? n then set_next prevp (h_next mp);; mret ptr
       else
         set_nunits ptr (nunits mp - n);;
         let p := ptr + (nunits mp - n) * UNIT_SIZE in
         write_hdr p (mkHeader (h_next mp) n);;
         mret p);
  set_free_list prevp;;
  mret p.

Fixpoint malloc_loop (fuel : nat) (n freep prevp ptr : Z) : H (option Z) :=
  match fuel with
  | O => diverge
  | S fuel' =>
    x ← read_hdr ptr;
    if n <=? nunits x then p ← take_block prevp ptr n; mret (Some p)
    else if ptr =? freep then
      o ← more_units n;
      match o with
      | None => mret None
      | Some units =>
        ptr' ← inner_free fuel units;
        y ← read_hdr ptr';
        malloc_loop fuel' n freep ptr' (h_next y)
      end
    else malloc_loop fuel' n freep ptr (h_next x)
  end.

Definition inner_malloc (fuel : nat) (n : Z) : H (option Z) :=
  if n =? 0 then mret None
  else
    h ← gets id;
    match free_list h with
    | None => write_hdr base (mkHeader base 0);; set_free_list base
    | Some _ => mret tt
    end;;
    u ← lift (bytes2units n);
    let units := u + 1 in
    h ← gets id;
    freep ← expect (free_list h) "called `Option::unwrap()` on a `None` value";
    x ← read_hdr freep;
    malloc_loop fuel units freep freep (h_next x).

Definition krmalloc (fuel : nat) (n : Z) : H Z :=
  o ← inner_malloc fuel n;
  mret (match o with Some s => s + UNIT_SIZE | None => 0 end).
End malloc.

(** ** The free list as a list of blocks

    [links h l e]: the headers of the blocks [l], each linked to the next and
    the last one to [e]. *)
Definition block : Type := Z * Z.
Definition bstart (b : block) : Z := fst b.
Definition bend (b : block) : Z := fst b + snd b * UNIT_SIZE.
Definition addr_or (l : list block) (e : Z) : Z := match l with b :: _ => bstart b | [] => e end.

Fixpoint links (h : gmap Z Header) (l : list block) (e : Z) : Prop :=
  match l with
  | [] => True
  | b :: l' => h !! bstart b = Some (mkHeader (addr_or l' e) (snd b)) /\ links h l' e
  end.

(** Blocks in address order, each ending before the next begins. *)
Fixpoint ordered (lo : Z) (l : list block) : Prop :=
  match l with
  | [] => True
  | b :: l' => lo < bstart b /\ 0 <= snd b /\ ordered (Z.max (bstart b) (bend b - 1)) l'
  end.

(** The circular list: the base block first. *)
Definition ring (h : gmap Z Header) (l : list block) : Prop :=
  links h l (addr_or l 0) /\ ordered (-1) l /\ l <> [].

(** Insertion with coalescing on the list: after the last block that starts
    before [b]. *)
Definition join (b : block) (l : list block) : list block :=
  match l with
  | c :: l' => if bend b =? bstart c then (bstart b, snd b + snd c) :: l' else b :: l
  | [] => [b]
  end.
Fixpoint insert_block (b : block) (l : list block) : list block :=
  match l with
  | [] => [b]
  | a :: l' =>
    if addr_or l' (bstart b + 1) <? bstart b then a :: insert_block b l'
    else join a (join b l')
  end.

Lemma links_app h l1 l2 e : links h (l1 ++ l2) e <-> links h l1 (addr_or l2 e) /\ links h l2 e.
Proof.
  induction l1 as [|b l1 IH]; cbn; [naive_solver|]. rewrite IH.
  replace (addr_or (l1 ++ l2) e) with (addr_or l1 (addr_or l2 e)) by (by destruct l1). naive_solver.
Qed.

Lemma links_ext h h' l e : (forall p, p ∈ bstart <$> l -> h' !! p = h !! p) -> links h l e -> links h' l e.
Proof.
  induction l as [|b l IH]; cbn; [done|]. intros Hp [H1 H2]. rewrite Hp by set_solver. split; [done|].
  apply IH; [|done]. intros p Hin. apply Hp. set_solver.
Qed.

Lemma ordered_lo lo lo' l : lo' <= lo -> ordered lo l -> ordered lo' l.
Proof. destruct l; cbn; [done|]. intros Hl (? & ? & ?). repeat split; try done. lia. Qed.

Lemma ordered_above lo l a : ordered lo l -> a ∈ bstart <$> l -> lo < a.
Proof.
  revert lo. induction l as [|b l IH]; cbn; intros lo Ho Ha; [set_solver|].
  destruct Ho as (H1 & H2 & H3). apply elem_of_cons in Ha as [->|Ha]; [done|].
  specialize (IH _ H3 Ha). lia.
Qed.

Lemma ordered_app lo l1 b l2 :
  ordered lo (l1 ++ b :: l2) ->
  Forall (fun c => bstart c < bstart b /\ bend c <= bstart b) l1 /\ ordered lo (l1 ++ [b]) /\
  ordered (Z.max (bstart b) (bend b - 1)) l2.
Proof.
  revert lo. induction l1 as [|c l1 IH]; cbn; intros lo Ho; [naive_solver|].
  destruct Ho as (H1 & H2 & H3). destruct (IH _ H3) as (F1 & O1 & P1).
  split; [|by repeat split]. constructor; [|done].
  pose proof (ordered_above _ _ (bstart b) H3) as Hb3. rewrite fmap_app in Hb3.
  assert (Z.max (bstart c) (bend c - 1) < bstart b) by (apply Hb3; set_solver). lia.
Qed.

Lemma ordered_tail lo l1 x y :
  (forall lo', ordered lo' x -> ordered lo' y) -> ordered lo (l1 ++ x) -> ordered lo (l1 ++ y).
Proof. intros Hxy. revert lo. induction l1 as [|c l1 IH]; cbn; [auto|]. naive_solver. Qed.

Lemma join_ordered lo c l : ordered lo (c :: l) -> ordered lo (join c l).
Proof.
  intros (H1 & H2 & H3). destruct l as [|d l]; [done|]. cbn. destruct H3 as (H4 & H5 & H6).
  destruct (bend c =? bstart d) eqn:E; [|done]. bool_to_prop. unfold bend, bstart, UNIT_SIZE in *. cbn [fst snd ordered] in *.
  split; [done|]. split; [lia|]. eapply ordered_lo; [|done]. unfold bend, bstart, UNIT_SIZE. cbn [fst snd]. lia.
Qed.

(** Where a block goes: [a] is the last block that starts before it. *)
Lemma insert_place b l : 
  addr_or l (bstart b) < bstart b -> bstart b ∉ bstart <$> l ->
  exists l1 a l2, l = l1 ++ a :: l2 /\ bstart a < bstart b /\ bstart b < addr_or l2 (bstart b + 1) /\
    insert_block b l = l1 ++ join a (join b l2).
Proof.
  induction l as [|a l IH]; cbn; intros Hlt Hni; [lia|]. apply not_elem_of_cons in Hni as [Hne Hni].
  destruct (addr_or l (bstart b + 1) <? bstart b) eqn:E; bool_to_prop.
  - destruct IH as (l1 & a' & l2 & -> & H1 & H2 & ->); [destruct l; cbn in *; lia|done|].
    by exists (a :: l1), a', l2.
  - exists [], a, l. split; [done|]. split; [done|]. split; [|done].
    destruct l as [|c l]; cbn in *; [lia|]. apply not_elem_of_cons in Hni as [? _]. lia.
Qed.

(** Walking past blocks that are not the place. *)
Lemma loop_skip h u e k t :
  links (hdrs h) u e ->
  (forall u1 c u2, u = u1 ++ c :: u2 -> between (bstart c) t (addr_or u2 e) = false) ->
  free_loop (length u + k) (addr_or u e) t h = free_loop k e t h.
Proof.
  revert k. induction u as [|c u IH]; intros k Hl Hb; [done|]. cbn [length Nat.add free_loop addr_or].
  destruct Hl as [Hc Hl]. unfold read_hdr, mbind, M_bind, gets, expect. cbn. rewrite Hc. cbn.
  rewrite (Hb [] c u eq_refl). apply IH; [done|]. intros u1 c' u2 ->. by apply (Hb (c :: u1)).
Qed.

Lemma ordered_sub lo l1 l2 : ordered lo (l1 ++ l2) -> ordered lo l2.
Proof.
  revert lo. induction l1 as [|c l1 IH]; cbn; intros lo Ho; [done|].
  destruct Ho as (H1 & _ & H4). apply IH in H4. eapply ordered_lo; [|done]. lia.
Qed.

(** The blocks before the place are not the place, nor are those after it. *)
Lemma before_not_place lo l1 a t u1 c u2 :
  ordered lo (l1 ++ [a]) -> bstart a < t -> l1 = u1 ++ c :: u2 ->
  between (bstart c) t (addr_or u2 (bstart a)) = false.
Proof.
  intros Ho Ha ->. rewrite <-app_assoc in Ho. cbn in Ho.
  apply ordered_app in Ho as (_ & _ & Ho).
  assert (bstart c < addr_or u2 (bstart a) <= bstart a).
  { destruct u2 as [|d u2]; cbn in Ho |- *; [lia|]. split; [lia|]. destruct Ho as (? & _ & Ho).
    assert (Z.max (bstart d) (bend d - 1) < bstart a); [|lia]. apply (ordered_above _ _ _ Ho). rewrite fmap_app. set_solver. }
  unfold between. rewrite (proj2 (Z.ltb_lt (bstart c) t)), (proj2 (Z.ltb_ge t _)), (proj2 (Z.leb_gt _ _)) by lia. done.
Qed.

Lemma after_not_place lo l2 first t u1 c u2 :
  ordered lo l2 -> t < addr_or l2 (t + 1) -> first < t -> l2 = u1 ++ c :: u2 ->
  between (bstart c) t (addr_or u2 first) = false.
Proof.
  intros Ho Ht Hf ->.
  assert (Hc : t < bstart c).
  { destruct u1 as [|d u1]; cbn in Ht, Ho; [done|]. destruct Ho as (? & _ & Ho).
    pose proof (ordered_above _ _ (bstart c) Ho) as Hc. rewrite fmap_app in Hc.
    assert (Z.max (bstart d) (bend d - 1) < bstart c) by (apply Hc; set_solver). lia. }
  apply ordered_sub in Ho. cbn in Ho. destruct Ho as (_ & _ & Ho).
  unfold between. rewrite (proj2 (Z.ltb_ge (bstart c) t)) by lia. cbn.
  destruct u2 as [|d u2]; cbn in Ho |- *.
  - rewrite (proj2 (Z.ltb_ge t first)) by lia. apply andb_false_r.
  - by rewrite (proj2 (Z.leb_gt _ _)) by lia.
Qed.

Lemma at_place a t l2 first : bstart a < t -> t < addr_or l2 (t + 1) -> first <= bstart a ->
  between (bstart a) t (addr_or l2 first) = true.
Proof.
  intros Ha Ht Hf. unfold between. rewrite (proj2 (Z.ltb_lt (bstart a) t)) by done. destruct l2 as [|c l2]; cbn in *.
  - rewrite (proj2 (Z.leb_le first _)) by lia. by rewrite orb_true_r.
  - by rewrite (proj2 (Z.ltb_lt t _)).
Qed.

Lemma read_hdr_run h p x : hdrs h !! p = Some x -> read_hdr p h = Ret (x, h).
Proof. intros E. unfold read_hdr, mbind, M_bind, gets, expect. cbn. by rewrite E. Qed.

(** What linking or merging one header with a successor leaves: the header of
    [p] becomes [x], nothing else changes. *)
Definition only (h h' : Heap) (p : Z) (x : Header) : Prop :=
  hdrs h' !! p = Some x /\ (forall q, q <> p -> hdrs h' !! q = hdrs h !! q) /\
  free_list h' = free_list h /\ brk h' = brk h /\ brk_limit h' = brk_limit h.

Lemma set_next_only h p x n :
  hdrs h !! p = Some x -> exists h', set_next p n h = Ret (tt, h') /\ only h h' p (mkHeader n (nunits x)).
Proof.
  intros E. unfold set_next. rewrite (bind_run _ _ _ _ _ (read_hdr_run _ _ _ E)). eexists. split; [done|].
  split; [apply lookup_insert_eq|]. split; [|done]. intros q Hq. cbn. by rewrite lookup_insert_ne.
Qed.

Lemma merge_only h p x m n :
  hdrs h !! p = Some x ->
  exists h', (set_nunits p m;; set_next p n) h = Ret (tt, h') /\ only h h' p (mkHeader n m).
Proof.
  intros E. unfold set_nunits, mbind, M_bind at 1 2. rewrite (read_hdr_run _ _ _ E). cbn.
  destruct (set_next_only (mkHeap (<[p := mkHeader (h_next x) m]> (hdrs h)) (free_list h) (brk h) (brk_limit h))
              p (mkHeader (h_next x) m) n) as (h' & Hr & H1 & H2 & H3); [apply lookup_insert_eq|].
  exists h'. split; [done|]. split; [done|]. split; [|done]. intros q Hq. rewrite H2 by done. cbn.
  by rewrite lookup_insert_ne.
Qed.

(** [join] of a header with the blocks after it. *)
Definition join_hdr (p q : Z) (x nx : Header) : H unit :=
  if header_end p x =? q then set_nunits p (nunits x + nunits nx);; set_next p (h_next nx) else set_next p q.

Lemma join_run {h b l e x} nx :
  links (hdrs h) l e -> hdrs h !! bstart b = Some x -> nunits x = snd b -> (l = [] -> bend b <> e) ->
  hdrs h !! addr_or l e = Some nx ->
  exists h' c l', join b l = c :: l' /\ bstart c = bstart b /\
    join_hdr (bstart b) (addr_or l e) x nx h = Ret (tt, h') /\
    only h h' (bstart b) (mkHeader (addr_or l' e) (snd c)) /\ (l' = l \/ exists d, l = d :: l').
Proof.
  intros Hl Hx Hn He Hnx. unfold join_hdr, header_end. rewrite Hn. change (bstart b + snd b * UNIT_SIZE) with (bend b).
  destruct l as [|d l]; cbn [join addr_or] in *.
  - rewrite (proj2 (Z.eqb_neq _ _)) by auto. destruct (set_next_only h _ x e Hx) as (h' & Hr & Ho).
    exists h', b, []. rewrite <-Hn. naive_solver.
  - destruct Hl as [Hd Hl]. rewrite Hd in Hnx. injection Hnx as <-. destruct (bend b =? bstart d) eqn:E.
    + cbn [nunits h_next]. destruct (merge_only h _ x (snd b + snd d) (addr_or l e) Hx) as (h' & Hr & Ho).
      exists h', (bstart b, snd b + snd d), l. naive_solver.
    + destruct (set_next_only h _ x (bstart d) Hx) as (h' & Hr & Ho).
      exists h', b, (d :: l). rewrite <-Hn. naive_solver.
Qed.

(** [insert_after] is two such joins. *)
Lemma insert_after_joins h p nextp tag t nx c h1 :
  hdrs h !! tag = Some t -> hdrs h !! nextp = Some nx -> join_hdr tag nextp t nx h = Ret (tt, h1) ->
  hdrs h1 !! p = Some c -> forall t', hdrs h1 !! tag = Some t' ->
  insert_after p nextp tag h = join_hdr p tag c t' h1.
Proof.
  intros Ht Hnx Hj Hc t' Ht'. unfold insert_after. rewrite (bind_run _ _ _ _ _ (read_hdr_run _ _ _ Ht)).
  erewrite bind_run; [|].
  - rewrite (bind_run _ _ _ _ _ (read_hdr_run _ _ _ Ht')), (bind_run _ _ _ _ _ (read_hdr_run _ _ _ Hc)). done.
  - unfold join_hdr in Hj. case_bool; [|done]. by rewrite (bind_run _ _ _ _ _ (read_hdr_run _ _ _ Hnx)).
Qed.

Lemma insert_after_links h l1 a l2 b nx lo :
  let first := addr_or l1 (bstart a) in
  links (hdrs h) (l1 ++ a :: l2) first -> ordered lo (l1 ++ a :: l2) ->
  hdrs h !! bstart b = Some (mkHeader nx (snd b)) -> bstart b ∉ bstart <$> (l1 ++ a :: l2) ->
  bstart a < bstart b -> 0 < snd b ->
  exists h', insert_after (bstart a) (addr_or l2 first) (bstart b) h = Ret (tt, h') /\
    links (hdrs h') (l1 ++ join a (join b l2)) first /\ brk h' = brk h /\ brk_limit h' = brk_limit h.
Proof.
  intros first Hl Ho Hb Hni Hab Hn. pose proof Hl as Hlinks. apply links_app in Hl as [Hl1 [Ha Hl2]]. cbn in Hl1.
  rewrite fmap_app in Hni. cbn in Hni. apply not_elem_of_app in Hni as [Hn1 [Hba Hn2]%not_elem_of_cons].
  pose proof (ordered_app _ _ _ _ Ho) as (Hbef & _ & Haft). rewrite Forall_forall in Hbef.
  assert (Hfa : first <= bstart a).
  { unfold first. destruct l1 as [|c l1]; cbn; [lia|]. destruct (Hbef c); [set_solver|lia]. }
  assert (Ha2 : bstart a ∉ bstart <$> l2) by (intros H%(ordered_above _ _ _ Haft); lia).
  assert (Ha1 : bstart a ∉ bstart <$> l1).
  { intros (c & E & Hc)%list_elem_of_fmap. destruct (Hbef _ Hc). lia. }
  assert (exists x, hdrs h !! addr_or l2 first = Some x) as (x & Hx).
  { destruct l2 as [|c l2]; cbn; [|destruct Hl2; eauto]. unfold first. destruct l1; cbn; [eauto|destruct Hl1; eauto]. }
  destruct (join_run x Hl2 Hb eq_refl) as (h1 & b' & l2' & Hj & Hb' & Hr & (Hb1 & Hsame & _ & Hk1 & Hk2) & Hsub); [|done|].
  { intros _. unfold bend, UNIT_SIZE. change (fst b) with (bstart b). lia. }
  assert (Hsub' : forall q, q ∈ bstart <$> l2' -> q ∈ bstart <$> l2) by (destruct Hsub as [->|(d & ->)]; set_solver).
  assert (Hl2' : links (hdrs h1) (b' :: l2') first).
  { split; [by rewrite Hb'|]. apply (links_ext (hdrs h)).
    - intros q Hq. apply Hsame. intros ->. by apply Hn2, Hsub'.
    - destruct Hsub as [->|(d & ->)]; [done|by destruct Hl2]. }
  assert (Ha' : hdrs h1 !! bstart a = Some (mkHeader (addr_or l2 first) (snd a))) by (by rewrite Hsame).
  rewrite (insert_after_joins h _ _ _ _ _ _ _ Hb Hx Hr Ha' _ Hb1). rewrite Hj, <-Hb'.
  rewrite <-Hb' in Hb1.
  destruct (join_run _ Hl2' Ha' eq_refl (fun E => ltac:(done)) Hb1) as (h2 & a' & l' & Hj2 & Ha'' & Hr2 & (Ha3 & Hsame2 & _ & Hk3 & Hk4) & Hsub2).
  rewrite Hj2. exists h2. split; [done|]. split; [|split; congruence].
  assert (Hx2 : forall q, q ∈ bstart <$> l' -> q ∈ bstart <$> b' :: l2') by (destruct Hsub2 as [->|(d & [= -> ->])]; set_solver).
  apply links_app. cbn [addr_or]. rewrite Ha''. split; [|split; [by rewrite Ha''|]].
  - apply (links_ext (hdrs h)); [|done]. intros q Hq. rewrite Hsame2, Hsame; [done|by intros ->..].
  - apply (links_ext (hdrs h1)); [|destruct Hsub2 as [->|(d & [= -> ->])]; [done|by destruct Hl2']].
    intros q Hq. apply Hsame2. intros ->. apply Hx2 in Hq. cbn in Hq. rewrite Hb' in Hq. set_solver.
Qed.

(** ** Freeing *)
Definition apart (b : block) (l : list block) : Prop :=
  Forall (fun c => bend b <= bstart c \/ bend c <= bstart b) l.

Lemma insert_ordered lo l1 a b l2 :
  ordered lo (l1 ++ a :: l2) -> bstart a < bstart b -> bstart b < addr_or l2 (bstart b + 1) -> 0 < snd b ->
  apart b (l1 ++ a :: l2) -> ordered lo (l1 ++ join a (join b l2)).
Proof.
  intros Ho Hab Hb Hn Hap. revert Ho. apply ordered_tail. intros lo' (H1 & H2 & H3).
  apply Forall_app in Hap as [_ [Ha H4]%Forall_cons].
  apply join_ordered. split; [done|]. split; [done|]. apply join_ordered.
  assert (bstart b < bend b) by (unfold bend, UNIT_SIZE; change (fst b) with (bstart b); lia).
  split; [destruct Ha; lia|]. split; [lia|]. destruct l2 as [|c l2]; [done|].
  apply Forall_cons in H4 as [Hc _]. cbn in Hb, H3 |- *. destruct H3 as (H5 & H6 & H7).
  assert (bstart c <= bend c) by (unfold bend, UNIT_SIZE; change (fst c) with (bstart c); lia).
  split; [lia|]. done.
Qed.

(** The walk from any block of the ring reaches the place within one turn. *)
Lemma walk_to_place h l1 a l2 t lo f fuel :
  let first := addr_or l1 (bstart a) in
  links (hdrs h) (l1 ++ a :: l2) first -> ordered lo (l1 ++ a :: l2) ->
  bstart a < t -> t < addr_or l2 (t + 1) -> f ∈ bstart <$> (l1 ++ a :: l2) ->
  (length (l1 ++ a :: l2) <= fuel)%nat ->
  exists k, free_loop fuel f t h = free_loop (S k) (bstart a) t h.
Proof.
  intros first Hl Ho Ha Ht Hf Hfuel. apply links_app in Hl as [Hl1 [_ Hl2]]. cbn [addr_or] in Hl1.
  pose proof (ordered_app _ _ _ _ Ho) as (Hbef & Ho1 & Ho2). rewrite Forall_forall in Hbef.
  assert (Hfa : first < t).
  { unfold first. destruct l1 as [|c l1]; cbn; [lia|]. destruct (Hbef c); [set_solver|lia]. }
  rewrite fmap_app in Hf. rewrite length_app in Hfuel. cbn in Hf, Hfuel.
  assert (Hfrom1 : forall w u k, l1 = w ++ u -> (length u < k)%nat -> exists k', free_loop k (addr_or u (bstart a)) t h = free_loop (S k') (bstart a) t h).
  { intros w u k -> Hk. apply links_app in Hl1 as [_ Hu]. exists (k - length u - 1)%nat.
    replace k with (length u + S (k - length u - 1))%nat at 1 by lia. apply loop_skip; [done|].
    intros u1 c u2 ->. rewrite app_assoc in Ho1. by apply (before_not_place lo ((w ++ u1) ++ c :: u2) a t (w ++ u1)). }
  apply elem_of_app in Hf as [Hf|[->|Hf]%elem_of_cons].
  - apply list_elem_of_fmap in Hf as (c & -> & (w & u & ->)%list_elem_of_split).
    apply (Hfrom1 w (c :: u) fuel); [done|]. rewrite length_app in Hfuel. cbn in *. lia.
  - exists (fuel - 1)%nat. f_equal. lia.
  - apply list_elem_of_fmap in Hf as (c & -> & (w & u & ->)%list_elem_of_split).
    rewrite length_app in Hfuel. cbn in Hfuel. apply links_app in Hl2 as [_ Hu].
    replace fuel with (length (c :: u) + (fuel - length (c :: u)))%nat by (cbn; lia).
    change (bstart c) with (addr_or (c :: u) first). rewrite loop_skip; [|done|].
    + apply (Hfrom1 [] l1); [done|]. cbn. lia.
    + intros u1 d u2 E. apply (after_not_place _ (w ++ c :: u) first t (w ++ u1) d u2 Ho2 Ht Hfa).
      by rewrite E, <-app_assoc.
Qed.

(** C33: [free] is ordered insertion with coalescing.  On a circular free list
    of blocks in address order, wherever the search starts, freeing a block
    that overlaps none of them and lies above the base terminates within one
    turn of the list and leaves the circular list of the blocks with the new
    one inserted, merged with its neighbours exactly when they touch; the
    next search starts at a block of the new list. *)
Theorem free_inserts h l f t n nx fuel :
  ring (hdrs h) l -> free_list h = Some f -> f ∈ bstart <$> l ->
  hdrs h !! t = Some (mkHeader nx n) -> 0 < n -> t ∉ bstart <$> l -> addr_or l t < t ->
  apart (t, n) l -> (length l <= fuel)%nat ->
  exists p h', inner_free fuel t h = Ret (p, h') /\ ring (hdrs h') (insert_block (t, n) l) /\
    free_list h' = Some p /\ p ∈ bstart <$> insert_block (t, n) l.
Proof.
  intros (Hl & Ho & Hne) Hf Hfin Ht Hn Hni Hbase Hap Hfuel.
  destruct (insert_place (t, n) l Hbase Hni) as (l1 & a & l2 & -> & Ha & Hb & ->). cbn [bstart fst] in Ha, Hb.
  assert (Hfirst : addr_or (l1 ++ a :: l2) 0 = addr_or l1 (bstart a)) by (by destruct l1). rewrite Hfirst in Hl.
  destruct (walk_to_place h l1 a l2 t (-1) f fuel Hl Ho Ha Hb Hfin Hfuel) as (k & Hwalk).
  unfold inner_free. rewrite (bind_run _ _ _ _ _ (read_hdr_run _ _ _ Ht)). cbn [nunits].
  rewrite bind_assert by (apply negb_true_iff, Z.eqb_neq; lia). rewrite bind_gets. cbn [id].
  rewrite Hf, Hwalk. cbn [free_loop].
  pose proof (proj1 (links_app _ _ _ _) Hl) as [_ [Hha _]].
  rewrite (bind_run _ _ _ _ _ (read_hdr_run _ _ _ Hha)). cbn [h_next].
  pose proof (ordered_app _ _ _ _ Ho) as (Hbef & _ & _). rewrite Forall_forall in Hbef.
  rewrite at_place by (done || (destruct l1 as [|c l1]; cbn; [lia|]; destruct (Hbef c); [set_solver|lia])).
  destruct (insert_after_links h l1 a l2 (t, n) nx (-1) Hl Ho Ht Hni Ha Hn) as (h' & Hr & Hl' & _).
  cbn [bstart fst] in Hr. rewrite (bind_run _ _ _ _ _ Hr). unfold set_free_list. rewrite bind_modify.
  assert (exists c l', join a (join (t, n) l2) = c :: l' /\ bstart c = bstart a) as (c & l' & Hj & Hc).
  { destruct (join (t, n) l2) as [|d l'] eqn:E; cbn; [|case_bool]; eauto. }
  eexists _, _. split; [done|]. cbn [hdrs free_list]. split; [|split; [done|]].
  - split; [|split].
    + replace (addr_or _ 0) with (addr_or l1 (bstart a)); [done|]. rewrite Hj. destruct l1; cbn; [done|done].
    + by apply insert_ordered.
    + rewrite Hj. by destruct l1.
  - rewrite Hj, fmap_app. cbn. rewrite Hc. set_solver.
Qed.

(** A ring of the base and two blocks; the freed block touches both. *)
Definition demo_heap : Heap :=
  mkHeap (<[0x1000 := mkHeader 0x2000 0]> (<[0x2000 := mkHeader 0x2060 4]> (<[0x2060 := mkHeader 0x1000 2]>
           (<[0x2040 := mkHeader 0 2]> ∅)))) (Some 0x2000) 0x3000 0x4000.
Definition demo_blocks : list block := [(0x1000, 0); (0x2000, 4); (0x2060, 2)].

Lemma demo_ring : ring (hdrs demo_heap) demo_blocks.
Proof. split; [by vm_compute|]. split; [|done]. cbn. unfold bend, bstart, UNIT_SIZE. cbn. lia. Qed.

Lemma free_inserts_witness :
  exists p h', inner_free 3 0x2040 demo_heap = Ret (p, h') /\ ring (hdrs h') [(0x1000, 0); (0x2000, 8)] /\
    free_list h' = Some p.
Proof.
  destruct (free_inserts demo_heap demo_blocks 0x2000 0x2040 2 0 3 demo_ring eq_refl) as (p & h' & H1 & H2 & H3 & _);
    [set_solver|reflexivity|lia| |reflexivity| |cbn; lia|].
  - cbn. rewrite !elem_of_cons. unfold bstart. cbn. intros [E|[E|[E|E]]]; try lia. set_solver.
  - unfold apart, bend, bstart, UNIT_SIZE. repeat constructor; cbn; lia.
  - exists p, h'. split; [exact H1|]. split; [exact H2|exact H3].
Defined.

(** ** Growing the heap

    [inner_malloc] keeps the head of the free list in [freep] while growing
    moves it: when the new memory is merged into the last block, the search
    comes to the old [freep] before the grown block, and grows again, until
    [sbrk] fails. *)
Definition four_calls : M Heap (Z * Z * Z) :=
  p ← krmalloc 0x1000 50 1;
  q ← krmalloc 0x1000 50 1;
  krfree 50 p;;
  r ← krmalloc 0x1000 50 100000;
  mret (p, q, r).

(** Allocation that grows the heap can miss the memory it gets.  In a fresh
    process that may grow its heap by one megabyte, after two small
    allocations and a free of the first, allocating 100000 bytes takes nearly
    the whole megabyte from the kernel and returns null, though the free list
    then holds a block of 56261 units. *)
Example malloc_misses_grown_block :
  exists h, four_calls (mkHeap ∅ None 0x10000 0x110000) = Ret ((0x1FFF0, 0x1FFD0, 0), h) /\
    brk h = 0xFBC30 /\ free_list h = Some 0x1FFE0 /\ nunits <$> hdrs h !! 0x1FFE0 = Some 56261.
Proof. eexists. by vm_compute. Qed.
