(* ===== verification/Cga.v ===== *)
(** The text display, [cga.rs]: a 25 by 80 screen of characters and
    attributes, with a cursor that every byte moves.  No sequence of bytes
    takes the cursor off the screen. *)
From stdpp Require Import base list gmap strings.
From Stdlib Require Import ZArith Lia.
From S2P Require Import Prelude.

Definition DISPLAY_HEIGHT : Z := 25.
Definition DISPLAY_WIDTH : Z := 80.
Definition DISPLAY_LINE_SIZE : Z := DISPLAY_WIDTH * 2.
Definition DISPLAY_SIZE : Z := DISPLAY_LINE_SIZE * DISPLAY_HEIGHT.
Definition ATTRIBUTE : Z := 0x07.

(** The display memory, the position, and the two halves of the cursor
    location the controller holds. *)
Record Cga := mkCga { line : Z; column : Z; buffer : list Z; cursor_hi : Z; cursor_lo : Z }.

Definition set_pos (l c : Z) : M Cga unit :=
  modify (fun s => mkCga l c (buffer s) (cursor_hi s) (cursor_lo s)).
Definition set_buffer (b : list Z) : M Cga unit :=
  modify (fun s => mkCga (line s) (column s) b (cursor_hi s) (cursor_lo s)).
Definition set_regs (hi lo : Z) : M Cga unit :=
  modify (fun s => mkCga (line s) (column s) (buffer s) hi lo).

(** [copy_slice(&mut buffer[off..off + 2], &buf)]. *)
Definition write2 (off : Z) (buf : list Z) : M Cga unit :=
  s ← gets id;
  assert_ (off + 2 <=? zlen (buffer s)) "range end index out of range for slice";;
  set_buffer (zsplice (buffer s) off buf).

(** [bshift]: the bytes from [offset] on move to the front. *)
Definition bshift (dst : list Z) (offset : Z) : outcome (list Z) :=
  if zlen dst <? offset then Panic "offset"
  else Ret (zsplice dst 0 (zslice dst offset (zlen dst))).

Definition blank : M Cga unit :=
  set_pos 0 0;;
  s ← gets id;
  set_buffer (zrep (zlen (buffer s)) 0).

Definition set_cursor : M Cga unit :=
  s ← gets id;
  let off := line s * DISPLAY_LINE_SIZE + column s * 2 in
  write2 off [32; 0x07];;
  let pos := line s * DISPLAY_WIDTH + column s in
  set_regs (Z.shiftr pos 8 mod 256) (pos mod 256).

Definition scroll : M Cga unit :=
  let len := DISPLAY_SIZE - DISPLAY_LINE_SIZE in
  s ← gets id;
  b ← lift (bshift (buffer s) DISPLAY_LINE_SIZE);
  assert_ (len + DISPLAY_LINE_SIZE <=? zlen b) "range end index out of range for slice";;
  set_buffer (zsplice b len (zrep DISPLAY_LINE_SIZE 0));;
  l ← lift (sub_ovf (line s) 1);
  set_pos l (column s);;
  set_cursor.

Definition newline : M Cga unit :=
  s ← gets id;
  set_pos (line s + 1) 0;;
  if line s + 1 =? DISPLAY_HEIGHT then scroll else mret tt.

(** [putb] calls itself for the blanks of a tab or a backspace, and for the
    newline at the end of a line: three levels. *)
Fixpoint spaces (put : M Cga unit) (fuel : nat) (tabstop : Z) : M Cga unit :=
  s ← gets id;
  if column s <? tabstop then
    match fuel with
    | O => diverge
    | S fuel' => put;; spaces put fuel' tabstop
    end
  else mret tt.

Definition putb_body (again : Z -> M Cga unit) (b : Z) : M Cga unit :=
  if b =? 10 then newline
  else if b =? 13 then mret tt
  else if b =? 9 then
    s ← gets id;
    let tabstop := column s + 8 - column s mod 8 in
    if DISPLAY_WIDTH <=? tabstop then newline;; spaces (again 32) 8 (tabstop - DISPLAY_WIDTH)
    else spaces (again 32) 8 tabstop
  else if b =? 8 then
    s ← gets id;
    if 0 <? column s then
      set_pos (line s) (column s - 1);;
      again 32;;
      s ← gets id;
      c ← lift (sub_ovf (column s) 1);
      set_pos (line s) c
    else mret tt
  else
    s ← gets id;
    write2 (column s * 2 + line s * DISPLAY_LINE_SIZE) [b; ATTRIBUTE];;
    set_pos (line s) (column s + 1);;
    if DISPLAY_WIDTH <=? column s + 1 then again 10 else mret tt.

Fixpoint putb_at (depth : nat) (b : Z) : M Cga unit :=
  match depth with
  | O => diverge
  | S d => putb_body (putb_at d) b;; set_cursor
  end.
Definition putb (b : Z) : M Cga unit := putb_at 3 b.

Fixpoint cga_write (bs : list Z) : M Cga unit :=
  match bs with
  | [] => mret tt
  | b :: bs' => putb b;; cga_write bs'
  end.

(** ** The cursor stays on the screen *)
Definition on_screen (s : Cga) : Prop :=
  0 <= line s < DISPLAY_HEIGHT /\ 0 <= column s < DISPLAY_WIDTH /\ zlen (buffer s) = DISPLAY_SIZE.

Ltac screen := unfold on_screen, DISPLAY_SIZE, DISPLAY_LINE_SIZE, DISPLAY_WIDTH, DISPLAY_HEIGHT in *; cbn [line column buffer] in *; lia.

Lemma write2_run s off buf : zlen buf = 2 -> 0 <= off -> off + 2 <= DISPLAY_SIZE -> zlen (buffer s) = DISPLAY_SIZE ->
  exists b, write2 off buf s = Ret (tt, mkCga (line s) (column s) b (cursor_hi s) (cursor_lo s)) /\
    zlen b = DISPLAY_SIZE.
Proof.
  intros Hb Ho Hs Hl. unfold write2. rewrite bind_gets. cbn [id].
  rewrite bind_assert by (apply Z.leb_le; lia). eexists. split; [done|]. rewrite zlen_zsplice; [done|lia|lia].
Qed.

Lemma set_cursor_run s : on_screen s ->
  exists s', set_cursor s = Ret (tt, s') /\ line s' = line s /\ column s' = column s /\ zlen (buffer s') = DISPLAY_SIZE.
Proof.
  intros (H1 & H2 & H3). unfold set_cursor. rewrite bind_gets. cbn [id].
  destruct (write2_run s (line s * DISPLAY_LINE_SIZE + column s * 2) [32; 7]) as (b & Hr & Hb); [done|screen|screen|done|].
  rewrite (bind_run _ _ _ _ _ Hr). eexists. split; [done|]. done.
Qed.

Lemma set_cursor_screen s : on_screen s -> exists s', set_cursor s = Ret (tt, s') /\ on_screen s' /\ column s' = column s.
Proof.
  intros Hs. destruct (set_cursor_run s Hs) as (s' & Hr & H1 & H2 & H3). exists s'. split; [done|].
  split; [|done]. destruct Hs as (? & ? & ?). split; [by rewrite H1|]. split; [by rewrite H2|done].
Qed.

Lemma newline_run s : 0 <= line s < DISPLAY_HEIGHT -> zlen (buffer s) = DISPLAY_SIZE ->
  exists s', newline s = Ret (tt, s') /\ on_screen s' /\ column s' = 0.
Proof.
  intros Hl Hb. unfold newline. rewrite bind_gets. cbn [id]. unfold set_pos. rewrite bind_modify.
  destruct (line s + 1 =? DISPLAY_HEIGHT) eqn:E; bool_to_prop.
  - unfold scroll. rewrite bind_gets. cbn [id line column buffer].
    assert (Hbs : exists b, bshift (buffer s) DISPLAY_LINE_SIZE = Ret b /\ zlen b = DISPLAY_SIZE).
    { unfold bshift. rewrite (proj2 (Z.ltb_ge _ _)) by screen. eexists. split; [done|].
      rewrite zlen_zsplice; [done|lia|]. rewrite zlen_zslice by screen. screen. }
    destruct Hbs as (b & -> & Hlb). erewrite bind_lift by done. rewrite bind_assert by (apply Z.leb_le; screen).
    unfold set_buffer. rewrite bind_modify.
    assert (sub_ovf (line s + 1) 1 = Ret (line s)) as ->.
    { unfold sub_ovf. rewrite (proj2 (Z.leb_le _ _)) by lia. f_equal. lia. }
    erewrite bind_lift by done. unfold set_pos. rewrite bind_modify. cbn [line column buffer cursor_hi cursor_lo].
    apply set_cursor_screen. split; [screen|]. split; [screen|]. cbn. rewrite zlen_zsplice; [done|screen|].
    rewrite zlen_rep by screen. screen.
  - eexists. split; [done|]. split; [|done]. split; [screen|]. split; [screen|done].
Qed.

Lemma putb_S d b : putb_at (S d) b = (putb_body (putb_at d) b;; set_cursor).
Proof. done. Qed.

(** A printing character, and the newline it may cause. *)
Definition plain (b : Z) : Prop := b <> 10 /\ b <> 13 /\ b <> 9 /\ b <> 8.

Lemma put_newline d s : 0 <= line s < DISPLAY_HEIGHT -> zlen (buffer s) = DISPLAY_SIZE ->
  exists s', putb_at (S d) 10 s = Ret (tt, s') /\ on_screen s' /\ column s' = 0.
Proof.
  intros Hl Hb. rewrite putb_S. unfold putb_body. change (10 =? 10) with true. cbn iota.
  destruct (newline_run s Hl Hb) as (s1 & Hr & Hs1 & Hc). rewrite (bind_run _ _ _ _ _ Hr).
  destruct (set_cursor_screen s1 Hs1) as (s2 & Hr2 & Hs2 & Hc2). exists s2. split; [done|]. split; [done|congruence].
Qed.

Lemma put_plain d b s : plain b -> on_screen s ->
  exists s', putb_at (S (S d)) b s = Ret (tt, s') /\ on_screen s' /\
    column s' = if column s + 1 <? DISPLAY_WIDTH then column s + 1 else 0.
Proof.
  intros (H1 & H2 & H3 & H4) (Hl & Hc & Hb). rewrite putb_S. unfold putb_body.
  rewrite (proj2 (Z.eqb_neq b 10)), (proj2 (Z.eqb_neq b 13)), (proj2 (Z.eqb_neq b 9)), (proj2 (Z.eqb_neq b 8)) by done.
  unfold mbind at 1, M_bind at 1. rewrite bind_gets. cbn [id].
  destruct (write2_run s (column s * 2 + line s * DISPLAY_LINE_SIZE) [b; ATTRIBUTE]) as (buf & Hr & Hbuf); [done|screen|screen|done|].
  rewrite (bind_run _ _ _ _ _ Hr). unfold set_pos. rewrite bind_modify. cbn [line column buffer cursor_hi cursor_lo].
  destruct (DISPLAY_WIDTH <=? column s + 1) eqn:E; bool_to_prop.
  - rewrite (proj2 (Z.ltb_ge _ _)) by done.
    destruct (put_newline d (mkCga (line s) (column s + 1) buf (cursor_hi s) (cursor_lo s)) Hl Hbuf) as (s1 & Hr1 & Hs1 & Hc1).
    rewrite Hr1. destruct (set_cursor_screen s1 Hs1) as (s2 & Hr2 & Hs2 & Hc2). exists s2. split; [done|]. split; [done|congruence].
  - rewrite (proj2 (Z.ltb_lt _ _)) by lia. cbn [mret M_ret].
    destruct (set_cursor_screen (mkCga (line s) (column s + 1) buf (cursor_hi s) (cursor_lo s))) as (s2 & Hr2 & Hs2 & Hc2);
      [split; [done|]; split; [screen|done]|].
    exists s2. split; [done|]. split; [done|]. by rewrite Hc2.
Qed.

Lemma spaces_run d fuel tabstop : forall s,
  on_screen s -> tabstop < DISPLAY_WIDTH -> tabstop - column s <= Z.of_nat fuel ->
  exists s', spaces (putb_at (S (S d)) 32) fuel tabstop s = Ret (tt, s') /\ on_screen s'.
Proof.
  induction fuel as [|fuel IH]; intros s Hs Ht Hf; cbn [spaces]; rewrite bind_gets; cbn [id].
  - rewrite (proj2 (Z.ltb_ge _ _)) by lia. by exists s.
  - destruct (column s <? tabstop) eqn:E; bool_to_prop; [|by exists s].
    destruct (put_plain d 32 s) as (s1 & Hr & Hs1 & Hc); [done|done|]. rewrite (bind_run _ _ _ _ _ Hr).
    rewrite (proj2 (Z.ltb_lt _ _)) in Hc by lia. apply IH; [done|done|lia].
Qed.

Lemma putb_screen b s : on_screen s -> exists s', putb b s = Ret (tt, s') /\ on_screen s'.
Proof.
  intros Hs. pose proof Hs as (Hl & Hc & Hb). unfold putb. 
  destruct (decide (plain b)) as [Hp|Hp].
  { destruct (put_plain 1 b s Hp Hs) as (s' & ? & ? & _). eauto. }
  destruct (decide (b = 10)) as [->|Hn]; [destruct (put_newline 2 s Hl Hb) as (s' & ? & ? & _); eauto|].
  assert (Hfin : forall m s1, m s = Ret (tt, s1) -> on_screen s1 -> exists s', (m;; set_cursor) s = Ret (tt, s') /\ on_screen s').
  { intros m s1 Hm Hs1. rewrite (bind_run _ _ _ _ _ Hm). destruct (set_cursor_screen s1 Hs1) as (s2 & ? & ? & _). eauto. }
  rewrite putb_S. unfold putb_body. rewrite (proj2 (Z.eqb_neq b 10)) by done.
  destruct (decide (b = 13)) as [->|H13]; [by apply (Hfin _ s)|]. rewrite (proj2 (Z.eqb_neq b 13)) by done.
  destruct (decide (b = 9)) as [->|H9].
  - set (t := column s + 8 - column s mod 8). pose proof (Z.mod_pos_bound (column s) 8 ltac:(lia)).
    destruct (decide (DISPLAY_WIDTH <= t)) as [Ht|Ht].
    + destruct (newline_run s Hl Hb) as (s1 & Hr & Hs1 & Hc1).
      destruct (spaces_run 0 8 (t - DISPLAY_WIDTH) s1 Hs1) as (s2 & Hr2 & Hs2); [screen|screen|].
      apply (Hfin _ s2); [|done]. change (9 =? 9) with true. cbn iota. rewrite bind_gets. cbn [id].
      fold t. rewrite (proj2 (Z.leb_le _ _)) by done. by rewrite (bind_run _ _ _ _ _ Hr).
    + destruct (spaces_run 0 8 t s Hs) as (s2 & Hr2 & Hs2); [lia|screen|].
      apply (Hfin _ s2); [|done]. change (9 =? 9) with true. cbn iota. rewrite bind_gets. cbn [id].
      fold t. by rewrite (proj2 (Z.leb_gt _ _)) by lia.
  - assert (b = 8) as -> by (destruct (decide (b = 8)); [done|]; by destruct Hp).
    destruct (decide (0 < column s)) as [H0|H0].
    + destruct (put_plain 0 32 (mkCga (line s) (column s - 1) (buffer s) (cursor_hi s) (cursor_lo s))) as (s1 & Hr & Hs1 & Hc1);
        [done|split; [done|]; split; [screen|done]|].
      cbn [column] in Hc1. rewrite (proj2 (Z.ltb_lt _ _)) in Hc1 by lia. pose proof Hs1 as (Hl1 & _ & Hb1).
      apply (Hfin _ (mkCga (line s1) (column s - 1) (buffer s1) (cursor_hi s1) (cursor_lo s1))).
      * change (8 =? 13) with false. change (8 =? 9) with false. change (8 =? 8) with true. cbn iota.
        rewrite bind_gets. cbn [id]. rewrite (proj2 (Z.ltb_lt _ _)) by done. unfold set_pos. rewrite bind_modify.
        cbn [line column buffer cursor_hi cursor_lo]. rewrite (bind_run _ _ _ _ _ Hr), bind_gets. cbn [id].
        rewrite Hc1. unfold sub_ovf. rewrite (proj2 (Z.leb_le _ _)) by lia. erewrite bind_lift by done.
        unfold modify. do 3 f_equal. lia.
      * split; [done|]. split; [screen|done].
    + apply (Hfin _ s); [|done]. change (8 =? 13) with false. change (8 =? 9) with false. change (8 =? 8) with true.
      cbn iota. rewrite bind_gets. cbn [id]. by rewrite (proj2 (Z.ltb_ge _ _)) by lia.
Qed.

(** The display is safe for any output.  From any position on the screen,
    writing any sequence of bytes (printing characters, newlines, tabs,
    backspaces, carriage returns) returns, without an index outside the
    display memory and without underflow of the position, and leaves the
    cursor on the screen. *)
Theorem cga_stays_on_screen bs : forall s, on_screen s -> exists s', cga_write bs s = Ret (tt, s') /\ on_screen s'.
Proof.
  induction bs as [|b bs IH]; intros s Hs; cbn [cga_write]; [by exists s|].
  destruct (putb_screen b s Hs) as (s1 & Hr & Hs1). rewrite (bind_run _ _ _ _ _ Hr). by apply IH.
Qed.

Definition blank_screen : Cga := mkCga 0 0 (zrep DISPLAY_SIZE 0) 0 0.
Lemma cga_stays_on_screen_witness :
  exists s', cga_write (zrep 80 65 ++ [9; 8; 10; 13; 66]) blank_screen = Ret (tt, s') /\ on_screen s'.
Proof. apply cga_stays_on_screen. split; [cbn; unfold DISPLAY_HEIGHT; lia|]. split; [cbn; unfold DISPLAY_WIDTH; lia|reflexivity]. Defined.
