(* ===== verification/Kbd.v ===== *)
(** The keyboard, [kbd.rs]: scan codes to characters through the three key
    maps and the modifier state. *)
From stdpp Require Import base list gmap strings.
From Stdlib Require Import ZArith Lia.
From S2P Require Import Prelude.

(** ** Modifiers and key codes *)
Definition SHIFT : Z := 1.
Definition CTL : Z := Z.shiftl 1 1.
Definition ALT : Z := Z.shiftl 1 2.
Definition CAPSLOCK : Z := Z.shiftl 1 3.
Definition NUMLOCK : Z := Z.shiftl 1 4.
Definition SCROLLLOCK : Z := Z.shiftl 1 5.
Definition E0ESC : Z := Z.shiftl 1 6.

Definition NO : Z := 0.
Definition HOME : Z := 0xE0.
Definition END : Z := 0xE1.
Definition UP : Z := 0xE2.
Definition DOWN : Z := 0xE3.
Definition LEFT : Z := 0xE4.
Definition RIGHT : Z := 0xE5.
Definition PGUP : Z := 0xE6.
Definition PGDN : Z := 0xE7.
Definition INS : Z := 0xE8.
Definition DEL : Z := 0xE9.

(** [c(b)], the control character of [b]; 64 is the code of [@]. *)
Definition c (b : Z) : Z := b - 64.

Definition shift_code (b : Z) : Z :=
  if (b =? 0x1D) || (b =? 0x9D) then CTL
  else if (b =? 0x2A) || (b =? 0x36) then SHIFT
  else if (b =? 0x38) || (b =? 0xB8) then ALT
  else 0.

Definition toggle_code (b : Z) : Z :=
  if b =? 0x3A then CAPSLOCK
  else if b =? 0x45 then NUMLOCK
  else if b =? 0x46 then SCROLLLOCK
  else 0.

(** ** The key maps *)
Definition NORMAL_MAP : list Z := [
   NO; 27; 49; 50; 51; 52; 53; 54;
   55; 56; 57; 48; 45; 61; 7; 9;
   113; 119; 101; 114; 116; 121; 117; 105;
   111; 112; 91; 93; 10; NO; 97; 115;
   100; 102; 103; 104; 106; 107; 108; 59;
   39; 96; NO; 92; 122; 120; 99; 118;
   98; 110; 109; 44; 46; 47; NO; 42;
   NO; 32; NO; NO; NO; NO; NO; NO;
   NO; NO; NO; NO; NO; NO; NO; 55;
   56; 57; 45; 52; 53; 54; 43; 49;
   50; 51; 48; 46; NO; NO; NO; NO;
   NO; NO; NO; NO; NO; NO; NO; NO;
   NO; NO; NO; NO; NO; NO; NO; NO;
   NO; NO; NO; NO; NO; NO; NO; NO;
   NO; NO; NO; NO; NO; NO; NO; NO;
   NO; NO; NO; NO; NO; NO; NO; NO;
   NO; NO; NO; NO; NO; 47; NO; NO;
   NO; NO; NO; NO; NO; NO; NO; NO;
   NO; NO; NO; NO; NO; NO; NO; NO;
   NO; NO; NO; NO; 10; NO; NO; NO;
   NO; NO; NO; NO; NO; NO; NO; NO;
   NO; NO; NO; NO; NO; NO; NO; NO;
   NO; NO; NO; NO; NO; NO; NO; NO;
   NO; NO; NO; NO; NO; NO; NO; NO;
   NO; NO; NO; NO; NO; NO; NO; HOME;
   UP; PGUP; NO; LEFT; NO; RIGHT; NO; END;
   DOWN; PGDN; INS; DEL; NO; NO; NO; NO;
   NO; NO; NO; NO; NO; NO; NO; NO;
   NO; NO; NO; NO; NO; NO; NO; NO;
   NO; NO; NO; NO; NO; NO; NO; NO;
   NO; NO; NO; NO; NO; NO; NO; NO;
   NO; NO; NO; NO; NO; NO; NO; NO].

Definition SHIFT_MAP : list Z := [
   NO; 27; 33; 64; 35; 36; 37; 94;
   38; 42; 40; 41; 95; 43; 7; 9;
   81; 87; 69; 82; 84; 89; 85; 73;
   79; 80; 123; 125; 10; NO; 65; 83;
   68; 70; 71; 72; 74; 75; 76; 58;
   34; 126; NO; 124; 90; 88; 67; 86;
   66; 78; 77; 60; 62; 63; NO; 42;
   NO; 32; NO; NO; NO; NO; NO; NO;
   NO; NO; NO; NO; NO; NO; NO; 55;
   56; 57; 45; 52; 53; 54; 43; 49;
   50; 51; 48; 46; NO; NO; NO; NO;
   NO; NO; NO; NO; NO; NO; NO; NO;
   NO; NO; NO; NO; NO; NO; NO; NO;
   NO; NO; NO; NO; NO; NO; NO; NO;
   NO; NO; NO; NO; NO; NO; NO; NO;
   NO; NO; NO; NO; NO; NO; NO; NO;
   NO; NO; NO; NO; NO; 47; NO; NO;
   NO; NO; NO; NO; NO; NO; NO; NO;
   NO; NO; NO; NO; NO; NO; NO; NO;
   NO; NO; NO; NO; 10; NO; NO; NO;
   NO; NO; NO; NO; NO; NO; NO; NO;
   NO; NO; NO; NO; NO; NO; NO; NO;
   NO; NO; NO; NO; NO; NO; NO; NO;
   NO; NO; NO; NO; NO; NO; NO; NO;
   NO; NO; NO; NO; NO; NO; NO; HOME;
   UP; PGUP; NO; LEFT; NO; RIGHT; NO; END;
   DOWN; PGDN; INS; DEL; NO; NO; NO; NO;
   NO; NO; NO; NO; NO; NO; NO; NO;
   NO; NO; NO; NO; NO; NO; NO; NO;
   NO; NO; NO; NO; NO; NO; NO; NO;
   NO; NO; NO; NO; NO; NO; NO; NO;
   NO; NO; NO; NO; NO; NO; NO; NO].

Definition CTL_MAP : list Z := [
   NO; NO; NO; NO; NO; NO; NO; NO;
   NO; NO; NO; NO; NO; NO; NO; NO;
   c 81; c 87; c 69; c 82; c 84; c 89; c 85; c 73;
   c 79; c 80; NO; NO; 13; NO; c 65; c 83;
   c 68; c 70; c 71; c 72; c 74; c 75; c 76; NO;
   NO; NO; NO; c 92; c 90; c 88; c 67; c 86;
   c 66; c 78; c 77; NO; NO; 47; NO; NO;
   NO; 32; NO; NO; NO; NO; NO; NO;
   NO; NO; NO; NO; NO; NO; NO; 55;
   56; 57; 45; 52; 53; 54; 43; 49;
   50; 51; 48; 46; NO; NO; NO; NO;
   NO; NO; NO; NO; NO; NO; NO; NO;
   NO; NO; NO; NO; NO; NO; NO; NO;
   NO; NO; NO; NO; NO; NO; NO; NO;
   NO; NO; NO; NO; NO; NO; NO; NO;
   NO; NO; NO; NO; NO; NO; NO; NO;
   NO; NO; NO; NO; NO; 47; NO; NO;
   NO; NO; NO; NO; NO; NO; NO; NO;
   NO; NO; NO; NO; NO; NO; NO; NO;
   NO; NO; NO; NO; 13; NO; NO; NO;
   NO; NO; NO; NO; NO; NO; NO; NO;
   NO; NO; NO; NO; NO; NO; NO; NO;
   NO; NO; NO; NO; NO; NO; NO; NO;
   NO; NO; NO; NO; NO; NO; NO; NO;
   NO; NO; NO; NO; NO; NO; NO; HOME;
   UP; PGUP; NO; LEFT; NO; RIGHT; NO; END;
   DOWN; PGDN; INS; DEL; NO; NO; NO; NO;
   NO; NO; NO; NO; NO; NO; NO; NO;
   NO; NO; NO; NO; NO; NO; NO; NO;
   NO; NO; NO; NO; NO; NO; NO; NO;
   NO; NO; NO; NO; NO; NO; NO; NO;
   NO; NO; NO; NO; NO; NO; NO; NO].

(** ** Reading a byte

    [status] and [data] are what the two ports give; the state is the set of
    modifiers. *)
Definition contains (m f : Z) : bool := Z.land m f =? f.
Definition insert (f : Z) : M Z unit := modify (fun m => Z.lor m f).
Definition remove (f : Z) : M Z unit := modify (fun m => Z.ldiff m f).
Definition toggle (f : Z) : M Z unit := modify (fun m => Z.lxor m f).

Definition is_ascii_lowercase (b : Z) : bool := (97 <=? b) && (b <=? 122).
Definition is_ascii_uppercase (b : Z) : bool := (65 <=? b) && (b <=? 90).

(** The character of a key that is pressed. *)
Definition press (data : Z) : M Z (option Z) :=
  insert (shift_code data);;
  toggle (toggle_code data);;
  m ← gets id;
  let map := if contains m CTL then CTL_MAP else if contains m SHIFT then SHIFT_MAP else NORMAL_MAP in
  b ← expect map.[data] "index out of bounds";
  let b := if contains m CAPSLOCK then
             (if is_ascii_lowercase b then b - 32 else if is_ascii_uppercase b then b + 32 else b)
           else b in
  mret (if b =? 0 then None else Some b).

Definition getb (status data : Z) : M Z (option Z) :=
  if negb (contains status 1) then mret None
  else if data =? 0xE0 then insert E0ESC;; mret None
  else if negb (Z.land data 0x80 =? 0) then
    m ← gets id;
    let data := if contains m E0ESC then data else Z.land data 0x7F in
    remove (Z.lor E0ESC (shift_code data));;
    mret None
  else
    m ← gets id;
    if contains m E0ESC then remove E0ESC;; press (Z.lor data 0x80) else press data.

(** The keyboard sends these codes one by one. *)
Fixpoint type_codes (codes : list Z) : M Z (list Z) :=
  match codes with
  | [] => mret []
  | d :: ds =>
    o ← getb 1 d;
    r ← type_codes ds;
    mret (match o with Some b => b :: r | None => r end)
  end.

(** ** Checks over all codes *)
Definition codes : list Z := zrange 0 128.
Definition modifier_sets : list Z := zrange 0 64.

Definition ends_in (m' : Z) (o : outcome (list Z * Z)) : bool :=
  match o with Ret (_, m) => m =? m' | _ => false end.

Definition after (m d : Z) (e0 : bool) : Z :=
  let full := if e0 then Z.lor d 0x80 else d in
  Z.ldiff (Z.lxor (Z.lor m (shift_code full)) (toggle_code full)) (shift_code full).

(** A press and a release: the release code is the press code with bit 7. *)
Definition press_release (d : Z) (e0 : bool) : list Z :=
  let pre := if e0 then [0xE0] else [] in pre ++ [d] ++ pre ++ [Z.lor d 0x80].

Definition undone (m d : Z) (e0 : bool) : bool := ends_in (after m d e0) (type_codes (press_release d e0) m).

Lemma all_undone :
  forallb (fun m => forallb (fun d => (d =? 0x60) || (undone m d true && undone m d false)) codes) modifier_sets = true.
Proof. by vm_compute. Qed.

(** Every key press followed by its release, with or without the E0
    prefix and whatever modifiers are in force, reads no code outside the
    maps and leaves the modifiers as they were, but for the toggles, and for
    a modifier key, which is up afterwards: no modifier sticks.  (The code
    0x60 has no release code of its own: it would be the prefix.) *)
Theorem release_undoes_press m d e0 :
  m ∈ modifier_sets -> d ∈ codes -> d <> 0x60 ->
  exists out, type_codes (press_release d e0) m = Ret (out, after m d e0).
Proof.
  intros Hm Hd Hne. pose proof all_undone as H. rewrite forallb_forall in H.
  specialize (H m (proj1 (list_elem_of_In _ _) Hm)). rewrite forallb_forall in H.
  specialize (H d (proj1 (list_elem_of_In _ _) Hd)). rewrite (proj2 (Z.eqb_neq _ _) Hne) in H. cbn [orb] in H.
  apply andb_true_iff in H as [H1 H2].
  assert (Hu : undone m d e0 = true) by (by destruct e0). unfold undone, ends_in in Hu.
  destruct (type_codes _ m) as [[out m']| |]; try done. apply Z.eqb_eq in Hu. exists out. by rewrite Hu.
Qed.

(** The right control key, pressed and released under caps lock. *)
Lemma release_undoes_press_witness : exists out, type_codes [0xE0; 0x1D; 0xE0; 0x9D] 8 = Ret (out, 8).
Proof.
  apply (release_undoes_press 8 0x1D true); [| |lia];
    unfold modifier_sets, codes; apply elem_of_zrange; lia.
Defined.

(** ** The backspace key

    The maps give the bell, 0x07, for the backspace key (code 0x0E), which
    the console does not take as an erase character. *)
Lemma backspace_key_rings : type_codes [0x0E; 0x8E] 0 = Ret ([7], 0).
Proof. by vm_compute. Qed.
