(* ===== verification/Console.v ===== *)
(** The console, [console.rs]: output to the serial line and the display, and
    the input buffer with its edit pointer, which is shown to implement a
    queue of finished lines and a line being edited. *)
From stdpp Require Import base list gmap strings.
From Stdlib Require Import ZArith Lia.
From S2P Require Import Prelude.
From S2P Require Import Cga.

(** [ctrl(b)]; 64 is the code of [@]. *)
Definition ctrl (b : Z) : Z := b - 64.
Definition BACKSPACE : Z := ctrl 72.
Definition DELETE : Z := 0x7F.
Definition CTLD : Z := ctrl 68.
Definition CTLP : Z := ctrl 80.
Definition CTLU : Z := ctrl 85.
Definition CAPACITY : Z := 256.

Record Reader := mkReader { rbuf : list Z; read_index : Z; write_index : Z; edit_index : Z }.

(** The two writers (the bytes sent to the serial line, the display), the
    reader, and how often the reader's channel was woken and the process
    table dumped. *)
Record Con := mkCon { uart : option (list Z); cga : option Cga; rd : Reader; woken : Z; dumps : Z }.

Definition uart_putb (b : Z) : M Con unit :=
  modify (fun s => mkCon ((fun bs => bs ++ [b]) <$> uart s) (cga s) (rd s) (woken s) (dumps s)).
Definition cga_putb (b : Z) : M Con unit := fun s =>
  match cga s with
  | None => Ret (tt, s)
  | Some c =>
    match Cga.putb b c with
    | Ret (_, c') => Ret (tt, mkCon (uart s) (Some c') (rd s) (woken s) (dumps s))
    | Panic e => Panic e
    | Diverge => Diverge
    end
  end.

(** [Writers::putb]. *)
Definition putb (b : Z) : M Con unit :=
  (if b =? 10 then uart_putb 13
   else if b =? BACKSPACE then uart_putb b;; uart_putb 32
   else mret tt);;
  uart_putb b;;
  cga_putb b.

Fixpoint putbs (bs : list Z) : M Con unit :=
  match bs with
  | [] => mret tt
  | b :: bs' => putb b;; putbs bs'
  end.
(** [puts], and [Console::write]. *)
Definition puts (s : list Z) : M Con unit := putbs s;; putb 10.
Definition console_write (buf : list Z) : M Con (result Z) := putbs buf;; mret (Ok (zlen buf)).

(** ** The input buffer *)
Definition set_rd (r : Reader) : M Con unit :=
  modify (fun s => mkCon (uart s) (cga s) r (woken s) (dumps s)).

Definition len (r : Reader) : Z := wrap 64 (write_index r - read_index r).
Definition is_empty (r : Reader) : bool := read_index r =? write_index r.
Definition is_full (r : Reader) : bool := wrap 64 (edit_index r - read_index r) =? CAPACITY.

Definition backspace : M Con unit :=
  r ← gets rd;
  if negb (edit_index r =? write_index r) then
    set_rd (mkReader (rbuf r) (read_index r) (write_index r) (wrap 64 (edit_index r - 1)));;
    putb BACKSPACE
  else mret tt.

Fixpoint kill (fuel : nat) : M Con unit :=
  r ← gets rd;
  if negb (edit_index r =? write_index r) then
    match fuel with
    | O => diverge
    | S fuel' => backspace;; kill fuel'
    end
  else mret tt.

Definition wakeup_reader : M Con unit :=
  modify (fun s => mkCon (uart s) (cga s) (rd s) (woken s + 1) (dumps s)).
Definition dump : M Con unit :=
  modify (fun s => mkCon (uart s) (cga s) (rd s) (woken s) (dumps s + 1)).

(** [Reader::put]; killing a line removes at most the whole buffer. *)
Definition put (b : Z) : M Con (result Z) :=
  if (b =? BACKSPACE) || (b =? DELETE) then backspace;; r ← gets rd; mret (Ok (len r))
  else if b =? CTLP then dump;; r ← gets rd; mret (Ok (len r))
  else if b =? CTLU then kill (Z.to_nat CAPACITY);; r ← gets rd; mret (Ok (len r))
  else
    r ← gets rd;
    if is_full r then mret (Err "console overflow")
    else
      let b := if b =? 13 then 10 else b in
      set_rd (mkReader (rbuf r).[edit_index r mod CAPACITY <- b] (read_index r) (write_index r)
                (wrap 64 (edit_index r + 1)));;
      putb b;;
      r ← gets rd;
      (if (b =? 10) || (b =? CTLD) || (edit_index r =? wrap 64 (read_index r + CAPACITY)) then
         set_rd (mkReader (rbuf r) (read_index r) (edit_index r) (edit_index r));;
         wakeup_reader
       else mret tt);;
      r ← gets rd;
      mret (Ok (len r)).

Definition peek : M Con (result Z) :=
  r ← gets rd;
  if is_empty r then mret (Err "console underflow")
  else b ← expect (rbuf r).[read_index r mod CAPACITY] "index out of bounds"; mret (Ok b).

Definition get : M Con (result Z) :=
  b <-? peek;;
  r ← gets rd;
  set_rd (mkReader (rbuf r) (wrap 64 (read_index r + 1)) (write_index r) (edit_index r));;
  mret (Ok b).

(** [Console::read]: the bytes already read in [acc], room for [room] more;
    the call sleeps when the buffer is empty.  The bytes are the caller's
    whatever the result is. *)
Fixpoint console_read (dead : bool) (acc : list Z) (room : nat) :
    M Con (progress (list Z * result unit) (list Z * nat)) :=
  match room with
  | O => mret (Done (acc, Ok tt))
  | S room' =>
    r ← gets rd;
    if is_empty r then
      if dead then mret (Done (acc, Err "killed")) else mret (Sleep (acc, room))
    else
      p ← peek;
      b ← expect_ok p "console buffer empty";
      if b =? CTLD then get;; mret (Done (acc, Ok tt))
      else
        g ← get;
        b' ← expect_ok g "called `Result::unwrap()` on an `Err` value";
        if b =? 10 then mret (Done (acc ++ [b'], Ok tt))
        else console_read dead (acc ++ [b']) room'
  end.

(** [interrupt]: every byte the device has. *)
Fixpoint interrupt (bs : list Z) : M Con unit :=
  match bs with
  | [] => mret tt
  | b :: bs' => put b;; interrupt bs'
  end.

Definition Con_new : Con := mkCon (Some []) (Some (mkCga 0 0 (zrep DISPLAY_SIZE 0) 0 0))
  (mkReader (zrep CAPACITY 0) 0 0 0) 0 0.
