(* ===== verification/ConsoleSpec.v ===== *)
(** The line discipline: the console's input buffer, with its three wrapping
    indices, implements a queue of finished input and a line being edited. *)
From stdpp Require Import base list gmap strings.
From Stdlib Require Import ZArith Lia.
From S2P Require Import Prelude.
From S2P Require Import Cga.
From S2P Require Import Console.

(** ** Specification *)
Record Line := mkLine { ready : list Z; pending : list Z }.

Definition finishes (b : Z) (n : Z) : bool := (b =? 10) || (b =? CTLD) || (n =? CAPACITY).

Definition spec_put (b : Z) (L : Line) : result Z * Line :=
  if (b =? BACKSPACE) || (b =? DELETE) then (Ok (zlen (ready L)), mkLine (ready L) (removelast (pending L)))
  else if b =? CTLP then (Ok (zlen (ready L)), L)
  else if b =? CTLU then (Ok (zlen (ready L)), mkLine (ready L) [])
  else if zlen (ready L) + zlen (pending L) =? CAPACITY then (Err "console overflow", L)
  else
    let b := if b =? 13 then 10 else b in
    let all := ready L ++ pending L ++ [b] in
    if finishes b (zlen all) then (Ok (zlen all), mkLine all [])
    else (Ok (zlen (ready L)), mkLine (ready L) (pending L ++ [b])).

Definition spec_get (L : Line) : result Z * Line :=
  match ready L with
  | [] => (Err "console underflow", L)
  | b :: bs => (Ok b, mkLine bs (pending L))
  end.

(** ** Representation *)
Record rep (r : Reader) (L : Line) : Prop := {
  rep_buf : zlen (rbuf r) = CAPACITY;
  rep_read : uN 64 (read_index r);
  rep_write : write_index r = wrap 64 (read_index r + zlen (ready L));
  rep_edit : edit_index r = wrap 64 (read_index r + (zlen (ready L) + zlen (pending L)));
  rep_room : zlen (ready L) + zlen (pending L) <= CAPACITY;
  rep_bytes : forall i, 0 <= i < zlen (ready L) + zlen (pending L) ->
    (ready L ++ pending L).[i] = (rbuf r).[(read_index r + i) mod CAPACITY] }.

Definition con_ok (s : Con) : Prop := match cga s with Some c => on_screen c | None => True end.

(** Wrapping arithmetic: small offsets from an index are told apart. *)
Lemma wrap_inj a x y : 0 <= x < 2 ^ 64 -> 0 <= y < 2 ^ 64 -> wrap 64 (a + x) = wrap 64 (a + y) -> x = y.
Proof.
  unfold wrap. intros Hx Hy H.
  assert ((a + x - (a + y)) mod 2 ^ 64 = 0) as E by (rewrite Zminus_mod, H, Z.sub_diag; done).
  replace (a + x - (a + y)) with (x - y) in E by lia. apply Z.mod_divide in E as [k Hk]; [|lia]. nia.
Qed.

Lemma wrap_sub a x : 0 <= x < 2 ^ 64 -> wrap 64 (wrap 64 (a + x) - a) = x.
Proof.
  intros Hx. unfold wrap. rewrite Zminus_mod_idemp_l. replace (a + x - a) with x by lia. by apply Z.mod_small.
Qed.

Lemma wrap_add a x y : wrap 64 (wrap 64 (a + x) + y) = wrap 64 (a + (x + y)).
Proof. unfold wrap. rewrite Zplus_mod_idemp_l. f_equal. lia. Qed.

Lemma wrap_mod_cap x : wrap 64 x mod CAPACITY = x mod CAPACITY.
Proof.
  unfold wrap, CAPACITY. change (2 ^ 64) with (256 * 2 ^ 56). rewrite Z.rem_mul_r by lia.
  rewrite Z.mul_comm, Z.mod_add by lia. by rewrite Z.mod_mod.
Qed.

Lemma mod_cap_inj a x y : 0 <= x < CAPACITY -> 0 <= y < CAPACITY -> (a + x) mod CAPACITY = (a + y) mod CAPACITY -> x = y.
Proof.
  unfold CAPACITY. intros Hx Hy H.
  assert ((a + x - (a + y)) mod 256 = 0) as E by (rewrite Zminus_mod, H, Z.sub_diag; done).
  replace (a + x - (a + y)) with (x - y) in E by lia. apply Z.mod_divide in E as [k Hk]; [|lia]. lia.
Qed.

Section facts.
Context (r : Reader) (L : Line) (Hr : rep r L).
Let n := zlen (ready L).
Let m := zlen (pending L).

Lemma lens_small : 0 <= n /\ 0 <= m /\ n + m <= 256.
Proof. pose proof (zlen_nonneg (ready L)). pose proof (zlen_nonneg (pending L)). pose proof (rep_room _ _ Hr). unfold CAPACITY in *. subst n m. lia. Qed.

Lemma len_rep : len r = n.
Proof. pose proof lens_small. unfold len. rewrite (rep_write _ _ Hr). apply wrap_sub. lia. Qed.

Lemma is_empty_rep : is_empty r = bool_decide (ready L = []).
Proof.
  pose proof lens_small. unfold is_empty. rewrite (rep_write _ _ Hr).
  replace (read_index r) with (wrap 64 (read_index r + 0)) at 1
    by (rewrite Z.add_0_r; unfold wrap; apply Z.mod_small, (rep_read _ _ Hr)).
  case_bool_decide as E.
  - subst n. rewrite E. cbn. apply Z.eqb_refl.
  - apply Z.eqb_neq. intros H1%wrap_inj; [|lia|lia]. apply E. subst n. destruct (ready L); [done|].
    rewrite zlen_cons in H1. pose proof (zlen_nonneg l). lia.
Qed.

Lemma is_full_rep : is_full r = (n + m =? CAPACITY).
Proof. pose proof lens_small. unfold is_full. rewrite (rep_edit _ _ Hr), wrap_sub by lia. done. Qed.

Lemma editing_rep : negb (edit_index r =? write_index r) = negb (bool_decide (pending L = [])).
Proof.
  pose proof lens_small. rewrite (rep_edit _ _ Hr), (rep_write _ _ Hr). f_equal. case_bool_decide as E.
  - subst m. rewrite E. change (zlen []) with 0. rewrite Z.add_0_r. apply Z.eqb_refl.
  - apply Z.eqb_neq. intros H1%wrap_inj; [|fold n m; lia|fold n; lia]. apply E. destruct (pending L); [done|].
    rewrite zlen_cons in H1. pose proof (zlen_nonneg l). lia.
Qed.
End facts.

(** ** Simulation *)

(** A state whose reader is [r], reached from [s] by output only. *)
Definition echoes (s s' : Con) (r : Reader) (w : Z) : Prop := con_ok s' /\ rd s' = r /\ woken s' = w.

Lemma putb_ok b s : con_ok s -> exists s', putb b s = Ret (tt, s') /\ echoes s s' (rd s) (woken s).
Proof.
  intros Hok.
  assert (Hc : forall s1, con_ok s1 -> exists s2, (uart_putb b;; cga_putb b) s1 = Ret (tt, s2) /\ echoes s1 s2 (rd s1) (woken s1)).
  { intros s1 H1. unfold uart_putb. rewrite bind_modify. unfold cga_putb. cbn [cga]. unfold con_ok in H1.
    destruct (cga s1) as [c|] eqn:Ec; [|eexists; split; [done|]; by unfold echoes, con_ok].
    destruct (putb_screen b c H1) as (c' & Hr & Hs). rewrite Hr. eexists. split; [done|]. done. }
  unfold putb. destruct (b =? 10) eqn:E1; [|destruct (b =? BACKSPACE) eqn:E2].
  - exact (Hc (mkCon ((fun bs => bs ++ [13]) <$> uart s) (cga s) (rd s) (woken s) (dumps s)) Hok).
  - exact (Hc (mkCon ((fun bs => bs ++ [32]) <$> ((fun bs => bs ++ [b]) <$> uart s)) (cga s) (rd s) (woken s) (dumps s)) Hok).
  - exact (Hc s Hok).
Qed.

Lemma rep_drop r L : rep r L -> pending L <> [] ->
  rep (mkReader (rbuf r) (read_index r) (write_index r) (wrap 64 (edit_index r - 1)))
      (mkLine (ready L) (removelast (pending L))).
Proof.
  intros Hr Hne. destruct (lens_small r L Hr) as (Hn & Hm & Hs).
  destruct (exists_last Hne) as (p & x & E). rewrite E, removelast_last.
  assert (Hlen : zlen (pending L) = zlen p + 1) by (rewrite E, zlen_app; change (zlen [x]) with 1; lia).
  destruct Hr as [H1 H2 H3 H4 H5 H6]. split; cbn [rbuf read_index write_index edit_index ready pending]; try done.
  - rewrite H4. unfold Z.sub. rewrite wrap_add. f_equal. lia.
  - lia.
  - intros i Hi. rewrite <-H6 by lia. rewrite E, app_assoc. rewrite (znth_app_l (ready L ++ p) [x]); [done|]. rewrite zlen_app. lia.
Qed.

Lemma backspace_ok s L : rep (rd s) L -> con_ok s ->
  exists s', backspace s = Ret (tt, s') /\ rep (rd s') (mkLine (ready L) (removelast (pending L))) /\ con_ok s' /\
    woken s' = woken s.
Proof.
  intros Hr Hok. unfold backspace. rewrite bind_gets, (editing_rep _ _ Hr). case_bool_decide as E; cbn [negb].
  - exists s. split; [done|]. rewrite E. cbn. rewrite <-E. by destruct L.
  - unfold set_rd. rewrite bind_modify.
    set (s1 := mkCon _ _ _ _ _). destruct (putb_ok BACKSPACE s1) as (s' & Hp & H1 & H2 & H3); [done|].
    exists s'. split; [done|]. rewrite H2. split; [by apply rep_drop|]. by rewrite H3.
Qed.

Lemma kill_ok fuel : forall s L, rep (rd s) L -> con_ok s -> (length (pending L) <= fuel)%nat ->
  exists s', kill fuel s = Ret (tt, s') /\ rep (rd s') (mkLine (ready L) []) /\ con_ok s' /\ woken s' = woken s.
Proof.
  induction fuel as [|fuel IH]; intros s L Hr Hok Hf; cbn [kill]; rewrite bind_gets, (editing_rep _ _ Hr).
  - destruct (pending L) as [|x p] eqn:E; [|cbn in Hf; lia]. exists s. split; [done|].
    rewrite <-E. by destruct L.
  - case_bool_decide as E; cbn [negb]; [exists s; split; [done|]; rewrite <-E; by destruct L|].
    destruct (backspace_ok s L Hr Hok) as (s1 & H1 & H2 & H3 & H4). rewrite (bind_run _ _ _ _ _ H1).
    destruct (IH s1 _ H2 H3) as (s2 & ? & ? & ? & ?); [|exists s2; naive_solver congruence].
    cbn. destruct (exists_last E) as (p & x & E'). rewrite E', removelast_last. rewrite E', length_app in Hf. cbn in Hf. lia.
Qed.

Lemma rep_push r L b : rep r L -> zlen (ready L) + zlen (pending L) < CAPACITY ->
  rep (mkReader (rbuf r).[edit_index r mod CAPACITY <- b] (read_index r) (write_index r) (wrap 64 (edit_index r + 1)))
      (mkLine (ready L) (pending L ++ [b])).
Proof.
  intros Hr Hroom. destruct (lens_small r L Hr) as (Hn & Hm & Hs). destruct Hr as [H1 H2 H3 H4 H5 H6].
  assert (Hz : zlen (pending L ++ [b]) = zlen (pending L) + 1) by (rewrite zlen_app; change (zlen [b]) with 1; lia).
  assert (Hmod : 0 <= edit_index r mod CAPACITY < zlen (rbuf r)) by (rewrite H1; apply Z.mod_pos_bound; done).
  split; cbn [rbuf read_index write_index edit_index ready pending]; try done.
  - by rewrite zlen_zset.
  - rewrite H4, wrap_add, Hz. f_equal. lia.
  - lia.
  - intros i Hi. rewrite Hz in Hi. rewrite app_assoc, znth_zset by done. rewrite H4, wrap_mod_cap.
    destruct (decide (i = zlen (ready L) + zlen (pending L))) as [->|Hne].
    + rewrite decide_True by done. rewrite znth_app_r by (rewrite zlen_app; lia). rewrite zlen_app, Z.sub_diag. done.
    + rewrite decide_False by (intros E%mod_cap_inj; unfold CAPACITY in *; lia).
      rewrite znth_app_l by (rewrite zlen_app; lia). apply H6. lia.
Qed.

Lemma rep_finish r L : rep r L ->
  rep (mkReader (rbuf r) (read_index r) (edit_index r) (edit_index r)) (mkLine (ready L ++ pending L) []).
Proof.
  intros [H1 H2 H3 H4 H5 H6]. split; cbn [rbuf read_index write_index edit_index ready pending]; try done.
  - rewrite H4, zlen_app. done.
  - rewrite H4, zlen_app. change (zlen []) with 0. f_equal. lia.
  - rewrite zlen_app. change (zlen []) with 0. lia.
  - intros i Hi. rewrite app_nil_r. apply H6. rewrite zlen_app in Hi. change (zlen []) with 0 in Hi. lia.
Qed.

Lemma put_ok b s L : rep (rd s) L -> con_ok s ->
  exists s', put b s = Ret ((spec_put b L).1, s') /\ rep (rd s') (spec_put b L).2 /\ con_ok s' /\
    woken s' = woken s + (if bool_decide (ready (spec_put b L).2 = ready L) then 0 else 1).
Proof.
  intros Hr Hok. unfold put, spec_put.
  destruct ((b =? BACKSPACE) || (b =? DELETE)).
  { destruct (backspace_ok s L Hr Hok) as (s1 & H1 & H2 & H3 & H4). rewrite (bind_run _ _ _ _ _ H1), bind_gets.
    rewrite (len_rep _ _ H2). exists s1. split; [done|]. split; [done|]. split; [done|].
    cbn. rewrite bool_decide_eq_true_2 by done. lia. }
  destruct (b =? CTLP).
  { unfold dump. rewrite bind_modify, bind_gets. cbn [rd]. rewrite (len_rep _ _ Hr). eexists. split; [done|].
    cbn. rewrite bool_decide_eq_true_2 by done. split; [done|]. split; [done|lia]. }
  destruct (b =? CTLU).
  { destruct (kill_ok (Z.to_nat CAPACITY) s L Hr Hok) as (s1 & H1 & H2 & H3 & H4).
    { destruct (lens_small _ _ Hr) as (? & ? & ?). unfold CAPACITY, zlen in *. lia. }
    rewrite (bind_run _ _ _ _ _ H1), bind_gets, (len_rep _ _ H2). exists s1. split; [done|]. split; [done|].
    split; [done|]. cbn. rewrite bool_decide_eq_true_2 by done. lia. }
  rewrite bind_gets, (is_full_rep _ _ Hr). destruct (_ =? CAPACITY) eqn:Hfull; bool_to_prop.
  { exists s. split; [done|]. cbn. rewrite bool_decide_eq_true_2 by done. split; [done|]. split; [done|lia]. }
  pose proof (rep_room _ _ Hr) as Hroom. set (b' := if b =? 13 then 10 else b).
  pose proof (rep_push (rd s) L b' Hr ltac:(lia)) as Hr1. set (L1 := mkLine (ready L) (pending L ++ [b'])) in *.
  unfold set_rd. rewrite bind_modify. set (s1 := mkCon _ _ _ _ _).
  destruct (putb_ok b' s1) as (s2 & Hp & H1 & H2 & H3); [done|]. rewrite (bind_run _ _ _ _ _ Hp), bind_gets, H2.
  assert (Hcond : (edit_index (rd s1) =? wrap 64 (read_index (rd s1) + CAPACITY)) = (zlen (ready L ++ pending L ++ [b']) =? CAPACITY)).
  { change (rd s1) with (mkReader (rbuf (rd s)).[edit_index (rd s) mod CAPACITY <- b'] (read_index (rd s)) (write_index (rd s)) (wrap 64 (edit_index (rd s) + 1))) in *.
    rewrite (rep_edit _ _ Hr1), zlen_app. cbn [ready pending L1 read_index].
    destruct (lens_small _ _ Hr1) as (Hn & Hm & Hs). cbn [ready pending L1] in Hn, Hm, Hs.
    apply eq_true_iff_eq. rewrite !Z.eqb_eq. split; [intros E%wrap_inj; unfold CAPACITY in *; lia|]. intros ->. done. }
  change (edit_index (mkReader _ _ _ _)) with (edit_index (rd s1)). rewrite Hcond.
  fold (finishes b' (zlen (ready L ++ pending L ++ [b']))). destruct (finishes _ _); cbn [fst snd].
  - unfold set_rd, wakeup_reader. unfold mbind at 1, M_bind at 1. rewrite bind_modify. cbn -[len].
    eexists. split; [|split; [|split]].
    + exact (f_equal (fun x => Ret (Ok x, _)) (len_rep _ _ (rep_finish _ _ Hr1))).
    + exact (rep_finish _ _ Hr1).
    + done.
    + cbn. rewrite H3, bool_decide_eq_false_2; [done|]. intros E%(f_equal zlen).
      rewrite !zlen_app in E. change (zlen [b']) with 1 in E. pose proof (zlen_nonneg (pending L)). lia.
  - rewrite bind_mret, bind_gets, H2. exists s2. split; [exact (f_equal (fun x => Ret (Ok x, s2)) (len_rep _ _ Hr1))|]. rewrite H2. split; [done|].
    split; [done|]. cbn. rewrite bool_decide_eq_true_2 by done. rewrite H3. cbn. lia.
Qed.

Lemma rep_pop r b bs p : rep r (mkLine (b :: bs) p) ->
  rep (mkReader (rbuf r) (wrap 64 (read_index r + 1)) (write_index r) (edit_index r)) (mkLine bs p).
Proof.
  intros Hr. destruct (lens_small _ _ Hr) as (Hn & Hm & Hs). destruct Hr as [H1 H2 H3 H4 H5 H6].
  cbn [ready pending] in *. rewrite zlen_cons in *. pose proof (zlen_nonneg bs).
  split; cbn [rbuf read_index write_index edit_index ready pending]; try done.
  - unfold uN, wrap. apply Z.mod_pos_bound. lia.
  - by rewrite H3, wrap_add.
  - rewrite H4, wrap_add. f_equal. lia.
  - lia.
  - intros i Hi. specialize (H6 (1 + i) ltac:(lia)).
    change ((b :: bs) ++ p) with ([b] ++ (bs ++ p)) in H6. rewrite znth_app_r in H6 by (change (zlen [b]) with 1; lia).
    change (zlen [b]) with 1 in H6. replace (1 + i - 1) with i in H6 by lia. rewrite H6. f_equal.
    rewrite <-(wrap_mod_cap (wrap 64 (read_index r + 1) + i)), wrap_add, wrap_mod_cap. done.
Qed.

Lemma get_ok s L : rep (rd s) L ->
  exists s', get s = Ret ((spec_get L).1, s') /\ rep (rd s') (spec_get L).2 /\ (con_ok s -> con_ok s').
Proof.
  intros Hr. unfold get, peek, try_. unfold mbind at 1, M_bind at 1. rewrite bind_gets, (is_empty_rep _ _ Hr).
  unfold spec_get. destruct L as [[|b bs] p] eqn:EL; cbn [ready pending].
  - rewrite bool_decide_eq_true_2 by done. cbn. exists s. done.
  - rewrite bool_decide_eq_false_2 by done.
    pose proof (rep_bytes _ _ Hr 0) as Hb. cbn [ready pending] in Hb. rewrite zlen_cons in Hb.
    rewrite Z.add_0_r in Hb. pose proof (zlen_nonneg bs). pose proof (zlen_nonneg p).
    rewrite <-Hb by lia. cbn. eexists. split; [done|]. split; [exact (rep_pop _ _ _ _ Hr)|done].
Qed.

(** ** Any sequence of input bytes and reads *)
Inductive op := Put (b : Z) | Get.

Fixpoint run_ops (os : list op) : M Con (list (result Z)) :=
  match os with
  | [] => mret []
  | o :: os' =>
    r ← match o with Put b => put b | Get => get end;
    rs ← run_ops os';
    mret (r :: rs)
  end.

Fixpoint spec_ops (os : list op) (L : Line) : list (result Z) * Line :=
  match os with
  | [] => ([], L)
  | o :: os' =>
    let (r, L1) := match o with Put b => spec_put b L | Get => spec_get L end in
    let (rs, L2) := spec_ops os' L1 in (r :: rs, L2)
  end.

Lemma run_ops_ok os : forall s L, rep (rd s) L -> con_ok s ->
  exists s', run_ops os s = Ret ((spec_ops os L).1, s') /\ rep (rd s') (spec_ops os L).2 /\ con_ok s'.
Proof.
  induction os as [|o os IH]; intros s L Hr Hok; cbn [run_ops spec_ops]; [by exists s|].
  assert (Hstep : exists s1, match o with Put b => put b | Get => get end s =
      Ret ((match o with Put b => spec_put b L | Get => spec_get L end).1, s1) /\
      rep (rd s1) (match o with Put b => spec_put b L | Get => spec_get L end).2 /\ con_ok s1).
  { destruct o as [b|].
    - destruct (put_ok b s L Hr Hok) as (s1 & ? & ? & ? & _). eauto.
    - destruct (get_ok s L Hr) as (s1 & ? & ? & ?). eauto. }
  destruct Hstep as (s1 & H1 & H2 & H3). rewrite (bind_run _ _ _ _ _ H1).
  destruct (match o with Put b => spec_put b L | Get => spec_get L end) as [r L1]. cbn [fst snd] in *.
  destruct (IH s1 L1 H2 H3) as (s2 & H4 & H5 & H6). rewrite (bind_run _ _ _ _ _ H4).
  destruct (spec_ops os L1) as [rs L2]. exists s2. done.
Qed.

(** C35: The line discipline.  Whatever has been typed and read, on any
    sequence of input bytes and reads the console's buffer answers as a queue
    of finished input and a line under edit: erase removes the last byte of
    the line and nothing that was finished, kill removes the line, a full
    buffer refuses input, a newline, an end of file or the last free byte
    finishes the line, and a read takes the oldest finished byte; none of
    this panics, although the indices wrap. *)
Theorem console_line_discipline s L os :
  rep (rd s) L -> con_ok s ->
  exists s', run_ops os s = Ret ((spec_ops os L).1, s') /\ rep (rd s') (spec_ops os L).2.
Proof. intros Hr Hok. destruct (run_ops_ok os s L Hr Hok) as (s' & ? & ? & _). eauto. Qed.

(** At boot the buffer is empty.  Typing [ab], erase, [c], return and reading
    three bytes gives [ac] and a newline. *)
Lemma boot_rep : rep (rd Con_new) (mkLine [] []).
Proof. split; try done. intros i Hi. change (0 <= i < 0) in Hi. lia. Qed.

Lemma boot_ok : con_ok Con_new.
Proof.
  unfold con_ok, Con_new, on_screen, DISPLAY_HEIGHT, DISPLAY_WIDTH. cbn [cga line column buffer].
  split; [lia|]. split; [lia|reflexivity].
Qed.

Lemma console_line_discipline_witness :
  exists s', run_ops [Put 97; Put 98; Put 8; Put 99; Put 13; Get; Get; Get; Get] Con_new =
    Ret ([Ok 0; Ok 0; Ok 0; Ok 0; Ok 3; Ok 97; Ok 99; Ok 10; Err "console underflow"], s').
Proof.
  destruct (console_line_discipline Con_new (mkLine [] []) [Put 97; Put 98; Put 8; Put 99; Put 13; Get; Get; Get; Get])
    as (s' & H & _); [apply boot_rep|apply boot_ok|].
  exists s'. exact H.
Defined.
