(* ===== verification/Sysfile.v ===== *)
(** System calls: [sysfile.rs] and the dispatch of [syscall.rs], over the
    processes, the open files, the file system, the pipes, the console, user
    memory and the clock. *)
From stdpp Require Import base list gmap strings.
From Stdlib Require Import ZArith Lia.
From S2P Require Import Prelude.
From S2P Require Import Arch.
From S2P Require Import BlockLayer.
From S2P Require Import Fslog.
From S2P Require Import FsLayout.
From S2P Require Import Fs.
From S2P Require Import FsDir.
From S2P Require Import Kalloc.
From S2P Require Import Vm.
From S2P Require Import UserMem.
From S2P Require Import Pipe.
From S2P Require Import FileTable.
From S2P Require Import Console.
From S2P Require Import Exec.
From S2P Require Import Proc.
From S2P Require Import Trap.

(** ** The objects behind open files, the implementations of [Like]: an inode,
    the two ends of pipe [k] of slab [a], the console *)
Inductive Like := LInode (ip : Z) | LReader (a k : Z) | LWriter (a k : Z) | LConsole.

Definition CONSOLE_MAJOR : Z := 0.

(** What the system calls use besides the processes and the clock. *)
Record World (S : Type) := mkWorld {
  w_files : list (@File Like); w_mem : FreeList; w_fs : Fs S;
  w_slabs : gmap Z PipeSlab; w_cur : option Z; w_con : Con }.
Arguments mkWorld {S} _ _ _ _ _ _.
Arguments w_files {S} _.
Arguments w_mem {S} _.
Arguments w_fs {S} _.
Arguments w_slabs {S} _.
Arguments w_cur {S} _.
Arguments w_con {S} _.

(** A call that sleeps, by what it goes on with: reading into [len] bytes at
    [addr] from file [f]; reading from the console after [n] bytes; writing
    the rest [buf] to file [f] after [n] bytes; waiting for a child; sleeping
    on the clock. *)
Inductive blocked :=
| BRead (f addr len : Z)
| BConsole (addr n room : Z)
| BWrite (f n : Z) (buf : list Z)
| BWait (status_ptr : Z)
| BTicks (ticks0 nticks : Z).

(** ** Flags of [open] *)
Definition O_CREATE : Z := 0x200.
Definition parse_flags (flags : Z) : result (OpenFlags * bool) :=
  let create := Z.land flags O_CREATE =? O_CREATE in
  let mode := Z.land flags (lnotw 64 O_CREATE) in
  if mode =? 0 then Ok (OfRead, create)
  else if mode =? 1 then Ok (OfWrite, create)
  else if mode =? 2 then Ok (OfReadWrite, create)
  else Err "bad open mode".

Section sys.
Context {S : Type} `{BlockOps S}.
(** Where processes and the channels of pipes and of the console lie, the
    kernel's page table, the pipes a slab has room for, and the four bytes of
    padding in a [Stat]. *)
Context (proc_addr : Z -> Z) (tickchan kpgtbl SLAB_NPIPES : Z).
Context (read_chan write_chan : Z -> Z -> Z) (cons_chan : Z) (stat_pad : list Z).

Definition Sys : Type := Trap Z (World S).
Notation T := (M Sys).

Definition put_world (f : World S -> World S) (s : Sys) : Sys := mkTrap (TICKS s) (tr_tab s) (f (tr_dev s)).
Definition in_files {A} (m : M (list (@File Like)) A) : T A :=
  zoom (fun s => w_files (tr_dev s))
    (fun x => put_world (fun w => mkWorld x (w_mem w) (w_fs w) (w_slabs w) (w_cur w) (w_con w))) m.
Definition in_mem {A} (m : M FreeList A) : T A :=
  zoom (fun s => w_mem (tr_dev s))
    (fun x => put_world (fun w => mkWorld (w_files w) x (w_fs w) (w_slabs w) (w_cur w) (w_con w))) m.
Definition in_con {A} (m : M Con A) : T A :=
  zoom (fun s => w_con (tr_dev s))
    (fun x => put_world (fun w => mkWorld (w_files w) (w_mem w) (w_fs w) (w_slabs w) (w_cur w) x)) m.
Definition in_pipes {A} (m : M PipeMem A) : T A :=
  zoom (fun s => mkPipeMem (w_mem (tr_dev s)) (w_slabs (tr_dev s)) (w_cur (tr_dev s)))
    (fun x => put_world (fun w => mkWorld (w_files w) (pm_free x) (w_fs w) (pm_slabs x) (pm_cur x) (w_con w))) m.
(** A step on pipe [k] of slab [a]. *)
Definition in_pipe {A} (a k : Z) (m : M Pipe A) : T A :=
  in_pipes (
    sl ← slab_at a;
    p ← expect (spipes sl !! k) "dangling pipe";
    r ← lift (m p);
    put_slab a (mkPipeSlab (bitmap sl) (<[k := snd r]> (spipes sl)) (sdata sl));;
    mret (fst r)).

(** The running process. *)
Definition this (me : Z) : T (Proc Z) := on_tab (proc_at me).
Definition root_of (me : Z) : T Z := p ← this me; expect (pgtbl p) "pgtbl".

(** The file system, for process [me]: its pid and its directory. *)
Definition in_fs {A} (me : Z) (m : M (Fs S) A) : T A :=
  p ← this me;
  zoom (fun s => let f := w_fs (tr_dev s) in mkFs (fs_log f) (fs_icache f) (fs_sb f) (pid p) (default (-1) (cwd p)))
    (fun x => put_world (fun w => mkWorld (w_files w) (w_mem w) x (w_slabs w) (w_cur w) (w_con w))) m.
Definition in_ex {A} (me : Z) (m : M (Ex S) A) : T A :=
  p ← this me;
  zoom (fun s => let f := w_fs (tr_dev s) in
          mkEx (w_mem (tr_dev s)) (mkFs (fs_log f) (fs_icache f) (fs_sb f) (pid p) (default (-1) (cwd p))))
    (fun x => put_world (fun w => mkWorld (w_files w) (ex_mem x) (ex_fs x) (w_slabs w) (w_cur w) (w_con w))) m.

Definition sys_with_op {A} (me : Z) (thunk : T A) : T A :=
  in_fs me (zoom fs_log put_log op_begin);;
  r ← thunk;
  in_fs me (zoom fs_log put_log op_end);;
  mret r.

(** ** User memory

    The kernel reads and writes it where the process's table maps it.  A byte
    that is not mapped, or not writable when written, is a page fault in the
    kernel, which panics. *)
Definition mem_of (me : Z) : T (Z -> option Z) :=
  root ← root_of me; fl ← gets (fun s => w_mem (tr_dev s)); mret (user_byte fl root).

Definition user_load (me a n : Z) : T (list Z) :=
  mem ← mem_of me; expect (mapM mem (zrange a (a + n))) "page fault".

Fixpoint store_bytes (root a : Z) (bs : list Z) : M FreeList unit :=
  match bs with
  | [] => mret tt
  | b :: bs' =>
    o ← entry_for root a;
    e ← expect o "page fault";
    assert_ (Vm.is_present e && (Z.land e WRITE =? WRITE)) "page fault";;
    pg ← page_at (virt_page_addr e);
    write_page (virt_page_addr e) pg.[a mod PAGE_SIZE <- b];;
    store_bytes root (a + 1) bs'
  end.
Definition user_store (me a : Z) (bs : list Z) : T unit := root ← root_of me; in_mem (store_bytes root a bs).

(** The fetches; a string is read up to its end and no further. *)
Definition fetch_str (me off : Z) : T (option (list Z)) :=
  p ← this me;
  mem ← mem_of me;
  match Proc.fetch_str p (fun x => default 0 (mem x)) off with
  | Some str => user_load me off (zlen str + 1);; mret (Some str)
  | None =>
    match user_region_end p off with
    | Some rend => user_load me off (rend - off);; mret None
    | None => mret None
    end
  end.
Definition fetch_usize (me off : Z) : T (option Z) :=
  p ← this me;
  mem ← mem_of me;
  match Proc.fetch_usize p (fun x => default 0 (mem x)) off with
  | Some v => user_load me off 8;; mret (Some v)
  | None => mret None
  end.
Definition fetch_slice (me a len : Z) : T (option Z) :=
  p ← this me; mret (fst <$> Proc.fetch_slice p a len).

(** ** Files *)
Definition wake (chan : Z) : T unit := on_tab (Proc.wakeup chan).

(** [Like::close]. *)
Definition like_close (me : Z) (l : Like) : T unit :=
  match l with
  | LInode ip => in_fs me (inode_close ip)
  | LReader a k =>
    closed ← in_pipe a k PipeReader_close;
    wake (write_chan a k);;
    if closed : bool then in_pipes (pipe_dealloc SLAB_NPIPES a k) else mret tt
  | LWriter a k =>
    closed ← in_pipe a k PipeWriter_close;
    wake (read_chan a k);;
    if closed : bool then in_pipes (pipe_dealloc SLAB_NPIPES a k) else mret tt
  | LConsole => mret tt
  end.
(** [File::close], and the drop of an active [file::Guard]. *)
Definition file_close (me f : Z) : T unit :=
  o ← in_files (FileTable.close f);
  match o with Some l => like_close me l | None => mret tt end.

(** [Console::stat]: a device, and nothing more. *)
Definition console_stat : result Stat := Ok (mkStat FtDev 0 0 0 0).
(** [File::stat]. *)
Definition file_stat (me f : Z) : T (result Stat) :=
  x ← in_files (file_at f);
  l ← expect (f_fp x) "stat nil file";
  match l with
  | LInode ip => in_fs me (inode_stat ip)
  | LReader _ _ | LWriter _ _ => mret (Err "cannot stat")
  | LConsole => mret console_stat
  end.

(** [File::read] into [len] bytes at [addr]: the number of bytes read.  What
    the object gives is stored when it is complete, or when the call sleeps. *)
Definition read_pipe (me f a k addr len : Z) : T (progress (result Z) blocked) :=
  p ← this me;
  r ← in_pipe a k (PipeReader_read (killed p) (Z.to_nat len));
  match r with
  | Sleep _ => on_tab (Proc.sleep me (read_chan a k));; mret (Sleep (BRead f addr len))
  | Done (Err e) => mret (Done (Err e))
  | Done (Ok bs) => user_store me addr bs;; wake (write_chan a k);; mret (Done (Ok (zlen bs)))
  end.
Definition read_console (me addr n room : Z) : T (progress (result Z) blocked) :=
  p ← this me;
  r ← in_con (console_read (killed p) [] (Z.to_nat room));
  match r with
  | Sleep (bs, room') =>
    user_store me (addr + n) bs;;
    on_tab (Proc.sleep me cons_chan);;
    mret (Sleep (BConsole addr (n + zlen bs) (Z.of_nat room')))
  | Done (bs, Err e) => user_store me (addr + n) bs;; mret (Done (Err e))
  | Done (bs, Ok _) => user_store me (addr + n) bs;; mret (Done (Ok (n + zlen bs)))
  end.
Definition file_read (me f addr len : Z) : T (progress (result Z) blocked) :=
  x ← in_files (file_at f);
  if negb (FileTable.readable x) then mret (Done (Err "file not readable")) else
  l ← expect (f_fp x) "read nil file";
  match l with
  | LInode ip =>
    r ← in_fs me (inode_read ip len (f_off x));
    match fst r with
    | Ok bs => user_store me addr bs;; in_files (inc_off (zlen bs) f);; mret (Done (Ok (zlen bs)))
    | Err e => mret (Done (Err e))
    end
  | LReader a k => read_pipe me f a k addr len
  | LWriter _ _ => mret (Done (Err "unimplemented"))
  | LConsole => read_console me addr 0 len
  end.

(** [File::write] of [buf], of which [n] bytes are written already. *)
Definition write_pipe (me f a k n : Z) (buf : list Z) : T (progress (result Z) blocked) :=
  r ← in_pipe a k (PipeWriter_write n buf);
  match r with
  | Sleep (n', rest) =>
    wake (read_chan a k);;
    on_tab (Proc.sleep me (write_chan a k));;
    mret (Sleep (BWrite f n' rest))
  | Done (Err e) => mret (Done (Err e))
  | Done (Ok n') => wake (read_chan a k);; mret (Done (Ok n'))
  end.
Definition file_write (me f : Z) (buf : list Z) : T (progress (result Z) blocked) :=
  x ← in_files (file_at f);
  if negb (FileTable.writable x) then mret (Done (Err "file not writable")) else
  l ← expect (f_fp x) "write nil file";
  match l with
  | LInode ip =>
    r ← in_fs me (inode_write ip buf (f_off x));
    in_files (inc_off (snd r - f_off x) f);;
    mret (Done (fst r))
  | LReader _ _ => mret (Done (Err "unimplemented"))
  | LWriter a k => write_pipe me f a k 0 buf
  | LConsole => r ← in_con (console_write buf); mret (Done r)
  end.

(** ** [sysfile.rs] *)
Definition devsw (major : Z) : result Like :=
  if major =? CONSOLE_MAJOR then Ok LConsole else Err "bad device major number".

(** Descriptors of the running process. *)
Definition with_proc {A} (me : Z) (f : Proc Z -> A * Proc Z) : T A :=
  p ← this me; on_tab (upd_proc me (fun _ => snd (f p)));; mret (fst (f p)).
Definition get_fd (me fd : Z) : T (option Z) := p ← this me; mret (Proc.get_fd fd p).
Definition alloc_fd (me f : Z) : T (option Z) := with_proc me (Proc.alloc_fd f).
Definition free_fd (me fd : Z) : T (option Z) := with_proc me (Proc.free_fd fd).

(** What [open] opens: the inode, or the device it names. *)
Definition open_like (me ip : Z) (mode : OpenFlags) : T (result Like) :=
  t ← in_fs me (ityp ip);
  i ← in_fs me (inode_at ip);
  match t with
  | FtDir => mret (if bool_decide (mode = OfRead) then Ok (LInode ip) else Err "open writeable dir")
  | FtFile => mret (Ok (LInode ip))
  | FtDev => mret (devsw (di_major (i_din i)))
  | FtUnused => mret (Err "opening file type none")
  end.

(** From the locked inode on: the file, its descriptor, and the drops of the
    guards on the error paths. *)
Definition open_locked (me ip : Z) (mode : OpenFlags) : T (result Z) :=
  like ← open_like me ip mode;
  match like with
  | Err e => in_fs me (drop_guard true ip);; mret (Err e)
  | Ok l =>
    o ← in_files (FileTable.alloc mode l);
    match o with
    | None => in_fs me (drop_guard true ip);; mret (Err "cannot allocate file")
    | Some f =>
      fd ← alloc_fd me f;
      match fd with
      | None =>
        file_close me f;;
        in_fs me (drop_guard true ip);;
        mret (Err "cannot allocate file descriptor")
      | Some fd => in_fs me (iunlock ip);; mret (Ok fd)
      end
    end
  end.

Definition open_inode (me : Z) (path : list Z) (create_ : bool) : T (result Z) :=
  if create_ then in_fs me (create path CFile)
  else ip <-? in_fs me (namei path);; in_fs me (ilock ip);; mret (Ok ip).

Definition open (me path_ptr flags : Z) : T (result Z) :=
  o ← fetch_str me path_ptr;
  path <-? mret (ok_or o "bad path");;
  mc <-? mret (parse_flags flags);;
  sys_with_op me (
    ip <-? open_inode me path (snd mc);;
    open_locked me ip (fst mc)).

Definition close (me fd : Z) : T (result unit) :=
  o ← free_fd me fd;
  match o with
  | Some f => file_close me f;; mret (Ok tt)
  | None => mret (Err "bad file descriptor")
  end.

Definition write (me fd addr len : Z) : T (progress (result Z) blocked) :=
  o ← get_fd me fd;
  match o with
  | None => mret (Done (Err "bad file"))
  | Some f =>
    b ← fetch_slice me addr len;
    match b with
    | None => mret (Done (Err "bad pointer"))
    | Some a => buf ← user_load me a len; file_write me f buf
    end
  end.

Definition read (me fd addr len : Z) : T (progress (result Z) blocked) :=
  o ← get_fd me fd;
  match o with
  | None => mret (Done (Err "bad file"))
  | Some f =>
    b ← fetch_slice me addr len;
    match b with
    | None => mret (Done (Err "bad pointer"))
    | Some a => file_read me f a len
    end
  end.

(** The argument vector: at most [MAXARG] strings, up to a null pointer.  The
    pointer after the last is fetched even if there is no room for it. *)
Fixpoint fetch_args (room : nat) (me uargp : Z) : T (result (list (list Z))) :=
  o ← fetch_usize me uargp;
  ptr <-? mret (ok_or o "bad argv");;
  match room with
  | O => mret (Ok [])
  | Datatypes.S room' =>
    if ptr =? 0 then mret (Ok []) else
    o ← fetch_str me ptr;
    arg <-? mret (ok_or o "bad argument");;
    next ← lift (add_ovf 64 uargp 8);
    rest <-? fetch_args room' me next;;
    mret (Ok (arg :: rest))
  end.

Definition exec (me path_ptr args_ptr : Z) : T (result UserContext) :=
  o ← fetch_str me path_ptr;
  path <-? mret (ok_or o "bad path");;
  args <-? fetch_args (Z.to_nat MAXARG) me args_ptr;;
  p ← this me;
  r <-? in_ex me (Exec.exec kpgtbl p path args);;
  on_tab (upd_proc me (fun _ => fst r));;
  mret (Ok (snd r)).

Definition Stat_bytes (st : Stat) : list Z :=
  le_bytes 4 (FileType_val (st_typ st)) ++ le_bytes 4 (st_dev st) ++ le_bytes 8 (st_ino st) ++
  le_bytes 4 (st_nlink st) ++ stat_pad ++ le_bytes 8 (st_size st).
Definition STAT_SIZE : Z := 32.

Definition stat (me fd addr : Z) : T (result unit) :=
  o ← get_fd me fd;
  f <-? mret (ok_or o "bad file");;
  sb <-? file_stat me f;;
  b ← fetch_slice me addr STAT_SIZE;
  a <-? mret (ok_or b "bad pointer");;
  user_store me a (Stat_bytes sb);;
  mret (Ok tt).

(** ** Calls on names; what they do inside their transaction *)
Definition link_undo (ip : Z) (m : string) : M (Fs S) (result unit) :=
  with_putlock ip (nlink_dec ip;; update ip;; mret (Err m)).
Definition link_name (ip : Z) (new_name : list Z) : M (Fs S) (result unit) :=
  i ← inode_at ip;
  iunlock ip;;
  dn <-? namei_parent new_name;;
  let (dp, name) := dn : Z * list Z in
  ilock dp;;
  d ← inode_at dp;
  if negb (i_dev d =? i_dev i) then
    r ← link_undo ip "cross-device link"; drop_guard true dp;; mret r
  else
    l ← dir_link dp name (i_inum i);
    match l with
    | Err e => r ← link_undo ip e; drop_guard true dp;; mret r
    | Ok _ => drop_guard true dp;; iput ip
    end.
Definition link_body (path new_name : list Z) : M (Fs S) (result unit) :=
  ip <-? namei path;;
  ilock ip;;
  t ← ityp ip;
  if bool_decide (t = FtDir) then drop_guard true ip;; mret (Err "link dir") else
  nlink_inc ip;;
  u ← update ip;
  match u with
  | Err e => drop_guard true ip;; mret (Err e)
  | Ok _ => link_name ip new_name
  end.
Definition link (me path_ptr new_path_ptr : Z) : T (result unit) :=
  o ← fetch_str me path_ptr;
  path <-? mret (ok_or o "bad path");;
  o ← fetch_str me new_path_ptr;
  new_name <-? mret (ok_or o "bad new path");;
  in_fs me (fs_with_op (link_body path new_name)).

Definition unlink_body (path : list Z) : M (Fs S) (result unit) :=
  dn <-? namei_parent path;;
  let (dp, name) := dn : Z * list Z in
  if bool_decide (name = DOT) || bool_decide (name = DOTDOT) then mret (Err "unlink . or ..")
  else dir_unlink dp name.
Definition unlink (me path_ptr : Z) : T (result unit) :=
  o ← fetch_str me path_ptr;
  path <-? mret (ok_or o "bad path");;
  in_fs me (fs_with_op (unlink_body path)).

Definition make_body (path : list Z) (typ : CreateType) : M (Fs S) (result unit) :=
  ip <-? create path typ;; unlock_put ip.
Definition mkdir (me path_ptr : Z) : T (result unit) :=
  o ← fetch_str me path_ptr;
  path <-? mret (ok_or o "bad path");;
  in_fs me (fs_with_op (make_body path CDir)).
Definition mknod (me path_ptr major minor : Z) : T (result unit) :=
  o ← fetch_str me path_ptr;
  path <-? mret (ok_or o "bad path");;
  in_fs me (fs_with_op (make_body path (CDev major minor))).

(** The directory [chdir] changes to; the old one is put back. *)
Definition chdir_body (path : list Z) : M (Fs S) (result Z) :=
  ip <-? namei path;;
  ilock ip;;
  t ← ityp ip;
  if negb (bool_decide (t = FtDir)) then drop_guard true ip;; mret (Err "chdir to non-directory") else
  iunlock ip;;
  old ← gets fs_cwd;
  iput old;;
  mret (Ok ip).
Definition chdir (me path_ptr : Z) : T (result unit) :=
  o ← fetch_str me path_ptr;
  path <-? mret (ok_or o "bad path");;
  ip <-? in_fs me (fs_with_op (chdir_body path));;
  on_tab (upd_proc me (set_cwd ip));;
  mret (Ok tt).

(** [firstret]: the first process brings up the file system and starts in its
    root directory.  The lock of the process table, which [firstret] gives up
    first, is not part of the state: each access to the table is one section. *)
Definition firstret (me : Z) : T Z :=
  ip ← in_fs me firstret_fs;
  on_tab (upd_proc me (set_cwd ip));;
  mret 0.

Definition dup (me fd : Z) : T (result Z) :=
  o ← get_fd me fd;
  f <-? mret (ok_or o "bad file");;
  o ← alloc_fd me f;
  fd' <-? mret (ok_or o "cannot allocate file descriptor");;
  in_files (FileTable.dup f);;
  mret (Ok fd').

(** [pipe::alloc]: the two files, the guards' drops on the error paths. *)
Definition pipe_files (me : Z) : T (result (Z * Z)) :=
  ak <-? in_pipes (pipe_alloc SLAB_NPIPES);;
  let (a, k) := ak : Z * Z in
  r ← in_files (FileTable.alloc OfRead (LReader a k));
  match r with
  | None =>
    like_close me (LWriter a k);; like_close me (LReader a k);;
    mret (Err "pipe read file alloc failed")
  | Some r =>
    w ← in_files (FileTable.alloc OfWrite (LWriter a k));
    match w with
    | None =>
      file_close me r;; like_close me (LWriter a k);;
      mret (Err "pipe write file alloc failed")
    | Some w => mret (Ok (r, w))
    end
  end.

Definition pipe_fds (me r w : Z) : T (result (Z * Z)) :=
  o ← alloc_fd me r;
  match o with
  | None =>
    file_close me w;; file_close me r;;
    mret (Err "cannot allocate pipe read descriptor")
  | Some rfd =>
    o ← alloc_fd me w;
    match o with
    | None =>
      free_fd me rfd;;
      file_close me w;; file_close me r;;
      mret (Err "cannot allocate pipe write descriptor")
    | Some wfd => mret (Ok (rfd, wfd))
    end
  end.
Definition pipe (me fd_ptr : Z) : T (result unit) :=
  p ← this me;
  o ← lift (fetch_ptr_mut p 4 fd_ptr 2);
  a <-? mret (ok_or o "bad pipe pointer");;
  rw <-? pipe_files me;;
  fds <-? pipe_fds me (fst rw) (snd rw);;
  user_store me a (le_bytes 4 (fst fds) ++ le_bytes 4 (snd fds));;
  mret (Ok tt).

(** ** Processes *)

(** [fork]: a stack, a slot, a copy of the page table, and one more reference
    to every open file and to the directory. *)
Fixpoint dup_files (fs : list (option Z)) : T unit :=
  match fs with
  | [] => mret tt
  | None :: fs' => dup_files fs'
  | Some f :: fs' => in_files (FileTable.dup f);; dup_files fs'
  end.
Definition fork (me : Z) : T (option Z) :=
  p ← this me;
  stack ← in_mem Kalloc.alloc;
  slot ← gets (fun s => position (fun q => bool_decide (state q = UNUSED)) (procs (tr_tab s)));
  pt ← (if bool_decide (is_Some stack) && bool_decide (is_Some slot)
        then root ← root_of me; in_mem (Vm.dup root (psize p)) else mret None);
  r ← on_tab (Proc.fork proc_addr me stack pt);
  (match snd r with Some stk => in_mem (Kalloc.free stk) | None => mret tt end);;
  match fst r with
  | None => mret None
  | Some n => dup_files (files p);; in_fs me (c ← gets fs_cwd; Fs.dup c);; mret (Some n)
  end.

(** [exit]: every file is closed and the directory put back before the
    process becomes a zombie. *)
Fixpoint close_files (me : Z) (fs : list (option Z)) : T unit :=
  match fs with
  | [] => mret tt
  | None :: fs' => close_files me fs'
  | Some f :: fs' => file_close me f;; close_files me fs'
  end.
Definition exit (me status : Z) : T unit :=
  t ← gets tr_tab;
  assert_ (0 <=? init_slot t) "assertion failed: INIT_PROC";;
  assert_ (negb (me =? init_slot t)) "init exiting";;
  p ← this me;
  close_files me (files p);;
  in_fs me (fs_with_op (
    wd ← expect (cwd p) "called `Option::unwrap()` on a `None` value";
    expect_r (iput wd) "iput cwd"));;
  on_tab (Proc.exit_table proc_addr me status);;
  mret tt.

(** One pass of [wait]. *)
Definition wait_round (me status_ptr : Z) : T (progress (option Z) blocked) :=
  r ← on_tab (wait1 proc_addr me);
  match r with
  | NoKids => mret (Done None)
  | MustSleep => mret (Sleep (BWait status_ptr))
  | Reaped n status stk pt =>
    in_mem (Kalloc.free stk);;
    in_mem (vm_free pt);;
    (if wait_stores_status status_ptr then user_store me status_ptr (le_bytes 4 (wrap 32 status)) else mret tt);;
    mret (Done (Some n))
  end.
Definition wait (me status_ptr : Z) : T (progress (option Z) blocked) :=
  p ← this me;
  o ← lift (fetch_ptr_mut p 4 status_ptr 1);
  match o with
  | None => mret (Done None)
  | Some _ => wait_round me status_ptr
  end.

(** [adjsize]: the page table is resized if the sizes make sense. *)
Definition sbrk (me delta : Z) : T (result Z) :=
  p ← this me;
  root ← root_of me;
  let old := psize p in
  let new := wrap 64 (old + delta) in
  r ← (if delta <? 0 then if old <? new then mret (Ok 0) else in_mem (dealloc_user root old new)
       else if new <? old then mret (Ok 0) else in_mem (alloc_user root old new (Z.lor USER WRITE)));
  with_proc me (fun p => adjsize p delta (fun _ _ => match r with Ok _ => Ok tt | Err e => Err e end)).

(** ** [syscall] *)
Definition signed (w x : Z) : Z := if x <? 2 ^ (w - 1) then x else x - 2 ^ w.

(** How a call leaves the kernel: with a value, asleep, or not at all. *)
Inductive leaves := Returns (r : Z) | Sleeps (b : blocked) | Gone.

(** [map_or(-1, to_i64)] and [map_or(-1, |_| 0)]. *)
Definition value (r : result Z) : Z := map_or r (-1) id.
Definition done_ {A} (r : result A) : Z := map_or r (-1) (fun _ => 0).
Definition finish (me r : Z) : T leaves :=
  p ← this me;
  if killed p then exit me 1;; mret Gone else mret (Returns r).
Definition settle {A} (me : Z) (f : A -> Z) (m : T (progress A blocked)) : T leaves :=
  r ← m;
  match r with
  | Sleep b => mret (Sleeps b)
  | Done a => finish me (f a)
  end.
Definition at_once {A} (me : Z) (f : A -> Z) (m : T A) : T leaves := r ← m; finish me (f r).

Definition ticksleep (me ticks0 nticks : Z) : T (progress (result unit) blocked) :=
  r ← ticksleep_round tickchan me ticks0 nticks;
  mret (match r with Done a => Done a | Sleep _ => Sleep (BTicks ticks0 nticks) end).

Definition opt_value (o : option Z) : Z := default (-1) o.

Definition syscall (me a0 a1 a2 num : Z) : T leaves :=
  match num with
  | 1 => at_once me opt_value (fork me)
  | 2 => exit me (signed 32 (wrap 32 a0));; mret Gone
  | 3 => settle me opt_value (wait me a0)
  | 4 => at_once me done_ (pipe me a0)
  | 5 => settle me value (read me a0 a1 a2)
  | 6 => at_once me (fun o => match o with Some _ => 0 | None => -1 end) (on_tab (Proc.kill (wrap 32 a0)))
  | 7 => at_once me done_ (exec me a0 a1)
  | 8 => at_once me done_ (stat me a0 a1)
  | 9 => at_once me done_ (chdir me a0)
  | 10 => at_once me value (dup me a0)
  | 11 => p ← this me; finish me (pid p)
  | 12 => at_once me value (sbrk me (signed 64 a0))
  | 13 => t ← ticks; settle me done_ (ticksleep me t a0)
  | 14 => t ← ticks; finish me (signed 64 t)
  | 15 => at_once me value (open me a0 a1)
  | 16 => settle me value (write me a0 a1 a2)
  | 17 => at_once me done_ (mknod me a0 (wrap 32 a1) (wrap 32 a2))
  | 18 => at_once me done_ (unlink me a0)
  | 19 => at_once me done_ (link me a0 a1)
  | 20 => at_once me done_ (mkdir me a0)
  | 21 => at_once me done_ (close me a0)
  | _ => finish me (-1)
  end.

(** A call goes on when its process runs again. *)
Definition resume (me : Z) (b : blocked) : T leaves :=
  match b with
  | BRead f addr len => settle me value (file_read me f addr len)
  | BConsole addr n room => settle me value (read_console me addr n room)
  | BWrite f n buf =>
    x ← in_files (file_at f);
    match f_fp x with
    | Some (LWriter a k) => settle me value (write_pipe me f a k n buf)
    | _ => panic "dangling pipe"
    end
  | BWait status_ptr => settle me opt_value (wait_round me status_ptr)
  | BTicks ticks0 nticks => settle me done_ (ticksleep me ticks0 nticks)
  end.

(** [trap], in which a process that has been killed exits. *)
Definition sys_trap (kbd_interrupt uart_interrupt sd_interrupt eoi : T unit) : Z -> Frame -> T leave :=
  Trap.trap tickchan kbd_interrupt uart_interrupt sd_interrupt eoi exit.
End sys.
