(* ===== verification/SysfileSpec.v ===== *)
(** What system calls do to descriptors: over every run, the count of an open
    file is the number of descriptors that refer to it. *)
From stdpp Require Import base list gmap strings relations.
From Stdlib Require Import ZArith Lia.
From S2P Require Import Prelude.
From S2P Require Import Arch.
From S2P Require Import BlockLayer.
From S2P Require Import Fs.
From S2P Require Import FsDir.
From S2P Require Import Kalloc.
From S2P Require Import Vm.
From S2P Require Import Pipe.
From S2P Require Import FileTable.
From S2P Require Import Console.
From S2P Require Import Exec.
From S2P Require Import Proc.
From S2P Require Import ProcSpec.
From S2P Require Import Trap.
From S2P Require Import Sysfile.

(** ** Counting descriptors *)
Definition one (k : Z) (e : option Z) : Z := if decide (e = Some k) then 1 else 0.
Fixpoint held (k : Z) (l : list (option Z)) : Z :=
  match l with [] => 0 | e :: l' => one k e + held k l' end.

Lemma one_nonneg k e : 0 <= one k e.
Proof. unfold one. case_decide; lia. Qed.
Lemma one_some k f : one k (Some f) = if k =? f then 1 else 0.
Proof. unfold one. case_decide; simplify_eq; [by rewrite Z.eqb_refl|]. destruct (Z.eqb_spec k f); congruence. Qed.
Lemma one_none k : one k None = 0.
Proof. done. Qed.
Lemma held_nonneg k l : 0 <= held k l.
Proof. induction l as [|e l IH]; cbn; [done|]. pose proof (one_nonneg k e). lia. Qed.
Lemma held_app k l l' : held k (l ++ l') = held k l + held k l'.
Proof. induction l as [|e l IH]; cbn; [done|]. rewrite IH. lia. Qed.
Lemma held_none k l : Forall (eq None) l -> held k l = 0.
Proof. induction 1 as [|e l He _ IH]; [done|]. subst e. cbn. by rewrite IH. Qed.

(** Replacing an element of a list. *)
Lemma znth_split {A} (l : list A) i x : l.[i] = Some x ->
  exists l1 l2, l = l1 ++ x :: l2 /\ (forall y, l.[i <- y] = l1 ++ y :: l2).
Proof.
  intros Hi. pose proof (znth_range _ _ _ Hi) as Hr. apply znth_Some in Hi as [_ Hi].
  exists (take (Z.to_nat i) l), (drop (Datatypes.S (Z.to_nat i)) l). split; [by rewrite take_drop_middle|].
  intros y. unfold zset. rewrite (proj2 (Z.leb_le 0 i)), (proj2 (Z.ltb_lt i (zlen l))) by lia. cbn [andb].
  apply insert_take_drop. unfold zlen in Hr. lia.
Qed.

Lemma held_set k l i e e' : l.[i] = Some e -> held k l.[i <- e'] = held k l - one k e + one k e'.
Proof. intros Hi. destruct (znth_split l i e Hi) as (l1 & l2 & E & Es). rewrite Es, E, !held_app. cbn. lia. Qed.

(** ** What is seen of the processes: their descriptors, and whether they are
    out of use *)
Definition dormant {PT} (p : Proc PT) : bool := bool_decide (state p = UNUSED) || is_zombie p.
Definition view {PT} (p : Proc PT) : list (option Z) * bool := (files p, dormant p).
Definition views {PT} (t : Table PT) : list (list (option Z) * bool) := view <$> procs t.

Definition Views : Type := list (list (option Z) * bool).
Definition refs (k : Z) (F : Views) : Z := held k (mjoin (fst <$> F)).

Lemma refs_nonneg k F : 0 <= refs k F.
Proof. apply held_nonneg. Qed.

Lemma refs_set k F j x y : F.[j] = Some x -> refs k F.[j <- y] = refs k F - held k x.1 + held k y.1.
Proof.
  intros Hj. destruct (znth_split F j x Hj) as (F1 & F2 & E & Es). unfold refs. rewrite Es, E, !fmap_app.
  rewrite !join_app, !fmap_cons. cbn. rewrite !held_app. lia.
Qed.

(** Processes out of use have no descriptors; process [me] is in use. *)
Definition clean (F : Views) : Prop := forall j l, F.[j] = Some (l, true) -> Forall (eq None) l.
Definition good (me : Z) (F : Views) : Prop := clean F /\ exists l, F.[me] = Some (l, false).

Lemma clean_set F j x l b : F.[j] = Some x -> clean F -> (b = true -> Forall (eq None) l) -> clean F.[j <- (l, b)].
Proof.
  intros Hj Hc Hl i l' Hi. apply znth_range in Hj. apply znth_zset_inv in Hi as [[-> [= -> <-]]|[_ Hi]]; [by apply Hl|by apply (Hc i)|done].
Qed.

Lemma good_set me F l : good me F -> good me F.[me <- (l, false)].
Proof.
  intros [Hc [l0 Hme]]. split; [by eapply clean_set|]. exists l. by apply (znth_set_eq _ _ _ (l0, false)).
Qed.

(** ** Triples: what holds of every result *)
Definition hoare {St A} (P : St -> Prop) (m : M St A) (Q : A -> St -> Prop) : Prop :=
  forall s a s', P s -> m s = Ret (a, s') -> Q a s'.

Lemma hoare_bind {St A B} (P : St -> Prop) (m : M St A) (f : A -> M St B) (R : A -> St -> Prop) Q :
  hoare P m R -> (forall a, hoare (R a) (f a) Q) -> hoare P (m ≫= f) Q.
Proof.
  intros Hm Hf s b s' HP E. unfold mbind, M_bind in E. destruct (m s) as [[a s1]| |] eqn:Em; [|done|done].
  exact (Hf a s1 b s' (Hm _ _ _ HP Em) E).
Qed.
Lemma hoare_try {St A B} (P : St -> Prop) (m : M St (result A)) (f : A -> M St (result B)) (R : result A -> St -> Prop) Q :
  hoare P m R -> (forall a, hoare (R (Ok a)) (f a) Q) -> (forall e s, R (Err e) s -> Q (Err e) s) -> hoare P (try_ m f) Q.
Proof.
  intros Hm Hf He. eapply hoare_bind; [exact Hm|]. intros [a|e]; [apply Hf|]. intros s r s' H [= <- <-]. by apply He.
Qed.
Lemma hoare_weaken {St A} (P P' : St -> Prop) (m : M St A) (Q Q' : A -> St -> Prop) :
  hoare P m Q -> (forall s, P' s -> P s) -> (forall a s, Q a s -> Q' a s) -> hoare P' m Q'.
Proof. intros Hm Hp Hq s a s' HP E. by eapply Hq, Hm, E; apply Hp. Qed.
Lemma hoare_ret {St A} (P : St -> Prop) (a : A) (Q : A -> St -> Prop) : (forall s, P s -> Q a s) -> hoare P (mret a) Q.
Proof. intros H s b s' HP [= <- <-]. by apply H. Qed.
Lemma hoare_try_ok {St A B} (P : St -> Prop) (a : A) (f : A -> M St (result B)) Q : hoare P (f a) Q -> hoare P (try_ (mret (Ok a)) f) Q.
Proof. done. Qed.
Lemma hoare_try_err {St A B} (P : St -> Prop) e (f : A -> M St (result B)) Q :
  (forall s, P s -> Q (Err e) s) -> hoare P (try_ (mret (Err e)) f) Q.
Proof. intros HQ s a s' HP [= <- <-]. by apply HQ. Qed.
Lemma hoare_panic {St A} (P : St -> Prop) msg (Q : A -> St -> Prop) : hoare P (panic msg) Q.
Proof. by intros s a s' _ E. Qed.
Lemma hoare_pure {St A} (R : Prop) (P : St -> Prop) (m : M St A) Q : (R -> hoare P m Q) -> hoare (fun s => R /\ P s) m Q.
Proof. intros H s a s' [HR HP] E. by eapply H. Qed.
Lemma hoare_ex {St A B} (P : B -> St -> Prop) (m : M St A) Q : (forall b, hoare (P b) m Q) -> hoare (fun s => exists b, P b s) m Q.
Proof. intros H s a s' [b HP] E. by eapply H. Qed.

Section spec.
Context {S : Type} `{BlockOps S}.
Context (proc_addr : Z -> Z) (tickchan kpgtbl SLAB_NPIPES : Z).
Context (read_chan write_chan : Z -> Z -> Z) (cons_chan : Z) (stat_pad : list Z).
Notation Sys := (Sys (S := S)).
Notation T := (M Sys).
Notation wfiles s := (w_files (tr_dev s)).

(** ** Steps that touch neither the files nor what is seen of the processes *)
Definition frame {A} (m : T A) : Prop :=
  forall s a s', m s = Ret (a, s') -> wfiles s' = wfiles s /\ views (tr_tab s') = views (tr_tab s).

Lemma frame_bind {A B} (m : T A) (f : A -> T B) : frame m -> (forall a, frame (f a)) -> frame (m ≫= f).
Proof.
  intros Hm Hf s b s' E. unfold mbind, M_bind in E. destruct (m s) as [[a s1]| |] eqn:Em; [|done|done].
  destruct (Hm _ _ _ Em) as [E1 E2], (Hf _ _ _ _ E) as [E3 E4]. split; congruence.
Qed.
Lemma frame_try {A B} (m : T (result A)) (f : A -> T (result B)) : frame m -> (forall a, frame (f a)) -> frame (try_ m f).
Proof. intros Hm Hf. apply frame_bind; [done|]. intros [a|e]; [apply Hf|]. by intros s a s' [= <- <-]. Qed.
Lemma frame_ret {A} (a : A) : frame (mret a).
Proof. by intros s b s' [= <- <-]. Qed.
Lemma frame_gets {A} (f : Sys -> A) : frame (gets f).
Proof. by intros s b s' [= <- <-]. Qed.
Lemma frame_panic {A} msg : frame (A := A) (panic msg).
Proof. by intros s b s' E. Qed.
Lemma frame_assert b msg : frame (assert_ b msg).
Proof. by destruct b; intros s r s' E; [injection E as <- <-|]. Qed.
Lemma frame_expect {A} (o : option A) msg : frame (expect o msg).
Proof. by destruct o; intros s r s' E; [injection E as <- <-|]. Qed.
Lemma frame_lift {A} (o : outcome A) : frame (lift o).
Proof. intros s r s' E. unfold lift in E. destruct o; [|done|done]. by injection E as <- <-. Qed.

Lemma frame_zoom {St A} (get : Sys -> St) (put : St -> Sys -> Sys) (m : M St A) :
  (forall x s, wfiles (put x s) = wfiles s /\ tr_tab (put x s) = tr_tab s) -> frame (zoom get put m).
Proof.
  intros Hp s a s' E. unfold zoom in E. destruct (m (get s)) as [[r x]| |]; [|done|done]. injection E as <- <-.
  destruct (Hp x s) as [-> ->]. done.
Qed.
Lemma frame_in_mem {A} (m : M FreeList A) : frame (in_mem m).
Proof. by apply frame_zoom. Qed.
Lemma frame_in_con {A} (m : M Con A) : frame (in_con m).
Proof. by apply frame_zoom. Qed.
Lemma frame_in_pipes {A} (m : M PipeMem A) : frame (in_pipes m).
Proof. by apply frame_zoom. Qed.
Definition tframe {A} (m : M (Table Z) A) : Prop := forall t a t', m t = Ret (a, t') -> views t' = views t.
Lemma frame_on_tab {A} (m : M (Table Z) A) : tframe m -> frame (on_tab m).
Proof.
  intros Hm s a s' E. unfold on_tab in E. destruct (m (tr_tab s)) as [[r t]| |] eqn:Em; [|done|done].
  injection E as <- <-. split; [done|]. by eapply Hm.
Qed.
Lemma frame_this me : frame (this me).
Proof. apply frame_on_tab. intros t p t' E. unfold proc_at in E. rewrite bind_gets in E. destruct (procs (id t)).[me]; [|done]. by injection E as <- <-. Qed.

#[local] Hint Resolve frame_ret frame_gets frame_panic frame_assert frame_expect frame_lift frame_in_mem frame_in_con
  frame_in_pipes frame_this : frames.
Ltac frame_steps :=
  repeat first
    [ progress eauto with frames nocore
    | apply frame_bind; [|intros ?]
    | apply frame_try; [|intros ?]
    | match goal with |- frame (match ?x with _ => _ end) => destruct x end ].
Ltac solve_frame := solve [frame_steps].

Lemma frame_in_fs {A} me (m : M (Fs S) A) : frame (in_fs me m).
Proof. apply frame_bind; [apply frame_this|]. intros p. by apply frame_zoom. Qed.
Lemma frame_in_ex {A} me (m : M (Ex S) A) : frame (in_ex me m).
Proof. apply frame_bind; [apply frame_this|]. intros p. by apply frame_zoom. Qed.
Lemma frame_root_of me : frame (root_of me).
Proof. unfold root_of. solve_frame. Qed.
#[local] Hint Resolve frame_in_fs frame_in_ex frame_root_of : frames.
Lemma frame_mem_of me : frame (mem_of me).
Proof. unfold mem_of. solve_frame. Qed.
#[local] Hint Resolve frame_mem_of : frames.
Lemma frame_user_load me a n : frame (user_load me a n).
Proof. unfold user_load. solve_frame. Qed.
Lemma frame_user_store me a bs : frame (user_store me a bs).
Proof. unfold user_store. solve_frame. Qed.
#[local] Hint Resolve frame_user_load frame_user_store : frames.
Lemma frame_fetch_str me off : frame (fetch_str me off).
Proof. unfold fetch_str. solve_frame. Qed.
Lemma frame_fetch_usize me off : frame (fetch_usize me off).
Proof. unfold fetch_usize. solve_frame. Qed.
Lemma frame_fetch_slice me a len : frame (fetch_slice me a len).
Proof. unfold fetch_slice. solve_frame. Qed.
Lemma frame_get_fd me fd : frame (get_fd me fd).
Proof. unfold get_fd. solve_frame. Qed.
#[local] Hint Resolve frame_fetch_str frame_fetch_usize frame_fetch_slice frame_get_fd : frames.

(** Steps on the table. *)
Lemma views_upd (t : Table Z) k p q : (procs t).[k] = Some p -> view q = view p ->
  views (put_procs (procs t).[k <- q] t) = views t.
Proof. intros Hk Hf. unfold views. cbn. rewrite zset_fmap, Hf. apply zset_id. by rewrite znth_fmap, Hk. Qed.

Lemma upd_proc_view (t : Table Z) k f t' : upd_proc k f t = Ret (tt, t') ->
  exists p, (procs t).[k] = Some p /\ t' = put_procs (procs t).[k <- f p] t.
Proof.
  intros E. destruct (procs t).[k] as [p|] eqn:Hk.
  - exists p. split; [done|]. rewrite (upd_proc_run t k p f Hk) in E. by injection E.
  - unfold upd_proc, proc_at, mbind, M_bind, gets in E. cbn in E. by rewrite Hk in E.
Qed.

(** ** Steps on the table alone *)
Lemma tframe_bind {A B} (m : M (Table Z) A) (f : A -> M (Table Z) B) : tframe m -> (forall a, tframe (f a)) -> tframe (m ≫= f).
Proof.
  intros Hm Hf t b t' E. unfold mbind, M_bind in E. destruct (m t) as [[a t1]| |] eqn:Em; [|done|done].
  rewrite (Hf _ _ _ _ E). by eapply Hm.
Qed.
Lemma tframe_upd k f : (forall p : Proc Z, view (f p) = view p) -> tframe (upd_proc k f).
Proof. intros Hf t [] t' E. apply upd_proc_view in E as (p & Hp & ->). by apply (views_upd _ _ p). Qed.
Lemma tframe_wakeup chan : tframe (Proc.wakeup chan).
Proof.
  intros t a t' [= _ <-]. unfold views. cbn. unfold wakeup1. rewrite <-list_fmap_compose.
  apply list_fmap_ext. intros i p _. cbn. case_bool_decide as E; [|done]. unfold view, dormant, is_zombie. cbn. by rewrite E.
Qed.
Lemma frame_wake chan : frame (wake chan).
Proof. apply frame_on_tab, tframe_wakeup. Qed.

Lemma frame_kill n : frame (on_tab (Proc.kill n)).
Proof.
  apply frame_on_tab. intros t a t' E. unfold Proc.kill in E. rewrite bind_gets in E. cbn [id] in E.
  destruct (position _ _) as [k|]; [|by injection E as _ <-].
  unfold mbind, M_bind in E. destruct (upd_proc _ _ t) as [[[] t1]| |] eqn:Eu; [|done|done]. injection E as _ <-.
  apply upd_proc_view in Eu as (p & Hp & ->). apply (views_upd _ _ p); [done|]. cbn.
  destruct (is_sleeping _) eqn:Es; [|done]. unfold view, dormant, is_zombie, is_sleeping in *. cbn in *. by destruct (state p).
Qed.

#[local] Hint Resolve frame_wake frame_kill : frames.

(** ** The invariant: with [F] seen of the processes, and [d] handles besides
    the descriptors, the counts of the files are the numbers of handles *)
Definition handles (F : Views) (d : Z -> Z) : Z -> Z := fun k => refs k F + d k.
Definition inv (F : Views) (d : Z -> Z) (s : Sys) : Prop :=
  views (tr_tab s) = F /\ table_ok (wfiles s, handles F d).
Definition bump (k n : Z) (d : Z -> Z) : Z -> Z := fun j => if j =? k then d j + n else d j.
Definition none : Z -> Z := fun _ => 0.

Lemma table_ok_ext (fs : list (@File Like)) h h' : (forall k, h k = h' k) -> table_ok (fs, h) -> table_ok (fs, h').
Proof. intros E Ht k f Hk. cbn in *. rewrite <-E. by apply Ht. Qed.

Lemma inv_ext F d d' s : (forall k, d k = d' k) -> inv F d s -> inv F d' s.
Proof. intros E [HF Ht]. split; [done|]. eapply table_ok_ext, Ht. intros k. unfold handles. by rewrite E. Qed.

Lemma frame_inv {A} (m : T A) F d : frame m -> hoare (inv F d) m (fun _ => inv F d).
Proof. intros Hm s a s' [HF Ht] E. destruct (Hm _ _ _ E) as [E1 E2]. split; [congruence|]. by rewrite E1. Qed.

Lemma sleep_inv F d me chan : good me F -> hoare (inv F d) (on_tab (Proc.sleep me chan)) (fun _ => inv F d).
Proof.
  intros [_ [l Hme]] s [] s' [HF Ht] E. unfold on_tab, Proc.sleep in E.
  destruct (upd_proc me _ (tr_tab s)) as [[[] t]| |] eqn:Eu; [|done|done]. injection E as <-. split; [|done]. cbn [tr_tab].
  apply upd_proc_view in Eu as (p & Hp & ->). rewrite <-HF. apply (views_upd _ _ p); [done|].
  rewrite <-HF in Hme. unfold views in Hme. rewrite znth_fmap, Hp in Hme. cbn in Hme. unfold view in *. injection Hme as _ Hd.
  cbn. f_equal. rewrite Hd. done.
Qed.

(** ** Rules for the steps on files and descriptors *)
Lemma in_files_step {A} F d (m : M (list (@File Like)) A) (Q : A -> Sys -> Prop) :
  (forall fs a fs', table_ok (fs, handles F d) -> m fs = Ret (a, fs') ->
     exists d', table_ok (fs', handles F d') /\ forall s, inv F d' s -> Q a s) ->
  hoare (inv F d) (in_files m) Q.
Proof.
  intros Hm s a s' [HF Ht] E. unfold in_files, zoom in E. destruct (m (wfiles s)) as [[r fs]| |] eqn:Em; [|done|done].
  injection E as <- <-. destruct (Hm _ _ _ Ht Em) as (d' & Ht' & HQ). apply HQ. by split.
Qed.

Lemma handles_bump F d k n j : handles F (bump k n d) j = if j =? k then handles F d k + n else handles F d j.
Proof. unfold handles, bump. destruct (Z.eqb_spec j k) as [->|]; lia. Qed.

Lemma file_alloc_inv F d mode l :
  hoare (inv F d) (in_files (FileTable.alloc mode l))
    (fun o => match o with Some f => inv F (bump f 1 d) | None => inv F d end).
Proof.
  apply in_files_step. intros fs [f|] fs' Ht E.
  - exists (bump f 1 d). split; [|done]. eapply table_ok_ext; [|by eapply table_step, step_alloc, E].
    intros j. by rewrite handles_bump.
  - exists d. split; [|done]. destruct (alloc_spec fs mode l) as [(k & x & _ & _ & E')|[_ E']]; rewrite E in E'; [done|].
    by injection E' as ->.
Qed.

Lemma file_dup_inv F d f : 0 < handles F d f -> hoare (inv F d) (in_files (FileTable.dup f)) (fun _ => inv F (bump f 1 d)).
Proof.
  intros Hf. apply in_files_step. intros fs a fs' Ht E. exists (bump f 1 d). split; [|done].
  assert (a = f) as ->.
  { unfold FileTable.dup, mbind, M_bind in E. destruct (file_at f fs) as [[x fs1]| |]; [|done|done].
    destruct (lift _ fs1) as [[r fs2]| |]; [|done|done]. destruct (upd_file _ _ fs2) as [[[] fs3]| |]; [|done|done]. by injection E. }
  eapply table_ok_ext; [|by eapply table_step, step_dup, E]. intros j. by rewrite handles_bump.
Qed.

Lemma file_close1_inv F d f : 0 < handles F d f ->
  hoare (inv F d) (in_files (FileTable.close f)) (fun _ => inv F (bump f (-1) d)).
Proof.
  intros Hf. apply in_files_step. intros fs a fs' Ht E. exists (bump f (-1) d). split; [|done].
  eapply table_ok_ext; [|by eapply table_step, step_close, E]. intros j. by rewrite handles_bump.
Qed.

Lemma file_at_inv' F d f :
  hoare (inv F d) (in_files (file_at f)) (fun x s => (is_Some (f_fp x) -> 0 < handles F d f) /\ inv F d s).
Proof.
  apply in_files_step. intros fs x fs' Ht E. apply file_at_inv in E as [Hf ->]. exists d. split; [done|].
  intros s Hs. split; [|done]. intros Hx. destruct (Ht _ _ Hf) as (_ & Hn & _ & Hz). cbn in Hn, Hz.
  destruct (Z.eq_dec (handles F d f) 0) as [E|E]; [|lia]. rewrite (Hz E) in Hx. by destruct Hx.
Qed.

(** An open file stays one when its offset moves. *)
Lemma inc_off_inv F d f n : 0 < handles F d f -> hoare (inv F d) (in_files (inc_off n f)) (fun _ => inv F d).
Proof.
  intros Hf. apply in_files_step. intros fs [] fs' Ht E. exists d. split; [|done].
  unfold inc_off, mbind, M_bind in E. destruct (file_at f fs) as [[x fs1]| |] eqn:Ef; [|done|done].
  apply file_at_inv in Ef as [Hx ->]. destruct (lift _ fs) as [[o fs2]| |] eqn:El; [|done|done].
  unfold lift in El. destruct (add_ovf _ _ _); [|done|done]. injection El as <- <-. rewrite (upd_file_run _ _ _ _ Hx) in E.
  injection E as <-. destruct (Ht _ _ Hx) as (Hc & Hn & Hfp & _). cbn in Hc, Hn, Hfp.
  eapply table_ok_ext; [|apply (table_ok_set fs (handles F d) f _ (handles F d f) Ht)].
  - intros k. cbn. by destruct (Z.eqb_spec k f) as [->|].
  - repeat split; cbn; try done. lia.
Qed.

(** ** Closing a file *)
Lemma frame_in_pipe {A} a k (m : M Pipe A) : frame (in_pipe a k m).
Proof. apply frame_in_pipes. Qed.
#[local] Hint Resolve frame_in_pipe : frames.
Lemma frame_like_close me l : frame (like_close SLAB_NPIPES read_chan write_chan me l).
Proof. unfold like_close. solve_frame. Qed.
#[local] Hint Resolve frame_like_close : frames.
Notation file_close := (file_close SLAB_NPIPES read_chan write_chan).
Notation like_close := (like_close SLAB_NPIPES read_chan write_chan).

Lemma file_close_inv F d me f : 0 < handles F d f -> hoare (inv F d) (file_close me f) (fun _ => inv F (bump f (-1) d)).
Proof.
  intros Hf. eapply hoare_bind; [by apply file_close1_inv|]. intros o. apply frame_inv. destruct o; [apply frame_like_close|apply frame_ret].
Qed.

(** ** Descriptors *)
Lemma with_proc_inv {A} F d me (f : Proc Z -> A * Proc Z) :
  (forall p, dormant (snd (f p)) = dormant p) -> good me F ->
  hoare (inv F d) (with_proc me f) (fun a s => exists p l, F.[me] = Some (l, false) /\ files p = l /\ a = fst (f p) /\
    views (tr_tab s) = F.[me <- (files (snd (f p)), false)] /\ table_ok (wfiles s, handles F d)).
Proof.
  intros Hd [_ [l Hme]] s a s' [HF Ht] E. unfold with_proc, this, on_tab, mbind, M_bind in E.
  destruct (proc_at me (tr_tab s)) as [[p t]| |] eqn:Ep; [|done|done]. cbn [tr_tab] in E.
  assert (Hp : (procs (tr_tab s)).[me] = Some p /\ t = tr_tab s).
  { unfold proc_at in Ep. rewrite bind_gets in Ep. cbn [id] in Ep. destruct (procs (tr_tab s)).[me]; [|done]. by injection Ep as -> ->. }
  destruct Hp as [Hp ->]. destruct (upd_proc _ _ _) as [[[] t']| |] eqn:Eu; [|done|done]. injection E as <- <-.
  apply upd_proc_view in Eu as (q & Hq & ->). cbn [tr_tab tr_dev]. assert (q = p) as -> by congruence.
  assert (Hl : (l, false) = view p) by (rewrite <-HF in Hme; unfold views in Hme; rewrite znth_fmap, Hp in Hme; cbn in Hme; congruence).
  exists p, l. split; [done|]. unfold view in Hl. injection Hl as -> Hdp. split; [done|]. split; [done|]. split; [|done].
  unfold views. cbn [procs put_procs]. rewrite zset_fmap. rewrite <-HF. unfold views. f_equal. unfold view. by rewrite Hd, <-Hdp.
Qed.

Lemma handles_set F d d' me l l' :
  F.[me] = Some (l, false) -> (forall k, held k l' + d' k = held k l + d k) ->
  forall k, handles F d k = handles F.[me <- (l', false)] d' k.
Proof. intros Hme Hk k. unfold handles. rewrite (refs_set k F me (l, false)) by done. cbn. specialize (Hk k). lia. Qed.

Lemma alloc_fd_inv F d me f : good me F ->
  hoare (inv F d) (alloc_fd me f) (fun o s => match o with
    | Some fd => exists l, F.[me] = Some (l, false) /\ l.[fd] = Some None /\ inv F.[me <- (l.[fd <- Some f], false)] (bump f (-1) d) s
    | None => inv F d s end).
Proof.
  intros Hg. eapply hoare_weaken; [apply (with_proc_inv F d me (Proc.alloc_fd f)); [|done]|done|].
  { intros p. unfold Proc.alloc_fd. by destruct (position _ _). }
  intros o s (p & l & Hme & <- & -> & Hv & Ht). unfold Proc.alloc_fd in *. destruct (position _ (files p)) as [k|] eqn:Ek; cbn [fst snd] in *.
  - apply position_Some in Ek as [(e & He & Hb) _]. apply bool_decide_eq_true in Hb. subst e.
    rewrite <-znth_of_nat in He. exists (files p). split; [done|]. split; [done|]. split; [exact Hv|].
    eapply table_ok_ext, Ht. eapply handles_set; [exact Hme|]. intros j. rewrite (held_set _ _ _ None) by done. rewrite one_some, one_none.
    unfold bump. destruct (j =? f); lia.
  - split; [|done]. rewrite Hv. by apply zset_id.
Qed.

Lemma free_fd_inv F d me fd : good me F ->
  hoare (inv F d) (free_fd me fd) (fun o s => exists l, F.[me] = Some (l, false) /\ o = mjoin l.[fd] /\
    match o with
    | Some f => inv F.[me <- (l.[fd <- None], false)] (bump f 1 d) s
    | None => inv F d s end).
Proof.
  intros Hg. eapply hoare_weaken; [apply (with_proc_inv F d me (Proc.free_fd fd)); [|done]|done|].
  { intros p. unfold Proc.free_fd. by destruct (_ <=? _). }
  intros o s (p & l & Hme & <- & -> & Hv & Ht). unfold Proc.free_fd in *. exists (files p). split; [done|].
  destruct (Z.leb_spec (zlen (files p)) fd) as [Hle|Hlt]; cbn [fst snd] in *.
  - split; [by rewrite (znth_ge _ fd)|]. split; [|done]. rewrite Hv. by apply zset_id.
  - split; [done|]. destruct (files p).[fd] as [[f|]|] eqn:Ef; cbn.
    + split; [exact Hv|]. eapply table_ok_ext, Ht. eapply handles_set; [exact Hme|]. intros j. rewrite (held_set _ _ _ (Some f)) by done.
      rewrite one_some, one_none. unfold bump. destruct (j =? f); lia.
    + split; [|done]. rewrite Hv. cbn [files set_files]. rewrite (zset_id _ fd) by done. by apply zset_id.
    + split; [|done]. assert ((files p).[fd <- None] = files p) as E.
      { unfold zset. destruct ((0 <=? fd) && (fd <? zlen (files p))) eqn:E; [|done]. bool_to_prop.
        destruct (znth_lt (files p) fd) as [x Hx]; [lia|]. by rewrite Hx in Ef. }
      rewrite Hv. cbn. rewrite E. by apply zset_id.
Qed.

(** ** Between calls: no handles but the descriptors *)
Definition ok (me : Z) (s : Sys) : Prop := exists F, inv F none s /\ good me F.

Lemma frame_ok {A} me (m : T A) F d : good me F -> (forall k, d k = 0) -> frame m -> hoare (inv F d) m (fun _ => ok me).
Proof.
  intros Hg Hd Hm. eapply hoare_weaken; [exact (frame_inv m F d Hm)|done|]. intros a s Hs. exists F. split; [|done].
  by eapply inv_ext, Hs.
Qed.
Lemma frame_calls {A} me (m : T A) : frame m -> hoare (ok me) m (fun _ => ok me).
Proof. intros Hm. apply hoare_ex. intros F. intros s a s' [Hs Hg] E. exists F. split; [|done]. by eapply frame_inv. Qed.
Lemma hoare_ok {A} me (m : T A) Q : (forall F, good me F -> hoare (inv F none) m Q) -> hoare (ok me) m Q.
Proof. intros Hm s a s' (F & Hs & Hg) E. by eapply Hm. Qed.
Lemma hoare_frame {A B} F d (m : T A) (f : A -> T B) Q :
  frame m -> (forall a, hoare (inv F d) (f a) Q) -> hoare (inv F d) (m ≫= f) Q.
Proof. intros Hm Hf. eapply hoare_bind; [by apply frame_inv|done]. Qed.
Lemma hoare_frame_try {A B} me F d (m : T (result A)) (f : A -> T (result B)) :
  good me F -> (forall k, d k = 0) -> frame m ->
  (forall a, hoare (inv F d) (f a) (fun _ => ok me)) -> hoare (inv F d) (try_ m f) (fun _ => ok me).
Proof.
  intros Hg Hd Hm Hf. eapply hoare_try; [by apply frame_inv|done|]. intros e s Hs. exists F. split; [by eapply inv_ext, Hs|done].
Qed.
Lemma bump_back f d k : bump f (-1) (bump f 1 d) k = d k.
Proof. unfold bump. destruct (k =? f); lia. Qed.
Lemma bump_pos F f d : 0 <= d f -> 0 < handles F (bump f 1 d) f.
Proof. intros Hd. unfold handles, bump. rewrite Z.eqb_refl. pose proof (refs_nonneg f F). lia. Qed.

(** ** The calls *)
Lemma frame_open_like me ip mode : frame (open_like me ip mode).
Proof. unfold open_like. solve_frame. Qed.
Lemma frame_open_inode me path c : frame (open_inode me path c).
Proof. unfold open_inode. solve_frame. Qed.
#[local] Hint Resolve frame_open_like frame_open_inode : frames.

Lemma open_locked_ok me ip mode F : good me F ->
  hoare (inv F none) (open_locked SLAB_NPIPES read_chan write_chan me ip mode) (fun _ => ok me).
Proof.
  intros Hg. apply hoare_frame; [solve_frame|]. intros [l|e]; [|apply frame_ok; [done|done|solve_frame]].
  eapply hoare_bind; [apply file_alloc_inv|]. intros [f|]; [|apply frame_ok; [done|done|solve_frame]].
  eapply hoare_bind; [by apply alloc_fd_inv|]. intros [fd|].
  - apply hoare_ex. intros l'. apply hoare_pure. intros Hme. apply hoare_pure. intros _.
    apply frame_ok; [by apply good_set|intros k; apply bump_back|solve_frame].
  - eapply hoare_bind; [apply file_close_inv; by apply bump_pos|]. intros [].
    apply frame_ok; [done|intros k; apply bump_back|solve_frame].
Qed.

Lemma with_op_ok {A} me (m : T A) F :
  good me F -> hoare (inv F none) m (fun _ => ok me) -> hoare (inv F none) (sys_with_op me m) (fun _ => ok me).
Proof.
  intros Hg Hm. apply hoare_frame; [solve_frame|]. intros ?. eapply hoare_bind; [exact Hm|]. intros r. apply frame_calls. solve_frame.
Qed.

Lemma open_ok me a0 a1 : hoare (ok me) (open SLAB_NPIPES read_chan write_chan me a0 a1) (fun _ => ok me).
Proof.
  apply hoare_ok. intros F Hg. apply hoare_frame; [solve_frame|]. intros o.
  apply hoare_frame_try; [done|done|solve_frame|]. intros path. apply hoare_frame_try; [done|done|solve_frame|]. intros mc.
  apply with_op_ok; [done|]. apply hoare_frame_try; [done|done|solve_frame|]. intros ip. by apply open_locked_ok.
Qed.

Lemma close_ok me fd : hoare (ok me) (close SLAB_NPIPES read_chan write_chan me fd) (fun _ => ok me).
Proof.
  apply hoare_ok. intros F Hg. eapply hoare_bind; [by apply free_fd_inv|]. intros o. apply hoare_ex. intros l.
  apply hoare_pure. intros Hme. apply hoare_pure. intros _. destruct o as [f|]; [|apply frame_ok; [done|done|solve_frame]].
  eapply hoare_bind; [apply file_close_inv; by apply bump_pos|]. intros [].
  apply frame_ok; [by apply good_set|intros k; apply bump_back|solve_frame].
Qed.

(** A descriptor is a handle. *)
Lemma get_fd_inv F d me fd :
  hoare (inv F d) (get_fd me fd) (fun o s => (forall f, o = Some f -> 0 < refs f F) /\ inv F d s).
Proof.
  intros s o s' Hs E. pose proof (frame_inv _ F d (frame_get_fd me fd) _ _ _ Hs E) as Hs'. split; [|done].
  intros f ->. unfold get_fd, this, on_tab, mbind, M_bind in E.
  destruct (proc_at me (tr_tab s)) as [[p t]| |] eqn:Ep; [|done|done]. injection E as E _.
  unfold proc_at in Ep. rewrite bind_gets in Ep. cbn [id] in Ep. destruct (procs (tr_tab s)).[me] as [q|] eqn:Hq; [|done].
  injection Ep as -> _. unfold Proc.get_fd in E. destruct (zlen (files p) <=? fd); [done|].
  destruct (files p).[fd] as [x|] eqn:Ex; [|done]. cbn in E. subst x.
  destruct Hs as [HF _]. assert (Hv : F.[me] = Some (view p)) by (rewrite <-HF; unfold views; by rewrite znth_fmap, Hq).
  pose proof (refs_set f F me _ ((files p).[fd <- None], false) Hv) as H1. cbn in H1.
  rewrite (held_set f (files p) fd (Some f)), one_some, Z.eqb_refl, one_none in H1 by done.
  pose proof (refs_nonneg f F.[me <- ((files p).[fd <- None], false)]). lia.
Qed.

Lemma refs_alloc F me l fd f : F.[me] = Some (l, false) -> l.[fd] = Some None ->
  handles F.[me <- (l.[fd <- Some f], false)] (bump f (-1) none) f = refs f F.
Proof.
  intros Hme Hfd. unfold handles, bump. rewrite Z.eqb_refl, (refs_set f F me (l, false)) by done. cbn [fst].
  rewrite (held_set f l fd None), one_none, one_some, Z.eqb_refl by done. unfold none. lia.
Qed.

Lemma dup_ok me fd : hoare (ok me) (dup me fd) (fun _ => ok me).
Proof.
  apply hoare_ok. intros F Hg. eapply hoare_bind; [apply get_fd_inv|]. intros o. apply hoare_pure. intros Hf.
  destruct o as [f|]; [|by apply hoare_try_err; intros s Hs; exists F]. specialize (Hf f eq_refl).
  apply hoare_try_ok. eapply hoare_bind; [by apply alloc_fd_inv|]. intros [fd'|]; [|by apply hoare_try_err; intros s Hs; exists F].
  apply hoare_ex. intros l. apply hoare_pure. intros Hme. apply hoare_pure. intros Hfd. apply hoare_try_ok.
  eapply hoare_bind; [apply file_dup_inv; by rewrite refs_alloc|]. intros ?.
  apply frame_ok; [by apply good_set| |solve_frame]. intros k. unfold bump, none. by destruct (k =? f).
Qed.

(** ** Pipes *)
Notation pipe_files := (pipe_files SLAB_NPIPES read_chan write_chan).
Notation pipe_fds := (pipe_fds SLAB_NPIPES read_chan write_chan).
Lemma pipe_files_inv me F : good me F ->
  hoare (inv F none) (pipe_files me) (fun r s => match r with
    | Ok (rf, wf) => inv F (bump wf 1 (bump rf 1 none)) s
    | Err _ => ok me s end).
Proof.
  intros Hg. eapply hoare_try; [apply frame_inv; solve_frame| |intros e s Hs; by exists F]. intros [a k].
  eapply hoare_bind; [apply file_alloc_inv|]. intros [rf|].
  - eapply hoare_bind; [apply file_alloc_inv|]. intros [wf|]; [by apply hoare_ret|].
    eapply hoare_bind; [apply file_close_inv; by apply bump_pos|]. intros [].
    apply hoare_frame; [solve_frame|]. intros ?. apply hoare_ret. intros s Hs. exists F. split; [|done].
    eapply inv_ext, Hs. intros j. apply bump_back.
  - do 2 (apply hoare_frame; [solve_frame|]; intros ?). apply hoare_ret. intros s Hs. by exists F.
Qed.

(** Both files closed again. *)
Lemma close_both me F d rf wf (r : result (Z * Z)) : good me F -> (forall k, d k = bump wf 1 (bump rf 1 none) k) ->
  hoare (inv F d) (file_close me wf;; file_close me rf;; mret r) (fun _ => ok me).
Proof.
  intros Hg Hd. assert (Hw : 0 < handles F d wf).
  { unfold handles. rewrite Hd. unfold bump, none. rewrite Z.eqb_refl. pose proof (refs_nonneg wf F). destruct (wf =? rf); lia. }
  eapply hoare_bind; [by apply file_close_inv|]. intros []. eapply hoare_bind; [apply file_close_inv|].
  - unfold handles, bump at 1. rewrite Hd. unfold bump, none. rewrite Z.eqb_refl. pose proof (refs_nonneg rf F). destruct (rf =? wf); lia.
  - intros []. apply frame_ok; [done| |solve_frame]. intros k. unfold bump. rewrite Hd. unfold bump, none.
    destruct (k =? wf), (k =? rf); done.
Qed.

Lemma pipe_fds_ok me rf wf F : good me F ->
  hoare (inv F (bump wf 1 (bump rf 1 none))) (pipe_fds me rf wf) (fun _ => ok me).
Proof.
  intros Hg. eapply hoare_bind; [by apply alloc_fd_inv|]. intros [rfd|]; [|by apply close_both].
  apply hoare_ex. intros l. apply hoare_pure. intros Hme. apply hoare_pure. intros Hfd.
  set (F1 := F.[me <- _]). assert (Hg1 : good me F1) by by apply good_set.
  eapply hoare_bind; [by apply alloc_fd_inv|]. intros [wfd|].
  - apply hoare_ex. intros l1. apply hoare_pure. intros Hme1. apply hoare_pure. intros _.
    apply hoare_ret. intros s Hs. eexists. split; [|by apply good_set]. eapply inv_ext, Hs.
    intros k. unfold bump, none. destruct (k =? wf), (k =? rf); lia.
  - eapply hoare_bind; [by apply free_fd_inv|]. intros o. apply hoare_ex. intros l1. apply hoare_pure. intros Hme1.
    assert (l1 = l.[rfd <- Some rf]) as ->.
    { unfold F1 in Hme1. rewrite (znth_set_eq _ _ _ (l, false)) in Hme1 by done. by injection Hme1. }
    apply hoare_pure. intros ->. rewrite (znth_set_eq _ _ _ None) by done. cbn [mjoin option_join].
    apply close_both; [by apply good_set|]. intros k. unfold bump, none. destruct (k =? wf), (k =? rf); lia.
Qed.

Lemma pipe_ok me a0 : hoare (ok me) (pipe SLAB_NPIPES read_chan write_chan me a0) (fun _ => ok me).
Proof.
  apply hoare_ok. intros F Hg. do 2 (apply hoare_frame; [solve_frame|]; intros ?).
  apply hoare_frame_try; [done|done|solve_frame|]. intros ?.
  eapply hoare_try; [by apply pipe_files_inv| |done]. intros [rf wf]. cbn [fst snd].
  eapply hoare_try; [by apply pipe_fds_ok| |done]. intros fds. apply frame_calls. solve_frame.
Qed.

(** ** Reading and writing *)
Lemma hoare_open_file {A} F f (k : @File Like -> T A) me : good me F ->
  (forall x, (is_Some (f_fp x) -> 0 < handles F none f) -> hoare (inv F none) (k x) (fun _ => ok me)) ->
  hoare (inv F none) (x ← in_files (file_at f); k x) (fun _ => ok me).
Proof. intros Hg Hk. eapply hoare_bind; [apply file_at_inv'|]. intros x. by apply hoare_pure, Hk. Qed.

Lemma sleep_ok {A} me F chan (a : A) : good me F ->
  hoare (inv F none) (on_tab (Proc.sleep me chan);; mret a) (fun _ => ok me).
Proof. intros Hg. eapply hoare_bind; [by apply sleep_inv|]. intros ?. apply hoare_ret. intros s Hs. by exists F. Qed.

Lemma read_pipe_ok me f a k addr len F : good me F ->
  hoare (inv F none) (read_pipe read_chan write_chan me f a k addr len) (fun _ => ok me).
Proof.
  intros Hg. do 2 (apply hoare_frame; [solve_frame|]; intros ?). repeat case_match; try (apply frame_ok; [done|done|solve_frame]).
  by apply sleep_ok.
Qed.
Lemma read_console_ok me addr n room F : good me F ->
  hoare (inv F none) (read_console cons_chan me addr n room) (fun _ => ok me).
Proof.
  intros Hg. do 2 (apply hoare_frame; [solve_frame|]; intros ?). repeat case_match; try (apply frame_ok; [done|done|solve_frame]).
  apply hoare_frame; [solve_frame|]. intros ?. by apply sleep_ok.
Qed.
Lemma file_read_ok me f addr len F : good me F ->
  hoare (inv F none) (file_read read_chan write_chan cons_chan me f addr len) (fun _ => ok me).
Proof.
  intros Hg. apply hoare_open_file; [done|]. intros x Hx. destruct (negb _); [apply frame_ok; [done|done|solve_frame]|].
  destruct (f_fp x) as [l|]; [|by intros s r s' _ E]. specialize (Hx ltac:(by eexists)).
  apply hoare_frame; [solve_frame|]. intros l'. destruct l'; [|by apply read_pipe_ok|apply frame_ok; [done|done|solve_frame]|by apply read_console_ok].
  apply hoare_frame; [solve_frame|]. intros r. destruct (fst r); [|apply frame_ok; [done|done|solve_frame]].
  apply hoare_frame; [solve_frame|]. intros ?. eapply hoare_bind; [by apply inc_off_inv|]. intros ?. apply frame_ok; [done|done|solve_frame].
Qed.
Lemma write_pipe_ok me f a k n buf F : good me F ->
  hoare (inv F none) (write_pipe read_chan write_chan me f a k n buf) (fun _ => ok me).
Proof.
  intros Hg. apply hoare_frame; [solve_frame|]. intros ?. repeat case_match; try (apply frame_ok; [done|done|solve_frame]).
  apply hoare_frame; [solve_frame|]. intros ?. by apply sleep_ok.
Qed.
Lemma file_write_ok me f buf F : good me F ->
  hoare (inv F none) (file_write read_chan write_chan me f buf) (fun _ => ok me).
Proof.
  intros Hg. apply hoare_open_file; [done|]. intros x Hx. destruct (negb _); [apply frame_ok; [done|done|solve_frame]|].
  destruct (f_fp x) as [l|]; [|by intros s r s' _ E]. specialize (Hx ltac:(by eexists)).
  apply hoare_frame; [solve_frame|]. intros l'. destruct l'; [|apply frame_ok; [done|done|solve_frame]|by apply write_pipe_ok|apply frame_ok; [done|done|solve_frame]].
  apply hoare_frame; [solve_frame|]. intros r. eapply hoare_bind; [by apply inc_off_inv|]. intros ?. apply frame_ok; [done|done|solve_frame].
Qed.
Lemma read_ok me fd addr len : hoare (ok me) (read read_chan write_chan cons_chan me fd addr len) (fun _ => ok me).
Proof.
  apply hoare_ok. intros F Hg. apply hoare_frame; [solve_frame|]. intros [f|]; [|apply frame_ok; [done|done|solve_frame]].
  apply hoare_frame; [solve_frame|]. intros [a|]; [by apply file_read_ok|apply frame_ok; [done|done|solve_frame]].
Qed.
Lemma write_ok me fd addr len : hoare (ok me) (write read_chan write_chan me fd addr len) (fun _ => ok me).
Proof.
  apply hoare_ok. intros F Hg. apply hoare_frame; [solve_frame|]. intros [f|]; [|apply frame_ok; [done|done|solve_frame]].
  apply hoare_frame; [solve_frame|]. intros [a|]; [|apply frame_ok; [done|done|solve_frame]].
  apply hoare_frame; [solve_frame|]. intros buf. by apply file_write_ok.
Qed.

(** ** Calls that touch no descriptor *)
Lemma frame_file_at f : frame (in_files (file_at f)).
Proof.
  intros s a s' E. unfold in_files, zoom in E. destruct (file_at f (wfiles s)) as [[r fs]| |] eqn:Ef; [|done|done].
  apply file_at_inv in Ef as [_ ->]. injection E as <- <-. done.
Qed.
#[local] Hint Resolve frame_file_at : frames.
Lemma frame_stat me fd addr : frame (stat stat_pad me fd addr).
Proof. unfold stat, file_stat. solve_frame. Qed.
Lemma frame_link me a0 a1 : frame (link me a0 a1).
Proof. unfold link. solve_frame. Qed.
Lemma frame_unlink me a0 : frame (unlink me a0).
Proof. unfold unlink. solve_frame. Qed.
Lemma frame_mkdir me a0 : frame (mkdir me a0).
Proof. unfold mkdir. solve_frame. Qed.
Lemma frame_mknod me a0 a1 a2 : frame (mknod me a0 a1 a2).
Proof. unfold mknod. solve_frame. Qed.
Lemma frame_upd me f : (forall p : Proc Z, view (f p) = view p) -> frame (on_tab (upd_proc me f)).
Proof.
  intros Hf. apply frame_on_tab. intros t [] t' E. apply upd_proc_view in E as (p & Hp & ->). by apply (views_upd _ _ p).
Qed.
Lemma frame_chdir me a0 : frame (chdir me a0).
Proof. unfold chdir. frame_steps. by apply frame_upd. Qed.
Lemma frame_fetch_args n : forall me a, frame (fetch_args n me a).
Proof. induction n as [|n IH]; intros me a; cbn [fetch_args]; solve_frame. Qed.
#[local] Hint Resolve frame_stat frame_link frame_unlink frame_mkdir frame_mknod frame_chdir frame_fetch_args : frames.

(** ** The running process *)
Lemma proc_at_ret (t : Table Z) k p t' : proc_at k t = Ret (p, t') -> (procs t).[k] = Some p /\ t' = t.
Proof. intros E. unfold proc_at in E. rewrite bind_gets in E. cbn [id] in E. destruct (procs t).[k]; [|done]. by injection E as -> ->. Qed.
Lemma this_ret me (s : Sys) p s' : this me s = Ret (p, s') -> (procs (tr_tab s)).[me] = Some p /\ s' = s.
Proof.
  intros E. unfold this, on_tab in E. destruct (proc_at me (tr_tab s)) as [[q t]| |] eqn:Ep; [|done|done].
  apply proc_at_ret in Ep as [Hp ->]. injection E as <- <-. split; [done|]. by destruct s.
Qed.
Lemma this_inv F d me : hoare (inv F d) (this me) (fun p s => F.[me] = Some (view p) /\ inv F d s).
Proof.
  intros s p s' Hs E. apply this_ret in E as [Hp ->]. split; [|done]. destruct Hs as [<- _]. unfold views. by rewrite znth_fmap, Hp.
Qed.

(** A process keeps its descriptors over [exec]. *)
Lemma exec_result p path args (s : Ex S) p' u s' : Exec.exec kpgtbl p path args s = Ret (Ok (p', u), s') -> view p' = view p.
Proof.
  unfold Exec.exec. case_match; [done|]. unfold try_, mbind, M_bind. intros E.
  destruct (Exec.in_mem _ s) as [[[root|e] s1]| |]; [|done|done|done]. destruct (exec_into _ _ _ s1) as [[r s2]| |]; [|done|done].
  destruct r as [[uctx size]|e]; [|by destruct (Exec.in_mem _ s2) as [[]| |]].
  destruct (pgtbl p) as [old|].
  - destruct (Exec.in_mem _ s2) as [[]| |]; [|done|done]. by injection E as <- _ _.
  - by injection E as <- _ _.
Qed.
Lemma in_ex_tab {A} me (m : M (Ex S) A) (s : Sys) a s' : in_ex me m s = Ret (a, s') ->
  tr_tab s' = tr_tab s /\ wfiles s' = wfiles s /\ exists x x', m x = Ret (a, x').
Proof.
  intros E. unfold in_ex, mbind, M_bind in E. destruct (this me s) as [[p s1]| |] eqn:Ep; [|done|done].
  apply this_ret in Ep as [_ ->]. unfold zoom in E. destruct (m _) as [[r x]| |] eqn:Em; [|done|done]. injection E as <- <-.
  split; [done|]. split; [done|]. by eexists _, _.
Qed.
Lemma exec_ok me a0 a1 : hoare (ok me) (exec kpgtbl me a0 a1) (fun _ => ok me).
Proof.
  apply hoare_ok. intros F Hg. apply hoare_frame; [solve_frame|]. intros o. apply hoare_frame_try; [done|done|solve_frame|]. intros path.
  apply hoare_frame_try; [done|done|solve_frame|]. intros args.
  intros s r s' Hs E. exists F. split; [|done]. unfold try_, mbind, M_bind in E.
  destruct (this me s) as [[p s1]| |] eqn:Ep; [|done|done]. apply this_ret in Ep as [Hp ->].
  destruct (in_ex _ _ s) as [[[[p' u]|e] s2]| |] eqn:Ex; [| |done|done].
  - apply in_ex_tab in Ex as (Et & Ef & x & x' & Ex). apply exec_result in Ex.
    destruct (on_tab _ s2) as [[[] s3]| |] eqn:Eu; [|done|done]. injection E as _ <-.
    unfold on_tab in Eu. destruct (upd_proc _ _ (tr_tab s2)) as [[[] t]| |] eqn:Eq; [|done|done]. injection Eu as <-.
    apply upd_proc_view in Eq as (q & Hq & ->). rewrite Et in Hq. assert (q = p) as -> by congruence.
    destruct Hs as [HF Ht]. split; cbn [tr_tab tr_dev]; [|by rewrite Ef]. rewrite <-HF, Et. by apply (views_upd _ _ p).
  - injection E as _ <-. apply in_ex_tab in Ex as (Et & Ef & _). destruct Hs as [HF Ht]. split; [congruence|by rewrite Ef].
Qed.

Lemma sbrk_ok me delta : hoare (ok me) (sbrk me delta) (fun _ => ok me).
Proof.
  apply hoare_ok. intros F Hg. do 3 (apply hoare_frame; [solve_frame|]; intros ?).
  eapply hoare_weaken; [apply with_proc_inv; [|done]|done|].
  - intros p. unfold adjsize. by repeat case_match.
  - intros r s (p & l & Hme & Hl & _ & Hv & Ht). exists F. split; [|done]. split; [|done]. rewrite Hv. apply zset_id. rewrite Hme, <-Hl.
    do 2 f_equal. unfold adjsize. by repeat case_match.
Qed.

(** ** [wait], [fork] and [exit] on the table *)
Lemma tframe_at k : tframe (proc_at (PT := Z) k).
Proof. intros t p t' E. by apply proc_at_ret in E as [_ ->]. Qed.
Lemma tframe_gets {A} (f : Table Z -> A) : tframe (gets f).
Proof. by intros t a t' [= _ <-]. Qed.
Lemma tframe_reparent me ks : tframe (reparent proc_addr me ks).
Proof.
  induction ks as [|k ks IH]; [by intros t a t' [= _ <-]|]. cbn [reparent]. apply tframe_bind; [apply tframe_at|]. intros p.
  apply tframe_bind; [|done]. destruct (_ && _); [|by intros t a t' [= _ <-]].
  apply tframe_bind; [apply tframe_gets|]. intros t0. apply tframe_bind; [by apply tframe_upd|]. intros _.
  destruct (is_zombie p); [apply tframe_wakeup|by intros t a t' [= _ <-]].
Qed.

Lemma on_tab_ret {A} (m : M (Table Z) A) (s : Sys) a s' : on_tab m s = Ret (a, s') ->
  exists t, m (tr_tab s) = Ret (a, t) /\ s' = mkTrap (TICKS s) t (tr_dev s).
Proof. intros E. unfold on_tab in E. destruct (m (tr_tab s)) as [[r t]| |]; [|done|done]. injection E as <- <-. by exists t. Qed.

Lemma views_at (t : Table Z) k p : (procs t).[k] = Some p -> (views t).[k] = Some (view p).
Proof. intros Hp. unfold views. by rewrite znth_fmap, Hp. Qed.

Lemma wait1_views me (t : Table Z) l a t' :
  (views t).[me] = Some (l, false) -> wait1 proc_addr me t = Ret (a, t') -> views t' = views t.
Proof.
  intros Hme E. unfold wait1 in E. rewrite bind_gets in E. cbn [id] in E. destruct (position _ _) as [k|] eqn:Ek.
  - apply position_Some in Ek as [(p & Hp & Hk) _]. rewrite <-znth_of_nat in Hp.
    rewrite (bind_run _ _ _ _ _ (proc_at_run _ _ _ Hp)) in E. unfold mbind, M_bind in E.
    destruct (expect (kstack p) _ t) as [[stk t1]| |] eqn:E1; [|done|done]. unfold expect in E1. destruct (kstack p); [|done]. injection E1 as _ <-.
    destruct (expect (pgtbl p) _ t) as [[pt t2]| |] eqn:E2; [|done|done]. unfold expect in E2. destruct (pgtbl p); [|done]. injection E2 as _ <-.
    rewrite (upd_proc_run _ _ _ _ Hp) in E. injection E as _ <-. apply (views_upd _ _ p); [done|].
    apply andb_prop in Hk as [_ Hz]. unfold view, dormant. rewrite Hz. cbn. by rewrite orb_true_r.
  - unfold mbind, M_bind in E. destruct (proc_at me t) as [[p t1]| |] eqn:Ep; [|done|done]. apply proc_at_ret in Ep as [Hp ->].
    destruct (_ || _); [by injection E as _ <-|]. unfold Proc.sleep in E. rewrite (upd_proc_run _ _ _ _ Hp) in E. injection E as _ <-.
    apply (views_upd _ _ p); [done|]. rewrite (views_at _ _ _ Hp) in Hme. unfold view in *. injection Hme as _ Hd. cbn. by rewrite Hd.
Qed.
Lemma wait1_inv F d me : good me F -> hoare (inv F d) (on_tab (wait1 proc_addr me)) (fun _ => inv F d).
Proof.
  intros [_ [l Hme]] s a s' [HF Ht] E. apply on_tab_ret in E as (t & E & ->). split; [|done]. cbn [tr_tab].
  rewrite <-HF. rewrite <-HF in Hme. by eapply wait1_views.
Qed.
Lemma wait_round_ok me a0 F : good me F -> hoare (inv F none) (wait_round proc_addr me a0) (fun _ => ok me).
Proof.
  intros Hg. eapply hoare_bind; [by apply wait1_inv|]. intros r. apply frame_ok; [done|done|]. solve_frame.
Qed.
Lemma wait_ok me a0 : hoare (ok me) (wait proc_addr me a0) (fun _ => ok me).
Proof.
  apply hoare_ok. intros F Hg. do 2 (apply hoare_frame; [solve_frame|]; intros ?). case_match; [by apply wait_round_ok|].
  apply frame_ok; [done|done|solve_frame].
Qed.

(** [fork]: a slot out of use gets the descriptors of [me]. *)
Definition forked (F : Views) (me : Z) (F' : Views) : Prop :=
  exists j l l', F.[me] = Some (l, false) /\ F.[j] = Some (l', true) /\ F' = F.[j <- (l, false)].

Lemma fork_views me stack pt (t : Table Z) l r t' :
  (views t).[me] = Some (l, false) -> Proc.fork proc_addr me stack pt t = Ret (r, t') ->
  match fst r with Some _ => forked (views t) me (views t') | None => views t' = views t end.
Proof.
  intros Hme E. apply alloc_inv in E as [[-> ->]|(i & p & stk & r' & Hr & _ & Hp & Hu & E)]; [done|].
  set (j := Z.of_nat i) in *. assert (Hv : view p = (files p, true)) by (unfold view, dormant; by rewrite bool_decide_eq_true_2).
  pose proof (views_at _ _ _ Hp) as Hj. rewrite Hv in Hj.
  assert (Hne : j <> me) by congruence.
  unfold views in Hme. rewrite znth_fmap in Hme. destruct (procs t).[me] as [self|] eqn:Hself; [|done]. cbn in Hme.
  unfold fork_thunk in E. erewrite bind_run in E; [|apply proc_at_run; cbn; by rewrite znth_zset_ne].
  destruct pt as [pt|].
  - unfold expect in E. destruct (cwd self) as [c|]; [|done]. rewrite bind_mret in E. unfold mbind, M_bind in E.
    erewrite upd_proc_run in E; [|cbn; by eapply znth_set_eq]. injection E as <- <-. destruct (fst r) eqn:Er; [|by destruct (proj2 Hr)].
    exists j, l, (files p). split; [unfold views; by rewrite znth_fmap, Hself|]. split; [done|].
    unfold views, put_procs. cbn. rewrite zset_zset, zset_fmap. f_equal. unfold view in *. cbn. f_equal. by injection Hme.
  - erewrite bind_run in E; [|apply proc_at_run; cbn; by eapply znth_set_eq]. cbn in E. unfold mbind, M_bind in E. cbn in E.
    erewrite upd_proc_run in E; [|cbn; by eapply znth_set_eq]. injection E as <- <-. destruct (fst r) eqn:Er; [by destruct (proj1 Hr)|].
    unfold views, put_procs. cbn. rewrite zset_zset, zset_fmap. apply zset_id. rewrite znth_fmap, Hp. cbn. by rewrite Hv.
Qed.

Lemma dup_files_inv F l : forall d, (forall k, 0 < held k l -> 0 < handles F d k) ->
  hoare (inv F d) (dup_files l) (fun _ => inv F (fun k => d k + held k l)).
Proof.
  induction l as [|e l IH]; intros d Hd; cbn [dup_files].
  { apply hoare_ret. intros s Hs. eapply inv_ext, Hs. intros k. cbn. lia. }
  destruct e as [f|]; [|by apply IH].
  assert (Hf : 0 < handles F d f) by (apply Hd; cbn; rewrite one_some, Z.eqb_refl; pose proof (held_nonneg f l); lia).
  eapply hoare_bind; [by apply file_dup_inv|]. intros ?. eapply hoare_weaken; [apply IH|done|].
  - intros k Hk. rewrite handles_bump. destruct (Z.eqb_spec k f) as [->|]; [lia|]. apply Hd. cbn. pose proof (one_nonneg k (Some f)). lia.
  - intros [] s Hs. eapply inv_ext, Hs. intros k. cbn. rewrite one_some. unfold bump. destruct (k =? f); lia.
Qed.

Lemma fork_tab_inv F me stack pt : good me F ->
  hoare (inv F none) (on_tab (Proc.fork proc_addr me stack pt)) (fun r s => match fst r with
    | Some _ => exists F' l, F.[me] = Some (l, false) /\ good me F' /\ (forall k, held k l <= refs k F' - held k l) /\
        inv F' (fun k => - held k l) s
    | None => inv F none s end).
Proof.
  intros [Hc [l Hme]] s r s' [HF Ht] E. apply on_tab_ret in E as (t & E & ->). rewrite <-HF in Hme.
  pose proof (fork_views _ _ _ _ _ _ _ Hme E) as Hv. destruct (fst r); [|by split; [cbn [tr_tab]; congruence|]].
  destruct Hv as (j & l0 & l' & Hme' & Hj & Ev). rewrite HF in *. assert (l0 = l) as -> by congruence.
  exists (views t), l. split; [done|]. rewrite Ev. assert (Hne : j <> me) by congruence.
  assert (Hl' : forall k, held k l' = 0) by (intros k; apply held_none; by eapply Hc).
  split; [|split].
  - split; [by eapply clean_set; [exact Hj|done|]|]. exists l. by rewrite znth_zset_ne.
  - intros k. pose proof (refs_set k F me _ ([], false) Hme') as Hr. cbn in Hr. pose proof (refs_nonneg k F.[me <- ([], false)]).
    rewrite (refs_set k F j (l', true)) by done. cbn. rewrite Hl'. lia.
  - split; [done|]. eapply table_ok_ext, Ht. intros k. unfold handles. rewrite (refs_set k F j (l', true)) by done. cbn.
    rewrite Hl'. unfold none. lia.
Qed.

Lemma fork_ok me : hoare (ok me) (fork proc_addr me) (fun _ => ok me).
Proof.
  apply hoare_ok. intros F Hg. eapply hoare_bind; [apply this_inv|]. intros p. apply hoare_pure. intros Hp.
  do 3 (apply hoare_frame; [solve_frame|]; intros ?).
  eapply hoare_bind; [by apply fork_tab_inv|]. intros [[n|] stk]; cbn [fst snd].
  - apply hoare_ex. intros F'. apply hoare_ex. intros l. apply hoare_pure. intros Hme. apply hoare_pure. intros Hg'.
    apply hoare_pure. intros Hle. apply hoare_frame; [solve_frame|]. intros ?.
    assert (files p = l) as -> by (unfold view in Hp; congruence). eapply hoare_bind.
    + apply dup_files_inv. intros k Hk. unfold handles. specialize (Hle k). lia.
    + intros ?. apply frame_ok; [done| |solve_frame]. intros k. cbn. lia.
  - apply hoare_frame; [solve_frame|]. intros ?. apply frame_ok; [done|done|solve_frame].
Qed.

(** [exit]: the descriptors of [me] are gone, and it is out of use. *)
Lemma bind_ret {St A B} (m : M St A) (f : A -> M St B) s b s' : (m ≫= f) s = Ret (b, s') ->
  exists a s1, m s = Ret (a, s1) /\ f a s1 = Ret (b, s').
Proof. intros E. unfold mbind, M_bind in E. destruct (m s) as [[a s1]| |]; [by exists a, s1|done|done]. Qed.
Lemma assert_ret {St} b msg (s : St) a s' : assert_ b msg s = Ret (a, s') -> s' = s.
Proof. destruct b; [by intros [= _ <-]|done]. Qed.
Lemma expect_ret {St A} (o : option A) msg (s : St) a s' : expect o msg s = Ret (a, s') -> s' = s.
Proof. destruct o; [by intros [= _ <-]|done]. Qed.

Lemma exit_views me status (t : Table Z) l r t' :
  (views t).[me] = Some (l, false) -> Proc.exit_table proc_addr me status t = Ret (r, t') ->
  views t' = (views t).[me <- ((fun _ => None) <$> l, true)].
Proof.
  intros Hme E. unfold exit_table in E. rewrite bind_gets in E. cbn [id] in E.
  apply bind_ret in E as (? & t1 & E1%assert_ret & E). subst t1. apply bind_ret in E as (? & t1 & E1%assert_ret & E). subst t1.
  apply bind_ret in E as (self & t1 & [Hself E1]%proc_at_ret & E). subst t1. apply bind_ret in E as (wd & t1 & E1%expect_ret & E). subst t1.
  apply bind_ret in E as ([] & t1 & E1 & E). rewrite (upd_proc_run _ _ _ _ Hself) in E1. injection E1 as E1.
  apply bind_ret in E as ([] & t4 & E4 & E). injection E as _ <-. unfold exit_locked in E4.
  apply bind_ret in E4 as (? & t5 & [_ ->]%proc_at_ret & E4).
  apply bind_ret in E4 as ([] & t2 & E2%tframe_wakeup & E4). rewrite bind_gets in E4.
  apply bind_ret in E4 as ([] & t3 & E3%tframe_reparent & E4). apply upd_proc_view in E4 as (p & Hp & ->).
  pose proof (views_at _ _ _ Hself) as Hs. rewrite Hme in Hs. injection Hs as -> _.
  assert (Hv3 : views t3 = (views t).[me <- ((fun _ => None) <$> files self, dormant self)]).
  { rewrite E3, E2, <-E1. unfold views, put_procs. cbn. by rewrite zset_fmap. }
  pose proof (views_at _ _ _ Hp) as Hp3. rewrite Hv3, (znth_set_eq _ _ _ _ Hme) in Hp3. injection Hp3 as Hp3 _.
  unfold views at 1. cbn. rewrite zset_fmap. fold (views t3). rewrite Hv3, zset_zset. f_equal. unfold view. cbn. by rewrite Hp3.
Qed.

Lemma close_files_inv F me l : forall d, (forall k, held k l <= handles F d k) ->
  hoare (inv F d) (close_files SLAB_NPIPES read_chan write_chan me l) (fun _ => inv F (fun k => d k - held k l)).
Proof.
  induction l as [|e l IH]; intros d Hd; cbn [close_files].
  { apply hoare_ret. intros s Hs. eapply inv_ext, Hs. intros k. cbn. lia. }
  destruct e as [f|]; [|by apply IH]. pose proof (held_nonneg f l) as Hn.
  assert (Hf : 0 < handles F d f) by (specialize (Hd f); cbn in Hd; rewrite one_some, Z.eqb_refl in Hd; lia).
  eapply hoare_bind; [by apply file_close_inv|]. intros ?. eapply hoare_weaken; [apply IH|done|].
  - intros k. rewrite handles_bump. specialize (Hd k). cbn in Hd. rewrite one_some in Hd. destruct (k =? f) eqn:Ek; [apply Z.eqb_eq in Ek; subst k|]; lia.
  - intros [] s Hs. eapply inv_ext, Hs. intros k. cbn. rewrite one_some. unfold bump. destruct (k =? f); lia.
Qed.

(** Between calls, whoever runs. *)
Definition settled (s : Sys) : Prop := exists F, inv F none s /\ clean F.
Lemma ok_settled me s : ok me s -> settled s.
Proof. intros (F & Hs & Hc & _). by exists F. Qed.

Notation exit := (exit proc_addr SLAB_NPIPES read_chan write_chan).
Lemma exit_ok me status : hoare (ok me) (exit me status) (fun _ => settled).
Proof.
  apply hoare_ok. intros F Hg. do 3 (apply hoare_frame; [solve_frame|]; intros ?).
  eapply hoare_bind; [apply this_inv|]. intros p. apply hoare_pure. intros Hp.
  destruct Hg as [Hc [l Hme]]. assert (files p = l) as -> by (unfold view in Hp; congruence).
  eapply hoare_bind; [apply close_files_inv|].
  { intros k. pose proof (refs_set k F me _ ([], false) Hme) as Hr. cbn in Hr. pose proof (refs_nonneg k F.[me <- ([], false)]).
    unfold handles, none. lia. }
  intros ?. apply hoare_frame; [solve_frame|]; intros ?.
  intros s r s' [HF Ht] E. apply bind_ret in E as (x & s1 & E & [= _ <-]). apply on_tab_ret in E as (t & E & ->).
  rewrite <-HF in Hme. apply (exit_views _ _ _ _ _ _ Hme) in E. rewrite HF in E, Hme.
  exists (views t). split; [split; [done|]|].
  - eapply table_ok_ext, Ht. intros k. unfold handles. rewrite E, (refs_set k F me (l, false)) by done. cbn.
    rewrite (held_none k (_ <$> l)) by (apply Forall_fmap, Forall_true; done). unfold none. lia.
  - rewrite E. eapply clean_set; [exact Hme|done|]. intros _. by apply Forall_fmap, Forall_true.
Qed.

Lemma finish_ok me r : hoare (ok me) (finish proc_addr SLAB_NPIPES read_chan write_chan me r) (fun _ => settled).
Proof.
  eapply hoare_bind; [by apply frame_calls, frame_this|]. intros p. destruct (killed p).
  - eapply hoare_bind; [apply exit_ok|]. intros ?. by apply hoare_ret.
  - apply hoare_ret. intros s Hs. by apply (ok_settled me).
Qed.
Notation finish := (finish proc_addr SLAB_NPIPES read_chan write_chan).
Lemma at_once_ok {A} me (f : A -> Z) m : hoare (ok me) m (fun _ => ok me) ->
  hoare (ok me) (at_once proc_addr SLAB_NPIPES read_chan write_chan me f m) (fun _ => settled).
Proof. intros Hm. eapply hoare_bind; [exact Hm|]. intros r. apply finish_ok. Qed.
Lemma settle_ok {A} me (f : A -> Z) m : hoare (ok me) m (fun _ => ok me) ->
  hoare (ok me) (settle proc_addr SLAB_NPIPES read_chan write_chan me f m) (fun _ => settled).
Proof.
  intros Hm. eapply hoare_bind; [exact Hm|]. intros [a|b]; [apply finish_ok|]. apply hoare_ret. intros s. apply ok_settled.
Qed.

Lemma ticksleep_ok me t0 n : hoare (ok me) (ticksleep tickchan me t0 n) (fun _ => ok me).
Proof.
  apply hoare_ok. intros F Hg. unfold ticksleep. eapply hoare_bind.
  2:{ intros r. apply frame_calls. solve_frame. }
  unfold ticksleep_round. apply hoare_frame; [apply frame_gets|]. intros now. apply hoare_frame; [solve_frame|]. intros elapsed.
  destruct (elapsed <? n); [|apply frame_ok; [done|done|solve_frame]].
  apply hoare_frame; [apply frame_this|]. intros p. destruct (killed p); [apply frame_ok; [done|done|solve_frame]|].
  by apply sleep_ok.
Qed.

Notation syscall := (syscall proc_addr tickchan kpgtbl SLAB_NPIPES read_chan write_chan cons_chan stat_pad).
Notation resume := (resume proc_addr tickchan SLAB_NPIPES read_chan write_chan cons_chan).

Lemma syscall_settles me a0 a1 a2 num : hoare (ok me) (syscall me a0 a1 a2 num) (fun _ => settled).
Proof.
  unfold Sysfile.syscall. destruct num as [|num|num]; [apply finish_ok| |apply finish_ok].
  repeat (destruct num as [num|num|]; try apply finish_ok);
    first
      [ eapply hoare_bind; [apply frame_calls; (apply frame_gets || apply frame_this)|intros ?; first [apply finish_ok | apply settle_ok, ticksleep_ok]]
      | eapply hoare_bind; [apply exit_ok|intros ?; by apply hoare_ret]
      | (apply at_once_ok || apply settle_ok);
        first [ apply fork_ok | apply wait_ok | apply pipe_ok | apply read_ok | apply exec_ok | apply dup_ok | apply sbrk_ok | apply open_ok
              | apply write_ok | apply close_ok | solve [apply frame_calls; solve_frame] ] ].
Qed.

Lemma resume_settles me b : hoare (ok me) (resume me b) (fun _ => settled).
Proof.
  destruct b as [f addr len|addr n room|f n buf|status_ptr|t0 n]; cbn [Sysfile.resume].
  - apply settle_ok, hoare_ok. intros F Hg. by apply file_read_ok.
  - apply settle_ok, hoare_ok. intros F Hg. by apply read_console_ok.
  - eapply hoare_bind; [apply frame_calls, frame_file_at|]. intros x. repeat case_match; try apply hoare_panic.
    apply settle_ok, hoare_ok. intros F Hg. by apply write_pipe_ok.
  - apply settle_ok, hoare_ok. intros F Hg. by apply wait_round_ok.
  - apply settle_ok, ticksleep_ok.
Qed.

(** ** Runs of the system

    A running process makes a call or goes on with one; the scheduler switches
    processes; meanwhile the clock, the console and the memory of processes
    change. *)
Inductive sys_step : Sys -> Sys -> Prop :=
| step_call me p a0 a1 a2 num r s s' :
    (procs (tr_tab s)).[me] = Some p -> state p = RUNNING ->
    syscall me a0 a1 a2 num s = Ret (r, s') -> sys_step s s'
| step_resume me p b r s s' :
    (procs (tr_tab s)).[me] = Some p -> state p = RUNNING -> resume me b s = Ret (r, s') -> sys_step s s'
| step_switch k s s' : on_tab (Proc.run k) s = Ret (tt, s') -> sys_step s s'
| step_yield me p s s' :
    (procs (tr_tab s)).[me] = Some p -> state p = RUNNING -> on_tab (sched_yield me) s = Ret (tt, s') -> sys_step s s'
| step_wakeup chan s s' : wake chan s = Ret (tt, s') -> sys_step s s'
| step_env s now mem con :
    let w := tr_dev s in
    sys_step s (mkTrap now (tr_tab s) (mkWorld (w_files w) mem (w_fs w) (w_slabs w) (w_cur w) con)).

Lemma running_ok me p s : settled s -> (procs (tr_tab s)).[me] = Some p -> state p = RUNNING -> ok me s.
Proof.
  intros (F & Hs & Hc) Hp Hr. exists F. split; [done|]. split; [done|]. exists (files p). destruct Hs as [<- _].
  rewrite (views_at _ _ _ Hp). unfold view, dormant, is_zombie. by rewrite Hr.
Qed.

Lemma frame_settled {A} (m : T A) s a s' : frame m -> settled s -> m s = Ret (a, s') -> settled s'.
Proof. intros Hm (F & Hs & Hc) E. exists F. split; [|done]. by eapply (frame_inv m F none Hm). Qed.

Lemma active_view k (f : Proc Z -> Proc Z) : (forall p, files (f p) = files p) ->
  (forall p, dormant (f p) = false) -> forall t t', upd_proc k f t = Ret (tt, t') -> (exists p, (procs t).[k] = Some p /\ dormant p = false) ->
  views t' = views t.
Proof.
  intros Hf Hd t t' E (p & Hp & Hdp). apply upd_proc_view in E as (q & Hq & ->). assert (q = p) as -> by congruence.
  apply (views_upd _ _ p); [done|]. unfold view. by rewrite Hf, Hd, Hdp.
Qed.

Lemma sys_step_settled s s' : settled s -> sys_step s s' -> settled s'.
Proof.
  intros Hs Hstep. destruct Hstep as [me p a0 a1 a2 num r s s' Hp Hr E|me p b r s s' Hp Hr E|k s s' E|me p s s' Hp Hr E|chan s s' E|s now mem con].
  - by eapply syscall_settles, E; eapply running_ok.
  - by eapply resume_settles, E; eapply running_ok.
  - apply on_tab_ret in E as (t & E & ->). unfold Proc.run in E. apply bind_ret in E as (p & t1 & [Hp E1]%proc_at_ret & E). subst t1.
    apply bind_ret in E as ([] & t1 & E1 & E). pose proof (assert_ret _ _ _ _ _ E1). subst t1.
    unfold assert_ in E1. case_bool_decide as Hr; [|done].
    destruct Hs as (F & [HF Ht] & Hc). exists F. split; [|done]. split; [|done]. cbn [tr_tab]. rewrite <-HF.
    eapply active_view in E; [exact E|done|done|]. exists p. split; [done|]. unfold dormant, is_zombie. by rewrite Hr.
  - apply on_tab_ret in E as (t & E & ->). destruct Hs as (F & [HF Ht] & Hc). exists F. split; [|done]. split; [|done]. cbn [tr_tab].
    rewrite <-HF. eapply active_view in E; [exact E|done|done|]. exists p. split; [done|]. unfold dormant, is_zombie. by rewrite Hr.
  - by eapply frame_settled, E; [apply frame_wake|].
  - destruct Hs as (F & Hs & Hc). exists F. by split.
Qed.

(** At the start: no descriptors, and no file in use. *)
Definition at_boot (s : Sys) : Prop :=
  (forall k p, (procs (tr_tab s)).[k] = Some p -> Forall (eq None) (files p)) /\
  (forall k f, (wfiles s).[k] = Some f -> f = File_new).

Lemma boot_settled s : at_boot s -> settled s.
Proof.
  intros [Hp Hf]. exists (views (tr_tab s)). split.
  - split; [done|]. intros k f Hk. cbn in *. apply Hf in Hk as ->. assert (handles (views (tr_tab s)) none k = 0) as ->.
    { unfold handles, none, refs. rewrite held_none; [done|]. apply Forall_join. rewrite Forall_fmap. unfold views. rewrite Forall_fmap.
      apply Forall_forall. intros p Hin. apply list_elem_of_lookup in Hin as [i Hi]. apply (Hp (Z.of_nat i)). by rewrite znth_of_nat. }
    repeat split; cbn; lia.
  - intros j l Hj. unfold views in Hj. rewrite znth_fmap in Hj. destruct (procs (tr_tab s)).[j] as [p|] eqn:E; [|done].
    injection Hj as <- _. by eapply Hp.
Qed.

(** The number of descriptors, of all processes, on file [k]. *)
Definition descriptors (k : Z) (s : Sys) : Z := zlen (filter (fun e => e = Some k) (mjoin (files <$> procs (tr_tab s)))).

Lemma held_filter k l : zlen (filter (fun e => e = Some k) l) = held k l.
Proof.
  induction l as [|e l IH]; [done|]. cbn [held]. unfold one. rewrite filter_cons. case_decide; [rewrite zlen_cons|]; rewrite IH; lia.
Qed.
Lemma descriptors_refs k s : descriptors k s = refs k (views (tr_tab s)).
Proof. unfold descriptors, refs, views. rewrite held_filter, <-list_fmap_compose. done. Qed.

(** C13: Files live as long as their descriptors.  Over every run of system calls
    of any processes (opening, duplicating, closing, making pipes, forking,
    loading programs, exiting and being killed, with sleeping calls going on
    later, whatever fails in them) every open file's count is the number of
    descriptors of all processes that refer to it: a file with a descriptor
    has its object, and a file without one is free again. *)
Theorem descriptors_counted s0 s k f :
  at_boot s0 -> rtc sys_step s0 s -> (wfiles s).[k] = Some f ->
  f_ref f = descriptors k s /\ (0 < descriptors k s -> is_Some (f_fp f)) /\ (descriptors k s = 0 -> f = File_new).
Proof.
  intros Hb Hrun Hk. assert (Hs : settled s).
  { apply boot_settled in Hb. induction Hrun as [s|s s1 s2 Hst _ IH]; [done|]. apply IH; [by eapply sys_step_settled|done]. }
  destruct Hs as (F & [HF Ht] & _). destruct (Ht _ _ Hk) as (Hc & Hn & Hfp & Hz). cbn in *.
  rewrite descriptors_refs, HF. unfold handles, none in *. rewrite Z.add_0_r in *. done.
Qed.
End spec.
