(* ===== verification/SysfileError.v ===== *)
(** [open] in a process whose descriptors are all in use: its error path
    closes the file, which puts back the inode [open] itself has locked.  And
    a small running system, with the witnesses of the theorems on system
    calls. *)
From stdpp Require Import base list gmap strings relations.
From Stdlib Require Import ZArith Lia.
From S2P Require Import Prelude.
From S2P Require Import Arch.
From S2P Require Import Sleeplock.
From S2P Require Import BlockLayer.
From S2P Require Import Bio.
From S2P Require Import Fslog.
From S2P Require Import FsLayout.
From S2P Require Import Fs.
From S2P Require Import FsDir.
From S2P Require Import Kalloc.
From S2P Require Import Vm.
From S2P Require Import Cga.
From S2P Require Import Console.
From S2P Require Import Pipe.
From S2P Require Import FileTable.
From S2P Require Import Proc.
From S2P Require Import Trap.
From S2P Require Import Sysfile.
From S2P Require Import SysfileSpec.

Section error.
Context {S : Type} `{BlockOps S}.
Context (SLAB_NPIPES : Z) (read_chan write_chan : Z -> Z -> Z).
Notation F := (M (Fs S)).
Notation Sys := (Sys (S := S)).
Notation wfs s := (w_fs (tr_dev s)).

(** ** What locking an inode leaves *)
Definition locked_by (ip me : Z) (f : Fs S) : Prop :=
  fs_me f = me /\ exists i, (fs_icache f).[ip] = Some i /\ i_lock i = mkSleeplock true me.

Lemma inode_at_ret ip (f : Fs S) i f' : inode_at ip f = Ret (i, f') -> (fs_icache f).[ip] = Some i /\ f' = f.
Proof. intros E. unfold inode_at in E. rewrite bind_gets in E. cbn [id] in E. destruct (fs_icache f).[ip]; [|done]. by injection E as -> ->. Qed.

Definition reads {A} (m : F A) : Prop := forall f a f', m f = Ret (a, f') -> f' = f.
Lemma hoare_reads {A} P (m : F A) : reads m -> hoare P m (fun _ => P).
Proof. intros Hm f a f' HP E. by rewrite (Hm _ _ _ E). Qed.
Lemma reads_bind {A B} (m : F A) (k : A -> F B) : reads m -> (forall a, reads (k a)) -> reads (m ≫= k).
Proof. intros Hm Hk f b f' E. apply bind_ret in E as (a & f1 & E1 & E2). apply Hm in E1 as ->. by eapply Hk. Qed.
Lemma reads_lift {A} (o : outcome A) : reads (lift o).
Proof. intros f a f' E. unfold lift in E. destruct o; [|done|done]. by injection E as _ <-. Qed.
Lemma reads_inode_at ip : reads (inode_at ip).
Proof. intros f a f' E. by apply inode_at_ret in E as [_ ->]. Qed.

Lemma upd_inode_locked ip me g : (forall i, i_lock (g i) = i_lock i) ->
  hoare (locked_by ip me) (upd_inode ip g) (fun _ => locked_by ip me).
Proof.
  intros Hg f [] f' (Hme & i & Hi & Hl) E. unfold upd_inode in E. apply bind_ret in E as (j & f1 & [Hj ->]%inode_at_ret & E1).
  injection E1 as <-. split; [done|]. exists (g j). cbn [fs_icache put_icache]. assert (j = i) as -> by congruence.
  split; [by eapply znth_set_eq|]. by rewrite Hg.
Qed.
Lemma zoom_locked {A} ip me (m : M (Logged S) A) : hoare (locked_by ip me) (zoom fs_log put_log m) (fun _ => locked_by ip me).
Proof. intros f a f' Hf E. unfold zoom in E. destruct (m (fs_log f)) as [[r l]| |]; [|done|done]. injection E as <- <-. done. Qed.

(** The rest of [ilock]: reading the inode in. *)
Lemma load_locked ip me i sb :
  hoare (locked_by ip me) (ib ← lift (iblock sb (i_inum i));
    expect_r (bwith (i_dev i) ib (fun bp => blk ← bdata bp; upd_din ip (fun _ => get_dinode blk (i_inum i)))) "block read";;
    upd_inode ip (set_valid true);; t ← ityp ip; assert_ (negb (bool_decide (t = FtUnused))) "ilock: no type") (fun _ => locked_by ip me).
Proof.
  eapply hoare_bind; [apply hoare_reads, reads_lift|]. intros ib. apply (hoare_bind _ _ _ (fun _ => locked_by ip me)).
  - apply (hoare_bind _ _ _ (fun _ => locked_by ip me)).
    + eapply hoare_try; [apply zoom_locked| |done]. intros bp. eapply hoare_bind.
      * eapply hoare_bind; [apply zoom_locked|]. intros blk. unfold upd_din. eapply hoare_bind; [apply hoare_reads, reads_inode_at|].
        intros j. by apply upd_inode_locked.
      * intros ?. eapply hoare_bind; [apply zoom_locked|]. intros ?. by apply hoare_ret.
    + intros [r|e]; [by apply hoare_ret|apply hoare_panic].
  - intros ?. eapply hoare_bind; [by apply upd_inode_locked|]. intros ?.
    eapply hoare_bind; [apply hoare_reads; unfold ityp; apply reads_bind; [apply reads_inode_at|intros ?; apply reads_lift]|].
    intros t g u g' Hg E. by apply assert_ret in E as ->.
Qed.

Lemma ilock_locked ip me : hoare (fun f => fs_me f = me) (ilock ip) (fun _ => locked_by ip me).
Proof.
  intros f [] f' Hme E. unfold ilock in E. apply bind_ret in E as (i & f1 & [Hi ->]%inode_at_ret & E).
  apply bind_ret in E as (? & f1 & E1%assert_ret & E). subst f1.
  apply bind_ret in E as (sb & f1 & E1 & E). assert (f1 = f) as ->.
  { unfold superblock_of in E1. apply bind_ret in E1 as (j & f2 & [_ ->]%inode_at_ret & E2). by apply expect_ret in E2. }
  clear E1. rewrite bind_gets, Hme in E. apply bind_ret in E as (l & f1 & E1 & E). assert (f1 = f /\ l = mkSleeplock true me) as [-> ->].
  { unfold lift, Sleeplock_acquire in E1. destruct (Sleeplock_holding _ _); [done|]. destruct (locked _); [done|]. by injection E1 as <- <-. }
  clear E1. apply bind_ret in E as ([] & f1 & E1 & E). assert (Hl : locked_by ip me f1).
  { unfold upd_inode in E1. apply bind_ret in E1 as (j & f2 & [Hj ->]%inode_at_ret & E2). injection E2 as <-. split; [done|].
    eexists. split; [by eapply znth_set_eq|done]. }
  destruct (negb (i_valid i)); [|by injection E as <-]. by eapply (load_locked ip me i sb).
Qed.

(** A process that holds the lock cannot put the inode back. *)
Lemma iput_nested ip me (f : Fs S) : locked_by ip me f -> iput ip f = Panic "nested sleep lock".
Proof.
  intros (Hme & i & Hi & Hl). unfold iput. rewrite bind_gets, Hme.
  rewrite (bind_run _ _ f i f) by (unfold inode_at; rewrite bind_gets; cbn [id]; by rewrite Hi).
  unfold mbind, M_bind, lift, Sleeplock_acquire, Sleeplock_holding. rewrite Hl. cbn [Sleeplock.pid]. by rewrite Z.eqb_refl.
Qed.

Lemma inode_close_nested ip me (f : Fs S) :
  locked_by ip me f -> op_ready_to_begin (lg (fs_log f)) (st (fs_log f)) = true -> inode_close ip f = Panic "nested sleep lock".
Proof.
  intros Hl Hr. unfold inode_close, fs_with_op. erewrite bind_run.
  2:{ apply zoom_run. unfold op_begin. rewrite bind_gets. cbn [id]. by rewrite Hr. }
  unfold mbind, M_bind at 1. unfold expect_r. rewrite (bind_panic _ _ _ "nested sleep lock"); [done|].
  by apply (iput_nested ip me).
Qed.

(** ** [open] *)
Definition fs_for (p : Proc Z) (s : Sys) : Fs S :=
  mkFs (fs_log (wfs s)) (fs_icache (wfs s)) (fs_sb (wfs s)) (Proc.pid p) (default (-1) (cwd p)).

Lemma this_run me (s : Sys) p : (procs (tr_tab s)).[me] = Some p -> this me s = Ret (p, s).
Proof. intros Hp. unfold this, on_tab. rewrite (ProcSpec.proc_at_run _ _ _ Hp). by destruct s. Qed.

Lemma in_fs_ret {A} me (m : F A) (s : Sys) a s' : in_fs me m s = Ret (a, s') ->
  exists p f', (procs (tr_tab s)).[me] = Some p /\ m (fs_for p s) = Ret (a, f') /\ wfs s' = f' /\
    tr_tab s' = tr_tab s /\ w_files (tr_dev s') = w_files (tr_dev s).
Proof.
  intros E. unfold in_fs in E. apply bind_ret in E as (p & s1 & [Hp ->]%this_ret & E). unfold zoom in E. fold (fs_for p s) in E.
  destruct (m (fs_for p s)) as [[r f']| |] eqn:Em; [|done|done]. injection E as <- <-. by exists p, f'.
Qed.
Lemma in_fs_panic {A} me (m : F A) (s : Sys) p e : (procs (tr_tab s)).[me] = Some p -> m (fs_for p s) = Panic e -> in_fs me m s = Panic e.
Proof. intros Hp Em. unfold in_fs. rewrite (bind_run _ _ _ _ _ (this_run _ _ _ Hp)). unfold zoom. fold (fs_for p s). by rewrite Em. Qed.

(** What the first part of [open] leaves: the inode locked by the process. *)
Lemma open_inode_locked me path (s : Sys) ip s1 p :
  (procs (tr_tab s)).[me] = Some p -> open_inode me path false s = Ret (Prelude.Ok ip, s1) ->
  tr_tab s1 = tr_tab s /\ locked_by ip (Proc.pid p) (wfs s1).
Proof.
  intros Hp E. unfold open_inode, try_ in E. apply bind_ret in E as (r & s2 & E1 & E).
  apply in_fs_ret in E1 as (q & f & _ & _ & _ & Ht & _). destruct r as [ip'|e]; [|done].
  apply bind_ret in E as ([] & s3 & E2 & [= -> <-]). apply in_fs_ret in E2 as (p' & f' & Hp' & El & Hf & Ht' & _).
  rewrite Ht in Hp'. assert (p' = p) as -> by congruence. split; [congruence|]. rewrite Hf. exact (ilock_locked ip (Proc.pid p) (fs_for p s2) tt f' eq_refl El).
Qed.

Lemma alloc_fd_full me f (s : Sys) p : (procs (tr_tab s)).[me] = Some p -> Forall is_Some (files p) -> alloc_fd me f s = Ret (None, s).
Proof.
  intros Hp Hall. unfold alloc_fd, with_proc. rewrite (bind_run _ _ _ _ _ (this_run _ _ _ Hp)).
  assert (Hfd : Proc.alloc_fd f p = (None, p)).
  { unfold Proc.alloc_fd. destruct (position _ (files p)) as [k|] eqn:Ek; [|done].
    apply position_Some in Ek as [(e & He & Hb) _]. apply bool_decide_eq_true in Hb. subst e.
    rewrite Forall_lookup in Hall. by destruct (Hall _ _ He). }
  rewrite Hfd. cbn [fst snd]. erewrite bind_run; [done|]. unfold on_tab. rewrite (ProcSpec.upd_proc_run _ _ _ _ Hp).
  unfold put_procs. rewrite zset_id by done. by destruct s as [? [] ?].
Qed.

(** A file just made is the only reference to its object. *)
Lemma alloc_close (fs : list (@File Like)) mode l k x : fs.[k] = Some x -> f_ref x = 0 ->
  exists f fs', FileTable.alloc mode l fs = Ret (Some f, fs') /\ exists fs'', FileTable.close f fs' = Ret (Some l, fs'').
Proof.
  intros Hk Hx. destruct (alloc_spec fs mode l) as [(f & y & Hf & Hy & E)|[Hn _]]; [|by destruct (Hn k x Hk)].
  eexists f, _. split; [exact E|]. set (z := mkFile _ _ _ _). assert (Hz : (fs.[f <- z]).[f] = Some z) by (by eapply znth_set_eq).
  rewrite (close_spec _ f z Hz); [|cbn; lia|by eexists]. cbn [f_ref z]. rewrite Hy. eexists. done.
Qed.

(** C26: Opening a file without a free descriptor brings the kernel down.  If a
    process all of whose descriptors are in use opens, for reading or writing,
    a file or directory that exists, and there is a free entry in the file
    table and room in the log, [open] panics: to undo its work it closes the
    new file, which puts back the inode that [open] itself has locked. *)
Theorem open_without_descriptor_panics me (s s1 : Sys) p path_ptr path flags mode ip k x :
  (procs (tr_tab s)).[me] = Some p -> Forall is_Some (files p) ->
  fetch_str me path_ptr s = Ret (Some path, s) -> parse_flags flags = Prelude.Ok (mode, false) ->
  (in_fs me (zoom fs_log put_log op_begin);; open_inode me path false) s = Ret (Prelude.Ok ip, s1) ->
  open_like me ip mode s1 = Ret (Prelude.Ok (LInode ip), s1) ->
  (w_files (tr_dev s1)).[k] = Some x -> f_ref x = 0 ->
  op_ready_to_begin (lg (fs_log (wfs s1))) (st (fs_log (wfs s1))) = true ->
  open SLAB_NPIPES read_chan write_chan me path_ptr flags s = Panic "nested sleep lock".
Proof.
  intros Hp Hall Hstr Hfl Hrun Hlike Hk Hx Hready.
  apply bind_ret in Hrun as ([] & s0 & Hbegin & Hopen). pose proof (in_fs_ret _ _ _ _ _ Hbegin) as (q & f0 & Hq & _ & _ & Ht0 & _).
  assert (Hp0 : (procs (tr_tab s0)).[me] = Some p) by (by rewrite Ht0).
  destruct (open_inode_locked _ _ _ _ _ _ Hp0 Hopen) as [Ht1 Hl].
  unfold open. rewrite (bind_run _ _ _ _ _ Hstr). cbn [ok_or]. unfold try_ at 1. rewrite bind_mret, Hfl. unfold try_ at 1. rewrite bind_mret.
  cbn [fst snd]. unfold sys_with_op. rewrite (bind_run _ _ _ _ _ Hbegin). apply bind_panic. unfold try_. rewrite (bind_run _ _ _ _ _ Hopen).
  unfold open_locked. rewrite (bind_run _ _ _ _ _ Hlike).
  destruct (alloc_close (w_files (tr_dev s1)) mode (LInode ip) k x Hk Hx) as (f & fs' & Ea & fs'' & Ec).
  set (s2 := put_world (fun w => mkWorld fs' (w_mem w) (w_fs w) (w_slabs w) (w_cur w) (w_con w)) s1).
  rewrite (bind_run _ _ s1 (Some f) s2) by (unfold in_files, zoom; by rewrite Ea).
  assert (Hp2 : (procs (tr_tab s2)).[me] = Some p) by (cbn [s2 put_world tr_tab]; by rewrite Ht1).
  rewrite (bind_run _ _ _ _ _ (alloc_fd_full me f s2 p Hp2 Hall)). apply bind_panic. unfold file_close.
  set (s3 := put_world (fun w => mkWorld fs'' (w_mem w) (w_fs w) (w_slabs w) (w_cur w) (w_con w)) s2).
  rewrite (bind_run _ _ s2 (Some (LInode ip)) s3) by (unfold in_files, zoom; change (w_files (tr_dev s2)) with fs'; by rewrite Ec).
  apply (in_fs_panic _ _ s3 p); [done|]. apply (inode_close_nested _ (Proc.pid p)); [|done].
  destruct Hl as (_ & i & Hi & Hlk). split; [done|]. by exists i.
Qed.
End error.

(** ** A small system: init, a process with one page of memory, and a disk
    with a root directory *)
Module SysDemo.
Definition ok {A St} (d : St) (o : outcome (A * St)) : St := match o with Ret (_, s) => s | _ => d end.
Definition value {A St} (d : A) (o : outcome (A * St)) : A := match o with Ret (a, _) => a | _ => d end.
Lemma run_returns {A St} (a : A) (d : St) (o : outcome (A * St)) :
  (match o with Ret (a, _) => Some a | _ => None end) = Some a -> o = Ret (a, ok d o).
Proof. destruct o as [[b s]| |]; [by intros [= ->]|done|done]. Qed.

Definition pages0 : list Z := (fun k => KERNBASE + k * PAGE_SIZE) <$> zrange 1 13.
Definition fl0 : FreeList := ok fl_boot (free_pages pages0 fl_boot).
Definition root : Z := default 0 (value None (Kalloc.alloc fl0)).
Definition fl1 : FreeList := ok fl_boot (Kalloc.alloc fl0).
Definition fl2 : FreeList := ok fl_boot (alloc_user root 0 PAGE_SIZE (Z.lor USER WRITE) fl1).
(** The path ["/"] at address 100. *)
Definition fl3 : FreeList := ok fl_boot (store_bytes root 100 [47; 0] fl2).

Definition bio : Bio :=
  let b k p n := mkBuf Sleeplock_new 0 0 0 0 k p n LIST_NONE (zrep BSIZE 0) in
  mkBio (mkBCache 0 2 [b 0 LIST_NONE 1; b 1 0 2; b 2 1 LIST_NONE]) 5
    (fun n => if n =? 0 then put_dinode (zrep BSIZE 0) 1 (mkDInode 1 0 0 1 0 (zrep 13 0)) else zrep BSIZE 0) [].
Definition fs : Fs Bio :=
  mkFs (mkLogged bio (set_metadata ROOTDEV 1000 511 Log_new) (mkLogState 0 false)) (zrep 3 Inode_new)
    (mkSuperblock 100 0 0 511 1000 0 200) 5 (-1).
Definition con : Con := mkCon None None (mkReader (zrep 256 0) 0 0 0) 0 0.
Definition proc (fds : list (option Z)) : Proc Z :=
  mkProc RUNNING 5 (Some 7000) false (Some root) (Some 1) (zrep 16 0) PAGE_SIZE fds None.
Definition init : Proc Z := mkProc RUNNABLE 1 (Some 7000) false (Some 1) (Some 1) (zrep 16 0) PAGE_SIZE (zrep NOFILE None) None.
Definition sys (files : list (@File Like)) (fds : list (option Z)) : Sys (S := Bio) :=
  mkTrap 0 (mkTable [init; proc fds] 6 0) (mkWorld files fl3 fs ∅ None con).
Definition chans (a k : Z) : Z := a + k.
Definition s0 : Sys := sys (zrep 3 File_new) (zrep NOFILE None).
Definition s1 : Sys := ok s0 (syscall (fun k => 7000 + k) 1 2 20 chans chans 3 (zrep 4 0) 1 200 0 0 4 s0).
End SysDemo.

(** A pipe: two files, one descriptor on each. *)
Lemma descriptors_counted_witness :
  exists f, (w_files (tr_dev SysDemo.s1)).[0] = Some f /\ f_ref f = descriptors 0 SysDemo.s1 /\ descriptors 0 SysDemo.s1 = 1.
Proof.
  destruct ((w_files (tr_dev SysDemo.s1)).[0]) as [f|] eqn:Hf; [|vm_compute in Hf; discriminate]. exists f. split; [reflexivity|].
  split; [|vm_compute; reflexivity].
  apply (descriptors_counted (fun k => 7000 + k) 1 2 20 SysDemo.chans SysDemo.chans 3 (zrep 4 0) SysDemo.s0 SysDemo.s1 0 f); [|
    |exact Hf].
  - split.
    + intros k p Hp. pose proof (znth_range _ _ _ Hp) as Hr. change (zlen _) with 2 in Hr.
      assert (k = 0 \/ k = 1) as [->| ->] by lia; vm_compute in Hp; injection Hp as <-; repeat constructor.
    + intros k x Hx. pose proof (znth_range _ _ _ Hx) as Hr. change (zlen _) with 3 in Hr.
      assert (k = 0 \/ k = 1 \/ k = 2) as [->|[->| ->]] by lia; vm_compute in Hx; by injection Hx as <-.
  - apply rtc_once. eapply (step_call _ _ _ _ _ _ _ _ 1 (SysDemo.proc (zrep NOFILE None)) 200 0 0 4 (Returns 0)); [reflexivity|reflexivity|].
    apply SysDemo.run_returns. vm_compute. reflexivity.
Defined.

(** The path ["/"], opened with all descriptors on file 0. *)
Lemma open_without_descriptor_panics_witness :
  let files := [mkFile OfRead (Some LConsole) 0 NOFILE; File_new; File_new] in
  open 20 SysDemo.chans SysDemo.chans 1 100 0 (SysDemo.sys files (zrep NOFILE (Some 0))) = Panic "nested sleep lock".
Proof.
  intros files. set (s := SysDemo.sys files (zrep NOFILE (Some 0))).
  set (run := (in_fs 1 (zoom fs_log put_log op_begin);; open_inode 1 [47] false) s).
  apply (open_without_descriptor_panics 20 SysDemo.chans SysDemo.chans 1 s (SysDemo.ok s run)
    (SysDemo.proc (zrep NOFILE (Some 0))) 100 [47] 0 OfRead 0 1 File_new).
  - reflexivity.
  - repeat constructor; by eexists.
  - vm_compute. reflexivity.
  - reflexivity.
  - apply SysDemo.run_returns. vm_compute. reflexivity.
  - vm_compute. reflexivity.
  - vm_compute. reflexivity.
  - reflexivity.
  - vm_compute. reflexivity.
Defined.
