(* ===== verification/FirstProc.v ===== *)
(** The start of the first process, [firstret], in the state of the system
    calls. *)
From stdpp Require Import base list gmap strings.
From Stdlib Require Import ZArith Lia.
From S2P Require Import Prelude.
From S2P Require Import Arch.
From S2P Require Import BlockLayer.
From S2P Require Import Fslog.
From S2P Require Import FslogCrash.
From S2P Require Import FsLayout.
From S2P Require Import Fs.
From S2P Require Import FsDir.
From S2P Require Import FsCrash.
From S2P Require Import Proc.
From S2P Require Import ProcSpec.
From S2P Require Import Trap.
From S2P Require Import Sysfile.
From S2P Require Import SysfileError.

Section first.
Context {S : Type} `{BL : BlockLaws S}.
Context (sb : Superblock) (start size : Z).

(** On any disk the log can repair, [firstret] returns: the file system is up
    with the disk's committed contents, and the process is in the root
    directory, with nothing else of it and no other process changed. *)
Theorem firstret_mounts_root me (s : Sys (S := S)) p d tgt :
  LOGSIZE < capacity -> (procs (tr_tab s)).[me] = Some p -> powered_on (fs_for p s) d ->
  super_at sb start size d -> recoverable start size d tgt ->
  exists root s' a, firstret me s = Ret (0, s') /\
    booted sb start size (w_fs (tr_dev s')) a root /\ home_eq start size (view a) tgt /\
    procs (tr_tab s') = (procs (tr_tab s)).[me <- set_cwd root p].
Proof.
  intros room Hp Hon Hsu Hrec. destruct (firstret_run sb start size _ d tgt room Hon Hsu Hrec) as (root & m' & a & E & Hb & Hv & _).
  eexists root, _, a. split; [|split; [|split; [done|]]].
  - unfold firstret. erewrite bind_run; [|unfold in_fs; rewrite (bind_run _ _ _ _ _ (this_run _ _ _ Hp)); by apply zoom_run].
    unfold on_tab, mbind, M_bind. cbn [tr_tab put_world]. by rewrite (upd_proc_run _ _ _ _ Hp).
  - exact Hb.
  - done.
Qed.
End first.
