(* ===== verification/Ustring.v ===== *)
(** The user library's string and printing functions, [lib.rs] and
    [rvdprintf.rs] of ulib, on a memory of bytes. *)
From stdpp Require Import base list gmap strings.
From Stdlib Require Import ZArith Lia.
From S2P Require Import Prelude.

Definition Mem : Type := gmap Z Z.
Definition load (a : Z) : M Mem Z := m ← gets id; expect (m !! a) "page fault".
Definition store (a b : Z) : M Mem unit := load a;; modify (fun m => <[a := b]> m).

(** ** Strings *)

(** The scan stops at a zero byte or faults, so it takes no more steps than
    there are bytes. *)
Fixpoint strlen_from (fuel : nat) (s k : Z) : M Mem Z :=
  match fuel with
  | O => diverge
  | S fuel' => b ← load (s + k); if b =? 0 then mret k else strlen_from fuel' s (k + 1)
  end.
Definition strlen (s : Z) : M Mem Z := m ← gets id; strlen_from (S (size m)) s 0.

Fixpoint load_bytes (a : Z) (n : nat) : M Mem (list Z) :=
  match n with
  | O => mret []
  | S n' => b ← load a; bs ← load_bytes (a + 1) n'; mret (b :: bs)
  end.
Fixpoint store_bytes (a : Z) (bs : list Z) : M Mem unit :=
  match bs with
  | [] => mret tt
  | b :: bs' => store a b;; store_bytes (a + 1) bs'
  end.
Definition cstr2slice (s : Z) : M Mem (list Z) := n ← strlen s; load_bytes s (Z.to_nat n).

Definition strlcpy (dst src size : Z) : M Mem Z :=
  s ← cstr2slice src;
  k ← (if zlen s <? size then mret (zlen s) else lift (sub_ovf size 1));
  store_bytes dst (take (Z.to_nat k) s);;
  store (dst + k) 0;;
  mret (zlen s).

(** A null result is [None]. *)
Definition strchr (s c : Z) : M Mem (option Z) :=
  bs ← cstr2slice s;
  mret (match position (fun ch => ch =? c) bs with Some off => Some (s + Z.of_nat off) | None => None end).

Definition byte_or_0 (p : list Z) (k : nat) : Z := default 0 (p !! k).
Fixpoint strcmp_from (p q : list Z) (ks : list nat) : Z :=
  match ks with
  | [] => 0
  | k :: ks' =>
    let a := byte_or_0 p k in
    let b := byte_or_0 q k in
    if a =? b then strcmp_from p q ks' else a - b
  end.
Definition strcmp (p q : Z) : M Mem Z :=
  ps ← cstr2slice p;
  qs ← cstr2slice q;
  mret (strcmp_from ps qs (seq 0 (Nat.max (length ps) (length qs)))).

Definition is_digit (c : Z) : bool := (48 <=? c) && (c <=? 57).
Fixpoint take_while (f : Z -> bool) (s : list Z) : list Z :=
  match s with
  | c :: s' => if f c then c :: take_while f s' else []
  | [] => []
  end.
(** The sum is an [i32]. *)
Fixpoint atoi_fold (sum : Z) (s : list Z) : outcome Z :=
  match s with
  | [] => Ret sum
  | c :: s' =>
    if 2 ^ 31 <=? sum * 10 then Panic "attempt to multiply with overflow"
    else if 2 ^ 31 <=? sum * 10 + (c - 48) then Panic "attempt to add with overflow"
    else atoi_fold (sum * 10 + (c - 48)) s'
  end.
Definition atoi (s : Z) : M Mem Z := bs ← cstr2slice s; lift (atoi_fold 0 (take_while is_digit bs)).

(** ** Memory *)
Fixpoint memcpy_from (dst src : Z) (ks : list Z) : M Mem unit :=
  match ks with
  | [] => mret tt
  | k :: ks' => b ← load (src + k); store (dst + k) b;; memcpy_from dst src ks'
  end.
Definition memcpy (dst src len : Z) : M Mem Z := memcpy_from dst src (zrange 0 len);; mret dst.
Definition memmove (dst src len : Z) : M Mem Z := memcpy dst src len.

Fixpoint memcmp_from (a b : Z) (ks : list Z) : M Mem Z :=
  match ks with
  | [] => mret 0
  | k :: ks' =>
    aa ← load (a + k);
    bb ← load (b + k);
    if aa <? bb then mret (-1) else if bb <? aa then mret 1 else memcmp_from a b ks'
  end.
Definition memcmp (a b n : Z) : M Mem Z := memcmp_from a b (zrange 0 n).

Fixpoint memset_from (dst c : Z) (ks : list Z) : M Mem unit :=
  match ks with
  | [] => mret tt
  | k :: ks' => store (dst + k) c;; memset_from dst c ks'
  end.
Definition memset (dst c n : Z) : M Mem Z := memset_from dst c (zrange 0 n);; mret dst.

(** ** Printing

    The result is what is written to the descriptor. *)
Definition DIGITS : list Z := [48; 49; 50; 51; 52; 53; 54; 55; 56; 57; 65; 66; 67; 68; 69; 70].

Fixpoint print_loop (fuel : nat) (buf : list Z) (cnt x b : Z) : outcome (list Z) :=
  match DIGITS.[x mod b] with
  | None => Panic "index out of bounds"
  | Some d =>
    let buf := buf.[cnt <- d] in
    let x := x / b in
    if (0 <? cnt) && negb (x =? 0) then
      match fuel with
      | O => Diverge
      | S fuel' => print_loop fuel' buf (cnt - 1) x b
      end
    else Ret (drop (Z.to_nat cnt) buf)
  end.
Definition printint (x b : Z) : outcome (list Z) := print_loop 31 (zrep 32 48) 31 x b.

(** The argument of a verb: an integer as the register holds it, or the
    bytes of a string, [None] for the null pointer. *)
Inductive arg := IntArg (x : Z) | StrArg (s : option (list Z)).

Definition app_out (pre : list Z) (o : outcome (list Z)) : outcome (list Z) :=
  match o with Ret bs => Ret (pre ++ bs) | Panic e => Panic e | Diverge => Diverge end.

Definition to_i32 (x : Z) : Z := let y := x mod 2 ^ 32 in if y <? 2 ^ 31 then y else y - 2 ^ 32.

Definition with_int (ap : list arg) (f : Z -> outcome (list Z)) : outcome (list Z) * list arg :=
  match ap with
  | IntArg x :: ap' => (f x, ap')
  | _ => (Panic "no such argument", ap)
  end.
Definition with_str (ap : list arg) (f : option (list Z) -> outcome (list Z)) : outcome (list Z) * list arg :=
  match ap with
  | StrArg s :: ap' => (f s, ap')
  | _ => (Panic "no such argument", ap)
  end.

(** [printv]: the output of the verb [c] and the arguments left. *)
Definition printv (c : Z) (ap : list arg) : outcome (list Z) * list arg :=
  if c =? 37 then (Ret [37], ap)
  else if c =? 99 then with_int ap (fun x => Ret [Z.land (x mod 2 ^ 32) 0xFF])
  else if c =? 100 then
    with_int ap (fun x => let d := to_i32 x in
      if d <? 0 then app_out [45] (printint (Z.abs d) 10) else printint d 10)
  else if c =? 111 then with_int ap (fun x => printint (x mod 2 ^ 64) 8)
  else if (c =? 112) || (c =? 120) then with_int ap (fun x => printint (x mod 2 ^ 64) 16)
  else if c =? 115 then with_str ap (fun s => Ret (default [40; 110; 117; 108; 108; 41] s))
  else (Ret [37; c], ap).

(** [rvdprintf]: a verb after each [%]; a [%] at the end prints nothing. *)
Fixpoint rvdprintf (verb : bool) (fmt : list Z) (ap : list arg) : outcome (list Z) :=
  match fmt with
  | [] => Ret []
  | c :: fmt' =>
    if verb then
      match printv c ap with
      | (Ret out, ap') => app_out out (rvdprintf false fmt' ap')
      | (Panic e, _) => Panic e
      | (Diverge, _) => Diverge
      end
    else if c =? 37 then rvdprintf true fmt' ap
    else app_out [c] (rvdprintf false fmt' ap)
  end.

(** ** Printed numbers read back *)
Definition digit_value (d : Z) : Z := if d <=? 57 then d - 48 else d - 55.
Definition value (b : Z) (ds : list Z) : Z := foldl (fun acc d => acc * b + digit_value d) 0 ds.

Lemma foldl_value b ds acc : foldl (fun acc d => acc * b + digit_value d) acc ds = acc * b ^ zlen ds + value b ds.
Proof.
  revert acc. unfold value. induction ds as [|d ds IH]; intros acc; [change (zlen []) with 0; rewrite Z.pow_0_r; cbn; lia|].
  cbn [foldl]. rewrite IH, (IH (0 * b + digit_value d)), zlen_cons. rewrite Z.pow_add_r by (lia || apply zlen_nonneg). nia.
Qed.

Lemma value_cons b d ds : value b (d :: ds) = digit_value d * b ^ zlen ds + value b ds.
Proof. unfold value at 1. cbn [foldl]. rewrite foldl_value. lia. Qed.

Lemma digits_ok k : 0 <= k < 16 -> exists d, DIGITS.[k] = Some d /\ digit_value d = k /\ d ∈ DIGITS.
Proof.
  intros Hk. assert (Hin : k ∈ zrange 0 16) by (by apply elem_of_zrange).
  assert (Hall : Forall (fun k => exists d, DIGITS.[k] = Some d /\ digit_value d = k) (zrange 0 16)).
  { repeat (constructor; [eexists; split; reflexivity|]). constructor. }
  rewrite Forall_forall in Hall. destruct (Hall k Hin) as (d & Hd & Hv). exists d. split; [done|]. split; [done|].
  apply znth_Some in Hd as [_ Hd]. by eapply list_elem_of_lookup_2.
Qed.

(** One turn of the loop writes one digit in front of those written. *)
Lemma drop_zset (buf : list Z) cnt d : 0 <= cnt < zlen buf ->
  drop (Z.to_nat cnt) buf.[cnt <- d] = d :: drop (Z.to_nat (cnt + 1)) buf.
Proof.
  intros H. unfold zset. rewrite (proj2 (Z.leb_le 0 cnt)), (proj2 (Z.ltb_lt cnt (zlen buf))) by lia. cbn [andb].
  replace (Z.to_nat (cnt + 1)) with (S (Z.to_nat cnt)) by lia.
  assert (Hl : (Z.to_nat cnt < length buf)%nat) by (unfold zlen in H; lia).
  rewrite (drop_S _ d); [by rewrite drop_insert_lt by lia|]. by apply list_lookup_insert_eq.
Qed.

Lemma print_loop_run b : 8 <= b <= 16 -> forall fuel buf cnt x,
  Z.of_nat fuel = cnt -> cnt < zlen buf -> 0 <= x < b ^ (cnt + 1) ->
  exists ds, print_loop fuel buf cnt x b = Ret (ds ++ drop (Z.to_nat (cnt + 1)) buf) /\ ds <> [] /\
    value b ds = x /\ Forall (fun d => d ∈ DIGITS) ds /\ (0 < x -> forall d, head ds = Some d -> d <> 48).
Proof.
  intros Hb. assert (Hlast : forall buf cnt x, 0 <= cnt < zlen buf -> 0 <= x < b ->
    exists d, DIGITS.[x mod b] = Some d /\ drop (Z.to_nat cnt) buf.[cnt <- d] = [d] ++ drop (Z.to_nat (cnt + 1)) buf /\
      value b [d] = x /\ d ∈ DIGITS /\ (0 < x -> d <> 48)).
  { intros buf cnt x Hc Hx. rewrite Z.mod_small by lia. destruct (digits_ok x) as (d & Hd & Hv & Hin); [lia|].
    exists d. split; [done|]. split; [by apply drop_zset|]. split; [unfold value; cbn [foldl]; lia|]. split; [done|].
    intros H0 ->. change (digit_value 48) with 0 in Hv. lia. }
  induction fuel as [|fuel IH]; intros buf cnt x Hf Hc Hx; cbn [print_loop].
  - assert (cnt = 0) as -> by lia. rewrite Z.pow_1_r in Hx.
    destruct (Hlast buf 0 x) as (d & -> & Hdr & Hv & Hin & Hne); [lia|done|]. change (0 <? 0) with false. cbn [andb].
    exists [d]. rewrite Hdr. naive_solver.
  - destruct (decide (x / b = 0)) as [E|E].
    + assert (x < b) by (pose proof (Z.div_mod x b); pose proof (Z.mod_pos_bound x b); nia).
      destruct (Hlast buf cnt x) as (d & -> & Hdr & Hv & Hin & Hne); [lia|lia|]. rewrite E. change (0 =? 0) with true.
      rewrite andb_false_r. exists [d]. rewrite Hdr. naive_solver.
    + destruct (digits_ok (x mod b)) as (d & -> & Hv & Hin); [pose proof (Z.mod_pos_bound x b); lia|].
      rewrite (proj2 (Z.ltb_lt 0 cnt)), (proj2 (Z.eqb_neq (x / b) 0)) by (done || lia). cbn [andb negb].
      assert (Hx' : 0 <= x / b < b ^ (cnt - 1 + 1)).
      { replace (cnt - 1 + 1) with cnt by lia. split; [apply Z.div_pos; lia|]. apply Z.div_lt_upper_bound; [lia|].
        rewrite Z.pow_add_r, Z.pow_1_r in Hx by lia. lia. }
      destruct (IH buf.[cnt <- d] (cnt - 1) (x / b)) as (ds & Hr & Hne & Hval & Hds & Hhd); [lia|rewrite zlen_zset; lia|done|].
      exists (ds ++ [d]). rewrite Hr. replace (cnt - 1 + 1) with cnt by lia. rewrite drop_zset by lia.
      split; [by rewrite <-app_assoc|]. split; [by destruct ds|]. split; [|split].
      * unfold value. rewrite foldl_app. cbn [foldl]. fold (value b ds). rewrite Hval, Hv.
        pose proof (Z.div_mod x b). lia.
      * apply Forall_app. split; [done|]. by constructor.
      * intros H0 e He. destruct ds as [|d0 ds]; [done|]. cbn in He. injection He as <-. apply Hhd; [|done].
        pose proof (Z.div_pos x b). lia.
Qed.

Lemma pow_bound b : 8 <= b -> 2 ^ 64 < b ^ 32.
Proof. intros Hb. apply Z.lt_le_trans with (8 ^ 32); [reflexivity|]. apply Z.pow_le_mono_l. lia. Qed.

(** Printing a number prints that number: for every 64-bit number and
    each of the three bases, [printint] returns (the buffer of 32 digits is
    always enough) digits whose value in that base is the number, with no
    leading zero unless the number is zero. *)
Theorem printint_prints_value x b :
  0 <= x < 2 ^ 64 -> b ∈ [8; 10; 16] ->
  exists ds, printint x b = Ret ds /\ ds <> [] /\ value b ds = x /\ Forall (fun d => d ∈ DIGITS) ds /\
    (0 < x -> forall d, head ds = Some d -> d <> 48).
Proof.
  intros Hx Hb. assert (8 <= b <= 16) by (rewrite !elem_of_cons, elem_of_nil in Hb; lia).
  pose proof (pow_bound b ltac:(lia)).
  destruct (print_loop_run b ltac:(done) 31 (zrep 32 48) 31 x) as (ds & Hr & H1 & H2 & H3 & H4); [done|done|lia|].
  exists ds. unfold printint. rewrite Hr. split; [|done]. change (drop _ _) with (@nil Z). by rewrite app_nil_r.
Qed.

Lemma printint_prints_value_witness :
  exists ds, printint 0xDEADBEEF 16 = Ret ds /\ value 16 ds = 0xDEADBEEF.
Proof.
  destruct (printint_prints_value 0xDEADBEEF 16) as (ds & H1 & _ & H2 & _); [lia|set_solver|].
  exists ds. split; [exact H1|exact H2].
Defined.

(** ** Copying memory *)
Lemma load_run (m : Mem) a b : m !! a = Some b -> load a m = Ret (b, m).
Proof. intros E. unfold load, mbind, M_bind, gets, expect. cbn. by rewrite E. Qed.

Lemma store_run (m : Mem) a b : is_Some (m !! a) -> store a b m = Ret (tt, <[a := b]> m).
Proof. intros [c E]. unfold store. by rewrite (bind_run _ _ _ _ _ (load_run _ _ _ E)). Qed.

(** Where the byte that ends at offset [k] comes from. *)
Definition origin (dst src k : Z) : Z := if src <? dst then src + k mod (dst - src) else src + k.

(** Memory after [k] bytes. *)
Definition copied (dst src k : Z) (m m' : Mem) : Prop := forall a,
  m' !! a = if decide (dst <= a < dst + k) then m !! origin dst src (a - dst) else m !! a.

Lemma copied_next dst src k (m m' : Mem) :
  0 <= k -> copied dst src k m m' -> m' !! (src + k) = m !! origin dst src k.
Proof.
  intros Hk Hc. rewrite Hc. unfold origin. destruct (src <? dst) eqn:E; bool_to_prop.
  - case_decide as Hin.
    + f_equal. f_equal. replace (src + k - dst) with (k + (-1) * (dst - src)) by lia. by rewrite Z.mod_add by lia.
    + rewrite Z.mod_small by lia. done.
  - rewrite decide_False by lia. done.
Qed.

Lemma memcpy_from_run dst src len (m : Mem) :
  (forall k, 0 <= k < len -> is_Some (m !! (src + k)) /\ is_Some (m !! (dst + k))) ->
  forall n k m', Z.of_nat n = len - k -> 0 <= k <= len -> copied dst src k m m' ->
  exists m'', memcpy_from dst src (zrange k len) m' = Ret (tt, m'') /\ copied dst src len m m''.
Proof.
  intros Hmap. induction n as [|n IH]; intros k m' Hn Hk Hc.
  - assert (k = len) as -> by lia. exists m'. unfold zrange, step_range. by rewrite (proj2 (Z.ltb_ge _ _)) by lia.
  - rewrite zrange_cons by lia. cbn [memcpy_from].
    assert (Hdst : is_Some (m' !! (dst + k))).
    { rewrite Hc, decide_False by lia. apply Hmap. lia. }
    assert (Hsrc : is_Some (m !! origin dst src k)).
    { unfold origin. destruct (src <? dst) eqn:E; bool_to_prop; [|apply Hmap; lia].
      apply Hmap. pose proof (Z.mod_pos_bound k (dst - src)). pose proof (Z.mod_le k (dst - src)). lia. }
    destruct Hsrc as [b Hb]. pose proof (copied_next dst src k m m' ltac:(lia) Hc) as Hload. rewrite Hb in Hload.
    rewrite (bind_run _ _ _ _ _ (load_run _ _ _ Hload)), (bind_run _ _ _ _ _ (store_run _ _ _ Hdst)).
    apply IH; [lia|lia|]. intros a. destruct (decide (a = dst + k)) as [->|Hne].
    + rewrite (lookup_insert_eq (M:=gmap Z) m'), decide_True by lia. replace (dst + k - dst) with k by lia. by rewrite Hb.
    + rewrite (lookup_insert_ne (M:=gmap Z) m') by done. rewrite Hc. case_decide; case_decide; (done || lia).
Qed.

(** C34: What [memmove] does, which is [memcpy]: on mapped ranges it returns,
    changes only the destination, and leaves at offset [k] the source byte at
    [k] if the destination begins at or below the source or the ranges do not
    overlap; if the destination begins [d] bytes above an overlapping source,
    the first [d] bytes of the source are repeated instead. *)
Theorem memmove_copies (m : Mem) dst src len :
  0 <= len ->
  (forall k, 0 <= k < len -> is_Some (m !! (src + k)) /\ is_Some (m !! (dst + k))) ->
  exists m', memmove dst src len m = Ret (dst, m') /\
    (forall k, 0 <= k < len -> m' !! (dst + k) = m !! (src + if src <? dst then k mod (dst - src) else k)) /\
    (forall a, a < dst \/ dst + len <= a -> m' !! a = m !! a).
Proof.
  intros Hl Hmap. destruct (memcpy_from_run dst src len m Hmap (Z.to_nat len) 0 m) as (m' & Hr & Hc); [lia|lia| |].
  { intros a. by rewrite decide_False by lia. }
  exists m'. unfold memmove, memcpy. rewrite (bind_run _ _ _ _ _ Hr). split; [done|]. split.
  - intros k Hk. rewrite Hc, decide_True by lia. unfold origin. replace (dst + k - dst) with k by lia. by case_bool.
  - intros a Ha. rewrite Hc, decide_False by lia. done.
Qed.

(** Moving three bytes up by one repeats the first. *)
Lemma memmove_copies_witness :
  exists m', memmove 101 100 3 (list_to_map [(100, 1); (101, 2); (102, 3); (103, 4)]) = Ret (101, m') /\
    m' !! 103 = Some 1.
Proof.
  destruct (memmove_copies (list_to_map [(100, 1); (101, 2); (102, 3); (103, 4)]) 101 100 3) as (m' & H1 & H2 & _); [lia| |].
  - intros k Hk. assert (k = 0 \/ k = 1 \/ k = 2) as [->|[->| ->]] by lia; split; eexists; reflexivity.
  - exists m'. split; [exact H1|]. exact (H2 2 ltac:(lia)).
Defined.
