(* ===== verification/Machine.v ===== *)
(** The processor as the kernel's assembly sees it: registers, segments,
    flags, the two GS bases, model-specific registers and memory by words,
    with the instructions that [x86_64.rs], [syscall.rs], [swtch.S] and the
    user library's stubs use.  The semantics is written once over an interface
    of values and memory ([Dom]); one instance is the machine itself, the
    other a symbolic executor whose runs are runs of the machine
    ([exec_sim]). *)
From stdpp Require Import base list gmap strings.
From Stdlib Require Import ZArith Lia.
From S2P Require Import Prelude.

(** ** Registers and instructions *)
Inductive Reg := RAX | RBX | RCX | RDX | RSI | RDI | RBP | RSP | R8 | R9 | R10 | R11 | R12 | R13 | R14 | R15.
Inductive Seg := DS | ES | FS | GS | CS | SS.

Definition reg_num (r : Reg) : nat :=
  match r with
  | RAX => 0 | RBX => 1 | RCX => 2 | RDX => 3 | RSI => 4 | RDI => 5 | RBP => 6 | RSP => 7
  | R8 => 8 | R9 => 9 | R10 => 10 | R11 => 11 | R12 => 12 | R13 => 13 | R14 => 14 | R15 => 15
  end.
Definition seg_num (g : Seg) : nat :=
  match g with DS => 0 | ES => 1 | FS => 2 | GS => 3 | CS => 4 | SS => 5 end.
Definition reg_eqb (a b : Reg) : bool := Nat.eqb (reg_num a) (reg_num b).
Definition seg_eqb (a b : Seg) : bool := Nat.eqb (seg_num a) (seg_num b).

(** Operands: an immediate, a register, a segment register, [d(b)], [%gs:d]. *)
Inductive Opd := Imm (z : Z) | Rg (r : Reg) | Sg (g : Seg) | Mem (d : Z) (b : Reg) | GsMem (d : Z).

(** In the source's order, source operand first.  A jump goes forward to the
    next label of its number; [Jmp] goes to an address.  [Callq] is a call of a Rust function, from the
    instruction to its return. *)
Inductive Instr :=
| Pushq (src : Opd) | Popq (dst : Reg) | Pushfq
| Movq (src dst : Opd) | Movw (src dst : Opd) | Movl (z : Z) (d : Z) (b : Reg)
| Lea (d : Z) (b : Reg) (dst : Reg)
| Addq (z : Z) (dst : Reg) | Subq (z : Z) (dst : Reg) | Xor (src dst : Reg)
| Cmpq (z : Z) (o : Opd) | Je (l : nat) | Lbl (l : nat)
| Cli | Swapgs | Callq (f : string) | Jmp (a : Z) | Retq | Iretq | Syscall | Sysretq.

(** ** Flags

    RFLAGS is kept as its status bits, which arithmetic sets, and the rest. *)
Definition b2z (b : bool) (i : Z) : Z := if b then Z.shiftl 1 i else 0.
Definition STATUS : Z := 0x8D5.
Definition INTR_EN : Z := Z.shiftl 1 9.
Definition parity (r : Z) : bool := negb (foldr xorb false (Z.testbit r <$> [0; 1; 2; 3; 4; 5; 6; 7])).
Definition status (carry adjust overflow : bool) (r : Z) : Z :=
  foldl Z.lor 0 [b2z carry 0; b2z (parity r) 2; b2z adjust 4; b2z (r =? 0) 6; b2z (Z.testbit r 63) 7; b2z overflow 11].
Definition sub_status (a b : Z) : Z :=
  let r := wrap 64 (a - b) in
  status (a <? b) (a mod 16 <? b mod 16)
    (xorb (Z.testbit a 63) (Z.testbit b 63) && xorb (Z.testbit a 63) (Z.testbit r 63)) r.
Definition add_status (a b : Z) : Z :=
  let r := wrap 64 (a + b) in
  status (2 ^ 64 <=? a + b) (16 <=? a mod 16 + b mod 16)
    (negb (xorb (Z.testbit a 63) (Z.testbit b 63)) && xorb (Z.testbit a 63) (Z.testbit r 63)) r.

(** The bits [i, i+n) of a word, and their replacement. *)
Definition get_bits (i n w : Z) : Z := Z.land (Z.shiftr w i) (Z.ones n).
Definition put_bits (i n w v : Z) : Z :=
  Z.lor (Z.ldiff w (Z.shiftl (Z.ones n) i)) (Z.shiftl (Z.land v (Z.ones n)) i).

(** The operations on numbers that instructions make, by name. *)
Inductive Op1 := OClear (mask : Z) | OKeep (mask : Z) | OGetBits (i n : Z) | OStatus | OSelector (i add rpl : Z).
Inductive Op2 := OOr | OXor | OAddStatus | OSubStatus | OPutBits (i n : Z).
Definition op1 (o : Op1) (x : Z) : Z :=
  match o with
  | OClear k => Z.ldiff x k | OKeep k => Z.land x k | OGetBits i n => get_bits i n x
  | OStatus => status false false false x
  | OSelector i add rpl => Z.lor (get_bits i 16 x + add) rpl
  end.
Definition op2 (o : Op2) (x y : Z) : Z :=
  match o with
  | OOr => Z.lor x y | OXor => Z.lxor x y | OAddStatus => add_status x y | OSubStatus => sub_status x y
  | OPutBits i n => put_bits i n x y
  end.

(** ** Values and memory *)
Class Dom (V Mm : Type) := {
  vnum : Z -> V;
  vun : Op1 -> V -> V;
  vbin : Op2 -> V -> V -> V;
  vknown : V -> option Z;
  vadd : V -> Z -> option V;
  vload : Z -> Mm -> V -> option V;
  vstore : Z -> Mm -> V -> V -> option Mm }.

(** The register files. *)
Record RegFile (V : Type) := mkRegs {
  r_rax : V; r_rbx : V; r_rcx : V; r_rdx : V; r_rsi : V; r_rdi : V; r_rbp : V; r_rsp : V;
  r_r8 : V; r_r9 : V; r_r10 : V; r_r11 : V; r_r12 : V; r_r13 : V; r_r14 : V; r_r15 : V }.
Record SegFile (V : Type) := mkSegs { s_ds : V; s_es : V; s_fs : V; s_gs : V; s_cs : V; s_ss : V }.
Definition get_reg {V} (f : RegFile V) (r : Reg) : V :=
  match f, r with
  | mkRegs _ a b c d si di bp sp r8 r9 r10 r11 r12 r13 r14 r15, r =>
    match r with
    | RAX => a | RBX => b | RCX => c | RDX => d | RSI => si | RDI => di | RBP => bp | RSP => sp
    | R8 => r8 | R9 => r9 | R10 => r10 | R11 => r11 | R12 => r12 | R13 => r13 | R14 => r14 | R15 => r15
    end
  end.
Definition get_seg {V} (f : SegFile V) (g : Seg) : V :=
  match f with mkSegs _ d e f' g' c s =>
    match g with DS => d | ES => e | FS => f' | GS => g' | CS => c | SS => s end
  end.
Definition tab_regs {V} (f : Reg -> V) : RegFile V :=
  mkRegs V (f RAX) (f RBX) (f RCX) (f RDX) (f RSI) (f RDI) (f RBP) (f RSP) (f R8) (f R9) (f R10) (f R11)
    (f R12) (f R13) (f R14) (f R15).
Definition tab_segs {V} (f : Seg -> V) : SegFile V := mkSegs V (f DS) (f ES) (f FS) (f GS) (f CS) (f SS).

Lemma get_tab_regs {V} (f : Reg -> V) r : get_reg (tab_regs f) r = f r.
Proof. by destruct r. Qed.
Lemma get_tab_segs {V} (f : Seg -> V) g : get_seg (tab_segs f) g = f g.
Proof. by destruct g. Qed.

Record Mach (V Mm : Type) := mkMach {
  rfile : RegFile V; sfile : SegFile V; ctl : V; stat : V; rip : V; gs_base : V; kgs_base : V;
  msr : Z -> Z; mem : Mm }.
Arguments mkMach {V Mm}. Arguments rfile {V Mm}. Arguments sfile {V Mm}. Arguments ctl {V Mm}.
Arguments stat {V Mm}. Arguments rip {V Mm}. Arguments gs_base {V Mm}. Arguments kgs_base {V Mm}.
Arguments msr {V Mm}. Arguments mem {V Mm}.
Definition regs {V Mm} (s : Mach V Mm) : Reg -> V := get_reg (rfile s).
Definition segs {V Mm} (s : Mach V Mm) : Seg -> V := get_seg (sfile s).

Section semantics.
Context {V Mm : Type} {D : Dom V Mm}.
Notation S := (Mach V Mm).
Notation T := (M (Mach V Mm)).

Definition put_reg (r : Reg) (v : V) (s : S) : S :=
  mkMach (tab_regs (fun x => if reg_eqb r x then v else regs s x)) (sfile s) (ctl s) (stat s) (rip s) (gs_base s) (kgs_base s) (msr s) (mem s).
Definition put_seg (g : Seg) (v : V) (s : S) : S :=
  mkMach (rfile s) (tab_segs (fun x => if seg_eqb g x then v else segs s x)) (ctl s) (stat s) (rip s) (gs_base s) (kgs_base s) (msr s) (mem s).
Definition put_flags (c st : V) (s : S) : S :=
  mkMach (rfile s) (sfile s) c st (rip s) (gs_base s) (kgs_base s) (msr s) (mem s).
Definition put_rip (v : V) (s : S) : S :=
  mkMach (rfile s) (sfile s) (ctl s) (stat s) v (gs_base s) (kgs_base s) (msr s) (mem s).
Definition put_gs (g k : V) (s : S) : S :=
  mkMach (rfile s) (sfile s) (ctl s) (stat s) (rip s) g k (msr s) (mem s).
Definition put_mem (m : Mm) (s : S) : S :=
  mkMach (rfile s) (sfile s) (ctl s) (stat s) (rip s) (gs_base s) (kgs_base s) (msr s) m.

Definition addr (base : V) (d : Z) : T V := expect (vadd base d) "address".
Definition load (n : Z) (a : V) : T V := m ← gets mem; expect (vload n m a) "load".
Definition store (n : Z) (a v : V) : T unit :=
  m ← gets mem; m' ← expect (vstore n m a v) "store"; modify (put_mem m').

Definition opd_addr (o : Opd) : T V :=
  match o with
  | Mem d b => s ← gets id; addr (regs s b) d
  | GsMem d => s ← gets id; addr (gs_base s) d
  | _ => panic "not a memory operand"
  end.
Definition rd (n : Z) (o : Opd) : T V :=
  match o with
  | Imm z => mret (vnum z)
  | Rg r => gets (fun s => regs s r)
  | Sg g => gets (fun s => segs s g)
  | _ => a ← opd_addr o; load n a
  end.
Definition wr (n : Z) (o : Opd) (v : V) : T unit :=
  match o with
  | Imm _ => panic "not writable"
  | Rg r => modify (put_reg r v)
  | Sg g => modify (put_seg g v)
  | _ => a ← opd_addr o; store n a v
  end.

Definition push (v : V) : T unit :=
  s ← gets id; sp ← addr (regs s RSP) (-8); modify (put_reg RSP sp);; store 8 sp v.
Definition pop : T V :=
  s ← gets id; v ← load 8 (regs s RSP); sp ← addr (regs s RSP) 8; modify (put_reg RSP sp);; mret v.

Definition rflags (s : S) : V := vbin OOr (ctl s) (stat s).
Definition set_rflags (v : V) (s : S) : S :=
  put_flags (vun (OClear STATUS) v) (vun (OKeep STATUS) v) s.
Definition set_status (v : V) (s : S) : S := put_flags (ctl s) v s.

Definition STAR : Z := 0xc0000081.
Definition LSTAR : Z := 0xc0000082.
Definition FMASK : Z := 0xc0000084.

Definition exec1 (call : string -> T unit) (i : Instr) : T unit :=
  match i with
  | Pushq o => v ← rd 8 o; push v
  | Popq r => v ← pop; modify (put_reg r v)
  | Pushfq => v ← gets rflags; push v
  | Movq a b => v ← rd 8 a; wr 8 b v
  | Movw a b => v ← rd 2 a; wr 2 b v
  | Movl z d b => a ← opd_addr (Mem d b); store 4 a (vnum z)
  | Lea d b r => a ← opd_addr (Mem d b); modify (put_reg r a)
  | Addq z r =>
    s ← gets id; v ← addr (regs s r) z;
    modify (set_status (vbin OAddStatus (regs s r) (vnum z)));; modify (put_reg r v)
  | Subq z r =>
    s ← gets id; v ← addr (regs s r) (- z);
    modify (set_status (vbin OSubStatus (regs s r) (vnum z)));; modify (put_reg r v)
  | Xor a b =>
    s ← gets id;
    let v := if reg_eqb a b then vnum 0 else vbin OXor (regs s a) (regs s b) in
    modify (set_status (vun OStatus v));; modify (put_reg b v)
  | Cmpq z o => v ← rd 8 o; modify (set_status (vbin OSubStatus v (vnum z)))
  | Cli => modify (fun s => put_flags (vun (OClear INTR_EN) (ctl s)) (stat s) s)
  | Swapgs => modify (fun s => put_gs (kgs_base s) (gs_base s) s)
  | Callq f => call f
  | Jmp a => modify (put_rip (vnum a))
  | Retq => v ← pop; modify (put_rip v)
  | Iretq =>
    ip ← pop; cs ← pop; fl ← pop; sp ← pop; ss ← pop;
    modify (put_rip ip);; modify (put_seg CS cs);; modify (set_rflags fl);;
    modify (put_reg RSP sp);; modify (put_seg SS ss)
  | Syscall =>
    s ← gets id;
    modify (put_reg RCX (rip s));; modify (put_reg R11 (rflags s));;
    modify (put_flags (vun (OClear (msr s FMASK)) (ctl s))
                      (vun (OClear (msr s FMASK)) (stat s)));;
    modify (put_seg CS (vun (OSelector 32 0 0) (vnum (msr s STAR))));;
    modify (put_seg SS (vun (OSelector 32 8 0) (vnum (msr s STAR))));;
    modify (put_rip (vnum (msr s LSTAR)))
  | Sysretq =>
    s ← gets id;
    modify (put_rip (regs s RCX));; modify (set_rflags (regs s R11));;
    modify (put_seg CS (vun (OSelector 48 16 3) (vnum (msr s STAR))));;
    modify (put_seg SS (vun (OSelector 48 8 0) (vnum (msr s STAR))))
  | Je _ | Lbl _ => mret tt
  end.

(** Delivery of an interrupt or exception through an interrupt gate to
    [handler] on the stack at [stack], with the error word of the exceptions
    that have one: from user mode the stack segment becomes null. *)
Definition deliver (stack : V) (err : option V) (handler : Z) : T unit :=
  s ← gets id;
  cs ← expect (vknown (segs s CS)) "cs";
  modify (put_reg RSP stack);;
  push (segs s SS);; push (regs s RSP);; push (rflags s);; push (segs s CS);; push (rip s);;
  (match err with Some e => push e | None => mret tt end);;
  (if cs mod 4 =? 3 then modify (put_seg SS (vnum 0)) else mret tt);;
  modify (put_seg CS (vnum 8));;
  modify (fun s => put_flags (vun (OClear (Z.lor INTR_EN (Z.shiftl 1 8))) (ctl s)) (stat s) s);;
  modify (put_rip (vnum handler)).

(** Running code: [sk] is the label a taken jump is on its way to. *)
Fixpoint exec (call : string -> T unit) (c : list Instr) (sk : option nat) : T (option nat) :=
  match c with
  | [] => mret sk
  | i :: c' =>
    match sk, i with
    | Some l, Lbl l' => exec call c' (if Nat.eqb l l' then None else Some l)
    | Some l, _ => exec call c' (Some l)
    | None, Je l =>
      st ← gets stat; z ← expect (vknown st) "flags";
      exec call c' (if Z.testbit z 6 then Some l else None)
    | None, _ => exec1 call i;; exec call c' None
    end
  end.

Lemma exec_app call c1 c2 sk s :
  exec call (c1 ++ c2) sk s = (exec call c1 sk ≫= exec call c2) s.
Proof.
  revert sk s. induction c1 as [|i c1 IH]; intros sk s; [done|].
  destruct sk as [l|]; cbn [app exec].
  - destruct i; apply IH.
  - assert (Hb : forall m : T unit, (m;; exec call (c1 ++ c2) None) s = ((m;; exec call c1 None) ≫= exec call c2) s).
    { intros m. unfold mbind, M_bind. destruct (m s) as [[[] s']| |]; [apply IH|done..]. }
    destruct i; try apply Hb. unfold mbind, M_bind, gets, expect. destruct (vknown (stat s)); [apply IH|done].
Qed.
End semantics.

(** ** The machine: 64-bit numbers, and memory by aligned words *)
Definition mem_upd (m : Z -> Z) (a v : Z) : Z -> Z := fun x => if x =? a then v else m x.
(** The word an access of [n] bytes at [a] falls into, if it is aligned. *)
Definition word_of (n a : Z) : option Z := if a mod n =? 0 then Some (a - a mod 8) else None.

#[export] Instance dom_machine : Dom Z (Z -> Z) := {
  vnum := fun z => z;
  vun := op1;
  vbin := op2;
  vknown := fun x => Some x;
  vadd := fun a i => Some (wrap 64 (a + i));
  vload := fun n m a =>
    w ← word_of n a; Some (if n =? 8 then m w else get_bits (8 * (a - w)) (8 * n) (m w));
  vstore := fun n m a v =>
    w ← word_of n a; Some (mem_upd m w (if n =? 8 then v else put_bits (8 * (a - w)) (8 * n) (m w) v)) }.

Notation CPUState := (Mach Z (Z -> Z)).

(** ** Code in memory

    A piece of straight-line code with the address it lies at and the address
    after its last instruction, which is the only one to read or set [rip].
    Control goes from piece to piece by [rip]; where no piece lies, the run
    fails. *)
Record Piece := mkPiece { p_at : Z; p_code : list Instr; p_after : Z }.
Definition run_piece (call : string -> M CPUState unit) (p : Piece) : M CPUState unit :=
  modify (put_rip (p_after p));;
  sk ← exec call (p_code p) None;
  assert_ (bool_decide (sk = None)) "jump to no label".
Fixpoint run_linked (call : string -> M CPUState unit) (code : list Piece) (n : nat) : M CPUState unit :=
  match n with
  | O => mret tt
  | S n' =>
    s ← gets id;
    p ← expect (find (fun p => p_at p =? rip s) code) "no code there";
    run_piece call p;;
    run_linked call code n'
  end.

Lemma run_linked_step call code n p (s s' : CPUState) :
  rip s = p_at p -> find (fun q => p_at q =? p_at p) code = Some p ->
  exec call (p_code p) None (put_rip (p_after p) s) = Ret (None, s') ->
  run_linked call code (S n) s = run_linked call code n s'.
Proof.
  intros Hp Hf E. cbn [run_linked]. unfold run_piece, mbind, M_bind, gets, modify. cbn [id]. rewrite Hp, Hf. cbn [expect].
  unfold mret, M_ret. by rewrite E.
Qed.

(** ** Symbolic values: a number, an operation on numbers that is not carried
    out, a place in a region of memory, anything *)
Inductive Val := Num (z : Z) | App1 (f : Op1) (x : Val) | App2 (f : Op2) (x y : Val) | Ptr (r : nat) (o : Z) | Unk.
Definition Smem : Type := list (nat * Z * Val).
Fixpoint smem_get (m : Smem) (r : nat) (o : Z) : Val :=
  match m with
  | [] => Unk
  | (r', o', v) :: m' => if Nat.eqb r r' && (o =? o') then v else smem_get m' r o
  end.
Definition smem_upd (m : Smem) (r : nat) (o : Z) (v : Val) : Smem := (r, o, v) :: m.

Section symbolic.
(** The offsets of each region, from a lowest to a highest. *)
Context (ext : nat -> Z * Z).

Definition in_region (r : nat) (o : Z) : bool := (fst (ext r) <=? o) && (o <=? snd (ext r)).
Definition sword (n : Z) (r : nat) (o : Z) : option Z :=
  let w := o - o mod 8 in
  if (o mod n =? 0) && in_region r w && in_region r (w + 8) then Some w else None.
(** The number a value is, if it is one. *)
Fixpoint number (v : Val) : option Z :=
  match v with
  | Num x => Some x
  | App1 f x => op1 f <$> number x
  | App2 f x y => match number x, number y with Some a, Some b => Some (op2 f a b) | _, _ => None end
  | _ => None
  end.
Definition opaque (v : Val) : bool := match v with Ptr _ _ | Unk => true | _ => false end.
Definition sbin (f : Op2) (v w : Val) : Val := if opaque v || opaque w then Unk else App2 f v w.
Definition sun (f : Op1) (v : Val) : Val := if opaque v then Unk else App1 f v.

Definition dom_symbolic : Dom Val Smem := {|
  vnum := Num;
  vun := sun;
  vbin := sbin;
  vknown := number;
  vadd := fun v i =>
    match v with
    | Num z => Some (Num (wrap 64 (z + i)))
    | Ptr r o => if in_region r (o + i) then Some (Ptr r (o + i)) else None
    | _ => Some Unk
    end;
  vload := fun n m v =>
    match v with
    | Ptr r o => w ← sword n r o; Some (if n =? 8 then smem_get m r w else sun (OGetBits (8 * (o - w)) (8 * n)) (smem_get m r w))
    | _ => None
    end;
  vstore := fun n m v x =>
    match v with
    | Ptr r o =>
      w ← sword n r o;
      Some (smem_upd m r w (if n =? 8 then x else sbin (OPutBits (8 * (o - w)) (8 * n)) (smem_get m r w) x))
    | _ => None
    end |}.

(** ** Symbolic runs are runs of the machine

    A region [r] lies at [base r]; regions do not overlap, and no address in
    one wraps around. *)
Context (base : nat -> Z).

Record regions_ok : Prop := {
  ro_align : forall r, base r mod 8 = 0;
  ro_range : forall r o, in_region r o = true -> 0 <= base r + o < 2 ^ 64;
  ro_apart : forall r r' o o', in_region r o = true -> in_region r (o + 8) = true ->
    in_region r' o' = true -> in_region r' (o' + 8) = true -> base r + o = base r' + o' -> r = r' }.
Hypothesis Hok : regions_ok.

Definition den (x : Z) (v : Val) : Prop :=
  match v with
  | Ptr r o => x = base r + o /\ in_region r o = true
  | Unk => True
  | _ => number v = Some x
  end.

(** An aligned word of a region. *)
Definition cell (r : nat) (o : Z) : Prop := in_region r o = true /\ in_region r (o + 8) = true /\ o mod 8 = 0.

Record sim (m0 : Z -> Z) (s : CPUState) (a : Mach Val Smem) : Prop := {
  sim_regs : forall r, den (regs s r) (regs a r);
  sim_segs : forall g, den (segs s g) (segs a g);
  sim_ctl : den (ctl s) (ctl a);
  sim_stat : den (stat s) (stat a);
  sim_rip : den (rip s) (rip a);
  sim_gs : den (gs_base s) (gs_base a);
  sim_kgs : den (kgs_base s) (kgs_base a);
  sim_msr : msr s = msr a;
  sim_mem : forall r o, cell r o -> den (mem s (base r + o)) (smem_get (mem a) r o);
  sim_rest : forall x, (forall r o, cell r o -> x <> base r + o) -> mem s x = m0 x }.

#[local] Existing Instance dom_symbolic.
Notation C := (M CPUState). Notation Y := (M (Mach Val Smem)).

Context (m0 : Z -> Z).
(** Whatever the symbolic body does, the machine's does. *)
Definition msim {A B} (RA : A -> B -> Prop) (c : C A) (y : Y B) : Prop := forall s a b a',
  sim m0 s a -> y a = Ret (b, a') -> exists x s', c s = Ret (x, s') /\ RA x b /\ sim m0 s' a'.

Lemma msim_ret {A B} (RA : A -> B -> Prop) x b : RA x b -> msim RA (mret x) (mret b).
Proof. intros H s a b' a' Hs [= <- <-]. eauto. Qed.

Lemma msim_bind {A B A' B'} (RA : A -> B -> Prop) (RB : A' -> B' -> Prop) (c : C A) (y : Y B) (f : A -> C A') (g : B -> Y B') :
  msim RA c y -> (forall x b, RA x b -> msim RB (f x) (g b)) -> msim RB (c ≫= f) (y ≫= g).
Proof.
  intros H Hf s a b a' Hs E. unfold mbind, M_bind in E. destruct (y a) as [[b1 a1]| |] eqn:E1; try done.
  destruct (H _ _ _ _ Hs E1) as (x & s1 & E2 & Hx & Hs1). rewrite (bind_run _ _ _ _ _ E2). by eapply Hf.
Qed.

Lemma msim_gets {A B} (RA : A -> B -> Prop) f g :
  (forall s a, sim m0 s a -> RA (f s) (g a)) -> msim RA (gets f : C A) (gets g : Y B).
Proof. intros H s a b a' Hs [= <- <-]. eexists _, _. split; [done|]. auto. Qed.

Lemma msim_modify f g :
  (forall s a, sim m0 s a -> sim m0 (f s) (g a)) -> msim (fun _ _ => True) (modify f : C unit) (modify g).
Proof. intros H s a b a' Hs [= <- <-]. eexists _, _. split; [done|]. auto. Qed.

Lemma msim_expect {A B} (RA : A -> B -> Prop) (o : option A) (p : option B) msg :
  (forall b, p = Some b -> exists x, o = Some x /\ RA x b) -> msim RA (expect o msg : C A) (expect p msg).
Proof.
  intros H s a b a' Hs E. destruct p as [b0|]; [|done]. injection E as <- <-.
  destruct (H _ eq_refl) as (x & -> & ?). eexists _, _. split; [done|]. auto.
Qed.

(** ** The interface's operations *)
Lemma den_number x v z : den x v -> number v = Some z -> x = z.
Proof. destruct v; cbn [den]; try congruence; done. Qed.

Lemma number_den x v : opaque v = false -> den x v <-> number v = Some x.
Proof. by destruct v. Qed.

Lemma den_un f x v : den x v -> den (op1 f x) (sun f v).
Proof.
  intros H. unfold sun. destruct (opaque v) eqn:E; [done|]. apply (number_den _ _ E) in H. cbn [den]. cbn. by rewrite H.
Qed.

Lemma den_bin f x v y w : den x v -> den y w -> den (op2 f x y) (sbin f v w).
Proof.
  intros Hx Hy. unfold sbin. destruct (opaque v) eqn:E, (opaque w) eqn:E'; try done. cbn [orb].
  apply (number_den _ _ E) in Hx. apply (number_den _ _ E') in Hy. cbn [den]. cbn. by rewrite Hx, Hy.
Qed.

Lemma den_add x v i v' :
  den x v -> vadd v i = Some v' -> exists y, vadd (Mm := Z -> Z) x i = Some y /\ den y v'.
Proof.
  intros Hx E. eexists. split; [done|]. destruct v as [z|f z|f y z|r o|]; cbn in *; [by simplify_eq|by simplify_eq|by simplify_eq| |by simplify_eq].
  destruct (in_region r (o + i)) eqn:Hr; simplify_eq. destruct Hx as [-> _]. cbn. split; [|done].
  pose proof (ro_range Hok _ _ Hr). unfold wrap. rewrite Z.mod_small by lia. lia.
Qed.

Definition width (n : Z) : Prop := n = 2 \/ n = 4 \/ n = 8.

Lemma word_den n r o w :
  width n -> sword n r o = Some w -> cell r w /\ word_of n (base r + o) = Some (base r + w) /\ o - w = base r + o - (base r + w).
Proof.
  intros Hn. unfold sword, word_of. destruct (_ && _) eqn:E; [|done]. intros [= <-]. bool_to_prop.
  pose proof (ro_align Hok r) as Ha.
  assert (Hm : (base r + o) mod 8 = o mod 8) by (rewrite Z.add_mod, Ha, Z.add_0_l, Z.mod_mod by lia; done).
  assert (Hmn : (base r + o) mod n = 0).
  { assert (Hd : (n | 8)) by (destruct Hn as [->|[->| ->]]; [by exists 4|by exists 2|by exists 1]).
    assert ((n | base r)) by (etransitivity; [done|]; apply Z.mod_divide; [lia|done]).
    assert (0 < n) by (destruct Hn as [->|[->| ->]]; lia).
    apply Z.mod_divide; [lia|]. apply Z.divide_add_r; [done|]. apply Z.mod_divide; [lia|]. done. }
  rewrite Hmn, Hm. cbn. split; [|split; [f_equal; lia|lia]].
  split; [done|]. split; [done|]. rewrite Zminus_mod_idemp_r, Z.sub_diag. done.
Qed.

Lemma load_sim n x v s a w :
  width n -> sim m0 s a -> den x v -> vload n (mem a) v = Some w ->
  exists y, vload n (mem s) x = Some y /\ den y w.
Proof.
  intros Hn Hs Hx E. destruct v as [| | |r o|]; [done|done|done| |done]. destruct Hx as [-> _]. cbn in E.
  destruct (sword n r o) as [o'|] eqn:Eo; cbn in E; [|done]. injection E as <-.
  destruct (word_den _ _ _ _ Hn Eo) as (Hc & Ew & Ed). cbn. rewrite Ew. cbn. rewrite <-Ed. eexists. split; [done|].
  pose proof (sim_mem _ _ _ Hs _ _ Hc). case_bool; [done|by apply (den_un (OGetBits _ _))].
Qed.

Lemma store_sim n x v y w s a ma :
  width n -> sim m0 s a -> den x v -> den y w -> vstore n (mem a) v w = Some ma ->
  exists ms, vstore n (mem s) x y = Some ms /\ sim m0 (put_mem ms s) (put_mem ma a).
Proof.
  intros Hn Hs Hx Hy E. destruct v as [| | |r o|]; [done|done|done| |done]. destruct Hx as [-> _]. cbn in E.
  destruct (sword n r o) as [o'|] eqn:Eo; cbn in E; [|done]. injection E as <-.
  destruct (word_den _ _ _ _ Hn Eo) as (Hc & Ew & Ed). cbn. rewrite Ew. cbn. rewrite <-Ed. eexists. split; [done|].
  destruct Hs. split; cbn; try done.
  - intros r1 o1 Hc1. unfold mem_upd, smem_upd. cbn [smem_get]. destruct (Z.eqb_spec (base r1 + o1) (base r + o')) as [He|He].
    + assert (r1 = r) as -> by (destruct Hc as (?&?&?), Hc1 as (?&?&?); by apply (ro_apart Hok r1 r o1 o')).
      assert (o1 = o') as -> by lia. rewrite Nat.eqb_refl, Z.eqb_refl. cbn.
      case_bool; [done|]. apply (den_bin (OPutBits _ _)); [by apply sim_mem0|done].
    + destruct (Nat.eqb_spec r1 r) as [->|], (Z.eqb_spec o1 o') as [->|]; cbn; auto. lia.
  - intros z Hz. unfold mem_upd. rewrite (proj2 (Z.eqb_neq _ _)) by (by apply Hz). auto.
Qed.

(** ** Updates of the state *)
Lemma sim_put_reg r x v s a : sim m0 s a -> den x v -> sim m0 (put_reg r x s) (put_reg r v a).
Proof. intros [] ?. split; try done. intros r'. unfold regs, put_reg. cbn [rfile]. rewrite !get_tab_regs. case_bool; auto. Qed.
Lemma sim_put_seg g x v s a : sim m0 s a -> den x v -> sim m0 (put_seg g x s) (put_seg g v a).
Proof. intros [] ?. split; try done. intros r'. unfold segs, put_seg. cbn [sfile]. rewrite !get_tab_segs. case_bool; auto. Qed.
(** More may be known of a register than its symbolic value says. *)
Lemma sim_refine_reg r v s a : sim m0 s a -> den (regs s r) v -> sim m0 s (put_reg r v a).
Proof.
  intros [] ?. split; try done. intros r'. unfold regs at 2, put_reg. cbn [rfile]. rewrite get_tab_regs.
  unfold reg_eqb. destruct (Nat.eqb_spec (reg_num r) (reg_num r')) as [E|]; [|done].
  assert (r = r') as <- by (destruct r, r'; done). done.
Qed.
Lemma sim_refine_gs v w s a : sim m0 s a -> den (gs_base s) v -> den (kgs_base s) w -> sim m0 s (put_gs v w a).
Proof. intros [] ??. by split. Qed.
Lemma sim_refine_seg g v s a : sim m0 s a -> den (segs s g) v -> sim m0 s (put_seg g v a).
Proof.
  intros [] ?. split; try done. intros g'. unfold segs at 2, put_seg. cbn [sfile]. rewrite get_tab_segs.
  unfold seg_eqb. destruct (Nat.eqb_spec (seg_num g) (seg_num g')) as [E|]; [|done].
  assert (g = g') as <- by (destruct g, g'; done). done.
Qed.
Lemma sim_put_flags x v y w s a : sim m0 s a -> den x v -> den y w -> sim m0 (put_flags x y s) (put_flags v w a).
Proof. intros [] ??. by split. Qed.
Lemma sim_put_rip x v s a : sim m0 s a -> den x v -> sim m0 (put_rip x s) (put_rip v a).
Proof. intros [] ?. by split. Qed.
Lemma sim_put_gs x v y w s a : sim m0 s a -> den x v -> den y w -> sim m0 (put_gs x y s) (put_gs v w a).
Proof. intros [] ??. by split. Qed.
Lemma sim_set_status x v s a : sim m0 s a -> den x v -> sim m0 (set_status x s) (set_status v a).
Proof. intros Hs ?. apply sim_put_flags; [done|apply Hs|done]. Qed.
Lemma sim_set_rflags x v s a : sim m0 s a -> den x v -> sim m0 (set_rflags x s) (set_rflags v a).
Proof. intros. apply sim_put_flags; [done|by apply (den_un (OClear STATUS))|by apply (den_un (OKeep STATUS))]. Qed.
Lemma den_rflags s a : sim m0 s a -> den (rflags s) (rflags a).
Proof. intros []. by apply (den_bin OOr). Qed.

(** ** The instructions *)
Notation any := (fun _ _ => True).

Lemma addr_sim x v d : den x v -> msim den (addr x d) (addr v d).
Proof. intros H. apply msim_expect. intros b Hb. by eapply den_add. Qed.

Lemma load_msim n x v : width n -> den x v -> msim den (load n x) (load n v).
Proof.
  intros Hn H s a b a' Hs. unfold load. rewrite !bind_gets. unfold expect.
  destruct (vload n (mem a) v) as [w|] eqn:E; [|done]. intros [= <- <-].
  destruct (load_sim _ _ _ _ _ _ Hn Hs H E) as (y & -> & ?). eexists _, _. split; [done|]. auto.
Qed.

Lemma store_msim n x v y w : width n -> den x v -> den y w -> msim any (store n x y) (store n v w).
Proof.
  intros Hn H Hw s a b a' Hs. unfold store. rewrite !bind_gets. unfold mbind, M_bind, expect.
  destruct (vstore n (mem a) v w) as [ma|] eqn:E; [|done]. intros [= <- <-].
  destruct (store_sim _ _ _ _ _ _ _ _ Hn Hs H Hw E) as (y' & -> & ?). eexists _, _. split; [done|]. auto.
Qed.

Lemma id_sim : msim (sim m0) (gets id) (gets id).
Proof. by apply msim_gets. Qed.

Lemma opd_addr_sim o : msim den (opd_addr o) (opd_addr o).
Proof.
  destruct o; try (by intros ????);
    (eapply msim_bind; [apply id_sim|intros s a Hs; apply addr_sim; apply Hs]).
Qed.

Lemma rd_sim n o : width n -> msim den (rd n o) (rd n o).
Proof.
  intros Hn. destruct o; cbn [rd]; [by apply msim_ret|apply msim_gets; intros ?? []; auto..| |];
    (eapply msim_bind; [apply opd_addr_sim|intros; by apply load_msim]).
Qed.

Lemma wr_sim n o x v : width n -> den x v -> msim any (wr n o x) (wr n o v).
Proof.
  intros Hn H. destruct o; cbn [wr]; [by intros ????| | | |].
  1,2: apply msim_modify; intros; by (apply sim_put_reg || apply sim_put_seg).
  all: eapply msim_bind; [apply opd_addr_sim|intros; by apply store_msim].
Qed.

Lemma width8 : width 8. Proof. unfold width. auto. Qed.

Lemma push_sim x v : den x v -> msim any (push x) (push v).
Proof.
  intros H. eapply msim_bind; [apply id_sim|]. intros s a Hs. eapply msim_bind; [apply addr_sim, Hs|].
  intros y w Hw. eapply msim_bind; [apply msim_modify; intros; by apply sim_put_reg|]. intros _ _ _.
  by apply store_msim; [apply width8|..].
Qed.

Lemma pop_sim : msim den pop pop.
Proof.
  eapply msim_bind; [apply id_sim|]. intros s a Hs. eapply msim_bind; [apply load_msim; [apply width8|apply Hs]|].
  intros y w Hw. eapply msim_bind; [apply addr_sim, Hs|]. intros sp vsp Hsp.
  eapply msim_bind; [apply msim_modify; intros; by apply sim_put_reg|]. intros _ _ _. by apply msim_ret.
Qed.

Lemma modify_sim (f : CPUState -> CPUState) (g : Mach Val Smem -> Mach Val Smem) {A B} (RA : A -> B -> Prop) c y :
  (forall s a, sim m0 s a -> sim m0 (f s) (g a)) -> msim RA c y -> msim RA (modify f;; c) (modify g;; y).
Proof. intros H Hc. eapply msim_bind; [by apply msim_modify|]. by intros. Qed.

Definition no_call : string -> Y unit := fun _ => panic "call".

#[local] Hint Resolve sim_put_reg sim_put_seg sim_put_rip sim_put_flags sim_put_gs sim_set_status sim_set_rflags
  den_rflags sim_regs sim_ctl sim_stat sim_rip sim_gs sim_kgs : msim.
#[local] Hint Extern 1 (den (vnum _) (vnum _)) => reflexivity : msim.
#[local] Hint Extern 1 (den (vun ?f _) (vun ?f _)) => apply (den_un f) : msim.
#[local] Hint Extern 1 (den (vbin ?f _ _) (vbin ?f _ _)) => apply (den_bin f) : msim.
#[local] Hint Extern 1 (width _) => (unfold width; lia) : msim.

(** One binding of a body on both sides, or its last update. *)
Ltac msim1 :=
  lazymatch goal with
  | |- msim _ (modify _;; _) (modify _;; _) => apply modify_sim; [intros; solve [eauto 6 with msim]|]
  | |- msim _ (modify _) (modify _) => apply msim_modify; intros; solve [eauto 6 with msim]
  | |- msim _ (push _) (push _) => apply push_sim; solve [eauto with msim]
  | |- msim _ (gets id ≫= _) (gets id ≫= _) => eapply msim_bind; [apply id_sim|let H := fresh in intros ? ? H; rewrite ?(sim_msr _ _ _ H)]
  | |- msim _ (_ ≫= _) (_ ≫= _) =>
    eapply msim_bind; [first [apply pop_sim|apply rd_sim; solve [eauto with msim]|apply opd_addr_sim|apply addr_sim; solve [eauto with msim]]|intros ? ? ?]
  | |- msim _ (wr _ _ _) (wr _ _ _) => apply wr_sim; solve [eauto with msim]
  | |- msim _ (store _ _ _) (store _ _ _) => apply store_msim; solve [eauto with msim]
  end.

Lemma exec1_sim call i : msim any (exec1 call i) (exec1 no_call i).
Proof.
  destruct i; cbn [exec1]; try (by apply msim_ret); try (by intros ????); repeat msim1.
  - eapply msim_bind; [apply msim_gets; intros; by apply den_rflags|intros]. repeat msim1.
  - case_bool; repeat msim1.
Qed.

Lemma exec_sim call c sk : msim eq (exec call c sk) (exec no_call c sk).
Proof.
  revert sk. induction c as [|i c IH]; intros sk; [by apply msim_ret|].
  assert (Hi : msim eq (exec1 call i;; exec call c None) (exec1 no_call i;; exec no_call c None)).
  { eapply msim_bind; [apply exec1_sim|]. intros _ _ _. apply IH. }
  destruct sk as [l|]; cbn [exec]; [destruct i; apply IH|]. destruct i; try apply Hi.
  eapply msim_bind; [apply (msim_gets den); intros ?? H; apply H|]. intros x v Hx.
  eapply msim_bind; [apply (msim_expect eq)|intros z ? <-; apply IH].
  intros z Hz. exists x. split; [done|]. by eapply den_number.
Qed.

Lemma deliver_sim x v e w h :
  den x v -> match e, w with Some y, Some u => den y u | None, None => True | _, _ => False end ->
  msim any (deliver x e h) (deliver v w h).
Proof.
  intros Hx He. eapply msim_bind; [apply id_sim|intros s a Hs].
  eapply msim_bind; [apply (msim_expect eq)|intros cs ? <-].
  { intros z Hz. exists (segs s CS). split; [done|]. eapply den_number; [apply Hs|done]. }
  apply modify_sim; [intros; by apply sim_put_reg|].
  do 5 (eapply msim_bind; [apply push_sim; first [apply Hs|by apply den_rflags]|intros _ _ _]).
  eapply msim_bind; [destruct e, w; try done; [by apply push_sim|by apply (msim_ret any)]|intros _ _ _].
  eapply (msim_bind any); [case_bool; [apply msim_modify; intros; by apply sim_put_seg|by apply msim_ret]|intros _ _ _].
  repeat msim1.
Qed.
End symbolic.

(** ** Starting a symbolic run

    Every number of the machine is itself, and nothing is known of memory. *)
Definition lift_mach (s : CPUState) (m : Smem) : Mach Val Smem :=
  mkMach (tab_regs (fun r => Num (regs s r))) (tab_segs (fun g => Num (segs s g))) (Num (ctl s)) (Num (stat s)) (Num (rip s))
    (Num (gs_base s)) (Num (kgs_base s)) (msr s) m.

Lemma lift_sim ext base s m :
  (forall r o, cell ext r o -> den ext base (mem s (base r + o)) (smem_get m r o)) ->
  sim ext base (mem s) s (lift_mach s m).
Proof.
  intros Hm. split; try done; intros x; unfold regs, segs, lift_mach; cbn [rfile sfile]; by rewrite ?get_tab_regs, ?get_tab_segs.
Qed.

Lemma flags_split f : Z.lor (Z.ldiff f STATUS) (Z.land f STATUS) = f.
Proof.
  apply Z.bits_inj'. intros n _. rewrite Z.lor_spec, Z.ldiff_spec, Z.land_spec.
  by destruct (Z.testbit f n), (Z.testbit STATUS n).
Qed.
