(* ===== verification/Entry.v ===== *)
(** The entry and exit code of the kernel, as its instructions: the trap stubs
    and [alltraps] of [x86_64.rs], [enter] and [syscallret] of [syscall.rs],
    the system call stubs of the user library, and the trap frame they build
    and take apart. *)
From stdpp Require Import base list gmap strings.
From Stdlib Require Import ZArith Lia.
From S2P Require Import Prelude.
From S2P Require Import Arch.
From S2P Require Import Segment.
From S2P Require Import Machine.

(** ** The trap frame *)
Record TrapFrame := mkTrapFrame {
  t_rax : Z; t_rbx : Z; t_rcx : Z; t_rdx : Z; t_rsi : Z; t_rdi : Z; t_rbp : Z; t_r8 : Z; t_r9 : Z;
  t_r10 : Z; t_r11 : Z; t_r12 : Z; t_r13 : Z; t_r14 : Z; t_r15 : Z;
  t_ds : Z; t_es : Z; t_fs : Z; t_gs : Z; t_vector : Z; t_error : Z;
  t_rip : Z; t_cs : Z; t_rflags : Z; t_rsp : Z; t_ss : Z }.

(** Its words, in the order of the structure. *)
Definition TrapFrame_words (f : TrapFrame) : list Z :=
  [t_rax f; t_rbx f; t_rcx f; t_rdx f; t_rsi f; t_rdi f; t_rbp f; t_r8 f; t_r9 f; t_r10 f; t_r11 f; t_r12 f;
   t_r13 f; t_r14 f; t_r15 f; t_ds f; t_es f; t_fs f; t_gs f; t_vector f; t_error f; t_rip f; t_cs f;
   t_rflags f; t_rsp f; t_ss f].
Definition TrapFrame_size : Z := 8 * 26.

Definition is_user (f : TrapFrame) : bool := TrapFrame_is_user (t_cs f).
Definition set_return (thunk : Z) (f : TrapFrame) : TrapFrame :=
  mkTrapFrame (t_rax f) (t_rbx f) (t_rcx f) (t_rdx f) (t_rsi f) (t_rdi f) (t_rbp f) (t_r8 f) (t_r9 f) (t_r10 f)
    (t_r11 f) (t_r12 f) (t_r13 f) (t_r14 f) (t_r15 f) (t_ds f) (t_es f) (t_fs f) (t_gs f) (t_vector f) (t_error f)
    thunk (t_cs f) (t_rflags f) (t_rsp f) (t_ss f).
Definition set_stack (sp : Z) (f : TrapFrame) : TrapFrame :=
  mkTrapFrame (t_rax f) (t_rbx f) (t_rcx f) (t_rdx f) (t_rsi f) (t_rdi f) (t_rbp f) (t_r8 f) (t_r9 f) (t_r10 f)
    (t_r11 f) (t_r12 f) (t_r13 f) (t_r14 f) (t_r15 f) (t_ds f) (t_es f) (t_fs f) (t_gs f) (t_vector f) (t_error f)
    (t_rip f) (t_cs f) (t_rflags f) sp (t_ss f).
Definition set_flags (flags : Z) (f : TrapFrame) : TrapFrame :=
  mkTrapFrame (t_rax f) (t_rbx f) (t_rcx f) (t_rdx f) (t_rsi f) (t_rdi f) (t_rbp f) (t_r8 f) (t_r9 f) (t_r10 f)
    (t_r11 f) (t_r12 f) (t_r13 f) (t_r14 f) (t_r15 f) (t_ds f) (t_es f) (t_fs f) (t_gs f) (t_vector f) (t_error f)
    (t_rip f) (t_cs f) (Z.lor flags 2) (t_rsp f) (t_ss f).
Definition set_rsi (v : Z) (f : TrapFrame) : TrapFrame :=
  mkTrapFrame (t_rax f) (t_rbx f) (t_rcx f) (t_rdx f) v (t_rdi f) (t_rbp f) (t_r8 f) (t_r9 f) (t_r10 f)
    (t_r11 f) (t_r12 f) (t_r13 f) (t_r14 f) (t_r15 f) (t_ds f) (t_es f) (t_fs f) (t_gs f) (t_vector f) (t_error f)
    (t_rip f) (t_cs f) (t_rflags f) (t_rsp f) (t_ss f).
Definition set_rdi (v : Z) (f : TrapFrame) : TrapFrame :=
  mkTrapFrame (t_rax f) (t_rbx f) (t_rcx f) (t_rdx f) (t_rsi f) v (t_rbp f) (t_r8 f) (t_r9 f) (t_r10 f)
    (t_r11 f) (t_r12 f) (t_r13 f) (t_r14 f) (t_r15 f) (t_ds f) (t_es f) (t_fs f) (t_gs f) (t_vector f) (t_error f)
    (t_rip f) (t_cs f) (t_rflags f) (t_rsp f) (t_ss f).

Definition TRAPFRAME_VECTOR_OFFSET : Z := 0x98.
Definition TRAPFRAME_CS_OFFSET : Z := 0xB0.

(** ** Traps *)

(** [gen_stub] and the vectors whose stub leaves the processor's error word in
    place. *)
Definition gen_stub (vecnum : Z) (err : bool) : list Instr :=
  if err then [Pushq (Imm vecnum)] else [Pushq (Imm 0); Pushq (Imm vecnum)].
Definition gen_vector_stub (n : Z) : list Instr :=
  gen_stub n (existsb (Z.eqb n) [8; 10; 11; 12; 13; 14; 17]).

(** [alltraps], up to its call, and from it. *)
Definition alltraps_save : list Instr :=
  [Subq 32 RSP;
   Movq (Imm 0) (Mem 0 RSP); Movw (Sg DS) (Mem 0 RSP);
   Movq (Imm 0) (Mem 8 RSP); Movw (Sg ES) (Mem 8 RSP);
   Movq (Imm 0) (Mem 16 RSP); Movw (Sg FS) (Mem 16 RSP);
   Movq (Imm 0) (Mem 24 RSP); Movw (Sg GS) (Mem 24 RSP);
   Pushq (Rg R15); Pushq (Rg R14); Pushq (Rg R13); Pushq (Rg R12); Pushq (Rg R11); Pushq (Rg R10);
   Pushq (Rg R9); Pushq (Rg R8); Pushq (Rg RBP); Pushq (Rg RDI); Pushq (Rg RSI); Pushq (Rg RDX);
   Pushq (Rg RCX); Pushq (Rg RBX); Pushq (Rg RAX);
   Cmpq KTEXT_SEL (Mem TRAPFRAME_CS_OFFSET RSP); Je 1; Swapgs; Lbl 1;
   Movq (Mem TRAPFRAME_VECTOR_OFFSET RSP) (Rg RDI); Movq (Rg RSP) (Rg RSI)].
Definition alltraps_restore : list Instr :=
  [Cmpq KTEXT_SEL (Mem TRAPFRAME_CS_OFFSET RSP); Je 1; Swapgs; Lbl 1;
   Popq RAX; Popq RBX; Popq RCX; Popq RDX; Popq RSI; Popq RDI; Popq RBP; Popq R8; Popq R9; Popq R10;
   Popq R11; Popq R12; Popq R13; Popq R14; Popq R15;
   Movw (Mem 8 RSP) (Sg ES); Movw (Mem 0 RSP) (Sg DS); Addq 32 RSP;
   Addq 16 RSP; Iretq].
Definition alltraps : list Instr := alltraps_save ++ Callq "trap" :: alltraps_restore.

(** ** System calls *)

(** [enter], which goes on at [syscallret], and where that lies. *)
Definition enter_save : list Instr :=
  [Swapgs; Movq (Rg RSP) (Rg R8); Movq (GsMem 16) (Rg RSP);
   Pushq (Imm 0); Pushq (Rg R8); Pushq (Rg R11);
   Movq (Sg CS) (Rg R11); Pushq (Rg R11); Pushq (Rg RCX);
   Pushq (Imm 0); Pushq (Imm 0);
   Pushq (Imm 0); Movw (Sg GS) (Mem 0 RSP); Pushq (Imm 0); Movw (Sg FS) (Mem 0 RSP);
   Pushq (Imm 0); Movw (Sg ES) (Mem 0 RSP); Pushq (Imm 0); Movw (Sg DS) (Mem 0 RSP);
   Pushq (Rg R15); Pushq (Rg R14); Pushq (Rg R13); Pushq (Rg R12);
   Pushq (Imm 0); Pushq (Imm 0); Pushq (Imm 0); Pushq (Imm 0); Pushq (Rg RBP);
   Pushq (Imm 0); Pushq (Imm 0); Pushq (Imm 0); Pushq (Imm 0); Pushq (Rg RBX); Pushq (Rg RAX);
   Pushq (Imm 0);
   Pushq (Rg RCX); Movq (Rg R11) (Rg RBP);
   Movq (Rg RAX) (Rg RCX)].
Definition enter (syscallret_addr : Z) : list Instr :=
  enter_save ++ [Callq "syscall"; Addq (8 * 2) RSP; Jmp syscallret_addr].

Definition syscallret : list Instr :=
  [Cli; Addq 8 RSP; Popq RBX; Addq 8 RSP; Popq RDX; Popq RSI; Popq RDI; Popq RBP; Popq R8; Popq R9; Popq R10;
   Popq R11; Popq R12; Popq R13; Popq R14; Popq R15;
   Movw (Mem 0 RSP) (Sg DS); Movw (Mem 8 RSP) (Sg ES); Movw (Mem 16 RSP) (Sg FS);
   Addq (8 * 4) RSP; Addq (8 * 2) RSP;
   Popq RCX; Addq 8 RSP; Popq R11; Popq R8; Addq 8 RSP;
   Movq (Rg RSP) (GsMem 16); Movq (Rg R8) (Rg RSP); Xor R8 R8; Swapgs; Sysretq].

(** [syscall::init] writes the registers [Syscall] and [Sysretq] read. *)
Definition wrmsr (index value : Z) (s : CPUState) : CPUState :=
  let eax := wrap 32 value in
  let edx := wrap 32 (Z.shiftr value 32) in
  mkMach (rfile s) (sfile s) (ctl s) (stat s) (rip s) (gs_base s) (kgs_base s)
    (fun i => if i =? index then Z.lor (Z.shiftl edx 32) eax else msr s i) (mem s).
Definition syscall_init (enter_addr : Z) (s : CPUState) : CPUState :=
  wrmsr FMASK sfmask (wrmsr STAR star (wrmsr LSTAR enter_addr s)).

(** The user library's stubs: the numbers of [syslib], and the code of one. *)
Definition syscall_numbers : list (string * Z) :=
  [("fork", 1); ("exit", 2); ("wait", 3); ("pipe", 4); ("read", 5); ("kill", 6); ("exec", 7); ("fstat", 8);
   ("chdir", 9); ("dup", 10); ("getpid", 11); ("sbrk", 12); ("sleep", 13); ("uptime", 14); ("open", 15);
   ("write", 16); ("mknod", 17); ("unlink", 18); ("link", 19); ("mkdir", 20); ("close", 21)]%string.
Definition stub_enter (num : Z) : list Instr := [Movq (Imm num) (Rg RAX); Syscall].
Definition stub_leave : list Instr := [Retq].
Definition stubs : list (string * list Instr) := (fun x => (x.1, stub_enter x.2 ++ stub_leave)) <$> syscall_numbers.
