(* ===== verification/EntrySpec.v ===== *)
(** What the entry and exit code guarantees: a trap saves the interrupted
    registers as the trap frame that the handler sees and resumes what the
    frame says; a system call hands the dispatcher its arguments and gives the
    caller its registers back. *)
From stdpp Require Import base list gmap strings.
From Stdlib Require Import ZArith Lia.
From S2P Require Import Prelude.
From S2P Require Import Arch.
From S2P Require Import Segment.
From S2P Require Import Machine.
From S2P Require Import Entry.

(** The words [ws] lie at [a]. *)
Definition words_at (m : Z -> Z) (a : Z) (ws : list Z) : Prop :=
  forall i w, ws !! i = Some w -> m (a + 8 * Z.of_nat i) = w.
Definition frame_at (m : Z -> Z) (a : Z) (f : TrapFrame) : Prop := words_at m a (TrapFrame_words f).

(** ** One region of memory: [n] words below [top] *)
Section one_region.
Context (n : Z) (top : Z).
Hypothesis Htop : top mod 8 = 0.
Hypothesis Hrange : 8 * n <= top < 2 ^ 64.

Definition stack_ext (r : nat) : Z * Z := match r with O => (- (8 * n), 0) | _ => (1, 0) end.
Definition stack_base (r : nat) : Z := match r with O => top | _ => 0 end.

Lemma stack_region r o : in_region stack_ext r o = true -> r = O /\ - (8 * n) <= o <= 0.
Proof. unfold in_region. destruct r; cbn [stack_ext fst snd]; intros; bool_to_prop; lia. Qed.

Lemma stack_regions : regions_ok stack_ext stack_base.
Proof.
  split.
  - by destruct r.
  - intros r o [-> ?]%stack_region. cbn. lia.
  - by intros r r' o o' [-> _]%stack_region _ [-> _]%stack_region.
Qed.
End one_region.

(** The words of a stack region, from its lowest. *)
Definition stack_mem (n : Z) (ws : list Z) : Smem :=
  imap (fun i w => (O, 8 * Z.of_nat i - 8 * n, Num w)) ws.

Lemma smem_get_cases m r o : smem_get m r o = Unk \/ exists v, (r, o, v) ∈ m /\ smem_get m r o = v.
Proof.
  induction m as [|[[r' o'] v] m IH]; cbn; [by left|].
  destruct (Nat.eqb_spec r r') as [->|], (Z.eqb_spec o o') as [->|]; cbn;
    [right; exists v; split; [left|done]|destruct IH as [?|(w & ? & ?)]; [by left|right; exists w; split; [by right|done]]..].
Qed.

Lemma stack_mem_den ext base n (s : CPUState) ws r o :
  words_at (mem s) (base O - 8 * n) ws -> den ext base (mem s (base r + o)) (smem_get (stack_mem n ws) r o).
Proof.
  intros Hw. destruct (smem_get_cases (stack_mem n ws) r o) as [->|(v & Hv & ->)]; [done|].
  unfold stack_mem in Hv. apply elem_of_lookup_imap in Hv as (i & w & [= -> -> ->] & Hi).
  cbn. rewrite <-(Hw _ _ Hi). do 2 f_equal. lia.
Qed.

(** ** Traps *)

(** The frame of the state a trap interrupts. *)
Definition frame_of (s : CPUState) (vec err : Z) : TrapFrame :=
  mkTrapFrame (regs s RAX) (regs s RBX) (regs s RCX) (regs s RDX) (regs s RSI) (regs s RDI) (regs s RBP)
    (regs s R8) (regs s R9) (regs s R10) (regs s R11) (regs s R12) (regs s R13) (regs s R14) (regs s R15)
    (segs s DS) (segs s ES) (segs s FS) (segs s GS) vec err (rip s) (segs s CS) (rflags s) (regs s RSP) (segs s SS).

(** The vectors with which the processor pushes an error word. *)
Definition has_error (vec : Z) : bool := existsb (Z.eqb vec) [8; 10; 11; 12; 13; 14; 17].

Definition trap_run (call : string -> M CPUState unit) (top vec err handler : Z) : M CPUState (option nat) :=
  deliver top (if has_error vec then Some err else None) handler;;
  exec call (gen_vector_stub vec ++ alltraps) None.

Definition selectors_ok (s : CPUState) : Prop := forall g, 0 <= segs s g < 2 ^ 16.
Definition USER_CS : Z := Z.lor UTEXT_SEL 3.
Definition from_user (s : CPUState) : bool := segs s CS =? USER_CS.

(** What [trap] is called with. *)
Record trap_called (s : CPUState) (top vec err : Z) (s1 : CPUState) : Prop := {
  tc_vec : regs s1 RDI = vec;
  tc_frame : regs s1 RSI = top - TrapFrame_size;
  tc_sp : regs s1 RSP = top - TrapFrame_size;
  tc_aligned : regs s1 RSP mod 16 = 0;
  tc_words : frame_at (mem s1) (top - TrapFrame_size) (frame_of s vec err);
  tc_gs : gs_base s1 = if from_user s then kgs_base s else gs_base s;
  tc_kgs : kgs_base s1 = if from_user s then gs_base s else kgs_base s;
  tc_intr : Z.testbit (ctl s1) 9 = false;
  tc_msr : msr s1 = msr s;
  tc_rest : forall x, x < top - TrapFrame_size \/ top <= x -> mem s1 x = mem s x }.

Lemma put_bits_seg v : 0 <= v < 2 ^ 16 -> put_bits 0 16 0 v = v.
Proof.
  intros H. unfold put_bits. rewrite Z.ldiff_0_l, Z.lor_0_l, Z.shiftl_0_r, Z.land_ones by lia.
  by rewrite Z.mod_small.
Qed.

(** The state at a trap, with its code selector known. *)
Definition at_cs (c : Z) (s : CPUState) (m : Smem) : Mach Val Smem := put_seg CS (Num c) (lift_mach s m).

Lemma at_cs_sim n top (s : CPUState) m c :
  segs s CS = c ->
  (forall r o, cell (stack_ext n) r o -> den (stack_ext n) (stack_base top) (mem s (stack_base top r + o)) (smem_get m r o)) ->
  sim (stack_ext n) (stack_base top) (mem s) s (at_cs c s m).
Proof. intros Hc Hm. apply sim_refine_seg; [by apply lift_sim|]. cbn. by rewrite Hc. Qed.

(** The state a symbolic run ends in. *)
Definition final {A} (o : outcome (A * Mach Val Smem)) : Mach Val Smem :=
  match o with
  | Ret (_, s) => s
  | _ => mkMach (tab_regs (fun _ => Unk)) (tab_segs (fun _ => Unk)) Unk Unk Unk Unk Unk (fun _ => 0) []
  end.
Ltac sym_final := match goal with |- exists a, ?r = _ /\ _ => exists (final r) end.

(** The words of the region, from its lowest, by their symbolic values. *)
Definition cells (n : Z) (k : nat) (a : Mach Val Smem) : list Val :=
  (fun i : nat => smem_get (mem a) O (8 * Z.of_nat i - 8 * n)) <$> seq 0 k.

Lemma words_sim ext base n m0 (s : CPUState) a vs ws :
  sim ext base m0 s a -> (forall o, - (8 * n) <= o < 0 -> o mod 8 = 0 -> cell ext O o) -> zlen vs <= n ->
  cells n (length vs) a = vs -> number <$> vs = Some <$> ws ->
  words_at (mem s) (base O - 8 * n) ws.
Proof.
  intros Hs Hcell Hl Hv Hw i w Hi.
  assert (Hn : number <$> (vs !! i) = Some (Some w)).
  { pose proof (f_equal (fun l => l !! i) Hw) as E. cbn in E. by rewrite !list_lookup_fmap, Hi in E. }
  apply fmap_Some in Hn as (v & Hvi & Hn). pose proof (lookup_lt_Some _ _ _ Hvi) as Hlt.
  assert (E : smem_get (mem a) O (8 * Z.of_nat i - 8 * n) = v).
  { rewrite <-Hv in Hvi. unfold cells in Hvi. rewrite list_lookup_fmap, lookup_seq_lt in Hvi by done. by injection Hvi. }
  assert (Hc : cell ext O (8 * Z.of_nat i - 8 * n)).
  { apply Hcell; [unfold zlen in *; lia|].
    replace (8 * Z.of_nat i - 8 * n) with ((Z.of_nat i - n) * 8) by lia. apply Z.mod_mul. lia. }
  pose proof (sim_mem _ _ _ _ _ Hs _ _ Hc) as Hm. rewrite E in Hm. symmetry in Hn.
  rewrite <-(den_number _ _ _ _ _ Hm Hn). cbn. f_equal. lia.
Qed.

Lemma stack_cell n o : - (8 * n) <= o < 0 -> o mod 8 = 0 -> cell (stack_ext n) O o.
Proof.
  intros Ho Hm. assert (o <= -8) by (pose proof (Z.div_mod o 8); lia).
  unfold cell, in_region. cbn. split; [lia|]. split; [lia|done].
Qed.

(** Addresses outside the region keep their words. *)
Lemma rest_sim n top m0 (s : CPUState) a x :
  sim (stack_ext n) (stack_base top) m0 s a -> x < top - 8 * n \/ top <= x -> mem s x = m0 x.
Proof.
  intros Hs Hx. apply (sim_rest _ _ _ _ _ Hs). intros r o (Hc & Hc' & _).
  apply stack_region in Hc as [-> ?]. apply stack_region in Hc' as [_ ?]. cbn. lia.
Qed.

(** A register whose symbolic value is known. *)
Lemma den_num ext base x v z : den ext base x v -> v = Num z -> x = z.
Proof. intros H ->. by injection H. Qed.
Lemma den_ptr top n x v o : den (stack_ext n) (stack_base top) x v -> v = Ptr 0 o -> x = top + o.
Proof. intros H ->. by destruct H. Qed.

Section trap.
Context (call : string -> M CPUState unit) (s : CPUState) (top vec err handler : Z).
Hypothesis Htop : top mod 16 = 0.
Hypothesis Hrange : TrapFrame_size <= top < 2 ^ 64.
Hypothesis Hsel : selectors_ok s.
Hypothesis Herr : has_error vec = false -> err = 0.

Lemma top_regions : regions_ok (stack_ext 26) (stack_base top).
Proof.
  apply stack_regions; [|unfold TrapFrame_size in *; lia].
  apply Z.mod_divide; [lia|]. apply Z.mod_divide in Htop; [|lia]. etransitivity; [|done]. by exists 2.
Qed.

(** The frame as the code stores it: selectors go into a cleared word. *)
Definition frame_vals : list Val :=
  (Num <$> [regs s RAX; regs s RBX; regs s RCX; regs s RDX; regs s RSI; regs s RDI; regs s RBP; regs s R8; regs s R9;
            regs s R10; regs s R11; regs s R12; regs s R13; regs s R14; regs s R15]) ++
  ((fun g => App2 (OPutBits 0 16) (Num 0) (Num (segs s g))) <$> [DS; ES; FS; GS]) ++
  [Num vec; Num err; Num (rip s); Num (segs s CS); App2 OOr (Num (ctl s)) (Num (stat s)); Num (regs s RSP); Num (segs s SS)].

Lemma frame_vals_words : number <$> frame_vals = Some <$> TrapFrame_words (frame_of s vec err).
Proof.
  unfold frame_vals, TrapFrame_words, frame_of, rflags. cbn -[put_bits]. by rewrite !put_bits_seg by apply Hsel.
Qed.

Lemma save_sym (c : Z) (e : bool) :
  c = 8 \/ c = 35 -> has_error vec = e -> segs s CS = c ->
  exists a, (@deliver _ _ (dom_symbolic (stack_ext 26)) (Ptr 0 0) (if e then Some (Num err) else None) handler;;
   @exec _ _ (dom_symbolic (stack_ext 26)) no_call (gen_stub vec e ++ alltraps_save) None) (at_cs c s []) = Ret (None, a) /\
   regs a RDI = Num vec /\ regs a RSI = Ptr 0 (-208) /\ regs a RSP = Ptr 0 (-208) /\
   cells 26 26 a = frame_vals /\
   gs_base a = (if from_user s then Num (kgs_base s) else Num (gs_base s)) /\
   kgs_base a = (if from_user s then Num (gs_base s) else Num (kgs_base s)) /\
   ctl a = App1 (OClear (Z.lor INTR_EN (Z.shiftl 1 8))) (Num (ctl s)) /\ msr a = msr s.
Proof.
  intros Hc He Hcs. unfold from_user, frame_vals. rewrite Hcs. clear Hsel. destruct s as [[] [] ???????]. cbn in Hcs. subst s_cs.
  destruct Hc as [-> | ->], e; try (rewrite (Herr He));
    sym_final; split_and!; vm_compute; reflexivity.
Qed.

Lemma trap_saves :
  segs s CS = KTEXT_SEL \/ segs s CS = USER_CS ->
  exists s1, (deliver top (if has_error vec then Some err else None) handler;;
              exec call (gen_vector_stub vec ++ alltraps_save) None) s = Ret (None, s1) /\ trap_called s top vec err s1.
Proof.
  intros Hcs. destruct (save_sym (segs s CS) (has_error vec) Hcs eq_refl eq_refl) as (a & Hr & H1 & H2 & H3 & H4 & H5 & H6 & H7 & H8).
  assert (H0 : sim (stack_ext 26) (stack_base top) (mem s) s (at_cs (segs s CS) s [])) by (by apply at_cs_sim).
  assert (Hm : msim (stack_ext 26) (stack_base top) (mem s) eq
    (deliver top (if has_error vec then Some err else None) handler;; exec call (gen_vector_stub vec ++ alltraps_save) None)
    (@deliver _ _ (dom_symbolic (stack_ext 26)) (Ptr 0 0) (if has_error vec then Some (Num err) else None) handler;;
     @exec _ _ (dom_symbolic (stack_ext 26)) no_call (gen_stub vec (has_error vec) ++ alltraps_save) None)).
  { eapply msim_bind; [apply deliver_sim; [apply top_regions|cbn; split; [lia|done]|by destruct (has_error vec)]|].
    intros _ _ _. apply exec_sim, top_regions. }
  destruct (Hm _ _ _ _ H0 Hr) as (? & s1 & E & -> & Hs). exists s1. split; [done|].
  change TrapFrame_size with 208 in *. split.
  - exact (den_num _ _ _ _ _ (sim_regs _ _ _ _ _ Hs RDI) H1).
  - exact (den_ptr _ _ _ _ _ (sim_regs _ _ _ _ _ Hs RSI) H2).
  - exact (den_ptr _ _ _ _ _ (sim_regs _ _ _ _ _ Hs RSP) H3).
  - rewrite (den_ptr _ _ _ _ _ (sim_regs _ _ _ _ _ Hs RSP) H3). rewrite Z.add_mod, Htop by lia. done.
  - change 208 with (8 * 26). by apply (words_sim _ _ 26 _ _ _ frame_vals _ Hs); [apply stack_cell|..|apply frame_vals_words].
  - pose proof (sim_gs _ _ _ _ _ Hs) as H. rewrite H5 in H. destruct (from_user s); by injection H.
  - pose proof (sim_kgs _ _ _ _ _ Hs) as H. rewrite H6 in H. destruct (from_user s); by injection H.
  - pose proof (sim_ctl _ _ _ _ _ Hs) as H. rewrite H7 in H. injection H as <-. by rewrite Z.ldiff_spec, andb_false_r.
  - by rewrite (sim_msr _ _ _ _ _ Hs).
  - intros x Hx. by apply (rest_sim _ _ _ _ _ _ Hs).
Qed.
End trap.

(** ** The way back *)
Definition frame_reg (f : TrapFrame) (r : Reg) : Z :=
  match r with
  | RAX => t_rax f | RBX => t_rbx f | RCX => t_rcx f | RDX => t_rdx f | RSI => t_rsi f | RDI => t_rdi f
  | RBP => t_rbp f | RSP => t_rsp f | R8 => t_r8 f | R9 => t_r9 f | R10 => t_r10 f | R11 => t_r11 f
  | R12 => t_r12 f | R13 => t_r13 f | R14 => t_r14 f | R15 => t_r15 f
  end.

(** [s'] runs what the frame [f] says; the handler returned in [s2]. *)
Record resumed (top : Z) (f : TrapFrame) (s2 s' : CPUState) : Prop := {
  rs_regs : forall r, regs s' r = frame_reg f r;
  rs_rip : rip s' = t_rip f;
  rs_flags : rflags s' = t_rflags f;
  rs_segs : segs s' CS = t_cs f /\ segs s' SS = t_ss f /\ segs s' DS = t_ds f /\ segs s' ES = t_es f;
  rs_other : segs s' FS = segs s2 FS /\ segs s' GS = segs s2 GS;
  rs_gs : gs_base s' = if t_cs f =? USER_CS then kgs_base s2 else gs_base s2;
  rs_kgs : kgs_base s' = if t_cs f =? USER_CS then gs_base s2 else kgs_base s2;
  rs_rest : forall x, x < top - TrapFrame_size \/ top <= x -> mem s' x = mem s2 x }.

Lemma get_bits_seg v : 0 <= v < 2 ^ 16 -> get_bits 0 16 v = v.
Proof. intros H. unfold get_bits. rewrite Z.shiftr_0_r, Z.land_ones by lia. by rewrite Z.mod_small. Qed.

(** A handler's state on return, on the stack below [top]. *)
Definition at_frame (s2 : CPUState) (f : TrapFrame) : Mach Val Smem :=
  put_reg RSP (Ptr 0 (-208)) (lift_mach s2 (stack_mem 26 (TrapFrame_words f))).

Lemma at_frame_sim top (s2 : CPUState) f :
  TrapFrame_size <= top -> regs s2 RSP = top - TrapFrame_size -> frame_at (mem s2) (top - TrapFrame_size) f ->
  sim (stack_ext 26) (stack_base top) (mem s2) s2 (at_frame s2 f).
Proof.
  intros Ht Hsp Hf. apply sim_refine_reg; [apply lift_sim; intros; by apply stack_mem_den|].
  rewrite Hsp. unfold TrapFrame_size. cbn. split; [lia|done].
Qed.

(** Register by register. *)
Lemma regs_sim ext base m0 (s : CPUState) a f :
  sim ext base m0 s a -> (forall r, regs a r = Num (f r)) -> forall r, regs s r = f r.
Proof. intros Hs H r. exact (den_num _ _ _ _ _ (sim_regs _ _ _ _ _ Hs r) (H r)). Qed.

Lemma restore_sym (s2 : CPUState) f :
  t_cs f = 8 \/ t_cs f = 35 ->
  exists a, @exec _ _ (dom_symbolic (stack_ext 26)) no_call alltraps_restore None (at_frame s2 f) = Ret (None, a) /\
   (forall r, regs a r = Num (frame_reg f r)) /\ rip a = Num (t_rip f) /\
   ctl a = App1 (OClear STATUS) (Num (t_rflags f)) /\ stat a = App1 (OKeep STATUS) (Num (t_rflags f)) /\
   (segs a <$> [CS; SS; DS; ES; FS; GS] = [Num (t_cs f); Num (t_ss f); App1 (OGetBits 0 16) (Num (t_ds f));
      App1 (OGetBits 0 16) (Num (t_es f)); Num (segs s2 FS); Num (segs s2 GS)]) /\
   gs_base a = (if t_cs f =? USER_CS then Num (kgs_base s2) else Num (gs_base s2)) /\
   kgs_base a = (if t_cs f =? USER_CS then Num (gs_base s2) else Num (kgs_base s2)).
Proof.
  intros Hc. destruct f. cbn in Hc. destruct s2 as [[] [] ???????].
  destruct Hc as [-> | ->]; sym_final;
    split_and!; try (intros []); vm_compute; reflexivity.
Qed.

Lemma trap_restores call top (s2 : CPUState) f :
  top mod 16 = 0 -> TrapFrame_size <= top < 2 ^ 64 ->
  t_cs f = KTEXT_SEL \/ t_cs f = USER_CS -> 0 <= t_ds f < 2 ^ 16 -> 0 <= t_es f < 2 ^ 16 ->
  regs s2 RSP = top - TrapFrame_size -> frame_at (mem s2) (top - TrapFrame_size) f ->
  exists s', exec call alltraps_restore None s2 = Ret (None, s') /\ resumed top f s2 s'.
Proof.
  intros Ht Hr Hc Hd He Hsp Hf. destruct (restore_sym s2 f Hc) as (a & E & H1 & H2 & H3 & H4 & H5 & H6 & H7).
  destruct (exec_sim _ _ (top_regions _ Ht Hr) (mem s2) call _ _ _ _ _ _ (at_frame_sim _ _ _ (proj1 Hr) Hsp Hf) E)
    as (? & s' & E' & -> & Hs). exists s'. split; [done|].
  pose proof (sim_segs _ _ _ _ _ Hs) as Hg. cbn in H5. injection H5 as C1 C2 C3 C4 C5 C6. split.
  - by eapply regs_sim.
  - exact (den_num _ _ _ _ _ (sim_rip _ _ _ _ _ Hs) H2).
  - pose proof (sim_ctl _ _ _ _ _ Hs) as X. pose proof (sim_stat _ _ _ _ _ Hs) as Y. rewrite H3 in X. rewrite H4 in Y.
    injection X as X. injection Y as Y. unfold rflags. rewrite <-X, <-Y. apply flags_split.
  - pose proof (Hg CS) as X1. pose proof (Hg SS) as X2. pose proof (Hg DS) as X3. pose proof (Hg ES) as X4.
    rewrite C1 in X1. rewrite C2 in X2. rewrite C3 in X3. rewrite C4 in X4.
    injection X1 as <-. injection X2 as <-. injection X3 as <-. injection X4 as <-. by rewrite !get_bits_seg.
  - pose proof (Hg FS) as X1. pose proof (Hg GS) as X2. rewrite C5 in X1. rewrite C6 in X2.
    by injection X1 as <-; injection X2 as <-.
  - pose proof (sim_gs _ _ _ _ _ Hs) as H. rewrite H6 in H. by case_bool; injection H.
  - pose proof (sim_kgs _ _ _ _ _ Hs) as H. rewrite H7 in H. by case_bool; injection H.
  - intros x Hx. by apply (rest_sim _ _ _ _ _ _ Hs).
Qed.

(** A trap resumes whatever frame [f] its handler leaves on the stack. *)
Lemma trap_saves_and_resumes call (s : CPUState) top vec err handler f :
  top mod 16 = 0 -> TrapFrame_size <= top < 2 ^ 64 -> selectors_ok s ->
  (has_error vec = false -> err = 0) ->
  segs s CS = KTEXT_SEL \/ segs s CS = USER_CS ->
  t_cs f = KTEXT_SEL \/ t_cs f = USER_CS -> 0 <= t_ds f < 2 ^ 16 -> 0 <= t_es f < 2 ^ 16 ->
  (forall s1, trap_called s top vec err s1 -> exists s2, call "trap" s1 = Ret (tt, s2) /\
     regs s2 RSP = regs s1 RSP /\ frame_at (mem s2) (top - TrapFrame_size) f) ->
  exists s1 s2 s', trap_called s top vec err s1 /\ call "trap" s1 = Ret (tt, s2) /\
    trap_run call top vec err handler s = Ret (None, s') /\ resumed top f s2 s'.
Proof.
  intros Ht Hr Hsel He Hc Hf Hd Hes Hcall.
  destruct (trap_saves call s top vec err handler Ht Hr Hsel He Hc) as (s1 & E1 & H1).
  destruct (Hcall s1 H1) as (s2 & E2 & Hsp & Hfr). rewrite (tc_sp _ _ _ _ _ H1) in Hsp.
  destruct (trap_restores call top s2 f Ht Hr Hf Hd Hes Hsp Hfr) as (s' & E3 & H3).
  exists s1, s2, s'. split; [done|]. split; [done|]. split; [|done].
  unfold trap_run, alltraps. rewrite app_assoc.
  unfold mbind, M_bind in E1. unfold mbind at 1, M_bind at 1. destruct (deliver _ _ _ s) as [[[] s0]| |]; try done.
  rewrite exec_app. rewrite (bind_run _ _ _ _ _ E1). cbn [exec]. cbn [exec1].
  by rewrite (bind_run _ _ _ _ _ E2).
Qed.

(** ** Properties: traps *)

(** C8: traps are transparent.  An interrupt or exception of any vector, from
    user mode or the kernel, on a stack that ends at [top]: [trap] is called
    with the vector and the address of a trap frame, which lies at the top of
    the stack and holds every register of the interrupted program; the stack
    is aligned for a call, interrupts are off, and the GS base is the
    kernel's.  If the handler returns and leaves what lies above its stack
    pointer and the GS bases as they are, the interrupted program goes on with
    all its registers, instruction pointer, flags, the segments CS, SS, DS and
    ES, the GS bases and the memory above the stack as before.  FS and GS,
    which the code saves but does not restore, are what the handler left. *)
Theorem trap_is_transparent call (s : CPUState) top vec err handler :
  top mod 16 = 0 -> TrapFrame_size <= top < 2 ^ 64 -> selectors_ok s ->
  (has_error vec = false -> err = 0) ->
  segs s CS = KTEXT_SEL \/ segs s CS = USER_CS ->
  (forall s1, trap_called s top vec err s1 -> exists s2, call "trap" s1 = Ret (tt, s2) /\ regs s2 RSP = regs s1 RSP /\
     (forall x, regs s1 RSP <= x -> mem s2 x = mem s1 x) /\
     gs_base s2 = gs_base s1 /\ kgs_base s2 = kgs_base s1) ->
  exists s1 s2 s', trap_called s top vec err s1 /\ call "trap" s1 = Ret (tt, s2) /\
    trap_run call top vec err handler s = Ret (None, s') /\
    (forall r, regs s' r = regs s r) /\ rip s' = rip s /\ rflags s' = rflags s /\
    (forall g, g ∈ [CS; SS; DS; ES] -> segs s' g = segs s g) /\
    (forall g, g ∈ [FS; GS] -> segs s' g = segs s2 g) /\
    gs_base s' = gs_base s /\ kgs_base s' = kgs_base s /\
    (forall x, top <= x -> mem s' x = mem s x).
Proof.
  intros Ht Hr Hsel He Hc Hcall.
  destruct (trap_saves_and_resumes call s top vec err handler (frame_of s vec err)) as (s1 & s2 & s' & H1 & E2 & E & H);
    try done; try apply (Hsel DS); try apply (Hsel ES).
  { intros s1 H1. destruct (Hcall s1 H1) as (s2 & E & Hsp & Hm & _). exists s2. split; [done|]. split; [done|].
    intros i w Hi. rewrite Hm by (rewrite (tc_sp _ _ _ _ _ H1); lia). by apply (tc_words _ _ _ _ _ H1). }
  destruct (Hcall s1 H1) as (s2' & E2' & Hsp & Hm & Hg & Hk). assert (s2' = s2) as -> by congruence.
  exists s1, s2, s'. split; [done|]. split; [done|]. split; [done|]. destruct H.
  split; [intros r; rewrite rs_regs0; by destruct r|]. split; [done|]. split; [done|].
  split; [intros g Hg'; set_unfold in Hg'; destruct rs_segs0 as (?&?&?&?); destruct Hg' as [->|[->|[->|[->|[]]]]]; done|].
  split; [intros g Hg'; set_unfold in Hg'; destruct rs_other0; by destruct Hg' as [->|[->|[]]]|].
  cbn [frame_of t_cs] in *. rewrite rs_gs0, rs_kgs0, Hg, Hk, (tc_gs _ _ _ _ _ H1), (tc_kgs _ _ _ _ _ H1).
  unfold from_user. cbn. split; [by case_bool|]. split; [by case_bool|].
  intros x Hx. rewrite rs_rest0, Hm, (tc_rest _ _ _ _ _ H1); [done|lia|rewrite (tc_sp _ _ _ _ _ H1)|lia].
  unfold TrapFrame_size. lia.
Qed.

(** A user program interrupted by the clock, with a handler that does nothing. *)
Module TrapDemo.
Definition user : CPUState :=
  mkMach (tab_regs (fun r => 100 + Z.of_nat (reg_num r))) (tab_segs (fun g => match g with CS => 35 | SS => 27 | _ => 0 end))
    (Z.lor INTR_EN 2) 0x40 0x4000 7 0x90000 (fun _ => 0) (fun x => x).
Definition call (_ : string) : M CPUState unit := mret tt.
End TrapDemo.

Lemma trap_is_transparent_witness :
  exists s', trap_run TrapDemo.call 0x80000 32 0 0x1000 TrapDemo.user = Ret (None, s') /\
    regs s' R15 = 115 /\ rip s' = 0x4000 /\ rflags s' = 0x242 /\ gs_base s' = 7.
Proof.
  destruct (trap_is_transparent TrapDemo.call TrapDemo.user 0x80000 32 0 0x1000) as (s1 & s2 & s' & _ & _ & E & H1 & H2 & H3 & _ & _ & H4 & _).
  - reflexivity.
  - unfold TrapFrame_size. lia.
  - intros []; cbn; lia.
  - reflexivity.
  - right. reflexivity.
  - intros s3 _. exists s3. split; [reflexivity|]. split; [reflexivity|]. split; [reflexivity|]. split; reflexivity.
  - exists s'. split; [exact E|]. rewrite H1, H2, H3, H4. split; [reflexivity|]. split; [reflexivity|]. split; reflexivity.
Defined.
