(* ===== verification/SyscallPath.v ===== *)
(** The path of a system call, from the user library's stub through [enter],
    the dispatcher and [syscallret] back to the stub's caller. *)
From stdpp Require Import base list gmap strings.
From Stdlib Require Import ZArith Lia.
From S2P Require Import Prelude.
From S2P Require Import Arch.
From S2P Require Import Segment.
From S2P Require Import Machine.
From S2P Require Import Entry.
From S2P Require Import EntrySpec.

(** ** Two regions: the kernel stack and the processor's own page, of which
    the word at 16 holds the stack's top *)
Definition kern_ext (r : nat) : Z * Z := match r with O => (- (8 * 28), 0) | 1%nat => (0, 24) | _ => (1, 0) end.
Definition kern_base (top K : Z) (r : nat) : Z := match r with O => top | 1%nat => K | _ => 0 end.
Definition KSTACK : Z := 16.

Record kern_ok (top K : Z) : Prop := {
  ko_top : top mod 16 = 0;
  ko_range : 8 * 28 <= top < 2 ^ 64;
  ko_page : K mod 8 = 0;
  ko_page_range : 0 <= K < 2 ^ 64 - 24;
  ko_apart : K + 24 <= top - 8 * 28 \/ top <= K }.

Lemma kern_region r o : in_region kern_ext r o = true -> r = O /\ - (8 * 28) <= o <= 0 \/ r = 1%nat /\ 0 <= o <= 24.
Proof. unfold in_region. destruct r as [|[|r]]; cbn; intros; bool_to_prop; [left; split; lia|right; split; lia|lia]. Qed.

Lemma mod16_mod8 x : x mod 16 = 0 -> x mod 8 = 0.
Proof. intros H. apply Z.mod_divide; [lia|]. apply Z.mod_divide in H; [|lia]. etransitivity; [|done]. by exists 2. Qed.

Lemma kern_regions top K : kern_ok top K -> regions_ok kern_ext (kern_base top K).
Proof.
  intros []. split.
  - intros [|[|r]]; cbn; [by apply mod16_mod8|done|done].
  - intros r o [[-> ?]|[-> ?]]%kern_region; cbn; lia.
  - intros r r' o o' H1 H2 H3 H4 He. apply kern_region in H1, H2, H3, H4.
    destruct H1 as [[-> ?]|[-> ?]], H3 as [[-> ?]|[-> ?]]; cbn in He; destruct H2 as [[? ?]|[? ?]], H4 as [[? ?]|[? ?]]; try done; lia.
Qed.

Lemma kern_cell o : - (8 * 28) <= o < 0 -> o mod 8 = 0 -> cell kern_ext O o.
Proof.
  intros Ho Hm. assert (o <= -8) by (pose proof (Z.div_mod o 8); lia).
  unfold cell, in_region. cbn. split; [lia|]. split; [lia|done].
Qed.

Lemma page_cell : cell kern_ext 1 16.
Proof. split_and!; reflexivity. Qed.

Lemma kern_rest top K m0 (s : CPUState) a x :
  sim kern_ext (kern_base top K) m0 s a -> x < top - 8 * 28 \/ top <= x -> x < K \/ K + 24 <= x -> mem s x = m0 x.
Proof.
  intros Hs Hx Hx'. apply (sim_rest _ _ _ _ _ Hs). intros r o (Hc & Hc' & _).
  apply kern_region in Hc, Hc'. destruct Hc as [[-> ?]|[-> ?]], Hc' as [[? ?]|[? ?]]; cbn; try done; lia.
Qed.

(** ** [enter] *)

(** The frame of a system call: what a call may clobber is not saved. *)
Definition syscall_frame (s : CPUState) : TrapFrame :=
  mkTrapFrame (regs s RAX) (regs s RBX) 0 0 0 0 (regs s RBP) 0 0 0 0 (regs s R12) (regs s R13) (regs s R14) (regs s R15)
    (segs s DS) (segs s ES) (segs s FS) (segs s GS) 0 0 (regs s RCX) (segs s CS) (regs s R11) (regs s RSP) 0.

(** What the dispatcher is called with, from the state [s] at [enter]. *)
Record syscall_called (top K : Z) (s s1 : CPUState) : Prop := {
  sc_args : (regs s1 <$> [RDI; RSI; RDX; RCX]) = [regs s RDI; regs s RSI; regs s RDX; regs s RAX];
  sc_sp : regs s1 RSP = top - 8 * 28;
  sc_aligned : regs s1 RSP mod 16 = 0;
  sc_rbp : regs s1 RBP = segs s CS;
  sc_frame : frame_at (mem s1) (top - TrapFrame_size) (syscall_frame s);
  sc_gs : gs_base s1 = K /\ kgs_base s1 = gs_base s;
  sc_ctl : ctl s1 = ctl s;
  sc_msr : msr s1 = msr s;
  sc_segs : forall g, segs s1 g = segs s g;
  sc_page : mem s1 (K + KSTACK) = top;
  sc_rest : forall x, x < top - 8 * 28 \/ top <= x -> x < K \/ K + 24 <= x -> mem s1 x = mem s x }.

Definition at_enter (s : CPUState) : Mach Val Smem :=
  put_gs (Num (gs_base s)) (Ptr 1 0) (lift_mach s [(1%nat, 16, Ptr 0 0)]).

Definition enter_vals (s : CPUState) : list Val :=
  [Num (regs s RCX); Num 0; Num (regs s RAX); Num (regs s RBX); Num 0; Num 0; Num 0; Num 0; Num (regs s RBP);
   Num 0; Num 0; Num 0; Num 0; Num (regs s R12); Num (regs s R13); Num (regs s R14); Num (regs s R15)] ++
  ((fun g => App2 (OPutBits 0 16) (Num 0) (Num (segs s g))) <$> [DS; ES; FS; GS]) ++
  [Num 0; Num 0; Num (regs s RCX); Num (segs s CS); Num (regs s R11); Num (regs s RSP); Num 0].

Lemma enter_sym (s : CPUState) :
  exists a, @exec _ _ (dom_symbolic kern_ext) no_call enter_save None (at_enter s) = Ret (None, a) /\
    (regs a <$> [RDI; RSI; RDX; RCX; RSP; RBP]) =
      [Num (regs s RDI); Num (regs s RSI); Num (regs s RDX); Num (regs s RAX); Ptr 0 (-224); Num (segs s CS)] /\
    cells 28 28 a = enter_vals s /\ gs_base a = Ptr 1 0 /\ kgs_base a = Num (gs_base s) /\
    ctl a = Num (ctl s) /\ msr a = msr s /\ (forall g, segs a g = Num (segs s g)) /\ smem_get (mem a) 1 16 = Ptr 0 0.
Proof.
  destruct s as [[] [] ???????]. sym_final. split_and!; try (intros []); vm_compute; reflexivity.
Qed.

Lemma enter_vals_words (s : CPUState) :
  selectors_ok s -> number <$> enter_vals s = Some <$> (regs s RCX :: 0 :: TrapFrame_words (syscall_frame s)).
Proof. intros H. unfold enter_vals. cbn -[put_bits]. by rewrite !put_bits_seg by apply H. Qed.

Lemma words_at_drop m a ws (k : nat) : words_at m a ws -> words_at m (a + 8 * Z.of_nat k) (drop k ws).
Proof. intros H i w Hi. rewrite lookup_drop in Hi. rewrite <-(H _ _ Hi). f_equal. lia. Qed.

Lemma enter_saves call top K (s : CPUState) :
  kern_ok top K -> selectors_ok s -> kgs_base s = K -> mem s (K + KSTACK) = top ->
  exists s1, exec call enter_save None s = Ret (None, s1) /\ syscall_called top K s s1.
Proof.
  intros Hk Hsel HK Hm. destruct (enter_sym s) as (a & E & H1 & H2 & H3 & H4 & H5 & H6 & H7 & H8).
  assert (H0 : sim kern_ext (kern_base top K) (mem s) s (at_enter s)).
  { apply sim_refine_gs; [apply lift_sim|done|].
    - intros r o _. cbn. destruct (_ && _) eqn:Er; [|done]. bool_to_prop. apply Nat.eqb_eq in H as ->. subst o.
      cbn. split; [|done]. rewrite <-Hm. unfold KSTACK. lia.
    - cbn. split; [lia|done]. }
  destruct (exec_sim _ _ (kern_regions _ _ Hk) (mem s) call _ _ _ _ _ _ H0 E) as (? & s1 & E1 & -> & Hs).
  exists s1. split; [done|]. cbn in H1. injection H1 as A1 A2 A3 A4 A5 A6.
  assert (Hsp : regs s1 RSP = top - 8 * 28).
  { pose proof (sim_regs _ _ _ _ _ Hs RSP) as X. rewrite A5 in X. destruct X as [X _]. cbn in X. lia. }
  split.
  - cbn. by rewrite (den_num _ _ _ _ _ (sim_regs _ _ _ _ _ Hs RDI) A1), (den_num _ _ _ _ _ (sim_regs _ _ _ _ _ Hs RSI) A2),
      (den_num _ _ _ _ _ (sim_regs _ _ _ _ _ Hs RDX) A3), (den_num _ _ _ _ _ (sim_regs _ _ _ _ _ Hs RCX) A4).
  - done.
  - rewrite Hsp, Zminus_mod, (ko_top _ _ Hk). done.
  - exact (den_num _ _ _ _ _ (sim_regs _ _ _ _ _ Hs RBP) A6).
  - pose proof (words_sim _ _ 28 _ _ _ (enter_vals s) _ Hs kern_cell ltac:(done) H2 (enter_vals_words _ Hsel)) as W.
    apply (words_at_drop _ _ _ 2) in W. cbn in W. unfold frame_at, TrapFrame_size.
    by replace (top - 8 * 26) with (top - 224 + 16) by lia.
  - pose proof (sim_gs _ _ _ _ _ Hs) as X. pose proof (sim_kgs _ _ _ _ _ Hs) as Y. rewrite H3 in X. rewrite H4 in Y.
    destruct X as [X _]. injection Y as Y. cbn in X. split; [lia|done].
  - exact (den_num _ _ _ _ _ (sim_ctl _ _ _ _ _ Hs) H5).
  - by rewrite (sim_msr _ _ _ _ _ Hs).
  - intros g. exact (den_num _ _ _ _ _ (sim_segs _ _ _ _ _ Hs g) (H7 g)).
  - pose proof (sim_mem _ _ _ _ _ Hs _ _ page_cell) as X. rewrite H8 in X. destruct X as [X _]. cbn in X. unfold KSTACK. lia.
  - intros x ? ?. by apply (kern_rest _ _ _ _ _ _ Hs).
Qed.

(** ** [syscallret] *)

(** The registers of user mode after [sysretq]: those of the frame, the call's
    result, and the two that the instruction itself uses. *)
Definition sysret_reg (f : TrapFrame) (result : Z) (r : Reg) : Z :=
  match r with RAX => result | RCX => t_rip f | R11 => t_rflags f | R8 => 0 | _ => frame_reg f r end.

Record returned_to_user (top K : Z) (f : TrapFrame) (s2 s' : CPUState) : Prop := {
  ru_regs : forall r, regs s' r = sysret_reg f (regs s2 RAX) r;
  ru_rip : rip s' = t_rip f;
  ru_flags : rflags s' = t_rflags f;
  ru_segs : (segs s' <$> [CS; SS; DS; ES; FS; GS]) = [USER_CS; Z.lor UDATA_SEL 3; t_ds f; t_es f; t_fs f; segs s2 GS];
  ru_gs : gs_base s' = kgs_base s2 /\ kgs_base s' = K;
  ru_msr : msr s' = msr s2;
  ru_page : mem s' (K + KSTACK) = top;
  ru_rest : forall x, x < top - 8 * 28 \/ top <= x -> x < K \/ K + 24 <= x -> mem s' x = mem s2 x }.

Definition at_return (s2 : CPUState) (f : TrapFrame) : Mach Val Smem :=
  put_gs (Ptr 1 0) (Num (kgs_base s2)) (at_frame s2 f).

Lemma syscallret_sym (s2 : CPUState) f :
  exists a, @exec _ _ (dom_symbolic kern_ext) no_call syscallret None (at_return s2 f) = Ret (None, a) /\
    (forall r, regs a r = Num (sysret_reg f (regs s2 RAX) r)) /\ rip a = Num (t_rip f) /\
    ctl a = App1 (OClear STATUS) (Num (t_rflags f)) /\ stat a = App1 (OKeep STATUS) (Num (t_rflags f)) /\
    (segs a <$> [CS; SS; DS; ES; FS; GS]) =
      [App1 (OSelector 48 16 3) (Num (msr s2 STAR)); App1 (OSelector 48 8 0) (Num (msr s2 STAR)); App1 (OGetBits 0 16) (Num (t_ds f));
       App1 (OGetBits 0 16) (Num (t_es f)); App1 (OGetBits 0 16) (Num (t_fs f)); Num (segs s2 GS)] /\
    gs_base a = Num (kgs_base s2) /\ kgs_base a = Ptr 1 0 /\ msr a = msr s2 /\ smem_get (mem a) 1 16 = Ptr 0 0.
Proof.
  destruct f, s2 as [[] [] ???????]. sym_final. split_and!; try (intros []); vm_compute; reflexivity.
Qed.

Definition frame_selectors_ok (f : TrapFrame) : Prop :=
  0 <= t_ds f < 2 ^ 16 /\ 0 <= t_es f < 2 ^ 16 /\ 0 <= t_fs f < 2 ^ 16.

Lemma at_return_sim top K (s2 : CPUState) f :
  gs_base s2 = K -> regs s2 RSP = top - TrapFrame_size -> frame_at (mem s2) (top - TrapFrame_size) f ->
  sim kern_ext (kern_base top K) (mem s2) s2 (at_return s2 f).
Proof.
  intros HK Hsp Hf. apply sim_refine_gs; [|cbn; split; [lia|done]|done].
  apply sim_refine_reg; [apply lift_sim; intros; by apply stack_mem_den|].
  rewrite Hsp. unfold TrapFrame_size. cbn. split; [lia|done].
Qed.

Lemma syscallret_returns call top K (s2 : CPUState) f :
  kern_ok top K -> frame_selectors_ok f -> msr s2 STAR = star -> gs_base s2 = K ->
  regs s2 RSP = top - TrapFrame_size -> frame_at (mem s2) (top - TrapFrame_size) f ->
  exists s', exec call syscallret None s2 = Ret (None, s') /\ returned_to_user top K f s2 s'.
Proof.
  intros Hk (Hd & He & Hfs) Hstar HK Hsp Hf.
  destruct (syscallret_sym s2 f) as (a & E & H1 & H2 & H3 & H4 & H5 & H6 & H7 & H8 & H9).
  destruct (exec_sim _ _ (kern_regions _ _ Hk) (mem s2) call _ _ _ _ _ _ (at_return_sim _ _ _ _ HK Hsp Hf) E)
    as (? & s' & E' & -> & Hs). exists s'. split; [done|].
  pose proof (sim_segs _ _ _ _ _ Hs) as Hg. rewrite Hstar in H5. cbn in H5. injection H5 as C1 C2 C3 C4 C5 C6. split.
  - by eapply regs_sim.
  - exact (den_num _ _ _ _ _ (sim_rip _ _ _ _ _ Hs) H2).
  - pose proof (sim_ctl _ _ _ _ _ Hs) as X. pose proof (sim_stat _ _ _ _ _ Hs) as Y. rewrite H3 in X. rewrite H4 in Y.
    injection X as X. injection Y as Y. unfold rflags. rewrite <-X, <-Y. apply flags_split.
  - pose proof (Hg CS) as X1. pose proof (Hg SS) as X2. pose proof (Hg DS) as X3. pose proof (Hg ES) as X4.
    pose proof (Hg FS) as X5. pose proof (Hg GS) as X6.
    rewrite C1 in X1. rewrite C2 in X2. rewrite C3 in X3. rewrite C4 in X4. rewrite C5 in X5. rewrite C6 in X6.
    injection X1 as X1. injection X2 as X2. injection X3 as X3. injection X4 as X4. injection X5 as X5. injection X6 as X6.
    cbn [fmap list_fmap]. rewrite <-X1, <-X2, <-X3, <-X4, <-X5, <-X6, !get_bits_seg by done. reflexivity.
  - pose proof (sim_gs _ _ _ _ _ Hs) as X. pose proof (sim_kgs _ _ _ _ _ Hs) as Y. rewrite H6 in X. rewrite H7 in Y.
    destruct Y as [Y _]. injection X as X. cbn in Y. split; [done|lia].
  - by rewrite (sim_msr _ _ _ _ _ Hs).
  - pose proof (sim_mem _ _ _ _ _ Hs _ _ page_cell) as X. rewrite H9 in X. destruct X as [X _]. cbn in X. unfold KSTACK. lia.
  - intros x ? ?. by apply (kern_rest _ _ _ _ _ _ Hs).
Qed.

(** ** The whole path *)

(** The state at [enter]: the stub has set the number, and [syscall] the
    return address, the flags and the kernel's segments. *)
Definition entered (num : Z) (s : CPUState) : CPUState :=
  let s := put_reg RAX num s in
  put_rip (msr s LSTAR)
    (put_seg SS (op1 (OSelector 32 8 0) (msr s STAR)) (put_seg CS (op1 (OSelector 32 0 0) (msr s STAR))
      (put_flags (Z.ldiff (ctl s) (msr s FMASK)) (Z.ldiff (stat s) (msr s FMASK))
        (put_reg R11 (rflags s) (put_reg RCX (rip s) s))))).

Lemma stub_enter_run call num (s : CPUState) : exec call (stub_enter num) None s = Ret (None, entered num s).
Proof. reflexivity. Qed.

(** The code of a system call, where it lies: the stub of the user library, up
    to its [syscall] and from it, [enter] and [syscallret]. *)
Definition syscall_code (num stub ret enter_addr syscallret_addr : Z) : list Piece :=
  [mkPiece stub (stub_enter num) ret; mkPiece ret stub_leave (ret + 1);
   mkPiece enter_addr (enter syscallret_addr) syscallret_addr;
   mkPiece syscallret_addr syscallret syscallret_addr].

(** The state of user mode a system call is made in: [syscall_init] has run,
    the page at [K] gives the top of the kernel stack, and the user's stack
    lies elsewhere. *)
Record calling (top K enter_addr : Z) (s : CPUState) : Prop := {
  ca_sel : selectors_ok s;
  ca_msr : exists s0, msr s = msr (syscall_init enter_addr s0);
  ca_page : kgs_base s = K /\ mem s (K + KSTACK) = top;
  ca_stack : regs s RSP mod 8 = 0 /\ 0 <= regs s RSP < 2 ^ 64 - 8;
  ca_apart : (regs s RSP < top - 8 * 28 \/ top <= regs s RSP) /\ (regs s RSP < K \/ K + 24 <= regs s RSP) }.

Lemma wrmsr_msr index value s : uN 64 value -> msr (wrmsr index value s) = fun i => if i =? index then value else msr s i.
Proof. intros H. unfold wrmsr. cbn -[Z.lor]. by rewrite halves_join. Qed.

Lemma init_msrs enter_addr s0 : uN 64 enter_addr ->
  msr (syscall_init enter_addr s0) STAR = star /\ msr (syscall_init enter_addr s0) FMASK = sfmask /\
  msr (syscall_init enter_addr s0) LSTAR = enter_addr.
Proof. intros H. unfold syscall_init. rewrite !wrmsr_msr by (done || by vm_compute). done. Qed.

Definition USER_SS : Z := Z.lor UDATA_SEL 3.

(** What a caller of a stub sees, in every register; [ret] is the address after
    the stub's [syscall]. *)
Record stub_returned (ret : Z) (s s2 s' : CPUState) : Prop := {
  sr_result : regs s' RAX = regs s2 RAX;
  sr_saved : forall r, r ∈ [RBX; RBP; R12; R13; R14; R15] -> regs s' r = regs s r;
  sr_cleared : forall r, r ∈ [RDI; RSI; RDX; R8; R9; R10] -> regs s' r = 0;
  sr_trashed : regs s' RCX = ret /\ regs s' R11 = rflags s;
  sr_return : rip s' = mem s (regs s RSP) /\ regs s' RSP = regs s RSP + 8;
  sr_flags : rflags s' = rflags s;
  sr_segs : (segs s' <$> [CS; SS; DS; ES; FS; GS]) =
    [USER_CS; USER_SS; segs s DS; segs s ES; segs s FS; segs s2 GS] }.

Lemma retq_run call (s : CPUState) :
  regs s RSP mod 8 = 0 -> 0 <= regs s RSP < 2 ^ 64 - 8 ->
  exec call stub_leave None s = Ret (None, put_rip (mem s (regs s RSP)) (put_reg RSP (regs s RSP + 8) s)).
Proof.
  intros Ha Hr. unfold stub_leave. cbn [exec exec1]. unfold pop, load, addr. run. cbn [id vload vadd dom_machine].
  unfold word_of. rewrite Ha, Z.sub_0_r. unfold wrap. rewrite Z.mod_small by lia. done.
Qed.

(** The end of [enter], after the dispatcher. *)
Definition dropped (s2 : CPUState) : CPUState :=
  put_reg RSP (wrap 64 (regs s2 RSP + 16)) (set_status (add_status (regs s2 RSP) 16) s2).

Lemma enter_run call sr (s s1 s2 : CPUState) :
  exec call enter_save None s = Ret (None, s1) -> call "syscall" s1 = Ret (tt, s2) ->
  exec call (enter sr) None s = Ret (None, put_rip sr (dropped s2)).
Proof.
  intros E1 E2. unfold enter. rewrite exec_app, (bind_run _ _ _ _ _ E1). cbn [exec exec1].
  by rewrite (bind_run _ _ _ _ _ E2).
Qed.

(** The pieces are found by their addresses, and follow each other as [rip]
    says. *)
Lemma piece_found (code : list Piece) i p :
  NoDup (p_at <$> code) -> code !! i = Some p -> find (fun q => p_at q =? p_at p) code = Some p.
Proof.
  intros Hnd Hin%list_elem_of_lookup_2. revert Hnd Hin.
  induction code as [|q code IH]; cbn; intros Hnd Hin; [by apply not_elem_of_nil in Hin|].
  apply NoDup_cons in Hnd as [Hni Hnd]. apply elem_of_cons in Hin as [->|Hin]; [by rewrite Z.eqb_refl|].
  rewrite (proj2 (Z.eqb_neq _ _)); [by apply IH|]. intros E. apply Hni. rewrite E. by apply list_elem_of_fmap_2.
Qed.

Lemma path_run call num stub ret enter_addr sr (s s1 s2 s3 s4 : CPUState) :
  NoDup [stub; ret; enter_addr; sr] -> rip s = stub -> msr s LSTAR = enter_addr ->
  exec call enter_save None (put_rip sr (entered num (put_rip ret s))) = Ret (None, s1) -> call "syscall" s1 = Ret (tt, s2) ->
  exec call syscallret None (put_rip sr (dropped s2)) = Ret (None, s3) -> rip s3 = ret ->
  exec call stub_leave None (put_rip (ret + 1) s3) = Ret (None, s4) ->
  run_linked call (syscall_code num stub ret enter_addr sr) 4 s = Ret (tt, s4).
Proof.
  intros Hnd H0 Hl E1 E2 E3 H3 E4. apply (enter_run _ sr _ _ _ E1) in E2.
  pose proof (piece_found (syscall_code num stub ret enter_addr sr) 0 _ Hnd eq_refl) as F1.
  pose proof (piece_found (syscall_code num stub ret enter_addr sr) 1 _ Hnd eq_refl) as F2.
  pose proof (piece_found (syscall_code num stub ret enter_addr sr) 2 _ Hnd eq_refl) as F3.
  pose proof (piece_found (syscall_code num stub ret enter_addr sr) 3 _ Hnd eq_refl) as F4.
  assert (E0 := stub_enter_run call num (put_rip ret s)).
  generalize dependent (syscall_code num stub ret enter_addr sr). intros code F1 F2 F3 F4.
  rewrite (run_linked_step _ _ _ (mkPiece stub (stub_enter num) ret) s _ H0 F1 E0).
  rewrite (run_linked_step _ _ _ (mkPiece enter_addr (enter sr) sr) (entered num (put_rip ret s)) _ Hl F3 E2).
  rewrite (run_linked_step _ _ _ (mkPiece sr syscallret sr) (put_rip sr (dropped s2)) _ eq_refl F4 E3).
  by rewrite (run_linked_step _ _ _ (mkPiece ret stub_leave (ret + 1)) s3 _ H3 F2 E4).
Qed.

(** What the caller sees of the way back. *)
Lemma caller_sees num ret sr top K2 (s s2 s3 : CPUState) :
  selectors_ok s -> returned_to_user top K2 (syscall_frame (entered num (put_rip ret s))) (put_rip sr (dropped s2)) s3 ->
  mem s3 (regs s RSP) = mem s (regs s RSP) ->
  stub_returned ret s s2 (put_rip (mem s3 (regs s3 RSP)) (put_reg RSP (regs s3 RSP + 8) s3)).
Proof.
  intros Hsel [] Hm.
  assert (Hr : forall r, r <> RSP -> regs (put_rip (mem s3 (regs s3 RSP)) (put_reg RSP (regs s3 RSP + 8) s3)) r = regs s3 r) by (by intros []).
  split.
  - by rewrite Hr, ru_regs0.
  - intros r Hin. rewrite Hr, ru_regs0 by (intros ->; set_solver). set_unfold in Hin.
    by destruct Hin as [->|[->|[->|[->|[->|[->|[]]]]]]].
  - intros r Hin. rewrite Hr, ru_regs0 by (intros ->; set_solver). set_unfold in Hin.
    by destruct Hin as [->|[->|[->|[->|[->|[->|[]]]]]]].
  - split; by rewrite Hr, ru_regs0.
  - assert (Hsp : regs s3 RSP = regs s RSP) by (by rewrite ru_regs0). split; [cbn [rip put_rip]; by rewrite Hsp, Hm|].
    change (regs s3 RSP + 8 = regs s RSP + 8). by rewrite Hsp.
  - exact ru_flags0.
  - cbn [fmap list_fmap] in ru_segs0 |- *. injection ru_segs0 as C1 C2 C3 C4 C5 C6. cbn -[USER_CS USER_SS].
    change (segs (put_rip (mem s3 (regs s3 RSP)) (put_reg RSP (regs s3 RSP + 8) s3))) with (segs s3).
    by rewrite C1, C2, C3, C4, C5, C6.
Qed.

(** ** Property *)

(** C7: system calls return.  A program calls the stub of any system call; from
    there control goes where [rip] says, through the [syscall] instruction,
    [enter], the dispatcher and [syscallret], to the stub's return and after
    the call of the stub.  The dispatcher is called with the program's three
    arguments and the call's number, on the kernel stack, aligned, with
    interrupts off and the GS base the processor's page; above its stack lies
    the frame of the call.  If it returns with the frame unchanged, on whatever
    processor, then [sysretq] goes back to the instruction after [syscall],
    and the caller of the stub goes on after its call with the dispatcher's
    result in [rax], with the registers a call must keep, its stack and flags
    as they were, zero in the argument registers and [r8], [r9], [r10], the
    return address and the flags in [rcx] and [r11]: no register holds a
    value of the kernel.  CS and SS are the user's, DS, ES and FS as they were,
    GS what the dispatcher left, its base the user's; and the processor's page
    again gives the top of the kernel stack. *)
Theorem syscall_roundtrip call (s : CPUState) num top K K2 stub ret enter_addr syscallret_addr :
  uN 64 enter_addr -> NoDup [stub; ret; enter_addr; syscallret_addr] -> rip s = stub ->
  calling top K enter_addr s -> kern_ok top K -> kern_ok top K2 ->
  regs s RSP < K2 \/ K2 + 24 <= regs s RSP ->
  (forall s1, syscall_called top K (entered num (put_rip ret s)) s1 ->
     exists s2, call "syscall" s1 = Ret (tt, s2) /\ regs s2 RSP = regs s1 RSP /\
       frame_at (mem s2) (top - TrapFrame_size) (syscall_frame (entered num (put_rip ret s))) /\
       mem s2 (regs s RSP) = mem s (regs s RSP) /\ gs_base s2 = K2 /\ msr s2 = msr s1) ->
  exists s1 s2 s', syscall_called top K (entered num (put_rip ret s)) s1 /\ Z.testbit (ctl s1) 9 = false /\
    (regs s1 <$> [RDI; RSI; RDX; RCX]) = [regs s RDI; regs s RSI; regs s RDX; num] /\
    call "syscall" s1 = Ret (tt, s2) /\
    run_linked call (syscall_code num stub ret enter_addr syscallret_addr) 4 s = Ret (tt, s') /\ stub_returned ret s s2 s' /\
    gs_base s' = kgs_base s2 /\ kgs_base s' = K2 /\ mem s' (K2 + KSTACK) = top.
Proof.
  intros He Hnd Hrip Hca HK HK2 Hap2 Hcall. destruct Hca as [Hsel (s0 & Hmsr) [Hkgs Hpage] [Ha Hr] [Hap1 Hap]].
  pose proof (init_msrs enter_addr s0 He) as (M1 & M2 & M3). rewrite <-Hmsr in M1, M2, M3.
  set (e := entered num (put_rip ret s)) in *. set (e' := put_rip syscallret_addr e).
  assert (Hse : selectors_ok e').
  { intros g. unfold e', e, entered. destruct g; try apply Hsel; cbn; rewrite M1; done. }
  destruct (enter_saves call top K e' HK Hse Hkgs Hpage) as (s1 & E1 & H1').
  assert (H1 : syscall_called top K e s1) by (destruct H1'; by split).
  destruct (Hcall s1 H1) as (s2 & E2 & Hsp & Hf & Hm & Hg & Hms). set (d := put_rip syscallret_addr (dropped s2)).
  assert (Hd : regs d RSP = top - TrapFrame_size).
  { change (wrap 64 (regs s2 RSP + 16) = top - TrapFrame_size). rewrite Hsp, (sc_sp _ _ _ _ H1). destruct HK.
    unfold wrap, TrapFrame_size. rewrite Z.mod_small by lia. lia. }
  destruct (syscallret_returns call top K2 d (syscall_frame e) HK2) as (s3 & E3 & H3); try done.
  { split_and!; apply Hsel. }
  { change (msr s2 STAR = star). rewrite Hms, (sc_msr _ _ _ _ H1). done. }
  assert (Hm3 : mem s3 (regs s RSP) = mem s (regs s RSP)) by (rewrite (ru_rest _ _ _ _ _ H3) by done; exact Hm).
  assert (Hsp3 : regs s3 RSP = regs s RSP) by (by rewrite (ru_regs _ _ _ _ _ H3)).
  eexists s1, s2, _. split; [done|]. split.
  { rewrite (sc_ctl _ _ _ _ H1). change (Z.testbit (Z.ldiff (ctl s) (msr s FMASK)) 9 = false).
    rewrite M2, Z.ldiff_spec. by rewrite andb_false_r. }
  split; [exact (sc_args _ _ _ _ H1)|]. split; [done|]. split.
  { eapply path_run; [exact Hnd|done|done|exact E1|exact E2|exact E3|exact (ru_rip _ _ _ _ _ H3)|].
    apply retq_run; change (regs (put_rip (ret + 1) s3) RSP) with (regs s3 RSP); by rewrite Hsp3. }
  split; [exact (caller_sees num ret syscallret_addr top K2 s s2 s3 Hsel H3 Hm3)|]. destruct (ru_gs _ _ _ _ _ H3) as [G1 G2].
  split; [exact G1|]. split; [exact G2|]. exact (ru_page _ _ _ _ _ H3).
Qed.

(** A program calls [getpid], and the dispatcher answers 42. *)
Module SysDemo0.
Definition user : CPUState :=
  syscall_init 0x1000 (mkMach (tab_regs (fun r => match r with RSP => 0x7000 | _ => 100 + Z.of_nat (reg_num r) end))
    (tab_segs (fun g => match g with CS => 35 | SS => 27 | _ => 0 end))
    (Z.lor INTR_EN 2) 0x40 0x4000 7 0x90000 (fun _ => 0) (mem_upd (fun x => x) 0x90010 0x80000)).
Definition call (_ : string) : M CPUState unit := modify (put_reg RAX 42).

Lemma calls : calling 0x80000 0x90000 0x1000 user.
Proof.
  split; [intros []; cbn; lia|by eexists|done|by split|]. change (regs user RSP) with 0x7000. lia.
Qed.
Lemma apart : NoDup [0x4000; 0x4009; 0x1000; 0x1100].
Proof. apply (bool_decide_unpack _). by vm_compute. Qed.
Lemma r15_saved : R15 ∈ [RBX; RBP; R12; R13; R14; R15].
Proof. set_solver. Qed.
Lemma kern : kern_ok 0x80000 0x90000.
Proof. split; [done|lia|done|lia|lia]. Qed.
End SysDemo0.

Lemma syscall_roundtrip_witness :
  exists s', run_linked SysDemo0.call (syscall_code 11 0x4000 0x4009 0x1000 0x1100) 4 SysDemo0.user = Ret (tt, s') /\
    regs s' RCX = 0x4009 /\
    regs s' RAX = 42 /\ regs s' R15 = 115 /\ rip s' = 0x7000 /\ regs s' RSP = 0x7008 /\ mem s' (0x90000 + KSTACK) = 0x80000.
Proof.
  destruct (syscall_roundtrip SysDemo0.call SysDemo0.user 11 0x80000 0x90000 0x90000 0x4000 0x4009 0x1000 0x1100)
    as (s1 & s2 & s' & _ & _ & _ & E2 & E & [R1 R2 _ [R3 _] [R4 R5] _ _] & _ & _ & Hp).
  - unfold uN. lia.
  - exact SysDemo0.apart.
  - reflexivity.
  - exact SysDemo0.calls.
  - exact SysDemo0.kern.
  - exact SysDemo0.kern.
  - change (regs SysDemo0.user RSP) with 0x7000. lia.
  - intros s1 H1. eexists. split; [reflexivity|]. split; [reflexivity|]. split; [exact (sc_frame _ _ _ _ H1)|].
    change (regs SysDemo0.user RSP) with 0x7000. split; [exact (sc_rest _ _ _ _ H1 0x7000 ltac:(lia) ltac:(lia))|].
    split; [exact (proj1 (sc_gs _ _ _ _ H1))|reflexivity].
  - exists s'. split; [exact E|]. injection E2 as <-. split; [exact R3|]. split; [exact R1|]. split; [exact (R2 _ SysDemo0.r15_saved)|].
    split; [exact R4|]. split; [exact R5|exact Hp].
Defined.
