(* ===== verification/Switch.v ===== *)
(** Contexts and the switch between them: [Context] of [x86_64.rs], [swtch],
    the kernel stack that [init_proc] of [proc.rs] prepares for a new process,
    and what [fork] and [init] put on it. *)
From stdpp Require Import base list gmap strings.
From Stdlib Require Import ZArith Lia.
From S2P Require Import Prelude.
From S2P Require Import Arch.
From S2P Require Import Segment.
From S2P Require Import Machine.
From S2P Require Import Entry.
From S2P Require Import EntrySpec.
From S2P Require Import SyscallPath.
From S2P Require Import Spinlock.
From S2P Require Import Proc.
From S2P Require Import Sched.

(** ** Contexts *)
Record Context := mkContext {
  c_rsp : Z; c_rflags : Z; c_rbp : Z; c_rbx : Z; c_r12 : Z; c_r13 : Z; c_r14 : Z; c_r15 : Z; c_rip : Z }.
Definition Context_words (c : Context) : list Z :=
  [c_rsp c; c_rflags c; c_rbp c; c_rbx c; c_r12 c; c_r13 c; c_r14 c; c_r15 c; c_rip c].
Definition Context_size : Z := 8 * 9.

(** [swtch(from, to)]. *)
Definition swtch : list Instr :=
  [Pushq (Rg R15); Pushq (Rg R14); Pushq (Rg R13); Pushq (Rg R12); Pushq (Rg RBX); Pushq (Rg RBP);
   Pushfq; Pushq (Rg RSP);
   Movq (Rg RSP) (Mem 0 RDI); Movq (Rg RSI) (Rg RSP);
   Addq 16 RSP; Popq RBP; Popq RBX; Popq R12; Popq R13; Popq R14; Popq R15; Retq].

(** ** The kernel stack of a new process *)
Fixpoint write_words (m : Z -> Z) (a : Z) (ws : list Z) : Z -> Z :=
  match ws with [] => m | w :: ws' => write_words (mem_upd m a w) (a + 8) ws' end.
Definition read_words (m : Z -> Z) (a : Z) (n : nat) : list Z := (fun i : nat => m (a + 8 * Z.of_nat i)) <$> seq 0 n.

(** The stack part of [init_proc], for the page that ends at [top]: room for
    the system call's frame, the return to [syscallret], and a context. *)
Definition init_proc_stack (syscallret_addr top : Z) (m : Z -> Z) : Z * (Z -> Z) :=
  let sp := top - TrapFrame_size in
  let sp := sp - 8 in
  let m := mem_upd m sp syscallret_addr in
  let sp := sp - Context_size in
  (sp, mem_upd m sp sp).

Definition user_context_addr (top : Z) : Z := top - TrapFrame_size.
(** [Context::set_return]: the last word. *)
Definition context_set_return (ctx thunk : Z) (m : Z -> Z) : Z -> Z := mem_upd m (ctx + 64) thunk.

(** The contexts of [fork]: the child's frame is a copy of the parent's. *)
Definition fork_contexts (syscallret_addr forkret_addr ptop ctop : Z) (m : Z -> Z) : Z * (Z -> Z) :=
  let '(ctx, m) := init_proc_stack syscallret_addr ctop m in
  let m := write_words m (user_context_addr ctop) (read_words m (user_context_addr ptop) 26) in
  (ctx, context_set_return ctx forkret_addr m).
(** Those of [init]: the frame's flags (word 23) are set in a cleared page. *)
Definition init_contexts (syscallret_addr firstret_addr top : Z) (m : Z -> Z) : Z * (Z -> Z) :=
  let '(ctx, m) := init_proc_stack syscallret_addr top m in
  let m := context_set_return ctx firstret_addr m in
  (ctx, mem_upd m (user_context_addr top + 8 * 23) (Z.lor INTR_EN 2)).

(** The code of the first run of a new process, where it lies: the switch, the
    function its context returns to, and [syscallret]. *)
Definition first_code (name : string) (sw ret sr : Z) : list Piece :=
  [mkPiece sw swtch sw; mkPiece ret [Callq name; Retq] ret; mkPiece sr syscallret sr].

(** ** The switch *)
Definition sw_ext (r : nat) : Z * Z :=
  match r with O => (- 64, 8) | 1%nat => (0, 8) | 2%nat => (0, 72) | _ => (1, 0) end.
Definition sw_base (s : CPUState) (r : nat) : Z :=
  match r with O => regs s RSP | 1%nat => regs s RDI | 2%nat => regs s RSI | _ => 0 end.

(** The stack of the caller, the place for its context and the context to
    switch to lie in order in memory, and apart. *)
Record switching (s : CPUState) : Prop := {
  sw_align : regs s RSP mod 8 = 0 /\ regs s RDI mod 8 = 0 /\ regs s RSI mod 8 = 0;
  sw_range : 64 <= regs s RSP < 2 ^ 64 - 8 /\ 0 <= regs s RDI < 2 ^ 64 - 8 /\ 0 <= regs s RSI < 2 ^ 64 - 72;
  sw_apart01 : regs s RDI + 8 <= regs s RSP - 64 \/ regs s RSP + 8 <= regs s RDI;
  sw_apart02 : regs s RSI + 72 <= regs s RSP - 64 \/ regs s RSP + 8 <= regs s RSI;
  sw_apart12 : regs s RSI + 72 <= regs s RDI \/ regs s RDI + 8 <= regs s RSI }.

Lemma sw_region r o : in_region sw_ext r o = true ->
  r = O /\ - 64 <= o <= 8 \/ r = 1%nat /\ 0 <= o <= 8 \/ r = 2%nat /\ 0 <= o <= 72.
Proof.
  unfold in_region. destruct r as [|[|[|r]]]; cbn; intros; bool_to_prop;
    [left; split; lia|right; left; split; lia|right; right; split; lia|lia].
Qed.

Lemma sw_regions s : switching s -> regions_ok sw_ext (sw_base s).
Proof.
  intros [(A1 & A2 & A3) (B1 & B2 & B3) P1 P2 P3]. split.
  - by intros [|[|[|r]]].
  - intros r o [[-> ?]|[[-> ?]|[-> ?]]]%sw_region; cbn; lia.
  - intros r r' o o' H1 H2 H3 H4 He. apply sw_region in H1, H2, H3, H4.
    destruct H1 as [[-> ?]|[[-> ?]|[-> ?]]], H3 as [[-> ?]|[[-> ?]|[-> ?]]]; cbn in He; try done;
      destruct H2 as [[? ?]|[[? ?]|[? ?]]], H4 as [[? ?]|[[? ?]|[? ?]]]; try done; lia.
Qed.

(** The context [swtch] saves. *)
Definition saved_context (s : CPUState) : Context :=
  mkContext (regs s RSP - 56) (rflags s) (regs s RBP) (regs s RBX) (regs s R12) (regs s R13) (regs s R14) (regs s R15)
    (mem s (regs s RSP)).

(** What a switch from [s] to the context [c] does. *)
Record switched (s : CPUState) (c : Context) (s' : CPUState) : Prop := {
  sd_regs : (regs s' <$> [RBP; RBX; R12; R13; R14; R15]) = [c_rbp c; c_rbx c; c_r12 c; c_r13 c; c_r14 c; c_r15 c];
  sd_sp : regs s' RSP = regs s RSI + Context_size;
  sd_rip : rip s' = c_rip c;
  sd_slot : mem s' (regs s RDI) = regs s RSP - 64;
  sd_saved : words_at (mem s') (regs s RSP - 64) (Context_words (saved_context s));
  sd_same : msr s' = msr s /\ gs_base s' = gs_base s /\ kgs_base s' = kgs_base s /\ ctl s' = ctl s /\ (forall g, segs s' g = segs s g);
  sd_rest : forall x, x < regs s RSP - 64 \/ regs s RSP <= x -> x < regs s RDI \/ regs s RDI + 8 <= x -> mem s' x = mem s x }.

Definition at_switch (s : CPUState) (c : Context) : Mach Val Smem :=
  put_reg RSP (Ptr 0 0) (put_reg RDI (Ptr 1 0) (put_reg RSI (Ptr 2 0)
    (lift_mach s ((O, 0, Num (mem s (regs s RSP))) :: imap (fun i w => (2%nat, 8 * Z.of_nat i, Num w)) (Context_words c))))).

Lemma swtch_sym (s : CPUState) c :
  exists a, @exec _ _ (dom_symbolic sw_ext) no_call swtch None (at_switch s c) = Ret (None, a) /\
    (regs a <$> [RBP; RBX; R12; R13; R14; R15; RSP]) =
      [Num (c_rbp c); Num (c_rbx c); Num (c_r12 c); Num (c_r13 c); Num (c_r14 c); Num (c_r15 c); Ptr 2 72] /\
    rip a = Num (c_rip c) /\ smem_get (mem a) 1 0 = Ptr 0 (-64) /\
    ((fun i : nat => smem_get (mem a) O (-64 + 8 * Z.of_nat i)) <$> seq 0 9) =
      [Ptr 0 (-56); App2 OOr (Num (ctl s)) (Num (stat s)); Num (regs s RBP); Num (regs s RBX); Num (regs s R12); Num (regs s R13);
       Num (regs s R14); Num (regs s R15); Num (mem s (regs s RSP))] /\
    ((fun i : nat => smem_get (mem a) 2 (0 + 8 * Z.of_nat i)) <$> seq 0 9) = Num <$> Context_words c /\
    msr a = msr s /\ gs_base a = Num (gs_base s) /\ kgs_base a = Num (kgs_base s) /\ ctl a = Num (ctl s) /\
    (forall g, segs a g = Num (segs s g)).
Proof.
  destruct c, s as [[] [] ???????]. sym_final. split_and!; try (intros []); vm_compute; reflexivity.
Qed.

Lemma at_switch_sim (s : CPUState) c :
  words_at (mem s) (regs s RSI) (Context_words c) -> sim sw_ext (sw_base s) (mem s) s (at_switch s c).
Proof.
  intros Hc. repeat (apply sim_refine_reg; [|cbn; split; [lia|done]]). apply lift_sim. intros r o _.
  match goal with |- den _ _ _ (smem_get ?m r o) => destruct (smem_get_cases m r o) as [->|(v & Hv & ->)] end; [done|].
  apply elem_of_cons in Hv as [[= -> -> ->]|Hv]; [cbn; by rewrite Z.add_0_r|].
  apply elem_of_lookup_imap in Hv as (i & w & [= -> -> ->] & Hi). cbn. by rewrite <-(Hc _ _ Hi).
Qed.

(** Words by their symbolic values. *)
Lemma region_words ext base m0 (s : CPUState) a r o0 n (vs : list Val) (ws : list Z) :
  sim ext base m0 s a -> (forall i : nat, (i < n)%nat -> cell ext r (o0 + 8 * Z.of_nat i)) ->
  ((fun i : nat => smem_get (mem a) r (o0 + 8 * Z.of_nat i)) <$> seq 0 n) = vs ->
  Forall2 (fun v w => forall x, den ext base x v -> x = w) vs ws ->
  words_at (mem s) (base r + o0) ws.
Proof.
  intros Hs Hc Hv Hw i w Hi. destruct (Forall2_lookup_r _ _ _ _ _ Hw Hi) as (v & Hvi & Hd).
  rewrite <-Hv, list_lookup_fmap in Hvi. apply fmap_Some in Hvi as (j & Hj & ->).
  apply lookup_seq in Hj as [-> Hj]. apply Hd. rewrite <-Z.add_assoc. by apply (sim_mem _ _ _ _ _ Hs), Hc.
Qed.

(** Memory outside the stack that is pushed on and the caller's place. *)
Lemma switch_rest (s : CPUState) c (s' : CPUState) :
  switching s -> words_at (mem s) (regs s RSI) (Context_words c) ->
  words_at (mem s') (regs s RSP - 64) (Context_words (saved_context s)) ->
  words_at (mem s') (regs s RSI) (Context_words c) ->
  (forall x, (forall r o, cell sw_ext r o -> x <> sw_base s r + o) -> mem s' x = mem s x) ->
  forall x, x < regs s RSP - 64 \/ regs s RSP <= x -> x < regs s RDI \/ regs s RDI + 8 <= x -> mem s' x = mem s x.
Proof.
  intros Hw Hc W0 W2 Hrest x Hx1 Hx2.
  destruct (decide (x = regs s RSP)) as [->|Hsp].
  { specialize (W0 8%nat _ eq_refl). cbn in W0. rewrite <-W0. f_equal. lia. }
  destruct (decide (Exists (fun i : nat => x = regs s RSI + 8 * Z.of_nat i) (seq 0 9))) as [Hi|Hi].
  { apply Exists_exists in Hi as (i & Hi & ->). apply elem_of_seq in Hi.
    destruct (lookup_lt_is_Some_2 (Context_words c) i) as [w Hwi]; [cbn; lia|]. by rewrite (W2 _ _ Hwi), (Hc _ _ Hwi). }
  apply Hrest. intros r o (H1 & H2 & H3) ->. apply sw_region in H1, H2.
  pose proof (Z.div_mod o 8 ltac:(lia)) as Hd. rewrite H3, Z.add_0_r in Hd.
  destruct H1 as [[-> ?]|[[-> ?]|[-> ?]]], H2 as [[? ?]|[[? ?]|[? ?]]]; try done; cbn [sw_base] in *; [|lia|].
  - assert (o = 0) by lia. subst. lia.
  - apply Hi, Exists_exists. exists (Z.to_nat (o / 8)).
    assert (0 <= o / 8) by (apply Z.div_pos; lia). split; [apply elem_of_seq; lia|]. lia.
Qed.

Lemma swtch_runs call (s : CPUState) c :
  switching s -> words_at (mem s) (regs s RSI) (Context_words c) ->
  exists s', exec call swtch None s = Ret (None, s') /\ switched s c s'.
Proof.
  intros Hw Hc. destruct (swtch_sym s c) as (a & E & H1 & H2 & H3 & H4 & H5 & H6 & H7 & H8 & H9 & H10).
  destruct (exec_sim _ _ (sw_regions _ Hw) (mem s) call _ _ _ _ _ _ (at_switch_sim _ _ Hc) E) as (? & s' & E' & -> & Hs).
  assert (W0 : words_at (mem s') (regs s RSP - 64) (Context_words (saved_context s))).
  { change (regs s RSP - 64) with (sw_base s O + - 64). eapply region_words; [exact Hs| |exact H4|].
    + intros i Hi. cbn in Hi. unfold cell, in_region. cbn. split; [lia|]. split; [lia|].
      replace (-64 + 8 * Z.of_nat i) with ((Z.of_nat i - 8) * 8) by lia. apply Z.mod_mul. lia.
    + repeat (apply Forall2_cons_2; [intros x Hx; first [by injection Hx|destruct Hx as [-> _]; cbn; lia]|]). apply Forall2_nil_2. }
  assert (W2 : words_at (mem s') (regs s RSI) (Context_words c)).
  { rewrite <-(Z.add_0_r (regs s RSI)). change (regs s RSI) with (sw_base s 2). eapply region_words; [exact Hs| |exact H5|].
    + intros i Hi. cbn in Hi. unfold cell, in_region. cbn [sw_ext fst snd]. split; [lia|]. split; [lia|].
      rewrite Z.add_0_l, Z.mul_comm. apply Z.mod_mul. lia.
    + repeat (apply Forall2_cons_2; [intros x Hx; by injection Hx|]). apply Forall2_nil_2. }
  exists s'. split; [done|]. cbn [fmap list_fmap] in H1. injection H1 as A1 A2 A3 A4 A5 A6 A7.
  pose proof (sim_regs _ _ _ _ _ Hs) as Hr. split; [| | | |done| |].
  - cbn [fmap list_fmap].
    by rewrite (den_num _ _ _ _ _ (Hr RBP) A1), (den_num _ _ _ _ _ (Hr RBX) A2), (den_num _ _ _ _ _ (Hr R12) A3),
      (den_num _ _ _ _ _ (Hr R13) A4), (den_num _ _ _ _ _ (Hr R14) A5), (den_num _ _ _ _ _ (Hr R15) A6).
  - pose proof (Hr RSP) as X. rewrite A7 in X. by destruct X as [X _].
  - exact (den_num _ _ _ _ _ (sim_rip _ _ _ _ _ Hs) H2).
  - assert (C : cell sw_ext 1 0) by (split_and!; reflexivity). pose proof (sim_mem _ _ _ _ _ Hs _ _ C) as X.
    rewrite H3 in X. destruct X as [X _]. cbn in X. rewrite Z.add_0_r in X. rewrite X. lia.
  - split; [by rewrite (sim_msr _ _ _ _ _ Hs)|]. split; [exact (den_num _ _ _ _ _ (sim_gs _ _ _ _ _ Hs) H7)|].
    split; [exact (den_num _ _ _ _ _ (sim_kgs _ _ _ _ _ Hs) H8)|].
    split; [exact (den_num _ _ _ _ _ (sim_ctl _ _ _ _ _ Hs) H9)|].
    intros g. exact (den_num _ _ _ _ _ (sim_segs _ _ _ _ _ Hs g) (H10 g)).
  - apply (switch_rest s c s' Hw Hc W0 W2). intros x Hx. by apply (sim_rest _ _ _ _ _ Hs).
Qed.

(** ** Memory written word by word *)
Lemma mem_upd_eq m a v : mem_upd m a v a = v.
Proof. unfold mem_upd. by rewrite Z.eqb_refl. Qed.
Lemma mem_upd_ne m a v x : x <> a -> mem_upd m a v x = m x.
Proof. intros H. unfold mem_upd. by rewrite (proj2 (Z.eqb_neq _ _) H). Qed.

Lemma write_words_out m a ws x : x < a \/ a + 8 * zlen ws <= x -> write_words m a ws x = m x.
Proof.
  revert m a. induction ws as [|w ws IH]; intros m a; [done|]. rewrite zlen_cons. pose proof (zlen_nonneg ws).
  intros Hx. cbn. rewrite IH by lia. apply mem_upd_ne. lia.
Qed.

Lemma write_words_at m a ws : words_at (write_words m a ws) a ws.
Proof.
  revert m a. induction ws as [|w ws IH]; intros m a i v Hi; [done|]. cbn. destruct i as [|i]; cbn in Hi.
  - injection Hi as <-. rewrite write_words_out, Z.add_0_r by lia. apply mem_upd_eq.
  - rewrite <-(IH (mem_upd m a w) (a + 8) _ _ Hi). f_equal. lia.
Qed.

Lemma read_words_eq m a ws : words_at m a ws -> read_words m a (length ws) = ws.
Proof.
  intros H. unfold read_words. apply list_eq. intros i. rewrite list_lookup_fmap.
  destruct (ws !! i) as [w|] eqn:E.
  - rewrite lookup_seq_lt by (by eapply lookup_lt_Some). cbn. by rewrite (H _ _ E).
  - apply lookup_ge_None in E. by rewrite lookup_seq_ge.
Qed.

Lemma words_at_ext m m' a ws :
  words_at m a ws -> (forall x, a <= x < a + 8 * zlen ws -> m' x = m x) -> words_at m' a ws.
Proof.
  intros H E i w Hi. rewrite E; [by apply H|]. apply lookup_lt_Some in Hi. unfold zlen. lia.
Qed.

(** The context found at an address. *)
Definition context_at (m : Z -> Z) (a : Z) : Context :=
  mkContext (m a) (m (a + 8)) (m (a + 16)) (m (a + 24)) (m (a + 32)) (m (a + 40)) (m (a + 48)) (m (a + 56)) (m (a + 64)).
Lemma context_at_words m a : words_at m a (Context_words (context_at m a)).
Proof.
  intros i w Hi. do 9 (destruct i as [|i]; [injection Hi as <-; f_equal; lia|]). done.
Qed.

(** ** The stack of a new process *)
Definition ctx_of (top : Z) : Z := top - TrapFrame_size - 8 - Context_size.

(** The stack on which a process starts at [ret] with the frame [f]. *)
Record new_stack (syscallret_addr ret top : Z) (f : TrapFrame) (m : Z -> Z) : Prop := {
  ns_ret : m (ctx_of top + 64) = ret;
  ns_next : m (top - TrapFrame_size - 8) = syscallret_addr;
  ns_frame : frame_at m (user_context_addr top) f }.

Lemma new_stack_ext sr ret top f m m' :
  new_stack sr ret top f m -> (forall x, ctx_of top <= x < top -> m' x = m x) -> new_stack sr ret top f m'.
Proof.
  unfold ctx_of, user_context_addr, TrapFrame_size, Context_size.
  intros [H1 H2 H3] E. split; unfold ctx_of, user_context_addr, TrapFrame_size, Context_size in *.
  - rewrite E by lia. done.
  - rewrite E by lia. done.
  - eapply words_at_ext; [exact H3|]. intros x Hx. apply E. change (zlen (TrapFrame_words f)) with 26 in Hx. lia.
Qed.

Lemma fork_stack sr fr ptop ctop m f :
  frame_at m (user_context_addr ptop) f -> ptop <= ctx_of ctop \/ ctop <= user_context_addr ptop ->
  let '(ctx, m') := fork_contexts sr fr ptop ctop m in
  ctx = ctx_of ctop /\ new_stack sr fr ctop f m' /\ frame_at m' (user_context_addr ptop) f.
Proof.
  unfold fork_contexts, init_proc_stack, context_set_return, ctx_of, user_context_addr, TrapFrame_size, Context_size.
  intros Hf Hap. set (m1 := mem_upd (mem_upd m _ _) _ _).
  assert (Hf1 : frame_at m1 (ptop - 8 * 26) f).
  { eapply words_at_ext; [exact Hf|]. change (zlen (TrapFrame_words f)) with 26. intros x Hx. unfold m1.
    rewrite !mem_upd_ne by lia. done. }
  assert (Hrw : read_words m1 (ptop - 8 * 26) 26 = TrapFrame_words f) by exact (read_words_eq _ _ _ Hf1). rewrite Hrw.
  split; [done|]. set (m2 := write_words m1 _ _).
  assert (H2 : forall x, x < ctop - 8 * 26 \/ ctop <= x -> m2 x = m1 x).
  { intros x Hx. apply write_words_out. change (zlen (TrapFrame_words f)) with 26. lia. }
  split; [split|]; unfold ctx_of, user_context_addr, TrapFrame_size, Context_size.
  - apply mem_upd_eq.
  - rewrite mem_upd_ne, H2 by lia. unfold m1. rewrite mem_upd_ne, mem_upd_eq by lia. done.
  - eapply words_at_ext; [apply (write_words_at m1)|]. intros x Hx. rewrite mem_upd_ne by lia. reflexivity.
  - eapply words_at_ext; [exact Hf1|]. change (zlen (TrapFrame_words f)) with 26. intros x Hx.
    rewrite mem_upd_ne, H2 by lia. done.
Qed.

(** A new process on a cleared page: the first one's frame is zero but for its
    flags. *)
Definition zero_frame : TrapFrame := mkTrapFrame 0 0 0 0 0 0 0 0 0 0 0 0 0 0 0 0 0 0 0 0 0 0 0 0 0 0.
Lemma init_stack sr fr top m :
  (forall x, top - 4096 <= x < top -> m x = 0) ->
  let '(ctx, m') := init_contexts sr fr top m in
  ctx = ctx_of top /\ new_stack sr fr top (set_flags INTR_EN zero_frame) m'.
Proof.
  unfold init_contexts, init_proc_stack, context_set_return, ctx_of, user_context_addr, TrapFrame_size, Context_size.
  intros Hz. split; [done|]. split; unfold ctx_of, user_context_addr, TrapFrame_size, Context_size.
  - rewrite mem_upd_ne, mem_upd_eq by lia. done.
  - rewrite !mem_upd_ne, mem_upd_eq by lia. done.
  - intros i w Hi. destruct (decide (i = 23%nat)) as [->|Hne].
    + injection Hi as <-. apply mem_upd_eq.
    + rewrite !mem_upd_ne by lia. apply lookup_lt_Some in Hi as Hlt. cbn in Hlt. rewrite Hz by lia.
      do 26 (destruct i as [|i]; [by injection Hi as <-|]). done.
Qed.

(** ** The first run of a process *)

(** A scheduler's switch to the stack of a new process, on the processor whose
    page is at [K]. *)
Record first_switch (sr ret top K : Z) (f : TrapFrame) (s : CPUState) : Prop := {
  fs_switching : switching s;
  fs_to : regs s RSI = ctx_of top;
  fs_stack : new_stack sr ret top f (mem s);
  fs_kern : kern_ok top K;
  fs_apart : (regs s RSP + 8 <= ctx_of top \/ top <= regs s RSP - 64) /\ (regs s RDI + 8 <= ctx_of top \/ top <= regs s RDI);
  fs_gs : gs_base s = K;
  fs_msr : msr s STAR = star }.

(** A Rust function [body] is called by its name: [rep] says where in the
    machine what it works on lies.  Its result is left in [rax], and the call
    keeps the stack pointer, the GS base, the model-specific registers and the
    stack above it. *)
Definition calls_c {L} (rep : L -> CPUState -> Prop) (call : string -> M CPUState unit) (name : string) (body : M L Z) (top : Z) : Prop :=
  forall l v l' s1, rep l s1 -> body l = Ret (v, l') ->
  exists s2, call name s1 = Ret (tt, s2) /\ rep l' s2 /\ regs s2 RAX = v /\ regs s2 RSP = regs s1 RSP /\
    gs_base s2 = gs_base s1 /\ msr s2 = msr s1 /\ (forall x, regs s1 RSP <= x < top -> mem s2 x = mem s1 x).

Lemma first_run_links call name sw ret sr (s s1 s3 s' : CPUState) :
  NoDup [sw; ret; sr] -> rip s = sw -> exec call swtch None (put_rip sw s) = Ret (None, s1) -> rip s1 = ret ->
  exec call [Callq name; Retq] None (put_rip ret s1) = Ret (None, s3) -> rip s3 = sr ->
  exec call syscallret None (put_rip sr s3) = Ret (None, s') ->
  run_linked call (first_code name sw ret sr) 3 s = Ret (tt, s').
Proof.
  intros Hnd H0 E1 H1 E2 H2 E3.
  pose proof (piece_found (first_code name sw ret sr) 0 _ Hnd eq_refl) as F1.
  pose proof (piece_found (first_code name sw ret sr) 1 _ Hnd eq_refl) as F2.
  pose proof (piece_found (first_code name sw ret sr) 2 _ Hnd eq_refl) as F3.
  generalize dependent (first_code name sw ret sr). intros code F1 F2 F3.
  rewrite (run_linked_step _ _ _ (mkPiece sw swtch sw) s _ H0 F1 E1).
  rewrite (run_linked_step _ _ _ (mkPiece ret [Callq name; Retq] ret) s1 _ H1 F2 E2).
  by rewrite (run_linked_step _ _ _ (mkPiece sr syscallret sr) s3 _ H2 F3 E3).
Qed.

Lemma first_run_reaches_user {L} (rep : L -> CPUState -> Prop) call name body sw sr ret top K f l v l' (s : CPUState) :
  NoDup [sw; ret; sr] -> rip s = sw -> first_switch sr ret top K f s -> frame_selectors_ok f ->
  (forall s1, switched s (context_at (mem s) (regs s RSI)) s1 -> rep l s1) ->
  body l = Ret (v, l') -> calls_c rep call name body top ->
  exists s2 s3 s', run_linked call (first_code name sw ret sr) 3 s = Ret (tt, s') /\ rep l' s2 /\ regs s3 RAX = v /\
    returned_to_user top K f s3 s'.
Proof.
  intros Hnd Hrip [Hsw Hto Hst Hk (Ha1 & Ha2) Hgs Hmsr] Hfs Hrep Hbody Hcall.
  assert (Hsw' : switching (put_rip sw s)) by (destruct Hsw; by split).
  destruct (swtch_runs call (put_rip sw s) _ Hsw' (context_at_words (mem s) (regs s RSI))) as (s1 & E1 & H1').
  assert (H1 : switched s (context_at (mem s) (regs s RSI)) s1) by (destruct H1'; by split).
  assert (Hsp1 : regs s1 RSP = top - TrapFrame_size - 8).
  { rewrite (sd_sp _ _ _ H1), Hto. unfold ctx_of. lia. }
  assert (Hm1 : forall x, ctx_of top <= x < top -> mem s1 x = mem s x) by (intros x Hx; apply (sd_rest _ _ _ H1); lia).
  assert (Hrip1 : rip s1 = ret) by (rewrite (sd_rip _ _ _ H1); cbn; rewrite Hto; apply Hst).
  assert (Hr1 : rep l (put_rip ret s1)).
  { apply Hrep. destruct H1 as [? ? Hc ? ? ? ?]. split; try done. change (ret = c_rip (context_at (mem s) (regs s RSI))). congruence. }
  destruct (Hcall l v l' (put_rip ret s1) Hr1 Hbody) as (s2 & E2 & Hrep2 & Hax & Hsp2 & Hg2 & Hms2 & Hm2).
  change (regs (put_rip ret s1) RSP) with (regs s1 RSP) in Hsp2, Hm2. change (gs_base (put_rip ret s1)) with (gs_base s1) in Hg2.
  change (msr (put_rip ret s1)) with (msr s1) in Hms2. change (mem (put_rip ret s1)) with (mem s1) in Hm2.
  destruct (sd_same _ _ _ H1) as (S1 & S2 & _). destruct Hk as [K1 K2 K3 K4 K5].
  set (s3 := put_rip (mem s2 (regs s2 RSP)) (put_reg RSP (regs s2 RSP + 8) s2)).
  assert (E3 : exec call [Callq name; Retq] None (put_rip ret s1) = Ret (None, s3)).
  { change ((call name ≫= fun _ => exec call [Retq] None) (put_rip ret s1) = Ret (None, s3)). rewrite (bind_run _ _ _ _ _ E2).
    apply retq_run; rewrite Hsp2, Hsp1; unfold TrapFrame_size in *; [|lia].
    rewrite <-Z.sub_add_distr, Zminus_mod, (mod16_mod8 _ K1). done. }
  assert (Hrip3 : rip s3 = sr).
  { change (mem s2 (regs s2 RSP) = sr). rewrite Hsp2, Hm2 by (rewrite Hsp1; unfold TrapFrame_size in *; lia).
    rewrite Hsp1, Hm1 by (unfold ctx_of, Context_size, TrapFrame_size in *; lia). apply Hst. }
  destruct (syscallret_returns call top K (put_rip sr s3) f) as (s' & E4 & H4); try done.
  { change (msr s2 STAR = star). by rewrite Hms2, S1. }
  { change (gs_base s2 = K). by rewrite Hg2, S2. }
  { change (regs s2 RSP + 8 = top - TrapFrame_size). rewrite Hsp2, Hsp1. lia. }
  { change (mem (put_rip sr s3)) with (mem s2). eapply words_at_ext; [apply Hst|]. change (zlen (TrapFrame_words f)) with 26.
    unfold user_context_addr, TrapFrame_size in *. intros x Hx. rewrite Hm2, Hm1; [done| |lia]. unfold ctx_of, TrapFrame_size, Context_size. lia. }
  exists s2, (put_rip sr s3), s'. split; [by eapply first_run_links|]. split; [done|]. split; [exact Hax|done].
Qed.

(** ** Properties *)

(** C9: a switch and back.  [swtch] leaves the caller's context on its stack
    with its address in the caller's place, and goes on where the context it
    is given left off, on that context's stack.  Whoever later switches to the
    address left in that place, with the caller's stack as it was, resumes the
    caller after its call: its stack pointer, return address and the registers
    a call must keep. *)
Theorem switch_and_back call (s t : CPUState) c :
  switching s -> words_at (mem s) (regs s RSI) (Context_words c) ->
  exists s1, exec call swtch None s = Ret (None, s1) /\
    rip s1 = c_rip c /\ regs s1 RSP = regs s RSI + Context_size /\
    (regs s1 <$> [RBP; RBX; R12; R13; R14; R15]) = [c_rbp c; c_rbx c; c_r12 c; c_r13 c; c_r14 c; c_r15 c] /\
    (switching t -> regs t RSI = mem s1 (regs s RDI) ->
     (forall x, regs s RSP - 64 <= x < regs s RSP + 8 -> mem t x = mem s1 x) ->
     exists t1, exec call swtch None t = Ret (None, t1) /\
       rip t1 = mem s (regs s RSP) /\ regs t1 RSP = regs s RSP + 8 /\
       (regs t1 <$> [RBP; RBX; R12; R13; R14; R15]) = (regs s <$> [RBP; RBX; R12; R13; R14; R15])).
Proof.
  intros Hs Hc. destruct (swtch_runs call s c Hs Hc) as (s1 & E & H). exists s1.
  split; [done|]. split; [apply H|]. split; [apply H|]. split; [apply H|].
  intros Ht Hto Hm. rewrite (sd_slot _ _ _ H) in Hto.
  destruct (swtch_runs call t (saved_context s) Ht) as (t1 & E1 & H1).
  { rewrite Hto. eapply words_at_ext; [apply H|]. intros x Hx. apply Hm.
    change (zlen (Context_words (saved_context s))) with 9 in Hx. lia. }
  exists t1. split; [done|]. split; [apply H1|]. split; [|apply H1].
  rewrite (sd_sp _ _ _ H1), Hto. unfold Context_size. lia.
Qed.

(** C10: a forked child returns zero.  [fork] copies the frame of the parent's
    system call to the child's new stack.  A scheduler, which holds the lock
    of the process table, first switches to the child; from there control goes
    where [rip] says, through [forkret], which drops that lock, and
    [syscallret] to user mode where the parent called [fork], with the
    parent's stack pointer, flags and the registers a call must keep, and
    with [forkret]'s result, zero, as the call's result; the parent's own
    frame is untouched, and the processor's page gives the top of the child's
    kernel stack.  [rep] says how the lock and the table lie in the machine,
    and [calls_c] that the call of [forkret] runs it. *)
Theorem fork_child_returns_zero {PT} (rep : Sched PT -> CPUState -> Prop) call sw sr fr ptop ctop K m f c st t lk (s : CPUState) :
  NoDup [sw; fr; sr] -> rip s = sw ->
  frame_at m (user_context_addr ptop) f -> frame_selectors_ok f ->
  ptop <= ctx_of ctop \/ ctop <= user_context_addr ptop ->
  let ctx := (fork_contexts sr fr ptop ctop m).1 in
  let m' := (fork_contexts sr fr ptop ctop m).2 in
  switching s -> regs s RSI = ctx -> (forall x, ctx_of ctop <= x < ctop -> mem s x = m' x) ->
  kern_ok ctop K -> gs_base s = K -> msr s STAR = star ->
  (regs s RSP + 8 <= ctx_of ctop \/ ctop <= regs s RSP - 64) ->
  (regs s RDI + 8 <= ctx_of ctop \/ ctop <= regs s RDI) ->
  (forall s1, switched s (context_at (mem s) (regs s RSI)) s1 -> rep (Sched.at_switch c st t lk) s1) ->
  calls_c rep call "forkret" (forkret c) ctop ->
  frame_at m' (user_context_addr ptop) f /\
  exists s2 s', run_linked call (first_code "forkret" sw fr sr) 3 s = Ret (tt, s') /\
    rep (mkSched (mkCPU st 0 st) (mkSpinMutex 0 (-1) t) lk) s2 /\
    regs s' RAX = 0 /\ rip s' = t_rip f /\ regs s' RSP = t_rsp f /\ rflags s' = t_rflags f /\
    (regs s' <$> [RBX; RBP; R12; R13; R14; R15]) = [t_rbx f; t_rbp f; t_r12 f; t_r13 f; t_r14 f; t_r15 f] /\
    (segs s' <$> [CS; SS]) = [USER_CS; USER_SS] /\ kgs_base s' = K /\ mem s' (K + KSTACK) = ctop.
Proof.
  intros Hnd Hrip Hf Hsel Hap ctx m' Hsw Hto Hm Hk Hg Hms Ha1 Ha2 Hrep Hcall.
  pose proof (fork_stack sr fr ptop ctop m f Hf Hap) as Hfork. unfold ctx, m' in *.
  destruct (fork_contexts sr fr ptop ctop m) as [ctx0 m0]. cbn [fst snd] in *. destruct Hfork as (-> & Hst & Hp).
  split; [done|].
  assert (Hb : forkret c (Sched.at_switch c st t lk) = Ret (0, mkSched (mkCPU st 0 st) (mkSpinMutex 0 (-1) t) lk)).
  { unfold forkret. by rewrite (bind_run _ _ _ _ _ (drop_procs c st t lk)). }
  assert (Hfs : first_switch sr fr ctop K f s) by (split; try done; by eapply new_stack_ext).
  destruct (first_run_reaches_user rep call "forkret" (forkret c) sw sr fr ctop K f (Sched.at_switch c st t lk) _ _ s Hnd Hrip Hfs Hsel Hrep Hb Hcall)
    as (s2 & s3 & s' & E & Hr2 & Hax & [R1 R2 R3 R4 [_ R5] _ R7 _]).
  exists s2, s'. split; [done|]. split; [done|]. split; [by rewrite R1|]. split; [done|]. split; [by rewrite R1|]. split; [done|].
  split; [cbn [fmap list_fmap]; by rewrite !R1|]. split; [|done].
  cbn [fmap list_fmap] in R4 |- *. by injection R4 as -> -> _ _ _ _.
Qed.

(** The first process: when [firstret] returns, it enters user mode at address
    zero of its page of code, with interrupts enabled. *)
Theorem first_process_starts {L} (rep : L -> CPUState -> Prop) call firstret sw sr fr top K m l v l' (s : CPUState) :
  NoDup [sw; fr; sr] -> rip s = sw ->
  (forall x, top - 4096 <= x < top -> m x = 0) ->
  let ctx := (init_contexts sr fr top m).1 in
  let m' := (init_contexts sr fr top m).2 in
  switching s -> regs s RSI = ctx -> (forall x, ctx_of top <= x < top -> mem s x = m' x) ->
  kern_ok top K -> gs_base s = K -> msr s STAR = star ->
  (regs s RSP + 8 <= ctx_of top \/ top <= regs s RSP - 64) ->
  (regs s RDI + 8 <= ctx_of top \/ top <= regs s RDI) ->
  (forall s1, switched s (context_at (mem s) (regs s RSI)) s1 -> rep l s1) ->
  firstret l = Ret (v, l') -> calls_c rep call "firstret" firstret top ->
  exists s', run_linked call (first_code "firstret" sw fr sr) 3 s = Ret (tt, s') /\
    rip s' = 0 /\ regs s' RSP = 0 /\ regs s' RAX = v /\ Z.testbit (rflags s') 9 = true /\ segs s' CS = USER_CS.
Proof.
  intros Hnd Hrip Hz ctx m' Hsw Hto Hm Hk Hg Hms Ha1 Ha2 Hrep Hb Hcall.
  pose proof (init_stack sr fr top m Hz) as Hi. unfold ctx, m' in *.
  destruct (init_contexts sr fr top m) as [ctx0 m0]. cbn [fst snd] in *. destruct Hi as (-> & Hst).
  assert (Hfs : first_switch sr fr top K (set_flags INTR_EN zero_frame) s) by (split; try done; by eapply new_stack_ext).
  destruct (first_run_reaches_user rep call "firstret" firstret sw sr fr top K (set_flags INTR_EN zero_frame) l v l' s Hnd Hrip Hfs
    ltac:(by repeat split) Hrep Hb Hcall) as (s2 & s3 & s' & E & _ & Hax & [R1 R2 R3 R4 _ _ _ _]).
  exists s'. split; [done|]. split; [done|]. split; [by rewrite R1|]. split; [by rewrite R1|]. split; [by rewrite R3|].
  cbn [fmap list_fmap] in R4. by injection R4.
Qed.

(** ** A run: a scheduler on its stack switches to a forked child. *)
Module SwitchDemo.
Definition frame : TrapFrame := set_stack 0x7000 (set_return 0x4000 (set_flags INTR_EN zero_frame)).
Definition parent_top : Z := 0x80000.
Definition child_top : Z := 0x84000.
Definition m0 : Z -> Z := write_words (fun _ => 0) (user_context_addr parent_top) (TrapFrame_words frame).
Definition child : Z * (Z -> Z) := fork_contexts 0x1100 0x1200 parent_top child_top m0.
Definition scheduler : CPUState :=
  syscall_init 0x1000 (mkMach (tab_regs (fun r => match r with RSP => 0xa0000 | RDI => 0x90020 | RSI => fst child | _ => 1 end))
    (tab_segs (fun g => match g with CS => 8 | SS => 16 | _ => 0 end)) 2 0 0x1300 0x90000 7 (fun _ => 0) (mem_upd (snd child) 0x95000 1)).
(** The lock word of the process table lies at [0x95000]. *)
Definition rep (l : Sched unit) (s : CPUState) : Prop := mem s 0x95000 = locked (sc_procs l).
Definition call (_ : string) : M CPUState unit :=
  modify (put_reg RAX 0);; modify (fun s => put_mem (mem_upd (mem s) 0x95000 0) s).

Lemma forkret_ret c (l l' : Sched unit) v : forkret c l = Ret (v, l') -> v = 0 /\ locked (sc_procs l') = 0.
Proof.
  unfold forkret, in_procs, BlockLayer.zoom, release, mbind, M_bind. destruct (holding c _) as [[b s1]| |]; [|done|done]. destruct b; [|done].
  cbn. unfold on_intr. cbn. destruct (pop_intr_disable _) as [[[] i]| |]; [|done|done]. by intros [= <- <-].
Qed.
Lemma forkret_called : calls_c rep call "forkret" (forkret 0) child_top.
Proof.
  intros l v l' s1 _ [-> E]%forkret_ret. eexists. split; [reflexivity|]. split; [unfold rep; by rewrite E|].
  split; [done|]. split; [done|]. split; [done|]. split; [done|]. intros x Hx. apply mem_upd_ne. unfold child_top in Hx. lia.
Qed.
Lemma switch_apart : NoDup [0x1300; 0x1200; 0x1100].
Proof. apply (bool_decide_unpack _). by vm_compute. Qed.

Lemma schedules : switching scheduler.
Proof.
  split; change (regs scheduler RSP) with 0xa0000; change (regs scheduler RDI) with 0x90020;
    change (regs scheduler RSI) with 0x83ee0; [done|lia|lia|lia|lia].
Qed.
Lemma kern_sw : kern_ok child_top 0x90000.
Proof. unfold child_top. split; [done|lia|done|lia|lia]. Qed.

(** The scheduler, later, in another process's place. *)
Definition other : CPUState :=
  put_reg RSI 0x9ffc0 (put_reg RSP 0xb0000 (put_reg RDI 0x90028
    (match exec call swtch None scheduler with Ret (_, s) => s | _ => scheduler end))).
Lemma other_switching : switching other.
Proof.
  split; change (regs other RSP) with 0xb0000; change (regs other RDI) with 0x90028;
    change (regs other RSI) with 0x9ffc0; [done|lia|lia|lia|lia].
Qed.
End SwitchDemo.

Lemma fork_child_returns_zero_witness :
  exists s', run_linked SwitchDemo.call (first_code "forkret" 0x1300 0x1200 0x1100) 3 SwitchDemo.scheduler = Ret (tt, s') /\
    regs s' RAX = 0 /\ rip s' = 0x4000 /\ regs s' RSP = 0x7000.
Proof.
  destruct (fork_child_returns_zero SwitchDemo.rep SwitchDemo.call 0x1300 0x1100 0x1200 SwitchDemo.parent_top SwitchDemo.child_top 0x90000
    SwitchDemo.m0 SwitchDemo.frame 0 true Table_new (SpinMutex_new tt) SwitchDemo.scheduler) as (_ & s2 & s' & E & _ & H1 & H2 & H3 & _).
  - exact SwitchDemo.switch_apart.
  - reflexivity.
  - apply write_words_at.
  - split; [|split]; cbn; lia.
  - left. unfold SwitchDemo.parent_top, SwitchDemo.child_top, ctx_of, TrapFrame_size, Context_size. lia.
  - exact SwitchDemo.schedules.
  - reflexivity.
  - intros x Hx. apply mem_upd_ne. unfold SwitchDemo.child_top in Hx. lia.
  - exact SwitchDemo.kern_sw.
  - reflexivity.
  - vm_compute. reflexivity.
  - right. change (regs SwitchDemo.scheduler RSP) with 0xa0000. unfold SwitchDemo.child_top. lia.
  - right. change (regs SwitchDemo.scheduler RDI) with 0x90020. unfold SwitchDemo.child_top. lia.
  - intros s1 Hs1. unfold SwitchDemo.rep. rewrite (sd_rest _ _ _ Hs1); [reflexivity| |].
    + change (regs SwitchDemo.scheduler RSP) with 0xa0000. lia.
    + change (regs SwitchDemo.scheduler RDI) with 0x90020. lia.
  - exact SwitchDemo.forkret_called.
  - exists s'. split; [exact E|]. split; [exact H1|]. split; [exact H2|exact H3].
Defined.

Lemma switch_and_back_witness :
  exists t1, exec SwitchDemo.call swtch None SwitchDemo.other = Ret (None, t1) /\ regs t1 RSP = 0xa0008 /\ regs t1 RBX = 1.
Proof.
  destruct (switch_and_back SwitchDemo.call SwitchDemo.scheduler SwitchDemo.other
    (context_at (mem SwitchDemo.scheduler) (regs SwitchDemo.scheduler RSI))) as (s1 & E & _ & _ & _ & H).
  - exact SwitchDemo.schedules.
  - apply context_at_words.
  - assert (Es : mem SwitchDemo.other = mem s1) by (unfold SwitchDemo.other; by rewrite E).
    destruct H as (t1 & E1 & _ & H2 & H3).
    + exact SwitchDemo.other_switching.
    + rewrite <-Es. vm_compute. reflexivity.
    + intros x _. by rewrite Es.
    + exists t1. split; [exact E1|]. split; [exact H2|]. cbn [fmap list_fmap] in H3. by injection H3.
Defined.
