(* ===== verification/Dprintf.v ===== *)
(** [dprintf] of the user library ([sysx86_64.rs]): the two versions of the
    assembly that builds a [va_list] from the registers and the caller's
    stack for [rvdprintf]. *)
From stdpp Require Import base list gmap strings.
From Stdlib Require Import ZArith Lia.
From S2P Require Import Prelude.
From S2P Require Import Machine.
From S2P Require Import EntrySpec.
From S2P Require Import SyscallPath.
From S2P Require Import Switch.

(** ** The code, before and after its call of [rvdprintf] *)
Definition slow_dprintf_build : list Instr :=
  [Pushq (Rg RBP); Movq (Rg RSP) (Rg RBP);
   Pushq (Rg R9); Pushq (Rg R8); Pushq (Rg RCX); Pushq (Rg RDX); Pushq (Imm 0); Pushq (Imm 0);
   Pushq (Rg RSP); Lea 16 RBP RAX; Pushq (Rg RAX);
   Movq (Imm (Z.shiftl (6 * 8) 32 + 2 * 8)) (Rg RAX); Pushq (Rg RAX);
   Movq (Rg RSP) (Rg RDX); Pushq (Imm 0); Xor RAX RAX].
Definition slow_dprintf_return : list Instr := [Movq (Rg RBP) (Rg RSP); Popq RBP; Retq].
Definition slow_dprintf : list Instr := slow_dprintf_build ++ Callq "rvdprintf" :: slow_dprintf_return.

Definition fast_dprintf_build : list Instr :=
  [Pushq (Rg RBP); Movq (Rg RSP) (Rg RBP); Subq 80 RSP;
   Movq (Rg R9) (Mem (-40) RBP); Movq (Rg R8) (Mem (-48) RBP); Movq (Rg RCX) (Mem (-56) RBP); Movq (Rg RDX) (Mem (-64) RBP);
   Movq (Rg RSP) (Mem (-16) RBP); Lea 16 RBP RAX; Movq (Rg RAX) (Mem (-24) RBP);
   Movl (6 * 8) (-28) RBP; Movl (2 * 8) (-32) RBP;
   Lea (-32) RBP RDX; Xor RAX RAX].
Definition fast_dprintf_return : list Instr := [Addq 80 RSP; Popq RBP; Retq].
Definition fast_dprintf : list Instr := fast_dprintf_build ++ Callq "rvdprintf" :: fast_dprintf_return.

(** ** [va_list], as the ABI defines it, and taking an argument from it *)
Record VaList := mkVaList { gp_offset : Z; fp_offset : Z; overflow_arg_area : Z; reg_save_area : Z }.
Definition va_list_at (m : Z -> Z) (a : Z) : VaList :=
  mkVaList (get_bits 0 32 (m a)) (get_bits 32 32 (m a)) (m (a + 8)) (m (a + 16)).
Definition va_arg (m : Z -> Z) (v : VaList) : Z * VaList :=
  if gp_offset v <? 48
  then (m (reg_save_area v + gp_offset v), mkVaList (gp_offset v + 8) (fp_offset v) (overflow_arg_area v) (reg_save_area v))
  else (m (overflow_arg_area v), mkVaList (gp_offset v) (fp_offset v) (overflow_arg_area v + 8) (reg_save_area v)).
Fixpoint va_args (m : Z -> Z) (v : VaList) (n : nat) : list Z :=
  match n with O => [] | S n' => let '(x, v') := va_arg m v in x :: va_args m v' n' end.

(** ** The state [rvdprintf] is called in *)
Definition dp_ext (r : nat) : Z * Z := match r with O => (- 88, 8) | _ => (1, 0) end.
Definition dp_base (sp : Z) (r : nat) : Z := match r with O => sp | _ => 0 end.

(** The return address is on top of the caller's stack, aligned as for a call. *)
Definition dp_ok (sp : Z) : Prop := sp mod 16 = 8 /\ 88 <= sp < 2 ^ 64 - 8.

Lemma dp_region r o : in_region dp_ext r o = true -> r = O /\ - 88 <= o <= 8.
Proof. unfold in_region. destruct r; cbn; intros; bool_to_prop; lia. Qed.

Lemma dp_regions sp : dp_ok sp -> regions_ok dp_ext (dp_base sp).
Proof.
  intros [Hm Hr]. split.
  - intros [|r]; cbn; [|done]. pose proof (Z.div_mod sp 16 ltac:(lia)) as H. rewrite Hm in H. rewrite H.
    replace (16 * (sp / 16) + 8) with ((2 * (sp / 16) + 1) * 8) by lia. apply Z.mod_mul. lia.
  - intros r o [-> ?]%dp_region. cbn. lia.
  - by intros r r' o o' [-> _]%dp_region _ [-> _]%dp_region.
Qed.

Record rvdprintf_called (s s1 : CPUState) : Prop := {
  rc_args : regs s1 RDI = regs s RDI /\ regs s1 RSI = regs s RSI /\ regs s1 RAX = 0;
  rc_aligned : regs s1 RSP mod 16 = 0;
  rc_sp : regs s1 RSP = regs s RSP - 88;
  rc_rbp : regs s1 RBP = regs s RSP - 8;
  rc_list : va_list_at (mem s1) (regs s1 RDX)
    = mkVaList 16 48 (regs s RSP + 8) (reg_save_area (va_list_at (mem s1) (regs s1 RDX)));
  rc_saved : read_words (mem s1) (reg_save_area (va_list_at (mem s1) (regs s1 RDX)) + 16) 4
    = [regs s RDX; regs s RCX; regs s R8; regs s R9];
  rc_frame : mem s1 (regs s RSP - 8) = regs s RBP;
  rc_kept : forall r, r ∈ [RBX; R12; R13; R14; R15] -> regs s1 r = regs s r;
  rc_rest : forall x, x < regs s RSP - 88 \/ regs s RSP <= x -> mem s1 x = mem s x }.

(** With such a list, the arguments are those of the call, in order. *)
Lemma va_args_overflow m v n :
  48 <= gp_offset v -> va_args m v n = read_words m (overflow_arg_area v) n.
Proof.
  revert v. induction n as [|n IH]; intros v Hg; [done|]. cbn. unfold va_arg.
  rewrite (proj2 (Z.ltb_ge _ _)) by lia. cbn. unfold read_words. cbn. rewrite Z.add_0_r. f_equal.
  rewrite IH by done. cbn. unfold read_words. rewrite <-fmap_S_seq, <-list_fmap_compose.
  apply list_fmap_ext. intros i x _. cbn. f_equal. lia.
Qed.

Lemma va_args_reg m g f o r n :
  g <? 48 = true -> va_args m (mkVaList g f o r) (S n) = m (r + g) :: va_args m (mkVaList (g + 8) f o r) n.
Proof. intros H. cbn [va_args]. unfold va_arg. cbn [gp_offset]. by rewrite H. Qed.

Lemma va_args_all m v sp n a b c d :
  v = mkVaList 16 48 sp (reg_save_area v) -> read_words m (reg_save_area v + 16) 4 = [a; b; c; d] ->
  va_args m v (4 + n) = [a; b; c; d] ++ read_words m sp n.
Proof.
  intros -> Hr. cbn [reg_save_area] in Hr. injection Hr as <- <- <- <-.
  change (4 + n)%nat with (S (S (S (S n)))). rewrite !va_args_reg by done.
  rewrite va_args_overflow by done. cbn [app]. rewrite Z.add_0_r.
  f_equal. f_equal; [f_equal; lia|]. f_equal; [f_equal; lia|]. f_equal. f_equal. lia.
Qed.

(** ** Both versions build one *)
Definition at_dprintf (s : CPUState) : Mach Val Smem :=
  put_reg RSP (Ptr 0 0) (lift_mach s [(O, 0, Num (mem s (regs s RSP))); (O, -40, Num (mem s (regs s RSP - 40)))]).

Lemma at_dprintf_sim (s : CPUState) : sim dp_ext (dp_base (regs s RSP)) (mem s) s (at_dprintf s).
Proof.
  apply sim_refine_reg; [|cbn; split; [lia|done]]. apply lift_sim. intros r o _. cbn.
  destruct (Nat.eqb_spec r 0) as [->|]; [|done]. cbn [andb].
  destruct (Z.eqb_spec o 0) as [->|]; [cbn; by rewrite Z.add_0_r|]. by destruct (Z.eqb_spec o (-40)) as [->|].
Qed.

(** What a symbolic run must show: the list at [L], the saved registers at [R]. *)
Record built (s : CPUState) (L R : Z) (w : Val) (a : Mach Val Smem) : Prop := {
  b_regs : (regs a <$> [RDI; RSI; RAX; RSP; RBP; RDX]) =
    [Num (regs s RDI); Num (regs s RSI); Num 0; Ptr 0 (-88); Ptr 0 (-8); Ptr 0 L];
  b_list : ((fun o => smem_get (mem a) O o) <$> [L; L + 8; L + 16]) = [w; Ptr 0 8; Ptr 0 R];
  b_saved : ((fun o => smem_get (mem a) O o) <$> [R + 16; R + 24; R + 32; R + 40; -8]) =
    Num <$> [regs s RDX; regs s RCX; regs s R8; regs s R9; regs s RBP];
  b_kept : (regs a <$> [RBX; R12; R13; R14; R15]) = (Num <$> (regs s <$> [RBX; R12; R13; R14; R15]));
  b_ret : smem_get (mem a) O 0 = Num (mem s (regs s RSP)) }.

Lemma slow_sym (s : CPUState) :
  exists a, @exec _ _ (dom_symbolic dp_ext) no_call slow_dprintf_build None (at_dprintf s) = Ret (None, a) /\
    built s (-80) (-56) (Num (Z.shiftl (6 * 8) 32 + 2 * 8)) a.
Proof. destruct s as [[] [] ???????]. sym_final. split; [vm_compute; reflexivity|]. split; vm_compute; reflexivity. Qed.

Lemma fast_sym (s : CPUState) :
  exists a, @exec _ _ (dom_symbolic dp_ext) no_call fast_dprintf_build None (at_dprintf s) = Ret (None, a) /\
    built s (-40) (-88) (App2 (OPutBits 0 32) (App2 (OPutBits 32 32) (Num (mem s (regs s RSP - 40))) (Num 48)) (Num 16)) a.
Proof. destruct s as [[] [] ???????]. sym_final. split; [vm_compute; reflexivity|]. split; vm_compute; reflexivity. Qed.

Lemma get_put_same i n w v : 0 <= i -> 0 <= n -> get_bits i n (put_bits i n w v) = Z.land v (Z.ones n).
Proof.
  intros Hi Hn. apply Z.bits_inj'. intros k Hk. unfold get_bits, put_bits.
  rewrite !Z.land_spec, Z.shiftr_spec, Z.lor_spec, Z.ldiff_spec, !Z.shiftl_spec, Z.land_spec by lia.
  replace (k + i - i) with k by lia. destruct (Z.testbit (Z.ones n) k), (Z.testbit w (k + i)), (Z.testbit v k); done.
Qed.

Lemma get_put_above i n j k w v : 0 <= i -> 0 <= n -> i + n <= j -> get_bits j k (put_bits i n w v) = get_bits j k w.
Proof.
  intros Hi Hn Hj. apply Z.bits_inj'. intros b Hb. unfold get_bits, put_bits.
  rewrite !Z.land_spec, !Z.shiftr_spec, Z.lor_spec, Z.ldiff_spec, !Z.shiftl_spec, Z.land_spec by lia.
  rewrite (Z.ones_spec_high n) by lia. by rewrite andb_false_r, orb_false_r, andb_true_r.
Qed.

Lemma built_called (s s1 : CPUState) m0 a L R w z :
  dp_ok (regs s RSP) -> sim dp_ext (dp_base (regs s RSP)) m0 s1 a -> m0 = mem s -> built s L R w a ->
  number w = Some z -> get_bits 0 32 z = 16 -> get_bits 32 32 z = 48 ->
  - 88 <= L /\ L + 24 <= 0 -> L mod 8 = 0 -> - 88 <= R /\ R + 48 <= 0 -> R mod 8 = 0 ->
  rvdprintf_called s s1.
Proof.
  intros Hok Hs -> [B1 B2 B3 B4 B5] Hz Hg Hf HL HL8 HR HR8. pose proof (sim_regs _ _ _ _ _ Hs) as Hr.
  cbn [fmap list_fmap] in B1, B2, B3, B4. injection B1 as A1 A2 A3 A4 A5 A6. injection B2 as L1 L2 L3.
  injection B3 as S1 S2 S3 S4 S5. injection B4 as K1 K2 K3 K4 K5.
  assert (C : forall o, - 88 <= o <= 0 -> o mod 8 = 0 -> cell dp_ext O o).
  { intros o Ho Hm. unfold cell, in_region. cbn. split; [lia|]. split; [lia|done]. }
  assert (M8 : forall x k, x mod 8 = 0 -> (x + 8 * k) mod 8 = 0).
  { intros x k Hx. by rewrite Z.mul_comm, Z.mod_add by lia. }
  assert (Cm : forall o v, - 88 <= o <= 0 -> o mod 8 = 0 -> smem_get (mem a) O o = v ->
    den dp_ext (dp_base (regs s RSP)) (mem s1 (regs s RSP + o)) v).
  { intros o v Ho Hm <-. by apply (sim_mem _ _ _ _ _ Hs O), C. }
  assert (Hrdx : regs s1 RDX = regs s RSP + L) by (pose proof (Hr RDX) as X; rewrite A6 in X; by destruct X).
  assert (Hsp : regs s1 RSP = regs s RSP + -88) by (pose proof (Hr RSP) as X; rewrite A4 in X; by destruct X).
  assert (W0 : mem s1 (regs s RSP + L) = z) by (eapply den_number; [apply (Cm L w); lia || done|done]).
  assert (W1 : mem s1 (regs s RSP + L + 8) = regs s RSP + 8).
  { rewrite <-Z.add_assoc. destruct (Cm (L + 8) _ ltac:(lia) (M8 L 1 HL8) L2) as [X _]. exact X. }
  assert (W2 : mem s1 (regs s RSP + L + 16) = regs s RSP + R).
  { rewrite <-Z.add_assoc. destruct (Cm (L + 16) _ ltac:(lia) (M8 L 2 HL8) L3) as [X _]. exact X. }
  assert (Hva : va_list_at (mem s1) (regs s1 RDX) = mkVaList 16 48 (regs s RSP + 8) (regs s RSP + R)).
  { unfold va_list_at. by rewrite Hrdx, W0, W1, W2, Hg, Hf. }
  assert (Hn : forall r x, regs a r = Num x -> regs s1 r = x) by (intros r x Hx; exact (den_num _ _ _ _ _ (Hr r) Hx)).
  assert (Hw : forall o x, - 88 <= o <= 0 -> o mod 8 = 0 -> smem_get (mem a) O o = Num x -> mem s1 (regs s RSP + o) = x).
  { intros o x Ho Hm Hx. exact (den_num _ _ _ _ _ (Cm _ _ Ho Hm eq_refl) Hx). }
  destruct Hok as [Hok1 Hok2]. split; rewrite ?Hva; cbn [reg_save_area].
  - split; [by apply Hn|]. split; by apply Hn.
  - rewrite Hsp, Z.add_mod, Hok1 by lia. done.
  - rewrite Hsp. lia.
  - pose proof (Hr RBP) as X. rewrite A5 in X. by destruct X.
  - done.
  - unfold read_words. cbn [seq fmap list_fmap].
    rewrite <-(Hw (R + 16) _ ltac:(lia) (M8 R 2 HR8) S1), <-(Hw (R + 24) _ ltac:(lia) (M8 R 3 HR8) S2),
      <-(Hw (R + 32) _ ltac:(lia) (M8 R 4 HR8) S3), <-(Hw (R + 40) _ ltac:(lia) (M8 R 5 HR8) S4).
    repeat (f_equal; try lia).
  - by apply (Hw (-8)).
  - intros r Hin. set_unfold in Hin. destruct Hin as [->|[->|[->|[->|[->|[]]]]]]; by apply Hn.
  - intros x Hx. destruct (decide (x = regs s RSP)) as [->|].
    + rewrite <-(Z.add_0_r (regs s RSP)) at 1. by apply Hw.
    + apply (sim_rest _ _ _ _ _ Hs). intros r o (Hc & Hc' & Hm). apply dp_region in Hc as [-> ?], Hc' as [_ ?]. cbn.
      intros ->. assert (o = 0); [|lia]. pose proof (Z.div_mod o 8 ltac:(lia)). lia.
Qed.

(** ** The whole of both versions *)

(** What [rvdprintf] keeps: the registers a call must keep, and the caller's
    frame. *)
Definition prints (call : string -> M CPUState unit) (s1 : CPUState) (result : Z) : Prop :=
  exists s2, call "rvdprintf" s1 = Ret (tt, s2) /\ regs s2 RAX = result /\
    (forall r, r ∈ [RSP; RBP; RBX; R12; R13; R14; R15] -> regs s2 r = regs s1 r) /\
    (forall x, regs s1 RBP <= x < regs s1 RBP + 16 -> mem s2 x = mem s1 x).

Record dprintf_returned (s : CPUState) (result : Z) (s' : CPUState) : Prop := {
  dr_result : regs s' RAX = result;
  dr_return : rip s' = mem s (regs s RSP) /\ regs s' RSP = regs s RSP + 8;
  dr_kept : forall r, r ∈ [RBX; RBP; R12; R13; R14; R15] -> regs s' r = regs s r }.

Lemma pop_run (s : CPUState) : regs s RSP mod 8 = 0 -> 0 <= regs s RSP < 2 ^ 64 - 8 ->
  pop s = Ret (mem s (regs s RSP), put_reg RSP (regs s RSP + 8) s).
Proof.
  intros Ha Hr. unfold pop, load, addr. run. cbn [id vload vadd dom_machine].
  unfold word_of. rewrite Ha, Z.sub_0_r. unfold wrap. by rewrite Z.mod_small by lia.
Qed.

(** Popping the frame pointer and returning. *)
Lemma leave_run call (s2 : CPUState) sp :
  sp mod 8 = 0 -> 8 <= sp < 2 ^ 64 - 8 -> regs s2 RSP = sp - 8 ->
  exists s', exec call [Popq RBP; Retq] None s2 = Ret (None, s') /\ regs s' RBP = mem s2 (sp - 8) /\
    rip s' = mem s2 sp /\ regs s' RSP = sp + 8 /\ (forall r, r <> RBP -> r <> RSP -> regs s' r = regs s2 r).
Proof.
  intros Hm Hr Hsp. cbn [exec exec1].
  assert (H8 : (sp - 8) mod 8 = 0) by (by rewrite Zminus_mod, Hm).
  erewrite bind_run by (erewrite bind_run by (apply pop_run; rewrite Hsp; [done|lia]); done).
  rewrite Hsp. set (s3 := put_reg RBP _ _).
  assert (Hs3 : regs s3 RSP = sp) by (change (sp - 8 + 8 = sp); lia).
  erewrite bind_run by (erewrite bind_run by (apply pop_run; rewrite Hs3; [done|lia]); done).
  rewrite Hs3. eexists. split; [done|]. split; [reflexivity|]. split; [reflexivity|]. split; [reflexivity|].
  intros r ??. by destruct r.
Qed.

(** A version of the function: its code up to the call and after it. *)
Definition dprintf_code (fast : bool) : list Instr * list Instr :=
  if fast then (fast_dprintf_build, fast_dprintf_return) else (slow_dprintf_build, slow_dprintf_return).

Lemma dprintf_build_called fast call (s : CPUState) : dp_ok (regs s RSP) ->
  exists s1, exec call (fst (dprintf_code fast)) None s = Ret (None, s1) /\ rvdprintf_called s s1.
Proof.
  intros Hok. pose proof (at_dprintf_sim s) as H0. pose proof (dp_regions _ Hok) as HR. destruct fast; cbn [dprintf_code fst].
  - destruct (fast_sym s) as (a & E & B).
    destruct (exec_sim _ _ HR (mem s) call _ _ _ _ _ _ H0 E) as (? & s1 & E1 & -> & Hs).
    exists s1. split; [done|]. eapply built_called; [done|done|done|exact B|reflexivity| | |lia|done|lia|done].
    + cbn -[get_bits put_bits]. rewrite get_put_same by lia. done.
    + cbn -[get_bits put_bits]. rewrite get_put_above, get_put_same by lia. done.
  - destruct (slow_sym s) as (a & E & B).
    destruct (exec_sim _ _ HR (mem s) call _ _ _ _ _ _ H0 E) as (? & s1 & E1 & -> & Hs).
    exists s1. split; [done|]. by eapply built_called; [done|done|done|exact B|reflexivity|done|done|lia|done|lia|done].
Qed.

Lemma dprintf_return_run fast call (s2 : CPUState) sp :
  sp mod 8 = 0 -> 88 <= sp < 2 ^ 64 - 8 -> regs s2 RSP = sp - 88 -> regs s2 RBP = sp - 8 ->
  exists s', exec call (snd (dprintf_code fast)) None s2 = Ret (None, s') /\ regs s' RBP = mem s2 (sp - 8) /\
    rip s' = mem s2 sp /\ regs s' RSP = sp + 8 /\ (forall r, r <> RBP -> r <> RSP -> regs s' r = regs s2 r).
Proof.
  intros Hm Hr Hsp Hbp. destruct fast; cbn [dprintf_code snd].
  - set (t := put_reg RSP (sp - 8) (set_status (@vbin _ _ dom_machine OAddStatus (regs s2 RSP) 80) s2)).
    destruct (leave_run call t sp) as (s' & E & H1 & H2 & H3 & H4); [done|lia|done|].
    exists s'. split; [|split_and!; try done; intros r ??; rewrite H4 by done; by destruct r].
    rewrite <-E. unfold fast_dprintf_return. cbn [exec exec1].
    erewrite bind_run; [reflexivity|]. unfold addr. run. cbn [id vadd dom_machine]. rewrite Hsp.
    unfold t, wrap. rewrite Z.mod_small by lia. rewrite Hsp. by replace (sp - 88 + 80) with (sp - 8) by lia.
  - set (t := put_reg RSP (sp - 8) s2).
    destruct (leave_run call t sp) as (s' & E & H1 & H2 & H3 & H4); [done|lia|done|].
    exists s'. split; [|split_and!; try done; intros r ??; rewrite H4 by done; by destruct r].
    rewrite <-E. unfold slow_dprintf_return. cbn [exec exec1].
    erewrite bind_run; [reflexivity|]. unfold t. by rewrite <-Hbp.
Qed.

(** Both versions of [dprintf], entered with any argument registers and
    any number [n] of arguments on the caller's stack, call [rvdprintf] with the
    stack aligned, the descriptor and the format where they came in, and a
    [va_list] from which [va_arg] takes [rdx], [rcx], [r8], [r9] and then the
    stack arguments, in order and with none skipped; and when [rvdprintf]
    returns, the caller goes on after its call with that function's result, its
    stack and the registers a call must keep. *)
Theorem dprintf_passes_arguments (fast : bool) call (s : CPUState) (n : nat) result :
  let code := dprintf_code fast in
  dp_ok (regs s RSP) -> (forall s1, rvdprintf_called s s1 -> prints call s1 result) ->
  exists s1 s', exec call (fst code) None s = Ret (None, s1) /\
    regs s1 RSP mod 16 = 0 /\ (regs s1 <$> [RDI; RSI]) = [regs s RDI; regs s RSI] /\
    va_args (mem s1) (va_list_at (mem s1) (regs s1 RDX)) (4 + n)
      = (regs s <$> [RDX; RCX; R8; R9]) ++ read_words (mem s) (regs s RSP + 8) n /\
    exec call (fst code ++ Callq "rvdprintf" :: snd code) None s = Ret (None, s') /\
    dprintf_returned s result s'.
Proof.
  intros code Hok Hp. destruct (dprintf_build_called fast call s Hok) as (s1 & E1 & H1).
  destruct (Hp s1 H1) as (s2 & E2 & Hres & Hk & Hm). destruct H1 as [(A1 & A2 & _) Hal Hsp Hbp Hl Hs Hf Hkept Hrest].
  destruct Hok as [H8 Hr].
  assert (Hm8 : regs s RSP mod 8 = 0).
  { pose proof (Z.div_mod (regs s RSP) 16 ltac:(lia)) as E. rewrite E, H8.
    replace (16 * (regs s RSP / 16) + 8) with ((2 * (regs s RSP / 16) + 1) * 8) by lia. apply Z.mod_mul. lia. }
  assert (Hk1 : regs s2 RSP = regs s1 RSP /\ regs s2 RBP = regs s1 RBP) by (split; apply Hk; set_solver).
  destruct Hk1 as [Hk1 Hk2].
  destruct (dprintf_return_run fast call s2 (regs s RSP)) as (s' & E3 & R1 & R2 & R3 & R4); [done|done|congruence..|].
  exists s1, s'. split; [done|]. split; [done|]. split; [cbn; congruence|]. split.
  { rewrite (va_args_all _ _ _ n _ _ _ _ Hl Hs). f_equal. unfold read_words. apply list_fmap_ext.
    intros i x _. apply Hrest. lia. }
  split.
  - rewrite exec_app. erewrite bind_run by exact E1. cbn [exec exec1]. erewrite bind_run by exact E2. exact E3.
  - split.
    + by rewrite R4.
    + split; [|done]. rewrite R2, Hm by lia. apply Hrest. lia.
    + intros r Hin. set_unfold in Hin. destruct Hin as [->|[->|[->|[->|[->|[->|[]]]]]]];
        first [rewrite R1, Hm by lia; exact Hf | rewrite R4, Hk by (done || set_solver); apply Hkept; set_solver].
Qed.

(** A call with six arguments after the format, two of them on the stack. *)
Module PrintDemo.
Definition caller : CPUState :=
  mkMach (tab_regs (fun r => match r with RSP => 0x7008 | _ => 100 + Z.of_nat (reg_num r) end))
    (tab_segs (fun _ => 0)) 0 0 0 0 0 (fun _ => 0) (fun x => x + 1).
Definition call (_ : string) : M CPUState unit := modify (put_reg RAX 12).
End PrintDemo.

Lemma dprintf_passes_arguments_witness :
  exists s1 s', exec PrintDemo.call slow_dprintf_build None PrintDemo.caller = Ret (None, s1) /\
    va_args (mem s1) (va_list_at (mem s1) (regs s1 RDX)) 6
      = (regs PrintDemo.caller <$> [RDX; RCX; R8; R9]) ++ [0x7011; 0x7019] /\
    exec PrintDemo.call slow_dprintf None PrintDemo.caller = Ret (None, s') /\ regs s' RAX = 12 /\ rip s' = 0x7009.
Proof.
  destruct (dprintf_passes_arguments false PrintDemo.call PrintDemo.caller 2 12) as (s1 & s' & E1 & _ & _ & Hv & E & [R1 [R2 _] _]).
  - split; [reflexivity|]. change (regs PrintDemo.caller RSP) with 0x7008. lia.
  - intros s1 _. eexists. split; [reflexivity|]. split; [reflexivity|]. split; [|done].
    intros r Hin. set_unfold in Hin. destruct Hin as [->|[->|[->|[->|[->|[->|[->|[]]]]]]]]; reflexivity.
  - exists s1, s'. split; [exact E1|]. split; [exact Hv|]. split; [exact E|]. split; [exact R1|exact R2].
Defined.
