(* ===== verification/Cpu.v ===== *)
(** The processor as [x86_64.rs] wraps it: the per-CPU structure and its
    set-up, loading the descriptor tables, the model-specific registers, the
    time-stamp counter, and the sleep of start-up. *)
From stdpp Require Import base list gmap strings.
From Stdlib Require Import ZArith Lia.
From S2P Require Import Prelude.
From S2P Require Import Arch.
From S2P Require Import Segment.

(** ** [CPU], of which each processor has one on a page of its own

    [c_proc], [c_scheduler] are addresses, [0] for null. *)
Record PerCpu := mkPerCpu {
  c_self_ptr : Z; c_ureg : Z; c_kstack : Z; c_id : Z; c_clock_freq : Z; c_scheduler : Z;
  c_ts : TaskState; c_gdt : list Z; c_ncli : Z; c_saved_intr_status : bool; c_proc : Z }.

(** Where [repr(C)] puts the fields the hardware and the assembly read. *)
Definition self_ptr_offset : Z := 0.
Definition kstack_offset : Z := self_ptr_offset + 8 + 8.
Definition ts_offset : Z := kstack_offset + 8 + 8 + 8 + 8.
Definition gdt_offset : Z := ts_offset + TaskState_size.
Definition GDT_size : Z := 8 * 8.
Definition PerCpu_used : Z := gdt_offset + GDT_size + 8 + 8.

(** ** One processor: its registers, the per-CPU structures in memory, the
    writes to its ports, and how often the time-stamp counter was read *)
Record Processor := mkProcessor {
  p_if : bool; p_gs : Z; p_gdtr : Z * Z; p_idtr : Z * Z; p_tr : Z; p_cs : Z; p_cr3 : Z;
  p_msr : Z -> Z; p_ports : list (Z * Z); p_cpus : gmap Z PerCpu; p_reads : nat }.

Definition set_if b p := mkProcessor b (p_gs p) (p_gdtr p) (p_idtr p) (p_tr p) (p_cs p) (p_cr3 p) (p_msr p) (p_ports p) (p_cpus p) (p_reads p).
Definition set_gs v p := mkProcessor (p_if p) v (p_gdtr p) (p_idtr p) (p_tr p) (p_cs p) (p_cr3 p) (p_msr p) (p_ports p) (p_cpus p) (p_reads p).
Definition set_gdtr v p := mkProcessor (p_if p) (p_gs p) v (p_idtr p) (p_tr p) (p_cs p) (p_cr3 p) (p_msr p) (p_ports p) (p_cpus p) (p_reads p).
Definition set_idtr v p := mkProcessor (p_if p) (p_gs p) (p_gdtr p) v (p_tr p) (p_cs p) (p_cr3 p) (p_msr p) (p_ports p) (p_cpus p) (p_reads p).
Definition set_tr v p := mkProcessor (p_if p) (p_gs p) (p_gdtr p) (p_idtr p) v (p_cs p) (p_cr3 p) (p_msr p) (p_ports p) (p_cpus p) (p_reads p).
Definition set_cs v p := mkProcessor (p_if p) (p_gs p) (p_gdtr p) (p_idtr p) (p_tr p) v (p_cr3 p) (p_msr p) (p_ports p) (p_cpus p) (p_reads p).
Definition set_cr3 v p := mkProcessor (p_if p) (p_gs p) (p_gdtr p) (p_idtr p) (p_tr p) (p_cs p) v (p_msr p) (p_ports p) (p_cpus p) (p_reads p).
Definition set_msr i v p := mkProcessor (p_if p) (p_gs p) (p_gdtr p) (p_idtr p) (p_tr p) (p_cs p) (p_cr3 p) (fun j => if j =? i then v else p_msr p j) (p_ports p) (p_cpus p) (p_reads p).
Definition add_port v p := mkProcessor (p_if p) (p_gs p) (p_gdtr p) (p_idtr p) (p_tr p) (p_cs p) (p_cr3 p) (p_msr p) (p_ports p ++ [v]) (p_cpus p) (p_reads p).
Definition set_cpus v p := mkProcessor (p_if p) (p_gs p) (p_gdtr p) (p_idtr p) (p_tr p) (p_cs p) (p_cr3 p) (p_msr p) (p_ports p) v (p_reads p).
Definition add_read p := mkProcessor (p_if p) (p_gs p) (p_gdtr p) (p_idtr p) (p_tr p) (p_cs p) (p_cr3 p) (p_msr p) (p_ports p) (p_cpus p) (S (p_reads p)).
Notation P := (M Processor).

(** ** Wrapped instructions *)
Definition intr_disable : P unit := modify (set_if false).
Definition intr_enable : P unit := modify (set_if true).
Definition is_intr_enabled : P bool := gets p_if.
Definition outb (port b : Z) : P unit := modify (add_port (port, b)).
Definition load_page_table (pt : Z) : P unit := modify (set_cr3 pt).
Definition wrgsbase (w : Z) : P unit := modify (set_gs w).
Definition ltr (sel : Z) : P unit := modify (set_tr sel).

(** The registers hold 64 bits, read and written in two halves. *)
Definition rdmsr (index : Z) : P Z :=
  v ← gets (fun p => p_msr p index);
  let val_lo := wrap 32 v in
  let val_hi := wrap 32 (Z.shiftr v 32) in
  mret (Z.lor (Z.shiftl val_hi 32) val_lo).
Definition wrmsr (index value : Z) : P unit :=
  let eax := wrap 32 value in
  let edx := wrap 32 (Z.shiftr value 32) in
  modify (set_msr index (Z.lor (Z.shiftl edx 32) eax)).

(** [lgdt] and [lidt] read a limit of two bytes and a base of eight from the
    operand, which the code puts together on its stack. *)
Definition pseudo_desc (base limit : Z) : Z * Z :=
  let sp := zrep 16 0 in
  let sp := zsplice sp 8 (le_bytes 8 base) in
  let sp := zsplice sp 6 (le_bytes 2 limit) in
  (from_le (zslice sp 6 8), from_le (zslice sp 8 16)).
Definition lgdt (gdt : Z) : P unit :=
  let LIMIT := GDT_size - 1 in
  modify (set_gdtr (pseudo_desc gdt LIMIT));;
  modify (set_cs 8).
Definition lidt (idt : Z) : P unit :=
  let LIMIT := 256 * 16 - 1 in
  modify (set_idtr (pseudo_desc idt LIMIT)).
Definition segment_init (gdt : Z) : P unit := lgdt gdt;; ltr TASK_SEL.

(** ** The interrupt table *)
Definition GateDesc_empty : Z * Z := (0, 0).
Definition IDT_empty : list (Z * Z) := zrep 256 GateDesc_empty.
Definition IDT_init (vector : Z -> Z) : list (Z * Z) := (fun n => make_gate (vector n) n) <$> zrange 0 256.

(** ** The 8259 controllers are masked *)
Definition pic_init : P unit :=
  let PIC1 := 0x20 in
  let PIC2 := 0xA0 in
  outb (PIC1 + 1) 0xFF;;
  outb (PIC2 + 1) 0xFF.

(** ** The per-CPU structure *)
Definition tschz : P Z :=
  if false
  then platform_info ← rdmsr 0x206;
       let max_non_turbo_ratio := Z.land (Z.shiftr platform_info 8) 0xFF in
       mret (max_non_turbo_ratio * 133330000)
  else mret 2000000000.

Definition CPU_init (page id : Z) : P unit :=
  freq ← tschz;
  modify (fun p => set_cpus (<[page := mkPerCpu page 0 0 id freq 0 (CPU_init_ts page) (GDT_new (page + ts_offset)) 0 false 0]>
    (p_cpus p)) p);;
  wrgsbase page;;
  segment_init (page + gdt_offset).

(** [mycpu] and [mycpu_mut]: the address in the word at [%gs:0]. *)
Definition cpu_at (a : Z) : P PerCpu := p ← gets p_cpus; expect (p !! a) "no per-CPU structure".
Definition mycpu_addr : P Z := g ← gets p_gs; c ← cpu_at g; mret (c_self_ptr c).
Definition mycpu : P PerCpu := a ← mycpu_addr; cpu_at a.
Definition update_cpu (a : Z) (f : PerCpu -> PerCpu) : P unit :=
  c ← cpu_at a; modify (fun p => set_cpus (<[a := f c]> (p_cpus p)) p).
Definition mycpu_id : P Z := c ← mycpu; mret (c_id c).

(** The interrupt counter of [Arch] on this processor's structure. *)
Definition set_intr (c : PerCpu) (i : CPU) : PerCpu :=
  mkPerCpu (c_self_ptr c) (c_ureg c) (c_kstack c) (c_id c) (c_clock_freq c) (c_scheduler c) (c_ts c) (c_gdt c)
    (ncli i) (saved_intr_status i) (c_proc c).
Definition on_intr {A} (m : M CPU A) : P A :=
  a ← mycpu_addr; c ← cpu_at a; p ← gets id;
  match m (mkCPU (p_if p) (c_ncli c) (c_saved_intr_status c)) with
  | Ret (r, i) => modify (set_if (intr_en i));; update_cpu a (fun c => set_intr c i);; mret r
  | Panic e => panic e
  | Diverge => diverge
  end.
Definition nintr_disable : P Z := c ← mycpu; mret (c_ncli c).
Definition reset_saved_intr_status (status : bool) : P unit :=
  a ← mycpu_addr;
  update_cpu a (fun c => set_intr c (mkCPU false (c_ncli c) status)).
Definition without_intrs_here {A} (thunk : P A) : P A :=
  on_intr push_intr_disable;;
  r ← thunk;
  on_intr pop_intr_disable;;
  mret r.

Definition put_proc (proc stack_top : Z) (c : PerCpu) : PerCpu :=
  mkPerCpu (c_self_ptr c) (c_ureg c) stack_top (c_id c) (c_clock_freq c) (c_scheduler c) (set_rsp0 (c_ts c) stack_top)
    (c_gdt c) (c_ncli c) (c_saved_intr_status c) proc.
(** [self] is the structure's address, [kstack_top] the process's. *)
Definition set_proc (self proc kstack_top : Z) : P unit :=
  without_intrs_here (update_cpu self (put_proc proc kstack_top)).
Definition clear_proc (self : Z) : P unit :=
  update_cpu self (fun c => mkPerCpu (c_self_ptr c) (c_ureg c) (c_kstack c) (c_id c) (c_clock_freq c) (c_scheduler c)
    (set_rsp0 (c_ts c) 0) (c_gdt c) (c_ncli c) (c_saved_intr_status c) 0).
(** [try_myproc] and [myproc] of proc.rs. *)
Definition try_myproc : P (option Z) :=
  without_intrs_here (c ← mycpu; mret (if c_proc c =? 0 then None else Some (c_proc c))).
Definition myproc : P Z := o ← try_myproc; expect o "myproc called with no proc".

(** ** Sleeping on the time-stamp counter, whose readings are [tsc] *)
Section sleep.
Context (tsc : nat -> Z).

Definition rdtsc : P Z :=
  n ← gets p_reads;
  modify add_read;;
  let lo := wrap 32 (tsc n) in
  let hi := wrap 32 (Z.shiftr (tsc n) 32) in
  mret (Z.lor (Z.shiftl hi 32) lo).

Fixpoint sleep_loop (fuel : nat) (s delta : Z) : P unit :=
  match fuel with
  | O => diverge
  | S fuel' =>
    t ← rdtsc;
    d ← lift (sub_ovf t s);
    if d <? delta then sleep_loop fuel' s delta else mret tt
  end.
Definition nanosleep (fuel : nat) (n : Z) : P unit :=
  c ← mycpu;
  prod ← lift (if n * c_clock_freq c <? 2 ^ 128 then Ret (n * c_clock_freq c) else Panic "attempt to multiply with overflow");
  let delta := prod / 1000000000 in
  s ← rdtsc;
  sleep_loop fuel s delta.
End sleep.

(** ** [vm::switch], [vm::init_pat] and [trap::init] *)
Definition switch (pgtbl : Z) : P unit := pt ← lift (sub_ovf pgtbl KERNBASE); load_page_table pt.
Definition init_pat : P unit := wrmsr 0x277 0x0007040600070406.
Definition trap_init (idt : Z) : P unit := lidt idt.

(** ** [Proc::sched] around its context switch: the checks before it, and the
    processor it goes on with after it *)
Definition sched_leave (holding running : bool) : P bool :=
  assert_ holding "sched proc lock";;
  n ← nintr_disable;
  assert_ (n =? 1) "sched locks";;
  assert_ (negb running) "sched running";;
  e ← is_intr_enabled;
  assert_ (negb e) "sched interruptible";;
  c ← mycpu;
  mret (c_saved_intr_status c).
Definition sched_resume (intr_status : bool) : P unit := reset_saved_intr_status intr_status.

(** ** Set-up *)
Lemma pseudo_desc_loads base limit : uN 64 base -> uN 16 limit -> pseudo_desc base limit = (limit, base).
Proof.
  intros Hb Hl. unfold pseudo_desc. cbn -[le_bytes from_le Z.pow]. f_equal.
  - change (from_le (le_bytes 2 limit) = limit). by apply from_le_le_bytes.
  - change (from_le (le_bytes 8 base) = base). by apply from_le_le_bytes.
Qed.

Lemma wrmsr_run index value p : uN 64 value -> wrmsr index value p = Ret (tt, set_msr index value p).
Proof. intros H. unfold wrmsr. by rewrite halves_join. Qed.

Lemma rdmsr_run index p : uN 64 (p_msr p index) -> rdmsr index p = Ret (p_msr p index, p).
Proof. intros H. unfold rdmsr. run. by rewrite halves_join. Qed.

(** What the hardware finds from a processor that is set up on [page]: its
    structure through GS, the task state through the task register and the
    descriptor table, and the kernel's code segment. *)
Record cpu_ready (page id : Z) (p : Processor) : Prop := {
  cr_mycpu : exists c, mycpu p = Ret (c, p) /\ mycpu_addr p = Ret (page, p) /\ c_id c = id /\ c_proc c = 0 /\
    c_ncli c = 0 /\ c_clock_freq c = 2000000000 /\ c_ts c = CPU_init_ts page /\
    zlen (c_gdt c) * 8 = (p_gdtr p).1 + 1 /\
    (exists lo hi, (c_gdt c).[p_tr p / 8] = Some lo /\ (c_gdt c).[p_tr p / 8 + 1] = Some hi /\
       p_tr p + 15 <= (p_gdtr p).1 /\ task_desc_base (lo, hi) = page + ts_offset /\
       task_desc_limit (lo, hi) = TaskState_size - 1 /\ desc_present (lo, hi) = 1) /\
    (c_gdt c).[p_cs p / 8] = Some ktext64;
  cr_gs : p_gs p = page;
  cr_gdtr : (p_gdtr p).2 = page + gdt_offset }.

Lemma task64_limit base : uN 64 base -> task_desc_limit (task64 base) = TaskState_size - 1 /\ desc_present (task64 base) = 1.
Proof.
  intros Hb. unfold task_desc_limit, desc_present, task64, lors. cbn [fst snd foldl].
  change (TaskState_size - 1) with 103. split; [|enum_bits].
  match goal with |- Z.lor (bits ?x 0 16) (Z.shiftl (bits ?x 48 4) 16) = _ =>
    assert (H1 : bits x 0 16 = 103) by enum_bits; assert (H2 : bits x 48 4 = 0) by enum_bits
  end.
  by rewrite H1, H2.
Qed.

Lemma CPU_init_ready page id p :
  0 <= page -> page + PAGE_SIZE < 2 ^ 64 -> exists p', CPU_init page id p = Ret (tt, p') /\ cpu_ready page id p' /\
    p_if p' = p_if p /\ p_msr p' = p_msr p /\ p_idtr p' = p_idtr p /\ p_cr3 p' = p_cr3 p /\
    forall a, a <> page -> p_cpus p' !! a = p_cpus p !! a.
Proof.
  intros H0 H1. unfold PAGE_SIZE in H1.
  assert (Hu : uN 64 (page + ts_offset)) by (unfold uN; change ts_offset with 48; lia).
  unfold CPU_init, tschz, segment_init, lgdt, wrgsbase, ltr. rewrite bind_mret, !bind_modify.
  rewrite pseudo_desc_loads by (unfold uN; change gdt_offset with 152; change GDT_size with 64; lia).
  eexists. split; [reflexivity|]. split; [|split_and!; try reflexivity].
  - split; [|reflexivity..]. eexists. split; [|split].
    + unfold mycpu, mycpu_addr, cpu_at. run. cbn. rewrite !lookup_insert_eq. cbn. rewrite lookup_insert_eq. reflexivity.
    + unfold mycpu_addr, cpu_at. run. cbn. rewrite !lookup_insert_eq. reflexivity.
    + cbn -[task64 GDT_new]. split_and!; try reflexivity.
      exists (task64 (page + ts_offset)).1, (task64 (page + ts_offset)).2.
      rewrite <-surjective_pairing. destruct (task64_limit _ Hu) as [? ?].
      split_and!; try done. by apply task64_base.
  - intros a Ha. cbn. by rewrite lookup_insert_ne.
Qed.

(** The structure ends before the interrupt stacks of its page, and the
    interrupt table has the length its limit says. *)
Lemma PerCpu_fits : PerCpu_used <= 1024.
Proof. by vm_compute. Qed.

Lemma IDT_init_gates vector n : 0 <= n < 256 ->
  zlen (IDT_init vector) * 16 = 256 * 16 /\ (IDT_init vector).[n] = Some (make_gate (vector n) n).
Proof.
  intros Hn. unfold IDT_init. assert (Hl : zlen (zrange 0 256) = 256) by reflexivity.
  split; [unfold zlen in *; rewrite length_fmap; lia|]. rewrite znth_fmap.
  assert (E : (zrange 0 256).[n] = Some n); [|by rewrite E].
  rewrite znth_lookup by lia. unfold zrange, step_range. change (0 <? 256) with true. cbn [fmap].
  rewrite list_lookup_fmap, lookup_seq_lt by (change (Z.to_nat ((256 - 0 + 1 - 1) / 1)) with 256%nat; lia). cbn. f_equal. lia.
Qed.

(** ** The structure of the running processor *)
Definition here (a : Z) (c : PerCpu) (p : Processor) : Prop := p_gs p = a /\ p_cpus p !! a = Some c /\ c_self_ptr c = a.

Lemma mycpu_addr_run a c p : here a c p -> mycpu_addr p = Ret (a, p).
Proof. intros (Hg & Hc & Hs). unfold mycpu_addr, cpu_at. run. rewrite Hg, Hc. by rewrite <-Hs. Qed.
Lemma percpu_at_run a c p : p_cpus p !! a = Some c -> cpu_at a p = Ret (c, p).
Proof. intros Hc. unfold cpu_at. run. by rewrite Hc. Qed.
Lemma mycpu_run a c p : here a c p -> mycpu p = Ret (c, p).
Proof.
  intros H. unfold mycpu. rewrite (bind_run _ _ _ _ _ (mycpu_addr_run _ _ _ H)). destruct H as (_ & Hc & _). by apply percpu_at_run.
Qed.
Lemma update_cpu_run a c f p : p_cpus p !! a = Some c -> update_cpu a f p = Ret (tt, set_cpus (<[a := f c]> (p_cpus p)) p).
Proof. intros Hc. unfold update_cpu. by rewrite (bind_run _ _ _ _ _ (percpu_at_run _ _ _ Hc)). Qed.

(** The state of the interrupts on this processor, and setting it. *)
Definition intr_of (c : PerCpu) (p : Processor) : CPU := mkCPU (p_if p) (c_ncli c) (c_saved_intr_status c).
Definition put_intr (a : Z) (c : PerCpu) (i : CPU) (p : Processor) : Processor :=
  set_cpus (<[a := set_intr c i]> (p_cpus p)) (set_if (intr_en i) p).

Lemma on_intr_run {A} a c p (m : M CPU A) r i :
  here a c p -> m (intr_of c p) = Ret (r, i) -> on_intr m p = Ret (r, put_intr a c i p).
Proof.
  intros H Hm. unfold on_intr. rewrite (bind_run _ _ _ _ _ (mycpu_addr_run _ _ _ H)).
  destruct H as (Hg & Hc & Hs). rewrite (bind_run _ _ _ _ _ (percpu_at_run _ _ _ Hc)), bind_gets.
  unfold intr_of in Hm. cbn [id]. rewrite Hm, bind_modify.
  by erewrite bind_run by (by apply (update_cpu_run _ c)).
Qed.

Lemma here_put a c i p : here a c p -> here a (set_intr c i) (put_intr a c i p).
Proof. intros (Hg & Hc & Hs). split; [done|]. split; [apply lookup_insert_eq|done]. Qed.

(** [set_proc] gives both ways into the kernel, the word at [%gs:16] for
    system calls and the task state for interrupts, the top of the process's
    stack, and leaves the interrupt state alone. *)
Theorem set_proc_sets_both_stacks a c p proc top :
  here a c p -> cpu_ok (intr_of c p) -> c_ncli c < 2 ^ 32 - 1 ->
  exists p' c', set_proc a proc top p = Ret (tt, p') /\ here a c' p' /\ c_proc c' = proc /\
    c_kstack c' = top /\ rsp0 (c_ts c') = top /\ p_if p' = p_if p /\ c_ncli c' = c_ncli c /\
    (p_if p = true -> c_ncli c = 0 -> c_saved_intr_status c' = true).
Proof.
  intros H [Hn0 Hoff] Hn. unfold set_proc, without_intrs_here. cbn [ncli intr_en intr_of] in *.
  erewrite bind_run; [|eapply on_intr_run; [done|]; apply push_intr_disable_run; cbn; lia].
  set (i1 := mkCPU false _ _). pose proof (here_put a c i1 p H) as H1. set (p1 := put_intr a c i1 p) in *.
  erewrite bind_run; [|apply update_cpu_run; apply H1].
  set (c2 := put_proc proc top (set_intr c i1)). set (p2 := set_cpus _ p1).
  assert (H2 : here a c2 p2) by (split; [apply H|]; split; [apply lookup_insert_eq|apply H]).
  erewrite bind_run; [|eapply on_intr_run; [exact H2|]; apply pop_intr_disable_run; [done|cbn; lia]].
  eexists _, _. split; [reflexivity|]. split; [by apply here_put|]. cbn.
  split_and!; try done; try lia.
  - replace (c_ncli c + 1 =? 1) with (c_ncli c =? 0) by (destruct (Z.eqb_spec (c_ncli c) 0), (Z.eqb_spec (c_ncli c + 1) 1); lia).
    destruct (Z.eqb_spec (c_ncli c) 0); cbn; [done|]. symmetry. apply Hoff. lia.
  - intros -> ->. done.
Qed.

(** ** Moving between processors: a process that gives up a processor with
    one lock held and goes on on another gets back, when it drops the lock, the
    interrupt state it had before it took it. *)
Theorem interrupt_state_follows_process a c p b q d :
  here a c p -> c_ncli c = 1 -> p_if p = false ->
  here b d q -> c_ncli d = 1 -> p_if q = false ->
  exists s q', sched_leave true false p = Ret (s, p) /\ s = c_saved_intr_status c /\
    (sched_resume s;; on_intr pop_intr_disable) q = Ret (tt, q') /\ p_if q' = c_saved_intr_status c.
Proof.
  intros Hp Hn Hi Hq Hn' Hi'. eexists (c_saved_intr_status c), _. split.
  { unfold sched_leave, nintr_disable, is_intr_enabled. cbn [negb].
    rewrite bind_assert by done. erewrite bind_run; [|by rewrite (bind_run _ _ _ _ _ (mycpu_run _ _ _ Hp))].
    rewrite Hn, bind_assert by done. rewrite bind_assert by done. rewrite bind_gets, bind_assert by (by rewrite Hi).
    by rewrite (bind_run _ _ _ _ _ (mycpu_run _ _ _ Hp)). }
  split; [done|]. unfold sched_resume, reset_saved_intr_status.
  set (i := mkCPU false (c_ncli d) (c_saved_intr_status c)).
  erewrite bind_run; [|rewrite (bind_run _ _ _ _ _ (mycpu_addr_run _ _ _ Hq)); apply update_cpu_run, Hq].
  assert (H2 : here b (set_intr d i) (set_cpus (<[b := set_intr d i]> (p_cpus q)) q)).
  { split; [apply Hq|]. split; [apply lookup_insert_eq|apply Hq]. }
  split; [eapply on_intr_run; [exact H2|]; apply pop_intr_disable_run; [exact Hi'|cbn; lia]|].
  cbn. by rewrite Hn'.
Qed.

(** ** Sleeping: it ends when the counter has advanced far enough, and not
    before *)
Section sleeping.
Context (tsc : nat -> Z).
Context (tsc_u64 : forall i, uN 64 (tsc i)) (tsc_runs : forall i, tsc i <= tsc (S i)).

Lemma tsc_mono i j : (i <= j)%nat -> tsc i <= tsc j.
Proof. induction 1 as [|j _ IH]; [lia|]. specialize (tsc_runs j). lia. Qed.

Lemma rdtsc_run p : rdtsc tsc p = Ret (tsc (p_reads p), add_read p).
Proof. unfold rdtsc. rewrite bind_gets, bind_modify. by rewrite halves_join. Qed.

Lemma sleep_loop_run k : forall fuel n0 delta p,
  (k < fuel)%nat -> (n0 <= p_reads p)%nat -> tsc n0 + delta <= tsc (p_reads p + k) ->
  exists p', sleep_loop tsc fuel (tsc n0) delta p = Ret (tt, p') /\ p_cpus p' = p_cpus p /\ p_gs p' = p_gs p /\ p_if p' = p_if p /\
    exists e, p_reads p' = S e /\ (p_reads p <= e)%nat /\ tsc n0 + delta <= tsc e.
Proof.
  induction k as [|k IH]; intros [|fuel] n0 delta p Hf Hn Hd; try lia; cbn [sleep_loop];
    rewrite (bind_run _ _ _ _ _ (rdtsc_run p)); unfold sub_ovf;
    pose proof (tsc_mono _ _ Hn); rewrite (proj2 (Z.leb_le _ _)) by done;
    rewrite (bind_lift _ _ _ (tsc (p_reads p) - tsc n0)) by done;
    destruct (Z.ltb_spec (tsc (p_reads p) - tsc n0) delta).
  - rewrite Nat.add_0_r in Hd. lia.
  - eexists. split; [done|]. split_and!; try done. exists (p_reads p). split; [done|]. split; [lia|lia].
  - destruct (IH fuel n0 delta (add_read p)) as (p' & E & G1 & G2 & G3 & e & R1 & R2 & R3); [lia|cbn; lia|cbn; by rewrite <-Nat.add_succ_r|].
    exists p'. split; [done|]. split_and!; try done. exists e. split; [done|]. cbn in R2. split; [lia|done].
  - eexists. split; [done|]. split_and!; try done. exists (p_reads p). split; [done|]. split; [lia|lia].
Qed.

Theorem nanosleep_waits a c p n k :
  here a c p -> n * c_clock_freq c < 2 ^ 128 ->
  let delta := n * c_clock_freq c / 1000000000 in
  tsc (p_reads p) + delta <= tsc (p_reads p + 1 + k) ->
  forall fuel, (k < fuel)%nat -> exists p' e, nanosleep tsc fuel n p = Ret (tt, p') /\ here a c p' /\ p_if p' = p_if p /\
    p_reads p' = S e /\ delta <= tsc e - tsc (p_reads p).
Proof.
  intros H Ho delta Hd fuel Hf. unfold nanosleep. rewrite (bind_run _ _ _ _ _ (mycpu_run _ _ _ H)).
  rewrite (proj2 (Z.ltb_lt _ _) Ho), (bind_lift _ _ _ (n * c_clock_freq c)) by done. fold delta.
  rewrite (bind_run _ _ _ _ _ (rdtsc_run p)).
  destruct (sleep_loop_run k fuel (p_reads p) delta (add_read p)) as (p' & E & G1 & G2 & G3 & e & R1 & R2 & R3);
    [done|cbn; lia|cbn; by replace (S (p_reads p + k)) with (p_reads p + 1 + k)%nat by lia|].
  exists p', e. split; [done|]. split; [|split; [done|]; split; [done|lia]].
  destruct H as (Hg & Hc & Hs). split; [by rewrite G2|]. split; [by rewrite G1|done].
Qed.
End sleeping.
