(* ===== verification/Smp.v ===== *)
(** Starting the other processors, [smp.rs], and what a processor does when
    it is started, [mpenter] of [main.rs]. *)
From stdpp Require Import base list gmap strings.
From Stdlib Require Import ZArith Lia.
From S2P Require Import Prelude.
From S2P Require Import Arch.
From S2P Require Import Kalloc.
From S2P Require Import Volatile.
From S2P Require Import Segment.
From S2P Require Import Xapic.
From S2P Require Import Cpu.

Definition VECTOR : Z := 7.
Definition ptrs_offset : Z := PAGE_SIZE - 3 * 8.

(** What the other processors can see of the boot processor: the interrupts it
    sends them, the beginning of an INIT, a start-up with the page they start
    on, and the time that passes. *)
Inductive Event := EInit (apic_id : Z) | ESipi (apic_id vector : Z) (entry : list Z) | ESlept (ns : Z).

Section smp.
Context {D : Type} `{!Mmio Z D}.

(** The page allocator, the entry page, the interrupt controller, and the
    events so far. *)
Record Boot := mkBoot { b_alloc : FreeList; b_entry : list Z; b_apic : Xapic D; b_hist : list Event }.
Notation B := (M Boot).

Definition on_alloc {A} (m : M FreeList A) : B A := fun s =>
  match m (b_alloc s) with
  | Ret (a, f) => Ret (a, mkBoot f (b_entry s) (b_apic s) (b_hist s))
  | Panic e => Panic e
  | Diverge => Diverge
  end.
Definition on_apic {A} (m : M (Xapic D) A) : B A := fun s =>
  match m (b_apic s) with
  | Ret (a, x) => Ret (a, mkBoot (b_alloc s) (b_entry s) x (b_hist s))
  | Panic e => Panic e
  | Diverge => Diverge
  end.
Definition event (e : Event) : B unit := modify (fun s => mkBoot (b_alloc s) (b_entry s) (b_apic s) (b_hist s ++ [e])).
Definition copy_to (off : Z) (bs : list Z) : B unit :=
  modify (fun s => mkBoot (b_alloc s) (zsplice (b_entry s) off bs) (b_apic s) (b_hist s)).

(** [smp::init] copies the code from [apentry] to [eapentry]. *)
Definition smp_init (apentry : list Z) : B unit := copy_to 0 apentry.

(** [me] is the boot processor's [mycpu_id], [sem_addr i] the address of the
    flag on the stack of the [i]-th call, and [up h c] whether processor [c]
    has set its flag after the events [h]. *)
Context (me : Z) (sem_addr : Z -> Z) (up : list Event -> Z -> bool).

Definition USEC : Z := 1000.
Definition MSEC : Z := 1000 * USEC.
Definition sleep (ns : Z) : B unit := event (ESlept ns).
Fixpoint wait (apic_id : Z) (micros : nat) : B bool :=
  match micros with
  | O => mret false
  | S n =>
    sleep USEC;;
    h ← gets b_hist;
    if up h apic_id then mret true else wait apic_id n
  end.

Definition write_ptr (i v : Z) : B unit := copy_to (ptrs_offset + 8 * i) (le_bytes 8 v).
Definition send_sipi_to (apic_id : Z) : B unit :=
  on_apic (send_sipi apic_id VECTOR);;
  e ← gets b_entry;
  event (ESipi apic_id VECTOR e).

Fixpoint try_start (apic_id : Z) (timeouts : list nat) : B bool :=
  match timeouts with
  | [] => mret false
  | t :: rest =>
    send_sipi_to apic_id;;
    b ← wait apic_id t;
    if (b : bool) then mret true else try_start apic_id rest
  end.

Definition start1 (id apic_id : Z) : B unit :=
  if apic_id =? me then mret tt
  else
    o ← on_alloc alloc;
    percpu ← expect o "start_others: AP percpu alloc failed";
    write_ptr 0 percpu;;
    write_ptr 1 id;;
    write_ptr 2 (sem_addr id);;
    event (EInit apic_id);;
    send_init_ipi on_apic sleep apic_id;;
    sleep (10 * MSEC);;
    b ← try_start apic_id [Z.to_nat 200; Z.to_nat 200];
    if (b : bool) then mret tt
    else
      b ← wait apic_id (Z.to_nat 10000);
      if negb b then panic "failed to start cpu" else mret tt.

Fixpoint start_from (id : Z) (cpus : list Z) : B unit :=
  match cpus with
  | [] => mret tt
  | cpu :: rest => start1 id cpu;; start_from (id + 1) rest
  end.
Definition start_others (cpus : list Z) : B unit := start_from 0 cpus.

(** ** The parameters a started processor reads on the entry page *)
Definition param_word (entry : list Z) (i : Z) : Z := from_le (zslice entry (ptrs_offset + 8 * i) (ptrs_offset + 8 * i + 8)).
Definition params (entry : list Z) : list Z := [param_word entry 0; param_word entry 1; param_word entry 2].

Lemma param_write entry i j v :
  zlen entry = PAGE_SIZE -> 0 <= i < 3 -> 0 <= j < 3 -> uN 64 v ->
  param_word (zsplice entry (ptrs_offset + 8 * i) (le_bytes 8 v)) j = if i =? j then v else param_word entry j.
Proof.
  intros Hl Hi Hj Hv. unfold param_word. pose proof (zlen_le_bytes 8 v) as H8. change (Z.of_nat 8) with 8 in H8.
  unfold ptrs_offset, PAGE_SIZE in *. destruct (Z.eqb_spec i j) as [->|Hne].
  - rewrite <-H8 at 3. rewrite zslice_zsplice by (rewrite ?H8; lia). by apply from_le_le_bytes.
  - f_equal. apply zslice_zsplice_out; rewrite ?H8; lia.
Qed.
(** ** The controller's calls return *)
Lemma xapic_write_ret i v (s : Xapic D) : x_ptr s <> 0 -> exists s', write i v s = Ret (tt, s') /\ x_ptr s' = x_ptr s.
Proof.
  intros Hp. unfold write, xapic_ref, on_dev, vread, vwrite. run. rewrite (proj2 (Z.eqb_neq _ _) Hp). cbn.
  destruct (mmio_read ID _). by eexists.
Qed.

Lemma poll_ret {A} n (body : M D (option A)) (o : M D A) d :
  (forall d, exists r d', body d = Ret (r, d')) -> (forall d, exists r d', o d = Ret (r, d')) ->
  exists r d', poll n body o d = Ret (r, d').
Proof.
  intros Hb Ho. revert d. induction n as [|n IH]; intros d; [apply Ho|]. cbn [poll].
  destruct (Hb d) as ([a|] & d' & E); erewrite bind_run by exact E; [|apply IH]. by eexists _, _.
Qed.

Lemma wait_delivery_ret (s : Xapic D) : x_ptr s <> 0 -> exists s', wait_delivery s = Ret (tt, s') /\ x_ptr s' = x_ptr s.
Proof.
  intros Hp. unfold wait_delivery, xapic_ref.
  erewrite bind_run; [|erewrite bind_gets, (proj2 (Z.eqb_neq _ _) Hp); reflexivity]. unfold on_dev.
  edestruct (poll_ret (Z.to_nat 100000) (v ← vread ICRLO; mret (if Z.land v DELIVS =? 0 then Some tt else None)) (mret tt) (x_dev s))
    as (r & d' & E).
  - intros d. rewrite bind_vread. by eexists _, _.
  - intros d. by eexists _, _.
  - rewrite E. destruct r. by eexists.
Qed.

Definition apic_on (m : M (Xapic D) unit) : Prop :=
  forall s, x_ptr s <> 0 -> exists s', m s = Ret (tt, s') /\ x_ptr s' = x_ptr s.

Lemma apic_on_bind m k : apic_on m -> apic_on k -> apic_on (m;; k).
Proof.
  intros Hm Hk s Hs. destruct (Hm s Hs) as (s1 & E1 & H1). destruct (Hk s1) as (s2 & E2 & H2); [congruence|].
  exists s2. erewrite bind_run by exact E1. split; [done|congruence].
Qed.

Lemma sipi_returns apic_id v : apic_on (send_sipi apic_id v).
Proof. repeat first [exact (xapic_write_ret _ _)|exact wait_delivery_ret|apply apic_on_bind]. Qed.

(** ** Waiting *)
Definition put_hist (h : list Event) (s : Boot) : Boot := mkBoot (b_alloc s) (b_entry s) (b_apic s) h.
Definition slept (n : nat) : list Event := replicate n (ESlept USEC).

Lemma wait_up c n s : (exists k, (k < n)%nat /\ up (b_hist s ++ slept (S k)) c = true) ->
  exists k, (k < n)%nat /\ wait c n s = Ret (true, put_hist (b_hist s ++ slept (S k)) s) /\ up (b_hist s ++ slept (S k)) c = true.
Proof.
  revert s. induction n as [|n IH]; intros s (k & Hk & Hu); [lia|]. cbn [wait]. unfold sleep, event.
  rewrite bind_modify, bind_gets. cbn [b_hist]. destruct (up (b_hist s ++ [ESlept USEC]) c) eqn:E.
  - exists O. split; [lia|]. done.
  - destruct k as [|k]; [change (slept 1) with [ESlept USEC] in Hu; congruence|]. set (s1 := mkBoot _ _ _ _).
    destruct (IH s1) as (k' & Hk' & Ew & Hu').
    { exists k. split; [lia|]. cbn [b_hist s1]. by rewrite <-app_assoc. }
    exists (S k'). split; [lia|]. unfold s1 in Ew, Hu'. cbn [b_hist] in Ew, Hu'. rewrite <-app_assoc in Ew, Hu'. done.
Qed.

Lemma wait_down c n s : (forall k, (k < n)%nat -> up (b_hist s ++ slept (S k)) c = false) ->
  wait c n s = Ret (false, put_hist (b_hist s ++ slept n) s).
Proof.
  revert s. induction n as [|n IH]; intros s Hu; [cbn; rewrite app_nil_r; by destruct s|]. cbn [wait]. unfold sleep, event.
  rewrite bind_modify, bind_gets. cbn [b_hist].
  pose proof (Hu O ltac:(lia)) as H0. change (slept 1) with [ESlept USEC] in H0. rewrite H0, IH; cbn [b_hist].
  - unfold put_hist. cbn. by rewrite <-app_assoc.
  - intros k Hk. rewrite <-app_assoc. apply (Hu (S k)). lia.
Qed.
Lemma wait_cases c n s :
  (exists k, (k < n)%nat /\ wait c n s = Ret (true, put_hist (b_hist s ++ slept (S k)) s) /\ up (b_hist s ++ slept (S k)) c = true) \/
  (wait c n s = Ret (false, put_hist (b_hist s ++ slept n) s) /\ forall k, (k < n)%nat -> up (b_hist s ++ slept (S k)) c = false).
Proof.
  destruct (existsb (fun k => up (b_hist s ++ slept (S k)) c) (seq 0 n)) eqn:E.
  - left. apply wait_up. apply existsb_exists in E as (k & Hk & Hu). apply in_seq in Hk. exists k. split; [lia|done].
  - right. assert (Hd : forall k, (k < n)%nat -> up (b_hist s ++ slept (S k)) c = false).
    { intros k Hk. destruct (up _ c) eqn:Eu; [|done]. rewrite <-E. symmetry. apply existsb_exists. exists k.
      split; [apply in_seq; lia|done]. }
    split; [by apply wait_down|done].
Qed.

(** ** Starting one processor *)

(** The history at the [k]-th look at the flag, after the setup [h]. *)
Definition poll_hist (h : list Event) (c : Z) (e : list Z) (k : nat) : list Event :=
  if (k <? 200)%nat then h ++ ESipi c VECTOR e :: slept (S k)
  else h ++ ESipi c VECTOR e :: slept 200 ++ ESipi c VECTOR e :: slept (S (k - 200)).
Definition polls : nat := Z.to_nat (200 + 200 + 10000).

Definition apic_put (x : Xapic D) (h : list Event) (s : Boot) : Boot := mkBoot (b_alloc s) (b_entry s) x h.

Lemma sipi_run c s : x_ptr (b_apic s) <> 0 ->
  exists x, send_sipi_to c s = Ret (tt, apic_put x (b_hist s ++ [ESipi c VECTOR (b_entry s)]) s) /\ x_ptr x = x_ptr (b_apic s).
Proof.
  intros Hx. destruct (sipi_returns c VECTOR _ Hx) as (x & E & Hp). exists x. split; [|done].
  unfold send_sipi_to. erewrite bind_run; [|unfold on_apic; rewrite E; reflexivity]. done.
Qed.

(** A step on the controller, followed by the rest. *)
Lemma on_apic_run m (k : B unit) s : apic_on m -> x_ptr (b_apic s) <> 0 ->
  exists x, (on_apic m;; k) s = k (apic_put x (b_hist s) s) /\ x_ptr x = x_ptr (b_apic s).
Proof.
  intros Hm Hx. destruct (Hm _ Hx) as (x & E & Hp). exists x. split; [|done].
  by erewrite bind_run by (unfold on_apic; rewrite E; reflexivity).
Qed.

Ltac apic_step x H :=
  match goal with |- context [(on_apic ?m ≫= ?f) ?s] =>
    let k := eval cbv beta in (f tt) in
    let E := fresh in
    destruct (on_apic_run m k s) as (x & E & H);
      [first [exact (xapic_write_ret _ _)|exact wait_delivery_ret]|cbn [b_apic apic_put] in *; congruence|
       rewrite E; clear E; cbn [b_apic apic_put b_hist b_alloc b_entry] in *]
  end.

Lemma init_ipi_run c s : x_ptr (b_apic s) <> 0 ->
  exists x, send_init_ipi on_apic sleep c s = Ret (tt, apic_put x (b_hist s ++ [ESlept (200 * USEC); ESlept (100 * USEC)]) s) /\
    x_ptr x = x_ptr (b_apic s).
Proof.
  intros Hx. unfold send_init_ipi.
  apic_step x1 H1. apic_step x2 H2. apic_step x3 H3.
  unfold sleep, event. rewrite bind_modify. cbn [b_alloc b_entry b_apic b_hist apic_put].
  apic_step x4 H4. apic_step x5 H5.
  exists x5. split; [|congruence]. unfold modify, apic_put. cbn. by rewrite <-app_assoc.
Qed.

Definition last_wait (c : Z) (b : bool) : B unit :=
  if b then mret tt else b ← wait c (Z.to_nat 10000); if negb b then panic "failed to start cpu" else mret tt.

Lemma tries_run c s : x_ptr (b_apic s) <> 0 ->
  let m := b ← try_start c [Z.to_nat 200; Z.to_nat 200]; last_wait c b in
  (exists k x, (k < polls)%nat /\ x_ptr x = x_ptr (b_apic s) /\ up (poll_hist (b_hist s) c (b_entry s) k) c = true /\
     m s = Ret (tt, apic_put x (poll_hist (b_hist s) c (b_entry s) k) s)) \/
  ((forall k, (k < polls)%nat -> up (poll_hist (b_hist s) c (b_entry s) k) c = false) /\ m s = Panic "failed to start cpu").
Proof.
  intros Hx m. unfold m. destruct (sipi_run c s Hx) as (x1 & E1 & Hp1).
  set (s1 := apic_put x1 _ s) in *.
  assert (Hh1 : forall n, b_hist s1 ++ slept n = b_hist s ++ ESipi c VECTOR (b_entry s) :: slept n)
    by (intros n; cbn [b_hist s1 apic_put]; by rewrite <-app_assoc).
  destruct (wait_cases c (Z.to_nat 200) s1) as [(k & Hk & Ew & Hu)|[Ew Hd]].
  { left. exists k, x1. assert (Hph : poll_hist (b_hist s) c (b_entry s) k = b_hist s1 ++ slept (S k)).
    { unfold poll_hist. rewrite (proj2 (Nat.ltb_lt _ _)) by lia. symmetry. apply Hh1. }
    rewrite Hph. split; [unfold polls; lia|]. split; [done|]. split; [done|].
    erewrite bind_run; [|cbn [try_start]; erewrite bind_run by exact E1; erewrite bind_run by exact Ew; reflexivity]. done. }
  set (s2 := put_hist _ s1) in Ew. destruct (sipi_run c s2) as (x2 & E2 & Hp2); [cbn; congruence|].
  set (s3 := apic_put x2 _ s2) in *.
  assert (Hh3 : forall n, b_hist s3 ++ slept n =
    b_hist s ++ ESipi c VECTOR (b_entry s) :: slept 200 ++ ESipi c VECTOR (b_entry s) :: slept n).
  { intros n. cbn [b_hist s3 s2 s1 apic_put put_hist b_entry]. rewrite <-!app_assoc. done. }
  assert (Hph : forall k, poll_hist (b_hist s) c (b_entry s) (200 + k) = b_hist s3 ++ slept (S k)).
  { intros k. unfold poll_hist. rewrite (proj2 (Nat.ltb_ge _ _)) by lia. rewrite Hh3. do 6 f_equal. lia. }
  assert (Hlow : forall k, (k < 200)%nat -> up (poll_hist (b_hist s) c (b_entry s) k) c = false).
  { intros k Hk. unfold poll_hist. rewrite (proj2 (Nat.ltb_lt _ _)) by done. rewrite <-Hh1. apply Hd. lia. }
  destruct (wait_cases c (Z.to_nat 200) s3) as [(k & Hk & Ew3 & Hu)|[Ew3 Hd3]].
  { left. exists (200 + k)%nat, x2. rewrite Hph. split; [unfold polls; lia|]. split; [cbn in Hp2; congruence|]. split; [done|].
    erewrite bind_run; [|cbn [try_start]; erewrite bind_run by exact E1; erewrite bind_run by exact Ew; cbv match; erewrite bind_run by exact E2;
      erewrite bind_run by exact Ew3; reflexivity]. done. }
  set (s4 := put_hist _ s3) in Ew3.
  assert (Hh4 : forall n, b_hist s4 ++ slept n = b_hist s3 ++ slept (200 + n)).
  { intros n. cbn [b_hist s4 put_hist]. rewrite <-app_assoc. by f_equal. }
  assert (Em : forall B (f : bool -> M Boot B),
    (try_start c [Z.to_nat 200; Z.to_nat 200] ≫= f) s = f false s4).
  { intros B0 f. apply bind_run. cbn [try_start]. erewrite bind_run by exact E1. erewrite bind_run by exact Ew. cbv match.
    erewrite bind_run by exact E2. erewrite bind_run by exact Ew3. done. }
  rewrite Em. cbn [last_wait]. destruct (wait_cases c (Z.to_nat 10000) s4) as [(k & Hk & Ew5 & Hu)|[Ew5 Hd5]].
  - left. exists (200 + (200 + k))%nat, x2. rewrite Hph. rewrite Hh4 in Hu, Ew5. replace (200 + S k)%nat with (S (200 + k)) in * by lia.
    split; [unfold polls; lia|]. split; [cbn in Hp2; congruence|]. split; [done|]. erewrite bind_run by exact Ew5. done.
  - right. split; [|by erewrite bind_run by exact Ew5].
    intros k Hk. destruct (decide (k < 200)%nat); [by apply Hlow|]. replace k with (200 + (k - 200))%nat by lia.
    rewrite Hph. destruct (decide (k - 200 < 200)%nat); [apply Hd3; lia|].
    replace (S (k - 200)) with (200 + S (k - 400))%nat by lia. rewrite <-Hh4. apply Hd5. unfold polls in Hk. lia.
Qed.
(** The entry page with the parameters written. *)
Definition with_params (entry : list Z) (a id sem : Z) : list Z :=
  zsplice (zsplice (zsplice entry (ptrs_offset + 8 * 0) (le_bytes 8 a)) (ptrs_offset + 8 * 1) (le_bytes 8 id))
    (ptrs_offset + 8 * 2) (le_bytes 8 sem).

Lemma zlen_param entry i v : zlen entry = PAGE_SIZE -> 0 <= i < 3 ->
  zlen (zsplice entry (ptrs_offset + 8 * i) (le_bytes 8 v)) = PAGE_SIZE.
Proof.
  intros Hl Hi. rewrite zlen_zsplice; [done| |]; rewrite ?zlen_le_bytes; unfold ptrs_offset, PAGE_SIZE in *; lia.
Qed.

Lemma with_params_read entry a id sem : zlen entry = PAGE_SIZE -> uN 64 a -> uN 64 id -> uN 64 sem ->
  zlen (with_params entry a id sem) = PAGE_SIZE /\ params (with_params entry a id sem) = [a; id; sem].
Proof.
  intros Hl Ha Hi Hs. unfold with_params, params. pose proof (zlen_param entry 0 a Hl ltac:(lia)) as H1.
  pose proof (zlen_param _ 1 id H1 ltac:(lia)) as H2. split; [apply zlen_param; [done|lia]|].
  by rewrite !(param_write _ 2), !(param_write _ 1), (param_write _ 0) by (done || lia).
Qed.

Definition boot_ok (s : Boot) (l : list Z) : Prop :=
  fl_rep (b_alloc s) l /\ zlen (b_entry s) = PAGE_SIZE /\ x_ptr (b_apic s) <> 0.

(** What happens before the first start-up. *)
Definition init_events (c : Z) : list Event := [EInit c; ESlept (200 * USEC); ESlept (100 * USEC); ESlept (10 * MSEC)].

Lemma start1_no_page id c s : c <> me -> boot_ok s [] -> start1 id c s = Panic "start_others: AP percpu alloc failed".
Proof.
  intros Hc (Hf & _). unfold start1. rewrite (proj2 (Z.eqb_neq _ _) Hc).
  erewrite bind_run; [|unfold on_alloc, alloc; rewrite (get_refines _ _ Hf); reflexivity]. done.
Qed.

Lemma start1_run id c s a l : c <> me -> boot_ok s (a :: l) -> uN 64 id -> uN 64 (sem_addr id) ->
  let e := with_params (b_entry s) a id (sem_addr id) in
  let h := b_hist s ++ init_events c in
  params e = [a; id; sem_addr id] /\
  ((exists k s', start1 id c s = Ret (tt, s') /\ (k < polls)%nat /\ b_hist s' = poll_hist h c e k /\
      up (b_hist s') c = true /\ boot_ok s' l) \/
   (start1 id c s = Panic "failed to start cpu" /\ forall k, (k < polls)%nat -> up (poll_hist h c e k) c = false)).
Proof.
  intros Hc (Hf & Hl & Hx) Hid Hsem e h. pose proof (get_refines _ _ Hf) as (fl' & Ea & Hf' & _).
  assert (Ha : uN 64 a) by (pose proof (proj1 Hf) as Hch; inversion Hch; subst; unfold uN; lia).
  destruct (with_params_read (b_entry s) a id (sem_addr id) Hl Ha Hid Hsem) as [Hle Hpe]. split; [done|].
  destruct (init_ipi_run c (mkBoot fl' e (b_apic s) (b_hist s ++ [EInit c])) Hx) as (x & Ei & Hpx).
  set (s1 := mkBoot fl' e x h).
  assert (E : start1 id c s = (b ← try_start c [Z.to_nat 200; Z.to_nat 200]; last_wait c b) s1).
  { unfold start1. rewrite (proj2 (Z.eqb_neq _ _) Hc).
    erewrite bind_run; [|unfold on_alloc, alloc; rewrite Ea; reflexivity]. cbn [expect]. rewrite bind_mret.
    unfold write_ptr, copy_to. rewrite !bind_modify. cbn [b_alloc b_entry b_apic b_hist].
    unfold event at 1. rewrite bind_modify. cbn [b_alloc b_entry b_apic b_hist].
    erewrite bind_run by exact Ei. unfold sleep, event. rewrite bind_modify. cbn [b_alloc b_entry b_apic b_hist apic_put].
    unfold s1, h. rewrite <-!app_assoc. reflexivity. }
  cbn [b_apic] in Hpx. rewrite E. destruct (tries_run c s1) as [(k & x' & Hk & Hpx' & Hu & Em)|[Hu Em]]; [cbn; congruence| |].
  - left. eexists k, _. split; [exact Em|]. split; [done|]. split; [done|]. split; [done|].
    split; [exact Hf'|]. split; [exact Hle|]. cbn in *. congruence.
  - right. split; [exact Em|exact Hu].
Qed.

(** ** Starting all of them *)

(** The processors that are started, with the numbers they get. *)
Fixpoint todo (id : Z) (cpus : list Z) : list (Z * Z) :=
  match cpus with
  | [] => []
  | c :: rest => if c =? me then todo (id + 1) rest else (id, c) :: todo (id + 1) rest
  end.

(** From the history [h] to [h'] the processors of the list were started one
    after the other, each with its number and its own page of [pages] among
    the parameters, and was seen to be up before the next. *)
Inductive Started : list (Z * Z) -> list Z -> list Event -> list Event -> Prop :=
| Started_none pages h : Started [] pages h h
| Started_one id c rest a pages h ev e h' :
    ESipi c VECTOR e ∈ ev -> params e = [a; id; sem_addr id] -> up (h ++ ev) c = true ->
    Started rest pages (h ++ ev) h' -> Started ((id, c) :: rest) (a :: pages) h h'.

Lemma poll_hist_app h c e k : exists ev, poll_hist h c e k = h ++ ev /\ ESipi c VECTOR e ∈ ev.
Proof. unfold poll_hist. case_match; eexists; (split; [done|]); set_solver. Qed.

(** Processor [c], with number [id], is the next after [pre] of those to start,
    when the events are [h]. *)
Definition next_is (id : Z) (cpus pages : list Z) (h0 : list Event) (pre : list (Z * Z)) (n c : Z) (h : list Event) : Prop :=
  (exists post, todo id cpus = pre ++ (n, c) :: post) /\ Started pre pages h0 h.

(** Starting from [id] ends with all of them up; or the pages run out; or one
    of them is not seen to be up. *)
Definition starting_ends (id : Z) (cpus : list Z) (s : Boot) (l : list Z) (o : outcome (unit * Boot)) : Prop :=
  (exists s', o = Ret (tt, s') /\ Started (todo id cpus) l (b_hist s) (b_hist s') /\
     boot_ok s' (drop (length (todo id cpus)) l)) \/
  (o = Panic "start_others: AP percpu alloc failed" /\
   exists pre n c h, next_is id cpus l (b_hist s) pre n c h /\ length pre = length l) \/
  (o = Panic "failed to start cpu" /\
   exists pre n c h a e, next_is id cpus l (b_hist s) pre n c h /\ l !! length pre = Some a /\
     params e = [a; n; sem_addr n] /\ forall k, (k < polls)%nat -> up (poll_hist (h ++ init_events c) c e k) c = false).

Lemma start_from_run cpus : forall id s l,
  boot_ok s l -> 0 <= id -> id + zlen cpus < 2 ^ 64 -> (forall i, uN 64 (sem_addr i)) ->
  starting_ends id cpus s l (start_from id cpus s).
Proof.
  induction cpus as [|c cpus IH]; intros id s l Hok Hid Hlen Hsem; cbn [start_from].
  { left. exists s. split; [done|]. split; [constructor|done]. }
  rewrite zlen_cons in Hlen. unfold starting_ends, next_is. cbn [todo]. destruct (Z.eqb_spec c me) as [->|Hne].
  { erewrite bind_run; [|unfold start1; rewrite Z.eqb_refl; reflexivity]. exact (IH (id + 1) s l Hok ltac:(lia) ltac:(lia) Hsem). }
  destruct l as [|a l].
  { right. left. rewrite (bind_panic _ _ _ _ (start1_no_page id c s Hne Hok)). split; [done|].
    exists [], id, c, (b_hist s). split; [|done]. split; [by eexists|constructor]. }
  destruct (start1_run id c s a l Hne Hok ltac:(pose proof (zlen_nonneg cpus); unfold uN; lia) (Hsem id)) as (Hp & [(k & s1 & E1 & Hk & Hh & Hu & Hok1)|[E1 Hu]]).
  2:{ right. right. rewrite (bind_panic _ _ _ _ E1). split; [done|]. eexists [], id, c, (b_hist s), a, _.
      split; [split; [by eexists|constructor]|]. split; [done|]. split; [exact Hp|exact Hu]. }
  erewrite bind_run by exact E1.
  destruct (poll_hist_app (b_hist s ++ init_events c) c (with_params (b_entry s) a id (sem_addr id)) k) as (ev & He & Hin).
  rewrite He, <-app_assoc in Hh.
  assert (Hone : forall rest h', Started rest l (b_hist s1) h' -> Started ((id, c) :: rest) (a :: l) (b_hist s) h').
  { intros rest h' Hst. eapply Started_one; [|exact Hp|rewrite <-Hh; exact Hu|rewrite <-Hh; exact Hst]. set_solver. }
  destruct (IH (id + 1) s1 l Hok1 ltac:(lia) ltac:(lia) Hsem)
    as [(s' & E & Hst & Hok')|[(E & pre & n & c' & h & [[post Ht] Hst] & Hl)|(E & pre & n & c' & h & a' & e & [[post Ht] Hst] & Hl & Hpe & Hd)]].
  - left. exists s'. split; [done|]. split; [by apply Hone|done].
  - right. left. split; [done|]. exists ((id, c) :: pre), n, c', h. split; [|cbn; by rewrite Hl].
    split; [exists post; by rewrite Ht|by apply Hone].
  - right. right. split; [done|]. exists ((id, c) :: pre), n, c', h, a', e. split; [|done].
    split; [exists post; by rewrite Ht|by apply Hone].
Qed.
(** A processor listed first that is not the one the code takes for the boot
    processor is given the boot processor's number. *)
Lemma first_processor_gets_id_zero c cpus : c <> me -> (0, c) ∈ todo 0 (c :: cpus).
Proof. intros H. cbn [todo]. rewrite (proj2 (Z.eqb_neq _ _) H). apply list_elem_of_here. Qed.

Lemma todo_ids cpus : forall id, Forall (fun x => id <= x.1 < id + zlen cpus) (todo id cpus) /\ NoDup (todo id cpus).*1.
Proof.
  induction cpus as [|c cpus IH]; intros id; cbn [todo]; [split; constructor|]. rewrite zlen_cons.
  destruct (IH (id + 1)) as [Hr Hd]. pose proof (zlen_nonneg cpus).
  assert (Hr' : Forall (fun x : Z * Z => id <= x.1 < id + (1 + zlen cpus)) (todo (id + 1) cpus)).
  { eapply Forall_impl; [exact Hr|]. cbn. intros x Hx. lia. }
  destruct (c =? me); [done|]. split; [constructor; [cbn; lia|done]|]. cbn. constructor; [|done].
  rewrite list_elem_of_fmap. intros (x & -> & Hx). rewrite Forall_forall in Hr. apply Hr in Hx. lia.
Qed.
End smp.

(** ** A processor that has been started: [mpenter] and [mpmain] of main.rs *)
Section mpenter.
Context {D : Type} `{!Mmio Z D}.

(** Its registers, its interrupt controller, the flag on the boot processor's
    stack, what it prints, and whether it is in the scheduler. *)
Record Ap := mkAp { ap_cpu : Processor; ap_apic : Xapic D; ap_flag : bool; ap_printed : list Z; ap_scheduling : bool }.
Notation A := (M Ap).

Definition cpu_do {R} (m : M Processor R) : A R := fun s =>
  match m (ap_cpu s) with
  | Ret (r, p) => Ret (r, mkAp p (ap_apic s) (ap_flag s) (ap_printed s) (ap_scheduling s))
  | Panic e => Panic e
  | Diverge => Diverge
  end.
Definition apic_do {R} (m : M (Xapic D) R) : A R := fun s =>
  match m (ap_apic s) with
  | Ret (r, x) => Ret (r, mkAp (ap_cpu s) x (ap_flag s) (ap_printed s) (ap_scheduling s))
  | Panic e => Panic e
  | Diverge => Diverge
  end.

Definition MSR_STAR : Z := 0xc0000081.
Definition MSR_LSTAR : Z := 0xc0000082.
Definition MSR_FMASK : Z := 0xc0000084.
Definition load_syscall_msrs (enter : Z) : M Processor unit :=
  wrmsr MSR_LSTAR enter;;
  wrmsr MSR_STAR star;;
  wrmsr MSR_FMASK sfmask.

Definition signal_up : A unit := modify (fun s => mkAp (ap_cpu s) (ap_apic s) true (ap_printed s) (ap_scheduling s)).
Definition scheduler : A unit := modify (fun s => mkAp (ap_cpu s) (ap_apic s) (ap_flag s) (ap_printed s) true).
Definition mpmain (id : Z) : A unit :=
  modify (fun s => mkAp (ap_cpu s) (ap_apic s) (ap_flag s) (ap_printed s ++ [id]) (ap_scheduling s));;
  signal_up;;
  scheduler.

(** [idt] and [kpgtbl] are the addresses of the interrupt table and of the
    kernel's root table, [enter] that of the system call entry. *)
Definition mpenter (idt kpgtbl enter percpu id : Z) : A unit :=
  cpu_do (CPU_init percpu id);;
  cpu_do (trap_init idt);;
  cpu_do (switch kpgtbl);;
  my ← cpu_do mycpu_id;
  apic_do (Xapic.init my);;
  cpu_do (load_syscall_msrs enter);;
  mpmain id.

(** A processor ready for processes, traps and system calls. *)
Record ap_ready (idt kpgtbl enter page id : Z) (s : Ap) : Prop := {
  ar_cpu : cpu_ready page id (ap_cpu s);
  ar_idt : p_idtr (ap_cpu s) = (256 * 16 - 1, idt);
  ar_cr3 : p_cr3 (ap_cpu s) = kpgtbl - KERNBASE;
  ar_msrs : p_msr (ap_cpu s) MSR_LSTAR = enter /\ p_msr (ap_cpu s) MSR_STAR = star /\ p_msr (ap_cpu s) MSR_FMASK = sfmask;
  ar_apic : Z.testbit (apic_base (ap_apic s)) 11 = true /\ x_ptr (ap_apic s) <> 0 }.

Lemma cpu_do_run {R B} (m : M Processor R) (f : R -> A B) s r p :
  m (ap_cpu s) = Ret (r, p) -> (cpu_do m ≫= f) s = f r (mkAp p (ap_apic s) (ap_flag s) (ap_printed s) (ap_scheduling s)).
Proof. intros H. apply bind_run. unfold cpu_do. by rewrite H. Qed.

Lemma apic_do_run {R B} (m : M (Xapic D) R) (f : R -> A B) s r x :
  m (ap_apic s) = Ret (r, x) -> (apic_do m ≫= f) s = f r (mkAp (ap_cpu s) x (ap_flag s) (ap_printed s) (ap_scheduling s)).
Proof. intros H. apply bind_run. unfold apic_do. by rewrite H. Qed.

(** What the controller's calls keep. *)
Definition apic_kept (m : M (Xapic D) unit) : Prop :=
  forall s, x_ptr s <> 0 -> exists s', m s = Ret (tt, s') /\ x_ptr s' = x_ptr s /\ apic_base s' = apic_base s.
Lemma write_kept i v : apic_kept (write i v).
Proof.
  intros s Hp. unfold write, xapic_ref, on_dev, vread, vwrite. run. rewrite (proj2 (Z.eqb_neq _ _) Hp). cbn.
  destruct (mmio_read ID _). by eexists.
Qed.
Lemma kept_bind m k : apic_kept m -> apic_kept k -> apic_kept (m;; k).
Proof.
  intros Hm Hk s Hs. destruct (Hm s Hs) as (s1 & E1 & H1 & B1). destruct (Hk s1) as (s2 & E2 & H2 & B2); [congruence|].
  exists s2. erewrite bind_run by exact E1. split; [done|]. split; congruence.
Qed.

Lemma xapic_init_run my (x : Xapic D) :
  (my = 0 \/ x_ptr x <> 0) -> uN 64 (apic_base x) -> KERNBASE + Z.lor (apic_base x) 0x800 < 2 ^ 64 ->
  exists x', Xapic.init my x = Ret (tt, x') /\ Z.testbit (apic_base x') 11 = true /\ x_ptr x' <> 0.
Proof.
  intros Hm Hb Hk. unfold init. rewrite bind_modify, bind_gets. cbn [id x_ptr apic_base].
  rewrite bind_assert; [|destruct Hm as [->|Hp]; [by destruct (x_ptr x =? 0)|rewrite (proj2 (Z.eqb_neq _ _) Hp); apply orb_true_r]].
  set (b := Z.lor _ 0x800) in *.
  assert (Hl : 0 <= Z.land b (lnotw 64 0xFFF) <= b).
  { assert (0 <= b) by (apply Z.lor_nonneg; unfold uN in Hb; lia). split; [apply Z.land_nonneg; by left|].
    apply Z.ldiff_le; [done|]. apply Z.bits_inj'. intros i Hi. rewrite Z.ldiff_spec, Z.land_spec, Z.bits_0. generalize (Z.testbit (lnotw 64 4095) i). intros []; by destruct (Z.testbit b i). }
  rewrite (bind_lift _ _ _ (KERNBASE + Z.land b (lnotw 64 0xFFF))) by (unfold add_ovf; by rewrite (proj2 (Z.ltb_lt _ _)) by lia).
  rewrite bind_modify. cbn [x_ptr apic_base x_dev]. set (x1 := mkXapic _ b _).
  assert (Hx1 : x_ptr x1 <> 0) by (cbn; unfold KERNBASE; lia).
  match goal with |- context [?m x1] => assert (K : apic_kept m) by (repeat first [exact (write_kept _ _)|apply kept_bind]) end.
  destruct (K x1 Hx1) as (x' & E & E1 & E2). exists x'. split; [exact E|]. rewrite E2, E1. split; [|done].
  cbn [apic_base x1]. unfold b. rewrite Z.lor_spec. apply orb_true_r.
Qed.
Lemma load_syscall_msrs_run enter p : uN 64 enter ->
  exists p', load_syscall_msrs enter p = Ret (tt, p') /\
    (p_msr p' MSR_LSTAR = enter /\ p_msr p' MSR_STAR = star /\ p_msr p' MSR_FMASK = sfmask) /\
    p_if p' = p_if p /\ p_gs p' = p_gs p /\ p_gdtr p' = p_gdtr p /\ p_idtr p' = p_idtr p /\ p_tr p' = p_tr p /\
    p_cs p' = p_cs p /\ p_cr3 p' = p_cr3 p /\ p_cpus p' = p_cpus p.
Proof.
  intros He. unfold load_syscall_msrs.
  erewrite bind_run by (by apply wrmsr_run). erewrite bind_run by (by apply wrmsr_run).
  rewrite wrmsr_run by done. eexists. split; [done|]. split_and!; reflexivity.
Qed.

(** Readiness depends on the registers it reads. *)
Lemma cpu_ready_ext page id p p' :
  p_gs p' = p_gs p -> p_gdtr p' = p_gdtr p -> p_tr p' = p_tr p -> p_cs p' = p_cs p -> p_cpus p' = p_cpus p ->
  cpu_ready page id p -> cpu_ready page id p'.
Proof.
  intros E1 E2 E3 E4 E5 [(c & M1 & M2 & H) G1 G2]. split; [|by rewrite E1|by rewrite E2].
  exists c. rewrite E2, E3, E4. unfold mycpu, mycpu_addr, cpu_at in *.
  revert M1 M2. run. rewrite E1, E5. intros M1 M2.
  destruct (p_cpus p !! p_gs p) as [c0|]; [|done]. injection M2 as M2. rewrite M2 in M1 |- *.
  rewrite E5. destruct (p_cpus p !! page) as [c1|]; [|done]. injection M1 as ->. done.
Qed.

Lemma mpenter_run idt kpgtbl enter page id (s : Ap) :
  0 <= page -> page + PAGE_SIZE < 2 ^ 64 -> uN 64 idt -> uN 64 enter -> KERNBASE <= kpgtbl ->
  x_ptr (ap_apic s) <> 0 -> uN 64 (apic_base (ap_apic s)) -> KERNBASE + Z.lor (apic_base (ap_apic s)) 0x800 < 2 ^ 64 ->
  exists s', mpenter idt kpgtbl enter page id s = (mpmain id) s' /\ ap_ready idt kpgtbl enter page id s' /\
    ap_flag s' = ap_flag s /\ ap_printed s' = ap_printed s.
Proof.
  intros H0 H1 Hi He Hk Hx Hb Hov. unfold mpenter.
  destruct (CPU_init_ready page id (ap_cpu s) H0 H1) as (p1 & E1 & R1 & _).
  rewrite (cpu_do_run _ _ _ _ _ E1). unfold trap_init, lidt.
  rewrite (cpu_do_run _ _ _ tt (set_idtr (256 * 16 - 1, idt) p1)) by (cbn [ap_cpu]; by rewrite pseudo_desc_loads by (done || (unfold uN; lia))).
  set (p2 := set_idtr _ p1). unfold switch.
  erewrite cpu_do_run; [|cbn [ap_cpu]; rewrite (bind_lift _ _ _ (kpgtbl - KERNBASE)) by (unfold sub_ovf; by rewrite (proj2 (Z.leb_le _ _) Hk)); reflexivity].
  cbn [ap_apic ap_flag ap_printed ap_scheduling]. set (p3 := set_cr3 _ p2).
  assert (R3 : cpu_ready page id p3) by (by apply (cpu_ready_ext page id p1)).
  destruct (cr_mycpu _ _ _ R3) as (c & M1 & _ & Hid & _).
  rewrite (cpu_do_run _ _ _ id p3) by (cbn [ap_cpu]; unfold mycpu_id; rewrite (bind_run _ _ _ _ _ M1); by rewrite Hid).
  destruct (xapic_init_run id (ap_apic s) (or_intror Hx) Hb Hov) as (x' & Ex & X1 & X2).
  erewrite apic_do_run by exact Ex. cbn [ap_cpu ap_apic ap_flag ap_printed ap_scheduling].
  destruct (load_syscall_msrs_run enter p3 He) as (p4 & E4 & Hm & K1 & K2 & K3 & K4 & K5 & K6 & K7 & K8).
  erewrite cpu_do_run by exact E4. eexists. split; [reflexivity|]. split; [|done]. split; try done.
  by apply (cpu_ready_ext page id p3).
Qed.
End mpenter.

(** ** Properties *)


(** A started processor sets the flag the boot processor waits for only
    when it is ready: its structure is on its own page and found through GS,
    the task register selects, within the limit of the loaded table, a
    descriptor of the task state on that page, the interrupt table, the
    kernel's address space, the interrupt controller and the three system call
    registers are loaded; only then it prints, sets the flag and schedules. *)
Theorem mpenter_signals_when_ready {D} `{!Mmio Z D} idt kpgtbl enter page id (s : @Ap D) :
  0 <= page -> page + PAGE_SIZE < 2 ^ 64 -> uN 64 idt -> uN 64 enter -> KERNBASE <= kpgtbl ->
  x_ptr (ap_apic s) <> 0 -> uN 64 (apic_base (ap_apic s)) -> KERNBASE + Z.lor (apic_base (ap_apic s)) 0x800 < 2 ^ 64 ->
  exists s0 s', mpenter idt kpgtbl enter page id s = mpmain id s0 /\
    ap_flag s0 = ap_flag s /\ ap_ready idt kpgtbl enter page id s0 /\
    mpmain id s0 = Ret (tt, s') /\ ap_flag s' = true /\ ap_printed s' = ap_printed s ++ [id] /\ ap_scheduling s' = true /\
    ap_ready idt kpgtbl enter page id s'.
Proof.
  intros H0 H1 Hi He Hk Hx Hb Hov.
  destruct (mpenter_run idt kpgtbl enter page id s H0 H1 Hi He Hk Hx Hb Hov) as (s0 & E & R & F & Pr).
  exists s0. eexists. split; [exact E|]. split; [done|]. split; [done|]. split; [reflexivity|].
  split; [done|]. split; [cbn; by rewrite Pr|]. split; [done|]. destruct R. by split.
Qed.

(** Processor 0 starts processors 1 and 2, with two free pages, over a quiet
    controller; each answers at the second look. *)
Module SmpDemo.
#[global] Instance quiet : Mmio Z unit := {| mmio_read _ d := (0, d); mmio_write _ _ d := d |}.
Definition pg (a : Z) : Z := KERNBASE + a.
Definition heap : FreeList :=
  match free_pages [pg 0x2000; pg 0x1000] (mkFreeList None ∅) with Ret (_, f) => f | _ => mkFreeList None ∅ end.
Definition boot : @Boot unit := mkBoot heap page_clear (mkXapic 1 0xFEE00900 tt) [].
Definition up (h : list Event) (_ : Z) : bool :=
  match rev h with ESlept _ :: ESlept _ :: _ => true | _ => false end.
Lemma heap_ok : boot_ok boot [pg 0x1000; pg 0x2000].
Proof.
  split; [|split; [reflexivity|done]]. cbn [b_alloc boot]. unfold heap.
  destruct (free_pages_refines [pg 0x2000; pg 0x1000] (mkFreeList None ∅) []) as (f & E & H).
  - split; [constructor|constructor].
  - apply NoDup_cons. split; [|apply NoDup_singleton]. rewrite list_elem_of_singleton. vm_compute. discriminate.
  - intros p Hp. split; [apply not_elem_of_nil|]. unfold pg, KERNBASE, PAGE_SIZE in *.
    apply elem_of_cons in Hp as [->|Hp]; [by split|]. apply list_elem_of_singleton in Hp as ->. by split.
  - rewrite E. exact H.
Qed.
End SmpDemo.


Lemma mpenter_signals_when_ready_witness :
  exists s', mpenter 0xFFFF800000200000 0xFFFF800000300000 0xFFFF800000100000 (SmpDemo.pg 0x1000) 1
      (mkAp (mkProcessor false 0 (0, 0) (0, 0) 0 0 0 (fun _ => 0) [] ∅ 0) (mkXapic 1 0xFEE00900 tt) false [] false) = Ret (tt, s') /\
    ap_flag s' = true /\ ap_ready 0xFFFF800000200000 0xFFFF800000300000 0xFFFF800000100000 (SmpDemo.pg 0x1000) 1 s'.
Proof.
  destruct (mpenter_signals_when_ready 0xFFFF800000200000 0xFFFF800000300000 0xFFFF800000100000 (SmpDemo.pg 0x1000) 1
    (mkAp (mkProcessor false 0 (0, 0) (0, 0) 0 0 0 (fun _ => 0) [] ∅ 0) (mkXapic 1 0xFEE00900 tt) false [] false))
    as (s0 & s' & E & _ & _ & E' & Hf & _ & _ & Hr);
    [by vm_compute|by vm_compute|by split; vm_compute|by split; vm_compute|by vm_compute|by vm_compute|by split; vm_compute|by vm_compute|].
  exists s'. rewrite E. split; [exact E'|]. split; [exact Hf|exact Hr].
Defined.
