(* ===== verification/Xtask.v ===== *)
(** The build tool, [src/xtask/src/main.rs]: every subcommand as the commands
    it runs, where, with which arguments, and what it makes of their ends. *)
From stdpp Require Import base list gmap strings.
From Stdlib Require Import ZArith Lia Ascii.
From S2P Require Import Prelude.
#[local] Open Scope string_scope.
#[local] Open Scope list_scope.

Inductive Build := Debug | Release.
Definition dir (self : Build) : string := match self with Debug => "debug" | Release => "release" end.

(** ** Commands, as [std::process::Command] collects them

    A directory is the list of its components below the root. *)
Record Command := mkCommand { program : string; args : list string; current_dir : list string }.
Definition new_command (program : string) (dir : list string) : Command := mkCommand program [] dir.
Definition arg (a : string) (c : Command) : Command := mkCommand (program c) (args c ++ [a]) (current_dir c).
Definition with_args (l : list string) (c : Command) : Command := foldl (fun c a => arg a c) c l.
Definition add_build_arg (self : Build) (c : Command) : Command :=
  match self with Release => arg "--release" c | Debug => c end.

(** What running a command comes to: it could not be started, or it ended,
    successfully or not. *)
Inductive Ended := NotStarted (e : string) | Exited (success : bool).

(** ** Paths *)
Fixpoint ends_in_slash (s : string) : bool :=
  match s with
  | "" => false
  | String "/"%char "" => true
  | String _ s' => ends_in_slash s'
  end.
(** [PathBuf::push]. *)
Definition push (path p : string) : string :=
  match p with
  | String "/"%char _ => p
  | _ => if (match path with "" => true | _ => false end) || ends_in_slash path then path +:+ p else path +:+ "/" +:+ p
  end.
(** [&s[s.find('-').map(|p| p + 1).unwrap_or(0)..]]. *)
Fixpoint after_dash (s : string) : option string :=
  match s with
  | "" => None
  | String "-"%char s' => Some s'
  | String _ s' => after_dash s'
  end.
(** [Path::ancestors]: the path, its parent, and so on to the root. *)
Fixpoint ancestors (n : nat) (p : list string) : list (list string) :=
  match n with O => [[]] | S n' => p :: ancestors n' (take n' p) end.

Section xtask.
(** The environment, the file system, the directory of the tool's manifest,
    and how a command ends when the others have been run before it. *)
Context (env : string -> option string) (path_exists : string -> bool) (manifest_dir : list string).
Context (ends : list Command -> Command -> Ended).
Notation X := (M (list Command)).

Definition env_or (var default : string) : string := match env var with Some v => v | None => default end.
Definition cargo : string := env_or "CARGO" "cargo".
Definition objcopy : string :=
  let toolchain := env_or "RUSTUP_TOOLCHAIN" "nightly-x86_64-unknown-none" in
  let host := match after_dash toolchain with Some h => h | None => toolchain end in
  let path := foldl push (env_or "RUSTUP_HOME" "") ["toolchains"; toolchain; "lib"; "rustlib"; host; "bin"; "llvm-objcopy"] in
  env_or "OBJCOPY" (if path_exists path then path else "llvm-objcopy").
Definition qemu_system_x86_64 : string := env_or "QEMU" "qemu-system-x86_64".
Definition ktarget : string := env_or "TARGET" "x86_64-unknown-none-elf".
Definition utarget : string := env_or "UTARGET" "x86_64-unknown-rxv64-elf".

Definition workspace : X (list string) :=
  expect (ancestors (length manifest_dir) manifest_dir !! 1%nat) "called `Option::unwrap()` on a `None` value".

(** [cmd.status()?], and the error if the command did not succeed. *)
Definition status (c : Command) : X (result bool) :=
  before ← gets id;
  modify (fun h => h ++ [c]);;
  mret (match ends before c with NotStarted e => Err e | Exited b => Ok b end).
Definition succeed (c : Command) (msg : string) : X (result unit) :=
  ok <-? status c;;
  if negb ok then mret (Err msg) else mret (Ok tt).

Definition build_std : list string := ["-Z"; "build-std=core"; "-Z"; "json-target-spec"].

Definition kbuild (profile : Build) : X (result unit) :=
  ws ← workspace;
  let cmd := with_args (["build"; "--workspace"; "--exclude"; "xtask"; "--exclude"; "ulib"] ++ build_std ++
    ["--target"; "lib/" +:+ ktarget +:+ ".json"]) (new_command cargo ws) in
  succeed (add_build_arg profile cmd) "build kernel failed".

Definition ubuild (profile : Build) : X (result unit) :=
  ws ← workspace;
  let cmd := with_args (["build"; "--workspace"; "--exclude"; "xtask"; "--exclude"; "kernel"] ++ build_std ++
    ["--target"; "lib/" +:+ utarget +:+ ".json"]) (new_command cargo ws) in
  succeed (add_build_arg profile cmd) "build kernel failed".

Definition build (profile : Build) : X (result unit) :=
  _ <-? kbuild profile;;
  _ <-? ubuild profile;;
  mret (Ok tt).

Definition expand (profile : Build) : X (result unit) :=
  ws ← workspace;
  let subdir := ws ++ ["kernel"] in
  let cmd := with_args (["rustc"] ++ build_std ++ ["--target"; "../lib/" +:+ ktarget +:+ ".json"; "--"; "--pretty=expanded"])
    (new_command cargo subdir) in
  succeed (add_build_arg profile cmd) "build kernel failed".

Definition kasm (profile : Build) : X (result unit) :=
  ws ← workspace;
  let cmd := with_args (["build"; "--workspace"; "--exclude"; "xtask"; "--exclude"; "ulib"; "--exclude"; "syslib"] ++ build_std ++
    ["--target"; "lib/" +:+ utarget +:+ ".json"; "--"; "--emit"; "asm"]) (new_command cargo ws) in
  succeed (add_build_arg profile cmd) "build kernel failed".

Definition in_target (profile : Build) (file : string) : string :=
  "target/" +:+ ktarget +:+ "/" +:+ dir profile +:+ "/" +:+ file.

Definition dist (profile : Build) : X (result unit) :=
  _ <-? build profile;;
  ws ← workspace;
  succeed (with_args ["--input-target=elf64-x86-64"; "--output-target=elf32-i386"; in_target profile "kernel";
    in_target profile "rxv64.elf32"] (new_command objcopy ws)) "objcopy failed".

Definition test (profile : Build) : X (result unit) :=
  ws ← workspace;
  succeed (add_build_arg profile (with_args ["test"] (new_command cargo ws))) "test failed".

Definition clippy (profile : Build) : X (result unit) :=
  ws ← workspace;
  succeed (add_build_arg profile (with_args ["clippy"; "--workspace"; "--exclude"; "xtask"] (new_command cargo ws)))
    "build kernel failed".

Definition drive_args : list string :=
  ["-smp"; "8"; "-m"; "8192"; "-device"; "ahci,id=ahci0"; "-drive"; "id=sdahci0,file=sdahci0.img,if=none,format=raw";
   "-device"; "ide-hd,drive=sdahci0,bus=ahci0.0"].

Definition run : X (result unit) :=
  let profile := Release in
  _ <-? dist profile;;
  ws ← workspace;
  succeed (with_args (["-s"; "-M"; "q35"; "-cpu"; "qemu64,pdpe1gb,xsaveopt,fsgsbase,apic,msr"] ++ drive_args ++
    ["-kernel"; in_target profile "rxv64.elf32"]) (new_command qemu_system_x86_64 ws)) "qemu failed".

Definition accelrun : X (result unit) :=
  let profile := Release in
  _ <-? dist profile;;
  ws ← workspace;
  succeed (with_args (["-display"; "curses"; "-accel"; "kvm"; "-M"; "q35"; "-cpu"; "host,pdpe1gb,xsaveopt,fsgsbase,apic,msr"] ++
    drive_args ++ ["-kernel"; in_target profile "rxv64.elf32"]) (new_command qemu_system_x86_64 ws)) "qemu failed".

Definition clean : X (result unit) :=
  ws ← workspace;
  succeed (with_args ["clean"] (new_command cargo ws)) "clean failed".

(** ** [main], from the subcommand and the flags the command line has *)
Definition build_type (flags : list string) : Build :=
  if bool_decide ("release" ∈ flags) then Release else Debug.

Definition subcommand (matches : option (string * list string)) : X (result unit) :=
  match matches with
  | Some (name, m) =>
    match name with
    | "build" => build (build_type m)
    | "expand" => expand (build_type m)
    | "kasm" => kasm (build_type m)
    | "dist" => dist (build_type m)
    | "test" => test (build_type m)
    | "clippy" => clippy (build_type m)
    | "run" => run
    | "accelrun" => accelrun
    | "clean" => clean
    | _ => mret (Err "bad subcommand")
    end
  | None => mret (Err "bad subcommand")
  end.

(** The exit status of the tool. *)
Definition main (matches : option (string * list string)) : X Z :=
  r ← subcommand matches;
  mret (match r with Ok _ => 0 | Err _ => 1 end)%Z.

(** ** What a subcommand comes to *)

(** The commands from position [k] on ended successfully, each with those
    before it run. *)
Definition all_ok (k : nat) (h : list Command) : Prop :=
  forall i c, (k <= i)%nat -> h !! i = Some c -> ends (take i h) c = Exited true.

(** Started after [h], [m] runs the commands [cs] in order, up to and including
    the first that does not succeed; its result is [Ok] if all did. *)
Definition obeys (cs : list Command) (m : X (result unit)) : Prop :=
  forall h, exists r h', m h = Ret (r, h') /\
    match r with
    | Ok _ => h' = h ++ cs /\ all_ok (length h) h'
    | Err _ => exists k c, cs !! k = Some c /\ h' = h ++ take k cs ++ [c] /\
        all_ok (length h) (h ++ take k cs) /\ ends (h ++ take k cs) c <> Exited true
    end.

Lemma all_ok_snoc k h c : all_ok k h -> ends h c = Exited true -> all_ok k (h ++ [c]).
Proof.
  intros Hh Hc i x Hi Hx. destruct (decide (i < length h)%nat) as [Hlt|Hge].
  - rewrite lookup_app_l in Hx by done. rewrite take_app_le by lia. by apply Hh.
  - apply lookup_snoc_Some in Hx as [[? _]|[-> ->]]; [lia|]. by rewrite take_app_length.
Qed.

Lemma all_ok_app k h cs : (k <= length h)%nat -> all_ok k h -> all_ok (length h) (h ++ cs) -> all_ok k (h ++ cs).
Proof.
  intros Hk Hh Hcs i x Hi Hx. destruct (decide (i < length h)%nat) as [Hlt|Hge]; [|apply Hcs; [lia|done]].
  rewrite lookup_app_l in Hx by done. rewrite take_app_le by lia. by apply Hh.
Qed.

Lemma obeys_succeed c msg : obeys [c] (succeed c msg).
Proof.
  intros h. unfold succeed, status. run. unfold id.
  destruct (ends h c) as [e|[]] eqn:E; cbn; eexists _, _; (split; [reflexivity|]); cbn.
  - exists 0%nat, c. split; [done|]. split; [done|]. cbn. rewrite app_nil_r. split; [|congruence].
    intros i x Hi Hx. apply lookup_lt_Some in Hx. lia.
  - split; [done|]. apply all_ok_snoc; [|done]. intros i x Hi Hx. apply lookup_lt_Some in Hx. lia.
  - exists 0%nat, c. split; [done|]. split; [done|]. cbn. rewrite app_nil_r. split; [|congruence].
    intros i x Hi Hx. apply lookup_lt_Some in Hx. lia.
Qed.

Lemma obeys_try cs1 cs2 m1 m2 : obeys cs1 m1 -> obeys cs2 m2 -> obeys (cs1 ++ cs2) (_ <-? m1;; m2).
Proof.
  intros H1 H2 h. destruct (H1 h) as ([[]|e] & h1 & E1 & P1).
  - destruct P1 as [-> A1]. destruct (H2 (h ++ cs1)) as ([[]|e] & h2 & E2 & P2); eexists _, _;
      (split; [by rewrite (try_run _ _ _ _ _ E1)|]); cbn.
    + destruct P2 as [-> A2]. rewrite app_assoc. split; [done|].
      apply all_ok_app; [rewrite length_app; lia|done|done].
    + destruct P2 as (k & c & Hk & -> & A2 & Hc). exists (length cs1 + k)%nat, c.
      rewrite lookup_app_r by lia. replace (length cs1 + k - length cs1)%nat with k by lia.
      rewrite take_app_add. split; [done|]. rewrite !app_assoc. split; [done|].
      split; [|done]. apply all_ok_app; [rewrite length_app; lia|done|]. done.
  - eexists _, _. split; [by rewrite (try_err _ _ _ _ _ E1)|]. cbn. destruct P1 as (k & c & Hk & -> & A1 & Hc).
    exists k, c. pose proof (lookup_lt_Some _ _ _ Hk). rewrite lookup_app_l, take_app_le by (done || lia). done.
Qed.
(** ** Every subcommand *)
Context (manifest_nonempty : manifest_dir <> []).
Definition workspace_dir : list string := take (length manifest_dir - 1) manifest_dir.

Lemma workspace_run {B} (f : list string -> X B) h : (workspace ≫= f) h = f workspace_dir h.
Proof.
  apply bind_run. unfold workspace, workspace_dir. destruct manifest_dir as [|a l]; [done|].
  replace (length (a :: l) - 1)%nat with (length l) by (cbn; lia). by destruct l.
Qed.

Lemma obeys_ext cs m m' : (forall h, m h = m' h) -> obeys cs m' -> obeys cs m.
Proof. intros He Ho h. rewrite He. apply Ho. Qed.

Lemma obeys_workspace (f : list string -> X (result unit)) cs : obeys cs (f workspace_dir) -> obeys cs (ws ← workspace; f ws).
Proof. apply obeys_ext. intros h. apply workspace_run. Qed.

Lemma obeys_done cs m : obeys cs m -> obeys cs (_ <-? m;; mret (Ok tt)).
Proof.
  apply obeys_ext. intros h. unfold try_. run. destruct (m h) as [[[[]|e] h']| |]; reflexivity.
Qed.

Lemma build_obeys profile :
  exists k u, obeys [k; u] (build profile) /\ current_dir k = workspace_dir /\
    args k = ["build"; "--workspace"; "--exclude"; "xtask"; "--exclude"; "ulib"; "-Z"; "build-std=core"; "-Z"; "json-target-spec";
      "--target"; "lib/" +:+ ktarget +:+ ".json"] ++ match profile with Release => ["--release"] | Debug => [] end.
Proof.
  eexists _, _. split.
  - eapply (obeys_try [_] [_]); [apply obeys_workspace, obeys_succeed|]. apply obeys_done, obeys_workspace, obeys_succeed.
  - destruct profile; split; reflexivity.
Qed.
(** The argument after a flag. *)
Fixpoint flag_value (flag : string) (l : list string) : option string :=
  match l with
  | a :: (b :: _) as l' => if bool_decide (a = flag) then Some b else flag_value flag l'
  | _ => None
  end.

Lemma dist_obeys profile :
  exists k u o, obeys [k; u; o] (dist profile) /\
    (current_dir k = workspace_dir /\ current_dir o = workspace_dir) /\
    flag_value "--target" (args k) = Some ("lib/" +:+ ktarget +:+ ".json") /\
    ("--release" ∈ args k <-> profile = Release) /\
    drop 2 (args o) = [in_target profile "kernel"; in_target profile "rxv64.elf32"].
Proof.
  destruct (build_obeys profile) as (k & u & Ho & Hd & Ha). eexists k, u, _. split.
  - eapply (obeys_try [k; u] [_]); [exact Ho|]. apply obeys_workspace, obeys_succeed.
  - split; [done|]. rewrite Ha. split; [by destruct profile|]. split; [|reflexivity].
    split; [|intros ->; set_solver]. destruct profile; [|done]. cbn [app]. intros Hin. exfalso.
    unfold ktarget in Hin. repeat (apply elem_of_cons in Hin as [Hin|Hin]; [discriminate Hin|]). by apply not_elem_of_nil in Hin.
Qed.

Definition names : list string :=
  ["build"; "expand"; "kasm"; "dist"; "test"; "clippy"; "run"; "accelrun"; "clean"].

Lemma run_obeys (accel : bool) :
  exists k u o q, obeys [k; u; o; q] (if accel then accelrun else run) /\
    (current_dir k = workspace_dir /\ current_dir o = workspace_dir /\ current_dir q = workspace_dir) /\
    (flag_value "--target" (args k) = Some ("lib/" +:+ ktarget +:+ ".json") /\ "--release" ∈ args k) /\
    exists image, drop 2 (args o) = ["target/" +:+ ktarget +:+ "/release/kernel"; image] /\
      flag_value "-kernel" (args q) = Some image.
Proof.
  destruct (dist_obeys Release) as (k & u & o & Ho & (D1 & D2) & Ht & Hr & Ha).
  destruct accel; eexists k, u, o, _; (split; [eapply (obeys_try [k; u; o] [_]); [exact Ho|]; apply obeys_workspace, obeys_succeed|]);
    (split; [done|]); (split; [split; [done|by apply Hr]|]);
    eexists; (split; [exact Ha|reflexivity]).
Qed.
Lemma subcommand_obeys name m :
  name ∈ names -> exists cs, cs <> [] /\ obeys cs (subcommand (Some (name, m))).
Proof.
  assert (H1 : forall c msg, exists cs, cs <> [] /\ obeys cs (succeed c msg)).
  { intros c msg. exists [c]. split; [done|apply obeys_succeed]. }
  assert (Hw : forall f : list string -> X (result unit),
    (exists cs, cs <> [] /\ obeys cs (f workspace_dir)) -> exists cs, cs <> [] /\ obeys cs (ws ← workspace; f ws)).
  { intros f (cs & ? & ?). exists cs. split; [done|]. by apply obeys_workspace. }
  intros Hin. unfold names in Hin.
  repeat (apply elem_of_cons in Hin as [->|Hin]); [..|by apply not_elem_of_nil in Hin]; cbn [subcommand].
  - destruct (build_obeys (build_type m)) as (k & u & Ho & _). by exists [k; u].
  - by apply Hw.
  - by apply Hw.
  - destruct (dist_obeys (build_type m)) as (k & u & o & Ho & _). by exists [k; u; o].
  - by apply Hw.
  - by apply Hw.
  - destruct (run_obeys false) as (k & u & o & q & Ho & _). by exists [k; u; o; q].
  - destruct (run_obeys true) as (k & u & o & q & Ho & _). by exists [k; u; o; q].
  - by apply Hw.
Qed.

(** Whatever the environment and whatever becomes of the commands, each
    subcommand runs its commands in order and none after one that did not
    succeed, and the tool exits with 0 exactly if all of them did.  [run] and
    [accelrun] build the kernel for its target in release mode, build the user
    library, convert the kernel file of that target and mode, and start the
    emulator on the very file the conversion wrote. *)
Theorem xtask_boots_what_it_built :
  (forall name m h, name ∈ names -> exists cs code h',
     cs <> [] /\ main (Some (name, m)) h = Ret (code, h') /\
     (code = 0%Z -> h' = h ++ cs /\ all_ok (length h) h') /\
     (code <> 0%Z -> exists k c, cs !! k = Some c /\ h' = h ++ take k cs ++ [c] /\
        all_ok (length h) (h ++ take k cs) /\ ends (h ++ take k cs) c <> Exited true)) /\
  (forall accel : bool, exists k u o q, obeys [k; u; o; q] (if accel then accelrun else run) /\
    (current_dir k = workspace_dir /\ current_dir o = workspace_dir /\ current_dir q = workspace_dir) /\
    (flag_value "--target" (args k) = Some ("lib/" +:+ ktarget +:+ ".json") /\ "--release" ∈ args k) /\
    exists image, drop 2 (args o) = ["target/" +:+ ktarget +:+ "/release/kernel"; image] /\
      flag_value "-kernel" (args q) = Some image).
Proof.
  split; [|exact run_obeys]. intros name m h Hin. destruct (subcommand_obeys name m Hin) as (cs & Hne & Ho).
  destruct (Ho h) as ([[]|e] & h' & E & P); eexists cs, _, h'; (split; [done|]); unfold main;
    erewrite bind_run by exact E; (split; [reflexivity|]); split; done || auto.
Qed.
End xtask.

(** The emulator does not start when the conversion fails. *)
Module XtaskDemo.
Definition ends (h : list Command) (c : Command) : Ended :=
  if bool_decide (program c = "llvm-objcopy") then Exited false else Exited true.
Definition env (_ : string) : option string := None.
Definition manifest : list string := ["home"; "rxv64"; "xtask"].
End XtaskDemo.

Lemma xtask_boots_what_it_built_witness :
  exists h, main XtaskDemo.env (fun _ => false) XtaskDemo.manifest XtaskDemo.ends (Some ("run", [])) [] = Ret (1%Z, h) /\
    (program <$> h) = ["cargo"; "cargo"; "llvm-objcopy"] /\ (exists cs k c, cs !! k = Some c /\ h = take k cs ++ [c]).
Proof.
  assert (Hne : XtaskDemo.manifest <> []) by discriminate.
  destruct (proj1 (xtask_boots_what_it_built XtaskDemo.env (fun _ => false) XtaskDemo.manifest XtaskDemo.ends Hne) "run" [] []
    ltac:(unfold names; set_solver)) as (cs & code & h' & _ & E & _ & Hf).
  vm_compute in E. injection E as <- <-. eexists. split; [vm_compute; reflexivity|]. split; [reflexivity|].
  destruct (Hf ltac:(discriminate)) as (k & c & Hk & Hh & _). exists cs, k, c. split; [exact Hk|exact Hh].
Defined.
