(* ===== verification/Initcode.v ===== *)
(** The first program, [initcode.rs], on its page ([make_init_user_page] of
    proc.rs): it executes [/init]. *)
From stdpp Require Import base list gmap strings.
From Stdlib Require Import ZArith Lia.
From S2P Require Import Prelude.
From S2P Require Import Arch.
From S2P Require Import Kalloc.
From S2P Require Import Proc.
From S2P Require Import Machine.
From S2P Require Import Entry.
From S2P Require Import SyscallPath.

Section initcode.
(** The bytes the assembler makes of the instructions, and those it fills in
    before the string and before the vector. *)
Context {PT : Type} (code fill1 fill2 : list Z).

Definition EXEC : Z := 7.
Definition EXIT : Z := 2.

(** ** The image: [init] and [argv] with the offsets of their labels *)
Definition init_string : list Z := [47; 105; 110; 105; 116; 0; 0].
Definition init_label : Z := zlen (code ++ fill1).
Definition argv_label : Z := zlen ((code ++ fill1) ++ init_string ++ fill2).
Definition argv_words : list Z := le_bytes 8 init_label ++ le_bytes 8 0.
Definition image : list Z := ((code ++ fill1) ++ init_string ++ fill2) ++ argv_words.
Definition start_init_len : Z := zlen image.

(** The instructions: the call of [exec], and one turn of the loop after it. *)
Definition start_init : list Instr :=
  [Movq (Imm EXEC) (Rg RAX); Movq (Imm init_label) (Rg RDI); Movq (Imm argv_label) (Rg RSI); Syscall].
Definition start_init_loop : list Instr := [Movq (Imm EXIT) (Rg RAX); Syscall].

Definition start_init_slice {S} : M S (list Z) :=
  assert_ (start_init_len <? 200) "assertion failed: len < 200";;
  mret image.

(** [&mut page[..len]] panics beyond the page. *)
Definition make_init_user_page (init_code : list Z) : M FreeList Z :=
  o ← Kalloc.alloc;
  page ← expect o "init user alloc failed";
  let len := zlen init_code in
  assert_ (len <=? PAGE_SIZE) "range end index out of range";;
  modify (fun fl => mkFreeList (Kalloc.next fl) (alter (fun pg => zsplice pg 0 init_code) page (pages fl)));;
  mret page.

(** ** What the page holds *)
Definition page_mem (pg : list Z) (x : Z) : Z := default 0 pg.[x].

Lemma zsplice_image pg i : zlen pg = PAGE_SIZE -> zlen image <= PAGE_SIZE -> 0 <= i < zlen image ->
  page_mem (zsplice pg 0 image) i = page_mem image i.
Proof. intros Hp Hl Hi. unfold page_mem. rewrite znth_zsplice_in by lia. by rewrite Z.sub_0_r. Qed.

Lemma page_mem_l l1 l2 i : 0 <= i < zlen l1 -> page_mem (l1 ++ l2) i = page_mem l1 i.
Proof. intros Hi. unfold page_mem. by rewrite znth_app_l by lia. Qed.
Lemma page_mem_r l1 l2 i : 0 <= i -> page_mem (l1 ++ l2) (zlen l1 + i) = page_mem l2 i.
Proof. intros Hi. unfold page_mem. rewrite znth_app_r by lia. do 2 f_equal. lia. Qed.

Lemma image_string i : 0 <= i < 7 -> page_mem image (init_label + i) = page_mem init_string i.
Proof.
  intros Hi. unfold image, init_label. assert (zlen init_string = 7) as Hl by done.
  pose proof (zlen_nonneg (code ++ fill1)). pose proof (zlen_nonneg fill2).
  rewrite page_mem_l by (rewrite !zlen_app in *; lia). rewrite page_mem_r by lia. by apply page_mem_l; lia.
Qed.

Lemma image_argv i : 0 <= i < 16 -> page_mem image (argv_label + i) = page_mem argv_words i.
Proof. intros Hi. unfold image, argv_label. by rewrite page_mem_r by lia. Qed.

Lemma image_len : start_init_len = argv_label + 16 /\ init_label + 7 <= argv_label /\ 0 <= init_label.
Proof.
  unfold start_init_len, image, argv_label, init_label, argv_words. rewrite !zlen_app, !zlen_le_bytes.
  pose proof (zlen_nonneg code). pose proof (zlen_nonneg fill1). pose proof (zlen_nonneg fill2). change (zlen init_string) with 7. lia.
Qed.

Lemma mem_words (l : list Z) (m : Z -> Z) a : (forall i, 0 <= i < zlen l -> m (a + i) = page_mem l i) ->
  (fun k => m (a + k)) <$> zrange 0 (zlen l) = l.
Proof.
  intros Hm. pose proof (zlen_nonneg l). apply list_eq. intros i. rewrite list_lookup_fmap. unfold zrange, step_range.
  destruct (Z.ltb_spec 0 (zlen l)) as [Hl|Hl].
  - rewrite list_lookup_fmap. replace (Z.to_nat _) with (length l) by (unfold zlen in *; rewrite Z.div_1_r; lia).
    destruct (decide (i < length l)%nat) as [Hi|Hi].
    + rewrite lookup_seq_lt by done. cbn. replace (a + (0 + Z.of_nat i * 1)) with (a + Z.of_nat i) by lia.
      rewrite Hm by (unfold zlen; lia). unfold page_mem. rewrite znth_of_nat.
      destruct (l !! i) eqn:E; [done|]. apply lookup_ge_None in E. lia.
    + rewrite lookup_seq_ge by lia. symmetry. apply lookup_ge_None. lia.
  - destruct l; [done|]. rewrite zlen_cons in Hl. pose proof (zlen_nonneg l). lia.
Qed.
Lemma fetch_word (p : @Proc.Proc PT) m a v : psize p = PAGE_SIZE -> 0 <= a -> a + 8 <= PAGE_SIZE -> uN 64 v ->
  (forall i, 0 <= i < 8 -> m (a + i) = page_mem (le_bytes 8 v) i) -> Proc.fetch_usize p m a = Some v.
Proof.
  intros Hp Ha Hl Hv Hm. unfold Proc.fetch_usize, user_region_end, is_user_addr. rewrite Hp.
  rewrite (proj2 (Z.ltb_lt a PAGE_SIZE)) by lia. cbn [orb]. rewrite (proj2 (Z.ltb_ge _ _)) by lia.
  pose proof (zlen_le_bytes 8 v) as H8. change (Z.of_nat 8) with 8 in H8.
  f_equal. rewrite <-H8. rewrite mem_words by (by rewrite H8). by apply from_le_le_bytes.
Qed.

Lemma zrange_first n k : 0 <= k <= n -> exists r, zrange 0 n = zrange 0 k ++ r.
Proof.
  intros Hk. unfold zrange, step_range. destruct (Z.ltb_spec 0 k); [|by eexists]. rewrite (proj2 (Z.ltb_lt 0 n)) by lia.
  replace (Z.to_nat ((n - 0 + 1 - 1) / 1)) with (Z.to_nat ((k - 0 + 1 - 1) / 1) + Z.to_nat (n - k))%nat by (rewrite !Z.div_1_r; lia).
  rewrite seq_app, fmap_app. by eexists.
Qed.

Lemma fetch_init (p : @Proc.Proc PT) m a : psize p = PAGE_SIZE -> 0 <= a -> a + 7 <= PAGE_SIZE ->
  (forall i, 0 <= i < 7 -> m (a + i) = page_mem init_string i) -> Proc.fetch_str p m a = Some (take 5 init_string).
Proof.
  intros Hp Ha Hl Hm. unfold Proc.fetch_str, user_region_end, is_user_addr. rewrite Hp.
  rewrite (proj2 (Z.ltb_lt a PAGE_SIZE)) by lia. cbn [orb].
  destruct (zrange_first (PAGE_SIZE - a) (zlen init_string)) as (r & ->); [change (zlen init_string) with 7; lia|].
  rewrite fmap_app, mem_words by done. reflexivity.
Qed.

(** The system call the first program makes, from any state of user mode with
    its page as memory: the number of [exec], the path [/init], and a vector
    of the same string and a null pointer, as [exec] fetches them. *)
Theorem first_program_execs_init call (s : CPUState) (p : @Proc.Proc PT) fl a l :
  start_init_len < 200 -> psize p = PAGE_SIZE -> fl_rep fl (a :: l) ->
  exists fl' pg, (code ← start_init_slice; make_init_user_page code) fl = Ret (a, fl') /\ pages fl' !! a = Some pg /\
    exists s1, exec call start_init None s = Ret (None, s1) /\
      regs s1 RAX = EXEC /\ rip s1 = msr s LSTAR /\
      Proc.fetch_str p (page_mem pg) (regs s1 RDI) = Some (take 5 init_string) /\
      Proc.fetch_usize p (page_mem pg) (regs s1 RSI) = Some (regs s1 RDI) /\
      Proc.fetch_usize p (page_mem pg) (regs s1 RSI + 8) = Some 0.
Proof.
  intros Hlen Hp Hf. destruct image_len as (HL & Hi & Hi0). pose proof (get_refines _ _ Hf) as (fl1 & Ea & Hf1 & Hpg & _).
  assert (Himg : zlen image < 200) by exact Hlen.
  exists (mkFreeList (Kalloc.next fl1) (alter (fun pg => zsplice pg 0 image) a (pages fl1))), (zsplice page_clear 0 image).
  split; [|split].
  - unfold start_init_slice. erewrite bind_run; [|rewrite bind_assert by (by apply Z.ltb_lt); reflexivity].
    unfold make_init_user_page, Kalloc.alloc. rewrite (bind_run _ _ _ _ _ Ea). cbn [expect]. rewrite bind_mret.
    rewrite bind_assert by (apply Z.leb_le; unfold PAGE_SIZE; lia). done.
  - cbn [pages]. by rewrite lookup_alter_eq, Hpg.
  - assert (Hpl : zlen page_clear = PAGE_SIZE) by (apply zlen_rep; unfold PAGE_SIZE; lia).
    assert (Hm : forall i, 0 <= i < zlen image -> page_mem (zsplice page_clear 0 image) i = page_mem image i).
    { intros i Hx. apply zsplice_image; [done|unfold PAGE_SIZE; lia|done]. }
    fold start_init_len in Hm. assert (PAGE_SIZE = 4096) as HP by done.
    pose proof (zlen_le_bytes 8 init_label) as H8. change (Z.of_nat 8) with 8 in H8.
    eexists. split; [reflexivity|]. split; [reflexivity|]. split; [reflexivity|].
    change (regs _ RDI) with init_label. change (regs _ RSI) with argv_label. split; [|split].
    + apply fetch_init; [done|lia|lia|]. intros i Hx. rewrite Hm by lia. by apply image_string.
    + apply fetch_word; [done|lia|lia|unfold uN; lia|]. intros i Hx. rewrite Hm, image_argv by lia.
      unfold argv_words. by apply page_mem_l; lia.
    + apply fetch_word; [done|lia|lia|unfold uN; lia|]. intros i Hx. rewrite Hm by lia.
      rewrite <-Z.add_assoc, image_argv by lia. unfold argv_words. rewrite <-H8 at 1. by rewrite page_mem_r by lia.
Qed.
End initcode.
