(* ===== verification/SysTrap.v ===== *)
(** A fault in user mode, on the whole system: the process is killed and leaves
    by [exit], which closes its files and puts back its directory. *)
From stdpp Require Import base list gmap strings.
From Stdlib Require Import ZArith Lia.
From S2P Require Import Prelude.
From S2P Require Import Arch.
From S2P Require Import BlockLayer.
From S2P Require Import Bio.
From S2P Require Import Sleeplock.
From S2P Require Import Fslog.
From S2P Require Import FsLayout.
From S2P Require Import Fs.
From S2P Require Import FsSpec.
From S2P Require Import FsDir.
From S2P Require Import FsFile.
From S2P Require Import Icache.
From S2P Require Import FsFree.
From S2P Require Import FsPath.
From S2P Require Import Kalloc.
From S2P Require Import Vm.
From S2P Require Import Pipe.
From S2P Require Import FileTable.
From S2P Require Import Proc.
From S2P Require Import ProcSpec.
From S2P Require Import Trap.
From S2P Require Import TrapSpec.
From S2P Require Import Sysfile.
From S2P Require Import SysfileSpec.
From S2P Require Import SysfileError.

Section spec.
Context {S : Type} `{BlockOps S}.
Context (proc_addr : Z -> Z) (tickchan SLAB_NPIPES : Z) (read_chan write_chan : Z -> Z -> Z).
Hypothesis addr_inj : forall j k, proc_addr j = proc_addr k -> j = k.
Notation Sys := (Sys (S := S)).
Notation T := (M Sys).
Notation good_table := (ProcSpec.good proc_addr).
Notation exit := (Sysfile.exit proc_addr SLAB_NPIPES read_chan write_chan).

(** ** What closing files does to the processes: it may wake some *)
Definition calm_step (s s' : Sys) : Prop :=
  TICKS s' = TICKS s /\ init_slot (tr_tab s') = init_slot (tr_tab s) /\
  (good_table (tr_tab s) -> good_table (tr_tab s')) /\ forall j, running (tr_tab s') j <-> running (tr_tab s) j.
Definition calm {A} (m : T A) : Prop := forall s a s', m s = Ret (a, s') -> calm_step s s'.

Lemma calm_step_refl s : calm_step s s.
Proof. by split_and!. Qed.
Lemma calm_step_trans s1 s2 s3 : calm_step s1 s2 -> calm_step s2 s3 -> calm_step s1 s3.
Proof.
  intros (A1 & A2 & A3 & A4) (B1 & B2 & B3 & B4).
  split; [congruence|]. split; [congruence|]. split; [auto|]. intros j. by rewrite B4.
Qed.

Lemma calm_bind {A B} (m : T A) (f : A -> T B) : calm m -> (forall a, calm (f a)) -> calm (m ≫= f).
Proof. intros Hm Hf s b s' (a & s1 & E1 & E2)%bind_ret. eapply calm_step_trans; [by eapply Hm|by eapply Hf]. Qed.
Lemma calm_ret {A} (a : A) : calm (mret a).
Proof. intros s b s' [= _ <-]. apply calm_step_refl. Qed.
Lemma calm_expect {A} (o : option A) msg : calm (expect o msg).
Proof. intros s b s' ->%expect_ret. apply calm_step_refl. Qed.
Lemma calm_zoom {St A} (get : Sys -> St) (put : St -> Sys -> Sys) (m : M St A) :
  (forall x s, TICKS (put x s) = TICKS s /\ tr_tab (put x s) = tr_tab s) -> calm (zoom get put m).
Proof.
  intros Hp s a s' E. unfold zoom in E. destruct (m (get s)) as [[r x]| |]; [|done|done]. injection E as _ <-.
  destruct (Hp x s) as [Ht Htab]. unfold calm_step. rewrite Ht, Htab. by split_and!.
Qed.
Lemma calm_this me : calm (this me).
Proof. intros s p s' [_ ->]%this_ret. apply calm_step_refl. Qed.
Lemma calm_in_fs {A} me (m : M (Fs S) A) : calm (in_fs me m).
Proof. apply calm_bind; [apply calm_this|]. intros p. by apply calm_zoom. Qed.
Lemma calm_wake chan : calm (wake chan).
Proof.
  intros s a s' E. unfold wake in E. injection E as _ <-. split; [done|]. split; [done|]. split.
  - intros Hg. eapply tame_good; [|exact Hg]. apply wakeup_tame, Hg.
  - intros j. by apply running_wakeup.
Qed.

#[local] Hint Resolve calm_ret calm_expect calm_in_fs calm_wake calm_this : calm.
Lemma calm_like_close me l : calm (like_close SLAB_NPIPES read_chan write_chan me l).
Proof.
  destruct l; cbn [like_close]; auto with calm.
  all: apply calm_bind; [by apply calm_zoom|]; intros closed.
  all: apply calm_bind; [auto with calm|]; intros _; destruct closed; [by apply calm_zoom|auto with calm].
Qed.
Lemma calm_file_close me f : calm (file_close SLAB_NPIPES read_chan write_chan me f).
Proof. apply calm_bind; [by apply calm_zoom|]. intros [l|]; [apply calm_like_close|auto with calm]. Qed.
Lemma calm_close_files me l : calm (close_files SLAB_NPIPES read_chan write_chan me l).
Proof.
  induction l as [|[f|] l IH]; cbn [close_files]; [auto with calm| |done].
  apply calm_bind; [apply calm_file_close|]. by intros _.
Qed.

(** What an [exit] that returns has done to the processes. *)
Definition exited (me status : Z) (s s' : Sys) : Prop :=
  TICKS s' = TICKS s /\ good_table (tr_tab s') /\ state <$> (procs (tr_tab s')).[me] = Some (ZOMBIE status) /\
  forall j, running (tr_tab s') j <-> j <> me /\ running (tr_tab s) j.

Lemma exit_ends me status s s' :
  exit me status s = Ret (tt, s') -> good_table (tr_tab s) -> running (tr_tab s) me -> exited me status s s'.
Proof.
  intros E Hg Hrun. unfold exit in E. rewrite bind_gets in E.
  apply bind_ret in E as (? & s1 & E1%assert_ret & E). subst s1.
  apply bind_ret in E as (? & s1 & E1 & E). assert (Hni : me <> init_slot (tr_tab s)).
  { intros ->. rewrite Z.eqb_refl in E1. done. }
  apply assert_ret in E1 as ->. apply bind_ret in E as (p & s1 & [Hp ->]%this_ret & E).
  apply bind_ret in E as (? & s1 & E1%calm_close_files & E).
  apply bind_ret in E as (? & s2 & E2%calm_in_fs & E). apply bind_ret in E as (r & s3 & E3 & [= <-]).
  destruct (calm_step_trans _ _ _ E1 E2) as (H1 & H2 & H3 & H4). apply on_tab_ret in E3 as (t & E3 & ->).
  specialize (H3 Hg). destruct (exit_runs proc_addr addr_inj (tr_tab s2) me status) as (r' & t' & E' & Hg' & Hz & _ & Hru);
    [done|by apply H4|apply (table_init_range proc_addr), H3|congruence|].
  rewrite E3 in E'. injection E' as _ <-. split; [done|]. split; [done|]. split; [done|].
  intros j. cbn [tr_tab]. by rewrite Hru, H4.
Qed.

(** ** An [exit] that has nothing to delete *)
Notation wfiles s := (w_files (tr_dev s)).
Notation wfs s := (w_fs (tr_dev s)).
Definition put_wfiles (F : list (@File Like)) (s : Sys) : Sys :=
  put_world (fun w => mkWorld F (w_mem w) (w_fs w) (w_slabs w) (w_cur w) (w_con w)) s.
Definition put_wfs (f : Fs S) (s : Sys) : Sys :=
  put_world (fun w => mkWorld (w_files w) (w_mem w) f (w_slabs w) (w_cur w) (w_con w)) s.
Definition drop_ref {L} (n : Z) (x : @File L) : @File L := mkFile (f_flags x) (f_fp x) (f_off x) (f_ref x - n).

Lemma close_shared me f x s :
  (wfiles s).[f] = Some x -> 1 < f_ref x ->
  file_close SLAB_NPIPES read_chan write_chan me f s = Ret (tt, put_wfiles (wfiles s).[f <- drop_ref 1 x] s).
Proof.
  intros Hf Hr. unfold file_close, in_files.
  assert (E : FileTable.close f (wfiles s) = Ret (None, (wfiles s).[f <- drop_ref 1 x])).
  { unfold FileTable.close. rewrite (bind_run _ _ _ _ _ (file_at_run _ _ _ Hf)), bind_assert by lia.
    rewrite (bind_run _ _ _ _ _ (upd_file_run _ _ _ _ Hf)). by rewrite (proj2 (Z.ltb_lt 0 (f_ref x - 1))) by lia. }
  erewrite bind_run by (apply (zoom_run (fun s => wfiles s)); exact E). done.
Qed.

(** Every file of [l] has more references than [l] has descriptors of it. *)
Definition shared (l : list (option Z)) (F : list (@File Like)) : Prop :=
  forall f, Some f ∈ l -> exists x, F.[f] = Some x /\ held f l < f_ref x.

Lemma close_files_shared me l s :
  shared l (wfiles s) ->
  exists F', close_files SLAB_NPIPES read_chan write_chan me l s = Ret (tt, put_wfiles F' s) /\
    forall f x, (wfiles s).[f] = Some x -> F'.[f] = Some (drop_ref (held f l) x).
Proof.
  revert s. induction l as [|[f|] l IH]; intros s Hs; cbn [close_files].
  - exists (wfiles s). split; [by destruct s as [? ? []]|]. intros f x ->. cbn. unfold drop_ref. rewrite Z.sub_0_r. by destruct x.
  - destruct (Hs f) as (x & Hx & Hr); [by left|]. cbn [held] in Hr. rewrite one_some, Z.eqb_refl in Hr.
    pose proof (held_nonneg f l). rewrite (bind_run _ _ _ _ _ (close_shared me f x s Hx ltac:(lia))).
    destruct (IH (put_wfiles (wfiles s).[f <- drop_ref 1 x] s)) as (F' & E & HF').
    + intros g Hg. destruct (decide (g = f)) as [->|Hne].
      * exists (drop_ref 1 x). split; [by eapply znth_set_eq|]. cbn. lia.
      * destruct (Hs g) as (y & Hy & Hry); [by right|]. cbn [held] in Hry. rewrite one_some in Hry.
        rewrite (proj2 (Z.eqb_neq g f)) in Hry by done. exists y. split; [|lia]. cbn. by rewrite znth_zset_ne.
    + exists F'. split; [exact E|]. intros g y Hy. cbn [held]. rewrite one_some.
      destruct (Z.eqb_spec g f) as [->|Hne].
      * rewrite (HF' f (drop_ref 1 x)) by (by eapply znth_set_eq). assert (y = x) as -> by congruence. unfold drop_ref. cbn. do 2 f_equal. lia.
      * rewrite (HF' g y) by (cbn; by rewrite znth_zset_ne). by rewrite Z.add_0_l.
  - destruct (IH s) as (F' & E & HF').
    + intros g Hg. destruct (Hs g) as (x & Hx & Hr); [by right|]. exists x. by split.
    + exists F'. split; [done|]. intros g x Hx. cbn [held]. by rewrite one_none, Z.add_0_l, (HF' _ _ Hx).
Qed.

(** The log can take an operation, and has nothing to write when idle. *)
Definition log_quiet (l : Logged S) : Prop :=
  op_ready_to_begin (lg l) (st l) = true /\ 0 <= outstanding (st l) /\ (outstanding (st l) = 0 -> Fslog.is_empty (lg l) = true).
(** Putting back a reference does not delete the inode. *)
Definition put_keeps (i : Inode) : Prop :=
  i_lock i = Sleeplock_new /\ 0 < i_ref i /\ i_valid i && (di_nlink (i_din i) =? 0) && (i_ref i =? 1) = false.

Lemma iput_keeps ip i (f : Fs S) :
  fs_me f <> 0 -> (fs_icache f).[ip] = Some i -> put_keeps i ->
  iput ip f = Ret (Ok tt, put_icache (fs_icache f).[ip <- set_ref (i_ref i - 1) i] f).
Proof.
  intros Hme Hi (Hl & Hr & Hk). pose proof (znth_range _ _ _ Hi) as Hip. unfold iput. rewrite bind_gets.
  rewrite (bind_run _ _ _ _ _ (inode_at_run _ _ _ Hi)).
  assert (El : Sleeplock_acquire (fs_me f) (i_lock i) = Ret (mkSleeplock true (fs_me f))) by (rewrite Hl; by apply acquire_free).
  rewrite (bind_lift _ _ _ _ El), (bind_run _ _ _ _ _ (upd_inode_run _ _ _ _ Hi)), Hk.
  set (f1 := put_icache _ f). set (i1 := set_ilock (mkSleeplock true (fs_me f)) i).
  assert (Hi1 : (fs_icache f1).[ip] = Some i1) by (by apply znth_zset_eq).
  change (try_ (mret (Ok tt)) ?g f1) with (g tt f1). cbn beta.
  rewrite (put_end_run f1 ip i1) by done.
  assert (set_ilock Sleeplock_new i1 = i) as -> by (destruct i; cbn in *; by rewrite Hl).
  unfold f1, put_icache. cbn. by rewrite zset_zset.
Qed.

(** [exit]'s transaction, when there is nothing to delete: no block is read or
    written. *)
Lemma put_quiet ip i (f : Fs S) :
  fs_me f <> 0 -> (fs_icache f).[ip] = Some i -> put_keeps i -> log_quiet (fs_log f) ->
  fs_with_op (expect_r (iput ip) "iput cwd") f = Ret (tt, put_icache (fs_icache f).[ip <- set_ref (i_ref i - 1) i] f).
Proof.
  intros Hme Hi Hk (Hready & Ho & Hidle). unfold fs_with_op.
  pose proof (andb_prop _ _ Hready) as [Hc%negb_true_iff _]. destruct f as [[b l [o c]] ic sbf me wd]. cbn [fs_log lg st committing outstanding fs_me fs_icache] in *. subst c.
  assert (Eo : op_end (mkLogged b l (mkLogState (o + 1) false)) = Ret (tt, mkLogged b l (mkLogState o false))).
  { unfold op_end. rewrite bind_gets. cbn [st].
    assert (E : end_section (mkLogState (o + 1) false) = Ret (if o =? 0 then (true, mkLogState o true) else (false, mkLogState o false))).
    { unfold end_section, sub_ovf. cbn [committing outstanding]. rewrite (proj2 (Z.leb_le _ _)) by lia.
      by replace (o + 1 - 1) with o by lia. }
    rewrite (bind_lift _ _ _ _ E). destruct (Z.eqb_spec o 0) as [->|_]; [|done]. cbn [fst snd].
    rewrite bind_modify. unfold op_commit. unfold mbind, M_bind, gets. cbn [lg set_st]. by rewrite (Hidle eq_refl). }
  erewrite bind_run by (apply (zoom_run fs_log put_log); unfold op_begin; rewrite bind_gets; cbn [id lg st fs_log]; by rewrite Hready).
  unfold expect_r. erewrite (bind_run (iput ip ≫= _)).
  2:{ erewrite bind_run by (apply iput_keeps; [exact Hme|exact Hi|exact Hk]). done. }
  erewrite bind_run by (apply (zoom_run fs_log put_log); exact Eo). done.
Qed.

(** [exit] of a process all of whose files are open elsewhere too. *)
Lemma exit_quiet me status p wd i s :
  good_table (tr_tab s) -> running (tr_tab s) me -> me <> init_slot (tr_tab s) ->
  (procs (tr_tab s)).[me] = Some p -> Proc.pid p <> 0 -> shared (files p) (wfiles s) ->
  cwd p = Some wd -> (fs_icache (wfs s)).[wd] = Some i -> put_keeps i -> log_quiet (fs_log (wfs s)) ->
  exists s', exit me status s = Ret (tt, s') /\ fs_log (wfs s') = fs_log (wfs s) /\
    (forall f x, (wfiles s).[f] = Some x -> (wfiles s').[f] = Some (drop_ref (held f (files p)) x)) /\
    fs_icache (wfs s') = (fs_icache (wfs s)).[wd <- set_ref (i_ref i - 1) i].
Proof.
  intros Hg Hrun Hni Hp Hpid Hsh Hwd Hi Hk Hq. destruct (close_files_shared me (files p) s Hsh) as (F' & Ec & HF').
  unfold exit. rewrite bind_gets.
  pose proof (table_init_range proc_addr _ (proj1 Hg)) as Hir.
  rewrite !bind_assert by (by apply Z.leb_le || by apply negb_true_iff, Z.eqb_neq).
  rewrite (bind_run _ _ _ _ _ (this_run _ _ _ Hp)), (bind_run _ _ _ _ _ Ec), Hwd.
  cbn [expect]. change (wd ← mret wd; expect_r (iput wd) _) with (expect_r (iput wd) "iput cwd"). set (s1 := put_wfiles F' s).
  assert (Hp1 : (procs (tr_tab s1)).[me] = Some p) by exact Hp.
  assert (Ep := put_quiet wd i (fs_for p s1) Hpid Hi Hk Hq).
  assert (Ef : in_fs me (fs_with_op (expect_r (iput wd) "iput cwd")) s1 =
    Ret (tt, put_wfs (put_icache (fs_icache (wfs s)).[wd <- set_ref (i_ref i - 1) i] (fs_for p s1)) s1)).
  { unfold in_fs. rewrite (bind_run _ _ _ _ _ (this_run _ _ _ Hp1)). unfold zoom. fold (fs_for p s1). by rewrite Ep. }
  rewrite (bind_run _ _ _ _ _ Ef).
  destruct (exit_runs proc_addr addr_inj (tr_tab s) me status Hg Hrun Hir Hni) as (r & t' & Ex & _).
  eexists. split; [by erewrite bind_run by (apply on_tab_run; exact Ex)|]. split; [done|]. split; [exact HF'|done].
Qed.

(** ** Property *)

(** C15: A fault in user mode is the process's own affair.  A page fault or any
    exception that is not a device's, taken from user mode by a running process
    other than init, comes to marking the process as killed and its [exit] with
    status 1, and nothing else; in particular [trap] itself does not panic.
    When that [exit], which closes the process's files and puts its directory
    back, returns to the scheduler, the process is a zombie with status 1, the
    clock is as it was, the process table keeps its invariants, and every other
    running process goes on running.  And it does return, without a panic and
    without reading or writing a block, if the process's files are all open
    elsewhere too, its directory is not locked and not deleted by being put
    back, and the log has room for one operation and is empty when idle: then
    each file and the directory have the process's references fewer. *)
Theorem user_fault_ends_process kbd_interrupt uart_interrupt sd_interrupt eoi vecnum f k p (s : Sys) :
  fault vecnum -> is_user f = true -> try_myproc f = Some k -> (procs (tr_tab s)).[k] = Some p ->
  good_table (tr_tab s) -> running (tr_tab s) k -> k <> init_slot (tr_tab s) ->
  let s1 := kill_in k p s in
  sys_trap proc_addr tickchan SLAB_NPIPES read_chan write_chan kbd_interrupt uart_interrupt sd_interrupt eoi vecnum f s =
    (exit k 1;; mret Exited) s1 /\
  (forall s', exit k 1 s1 = Ret (tt, s') -> exited k 1 s s') /\
  (forall wd i, Proc.pid p <> 0 -> shared (files p) (wfiles s) -> cwd p = Some wd ->
     (fs_icache (wfs s)).[wd] = Some i -> put_keeps i -> log_quiet (fs_log (wfs s)) ->
     exists s', exit k 1 s1 = Ret (tt, s') /\ fs_log (wfs s') = fs_log (wfs s) /\
       (forall f x, (wfiles s).[f] = Some x -> (wfiles s').[f] = Some (drop_ref (held f (files p)) x)) /\
       fs_icache (wfs s') = (fs_icache (wfs s)).[wd <- set_ref (i_ref i - 1) i]).
Proof.
  intros Hf Hu Hm Hp Hg Hrun Hni s1. split; [by apply fault_exits|].
  destruct (private_tame proc_addr (tr_tab s) k (set_killed true) (tr_tab s1) (upd_proc_run _ _ _ _ Hp) (set_killed_private true))
    as [Htame Hst]; [apply Hg|].
  pose proof (tame_good proc_addr _ _ Htame Hg) as Hg1.
  assert (Hr1 : forall j, running (tr_tab s1) j <-> running (tr_tab s) j) by (intros j; unfold running; by rewrite Hst).
  split.
  - intros s' E. destruct (exit_ends k 1 s1 s' E Hg1) as (A1 & A2 & A3 & A4); [by apply Hr1|].
    split; [done|]. split; [done|]. split; [done|]. intros j. by rewrite A4, Hr1.
  - intros wd i Hpid Hsh Hwd Hi Hk Hq. apply (exit_quiet k 1 (set_killed true p) wd i s1); try done; [by apply Hr1|].
    by apply (znth_set_eq _ _ _ p).
Qed.
End spec.

(** ** A page fault of a child that shares the console and the root directory
    with init *)
Module FaultDemo.
Definition addr (k : Z) : Z := 7000 + k.
Definition child : Proc Z :=
  mkProc RUNNING 5 (Some 7000) false (Some SysDemo.root) (Some 1) (zrep 16 0) PAGE_SIZE (Some 0 :: zrep (NOFILE - 1) None) (Some 0).
Definition dir : Inode := mkInode ROOTDEV 1 None 2 Sleeplock_new true (mkDInode 1 0 0 1 0 (zrep 13 0)).
Definition files : list (@File Like) := [mkFile OfReadWrite (Some LConsole) 0 2; File_new].
Definition fs0 : Fs Bio := put_icache [dir] SysDemo.fs.
Definition sys0 : Sys (S := Bio) :=
  mkTrap 9 (mkTable [SysDemo.init; child] 6 0) (mkWorld files SysDemo.fl3 fs0 ∅ None SysDemo.con).
Definition frame0 : Frame := mkFrame 1 (Some 1) true.
Definition no_dev : M (Sys (S := Bio)) unit := mret tt.

Lemma slots k p : (procs (tr_tab sys0)).[k] = Some p -> k = 0 /\ p = SysDemo.init \/ k = 1 /\ p = child.
Proof.
  intros Hk. pose proof (znth_range _ _ _ Hk) as Hr. change (zlen _) with 2 in Hr.
  assert (k = 0 \/ k = 1) as [->| ->] by lia; injection Hk as <-; auto.
Qed.
Lemma fault_addr_inj j k : addr j = addr k -> j = k.
Proof. unfold addr. lia. Qed.
Lemma good0 : ProcSpec.good addr (tr_tab sys0).
Proof.
  split; [split|].
  - by intros k p [[-> ->]|[-> ->]]%slots.
  - intros k p [[-> ->]|[-> ->]]%slots _; split; by eexists.
  - intros k p [[-> ->]|[-> ->]]%slots _; exists 0, SysDemo.init; by repeat split.
  - intros k p j q [[-> ->]|[-> ->]]%slots Hz; discriminate Hz.
  - intros k p [[-> ->]|[-> ->]]%slots _ Hpar; [done|discriminate Hpar].
  - exists SysDemo.init. by repeat split.
  - intros k p [[-> ->]|[-> ->]]%slots; [done|]. intros. by eexists.
Qed.
Lemma shared0 : shared (Proc.files child) files.
Proof.
  intros f Hf. assert (f = 0) as ->.
  { apply elem_of_cons in Hf as [[= ->]|Hf]; [done|]. unfold zrep in Hf.
    by apply elem_of_replicate in Hf as [? _]. }
  eexists. split; [reflexivity|]. by vm_compute.
Qed.
Lemma quiet0 : log_quiet (fs_log fs0).
Proof. split; [by vm_compute|]. split; [by vm_compute|done]. Qed.
End FaultDemo.

Lemma user_fault_ends_process_witness :
  exists s', sys_trap FaultDemo.addr 2 20 SysDemo.chans SysDemo.chans FaultDemo.no_dev FaultDemo.no_dev FaultDemo.no_dev
      FaultDemo.no_dev PAGE_FAULT FaultDemo.frame0 FaultDemo.sys0 = Ret (Exited, s') /\
    exited FaultDemo.addr 1 1 FaultDemo.sys0 s' /\
    f_ref <$> (w_files (tr_dev s')).[0] = Some 1 /\ i_ref <$> (fs_icache (w_fs (tr_dev s'))).[0] = Some 1.
Proof.
  destruct (user_fault_ends_process FaultDemo.addr 2 20 SysDemo.chans SysDemo.chans FaultDemo.fault_addr_inj FaultDemo.no_dev
    FaultDemo.no_dev FaultDemo.no_dev FaultDemo.no_dev PAGE_FAULT FaultDemo.frame0 1 FaultDemo.child FaultDemo.sys0)
    as (E & Hx & Hq).
  - vm_compute. repeat split; congruence.
  - reflexivity.
  - reflexivity.
  - reflexivity.
  - exact FaultDemo.good0.
  - reflexivity.
  - vm_compute. congruence.
  - destruct (Hq 0 FaultDemo.dir) as (s' & Es & _ & Hf & Hi).
    + vm_compute. congruence.
    + exact FaultDemo.shared0.
    + reflexivity.
    + reflexivity.
    + split; [reflexivity|split; [vm_compute; reflexivity|vm_compute; reflexivity]].
    + exact FaultDemo.quiet0.
    + exists s'. split; [rewrite E; exact (bind_run _ _ _ _ _ Es)|]. split; [exact (Hx s' Es)|].
      split; [rewrite (Hf 0 _ eq_refl); vm_compute; reflexivity|rewrite Hi; vm_compute; reflexivity].
Defined.
